(* ===== verification/_CoqProject ===== *)
-Q . S2P
Prelude.v
JsNumber.v
Json.v
JsMap.v
JsonTree.v
AuditChain.v
Review.v
Regex.v
Glob.v
DiffFilter.v
Errors.v
Retry.v
Schema.v
Cost.v
Conversation.v
Gitleaks.v
Tools.v
Untrusted.v
Workspace.v
AutoFetch.v
Dedup.v
SystemPrompt.v
Runner.v
Agent.v
AgentLemmas.v
AgentSpec.v
EvalRecorder.v
AgentFrame.v
History.v
Commands.v
Feedback.v
ReviewStateStore.v
Incremental.v
StateComment.v
Queue.v
Webhook.v
WebhookSpec.v
Sns.v
SnsSpec.v
NumberText.v
Presets.v
Codec.v
SkillLoader.v
InjectionDetector.v
Config.v
ConfigLoad.v
OrgConfig.v
Llm.v
ProviderBase.v
Anthropic.v
OpenAI.v
Providers.v
Byok.v
ByokSpec.v
Vcs.v
CodecommitAdapter.v
GithubAdapter.v
Tenancy.v
AppAuth.v
Action.v
Codecommit.v
CodecommitSpec.v
Worker.v
SeverityGate.v
CategoryGate.v
Judge.v
EvalScripts.v
Dates.v
CostLedger.v
Cursor.v
Dashboard.v
DashboardSpec.v
GithubSetup.v
Recover.v
Backfill.v
Cli.v
CliSpec.v
Setup.v
WebClient.v
Maintenance.v
