(* ===== verification/Prelude.v ===== *)
(** * review-agent: a verification development (root)

    review-agent reviews pull requests with a language model: a GitHub Action, a CLI or a
    webhook server with a queue collects a pull request, the runner filters its diff, scans it
    for secrets, asks a provider, checks the answer against a schema and a URL allowlist,
    filters the findings and posts what is left. This library models the program's own logic in
    Rocq, from the TypeScript under src/packages/, and proves what makes it correct. Every
    definition is executable, and every property with a hypothesis has a witness: the property
    applied to concrete data ([..._witness]).

    ** Conventions

    A JavaScript string is a list of code units of the Latin-1 range ([str]); characters of the
    source outside that range (dashes, arrows, emoji in printed texts) are parameters. Counts are
    [Z] or [nat]; JavaScript numbers that are computed with (money, rates, scores, parsed options)
    are IEEE doubles ([JsNumber]). A parsed JSON value is a [json] ([JsonTree]) whose objects list
    their members in insertion order ([JsMap]); members named like those of every JavaScript object
    ([__proto__], [constructor], [toString]) are outside the model.

    Asynchronous code that can throw is [eff S E A], a function from a state to a result or a thrown
    value and the next state: [await] is the bind of the monad, [try]/[catch] is [tryCatch]. Code of
    third parties (the language model and its SDKs, GitHub's and AWS's clients, the database driver,
    SHA-256, HMAC, RSA and AES, JSON, YAML, date and URL parsing, the engine behind the operator's own
    regular expressions, files and child processes) is a parameter, and what a theorem needs of it is
    a named hypothesis. The database tables are data: a list of rows, a map, a set; a row policy is
    what a connection may see and write of them ([Tenancy]).

    ** Files

    Foundations
    - Prelude: this file; strings, the effect monad, tactics, the lemmas the others share.
    - JsNumber, NumberText: doubles; the language's readings of a number in a text, and [toFixed].
    - Json, JsMap, JsonTree, Codec: the JSON text of hashed objects; maps in insertion order; parsed
      values; the combinators of the schema library as readers, with the classes [Codec] and [Member]
      (a reader, its writer, and the values on which they are inverse) that the schemas instantiate.
    - Regex, Dates: regular expressions as languages with a matcher and a parser; days of [Date].

    The core and the runner (core/src, runner/src)
    - Review: findings, severities, [computeReviewEvent]. Errors, Retry: what is thrown; the loop that
      retries and its policies. Schema: the output schema, the persisted state and the URL allowlist.
    - Glob: globs translated by the source's own passes, equal to a direct reading of the glob.
      DiffFilter: splitting a diff, excluding files, printing it back.
    - Cost: the cost decision and the guard, over the class [CostCell] of a run's spend.
    - Gitleaks: the scanner in process, redaction, the external scanner's process, report and
      configuration file. Tools: the sandboxed file tools over a tree with symbolic links. AutoFetch:
      companion files within a budget. Untrusted, SystemPrompt: what the model is told.
    - InjectionDetector: untrusted blocks classified through a cache. SkillLoader: skill files.
    - Dedup: fingerprints, deduplication, the persisted state, resolution of feedback.
    - Incremental (core/src/incremental.ts): what follows the last reviewed commit.
    - Runner, Agent, AgentLemmas, AgentSpec, AgentFrame (runner/src/agent.ts, types.ts): the types, the
      review loop composed of the parts above, what a review guarantees, and what it leaves alone.
    - EvalRecorder: the event recorded after a review. Conversation: replies in review threads.
    - History (db/src/review-history.ts), Commands (server/src/utils/), Feedback
      (runner/src/feedback-writer.ts): the history table, the commands in comments, the writer that
      turns feedback into history and suppression rules.

    Configuration (config/src)
    - Config, Presets, ConfigLoad, OrgConfig: the schema with its defaults, bundled presets and their
      merge, the loader with the environment, the organisation's file and its cache.

    Providers (llm/src)
    - Llm, ProviderBase, Anthropic, OpenAI, Providers: types and prices, the shared driver, the seven
      providers and the dispatcher, against the contract the runner expects of a provider.

    Platforms (platform-github/src, platform-codecommit/src, core/src/vcs.ts)
    - Vcs: the interface an adapter implements, the path guard, the registry of platforms.
    - GithubAdapter, CodecommitAdapter: the two adapters over records of SDK calls.
    - StateComment: the hidden comment that carries the review state. AppAuth: installation tokens.

    Tables (db/src)
    - Tenancy: row policies. ReviewStateStore: the mirror of the review state. AuditChain: the hash
      chain, its appender, verifiers and retention. CostLedger: recorded calls and daily totals.
    - Byok, ByokSpec (core/src/kms, db/src/byok-store.ts, server/src/api/llm-keys.ts): customers' keys
      under an envelope, and the routes as a map from tenant and provider to a secret.

    The server (server/src)
    - Queue: the job message, the sender and the two consumers. Worker: the consumer's debounce and
      the clean-ups under advisory locks. Workspace: the files a review may see.
    - Webhook, WebhookSpec: the GitHub receiver with its middlewares over the server's tables.
    - Sns, SnsSpec, Codecommit, CodecommitSpec: signed notifications and the CodeCommit receiver.
    - Cursor, Dashboard, DashboardSpec: cursors, the REST API over its tables. GithubSetup: the
      installation redirects and the registration of repositories.

    The front ends (action/src, cli/src, web/src)
    - Action: inputs, skip rules, coordination, the review and its writes.
    - Cli, CliSpec: [review] and [dry-run]. Setup: [setup workspace], [config validate], [config
      presets list], [eval]. Maintenance: [suppression], [audit prune], [audit export]. Recover,
      Backfill: the recovery commands and the reaction backfill.
    - WebClient (web/src): the dashboard's requests, its mock server, its formats and forms.

    Evaluation (eval/scripts)
    - SeverityGate, CategoryGate: the two gates and the recording of a baseline. Judge: grading
      comments with a model and recording the score. EvalScripts: the shim that feeds the severity
      gate, the matrix, the measurement and its recording.

    ** How the parts interact

    [Agent.runReviewInner] calls, in order: the history and suppression readers, [DiffFilter] with
    [Glob], [Gitleaks] on the diff, [AutoFetch] through [Tools], [Untrusted], the provider inside
    [Runner.compose] of the injection guard and [Cost.createCostGuard], [Schema] on the answer (one
    retry), [Dedup], the confidence, ruleset and suppression filters, [Gitleaks] on the output, and
    [Review.computeReviewEvent]. [EvalRecorder.runReview] wraps it. Its provider is an arbitrary
    effect, and [Providers.createProvider] implements it.

    [Action.runAction] and [Cli.runReviewCommand] load the configuration ([ConfigLoad],
    [Presets], [SkillLoader]), choose the diff ([Incremental], [StateComment]), run the review and
    write through a [Vcs] record that the adapters implement. [Webhook.postWebhook] passes a signed,
    new delivery to [handleWebhook], which parses [Commands] and puts jobs on the queue;
    [Codecommit] does so behind [Sns]; [Queue.dequeue] and [Worker] take them off. The feedback path
    goes through [Commands], [Dedup.resolveFingerprint] and [Feedback.record] into [History], whose
    rows come back to the next review as learned facts, rejected fingerprints and suppressions;
    [Recover] and [Backfill] refill that table. The routes of [Byok], [Dashboard] and [GithubSetup]
    run in the transactions of [Tenancy].

    ** The theorems

    What is posted (AgentSpec): only findings of the model's own answer that passed every filter,
    never a secret the scanner finds; a refused, leaking or oversized diff never reaches the model,
    and every provider honours one contract (Providers). The front ends (Action, CliSpec): the pull
    request that was read is written only when nothing objected and the confirmation was answered
    with yes, and a dry run prints the findings the real one posts. The receivers (WebhookSpec,
    SnsSpec, CodecommitSpec): no effect without a signature, each delivery once while the record of
    it is kept, no command without write access, jobs only for what the payload itself names; a
    deleted message is a finished job (Queue). Feedback: enough rejections mute a finding, under the
    documented wiring. Conversation: replies that follow one another stay within the turn limit, and
    [c] that overlap pass it by at most [c - 1]. The adapters: a review is posted in order and stops
    at the first refused post (CodecommitAdapter), a token is the row's or the minting client's
    (AppAuth). Tables: two logs that verify and end in one hash record the same rows, unless they show
    where the hash collides or meets the genesis value (AuditChain), a prune keeps a log that verifies and an export is
    the tenant's rows by key (Maintenance), keys and repositories are maps (ByokSpec,
    DashboardSpec), pages cover a list once (DashboardSpec), recovery is idempotent and authorised
    (Recover), a cost total is the sum of the recorded calls. Confinement: the file tools, the
    workspace, the title in the envelope. Configuration: round trip of the schema, documented
    defaults, layers of presets, well-typed results, and [config validate] agrees with the loader
    where it answers (Setup). The browser (WebClient): filters survive the way to the
    server, the server's schemas accept what the forms let through, and a deletion is reported as
    failed although it was done. Evaluation: a recorded baseline passes its gate, every comment is
    accounted for, the gate reads what the shim prints. Beside these, each
    file proves the functional behaviour of its operations; where the code does something else than
    its comments or documents say, an [Example] or a theorem shows it.

    ** Fuel and bounds

    Loops over lists and strings are structural. [withRetry] recurses on the number of attempts
    left, tree walks on the tree; the regular expression matcher is structural on the string and its
    parser runs on the length of the text. A walk over a service's pages takes fuel and answers
    [None] when it is used up: [walk_chain] and [walk_pages] (CodecommitAdapter) and [backfill_ends]
    (Backfill) show that fuel beyond the number of pages never is, and [every_review_is_on_one_page]
    (DashboardSpec) that a reader who follows the cursors ends. The loops over arguments run on the
    length of [argv], which [enough_fuel] shows to be enough in each file.

    ** Not modelled

    - The React components of the dashboard (packages/web): markup, navigation, translations, the
      cache of queries. What they compute and send is in WebClient.
    - Process start-up and OpenTelemetry instruments (server/src/index.ts, otel.ts, metrics.ts).
    - The wiring of commander in cli/src/program.ts and the printing of the JSON schema: the parsing
      of a command line and the schema's text belong to libraries. The spawning of the eval suite.
    - In packages/eval: the fixtures and the scripts that check their directories. The order in
      which the schema library prints an object's members is a parameter where a script prints one.
    - SQL text: a query is modelled by what it does to the table. Real time and the interleaving of
      concurrent requests: a handler runs from start to end, with the database's own atomic
      statements as steps; where a race matters (the delivery table, the turns of a conversation, the
      advisory locks, the queue's visibility, the appends to the audit log) the steps are explicit.
    - A file system beyond names and contents: the tools see a tree with links and error codes, a
      write of [audit export] may stop in the middle; permissions and other processes are not state.

    What remains of the program beyond this list is the glue between the parts. *)

From Stdlib Require Export Ascii ZArith Lia.
From stdpp Require Export base list strings gmap pretty.

(** ** Automation *)

Create HintDb js.

(** Split every boolean test, [decide] and [match] of the goal, closing what simplification
    closes. *)
Ltac split_cases :=
  repeat (case_match; simplify_eq/=; try done).

(** Turn boolean hypotheses and goals into propositions. *)
Ltac to_prop :=
  repeat match goal with
  | H : bool_decide _ = true |- _ => apply bool_decide_eq_true in H
  | H : bool_decide _ = false |- _ => apply bool_decide_eq_false in H
  | H : (_ && _) = true |- _ => apply andb_true_iff in H as [? ?]
  | H : (_ && _) = false |- _ => apply andb_false_iff in H
  | H : (_ || _) = true |- _ => apply orb_true_iff in H
  | H : (_ || _) = false |- _ => apply orb_false_iff in H as [? ?]
  | H : negb _ = true |- _ => apply negb_true_iff in H
  | H : negb _ = false |- _ => apply negb_false_iff in H
  | H : (_ <? _)%Z = true |- _ => apply Z.ltb_lt in H
  | H : (_ <? _)%Z = false |- _ => apply Z.ltb_ge in H
  | H : (_ <=? _)%Z = true |- _ => apply Z.leb_le in H
  | H : (_ <=? _)%Z = false |- _ => apply Z.leb_gt in H
  | H : (_ =? _)%Z = true |- _ => apply Z.eqb_eq in H
  | H : (_ =? _)%Z = false |- _ => apply Z.eqb_neq in H
  | H : (_ <? _)%nat = true |- _ => apply Nat.ltb_lt in H
  | H : (_ <? _)%nat = false |- _ => apply Nat.ltb_ge in H
  | H : (_ <=? _)%nat = true |- _ => apply Nat.leb_le in H
  | H : (_ <=? _)%nat = false |- _ => apply Nat.leb_gt in H
  | H : (_ =? _)%nat = true |- _ => apply Nat.eqb_eq in H
  | H : (_ =? _)%nat = false |- _ => apply Nat.eqb_neq in H
  end.

(** A loop over a list that consumes at least one element per step gives the same answer on any two
    fuels that are at least the list's length. *)
Ltac enough_fuel :=
  intros n; induction n as [|n IH]; intros [|m] [|x rest] a Hn Hm; simpl length in Hn, Hm;
  try reflexivity; try lia; simpl; repeat case_match; try reflexivity;
  apply IH; destruct rest; simpl in *; lia.

(** A closed non-membership, by evaluation. *)
Ltac not_in := refine (bool_decide_eq_false_1 (_ ∈ _) _); vm_compute; reflexivity.

(** ** Strings

    A JavaScript string is the list of its code units; the model's code units are the 256
    values of [ascii] (the Latin-1 range), on which the operations below are exactly the
    ones of the language. *)

Abbreviation str := (list ascii).

Definition js (s : string) : str := String.list_ascii_of_string s.
Coercion js : string >-> list.

Definition code (c : ascii) : N := N_of_ascii c.

(** [String.prototype.toLowerCase] on one code unit of the Latin-1 range. *)
Definition lower_char (c : ascii) : ascii :=
  let n := code c in
  if (((65 <=? n) && (n <=? 90)) || (((192 <=? n) && (n <=? 222)) && negb (n =? 215)))%N
  then ascii_of_N (n + 32) else c.

Definition toLowerCase (s : str) : str := map lower_char s.

(** ASCII case folding: the [i] flag of a regular expression whose pattern is ASCII. *)
Definition fold_char (c : ascii) : ascii :=
  let n := code c in
  if ((65 <=? n) && (n <=? 90))%N then ascii_of_N (n + 32) else c.

(** The white space of [\s] and [trim] within the Latin-1 range. *)
Definition is_ws (c : ascii) : bool :=
  let n := code c in (((9 <=? n) && (n <=? 13)) || (n =? 32) || (n =? 160))%N.

Definition newline : ascii := "010"%char.
Definition nl : str := [newline].
Definition quote : str := ["034"%char].
Definition eqc (a b : ascii) : bool := Ascii.eqb a b.
#[global] Arguments eqc : simpl never.

Fixpoint startsWith (s p : str) {struct p} : bool :=
  match p, s with
  | [], _ => true
  | a :: p', b :: s' => eqc a b && startsWith s' p'
  | _ :: _, [] => false
  end.

Definition endsWith (s p : str) : bool := startsWith (rev s) (rev p).

Fixpoint includes (s p : str) : bool :=
  startsWith s p || match s with [] => false | _ :: s' => includes s' p end.

(** [s.indexOf(p)], [None] for -1. *)
Fixpoint indexOf (s p : str) : option nat :=
  if startsWith s p then Some 0
  else match s with
       | [] => None
       | _ :: s' => S <$> indexOf s' p
       end.

Fixpoint dropWhile (f : ascii -> bool) (s : str) : str :=
  match s with
  | [] => []
  | c :: s' => if f c then dropWhile f s' else s
  end.

Definition trimStart (s : str) : str := dropWhile is_ws s.
Definition trimEnd (s : str) : str := rev (dropWhile is_ws (rev s)).
Definition trim (s : str) : str := trimEnd (trimStart s).

(** [Array.prototype.join]. *)
Fixpoint join (sep : str) (l : list str) : str :=
  match l with
  | [] => []
  | [x] => x
  | x :: l' => x ++ sep ++ join sep l'
  end.

(** The pieces of a string between the leftmost non-overlapping matches of a matcher of fixed
    width [w]: [mt s] tells whether a match starts at the head of [s]; [skip] counts the
    characters of a match still to be dropped. *)
Fixpoint splitGo (mt : str -> bool) (w : nat) (skip : nat) (s : str) : list str :=
  match s with
  | [] => [[]]
  | c :: s' =>
      match skip with
      | S k => splitGo mt w k s'
      | O =>
          if mt s then [] :: splitGo mt w (w - 1) s'
          else match splitGo mt w 0 s' with
               | [] => [[c]]
               | x :: xs => (c :: x) :: xs
               end
      end
  end.

(** [s.split(p)] for a non-empty string [p]. *)
Definition split (s p : str) : list str :=
  splitGo (fun t => startsWith t p) (length p) 0 s.

(** [startsWith] up to ASCII case. *)
Definition startsWithI (s p : str) : bool :=
  startsWith (map fold_char s) (map fold_char p).

(** [includes] up to ASCII case: the test of [/p/i] for a literal [p]. *)
Definition includesI (s p : str) : bool := includes (map fold_char s) (map fold_char p).

(** [s.replace(/p/g, r)] and [s.replace(/p/gi, r)] for a literal [p]. *)
Definition replaceAll (s p r : str) : str := join r (split s p).
Definition replaceAllI (s p r : str) : str :=
  join r (splitGo (fun t => startsWithI t p) (length p) 0 s).

(** [s.split(/\s+/)]: a run of white space is one separator. *)
Fixpoint splitWs (s : str) : list str :=
  match s with
  | [] => [[]]
  | c :: s' =>
      if is_ws c then
        match s' with
        | c' :: _ => if is_ws c' then splitWs s' else [] :: splitWs s'
        | [] => [] :: splitWs s'
        end
      else match splitWs s' with
           | [] => [[c]]
           | x :: xs => (c :: x) :: xs
           end
  end.

(** [`${n}`] for an integer. *)
Definition showZ (n : Z) : str := pretty n.
Definition showN (n : nat) : str := showZ (Z.of_nat n).

(** A string that is present and not empty: what passes a test like [if (!s)]. *)
Definition truthyStr (o : option str) : option str :=
  match o with Some ((_ :: _) as s) => Some s | _ => None end.

Definition Zlen {A} (l : list A) : Z := Z.of_nat (length l).

(** *** Lemmas on strings *)

Lemma truthyStr_Some o s : truthyStr o = Some s -> o = Some s /\ s <> [].
Proof. destruct o as [[|c o]|]; cbn; [done| |done]. by intros [= <-]. Qed.

Lemma truthyStr_ne s : s <> [] -> truthyStr (Some s) = Some s.
Proof. by destruct s. Qed.

Lemma eqc_true a b : eqc a b = true <-> a = b.
Proof. apply Ascii.eqb_eq. Qed.

Lemma eqc_refl a : eqc a a = true.
Proof. by apply eqc_true. Qed.

Lemma startsWith_app p s : startsWith (p ++ s) p = true.
Proof. induction p as [|a p IH]; [done|]; simpl. by rewrite eqc_refl. Qed.

Lemma startsWith_spec s p : startsWith s p = true <-> exists t, s = p ++ t.
Proof.
  split; [|intros [t ->]; apply startsWith_app].
  revert s; induction p as [|a p IH]; intros [|b s]; simpl; try done; eauto.
  intros [->%eqc_true [t ->]%IH]%andb_true_iff. by exists t.
Qed.

Lemma startsWith_refl p : startsWith p p = true.
Proof. apply startsWith_spec. exists []. by rewrite app_nil_r. Qed.

Lemma startsWith_nil s : startsWith s [] = true.
Proof. by destruct s. Qed.

Lemma startsWith_length s p : startsWith s p = true -> length p <= length s.
Proof. intros [t ->]%startsWith_spec. rewrite length_app. lia. Qed.

Lemma endsWith_spec s p : endsWith s p = true <-> exists t, s = t ++ p.
Proof.
  unfold endsWith. rewrite startsWith_spec. split; intros [t H].
  - exists (rev t). rewrite <- (rev_involutive s), H, rev_app_distr. by rewrite rev_involutive.
  - exists (rev t). by rewrite H, rev_app_distr.
Qed.

Lemma includes_spec s p : includes s p = true <-> exists a b, s = a ++ p ++ b.
Proof.
  split.
  - induction s as [|c s IH]; simpl; intros [H|H]%orb_true_iff; try done.
    + apply startsWith_spec in H as [t ->]. by exists [], t.
    + apply startsWith_spec in H as [t ->]. by exists [], t.
    + destruct (IH H) as (a & b & ->). by exists (c :: a), b.
  - intros (a & b & ->). induction a as [|c a IH]; simpl.
    + destruct (p ++ b) eqn:E; simpl; rewrite <- E, startsWith_app; done.
    + by rewrite IH, orb_true_r.
Qed.

Lemma includes_false_app a p b s : includes s p = false -> s <> a ++ p ++ b.
Proof.
  intros H ->. assert (includes (a ++ p ++ b) p = true) by (apply includes_spec; eauto).
  congruence.
Qed.

Lemma indexOf_None s p : indexOf s p = None <-> includes s p = false.
Proof.
  induction s as [|c s IH]; simpl; destruct (startsWith _ p); simpl; try done.
  rewrite fmap_None. done.
Qed.

Lemma indexOf_Some s p i :
  indexOf s p = Some i -> startsWith (drop i s) p = true /\ i + length p <= length s.
Proof.
  revert i; induction s as [|c s IH]; simpl; intros i.
  - destruct (startsWith [] p) eqn:E; [|done]. intros [= <-].
    split; [done|]. apply startsWith_length in E. simpl in *. lia.
  - destruct (startsWith (c :: s) p) eqn:E.
    + intros [= <-]. split; [done|]. apply startsWith_length in E. simpl in *. lia.
    + intros (j & Hj & ->)%fmap_Some. apply IH in Hj as [Hj ?]. simpl. split; [done|lia].
Qed.

(** [trimEnd] drops a suffix of white space. *)
Lemma dropWhile_suffix f s : exists w, s = w ++ dropWhile f s /\ forallb f w = true.
Proof.
  induction s as [|c s [w [IH Hw]]]; simpl; [by exists []|].
  destruct (f c) eqn:E; [|by exists []]. exists (c :: w). simpl. rewrite <- IH, E. done.
Qed.

Lemma trimEnd_prefix s : exists w, s = trimEnd s ++ w /\ forallb is_ws w = true.
Proof.
  unfold trimEnd. destruct (dropWhile_suffix is_ws (rev s)) as (w & H & Hw).
  exists (rev w). split.
  - rewrite <- rev_app_distr, <- H. by rewrite rev_involutive.
  - rewrite forallb_forall in *. intros c Hc. apply Hw. by apply in_rev.
Qed.

(** *** [split] and [join] *)

Lemma splitGo_skip mt w k s : splitGo mt w k s = splitGo mt w 0 (drop k s).
Proof. revert k; induction s as [|c s IH]; intros [|k]; try done. simpl. apply IH. Qed.

Lemma splitGo_not_nil mt w k s : splitGo mt w k s <> [].
Proof.
  revert k; induction s as [|c s IH]; intros [|k]; simpl; try done.
  destruct (mt _); [done|]. by destruct (splitGo mt w 0 s).
Qed.

Lemma splitGo_cons_nomatch mt w c s :
  mt (c :: s) = false ->
  exists x xs, splitGo mt w 0 s = x :: xs /\ splitGo mt w 0 (c :: s) = (c :: x) :: xs.
Proof.
  intros H. simpl. rewrite H. pose proof (splitGo_not_nil mt w 0 s).
  destruct (splitGo mt w 0 s); [done|]. eauto.
Qed.

Lemma join_cons sep x l : l <> [] -> join sep (x :: l) = x ++ sep ++ join sep l.
Proof. by destruct l. Qed.

Lemma join_cons_char sep c x l : join sep ((c :: x) :: l) = c :: join sep (x :: l).
Proof. by destruct l. Qed.

Lemma join_split s p : p <> [] -> join p (split s p) = s.
Proof.
  intros Hp. unfold split. remember (length s) as n eqn:Hn.
  revert s Hn. induction (lt_wf n) as [n _ IH]; intros s ->.
  destruct s as [|c s]; [done|].
  destruct (startsWith (c :: s) p) eqn:E.
  - simpl. rewrite E. rewrite join_cons by apply splitGo_not_nil. simpl.
    rewrite splitGo_skip. apply startsWith_spec in E as [t Ht].
    destruct p as [|a p]; [done|]. simpl in Ht. injection Ht as -> ->.
    simpl. rewrite Nat.sub_0_r, drop_app_length.
    f_equal. f_equal. refine (IH _ _ t eq_refl). simpl. rewrite length_app. lia.
  - destruct (splitGo_cons_nomatch (fun t => startsWith t p) (length p) c s E)
      as (x & xs & Hx & ->).
    rewrite join_cons_char. f_equal. rewrite <- Hx. refine (IH _ _ s eq_refl). simpl. lia.
Qed.

(** Splitting on one character. *)
Definition splitChar (c : ascii) (s : str) : list str := split s [c].

Lemma startsWith_one c s x : startsWith (x :: s) [c] = eqc c x.
Proof. simpl. by rewrite andb_true_r. Qed.

Lemma splitChar_nil c : splitChar c [] = [[]].
Proof. done. Qed.

Lemma splitChar_sep c s : splitChar c (c :: s) = [] :: splitChar c s.
Proof.
  unfold splitChar, split. cbn [splitGo]. rewrite startsWith_one, eqc_refl. done.
Qed.

Lemma splitChar_other c x s :
  c <> x ->
  exists y ys, splitChar c s = y :: ys /\ splitChar c (x :: s) = (x :: y) :: ys.
Proof.
  intros Hx. apply splitGo_cons_nomatch. rewrite startsWith_one.
  destruct (eqc c x) eqn:E; [|done]. apply eqc_true in E. done.
Qed.

Lemma splitChar_no_sep c s : c ∉ s -> splitChar c s = [s].
Proof.
  induction s as [|x s IH]; [done|]. rewrite not_elem_of_cons. intros [? Hs].
  destruct (splitChar_other c x s) as (y & ys & Hy & ->); [done|].
  rewrite IH in Hy by done. by injection Hy as <- <-.
Qed.

Lemma splitChar_app c s t :
  c ∉ s -> splitChar c (s ++ c :: t) = s :: splitChar c t.
Proof.
  induction s as [|x s IH]; simpl; [intros _; apply splitChar_sep|].
  rewrite not_elem_of_cons. intros [? Hs].
  destruct (splitChar_other c x (s ++ c :: t)) as (y & ys & Hy & ->); [done|].
  rewrite IH in Hy by done. by injection Hy as <- <-.
Qed.

Lemma app_sep_inj (c : ascii) s s' t t' :
  c ∉ s -> c ∉ s' -> s ++ c :: t = s' ++ c :: t' -> s = s' /\ t = t'.
Proof.
  intros Hs Hs' E. pose proof (f_equal (splitChar c) E) as Es.
  rewrite !splitChar_app in Es by done. injection Es as -> _.
  apply app_inv_head in E. by injection E as ->.
Qed.

(** The same from the end: what stands after the last separator. *)
Lemma app_last_sep_inj (c : ascii) s s' t t' :
  c ∉ t -> c ∉ t' -> s ++ c :: t = s' ++ c :: t' -> s = s' /\ t = t'.
Proof.
  intros Ht Ht' E. apply (f_equal reverse) in E.
  rewrite !reverse_app, !reverse_cons, <- !app_assoc in E.
  apply app_sep_inj in E as [Et Es]; [|by rewrite elem_of_reverse..].
  split; by apply (inj reverse).
Qed.

Lemma splitChar_pieces c s : Forall (fun x => c ∉ x) (splitChar c s).
Proof.
  induction s as [|x s IH].
  - rewrite splitChar_nil. repeat constructor. apply not_elem_of_nil.
  - destruct (decide (c = x)) as [<-|Hx].
    + rewrite splitChar_sep. constructor; [apply not_elem_of_nil|done].
    + destruct (splitChar_other c x s Hx) as (y & ys & Hy & ->).
      rewrite Hy in IH. inv IH. constructor; [|done]. rewrite not_elem_of_cons. done.
Qed.

(** Joining pieces that hold no separator and splitting again gives the pieces back. *)
Lemma splitChar_join c l :
  l <> [] -> Forall (fun x => c ∉ x) l -> splitChar c (join [c] l) = l.
Proof.
  intros Hl H. induction H as [|x l Hx H IH]; [done|].
  destruct l as [|y l]; [by apply splitChar_no_sep|].
  rewrite join_cons by done. simpl. rewrite splitChar_app by done.
  f_equal. by apply IH.
Qed.

Lemma join_app sep l1 l2 :
  l1 <> [] -> l2 <> [] -> join sep (l1 ++ l2) = join sep l1 ++ sep ++ join sep l2.
Proof.
  intros H1 H2. induction l1 as [|x l1 IH]; [done|].
  destruct l1 as [|y l1].
  - simpl. by destruct l2.
  - rewrite <- app_comm_cons, !join_cons by done. rewrite IH by done.
    by rewrite <- !app_assoc.
Qed.

(** *** [replaceAll] from left to right *)

Lemma replaceAll_nil p r : replaceAll [] p r = [].
Proof. done. Qed.

Lemma replaceAll_match p r s : p <> [] -> replaceAll (p ++ s) p r = r ++ replaceAll s p r.
Proof.
  intros Hp. unfold replaceAll, split. destruct p as [|a p]; [done|].
  rewrite <- app_comm_cons. cbn [splitGo].
  rewrite app_comm_cons, startsWith_app, join_cons by apply splitGo_not_nil.
  rewrite splitGo_skip. cbn [length]. rewrite Nat.sub_1_r. cbn [Nat.pred].
  by rewrite drop_app_length.
Qed.

Lemma replaceAll_nomatch p r c s :
  startsWith (c :: s) p = false -> replaceAll (c :: s) p r = c :: replaceAll s p r.
Proof.
  intros H. unfold replaceAll, split.
  destruct (splitGo_cons_nomatch (fun t => startsWith t p) (length p) c s H)
    as (x & xs & -> & ->). apply join_cons_char.
Qed.

(** No match starts inside a text that does not hold the first character of the pattern. *)
Lemma replaceAll_skip a p r t s :
  a ∉ t -> replaceAll (t ++ s) (a :: p) r = t ++ replaceAll s (a :: p) r.
Proof.
  intros H. induction t as [|c t IH]; [done|]. apply not_elem_of_cons in H as [Hc Ht].
  rewrite <- !app_comm_cons, replaceAll_nomatch, IH; [done|done|].
  simpl. destruct (eqc a c) eqn:E; [|done]. by apply eqc_true in E.
Qed.

Lemma eqc_false a b : eqc a b = false <-> a <> b.
Proof.
  rewrite <- not_true_iff_false. by rewrite eqc_true.
Qed.

(** *** Substrings of joined and replaced texts *)

Lemma includes_refl p : includes p p = true.
Proof. apply includes_spec. exists [], []. by rewrite app_nil_r. Qed.

Lemma includes_app_l a b p : includes a p = true -> includes (a ++ b) p = true.
Proof.
  rewrite !includes_spec. intros (x & y & ->). exists x, (y ++ b). by rewrite <- !app_assoc.
Qed.

Lemma includes_app_r a b p : includes b p = true -> includes (a ++ b) p = true.
Proof.
  rewrite !includes_spec. intros (x & y & ->). exists (a ++ x), y. by rewrite <- !app_assoc.
Qed.

Lemma includes_length s p : includes s p = true -> length p <= length s.
Proof. intros (a & b & ->)%includes_spec. rewrite !length_app. lia. Qed.

(** A text without the character [c] that stands in [a ++ c :: b] stands in [a] or in [b]. *)
Lemma includes_mid c a b p :
  c ∉ p -> p <> [] -> includes (a ++ c :: b) p = true ->
  includes a p = true \/ includes b p = true.
Proof.
  intros Hc Hp (x & y & H)%includes_spec. rewrite !includes_spec.
  apply app_eq_app in H as (l & [[-> H]|[-> H]]).
  - apply app_eq_app in H as (m & [[-> H]|[-> H]]).
    + destruct m as [|d m]; simplify_eq/=; [|set_solver].
      left. exists x, []. by rewrite !app_nil_r.
    + left. by exists x, m.
  - destruct l as [|d l]; simplify_eq/=.
    + destruct p; simplify_eq/=. set_solver.
    + right. by exists l, y.
Qed.

Lemma includes_joined sep l x p : x ∈ l -> includes x p = true -> includes (join sep l) p = true.
Proof.
  intros Hx Hp. induction l as [|y l IH]; [by apply elem_of_nil in Hx|].
  apply elem_of_cons in Hx. destruct l as [|z l].
  { destruct Hx as [->|Hx]; [done|by apply elem_of_nil in Hx]. }
  rewrite join_cons by done. destruct Hx as [->|Hx]; [by apply includes_app_l|].
  apply includes_app_r, includes_app_r. by apply IH.
Qed.

Lemma includes_join p (c d : ascii) m l :
  c ∉ p -> d ∉ p -> p <> [] -> includes (join (c :: m ++ [d]) l) p = true ->
  includes m p = true \/ exists x, x ∈ l /\ includes x p = true.
Proof.
  intros Hc Hd Hp. induction l as [|x l IH]; [by destruct p|].
  destruct l as [|y l]; [simpl; intros H; right; exists x; set_solver|].
  rewrite join_cons, <- app_comm_cons, <- app_assoc by done.
  intros [H|H]%(includes_mid c); [right; exists x; set_solver| |done..].
  apply (includes_mid d) in H as [H|H]; [by left| |done..].
  destruct (IH H) as [?|(z & ? & ?)]; [by left|]. right. exists z. set_solver.
Qed.

Lemma splitGo_head mt w s x xs : splitGo mt w 0 s = x :: xs -> exists b, s = x ++ b.
Proof.
  revert x xs. induction s as [|c s IH]; simpl; intros x xs; [intros [= <- _]; by exists []|].
  destruct (mt (c :: s)); [intros [= <- _]; by exists (c :: s)|].
  pose proof (splitGo_not_nil mt w 0 s).
  destruct (splitGo mt w 0 s) as [|z zs]; [done|]. intros [= <- _].
  destruct (IH z zs eq_refl) as [b ->]. by exists b.
Qed.

(** The pieces of a split stand in the text and hold no separator. *)
Lemma split_pieces s p x :
  p <> [] -> x ∈ split s p -> includes x p = false /\ exists a b, s = a ++ x ++ b.
Proof.
  intros Hp. unfold split. remember (length s) as n eqn:Hn.
  revert s x Hn. induction (lt_wf n) as [n _ IH]; intros s x ->.
  destruct s as [|c s].
  { simpl. intros ->%list_elem_of_singleton. split; [by destruct p|by exists [], []]. }
  destruct (startsWith (c :: s) p) eqn:E.
  - simpl. rewrite E. intros [->|Hx]%elem_of_cons; [split; [by destruct p|by exists [], (c :: s)]|].
    rewrite splitGo_skip in Hx.
    destruct (IH (length (drop (length p - 1) s))) with (s := drop (length p - 1) s) (x := x)
      as (? & a & b & Hs); [rewrite length_drop; simpl; lia|done|done|].
    split; [done|]. exists (c :: take (length p - 1) s ++ a), b.
    rewrite <- app_comm_cons, <- app_assoc, <- Hs. by rewrite take_drop.
  - destruct (splitGo_cons_nomatch (fun t => startsWith t p) (length p) c s E)
      as (y & ys & Hy & ->).
    destruct (splitGo_head _ _ _ _ _ Hy) as [b Hb].
    intros [->|Hx]%elem_of_cons.
    + destruct (IH (length s)) with (s := s) (x := y) as (Hin & _);
        [simpl; lia|done|rewrite Hy; set_solver|]. split; [|exists [], b; by rewrite Hb].
      simpl. rewrite Hin, orb_false_r. apply not_true_iff_false. intros Hs.
      apply startsWith_spec in Hs as [t Ht]. rewrite Hb in E.
      change (c :: y ++ b) with ((c :: y) ++ b) in E. rewrite Ht, <- app_assoc, startsWith_app in E.
      done.
    + destruct (IH (length s)) with (s := s) (x := x) as (? & a & b' & Hs);
        [simpl; lia|done|rewrite Hy; set_solver|]. split; [done|]. exists (c :: a), b'.
      by rewrite Hs.
Qed.

#[export] Hint Resolve startsWith_app startsWith_refl startsWith_nil splitGo_not_nil : js.
#[export] Hint Rewrite startsWith_nil eqc_refl app_nil_r : js.

(** ** Exceptions and effects

    A call of the program either returns or throws; an effectful call also transforms a
    state, and a [throw] keeps the state changes made before it, as in JavaScript. *)

Inductive result (E A : Type) : Type :=
  | Ok (a : A)
  | Throw (e : E).
Arguments Ok {E A} a.
Arguments Throw {E A} e.

#[export] Instance result_ret {E} : MRet (result E) := fun _ a => Ok a.
#[export] Instance result_bind {E} : MBind (result E) :=
  fun _ _ f m => match m with Ok a => f a | Throw e => Throw e end.

Definition is_ok {E A} (r : result E A) : bool := match r with Ok _ => true | Throw _ => false end.

Definition eff (S E A : Type) : Type := S -> result E A * S.

#[export] Instance eff_ret {S E} : MRet (eff S E) := fun _ a s => (Ok a, s).
#[export] Instance eff_bind {S E} : MBind (eff S E) :=
  fun _ _ f m s => match m s with
                   | (Ok a, s') => f a s'
                   | (Throw e, s') => (Throw e, s')
                   end.

Definition throw {S E A} (e : E) : eff S E A := fun s => (Throw e, s).
Definition get {S E} : eff S E S := fun s => (Ok s, s).
Definition put {S E} (s : S) : eff S E unit := fun _ => (Ok tt, s).
Definition modify {S E} (f : S -> S) : eff S E unit := fun s => (Ok tt, f s).

(** [try { m } catch (e) { h(e) }]. *)
Definition tryCatch {S E A} (m : eff S E A) (h : E -> eff S E A) : eff S E A :=
  fun s => match m s with
           | (Ok a, s') => (Ok a, s')
           | (Throw e, s') => h e s'
           end.

(** An optional callback: [f?.(x)]. *)
Definition callOpt {S E A} (f : option (A -> eff S E unit)) (x : A) : eff S E unit :=
  match f with Some g => g x | None => mret tt end.

Definition lift {S E A} (r : result E A) : eff S E A := fun s => (r, s).

Section eff_laws.
Context {S E A B : Type}.

Lemma bind_ret_l (a : A) (f : A -> eff S E B) s : (mret a ≫= f) s = f a s.
Proof. done. Qed.

Lemma bind_throw (e : E) (f : A -> eff S E B) s : (throw e ≫= f) s = (Throw e, s).
Proof. done. Qed.

Lemma bind_Ok (m : eff S E A) (f : A -> eff S E B) s b s'' :
  (m ≫= f) s = (Ok b, s'') <-> exists a s', m s = (Ok a, s') /\ f a s' = (Ok b, s'').
Proof.
  unfold mbind, eff_bind. destruct (m s) as [[a|e] s'] eqn:Hm; split.
  - intros H. by exists a, s'.
  - intros (a' & s1 & [= <- <-] & H). done.
  - done.
  - intros (a' & s1 & [=] & _).
Qed.

Lemma bind_Throw (m : eff S E A) (f : A -> eff S E B) s e s'' :
  (m ≫= f) s = (Throw e, s'') <->
  m s = (Throw e, s'') \/ exists a s', m s = (Ok a, s') /\ f a s' = (Throw e, s'').
Proof.
  unfold mbind, eff_bind. destruct (m s) as [[a|e'] s'] eqn:Hm; split.
  - intros H. right. by exists a, s'.
  - intros [[=]|(a' & s1 & [= <- <-] & H)]. done.
  - intros [= <- <-]. by left.
  - intros [[= <- <-]|(a' & s1 & [=] & _)]. done.
Qed.
End eff_laws.

(** *** Frames

    An effect keeps a part of the state: whether it returns or throws, that part is as before. *)

Definition keeps {S E A T} (t : S -> T) (m : eff S E A) : Prop := forall s, t (m s).2 = t s.

Section keeps.
Context {S E A B T : Type} (t : S -> T).

Lemma keeps_ret (a : A) : keeps (E := E) t (mret a).
Proof. done. Qed.
Lemma keeps_throw (e : E) : keeps (A := A) t (throw e).
Proof. done. Qed.
Lemma keeps_lift (r : result E A) : keeps t (lift r).
Proof. done. Qed.
Lemma keeps_get : keeps (E := E) t get.
Proof. done. Qed.
Lemma keeps_modify (f : S -> S) : (forall s, t (f s) = t s) -> keeps (E := E) t (modify f).
Proof. done. Qed.
Lemma keeps_bind (m : eff S E A) (f : A -> eff S E B) :
  keeps t m -> (forall a, keeps t (f a)) -> keeps t (m ≫= f).
Proof.
  intros Hm Hf s. unfold mbind, eff_bind. specialize (Hm s).
  destruct (m s) as [[a|e] s']; cbn in *; [by rewrite Hf|done].
Qed.
Lemma keeps_tryCatch (m : eff S E A) (h : E -> eff S E A) :
  keeps t m -> (forall e, keeps t (h e)) -> keeps t (tryCatch m h).
Proof.
  intros Hm Hh s. unfold tryCatch. specialize (Hm s).
  destruct (m s) as [[a|e] s']; cbn in *; [done|by rewrite Hh].
Qed.
Lemma keeps_callOpt (f : option (A -> eff S E unit)) a :
  (forall g, f = Some g -> keeps t (g a)) -> keeps t (callOpt f a).
Proof. intros H. destruct f; cbn; [by apply H|by intros s]. Qed.
(** A first step that keeps [t]: what the rest establishes from any state with the same [t]. *)
Lemma keeps_step (m : eff S E A) (k : A -> eff S E B) (Q : result E B * S -> Prop) s :
  keeps t m -> (forall a s1, t s1 = t s -> Q (k a s1)) -> (forall e s1, t s1 = t s -> Q (Throw e, s1)) ->
  Q ((m ≫= k) s).
Proof.
  intros Hm Hk He. unfold mbind, eff_bind. specialize (Hm s). destruct (m s) as [[a|e] s']; auto.
Qed.
End keeps.

Create HintDb keeps.
#[export] Hint Resolve keeps_ret keeps_throw keeps_lift keeps_get : keeps.

(** Frames by the structure of the effect. *)
Ltac solve_keeps :=
  repeat first
    [ assumption
    | solve [eauto with keeps]
    | apply keeps_bind; [|intros ?]
    | apply keeps_tryCatch; [|intros ?]
    | apply keeps_callOpt; intros ? ?; try done
    | case_match ].

(** An effect is blind to a change [g] of the state - a line printed, say - when it does the same
    on a changed state and leaves the change in place. *)

Definition blind {S E A} (g : S -> S) (m : eff S E A) : Prop :=
  forall s, m (g s) = ((m s).1, g (m s).2).

Section blind.
Context {S E A B : Type} (g : S -> S).

Lemma blind_ret (a : A) : blind (E := E) g (mret a).
Proof. done. Qed.
Lemma blind_throw (e : E) : blind (A := A) g (throw e).
Proof. done. Qed.
Lemma blind_lift (r : result E A) : blind g (lift r).
Proof. done. Qed.
Lemma blind_modify (f : S -> S) : (forall s, f (g s) = g (f s)) -> blind (E := E) g (modify f).
Proof. intros H s. unfold modify. by rewrite H. Qed.
Lemma blind_bind (m : eff S E A) (f : A -> eff S E B) :
  blind g m -> (forall a, blind g (f a)) -> blind g (m ≫= f).
Proof.
  intros Hm Hf s. unfold mbind, eff_bind. rewrite Hm. destruct (m s) as [[a|e] s']; cbn; [apply Hf|done].
Qed.
(** A state that is read for something the change leaves alone. *)
Lemma blind_read (f : S -> eff S E B) :
  (forall s0, blind g (f s0)) -> (forall s s1, f (g s) s1 = f s s1) -> blind g (get ≫= f).
Proof. intros Hf Hg s. unfold mbind, eff_bind, get. rewrite Hg. apply Hf. Qed.
Lemma blind_tryCatch (m : eff S E A) (h : E -> eff S E A) :
  blind g m -> (forall e, blind g (h e)) -> blind g (tryCatch m h).
Proof.
  intros Hm Hh s. unfold tryCatch. rewrite Hm. destruct (m s) as [[a|e] s']; cbn; [done|apply Hh].
Qed.
Lemma blind_callOpt (f : option (A -> eff S E unit)) a :
  (forall k, f = Some k -> blind g (k a)) -> blind g (callOpt f a).
Proof. intros H. destruct f; cbn; [by apply H|by intros s]. Qed.
End blind.

Create HintDb blind.
#[export] Hint Resolve blind_ret blind_throw blind_lift : blind.

(** Blindness by the structure of the effect. *)
Ltac solve_blind :=
  repeat first
    [ assumption
    | match goal with |- blind _ (get ≫= _) => apply blind_read; [intros ?|intros ? ?; reflexivity] end
    | match goal with |- blind _ (_ ≫= _) => apply blind_bind; [|intros ?] end
    | match goal with |- blind _ (tryCatch _ _) => apply blind_tryCatch; [|intros ?] end
    | match goal with |- blind _ (callOpt _ _) => apply blind_callOpt; intros ? ?; try done end
    | solve [eauto with blind]
    | case_match ].

(** Decompose the hypotheses that say a sequence of effects returned. *)
Ltac inv_eff :=
  repeat match goal with
  | H : (_ ≫= _) _ = (Ok _, _) |- _ =>
      apply bind_Ok in H; let a := fresh "a" in let s := fresh "s" in
      let H1 := fresh "Hm" in destruct H as (a & s & H1 & H)
  | H : mret _ _ = (_, _) |- _ => unfold mret, eff_ret in H; simplify_eq
  | H : throw _ _ = (Ok _, _) |- _ => discriminate H
  | H : throw _ _ = (Throw _, _) |- _ => unfold throw in H; simplify_eq
  | H : get _ = (_, _) |- _ => unfold get in H; simplify_eq
  | H : put _ _ = (_, _) |- _ => unfold put in H; simplify_eq
  | H : modify _ _ = (_, _) |- _ => unfold modify in H; simplify_eq
  | H : lift _ _ = (_, _) |- _ => unfold lift in H; simplify_eq
  end.

(** ** Lists *)

(** Removing duplicates, first occurrence kept: [Array.from(new Set(l))]. *)
Fixpoint uniqGo `{EqDecision A} (seen : list A) (l : list A) : list A :=
  match l with
  | [] => []
  | x :: l' => if bool_decide (x ∈ seen) then uniqGo seen l' else x :: uniqGo (x :: seen) l'
  end.

Definition uniq `{EqDecision A} (l : list A) : list A := uniqGo [] l.

Section uniq.
Context `{EqDecision A}.
Implicit Types (l seen : list A).

Lemma elem_of_uniqGo seen l x : x ∈ uniqGo seen l <-> x ∈ l /\ x ∉ seen.
Proof.
  revert seen; induction l as [|y l IH]; intros seen; simpl; [set_solver|].
  case_bool_decide; [|rewrite elem_of_cons]; rewrite IH;
    destruct (decide (x = y)); set_solver.
Qed.

Lemma uniqGo_ext s s' l : (forall x, x ∈ s <-> x ∈ s') -> uniqGo s l = uniqGo s' l.
Proof.
  revert s s'. induction l as [|y l IH]; intros s s' H; [done|]. cbn.
  rewrite (bool_decide_ext (y ∈ s) (y ∈ s')) by done. case_bool_decide; [by apply IH|].
  f_equal. apply IH. set_solver.
Qed.

Lemma elem_of_uniq l x : x ∈ uniq l <-> x ∈ l.
Proof. unfold uniq. rewrite elem_of_uniqGo. set_solver. Qed.

Lemma NoDup_uniqGo seen l : NoDup (uniqGo seen l).
Proof.
  revert seen; induction l as [|y l IH]; intros seen; simpl; [constructor|].
  case_bool_decide; [done|]. constructor; [|done]. rewrite elem_of_uniqGo. set_solver.
Qed.

Lemma NoDup_uniq l : NoDup (uniq l).
Proof. apply NoDup_uniqGo. Qed.

Lemma uniq_NoDup_id l : NoDup l -> uniq l = l.
Proof.
  unfold uniq. assert (forall seen, (forall x, x ∈ l -> x ∉ seen) -> NoDup l ->
    uniqGo seen l = l) as H; [|by intros; apply H; [set_solver|]].
  induction l as [|y l IH]; intros seen Hs Hl; [done|]. inv Hl. simpl.
  rewrite bool_decide_eq_false_2 by set_solver. f_equal. apply IH; [set_solver|done].
Qed.
End uniq.

Lemma length_filter_le {A} (f : A -> bool) (l : list A) :
  length (List.filter f l) <= length l.
Proof. induction l; simpl; [lia|]. destruct (f _); simpl; lia. Qed.

Lemma elem_of_bfilter {A} (f : A -> bool) (l : list A) x :
  x ∈ List.filter f l <-> x ∈ l /\ f x = true.
Proof. rewrite !list_elem_of_In. apply filter_In. Qed.

Lemma elem_of_bmap {A B} (f : A -> B) (l : list A) y :
  y ∈ map f l <-> exists x, y = f x /\ x ∈ l.
Proof.
  rewrite list_elem_of_In, in_map_iff. setoid_rewrite list_elem_of_In. naive_solver.
Qed.

Lemma existsb_elem {A} (f : A -> bool) (l : list A) :
  existsb f l = true <-> exists x, x ∈ l /\ f x = true.
Proof. rewrite existsb_exists. by setoid_rewrite list_elem_of_In. Qed.

Lemma existsb_none {A} (f : A -> bool) (l : list A) :
  existsb f l = false <-> forall x, x ∈ l -> f x = false.
Proof.
  induction l as [|a l IH]; simpl; [set_solver|].
  rewrite orb_false_iff, IH. set_solver.
Qed.

Lemma forallb_elem {A} (f : A -> bool) (l : list A) :
  forallb f l = true <-> forall x, x ∈ l -> f x = true.
Proof. rewrite forallb_forall. by setoid_rewrite list_elem_of_In. Qed.

Lemma sublist_bfilter {A} (f : A -> bool) (l : list A) : List.filter f l `sublist_of` l.
Proof. induction l; simpl; [constructor|]. destruct (f _); by constructor. Qed.

Lemma bfilter_all {A} (f : A -> bool) (l : list A) :
  length (List.filter f l) = length l -> List.filter f l = l.
Proof.
  induction l as [|x l IH]; simpl; [done|]. pose proof (length_filter_le f l).
  destruct (f x); simpl; intros; [f_equal; auto|lia].
Qed.

Lemma sublist_length_eq {A} (l k : list A) : l `sublist_of` k -> length l = length k -> l = k.
Proof.
  induction 1 as [|x l k H IH|x l k H IH]; intros E; [done| |]; simpl in E.
  - f_equal. apply IH. lia.
  - apply sublist_length in H. lia.
Qed.

(** A boolean test that holds of every code unit, by evaluation. *)
Definition all_ascii (P : ascii -> bool) : bool :=
  forallb (fun n => P (ascii_of_nat n)) (seq 0 256).

Lemma all_ascii_spec P c : all_ascii P = true -> P c = true.
Proof.
  unfold all_ascii. rewrite forallb_elem. intros H.
  rewrite <- (ascii_nat_embedding c). apply H, elem_of_seq.
  pose proof (nat_ascii_bounded c). lia.
Qed.

(** ** Numbers in texts *)

(** The characters of a printed integer. *)
Definition isIntChar (c : ascii) : bool := (((48 <=? code c) && (code c <=? 57)) || (code c =? 45))%N.

Definition isDigitChar (c : ascii) : bool := ((48 <=? code c) && (code c <=? 57))%N.

Lemma pretty_N_char_code d : (d < 10)%N -> code (pretty_N_char d) = (48 + d)%N.
Proof.
  intros H. destruct d as [|p]; [done|]. do 4 (destruct p as [p|p|]; try done); lia.
Qed.

Lemma pretty_N_go_digits n s :
  forallb isDigitChar (js s) = true -> forallb isDigitChar (js (pretty_N_go n s)) = true.
Proof.
  revert s. induction (N.lt_wf_0 n) as [n _ IH]; intros s Hs.
  destruct (decide (0 < n)%N) as [Hn|Hn].
  - rewrite pretty_N_go_step by done. apply IH; [by apply N.div_lt|].
    unfold js in *. cbn [String.list_ascii_of_string forallb]. rewrite Hs, andb_true_r.
    assert (n mod 10 < 10)%N as Hlt by (by apply N.mod_lt).
    unfold isDigitChar. rewrite pretty_N_char_code by done. revert Hlt.
    generalize (n mod 10)%N. intros d Hd. apply andb_true_iff. split; apply N.leb_le; lia.
  - assert (n = 0%N) as -> by lia. by rewrite pretty_N_go_0.
Qed.

Lemma pretty_N_digits (n : N) : forallb isDigitChar (js (pretty n)) = true.
Proof. unfold pretty, pretty_N. case_decide; [done|]. by apply pretty_N_go_digits. Qed.

Lemma showZ_chars z : forallb isIntChar (showZ z) = true.
Proof.
  assert (forall n : N, forallb isIntChar (js (pretty n)) = true) as HN.
  { intros n. pose proof (pretty_N_digits n) as H. rewrite forallb_forall in *. intros c Hc.
    specialize (H c Hc). unfold isDigitChar, isIntChar in *. by rewrite H. }
  unfold showZ. destruct z as [|p|p]; [done|apply (HN (Npos p))|].
  change (pretty (Z.neg p)) with (String "-" (pretty p)). cbn [js String.list_ascii_of_string forallb].
  apply (HN (Npos p)).
Qed.

Lemma js_inj a b : js a = js b -> a = b.
Proof.
  unfold js. intros H. by rewrite <- (String.string_of_list_ascii_of_string a), H,
    String.string_of_list_ascii_of_string.
Qed.

Lemma showZ_inj a b : showZ a = showZ b -> a = b.
Proof. intros H%js_inj. by apply (inj pretty). Qed.

Lemma showZ_head z : exists c s, showZ z = c :: s /\ isIntChar c = true.
Proof.
  pose proof (showZ_chars z) as H. destruct (showZ z) as [|c s] eqn:E; [|exists c, s].
  - exfalso. pose proof (showZ_inj z (-1)) as Hi. destruct z as [|p|p]; [done| |done].
    revert E. unfold showZ, pretty, pretty_Z, pretty, pretty_positive, pretty, pretty_N.
    rewrite decide_False by done. intros E. clear -E.
    assert (forall n s, js s <> [] -> js (pretty_N_go n s) <> []) as Hgo.
    { intros n. induction (N.lt_wf_0 n) as [n _ IH]; intros s Hs.
      destruct (decide (0 < n)%N) as [Hn|Hn].
      - rewrite pretty_N_go_step by done. apply IH; [by apply N.div_lt|done].
      - assert (n = 0%N) as -> by lia. by rewrite pretty_N_go_0. }
    rewrite pretty_N_go_step in E by lia. by eapply Hgo in E.
  - split; [done|]. cbn in H. by apply andb_true_iff in H as [-> _].
Qed.

Lemma showZ_free c z : isIntChar c = false -> c ∉ showZ z.
Proof.
  intros Hc Hin. pose proof (showZ_chars z) as H. rewrite forallb_forall in H.
  rewrite list_elem_of_In in Hin. apply H in Hin. congruence.
Qed.

(** A boolean filter commutes with appending; its length splits the list in two. *)
Lemma filter_negb_length {A} (f : A -> bool) (l : list A) :
  length (List.filter f l) + length (List.filter (fun x => negb (f x)) l) = length l.
Proof. induction l; simpl; [done|]. destruct (f _); simpl; lia. Qed.

#[export] Hint Rewrite @elem_of_uniq @elem_of_bfilter @elem_of_bmap : js.
