(* ===== verification/JsNumber.v ===== *)
(** * JavaScript numbers

    Amounts of money are JavaScript numbers, that is IEEE 754 binary64 values: the model
    computes with the Standard Library's [spec_float] at precision 53 and exponent 1024, so
    every rounding of the source is the model's rounding and a NaN makes every comparison
    false, as in the language.  Counts (lines, tokens, milliseconds) are integers and stay in
    [Z]. *)

From Stdlib Require Import SpecFloat.
From S2P Require Import Prelude.

Abbreviation number := spec_float.

Definition nadd : number -> number -> number := SFadd 53 1024.
Definition nmul : number -> number -> number := SFmul 53 1024.
Definition ndiv : number -> number -> number := SFdiv 53 1024.
Definition nlt (x y : number) : bool := SFltb x y.
Definition nle (x y : number) : bool := SFleb x y.
(** [x > y] and [x >= y]. *)
Definition ngt (x y : number) : bool := SFltb y x.
Definition nge (x y : number) : bool := SFleb y x.

(** The binary64 value nearest to [m * 2^e]. *)
Definition num (m e : Z) : number := binary_normalize 53 1024 m e false.
Definition num_of_Z (m : Z) : number := num m 0.
Definition zero : number := S754_zero false.

(** The literal [0.8], [1.0] and [1.5] as the parser reads them. *)
Definition lit_0_8 : number := num 7205759403792794 (-53).
Definition lit_1_0 : number := num_of_Z 1.
Definition lit_1_5 : number := num 3 (-1).

Definition is_nan (x : number) : bool := match x with S754_nan => true | _ => false end.

(** The integer a double stands for, if it is one. *)
Definition integerOf (x : number) : option Z :=
  match x with
  | S754_zero _ => Some 0%Z
  | S754_finite s m e =>
      let signed (n : Z) := if s : bool then (- n)%Z else n in
      if (0 <=? e)%Z then Some (signed (Zpos m * 2 ^ e)%Z)
      else if (Zpos m mod 2 ^ (- e) =? 0)%Z then Some (signed (Zpos m / 2 ^ (- e))%Z)
      else None
  | _ => None
  end.

(** ** The order *)

Lemma SFcompare_swap x y :
  SFcompare y x = match SFcompare x y with Some c => Some (CompOpp c) | None => None end.
Proof.
  destruct x as [[]|[]| |[] mx ex], y as [[]|[]| |[] my ey]; simpl; try done;
    rewrite (Z.compare_antisym ex ey); destruct (Z.compare ex ey); simpl; try done;
    rewrite Pos.compare_cont_antisym; simpl; try done; by destruct (Pos.compare_cont _ _ _).
Qed.

Lemma SFcompare_refl_nan x : is_nan x = false -> SFcompare x x = Some Eq.
Proof.
  destruct x as [[]|[]| |[] mx ex]; simpl; try done; intros _;
    by rewrite Z.compare_refl, Pos.compare_cont_refl.
Qed.

Lemma SFcompare_nan x y :
  SFcompare x y = None <-> is_nan x = true \/ is_nan y = true.
Proof.
  destruct x as [[]|[]| |[] mx ex], y as [[]|[]| |[] my ey]; simpl; try naive_solver;
    destruct (Z.compare ex ey); naive_solver.
Qed.

Lemma ngt_irrefl x : ngt x x = false.
Proof.
  unfold ngt, SFltb. destruct (is_nan x) eqn:E.
  - by destruct x.
  - by rewrite SFcompare_refl_nan.
Qed.

(** Away from NaN the order is total: what is not greater is at most. *)
Lemma ngt_false_nle x y : is_nan x = false -> is_nan y = false -> ngt x y = false -> nle x y = true.
Proof.
  unfold ngt, nle, SFltb, SFleb. intros Hx Hy. rewrite (SFcompare_swap x y).
  destruct (SFcompare x y) as [[]|] eqn:E; simpl; try done.
  apply SFcompare_nan in E. intuition congruence.
Qed.

Lemma ngt_asym x y : ngt x y = true -> ngt y x = false.
Proof.
  unfold ngt, SFltb. rewrite (SFcompare_swap x y). by destruct (SFcompare x y) as [[]|].
Qed.

Lemma ngt_nle x y : ngt x y = true -> nle x y = false.
Proof.
  unfold ngt, nle, SFltb, SFleb. rewrite (SFcompare_swap x y).
  by destruct (SFcompare x y) as [[]|].
Qed.

(** The order by class, exponent and mantissa: it is the lexicographic one. *)
Definition orderKey (x : number) : Z * Z * Z :=
  match x with
  | S754_infinity true => (-2, 0, 0)
  | S754_finite true m e => (-1, - e, - Zpos m)
  | S754_finite false m e => (1, e, Zpos m)
  | S754_infinity false => (2, 0, 0)
  | _ => (0, 0, 0)
  end%Z.

Definition keyLt (a b : Z * Z * Z) : Prop :=
  (a.1.1 < b.1.1 \/ a.1.1 = b.1.1 /\ (a.1.2 < b.1.2 \/ a.1.2 = b.1.2 /\ a.2 < b.2))%Z.

Lemma ngt_orderKey x y : is_nan x = false -> is_nan y = false ->
  ngt x y = true <-> keyLt (orderKey y) (orderKey x).
Proof.
  unfold ngt, SFltb, keyLt.
  destruct x as [[]|[]| |[] mx ex], y as [[]|[]| |[] my ey]; cbn -[Z.compare Pos.compare_cont]; intros Hx Hy; try done;
    try (split; intros; (done || lia));
    match goal with |- context [Z.compare ?a ?b] => destruct (Z.compare_spec a b) end;
    cbn; try (split; intros; (done || lia));
    match goal with |- context [Pos.compare_cont Eq ?a ?b] =>
      change (Pos.compare_cont Eq a b) with (Pos.compare a b); destruct (Pos.compare_spec a b) end;
    cbn; split; intros; (done || lia).
Qed.

(** [<=] is transitive, NaN apart. *)
Lemma ngt_false_trans x y z : is_nan x = false -> is_nan y = false -> is_nan z = false ->
  ngt x y = false -> ngt y z = false -> ngt x z = false.
Proof.
  intros Hx Hy Hz. rewrite <- !not_true_iff_false, !ngt_orderKey by done. unfold keyLt. lia.
Qed.

#[export] Hint Resolve ngt_irrefl ngt_asym ngt_nle ngt_false_nle : js.
