(* ===== verification/Json.v ===== *)
(** * JSON texts

    [JSON.stringify] on the values the program hashes: a flat object of strings, integers and
    [null]. A printed object determines its values: no string can end early and be continued by
    the next field. *)

From S2P Require Import Prelude.

Inductive jvalue := JNull | JStr (s : str) | JNum (n : Z).

Definition quoteChar : ascii := "034"%char.

Definition hexDigit (n : N) : ascii := ascii_of_N (if (n <? 10)%N then 48 + n else 87 + n)%N.

(** The escape of one code unit. *)
Definition jsonEscape (c : ascii) : str :=
  let n := code c in
  if (n =? 34)%N then ["\"%char; quoteChar]
  else if (n =? 92)%N then js "\\"
  else if (n =? 8)%N then js "\b"
  else if (n =? 9)%N then js "\t"
  else if (n =? 10)%N then js "\n"
  else if (n =? 12)%N then js "\f"
  else if (n =? 13)%N then js "\r"
  else if (n <? 32)%N then "\u00" ++ [hexDigit (n / 16); hexDigit (n mod 16)]
  else [c].

Definition jsonQuote (s : str) : str := quoteChar :: flat_map jsonEscape s ++ [quoteChar].

Definition stringifyValue (v : jvalue) : str :=
  match v with JNull => js "null" | JStr s => jsonQuote s | JNum n => showZ n end.

Definition stringifyField (f : str * jvalue) : str := jsonQuote f.1 ++ ":" ++ stringifyValue f.2.

Definition stringifyObject (fields : list (str * jvalue)) : str :=
  "{" ++ join "," (map stringifyField fields) ++ "}".

(** ** Printed values are a prefix code *)

(** No escape is a prefix of another one, nor begins with the closing quote. *)
Lemma jsonEscape_prefix c d x y : jsonEscape c ++ x = jsonEscape d ++ y -> c = d /\ x = y.
Proof.
  assert (all_ascii (fun c => all_ascii (fun d =>
    eqc c d || negb (startsWith (jsonEscape c) (jsonEscape d)))) = true) as Hall
    by (vm_compute; reflexivity).
  assert (forall c d k, jsonEscape c = jsonEscape d ++ k -> c = d) as Hp.
  { intros a b k E. apply (all_ascii_spec _ a) in Hall. cbv beta in Hall.
    apply (all_ascii_spec _ b) in Hall. cbv beta in Hall.
    rewrite E, startsWith_app, orb_false_r in Hall. by apply eqc_true. }
  clear Hall. intros E. assert (c = d) as ->.
  { apply app_eq_inv in E as [(k & E & _)|(k & E & _)]; [by eapply Hp|symmetry; by eapply Hp]. }
  split; [done|]. by apply app_inv_head in E.
Qed.

Lemma jsonEscape_not_quote c x y : jsonEscape c ++ x <> quoteChar :: y.
Proof.
  assert (all_ascii (fun c => negb (startsWith (jsonEscape c) [quoteChar]) &&
    bool_decide (jsonEscape c <> [])) = true) as Hall by (vm_compute; reflexivity).
  apply (all_ascii_spec _ c) in Hall. cbv beta in Hall. to_prop.
  destruct (jsonEscape c) as [|e es] eqn:E; [done|]. intros [= -> _].
  by rewrite startsWith_one, eqc_refl in *.
Qed.

Lemma jsonQuote_prefix s t x y : jsonQuote s ++ x = jsonQuote t ++ y -> s = t /\ x = y.
Proof.
  unfold jsonQuote. intros [= E]. rewrite <- !app_assoc in E.
  revert t E. induction s as [|c s IH]; intros [|d t] E; cbn [flat_map app] in E.
  - by simplify_eq.
  - rewrite <- app_assoc in E. symmetry in E. by apply jsonEscape_not_quote in E.
  - rewrite <- app_assoc in E. by apply jsonEscape_not_quote in E.
  - rewrite <- !app_assoc in E. apply jsonEscape_prefix in E as [-> E].
    apply IH in E as [-> ->]. done.
Qed.

(** What follows a value. *)
Definition delimited (x : str) : Prop :=
  match x with c :: _ => c = ","%char \/ c = "}"%char | [] => False end.

Lemma intChars_split s t x y :
  forallb isIntChar s = true -> forallb isIntChar t = true -> delimited x -> delimited y ->
  s ++ x = t ++ y -> s = t /\ x = y.
Proof.
  intros Hs Ht Hx Hy. revert t Ht. induction s as [|c s IH]; intros [|d t] Ht E; cbn in *.
  - done.
  - destruct x as [|e x]; [done|]. simplify_eq. apply andb_true_iff in Ht as [Hd _].
    destruct Hx as [->| ->]; by vm_compute in Hd.
  - destruct y as [|e y]; [done|]. simplify_eq. apply andb_true_iff in Hs as [Hd _].
    destruct Hy as [->| ->]; by vm_compute in Hd.
  - simplify_eq. apply andb_true_iff in Hs as [_ Hs], Ht as [_ Ht].
    destruct (IH Hs t Ht) as [-> ->]; done.
Qed.

(** The first character tells the kinds of values apart. *)
Definition jkind (v : jvalue) (c : ascii) : bool :=
  match v with JNull => eqc c "n" | JStr _ => eqc c quoteChar | JNum _ => isIntChar c end.

Lemma stringifyValue_head v : exists c s, stringifyValue v = c :: s /\ jkind v c = true.
Proof.
  destruct v as [|s|n]; cbn [stringifyValue jkind]; [by eexists _, _|by eexists _, _|].
  apply showZ_head.
Qed.

Lemma stringifyValue_prefix v w x y :
  delimited x -> delimited y -> stringifyValue v ++ x = stringifyValue w ++ y -> v = w /\ x = y.
Proof.
  intros Hx Hy E.
  destruct (stringifyValue_head v) as (c & s & Ev & Hc), (stringifyValue_head w) as (d & t & Ew & Hd).
  assert (c = d) as -> by (rewrite Ev, Ew in E; by simplify_eq).
  destruct v as [|sv|n], w as [|sw|m]; cbn [jkind] in Hc, Hd;
    try (repeat match goal with H : eqc _ _ = true |- _ => apply eqc_true in H end; subst; done).
  - cbn in E. by simplify_eq.
  - cbn [stringifyValue] in E. apply jsonQuote_prefix in E as [-> ->]. done.
  - cbn [stringifyValue] in E.
    destruct (intChars_split _ _ _ _ (showZ_chars n) (showZ_chars m) Hx Hy E) as [->%showZ_inj ->].
    done.
Qed.

(** ** Objects *)

Lemma stringifyField_prefix k v w x y :
  delimited x -> delimited y ->
  stringifyField (k, v) ++ x = stringifyField (k, w) ++ y -> v = w /\ x = y.
Proof.
  intros Hx Hy E. unfold stringifyField in E. cbn [fst snd] in E. rewrite <- !app_assoc in E.
  apply jsonQuote_prefix in E as [_ E]. apply app_inv_head in E. by apply stringifyValue_prefix.
Qed.

Lemma stringifyFields_inj (ks : list str) (vs ws : list jvalue) :
  length vs = length ks -> length ws = length ks -> ks <> [] ->
  join "," (map stringifyField (zip ks vs)) ++ "}" = join "," (map stringifyField (zip ks ws)) ++ "}" ->
  vs = ws.
Proof.
  revert vs ws. induction ks as [|k ks IH]; intros [|v vs] [|w ws] Hv Hw Hne E; try done.
  cbn in Hv, Hw. destruct ks as [|k' ks].
  - destruct vs, ws; [|done..]. cbn [zip zip_with map join] in E.
    apply stringifyField_prefix in E as [-> _]; [done|by right..].
  - destruct vs as [|v' vs], ws as [|w' ws]; [done..|].
    change (zip (k :: k' :: ks) (?a :: ?b)) with ((k, a) :: zip (k' :: ks) b) in E.
    cbn [map] in E. rewrite !join_cons in E by done. rewrite <- !app_assoc in E.
    apply stringifyField_prefix in E as [-> E]; [|by left..].
    f_equal. apply app_inv_head in E. apply IH; [cbn in *; lia..|done|done].
Qed.

Lemma stringifyObject_inj ks vs ws :
  length vs = length ks -> length ws = length ks -> ks <> [] ->
  stringifyObject (zip ks vs) = stringifyObject (zip ks ws) -> vs = ws.
Proof.
  unfold stringifyObject. intros Hv Hw Hne [= E]. by eapply stringifyFields_inj.
Qed.
