(* ===== verification/JsMap.v ===== *)
(** * JavaScript maps and objects in insertion order

    A [Map] with string keys, or a plain object with non-numeric keys, is the list of its entries
    in insertion order. Setting a known key keeps its place. *)

From S2P Require Import Prelude.

Abbreviation jsmap V := (list (str * V)).

Section map.
Context {V : Type}.
Implicit Types (c : jsmap V) (k : str).

Definition keys c : list str := map fst c.

Definition mapGet k c : option V := snd <$> List.find (fun kv => bool_decide (kv.1 = k)) c.
Definition mapDelete k c : jsmap V := List.filter (fun kv => negb (bool_decide (kv.1 = k))) c.
Definition mapSet k (e : V) c : jsmap V :=
  match mapGet k c with
  | Some _ => map (fun kv => if bool_decide (kv.1 = k) then (kv.1, e) else kv) c
  | None => c ++ [(k, e)]
  end.

(** [{...c, ...c'}] *)
Definition mapSpread c c' : jsmap V := foldl (fun m kv => mapSet kv.1 kv.2 m) c c'.

Lemma mapGet_Some k c e : NoDup (keys c) -> mapGet k c = Some e <-> (k, e) ∈ c.
Proof.
  unfold mapGet, keys. induction c as [|[u f] c IH]; cbn; intros Hn.
  { split; [done|]. by intros ?%elem_of_nil. }
  inv Hn. rewrite elem_of_cons. case_bool_decide as Hu; cbn.
  - subst u. split; [intros [= <-]; by left|].
    intros [[= <-]|H]; [done|]. exfalso. apply H1. rewrite list_elem_of_fmap. by exists (k, e).
  - rewrite IH by done. split; [by right|]. by intros [[= -> _]|H].
Qed.

Lemma mapGet_None k c : mapGet k c = None <-> k ∉ keys c.
Proof.
  unfold mapGet, keys. induction c as [|[u f] c IH]; cbn; [split; [intros _; apply not_elem_of_nil|done]|].
  rewrite not_elem_of_cons. case_bool_decide as Hu; cbn; [naive_solver|]. rewrite IH. naive_solver.
Qed.

Lemma mapGet_cons k u e c : mapGet k ((u, e) :: c) = if bool_decide (u = k) then Some e else mapGet k c.
Proof. unfold mapGet. cbn. by case_bool_decide. Qed.

Lemma mapGet_app k c c' : mapGet k (c ++ c') = match mapGet k c with Some e => Some e | None => mapGet k c' end.
Proof.
  induction c as [|[u e] c IH]; [done|]. cbn [app]. rewrite !mapGet_cons. by case_bool_decide.
Qed.

Lemma mapGet_update k k' e c :
  mapGet k (map (fun kv => if bool_decide (kv.1 = k') then (kv.1, e) else kv) c)
  = if bool_decide (k = k') then (fun _ => e) <$> mapGet k c else mapGet k c.
Proof.
  induction c as [|[u g] c IH]; [by case_bool_decide|]. cbn [map fst].
  destruct (decide (u = k')) as [->|Hu].
  - rewrite bool_decide_eq_true_2 by done. rewrite !mapGet_cons, IH.
    repeat case_bool_decide; naive_solver.
  - rewrite bool_decide_eq_false_2 by done. rewrite !mapGet_cons, IH.
    repeat case_bool_decide; naive_solver.
Qed.

Lemma mapGet_mapSet k k' e c : mapGet k (mapSet k' e c) = if bool_decide (k = k') then Some e else mapGet k c.
Proof.
  unfold mapSet. destruct (mapGet k' c) as [f|] eqn:E.
  - rewrite mapGet_update. case_bool_decide; [subst k|done]. by rewrite E.
  - rewrite mapGet_app, mapGet_cons.
    destruct (mapGet k c) eqn:Ek; repeat case_bool_decide; naive_solver.
Qed.

Lemma elem_of_mapDelete k c u e : (u, e) ∈ mapDelete k c <-> (u, e) ∈ c /\ u <> k.
Proof.
  unfold mapDelete. rewrite !list_elem_of_In, filter_In. cbn.
  rewrite negb_true_iff, bool_decide_eq_false. done.
Qed.

Lemma keys_mapDelete k c : keys (mapDelete k c) `sublist_of` keys c.
Proof.
  unfold mapDelete, keys. induction c as [|[u f] c IH]; cbn; [done|].
  case_bool_decide; cbn; by constructor.
Qed.

Lemma length_mapDelete k c : k ∈ keys c -> length (mapDelete k c) < length c.
Proof.
  unfold mapDelete, keys. induction c as [|[u f] c IH]; cbn; [by intros ?%elem_of_nil|].
  rewrite elem_of_cons. case_bool_decide as Hu; cbn; intros H.
  - pose proof (filter_length_le (fun kv : str * V => negb (bool_decide (kv.1 = k))) c). lia.
  - destruct H as [->|H]; [done|]. specialize (IH H). lia.
Qed.

Lemma mapSet_known k e f c :
  mapGet k c = Some f -> keys (mapSet k e c) = keys c /\
  forall u g, (u, g) ∈ mapSet k e c -> g = e /\ u = k \/ (u, g) ∈ c.
Proof.
  intros E. unfold mapSet. rewrite E. clear E. unfold keys. split.
  - rewrite map_map. apply map_ext. intros [u g]. cbn. by case_bool_decide.
  - intros u g. rewrite list_elem_of_In, in_map_iff. intros ([u' g'] & H & Hin).
    cbn in H. case_bool_decide; simplify_eq; [by left|]. right. by apply list_elem_of_In.
Qed.

Lemma mapSet_new k e c : k ∉ keys c -> mapSet k e c = c ++ [(k, e)].
Proof. intros H%mapGet_None. unfold mapSet. by rewrite H. Qed.

Lemma mapGet_mapDelete k k' c : mapGet k (mapDelete k' c) = if bool_decide (k = k') then None else mapGet k c.
Proof.
  unfold mapDelete. induction c as [|[u e] c IH]; [by case_bool_decide|]. cbn [List.filter fst].
  destruct (decide (u = k')) as [->|Hu].
  - rewrite (bool_decide_eq_true_2 (k' = k')) by done. cbn [negb]. rewrite IH, mapGet_cons.
    repeat case_bool_decide; naive_solver.
  - rewrite (bool_decide_eq_false_2 (u = k')) by done. cbn [negb]. rewrite !mapGet_cons, IH.
    repeat case_bool_decide; naive_solver.
Qed.

Lemma NoDup_mapSet k e c : NoDup (keys c) -> NoDup (keys (mapSet k e c)).
Proof.
  intros H. destruct (mapGet k c) as [f|] eqn:E.
  - by rewrite (proj1 (mapSet_known k e f c E)).
  - apply mapGet_None in E. rewrite mapSet_new by done. unfold keys. rewrite map_app.
    apply NoDup_app. split_and!; [done| |apply NoDup_singleton].
    intros x Hx ->%list_elem_of_singleton. done.
Qed.

Lemma mapGet_mapSpread k c c' :
  NoDup (keys c') ->
  mapGet k (mapSpread c c') = match mapGet k c' with Some e => Some e | None => mapGet k c end.
Proof.
  unfold mapSpread. revert c. induction c' as [|[u e] c' IH]; intros c Hn; [done|]. inv Hn.
  cbn [foldl fst snd]. rewrite IH, mapGet_cons, mapGet_mapSet by done.
  destruct (decide (u = k)) as [->|Hu].
  - apply mapGet_None in H1. rewrite H1. by rewrite !bool_decide_eq_true_2.
  - by rewrite !bool_decide_eq_false_2 by congruence.
Qed.
End map.
