(* ===== verification/JsonTree.v ===== *)
(** * Parsed JSON values

    The values of [JSON.parse], with the member access and the tests on types that the program
    applies to them. *)

From S2P Require Import Prelude JsNumber JsMap.

Inductive json :=
  | JNull
  | JBool (b : bool)
  | JNum (n : number)
  | JStr (s : str)
  | JArr (l : list json)
  | JObj (fields : list (str * json)).

(** [v[key]] on an object; [None] is [undefined]. *)
Definition member (key : str) (v : json) : option json :=
  match v with
  | JObj fields => mapGet key fields
  | _ => None
  end.

(** [v[key]] where a nullish value falls through [??]. *)
Definition field (key : str) (v : json) : option json :=
  match member key v with Some JNull => None | o => o end.

(** The member when it is a string: [typeof v[key] === 'string']. *)
Definition stringMember (key : str) (v : json) : option str :=
  match member key v with Some (JStr s) => Some s | _ => None end.

Lemma stringMember_Some key v s : stringMember key v = Some s <-> member key v = Some (JStr s).
Proof. unfold stringMember. split; [|by intros ->]. by destruct (member key v) as [[]|]; intros [=->]. Qed.

(** ** Equality *)

#[export] Instance number_eq_dec : EqDecision number.
Proof. solve_decision. Defined.

Fixpoint json_eqb (a b : json) : bool :=
  match a, b with
  | JNull, JNull => true
  | JBool x, JBool y => eqb x y
  | JNum x, JNum y => bool_decide (x = y)
  | JStr x, JStr y => bool_decide (x = y)
  | JArr x, JArr y =>
      (fix go (x y : list json) : bool :=
        match x, y with
        | [], [] => true
        | v :: x', w :: y' => json_eqb v w && go x' y'
        | _, _ => false
        end) x y
  | JObj x, JObj y =>
      (fix go (x y : list (str * json)) : bool :=
        match x, y with
        | [], [] => true
        | (k, v) :: x', (l, w) :: y' => bool_decide (k = l) && json_eqb v w && go x' y'
        | _, _ => false
        end) x y
  | _, _ => false
  end.

Fixpoint json_size (v : json) : nat :=
  match v with
  | JArr l => S (list_sum (map json_size l))
  | JObj f => S (list_sum (map (fun kv => json_size kv.2) f))
  | _ => 1
  end.

Lemma json_eqb_eq a b : json_eqb a b = true <-> a = b.
Proof.
  remember (json_size a) as n eqn:Hn. revert a b Hn.
  induction (lt_wf n) as [n _ IH]. intros a b ->.
  destruct a as [|x|x|x|x|x], b as [|y|y|y|y|y]; cbn; try done.
  - rewrite eqb_true_iff. naive_solver.
  - rewrite bool_decide_eq_true. naive_solver.
  - rewrite bool_decide_eq_true. naive_solver.
  - trans (x = y); [|naive_solver]. revert y.
    induction x as [|v x IHx]; intros [|w y]; try done.
    rewrite andb_true_iff, IHx, (IH (json_size v)); [naive_solver|cbn; lia|done|].
    intros m Hm. apply IH. cbn in *. unfold list_sum in *. lia.
  - trans (x = y); [|naive_solver]. revert y.
    induction x as [|[k v] x IHx]; intros [|[l w] y]; try done.
    rewrite !andb_true_iff, bool_decide_eq_true, IHx, (IH (json_size v)); [naive_solver|cbn; lia|done|].
    intros m Hm. apply IH. cbn in *. unfold list_sum in *. lia.
Qed.

#[export] Instance json_eq_dec : EqDecision json.
Proof. intros a b. refine (cast_if (decide (json_eqb a b = true))); by rewrite <- json_eqb_eq. Defined.
