(* ===== verification/AuditChain.v ===== *)
(** * The audit chain (core/src/audit.ts, db/src/audit-log.ts, db/src/hmac-chain.ts,
    db/src/audit-retention.ts)

    The hash chain of the table [audit_log]: appending, verifying, pruning. The table is the list
    of its rows in the order of their serial key; [sha256hex] and [toISOString] are node's. The
    select of the last row and the insert of an append are two statements, [readLastHash] and
    [insertAuditRow]. *)

From Stdlib Require Import Sorted.
From S2P Require Import Prelude Json.

Definition AUDIT_GENESIS_HASH : str := replicate 64 "0"%char.

Record AuditEvent := {
  ev_ts : option Z;
  ev_installationId : option Z;
  ev_prId : option str;
  ev_event : str;
  ev_model : option str;
  ev_inputTokens : option Z;
  ev_outputTokens : option Z;
}.

(** A row of the table: the event with its time and its two hashes. *)
Record ChainLink := {
  cl_prevHash : option str;
  cl_hash : str;
  cl_ts : Z;
  cl_event : str;
  cl_installationId : option Z;
  cl_prId : option str;
  cl_model : option str;
  cl_inputTokens : option Z;
  cl_outputTokens : option Z;
}.

(** A row read as an event. *)
Definition eventOf (row : ChainLink) : AuditEvent :=
  {| ev_ts := Some (cl_ts row); ev_installationId := cl_installationId row; ev_prId := cl_prId row;
     ev_event := cl_event row; ev_model := cl_model row; ev_inputTokens := cl_inputTokens row;
     ev_outputTokens := cl_outputTokens row |}.

Record ChainBreak := { cb_index : nat; expected : str; actual : str; cb_row : ChainLink }.

(** The table: rows with their keys, and the next key. *)
Record AuditTable := { al_rows : list (Z * ChainLink); al_next : Z }.

Section audit.
Context (sha256hex : str -> str) (toISOString : Z -> str).

Definition orNull {A} (f : A -> jvalue) (o : option A) : jvalue :=
  match o with Some a => f a | None => JNull end.

Definition payloadKeys : list str :=
  [js "ts"; js "installationId"; js "prId"; js "event"; js "model"; js "inputTokens";
   js "outputTokens"].

Definition payloadValues (ev : AuditEvent) (ts : Z) : list jvalue :=
  [JStr (toISOString ts); orNull (fun i => JStr (showZ i)) (ev_installationId ev);
   orNull JStr (ev_prId ev); JStr (ev_event ev); orNull JStr (ev_model ev);
   orNull JNum (ev_inputTokens ev); orNull JNum (ev_outputTokens ev)].

Definition canonicalPayload (ev : AuditEvent) (ts : Z) : str :=
  stringifyObject (zip payloadKeys (payloadValues ev ts)).

Definition computeAuditHash (prevHash : str) (ev : AuditEvent) (ts : Z) : str :=
  sha256hex (prevHash ++ canonicalPayload ev ts).

Definition rowHash (prev : str) (row : ChainLink) : str :=
  computeAuditHash prev (eventOf row) (cl_ts row).

(** The loop of both verifiers, from the hash before the first row. *)
Fixpoint breaksFrom (prev : str) (index : nat) (rows : list ChainLink) : list ChainBreak :=
  match rows with
  | [] => []
  | row :: rest =>
      let want := rowHash prev row in
      (if bool_decide (cl_hash row = want) then []
       else [{| cb_index := index; expected := want; actual := cl_hash row; cb_row := row |}])
      ++ breaksFrom (cl_hash row) (S index) rest
  end.

Definition isNil {A} (l : list A) : bool := match l with [] => true | _ => false end.

Definition verifyAuditChain (rows : list ChainLink) : bool * list ChainBreak :=
  let breaks := breaksFrom AUDIT_GENESIS_HASH 0 rows in (isNil breaks, breaks).

(** The first row's declared [prevHash] is trusted. *)
Definition verifyAuditChainSegment (rows : list ChainLink) : bool * list ChainBreak :=
  match rows with
  | [] => (true, [])
  | first :: _ =>
      let breaks := breaksFrom (default AUDIT_GENESIS_HASH (cl_prevHash first)) 0 rows in
      (isNil breaks, breaks)
  end.

(** [appendAuditRow], as the row that is stored; [now] is the clock's reading. *)
Definition appendAuditRow (prevHash : option str) (ev : AuditEvent) (now : Z) : ChainLink :=
  let ts := default now (ev_ts ev) in
  let usePrev := default AUDIT_GENESIS_HASH prevHash in
  {| cl_prevHash := Some usePrev; cl_hash := computeAuditHash usePrev ev ts; cl_ts := ts;
     cl_event := ev_event ev; cl_installationId := ev_installationId ev; cl_prId := ev_prId ev;
     cl_model := ev_model ev; cl_inputTokens := ev_inputTokens ev;
     cl_outputTokens := ev_outputTokens ev |}.

(** ** The table *)

Definition links (t : AuditTable) : list ChainLink := map snd (al_rows t).

(** ORDER BY id DESC LIMIT 1 *)
Definition readLastHash (t : AuditTable) : option str := cl_hash <$> last (links t).

Definition insertAuditRow (row : ChainLink) (t : AuditTable) : AuditTable :=
  {| al_rows := al_rows t ++ [(al_next t, row)]; al_next := al_next t + 1 |}.

Definition createAuditAppender (now : Z) (ev : AuditEvent) (t : AuditTable) : ChainLink * AuditTable :=
  let row := appendAuditRow (readLastHash t) ev now in (row, insertAuditRow row t).

(** The optional WHERE of the verifiers. *)
Definition ofInstallation (i : option Z) (row : ChainLink) : bool :=
  match i with None => true | Some _ => bool_decide (cl_installationId row = i) end.

(** A stored row as the link that is checked. *)
Definition toLink (row : ChainLink) : ChainLink :=
  {| cl_prevHash := Some (default AUDIT_GENESIS_HASH (cl_prevHash row)); cl_hash := cl_hash row;
     cl_ts := cl_ts row; cl_event := cl_event row; cl_installationId := cl_installationId row;
     cl_prId := cl_prId row; cl_model := cl_model row; cl_inputTokens := cl_inputTokens row;
     cl_outputTokens := cl_outputTokens row |}.

Definition selectLinks (i : option Z) (t : AuditTable) : list ChainLink :=
  map toLink (List.filter (ofInstallation i) (links t)).

Definition verifyAuditChainFromDb (i : option Z) (t : AuditTable) : bool * nat * list ChainBreak :=
  let rows := selectLinks i t in
  let '(ok, breaks) := verifyAuditChain rows in (ok, length rows, breaks).

Definition verifyAuditChainSegmentFromDb (i : option Z) (t : AuditTable)
    : bool * nat * list ChainBreak :=
  let rows := selectLinks i t in
  let '(ok, breaks) := verifyAuditChainSegment rows in (ok, length rows, breaks).

(** ** Export and retention *)

(** [loadAuditLogForExport]: one tenant's rows within a time range. *)
Definition loadAuditLogForExport (i since : Z) (until : option Z) (t : AuditTable) : list ChainLink :=
  List.filter (fun row => ofInstallation (Some i) row && (since <=? cl_ts row)%Z
                          && match until with Some u => (cl_ts row <=? u)%Z | None => true end)
    (links t).

(** The check of the export command: a broken segment is refused. *)
Definition exportVerifies (i since : Z) (until : option Z) (t : AuditTable) : bool :=
  match map toLink (loadAuditLogForExport i since until t) with
  | [] => true
  | rows => (verifyAuditChainSegment rows).1
  end.

Record PruneAuditResult := { deleted : nat; anchorId : option Z; anchorHash : option str }.

Definition pruneAuditLog (before : Z) (t : AuditTable) : PruneAuditResult * AuditTable :=
  match last (List.filter (fun r => (cl_ts r.2 <? before)%Z) (al_rows t)) with
  | None => ({| deleted := 0; anchorId := None; anchorHash := None |}, t)
  | Some (id, row) =>
      let kept := List.filter (fun r => negb (r.1 <? id)%Z) (al_rows t) in
      ({| deleted := length (al_rows t) - length kept; anchorId := Some id;
          anchorHash := Some (cl_hash row) |},
       {| al_rows := kept; al_next := al_next t |})
  end.

(** ** Chains *)

(** Every row's hash follows from the one before. *)
Fixpoint chain (prev : str) (rows : list ChainLink) : Prop :=
  match rows with
  | [] => True
  | row :: rest => cl_hash row = rowHash prev row /\ chain (cl_hash row) rest
  end.

(** Every row declares the hash before it. *)
Fixpoint declared (prev : str) (rows : list ChainLink) : Prop :=
  match rows with
  | [] => True
  | row :: rest => cl_prevHash row = Some prev /\ declared (cl_hash row) rest
  end.

Definition lastHash (prev : str) (rows : list ChainLink) : str := default prev (cl_hash <$> last rows).

Lemma breaksFrom_nil prev n rows : isNil (breaksFrom prev n rows) = true <-> chain prev rows.
Proof.
  revert prev n. induction rows as [|row rest IH]; intros prev n; cbn; [done|].
  case_bool_decide as E; cbn; [rewrite IH; naive_solver|]. split; [done|naive_solver].
Qed.

Lemma breaksFrom_chain prev n rows : chain prev rows -> breaksFrom prev n rows = [].
Proof. rewrite <- (breaksFrom_nil prev n). by destruct (breaksFrom prev n rows). Qed.

Lemma lastHash_cons prev row rest : lastHash prev (row :: rest) = lastHash (cl_hash row) rest.
Proof. unfold lastHash. rewrite last_cons. by destruct (last rest). Qed.

Lemma lastHash_snoc prev rows row : lastHash prev (rows ++ [row]) = cl_hash row.
Proof. unfold lastHash. by rewrite last_snoc. Qed.

Lemma chain_app prev a b : chain prev (a ++ b) <-> chain prev a /\ chain (lastHash prev a) b.
Proof.
  revert prev. induction a as [|row a IH]; intros prev; cbn [app chain]; [naive_solver|].
  rewrite IH, lastHash_cons. naive_solver.
Qed.

Lemma declared_app prev a b : declared prev (a ++ b) <-> declared prev a /\ declared (lastHash prev a) b.
Proof.
  revert prev. induction a as [|row a IH]; intros prev; cbn [app declared]; [naive_solver|].
  rewrite IH, lastHash_cons. naive_solver.
Qed.

(** The declared hash is not part of what is hashed. *)
Lemma chain_toLink prev rows : chain prev (map toLink rows) <-> chain prev rows.
Proof. revert prev. induction rows as [|row rows IH]; intros prev; cbn [map chain]; [done|]. by rewrite IH. Qed.

Lemma ofInstallation_all rows : List.filter (ofInstallation None) rows = rows.
Proof. induction rows as [|r l IH]; cbn; [done|by rewrite IH]. Qed.

Lemma selectLinks_all t : selectLinks None t = map toLink (links t).
Proof. unfold selectLinks. by rewrite ofInstallation_all. Qed.

(** ** The hash determines the row *)

(** What a row records: all of it but the declared hash. *)
Definition recorded (row : ChainLink) :=
  (toISOString (cl_ts row), cl_installationId row, cl_prId row, cl_event row, cl_model row,
   cl_inputTokens row, cl_outputTokens row).

(** The text whose hash a row carries, after the hash [prev]. *)
Definition hashedText (prev : str) (row : ChainLink) : str :=
  prev ++ canonicalPayload (eventOf row) (cl_ts row).

(** Two given texts are a collision of the hash. *)
Definition colliding (x y : str) : Prop := x <> y /\ sha256hex x = sha256hex y.

Lemma orNull_inj {A} (f : A -> jvalue) (a b : option A) :
  (forall x, f x <> JNull) -> (forall x y, f x = f y -> x = y) -> orNull f a = orNull f b -> a = b.
Proof.
  intros Hn Hf. destruct a as [a|], b as [b|]; cbn; intros H; [f_equal; by apply Hf| | |done].
  - by apply Hn in H.
  - symmetry in H. by apply Hn in H.
Qed.

Lemma canonicalPayload_inj row row' :
  canonicalPayload (eventOf row) (cl_ts row) = canonicalPayload (eventOf row') (cl_ts row') ->
  recorded row = recorded row'.
Proof.
  intros H. apply stringifyObject_inj in H; [|done..]. unfold payloadValues in H. cbn in H.
  injection H as H1 H2 H3 H4 H5 H6 H7.
  apply orNull_inj in H2; [|done|by intros x y [= E%showZ_inj]].
  apply orNull_inj in H3; [|done|by intros x y [= E]].
  apply orNull_inj in H5; [|done|by intros x y [= E]].
  apply orNull_inj in H6; [|done|by intros x y [= E]].
  apply orNull_inj in H7; [|done|by intros x y [= E]].
  unfold recorded. congruence.
Qed.

(** ** Tables the program builds *)

Definition emptyTable : AuditTable := {| al_rows := []; al_next := 1 |}.

(** Appends, each in one transaction, and prunes, in any order. *)
Inductive reachable : AuditTable -> Prop :=
  | reach_empty : reachable emptyTable
  | reach_append now ev t : reachable t -> reachable (createAuditAppender now ev t).2
  | reach_prune before t : reachable t -> reachable (pruneAuditLog before t).2.

(** Keys grow, and the rows are a chain from some hash on. *)
Record wellFormed (t : AuditTable) : Prop := {
  wf_keys : StronglySorted Z.lt (map fst (al_rows t));
  wf_next : Forall (fun r => r.1 < al_next t)%Z (al_rows t);
  wf_chain : exists prev, chain prev (links t) /\ declared prev (links t);
}.

Lemma links_insert row t : links (insertAuditRow row t) = links t ++ [row].
Proof. unfold links, insertAuditRow. cbn. by rewrite map_app. Qed.

Lemma readLastHash_insert row t : readLastHash (insertAuditRow row t) = Some (cl_hash row).
Proof. unfold readLastHash. by rewrite links_insert, last_snoc. Qed.

(** The appended row continues the chain. *)
Lemma append_chain prev now ev t :
  (links t = [] -> prev = AUDIT_GENESIS_HASH) -> chain prev (links t) -> declared prev (links t) ->
  chain prev (links (createAuditAppender now ev t).2) /\
  declared prev (links (createAuditAppender now ev t).2).
Proof.
  intros Hp Hc Hd. unfold createAuditAppender. cbn [snd]. rewrite links_insert, chain_app, declared_app.
  assert (default AUDIT_GENESIS_HASH (readLastHash t) = lastHash prev (links t)) as E.
  { unfold readLastHash, lastHash. destruct (last (links t)) as [r|] eqn:El; [done|].
    apply last_None in El. cbn. by rewrite Hp. }
  unfold appendAuditRow. rewrite E. done.
Qed.

Lemma sorted_snoc (l : list Z) x :
  StronglySorted Z.lt l -> Forall (fun y => y < x)%Z l -> StronglySorted Z.lt (l ++ [x]).
Proof.
  induction 1 as [|y l Hs IH Hy]; intros Hx; cbn; [repeat constructor|].
  inversion Hx; subst. constructor; [by apply IH|]. apply Forall_app. by repeat constructor.
Qed.

(** A row splits the table by its key. *)
Lemma keys_split (pre suf : list (Z * ChainLink)) id row :
  StronglySorted Z.lt (map fst (pre ++ (id, row) :: suf)) ->
  List.filter (fun r => negb (r.1 <? id)%Z) (pre ++ (id, row) :: suf) = (id, row) :: suf.
Proof.
  induction pre as [|[k x] pre IH]; cbn [app map fst]; intros H; inversion H as [|? ? Hs Hf]; subst.
  - cbn. rewrite Z.ltb_irrefl. cbn. f_equal. clear -Hf.
    induction suf as [|[k x] suf IH]; cbn in *; [done|]. inversion Hf; subst.
    assert ((k <? id)%Z = false) as -> by (apply Z.ltb_ge; lia). cbn. f_equal. by apply IH.
  - cbn [List.filter fst]. assert ((k <? id)%Z = true) as ->; [|by apply IH].
    apply Z.ltb_lt. rewrite Forall_forall in Hf. apply Hf. rewrite map_app, elem_of_app.
    right. left.
Qed.

(** The last row that passes a test, and the rows around it. *)
Lemma last_filter_split {A} (f : A -> bool) (l : list A) :
  match last (List.filter f l) with
  | None => Forall (fun x => f x = false) l
  | Some x => exists pre suf, l = pre ++ x :: suf /\ f x = true /\ Forall (fun y => f y = false) suf
  end.
Proof.
  induction l as [|y l IH] using rev_ind; [constructor|].
  rewrite List.filter_app. cbn [List.filter]. destruct (f y) eqn:E.
  - rewrite last_snoc. by exists l, [].
  - rewrite app_nil_r. destruct (last (List.filter f l)) as [x|].
    + destruct IH as (pre & suf & -> & Hx & Hs). exists pre, (suf ++ [y]). rewrite <- app_assoc.
      split_and!; [done|done|]. apply Forall_app. by repeat constructor.
    + apply Forall_app. by repeat constructor.
Qed.

(** What a prune keeps. *)
Lemma prune_split before t :
  StronglySorted Z.lt (map fst (al_rows t)) ->
  match anchorId (pruneAuditLog before t).1 with
  | None => (pruneAuditLog before t).2 = t /\ Forall (fun r => before <= cl_ts r.2)%Z (al_rows t)
  | Some id => exists pre row suf,
      al_rows t = pre ++ (id, row) :: suf /\
      (pruneAuditLog before t).2 = {| al_rows := (id, row) :: suf; al_next := al_next t |} /\
      (cl_ts row < before)%Z /\ Forall (fun r => before <= cl_ts r.2)%Z suf /\
      deleted (pruneAuditLog before t).1 = length pre /\
      anchorHash (pruneAuditLog before t).1 = Some (cl_hash row)
  end.
Proof.
  intros Hs. unfold pruneAuditLog.
  pose proof (last_filter_split (fun r => (cl_ts r.2 <? before)%Z) (al_rows t)) as H.
  destruct (last _) as [[id row]|]; cbn [fst snd anchorId].
  - destruct H as (pre & suf & E & Hrow & Hsuf). exists pre, row, suf. cbn [snd] in Hrow.
    rewrite E in *. rewrite keys_split by done. cbn [deleted anchorHash].
    apply Z.ltb_lt in Hrow. split_and!; try done.
    + eapply Forall_impl; [exact Hsuf|]. cbn. intros r Hr. by apply Z.ltb_ge.
    + rewrite length_app. lia.
  - split; [done|]. eapply Forall_impl; [exact H|]. cbn. intros r Hr. by apply Z.ltb_ge.
Qed.

Lemma prune_wellFormed before t : wellFormed t -> wellFormed (pruneAuditLog before t).2.
Proof.
  intros [Hk Hn (prev & Hc & Hd)]. pose proof (prune_split before t Hk) as H.
  destruct (anchorId _) as [id|]; [|destruct H as [-> _]; split; [done|done|by exists prev]].
  destruct H as (pre & row & suf & E & -> & _). unfold links in *. rewrite E in *.
  rewrite map_app in Hk, Hc, Hd. split; cbn [al_rows al_next].
  - clear -Hk. induction pre as [|x pre IH]; [done|]. inversion Hk; subst. by apply IH.
  - apply Forall_app in Hn as [_ Hn]. exact Hn.
  - apply chain_app in Hc as [_ Hc]. apply declared_app in Hd as [_ Hd].
    exists (lastHash prev (map snd pre)). done.
Qed.

Lemma reachable_wellFormed t : reachable t -> wellFormed t.
Proof.
  induction 1 as [|now ev t Hr IH|before t Hr IH].
  - split; [constructor|constructor|by exists AUDIT_GENESIS_HASH].
  - destruct IH as [Hk Hn (prev & Hc & Hd)]. split.
    + cbn. rewrite map_app. apply sorted_snoc; [done|]. apply Forall_map. exact Hn.
    + cbn. apply Forall_app. split; [|repeat constructor; cbn; lia].
      eapply Forall_impl; [exact Hn|]. cbn. lia.
    + destruct (links t) as [|r l] eqn:El.
      * exists AUDIT_GENESIS_HASH. apply append_chain; by rewrite El.
      * exists prev. apply append_chain; by rewrite El.
  - by apply prune_wellFormed.
Qed.

Section hash.
Context (Hlen : forall s, length (sha256hex s) = 64).

Lemma rowHash_inj p q row row' :
  length p = 64 -> length q = 64 -> rowHash p row = rowHash q row' ->
  (p = q /\ recorded row = recorded row') \/ colliding (hashedText p row) (hashedText q row').
Proof.
  intros Hp Hq H. unfold rowHash, computeAuditHash in H.
  destruct (decide (hashedText p row = hashedText q row')) as [E|E]; [left|by right].
  apply app_inj_1 in E as [-> E]; [|lia]. split; [done|by apply canonicalPayload_inj].
Qed.

Lemma chain_last_length rows :
  chain AUDIT_GENESIS_HASH rows -> length (lastHash AUDIT_GENESIS_HASH rows) = 64.
Proof.
  destruct rows as [|row rows _] using rev_ind; [done|]. rewrite lastHash_snoc.
  intros [_ [-> _]]%chain_app. apply Hlen.
Qed.

Lemma readLastHash_length t :
  wellFormed t -> length (default AUDIT_GENESIS_HASH (readLastHash t)) = 64.
Proof.
  intros [_ _ (prev & Hc & _)]. unfold readLastHash.
  destruct (links t) as [|r l _] using rev_ind; [done|].
  rewrite last_snoc. apply chain_app in Hc as [_ [E _]]. cbn. rewrite E. apply Hlen.
Qed.
End hash.

(** ** Properties *)

Fixpoint appendAll (evs : list (Z * AuditEvent)) (t : AuditTable) : AuditTable :=
  match evs with
  | [] => t
  | (now, ev) :: rest => appendAll rest (createAuditAppender now ev t).2
  end.

(** The row an event becomes, but for the hashes. *)
Definition recordedEvent (x : Z * AuditEvent) :=
  (toISOString (default x.1 (ev_ts x.2)), ev_installationId x.2, ev_prId x.2, ev_event x.2,
   ev_model x.2, ev_inputTokens x.2, ev_outputTokens x.2).

Lemma segment_ok prev rows :
  chain prev rows -> declared prev rows -> verifyAuditChainSegment (map toLink rows) = (true, []).
Proof.
  intros Hc Hd. destruct rows as [|r l]; [done|]. cbn [map verifyAuditChainSegment].
  assert (default AUDIT_GENESIS_HASH (cl_prevHash (toLink r)) = prev) as ->
    by (destruct Hd as [E _]; cbn; by rewrite E).
  rewrite breaksFrom_chain; [done|]. by apply (chain_toLink _ (r :: l)).
Qed.

Lemma wellFormed_verifies t :
  wellFormed t -> verifyAuditChainSegmentFromDb None t = (true, length (al_rows t), []).
Proof.
  intros [_ _ (prev & Hc & Hd)].
  unfold verifyAuditChainSegmentFromDb. rewrite selectLinks_all.
  rewrite (segment_ok prev) by done. unfold links. by rewrite !length_map.
Qed.

Lemma segment_chain rows :
  (verifyAuditChainSegment (map toLink rows)).1 = true -> exists prev, chain prev rows.
Proof.
  destruct rows as [|r l]; [by exists []|]. cbn [map verifyAuditChainSegment fst].
  intros H%breaksFrom_nil. eexists. by apply (chain_toLink _ (r :: l)).
Qed.

Lemma verifySegmentFromDb_links i t :
  (verifyAuditChainSegmentFromDb i t).1.1
  = (verifyAuditChainSegment (map toLink (List.filter (ofInstallation i) (links t)))).1.
Proof.
  unfold verifyAuditChainSegmentFromDb, selectLinks. by destruct (verifyAuditChainSegment _).
Qed.

Lemma exportVerifies_links i since until t :
  exportVerifies i since until t
  = (verifyAuditChainSegment (map toLink (loadAuditLogForExport i since until t))).1.
Proof. unfold exportVerifies. by destruct (map toLink _). Qed.

Lemma appendAll_chain evs t :
  chain AUDIT_GENESIS_HASH (links t) -> declared AUDIT_GENESIS_HASH (links t) -> reachable t ->
  chain AUDIT_GENESIS_HASH (links (appendAll evs t)) /\
  declared AUDIT_GENESIS_HASH (links (appendAll evs t)) /\ reachable (appendAll evs t) /\
  map recorded (links (appendAll evs t)) = map recorded (links t) ++ map recordedEvent evs.
Proof.
  revert t. induction evs as [|[now ev] evs IH]; intros t Hc Hd Hr; cbn [appendAll].
  - by rewrite app_nil_r.
  - destruct (append_chain AUDIT_GENESIS_HASH now ev t) as [Hc' Hd']; [done..|].
    destruct (IH _ Hc' Hd' (reach_append now ev t Hr)) as (? & ? & ? & ->). split_and!; try done.
    unfold createAuditAppender. cbn [snd]. rewrite links_insert, map_app, <- app_assoc. done.
Qed.

(** Appending any events, one transaction after the other, to a fresh log gives a log that verifies
    from the genesis hash, whole and as a segment, holds one row for every event in order, and
    never reuses a key. *)
Theorem appended_log_verifies evs :
  let t := appendAll evs emptyTable in
  verifyAuditChainFromDb None t = (true, length evs, []) /\
  verifyAuditChainSegmentFromDb None t = (true, length evs, []) /\
  map recorded (links t) = map recordedEvent evs /\
  StronglySorted Z.lt (map fst (al_rows t)).
Proof.
  intros t. destruct (appendAll_chain evs emptyTable) as (Hc & Hd & Hr & Hm);
    [done|done|constructor|]. fold t in Hc, Hd, Hr, Hm. clearbody t. cbn [app map links al_rows emptyTable] in Hm.
  assert (length (links t) = length evs) as Hn.
  { apply (f_equal length) in Hm. by rewrite !length_map in Hm. }
  split_and!; [| |done|apply reachable_wellFormed; done].
  - unfold verifyAuditChainFromDb, verifyAuditChain. rewrite selectLinks_all, breaksFrom_chain by
      by apply chain_toLink. by rewrite length_map, Hn.
  - unfold verifyAuditChainSegmentFromDb. rewrite selectLinks_all.
    rewrite (segment_ok AUDIT_GENESIS_HASH) by done. by rewrite length_map, Hn.
Qed.

(** Whatever appends and prunes led to a log, what is left of it verifies as a segment. *)
Theorem retention_keeps_the_chain t :
  reachable t -> verifyAuditChainSegmentFromDb None t = (true, length (al_rows t), []).
Proof. intros H. by apply wellFormed_verifies, reachable_wellFormed. Qed.

(** A prune removes exactly the rows before its anchor, the last row older than the limit; the
    anchor and everything after it stay, and every row after it is recent enough. Without a row
    older than the limit nothing changes. A row in front of the anchor goes even when its own
    time is recent. *)
Theorem pruneAuditLog_spec before t :
  reachable t ->
  let '(r, t') := pruneAuditLog before t in
  match anchorId r with
  | None => t' = t /\ Forall (fun x => before <= cl_ts x.2)%Z (al_rows t)
  | Some id => exists pre row suf,
      al_rows t = pre ++ (id, row) :: suf /\
      t' = {| al_rows := (id, row) :: suf; al_next := al_next t |} /\
      (cl_ts row < before)%Z /\ Forall (fun x => before <= cl_ts x.2)%Z suf /\
      deleted r = length pre /\ anchorHash r = Some (cl_hash row)
  end.
Proof.
  intros [Hk _ _]%reachable_wellFormed. pose proof (prune_split before t Hk) as H.
  by destruct (pruneAuditLog before t).
Qed.

(** The two logs agree from their ends back to a row of each, and the texts hashed for these two
    rows are different texts of one hash. *)
Definition collideAt (rows rows' : list ChainLink) : Prop :=
  exists pre row suf pre' row' suf', rows = pre ++ row :: suf /\ rows' = pre' ++ row' :: suf' /\
    map recorded suf = map recorded suf' /\ map cl_hash suf = map cl_hash suf' /\
    colliding (hashedText (lastHash AUDIT_GENESIS_HASH pre) row)
              (hashedText (lastHash AUDIT_GENESIS_HASH pre') row').

(** The first log ends with the whole of the second, and the row before that end has the genesis
    hash for its own. *)
Definition genesisInside (rows rows' : list ChainLink) : Prop :=
  exists pre row suf, rows = pre ++ row :: suf /\
    map recorded suf = map recorded rows' /\ map cl_hash suf = map cl_hash rows' /\
    sha256hex (hashedText (lastHash AUDIT_GENESIS_HASH pre) row) = AUDIT_GENESIS_HASH.

Lemma collideAt_snoc rows rows' row row' :
  recorded row = recorded row' -> cl_hash row = cl_hash row' ->
  collideAt rows rows' -> collideAt (rows ++ [row]) (rows' ++ [row']).
Proof.
  intros Hr Hh (pre & r & suf & pre' & r' & suf' & -> & -> & Hm & Hs & Hc).
  exists pre, r, (suf ++ [row]), pre', r', (suf' ++ [row']). rewrite <- !app_assoc.
  split_and!; [done|done|rewrite !map_app, Hm; cbn; by rewrite Hr|rewrite !map_app, Hs; cbn; by rewrite Hh|done].
Qed.

Lemma genesisInside_snoc rows rows' row row' :
  recorded row = recorded row' -> cl_hash row = cl_hash row' ->
  genesisInside rows rows' -> genesisInside (rows ++ [row]) (rows' ++ [row']).
Proof.
  intros Hr Hh (pre & r & suf & -> & Hm & Hs & Hg). exists pre, r, (suf ++ [row]).
  rewrite <- app_assoc, !map_app, Hm, Hs. cbn. by rewrite Hr, Hh.
Qed.

(** C11. Two logs that verify and end in the same hash record the same rows, in the same order, with
    the same hashes: changing, dropping or reordering a row of a verified log changes its last
    hash. The only exceptions are named by the logs themselves: going back from their ends, the
    first two rows that differ are hashed from two different texts that SHA-256 maps to one hash,
    or one log is the end of the other, after a row whose hash is the 64 zeros a log starts from.
    The column [prevHash] is not covered. *)
Theorem verified_logs_agree rows rows' :
  (forall s, length (sha256hex s) = 64) ->
  (verifyAuditChain rows).1 = true -> (verifyAuditChain rows').1 = true ->
  lastHash AUDIT_GENESIS_HASH rows = lastHash AUDIT_GENESIS_HASH rows' ->
  (map recorded rows = map recorded rows' /\ map cl_hash rows = map cl_hash rows')
  \/ collideAt rows rows' \/ genesisInside rows rows' \/ genesisInside rows' rows.
Proof.
  intros Hlen. unfold verifyAuditChain. cbn [fst]. rewrite !breaksFrom_nil. revert rows'.
  induction rows as [|row rows IH] using rev_ind; intros rows'.
  - destruct rows' as [|row' rows' _] using rev_ind; [by left|].
    intros _ [_ [E _]]%chain_app H. rewrite lastHash_snoc in H. right. right. right.
    exists rows', row', []. split_and!; [done..|]. exact (eq_sym (eq_trans H E)).
  - intros [Hc [E _]]%chain_app. destruct rows' as [|row' rows' _] using rev_ind.
    + intros _ H. rewrite lastHash_snoc in H. right. right. left.
      exists rows, row, []. split_and!; [done..|]. exact (eq_trans (eq_sym E) H).
    + intros [Hc' [E' _]]%chain_app H. rewrite !lastHash_snoc in H.
      destruct (rowHash_inj (lastHash AUDIT_GENESIS_HASH rows) (lastHash AUDIT_GENESIS_HASH rows')
        row row') as [[Hp Hr]|Hcol]; [by apply chain_last_length..|congruence| |].
      * destruct (IH rows' Hc Hc' Hp) as [[Hm Hh]|[?|[?|?]]].
        -- left. rewrite !map_app, Hm, Hh. cbn. by rewrite Hr, H.
        -- right. left. by apply collideAt_snoc.
        -- right. right. left. by apply genesisInside_snoc.
        -- right. right. right. by apply genesisInside_snoc.
      * right. left. by exists rows, row, [], rows', row', [].
Qed.

(** The rows of one tenant are not a chain: when another tenant's event falls between two of its
    events, neither the segment of its rows nor its export verifies, unless the third row hashed
    after the first and after the second, or the first two rows, are a collision of SHA-256. *)
Theorem interleaved_tenants_do_not_verify t now1 now2 now3 e1 e2 e3 i j since :
  (forall s, length (sha256hex s) = 64) -> wellFormed t -> i <> j ->
  ev_installationId e1 = Some i -> ev_installationId e2 = Some j -> ev_installationId e3 = Some i ->
  (since <= default now1 (ev_ts e1))%Z -> (since <= default now3 (ev_ts e3))%Z ->
  let t' := appendAll [(now1, e1); (now2, e2); (now3, e3)] t in
  let r1 := appendAuditRow (readLastHash t) e1 now1 in
  let r2 := appendAuditRow (Some (cl_hash r1)) e2 now2 in
  let r3 := appendAuditRow (Some (cl_hash r2)) e3 now3 in
  (verifyAuditChainSegmentFromDb (Some i) t').1.1 = true \/ exportVerifies i since None t' = true ->
  colliding (hashedText (cl_hash r1) r3) (hashedText (cl_hash r2) r3) \/
  colliding (hashedText (default AUDIT_GENESIS_HASH (readLastHash t)) r1) (hashedText (cl_hash r1) r2).
Proof.
  intros Hlen Hw Hij H1 H2 H3 Hs1 Hs3 t' r1 r2 r3 Hor.
  assert (links t' = links t ++ [r1; r2; r3]) as El.
  { subst t'. cbn [appendAll]. unfold createAuditAppender. cbn [snd].
    by rewrite !readLastHash_insert, !links_insert, <- !app_assoc. }
  assert (exists F, (verifyAuditChainSegment (map toLink (F ++ [r1; r3]))).1 = true) as [F HF].
  { assert (ofInstallation (Some i) r1 = true /\ ofInstallation (Some i) r2 = false /\
      ofInstallation (Some i) r3 = true) as (O1 & O2 & O3).
    { cbn. rewrite H1, H2, H3, (bool_decide_eq_true_2 (Some i = Some i)) by done.
      by rewrite bool_decide_eq_false_2 by congruence. }
    apply Z.leb_le in Hs1, Hs3.
    destruct Hor as [H|H].
    - rewrite verifySegmentFromDb_links, El, List.filter_app in H. cbn [List.filter] in H.
      rewrite O1, O2, O3 in H. by eexists.
    - rewrite exportVerifies_links in H. unfold loadAuditLogForExport in H. rewrite El, List.filter_app in H. cbn [List.filter] in H.
      rewrite O1, O2, O3 in H. change (cl_ts r1) with (default now1 (ev_ts e1)) in H.
      change (cl_ts r3) with (default now3 (ev_ts e3)) in H. rewrite Hs1, Hs3 in H. by eexists. }
  apply segment_chain in HF as (p & Hc). apply chain_app in Hc as [_ (_ & E3 & _)].
  destruct (rowHash_inj (cl_hash r1) (cl_hash r2) r3 r3) as [[E _]|?]; [apply Hlen..| | |by left].
  { rewrite <- E3. reflexivity. }
  destruct (rowHash_inj (default AUDIT_GENESIS_HASH (readLastHash t)) (cl_hash r1) r1 r2)
    as [[_ Er]|?]; [by apply readLastHash_length|apply Hlen|exact E| |by right].
  unfold recorded in Er. cbn in Er. congruence.
Qed.

(** Two appends whose reads both come before either insert leave a log that does not verify,
    unless the second row hashed after the first and after the row both continue is a collision of
    SHA-256, or the first row has the hash it continues for its own. *)
Theorem concurrent_appends_fork t now1 now2 e1 e2 :
  (forall s, length (sha256hex s) = 64) -> wellFormed t ->
  let prev := readLastHash t in
  let r1 := appendAuditRow prev e1 now1 in
  let r2 := appendAuditRow prev e2 now2 in
  let t' := insertAuditRow r2 (insertAuditRow r1 t) in
  (verifyAuditChainFromDb None t').1.1 = true \/ (verifyAuditChainSegmentFromDb None t').1.1 = true ->
  colliding (hashedText (cl_hash r1) r2) (hashedText (default AUDIT_GENESIS_HASH prev) r2) \/
  cl_hash r1 = default AUDIT_GENESIS_HASH prev.
Proof.
  intros Hlen Hw prev r1 r2 t' Hor.
  assert (links t' = links t ++ [r1; r2]) as El.
  { subst t'. by rewrite !links_insert, <- app_assoc. }
  assert (exists p, chain p (links t ++ [r1; r2])) as (p & Hc).
  { rewrite <- El. destruct Hor as [H|H].
    - exists AUDIT_GENESIS_HASH. rewrite <- chain_toLink, <- selectLinks_all.
      by apply (breaksFrom_nil _ 0).
    - apply segment_chain. rewrite verifySegmentFromDb_links in H.
      by rewrite ofInstallation_all in H. }
  apply chain_app in Hc as [_ (_ & E2 & _)].
  destruct (rowHash_inj (cl_hash r1) (default AUDIT_GENESIS_HASH prev) r2 r2) as [[E _]|?];
    [apply Hlen|by apply readLastHash_length| |by right|by left].
  rewrite <- E2. reflexivity.
Qed.
End audit.

(** ** Concrete logs *)

(** A hash of the right length. *)
Definition demoHash (s : str) : str := take 64 (s ++ replicate 64 "0"%char).

Lemma demoHash_length s : length (demoHash s) = 64.
Proof. unfold demoHash. rewrite length_take, length_app, length_replicate. lia. Qed.

Definition demoEvent (installation : Z) (name : str) : AuditEvent :=
  {| ev_ts := None; ev_installationId := Some installation; ev_prId := None; ev_event := name;
     ev_model := None; ev_inputTokens := Some 10%Z; ev_outputTokens := None |}.

Definition demoLog (installation : Z) : AuditTable :=
  appendAll demoHash showZ [(100%Z, demoEvent installation "review.start"); (200%Z, demoEvent installation "review.end")]
    emptyTable.

Lemma demoLog_reachable i : reachable demoHash showZ (demoLog i).
Proof. apply reach_append, reach_append, reach_empty. Qed.

Example canonicalPayload_text :
  canonicalPayload showZ (demoEvent 7 "a") 100
  = "{" ++ jsonQuote "ts" ++ ":" ++ jsonQuote "100" ++ "," ++ jsonQuote "installationId" ++ ":" ++
    jsonQuote "7" ++ "," ++ jsonQuote "prId" ++ ":null," ++ jsonQuote "event" ++ ":" ++ jsonQuote "a"
    ++ "," ++ jsonQuote "model" ++ ":null," ++ jsonQuote "inputTokens" ++ ":10," ++
    jsonQuote "outputTokens" ++ ":null}".
Proof. vm_compute. reflexivity. Qed.

Lemma retention_keeps_the_chain_witness :
  let t := (pruneAuditLog 150 (demoLog 7)).2 in
  verifyAuditChainSegmentFromDb demoHash showZ None t = (true, length (al_rows t), []).
Proof. apply retention_keeps_the_chain, reach_prune, demoLog_reachable. Defined.

Lemma pruneAuditLog_spec_witness :
  exists pre row suf, al_rows (demoLog 7) = pre ++ (2%Z, row) :: suf /\ length pre = 1 /\
    (cl_ts row < 300)%Z.
Proof.
  destruct (pruneAuditLog_spec demoHash showZ 300 (demoLog 7) (demoLog_reachable 7))
    as (pre & row & suf & H & _ & Hts & _ & Hd & _).
  exists pre, row, suf. split_and!; [exact H|by rewrite <- Hd|exact Hts].
Defined.

(** Under a hash that keeps the first 64 characters, the logs of two tenants verify and end in one
    hash: their last rows collide. *)
Lemma verified_logs_agree_witness :
  let rows := links (demoLog 7) in
  let rows' := links (demoLog 8) in
  (map (recorded showZ) rows = map (recorded showZ) rows' /\ map cl_hash rows = map cl_hash rows')
  \/ collideAt demoHash showZ rows rows' \/ genesisInside demoHash showZ rows rows'
  \/ genesisInside demoHash showZ rows' rows.
Proof.
  apply (verified_logs_agree demoHash showZ);
    [exact demoHash_length|vm_compute; reflexivity|vm_compute; reflexivity|vm_compute; reflexivity].
Defined.

Lemma interleaved_tenants_do_not_verify_witness : exists x y, colliding demoHash x y.
Proof.
  destruct (interleaved_tenants_do_not_verify demoHash showZ (demoLog 7) 300 400 500
    (demoEvent 7 "a") (demoEvent 8 "b") (demoEvent 7 "c") 7 8 0) as [H|H];
    [exact demoHash_length|apply reachable_wellFormed, demoLog_reachable|done|done|done|done|done|done| | |];
    [left; vm_compute; reflexivity|eauto..].
Defined.

Lemma concurrent_appends_fork_witness :
  let prev := readLastHash (demoLog 7) in
  let r1 := appendAuditRow demoHash showZ prev (demoEvent 7 "a") 300 in
  let r2 := appendAuditRow demoHash showZ prev (demoEvent 7 "b") 301 in
  colliding demoHash (hashedText showZ (cl_hash r1) r2) (hashedText showZ (default AUDIT_GENESIS_HASH prev) r2) \/
  cl_hash r1 = default AUDIT_GENESIS_HASH prev.
Proof.
  apply (concurrent_appends_fork demoHash showZ (demoLog 7) 300 301 (demoEvent 7 "a") (demoEvent 7 "b"));
    [exact demoHash_length|apply reachable_wellFormed, demoLog_reachable|].
  left. vm_compute. reflexivity.
Defined.
