(* ===== verification/Review.v ===== *)
(** * Review data and the review event (core/src/review.ts)

    The types a review is made of (findings, persisted state), their orderings, and
    [computeReviewEvent], which turns the kept findings into the event posted to the
    platform.  The provider's output type of llm/src/types.ts is here too: its comments are
    inline comments without the fingerprint. *)

From S2P Require Import Prelude JsNumber.

(** ** Enumerations *)

Inductive Severity := critical | major | minor | info.
Inductive Side := LEFT | RIGHT.
Inductive Confidence := high | medium | low.
Inductive Category := bug | security | performance | maintainability | style | docs | test.
Inductive ReviewEvent := COMMENT | REQUEST_CHANGES | APPROVE.
Inductive RequestChangesThreshold := at_critical | at_major | never.
Inductive ReviewAbortReason :=
  url_allowlist | schema_violation | max_files_exceeded | max_diff_lines_exceeded.

#[export] Instance Severity_eq : EqDecision Severity.
Proof. solve_decision. Defined.
#[export] Instance Confidence_eq : EqDecision Confidence.
Proof. solve_decision. Defined.
#[export] Instance Category_eq : EqDecision Category.
Proof. solve_decision. Defined.
#[export] Instance ReviewEvent_eq : EqDecision ReviewEvent.
Proof. solve_decision. Defined.

(** The strings the enumerations are at run time. *)
Definition severity_str (s : Severity) : str :=
  match s with critical => "critical" | major => "major" | minor => "minor" | info => "info" end.

Definition SEVERITIES : list Severity := [critical; major; minor; info].
Definition CONFIDENCES : list Confidence := [high; medium; low].

Definition SEVERITY_RANK (s : Severity) : Z :=
  match s with critical => 3 | major => 2 | minor => 1 | info => 0 end.

(** ** Findings *)

(** [ReviewOutputComment]: what the model emits. *)
Record ReviewOutputComment := {
  path : str;
  line : Z;
  side : Side;
  body : str;
  severity : Severity;
  category : option Category;
  confidence : option Confidence;
  ruleId : option str;
  suggestion : option str;
}.

(** [InlineComment]: a finding with its fingerprint. *)
Record InlineComment := {
  comment_of : ReviewOutputComment;
  fingerprint_of : str;
}.
Coercion comment_of : InlineComment >-> ReviewOutputComment.

(** [{ ...c, body: b }] *)
Definition set_body (b : str) (c : InlineComment) : InlineComment :=
  {| comment_of :=
       {| path := path c; line := line c; side := side c; body := b; severity := severity c;
          category := category c; confidence := confidence c; ruleId := ruleId c;
          suggestion := suggestion c |};
     fingerprint_of := fingerprint_of c |}.

Record TokensUsed := { tok_input : Z; tok_output : Z }.

(** [ReviewOutput] of llm/src/types.ts. *)
Record ReviewOutput := {
  out_comments : list ReviewOutputComment;
  out_summary : str;
  out_tokensUsed : TokensUsed;
  out_costUsd : number;
  out_toolCalls : option Z;
}.

(** [ReviewState]: the record persisted between two reviews of a pull request. *)
Record ReviewState := {
  lastReviewedSha : str;
  baseSha : str;
  reviewedAt : str;
  modelUsed : str;
  totalTokens : Z;
  totalCostUsd : number;
  commentFingerprints : list str;
}.

(** ** The review event *)

Definition threshold_rank (t : RequestChangesThreshold) : option Z :=
  match t with
  | at_critical => Some (SEVERITY_RANK critical)
  | at_major => Some (SEVERITY_RANK major)
  | never => None
  end.

Fixpoint anyAtLeast (floor : Z) (comments : list InlineComment) : bool :=
  match comments with
  | [] => false
  | c :: cs => if (floor <=? SEVERITY_RANK (severity c))%Z then true else anyAtLeast floor cs
  end.

Definition computeReviewEvent (comments : list InlineComment)
    (threshold : RequestChangesThreshold) : ReviewEvent :=
  match threshold_rank threshold with
  | None => COMMENT
  | Some floor => if anyAtLeast floor comments then REQUEST_CHANGES else COMMENT
  end.

(** ** Lemmas *)

Lemma SEVERITY_RANK_inj s t : SEVERITY_RANK s = SEVERITY_RANK t -> s = t.
Proof. by destruct s, t. Qed.

Lemma anyAtLeast_spec floor comments :
  anyAtLeast floor comments = true <->
  exists c : InlineComment, c ∈ comments /\ (floor <= SEVERITY_RANK (severity c))%Z.
Proof.
  induction comments as [|c cs IH]; simpl; [set_solver|].
  destruct (floor <=? _)%Z eqn:E; to_prop.
  - split; [|done]. intros _. exists c. split; [left|done].
  - rewrite IH. split; [set_solver|].
    intros (d & [->|Hd]%elem_of_cons & Hf); [lia|]. eauto.
Qed.

(** The blocking findings are an upward closed set of severities. *)
Lemma computeReviewEvent_mono comments comments' t :
  comments ⊆ comments' ->
  computeReviewEvent comments t = REQUEST_CHANGES ->
  computeReviewEvent comments' t = REQUEST_CHANGES.
Proof.
  unfold computeReviewEvent. intros Hs. destruct (threshold_rank t) as [floor|]; [|done].
  destruct (anyAtLeast floor comments) eqn:E; [intros _|done].
  apply anyAtLeast_spec in E as (c & Hc & Hf).
  rewrite (proj2 (anyAtLeast_spec floor comments')); [done|]. eauto.
Qed.

(** The event only looks at severities: rewriting the bodies does not change it. *)
Lemma computeReviewEvent_map f comments t :
  (forall c, severity (comment_of (f c)) = severity (comment_of c)) ->
  computeReviewEvent (map f comments) t = computeReviewEvent comments t.
Proof.
  intros Hf. unfold computeReviewEvent. destruct (threshold_rank t) as [floor|]; [|done].
  assert (anyAtLeast floor (map f comments) = anyAtLeast floor comments) as ->; [|done].
  induction comments as [|c cs IH]; simpl; [done|]. by rewrite Hf, IH.
Qed.

Lemma computeReviewEvent_never_approves comments threshold :
  computeReviewEvent comments threshold <> APPROVE.
Proof.
  unfold computeReviewEvent. destruct (threshold_rank threshold); [|done]. by destruct (anyAtLeast _ _).
Qed.

Lemma computeReviewEvent_iff comments threshold :
  computeReviewEvent comments threshold = REQUEST_CHANGES <->
  exists floor (c : InlineComment), threshold_rank threshold = Some floor /\ c ∈ comments /\
    (floor <= SEVERITY_RANK (severity c))%Z.
Proof.
  unfold computeReviewEvent. destruct (threshold_rank threshold) as [floor|].
  - destruct (anyAtLeast floor comments) eqn:E.
    + split; [|done]. intros _. apply anyAtLeast_spec in E as (c & ? & ?). by exists floor, c.
    + split; [done|]. intros (fl & c & [= <-] & Hc & Hf).
      assert (anyAtLeast floor comments = true) by (apply anyAtLeast_spec; eauto). congruence.
  - split; [done|]. by intros (? & ? & ? & _).
Qed.

(** ** Properties *)

(** The review asks for changes exactly when the threshold is not [never] and some posted comment
    is at least that severe; it never approves. *)
Theorem computeReviewEvent_spec comments threshold :
  computeReviewEvent comments threshold <> APPROVE /\
  (computeReviewEvent comments threshold = REQUEST_CHANGES <->
   exists floor (c : InlineComment), threshold_rank threshold = Some floor /\ c ∈ comments /\
                   (floor <= SEVERITY_RANK (severity c))%Z).
Proof. split; [apply computeReviewEvent_never_approves|apply computeReviewEvent_iff]. Qed.
