(* ===== verification/Regex.v ===== *)
(** * Regular expressions

    The regular expressions the program tests strings against, as languages: a pattern [r]
    with [r.test(s)] is modelled by the [re] whose language is the set of strings [s] that
    pass, so an anchor is the absence of a leading or trailing [anything].  [matches] decides
    membership by derivatives and is proved equal to the inductive language; [parseRegExp]
    reads the fragment of the regular expression syntax the program's glob translations
    produce. *)

From S2P Require Import Prelude.

Inductive re : Type :=
  | Void
  | Eps
  | Cls (f : ascii -> bool)
  | Cat (a b : re)
  | Alt (a b : re)
  | Star (a : re).

(** ** Language *)

Inductive lang : re -> str -> Prop :=
  | L_Eps : lang Eps []
  | L_Cls f c : f c = true -> lang (Cls f) [c]
  | L_Cat a b s t : lang a s -> lang b t -> lang (Cat a b) (s ++ t)
  | L_Alt_l a b s : lang a s -> lang (Alt a b) s
  | L_Alt_r a b s : lang b s -> lang (Alt a b) s
  | L_Star_nil a : lang (Star a) []
  | L_Star_cons a c s t : lang a (c :: s) -> lang (Star a) t -> lang (Star a) (c :: s ++ t).

#[export] Hint Constructors lang : regex.

(** ** Matching by derivatives *)

Fixpoint nullable (r : re) : bool :=
  match r with
  | Void | Cls _ => false
  | Eps | Star _ => true
  | Cat a b => nullable a && nullable b
  | Alt a b => nullable a || nullable b
  end.

(** Constructors that simplify, so that derivatives stay small. *)
Definition mkCat (a b : re) : re :=
  match a with
  | Void => Void
  | Eps => b
  | _ => match b with Void => Void | _ => Cat a b end
  end.

Definition mkAlt (a b : re) : re :=
  match a with
  | Void => b
  | _ => match b with Void => a | _ => Alt a b end
  end.

Fixpoint deriv (c : ascii) (r : re) : re :=
  match r with
  | Void | Eps => Void
  | Cls f => if f c then Eps else Void
  | Cat a b =>
      if nullable a then mkAlt (mkCat (deriv c a) b) (deriv c b) else mkCat (deriv c a) b
  | Alt a b => mkAlt (deriv c a) (deriv c b)
  | Star a => mkCat (deriv c a) (Star a)
  end.

Fixpoint matches (r : re) (s : str) : bool :=
  match s with
  | [] => nullable r
  | c :: s' => matches (deriv c r) s'
  end.

(** ** Correctness *)

Lemma lang_Void s : ~ lang Void s.
Proof. intros H. inversion H. Qed.

Lemma lang_Eps s : lang Eps s <-> s = [].
Proof. split; [intros H; by inversion H|intros ->; constructor]. Qed.

Lemma lang_Cls f s : lang (Cls f) s <-> exists c, s = [c] /\ f c = true.
Proof. split; [intros H; inversion H; eauto|intros (c & -> & ?); by constructor]. Qed.

Lemma lang_Cat a b s : lang (Cat a b) s <-> exists t u, s = t ++ u /\ lang a t /\ lang b u.
Proof. split; [intros H; inversion H; eauto|intros (t & u & -> & ? & ?); by constructor]. Qed.

Lemma lang_Alt a b s : lang (Alt a b) s <-> lang a s \/ lang b s.
Proof. split; [intros H; inversion H; auto|intros [?|?]; eauto with regex]. Qed.

Lemma lang_mkCat a b s : lang (mkCat a b) s <-> lang (Cat a b) s.
Proof.
  rewrite lang_Cat. destruct a, b; simpl; try done;
    try (rewrite lang_Cat; done);
    split; try (intros H; inversion H; fail);
    try (intros (t & u & -> & H1 & H2); (inversion H1; fail) || (inversion H2; fail));
    try (intros H; exists [], s; split; [done|]; split; [constructor|done]);
    try (intros (t & u & -> & ->%lang_Eps & H2); done).
Qed.

Lemma lang_mkAlt a b s : lang (mkAlt a b) s <-> lang (Alt a b) s.
Proof.
  assert (forall x, lang (Alt Void x) s <-> lang x s) as H1.
  { intros x. rewrite lang_Alt. split; [intros [H|H]; [inversion H|done]|auto]. }
  assert (forall x, lang (Alt x Void) s <-> lang x s) as H2.
  { intros x. rewrite lang_Alt. split; [intros [H|H]; [done|inversion H]|auto]. }
  destruct a; simpl; rewrite ?H1; try done; destruct b; simpl; by rewrite ?H2.
Qed.

Lemma nullable_spec r : nullable r = true <-> lang r [].
Proof.
  induction r; simpl.
  - split; [done|]. by intros ?%lang_Void.
  - split; [constructor|done].
  - split; [done|]. intros (c & [=] & _)%lang_Cls.
  - rewrite andb_true_iff, IHr1, IHr2, lang_Cat. split.
    + intros [? ?]. by exists [], [].
    + intros (t & u & Hn & Ht & Hu). symmetry in Hn. apply app_eq_nil in Hn as [-> ->]. done.
  - by rewrite orb_true_iff, IHr1, IHr2, lang_Alt.
  - split; [constructor|done].
Qed.

Lemma lang_Star_cons a c s :
  lang (Star a) (c :: s) <-> exists t u, s = t ++ u /\ lang a (c :: t) /\ lang (Star a) u.
Proof.
  split.
  - intros H. inversion H; subst; eauto.
  - intros (t & u & -> & ? & ?). by constructor.
Qed.

Lemma lang_Cat_cons a b c s :
  lang (Cat a b) (c :: s) <->
  (exists t u, s = t ++ u /\ lang a (c :: t) /\ lang b u) \/ (lang a [] /\ lang b (c :: s)).
Proof.
  rewrite lang_Cat. split.
  - intros ([|x t] & u & E & Ha & Hb); simplify_eq/=; eauto 10.
  - intros [(t & u & -> & Ha & Hb)|[Ha Hb]]; [by exists (c :: t), u|by exists [], (c :: s)].
Qed.

Lemma deriv_spec c r s : lang (deriv c r) s <-> lang r (c :: s).
Proof.
  revert s; induction r; simpl; intros s.
  - split; intros H; inversion H.
  - split; intros H; inversion H.
  - rewrite lang_Cls. destruct (f c) eqn:E; [rewrite lang_Eps|]; split.
    + intros ->. by exists c.
    + by intros (? & [= -> ->] & _).
    + intros H; inversion H.
    + intros (? & [= -> ->] & ?). congruence.
  - assert (lang (mkCat (deriv c r1) r2) s <->
      exists t u, s = t ++ u /\ lang r1 (c :: t) /\ lang r2 u) as HC.
    { rewrite lang_mkCat, lang_Cat. by setoid_rewrite IHr1. }
    rewrite lang_Cat_cons, <- nullable_spec. destruct (nullable r1) eqn:E.
    + rewrite lang_mkAlt, lang_Alt, HC, IHr2. naive_solver.
    + rewrite HC. naive_solver.
  - by rewrite lang_mkAlt, !lang_Alt, IHr1, IHr2.
  - rewrite lang_mkCat, lang_Cat, lang_Star_cons. by setoid_rewrite IHr.
Qed.

Theorem matches_spec r s : matches r s = true <-> lang r s.
Proof.
  revert r; induction s as [|c s IH]; intros r; simpl; [apply nullable_spec|].
  by rewrite IH, deriv_spec.
Qed.

(** ** Notations of the source *)

Definition chr (c : ascii) : re := Cls (eqc c).
(** A literal character under the [i] flag. *)
Definition chrI (c : ascii) : re := Cls (fun d => eqc (fold_char c) (fold_char d)).
Definition lit (s : str) : re := foldr (fun c r => Cat (chr c) r) Eps s.
Definition litI (s : str) : re := foldr (fun c r => Cat (chrI c) r) Eps s.
Definition any_char : re := Cls (fun _ => true).
(** What may precede an unanchored match, or follow it. *)
Definition anything : re := Star any_char.
(** [.]: any character but a line terminator. *)
Definition is_dot (c : ascii) : bool := negb (eqc c "010" || eqc c "013")%char.
Definition dot : re := Cls is_dot.
(** [[^/]]. *)
Definition not_slash : re := Cls (fun c => negb (eqc c "/"))%char.
Definition opt (r : re) : re := Alt r Eps.
Definition seq (l : list re) : re := foldr Cat Eps l.
Definition alts (l : list re) : re := foldr Alt Void l.
(** An unanchored test. *)
Definition search (r : re) : re := Cat anything (Cat r anything).

Lemma lang_anything s : lang anything s.
Proof.
  induction s as [|c s IH]; [constructor|].
  apply (L_Star_cons any_char c [] s); [by constructor|done].
Qed.

Lemma lang_search r s :
  lang (search r) s <-> exists a t b, s = a ++ t ++ b /\ lang r t.
Proof.
  unfold search. rewrite lang_Cat. split.
  - intros (a & u & -> & _ & (t & b & -> & Ht & _)%lang_Cat). eauto.
  - intros (a & t & b & -> & Ht). exists a, (t ++ b). split; [done|].
    split; [apply lang_anything|]. constructor; [done|apply lang_anything].
Qed.

Lemma lang_chr c s : lang (chr c) s <-> s = [c].
Proof.
  unfold chr. rewrite lang_Cls. setoid_rewrite eqc_true. naive_solver.
Qed.

Lemma lang_lit t s : lang (lit t) s <-> s = t.
Proof.
  revert s; induction t as [|c t IH]; intros s; simpl; [apply lang_Eps|].
  rewrite lang_Cat. setoid_rewrite lang_chr. setoid_rewrite IH. split.
  - by intros (? & ? & -> & -> & ->).
  - intros ->. by exists [c], t.
Qed.

Lemma lang_Star_Cls f s : lang (Star (Cls f)) s <-> Forall (fun c => f c = true) s.
Proof.
  induction s as [|c s IH].
  - split; [constructor|constructor].
  - rewrite lang_Star_cons. split.
    + intros (t & u & -> & (x & [= <- ->] & Hf)%lang_Cls & Hu).
      constructor; [done|]. by apply IH.
    + intros H. inv H. exists [], s. split; [done|]. split; [by constructor|]. by apply IH.
Qed.

#[export] Hint Resolve lang_anything : regex.

(** ** Parsing the fragment of RegExp syntax used by the glob translations

    Atoms are an escaped character, [.], [[^/]], the group [(?:.*/)] and plain characters;
    an atom may carry the quantifier [*] or [?], itself possibly lazy ([?]), which does not
    change the language.  Everything else makes the RegExp constructor throw: the glob
    translations escape the other metacharacters, so the only rejected shape is a
    quantifier with nothing to repeat. *)

Definition is_quant (c : ascii) : bool := eqc c "*" || eqc c "?".

(** The quantifier after an atom: the quantified atom and what is left to read. *)
Definition quantify (a : re) (s : str) : re * str :=
  match s with
  | q :: s' =>
      if eqc q "*" || eqc q "?" then
        let r := if eqc q "*" then Star a else opt a in
        match s' with
        | l :: s'' => if eqc l "?" then (r, s'') else (r, s')
        | [] => (r, s')
        end
      else (a, s)
  | [] => (a, s)
  end.

Definition dir_group : re := Cat (Star dot) (chr "/").

(** One atom: its expression and what is left to read. *)
Definition parseAtom (s : str) : option (re * str) :=
  match s with
  | [] => None
  | c :: s' =>
      if startsWith s "(?:.*/)" then Some (dir_group, drop 7 s)
      else if startsWith s "[^/]" then Some (not_slash, drop 4 s)
      else if eqc c "\" then
        match s' with [] => None | d :: s'' => Some (chr d, s'') end
      else if eqc c "." then Some (dot, s')
      else if is_quant c then None
      else Some (chr c, s')
  end.

Fixpoint parseGo (fuel : nat) (s : str) : option re :=
  match s with
  | [] => Some Eps
  | _ =>
      match fuel with
      | O => None
      | S fuel' =>
          '(a, s1) ← parseAtom s;
          let '(q, s2) := quantify a s1 in
          r ← parseGo fuel' s2;
          Some (Cat q r)
      end
  end.

(** [new RegExp(`^${s}$`)]; [None] is a SyntaxError. *)
Definition parseRegExp (s : str) : option re := parseGo (length s) s.

Lemma quantify_length a s q s2 : quantify a s = (q, s2) -> length s2 <= length s.
Proof.
  unfold quantify. destruct s as [|c s]; [intros [= <- <-]; done|].
  destruct (_ || _); [|intros [= <- <-]; done].
  destruct s as [|d s]; [intros [= <- <-]; simpl; lia|].
  destruct (eqc d _); intros [= <- <-]; simpl; lia.
Qed.

Lemma parseAtom_length s a s1 : parseAtom s = Some (a, s1) -> length s1 < length s.
Proof.
  unfold parseAtom. destruct s as [|c s]; [done|].
  destruct (startsWith _ "(?:.*/)"); [intros [= <- <-]; simpl; rewrite length_drop; lia|].
  destruct (startsWith _ "[^/]"); [intros [= <- <-]; simpl; rewrite length_drop; lia|].
  destruct (eqc c "\"); [destruct s as [|d s]; [done|]; intros [= <- <-]; simpl; lia|].
  destruct (eqc c "."); [intros [= <- <-]; simpl; lia|].
  destruct (is_quant c); [done|]. intros [= <- <-]. simpl. lia.
Qed.

(** Every step consumes a character, so [length s] steps are enough: more fuel changes
    nothing. *)
Lemma parseGo_fuel n m s : length s <= n -> length s <= m -> parseGo n s = parseGo m s.
Proof.
  revert m s; induction n as [|n IH]; intros m s Hn Hm.
  - destruct s; simpl in Hn; [|lia]. by destruct m.
  - destruct s as [|c s]; [by destruct m|]. destruct m as [|m]; [simpl in Hm; lia|].
    cbn [parseGo]. destruct (parseAtom (c :: s)) as [[a s1]|] eqn:E; [|done].
    apply parseAtom_length in E. cbn [mbind option_bind].
    destruct (quantify a s1) as [q s2] eqn:Eq. apply quantify_length in Eq.
    simpl in *. rewrite (IH m s2); [done|lia|lia].
Qed.

Lemma parseRegExp_nil : parseRegExp [] = Some Eps.
Proof. done. Qed.

Lemma parseRegExp_step s a s1 q s2 :
  parseAtom s = Some (a, s1) -> quantify a s1 = (q, s2) ->
  parseRegExp s = Cat q <$> parseRegExp s2.
Proof.
  intros Ha Hq. unfold parseRegExp.
  pose proof (parseAtom_length _ _ _ Ha). pose proof (quantify_length _ _ _ _ Hq).
  destruct s as [|c s]; [done|]. cbn [length parseGo]. rewrite Ha. cbn [mbind option_bind].
  rewrite Hq. rewrite (parseGo_fuel (length s) (length s2)) by (simpl in *; lia).
  by destruct (parseGo (length s2) s2).
Qed.
