(* ===== verification/Glob.v ===== *)
(** * Globs (core/src/glob.ts, and the tool dispatcher's patterns of runner/src/tools.ts)

    [globToRegExp] translates a glob to a regular expression in passes over the pattern text:
    escape the metacharacters, replace the wildcards by markers, replace the markers by
    regular expressions.  The passes are modelled as they are written, the resulting source is
    read by [parseRegExp], and the outcome is proved equal to a direct reading of the glob
    ([tokenize], [glob_lang]). *)

From S2P Require Import Prelude Regex.

(** ** The passes *)

Definition NUL_BYTE : ascii := "000"%char.

(** The characters of the class [[.+^${}()|[\]\\]]. *)
Definition META : str := ".+^${}()|[]\".

Definition is_meta (c : ascii) : bool := existsb (eqc c) META.

(** [s.replace(/[.+^${}()|[\]\\]/g, '\\$&')] *)
Definition escape_char (c : ascii) : str := if is_meta c then ["\"%char; c] else [c].
Definition escapeMeta (s : str) : str := concat (map escape_char s).

(** The section sign that frames the markers (one code unit, U+00A7). *)
Definition section_sign : ascii := "167"%char.
Definition marker (name : str) : str := section_sign :: name ++ [section_sign].
Definition GLOBDOUBLEDIR : str := marker "GLOBDOUBLEDIR".
Definition GLOBDOUBLE : str := marker "GLOBDOUBLE".

Inductive GlobError := EmptyPattern | NulByte | SyntaxError.

(** The source text between [^] and [$]. *)
Definition globSource (pattern : str) : str :=
  let s := escapeMeta pattern in
  let s := replaceAll s "**/" GLOBDOUBLEDIR in
  let s := replaceAll s "**" GLOBDOUBLE in
  let s := replaceAll s "*" "[^/]*" in
  let s := replaceAll s GLOBDOUBLEDIR "(?:.*/)?" in
  replaceAll s GLOBDOUBLE ".*".

Definition globToRegExp (pattern : str) : result GlobError re :=
  match pattern with
  | [] => Throw EmptyPattern
  | _ =>
      if bool_decide (NUL_BYTE ∈ pattern) then Throw NulByte
      else match parseRegExp (globSource pattern) with
           | Some r => Ok r
           | None => Throw SyntaxError
           end
  end.

Definition isValidGlob (pattern : str) : bool := is_ok (globToRegExp pattern).

(** [isValidRegex] of core/src/regex.ts; [compiles]: [new RegExp(pattern)] returns. *)
Definition isValidRegex (compiles : str -> bool) (pattern : str) : bool :=
  bool_decide (pattern <> []) && negb (bool_decide (NUL_BYTE ∈ pattern)) && compiles pattern.

(** The translation of the tool dispatcher (runner/src/tools.ts) and of the skill loader
    (runner/src/skill-loader.ts), which has no case for [**/]. *)
Definition toolMarker : str := [section_sign; section_sign].

Definition patternSource (pattern : str) : str :=
  let s := escapeMeta pattern in
  let s := replaceAll s "**" toolMarker in
  let s := replaceAll s "*" "[^/]*" in
  replaceAll s toolMarker ".*".

Definition patternToRegExp (pattern : str) : result GlobError re :=
  match parseRegExp (patternSource pattern) with
  | Some r => Ok r
  | None => Throw SyntaxError
  end.

(** [re.test(path)] for a compiled glob. *)
Definition glob_test (pattern path : str) : bool :=
  match globToRegExp pattern with Ok r => matches r path | Throw _ => false end.

(** ** The direct reading of a glob *)

Inductive gtok :=
  | TDir             (** [**/]: nothing, or any text followed by a slash *)
  | TAll             (** [**] *)
  | TSeg             (** [*] *)
  | TChr (c : ascii).

Fixpoint tokenize (s : str) : list gtok :=
  match s with
  | [] => []
  | c :: s1 =>
      if eqc c "*" then
        match s1 with
        | d :: s2 =>
            if eqc d "*" then
              match s2 with
              | e :: s3 =>
                  if eqc e "/" then TDir :: tokenize s3
                  else if eqc e "*" && startsWith s3 "/" then TSeg :: tokenize s1
                  else TAll :: tokenize s2
              | [] => TAll :: tokenize s2
              end
            else TSeg :: tokenize s1
        | [] => TSeg :: tokenize s1
        end
      else TChr c :: tokenize s1
  end.

(** The paths a glob stands for. *)
Inductive glob_lang : list gtok -> str -> Prop :=
  | G_nil : glob_lang [] []
  | G_chr c ts p : glob_lang ts p -> glob_lang (TChr c :: ts) (c :: p)
  | G_seg u ts p :
      Forall (fun c => c <> "/"%char) u -> glob_lang ts p -> glob_lang (TSeg :: ts) (u ++ p)
  | G_all u ts p :
      Forall (fun c => is_dot c = true) u -> glob_lang ts p -> glob_lang (TAll :: ts) (u ++ p)
  | G_dir_none ts p : glob_lang ts p -> glob_lang (TDir :: ts) p
  | G_dir u ts p :
      Forall (fun c => is_dot c = true) u -> glob_lang ts p ->
      glob_lang (TDir :: ts) (u ++ "/"%char :: p).

Definition tok_re (t : gtok) : re :=
  match t with
  | TDir => opt dir_group
  | TAll => Star dot
  | TSeg => Star not_slash
  | TChr c => chr c
  end.

(** The regular expression source of a token. *)
Definition render (t : gtok) : str :=
  match t with
  | TDir => "(?:.*/)?"
  | TAll => ".*"
  | TSeg => "[^/]*"
  | TChr c => escape_char c
  end.

(** ** The passes compute the direct reading *)

(** The first token of a pattern, and the rest. *)
Inductive gview : str -> gtok -> str -> Prop :=
  | V_dir q : gview ("*" :: "*" :: "/" :: q)%char TDir q
  | V_all q :
      startsWith q "/" = false -> startsWith ("*"%char :: q) "**/" = false ->
      gview ("*" :: "*" :: q)%char TAll q
  | V_seg q :
      startsWith ("*"%char :: q) "**/" = false ->
      (startsWith q "*" = true -> startsWith q "**/" = true) ->
      gview ("*"%char :: q) TSeg q
  | V_chr c q : c <> "*"%char -> gview (c :: q) (TChr c) q.

Lemma gview_total c s :
  exists t q, gview (c :: s) t q /\ tokenize (c :: s) = t :: tokenize q /\
              length q < length (c :: s).
Proof.
  cbn [tokenize]. destruct (eqc c "*") eqn:Ec.
  - apply eqc_true in Ec as ->. destruct s as [|d s2].
    { exists TSeg, []. repeat split; [by constructor|simpl; lia]. }
    destruct (eqc d "*") eqn:Ed.
    + apply eqc_true in Ed as ->. destruct s2 as [|e s3].
      { exists TAll, []. repeat split; [by constructor|simpl; lia]. }
      destruct (eqc e "/") eqn:Ee.
      { apply eqc_true in Ee as ->. exists TDir, s3. repeat split; [constructor|simpl; lia]. }
      assert ("/"%char <> e) as He by (intros <-; by rewrite eqc_refl in Ee).
      destruct (eqc e "*" && startsWith s3 "/") eqn:Es.
      * apply andb_true_iff in Es as [->%eqc_true Es]. exists TSeg, ("*" :: "*" :: s3)%char.
        repeat split; [|simpl; lia]. constructor; [done|]. intros _. by simpl.
      * exists TAll, (e :: s3). repeat split; [|simpl; lia].
        constructor; simpl.
        -- rewrite (proj2 (eqc_false _ _) He). done.
        -- destruct (eqc "*" e) eqn:E; [|done]. apply eqc_true in E as <-.
           by rewrite eqc_refl in Es.
    + exists TSeg, (d :: s2).
      assert (eqc "*" d = false) as Hd by (apply eqc_false; intros <-; by rewrite eqc_refl in Ed).
      repeat split; [|simpl; lia]. constructor; simpl; by rewrite Hd.
  - exists (TChr c), s. repeat split; [|simpl; lia].
    constructor. intros ->. by rewrite eqc_refl in Ec.
Qed.

(** The stages of [globSource]. *)
Definition stage1 (s : str) : str := replaceAll (escapeMeta s) "**/" GLOBDOUBLEDIR.
Definition stage2 (s : str) : str := replaceAll (stage1 s) "**" GLOBDOUBLE.
Definition stage3 (s : str) : str := replaceAll (stage2 s) "*" "[^/]*".
Definition stage4 (s : str) : str := replaceAll (stage3 s) GLOBDOUBLEDIR "(?:.*/)?".

(** A token after the three marker passes. *)
Definition render3 (t : gtok) : str :=
  match t with
  | TDir => GLOBDOUBLEDIR
  | TAll => GLOBDOUBLE
  | TSeg => "[^/]*"
  | TChr c => escape_char c
  end.

Lemma star_not_in_escape c : c <> "*"%char -> "*"%char ∉ escape_char c.
Proof. unfold escape_char. intros H. destruct (is_meta c); set_solver. Qed.

Lemma section_not_in_escape c : c <> section_sign -> section_sign ∉ escape_char c.
Proof. unfold escape_char. intros H. destruct (is_meta c); set_solver. Qed.

Definition plain (w : str) : Prop := Forall (fun c => is_meta c = false) w.

(** Escaping does not change how a text begins, up to metacharacters. *)
Lemma startsWith_escape q w : plain w -> startsWith (escapeMeta q) w = startsWith q w.
Proof.
  intros H. revert q. induction H as [|a w Ha H IH]; intros q; [done|].
  destruct q as [|c q]; [done|]. unfold escapeMeta. cbn [map concat]. unfold escape_char.
  destruct (is_meta c) eqn:Ec; cbn [app startsWith].
  - assert (eqc a "\" = false) as -> by (apply eqc_false; intros ->; done).
    assert (eqc a c = false) as -> by (apply eqc_false; intros ->; congruence).
    done.
  - f_equal. apply IH.
Qed.

Lemma escapeMeta_cons c q : escapeMeta (c :: q) = escape_char c ++ escapeMeta q.
Proof. done. Qed.

Lemma plain_star : plain "**/" /\ plain "*" /\ plain "/".
Proof. split_and!; repeat constructor. Qed.

Lemma stage1_view p t q :
  gview p t q ->
  stage1 p = match t with
             | TDir => GLOBDOUBLEDIR
             | TAll => "**"
             | TSeg => "*"
             | TChr c => escape_char c
             end ++ stage1 q.
Proof.
  destruct plain_star as (P1 & P2 & P3).
  assert (forall q', startsWith ("*"%char :: escapeMeta q') "**/"
                     = startsWith ("*"%char :: q') "**/") as Hstar.
  { intros q'. apply (startsWith_escape ("*"%char :: q')). done. }
  unfold stage1. intros [q'|q' H0 H1|q' H0 H1|c q' Hc]; rewrite !escapeMeta_cons.
  - apply (replaceAll_match "**/"). done.
  - change (escape_char "*") with ["*"%char]. simpl app.
    rewrite replaceAll_nomatch.
    + rewrite replaceAll_nomatch; [done|]. by rewrite Hstar.
    + rewrite <- (startsWith_escape q' "/" P3) in H0.
      unfold js in *. simpl in H0 |- *. done.
  - change (escape_char "*") with ["*"%char]. simpl app.
    rewrite replaceAll_nomatch; [done|]. by rewrite Hstar.
  - apply (replaceAll_skip "*"). by apply star_not_in_escape.
Qed.

(** After the first pass a text never begins with more stars than before it. *)
Lemma stage1_no_star q :
  (startsWith q "*" = true -> startsWith q "**/" = true) -> startsWith (stage1 q) "*" = false.
Proof.
  intros H. destruct q as [|c q]; [done|].
  destruct (gview_total c q) as (t & q' & Hv & _). rewrite (stage1_view _ _ _ Hv).
  unfold js in *. inv Hv; try done.
  - exfalso. specialize (H eq_refl). simpl in *. congruence.
  - exfalso. specialize (H eq_refl). simpl in *. congruence.
  - unfold escape_char. destruct (is_meta c); simpl; [done|].
    rewrite andb_true_r. apply eqc_false. congruence.
Qed.

Lemma stage2_view p t q :
  gview p t q ->
  stage2 p = match t with TSeg => "*" | _ => render3 t end ++ stage2 q.
Proof.
  intros Hv. unfold stage2 at 1. rewrite (stage1_view _ _ _ Hv).
  destruct Hv as [q'|q' H0 H1|q' H0 H1|c q' Hc].
  - apply (replaceAll_skip "*"). not_in.
  - apply (replaceAll_match "**"). done.
  - simpl app. rewrite replaceAll_nomatch; [done|].
    apply stage1_no_star in H1. simpl in *. done.
  - apply (replaceAll_skip "*"). by apply star_not_in_escape.
Qed.

Lemma stage3_view p t q : gview p t q -> stage3 p = render3 t ++ stage3 q.
Proof.
  intros Hv. unfold stage3 at 1. rewrite (stage2_view _ _ _ Hv).
  destruct Hv as [q'|q' H0 H1|q' H0 H1|c q' Hc].
  - apply (replaceAll_skip "*"). not_in.
  - apply (replaceAll_skip "*"). not_in.
  - apply (replaceAll_match "*"). done.
  - apply (replaceAll_skip "*"). by apply star_not_in_escape.
Qed.

(** A word of letters at the head of the third stage was at the head of the pattern. *)
Definition letters (w : str) : Prop :=
  Forall (fun c => is_meta c = false /\ c <> "*"%char /\ c <> section_sign) w.

Lemma stage3_word w q : letters w -> startsWith (stage3 q) w = true -> startsWith q w = true.
Proof.
  intros Hw. revert q. induction Hw as [|a w (Ha & Hs & Hm) Hw IH]; intros q; [done|].
  destruct q as [|c q]; [done|].
  destruct (gview_total c q) as (t & q' & Hv & _). rewrite (stage3_view _ _ _ Hv).
  assert (forall x s, a <> x -> startsWith (x :: s) (a :: w) = true -> False) as Hne.
  { intros x s Hx. simpl. by rewrite (proj2 (eqc_false _ _) Hx). }
  inv Hv; simpl render3.
  - intros H. destruct (Hne _ _ Hm H).
  - intros H. destruct (Hne _ _ Hm H).
  - intros H. exfalso. refine (Hne "["%char _ _ H). intros ->. done.
  - unfold escape_char. destruct (is_meta c) eqn:Ec.
    + intros H. exfalso. refine (Hne "\"%char _ _ H). intros ->. done.
    + simpl. intros [E H]%andb_true_iff. rewrite E. by apply IH.
Qed.

(** A pattern that does not spell a marker: no section sign and no [GLOBDOUBLE]. *)
Definition no_marker (p : str) : Prop :=
  section_sign ∉ p /\ includes p "GLOBDOUBLE" = false.

Lemma gview_app p t q : gview p t q -> exists u, p = u ++ q.
Proof.
  intros [q'|q' ? ?|q' ? ?|c q' ?].
  - by exists "**/". - by exists "**". - by exists "*". - by exists [c].
Qed.

Lemma no_marker_view p t q :
  no_marker p -> gview p t q -> no_marker q /\ (forall c, t = TChr c -> c <> section_sign).
Proof.
  intros [H1 H2] Hv. split.
  - destruct (gview_app _ _ _ Hv) as [u ->]. split; [set_solver|].
    destruct (includes q "GLOBDOUBLE") eqn:E; [|done].
    apply includes_spec in E as (a & b & ->).
    assert (includes (u ++ a ++ js "GLOBDOUBLE" ++ b) "GLOBDOUBLE" = true); [|congruence].
    apply includes_spec. exists (u ++ a), b. by rewrite app_assoc.
  - intros c ->. inv Hv. set_solver.
Qed.

Lemma stage4_view p t q :
  no_marker p -> gview p t q ->
  stage4 p = match t with TAll => GLOBDOUBLE | _ => render t end ++ stage4 q.
Proof.
  intros Hm Hv. destruct (no_marker_view _ _ _ Hm Hv) as [[_ Hq] Ht].
  unfold stage4 at 1. rewrite (stage3_view _ _ _ Hv).
  destruct Hv as [q'|q' H0 H1|q' H0 H1|c q' Hc]; cbn [render3 render].
  - apply (replaceAll_match GLOBDOUBLEDIR). done.
  - change GLOBDOUBLE with (section_sign :: (js "GLOBDOUBLE" ++ [section_sign])).
    rewrite <- !app_comm_cons, <- !app_assoc.
    rewrite replaceAll_nomatch by done. f_equal.
    unfold GLOBDOUBLEDIR, marker.
    rewrite replaceAll_skip by (not_in). f_equal.
    simpl app. rewrite replaceAll_nomatch; [done|].
    apply not_true_is_false. intros [r Hr]%startsWith_spec.
    assert (startsWith (stage3 q') "GLOBDOUBLE" = true) as Hg.
    { apply startsWith_spec. exists ("DIR" ++ section_sign :: r). by injection Hr. }
    clear Hr r.
    apply stage3_word in Hg; [|repeat constructor; done].
    apply startsWith_spec in Hg as [r Hr].
    by apply (includes_false_app [] "GLOBDOUBLE" r q' Hq).
  - apply replaceAll_skip. not_in.
  - apply replaceAll_skip. apply section_not_in_escape. by apply Ht.
Qed.

Lemma globSource_view p t q :
  no_marker p -> gview p t q -> globSource p = render t ++ globSource q.
Proof.
  intros Hm Hv. change (replaceAll (stage4 p) GLOBDOUBLE ".*" =
    render t ++ replaceAll (stage4 q) GLOBDOUBLE ".*").
  rewrite (stage4_view _ _ _ Hm Hv). destruct (no_marker_view _ _ _ Hm Hv) as [_ Ht].
  destruct t; cbn [render].
  - apply replaceAll_skip. not_in.
  - apply (replaceAll_match GLOBDOUBLE). done.
  - apply replaceAll_skip. not_in.
  - apply replaceAll_skip. apply section_not_in_escape. by apply Ht.
Qed.

Lemma globSource_render p :
  no_marker p -> globSource p = concat (map render (tokenize p)).
Proof.
  remember (length p) as n eqn:Hn. revert p Hn.
  induction (lt_wf n) as [n _ IH]; intros [|c p] -> Hm; [done|].
  destruct (gview_total c p) as (t & q & Hv & Htok & Hl).
  rewrite (globSource_view _ _ _ Hm Hv), Htok. cbn [map concat]. f_equal.
  apply (IH (length q)); [done|done|]. by eapply no_marker_view.
Qed.

(** ** Reading the source back *)

(** Tokens a pattern without [?] yields. *)
Definition tok_ok (t : gtok) : Prop :=
  match t with TChr c => c <> "*"%char /\ c <> "?"%char | _ => True end.

Lemma tokenize_ok p : "?"%char ∉ p -> Forall tok_ok (tokenize p).
Proof.
  remember (length p) as n eqn:Hn. revert p Hn.
  induction (lt_wf n) as [n _ IH]; intros [|c p] -> Hm; [constructor|].
  destruct (gview_total c p) as (t & q & Hv & -> & Hl).
  assert ("?"%char ∉ q) by (destruct (gview_app _ _ _ Hv) as [u Hu]; rewrite Hu in Hm; set_solver).
  constructor; [|by apply (IH (length q))].
  destruct Hv; simpl; try done. split; [done|]. set_solver.
Qed.

(** No quantifier follows a token. *)
Definition no_quant (s : str) : Prop :=
  match s with c :: _ => is_quant c = false | [] => True end.

Lemma is_quant_false c : c <> "*"%char -> c <> "?"%char -> is_quant c = false.
Proof.
  intros H1 H2. unfold is_quant.
  by rewrite (proj2 (eqc_false _ _) H1), (proj2 (eqc_false _ _) H2).
Qed.

Lemma no_quant_render ts : Forall tok_ok ts -> no_quant (concat (map render ts)).
Proof.
  intros H. destruct H as [|t ts Ht _]; [done|]. cbn [map concat].
  destruct t; try done. cbn [render]. unfold escape_char.
  destruct (is_meta c); [done|]. destruct Ht. by apply is_quant_false.
Qed.

Lemma quantify_none a s : no_quant s -> quantify a s = (a, s).
Proof.
  destruct s as [|c s]; simpl; [done|]. unfold is_quant. by intros ->.
Qed.

Lemma quantify_one a q s :
  is_quant q = true -> no_quant s ->
  quantify a (q :: s) = (if eqc q "*" then Star a else opt a, s).
Proof.
  unfold is_quant. intros Hq Hs. simpl. rewrite Hq. destruct s as [|d s]; [done|].
  simpl in Hs. unfold is_quant in Hs. apply orb_false_iff in Hs as [_ ->]. done.
Qed.

Lemma not_meta_ne c d : is_meta c = false -> is_meta d = true -> eqc c d = false /\ eqc d c = false.
Proof. intros Hc Hd. split; apply eqc_false; congruence. Qed.

Lemma parseAtom_plain c s :
  is_meta c = false -> is_quant c = false -> parseAtom (c :: s) = Some (chr c, s).
Proof.
  intros Hc Hq. unfold parseAtom.
  assert (eqc "(" c = false /\ eqc "[" c = false /\ eqc c "\" = false /\ eqc c "." = false)
    as (E1 & E2 & E3 & E4) by (split_and!; by apply (not_meta_ne c)).
  unfold js. simpl. by rewrite E1, E2, E3, E4, Hq.
Qed.

Lemma parse_render_step t s :
  tok_ok t -> no_quant s -> parseRegExp (render t ++ s) = Cat (tok_re t) <$> parseRegExp s.
Proof.
  intros Ht Hs. destruct t; simpl render; simpl tok_re.
  - apply (parseRegExp_step _ dir_group ("?"%char :: s) _ s); [done|].
    by rewrite quantify_one.
  - apply (parseRegExp_step _ dot ("*"%char :: s) _ s); [done|]. by rewrite quantify_one.
  - apply (parseRegExp_step _ not_slash ("*"%char :: s) _ s); [done|].
    by rewrite quantify_one.
  - destruct Ht as [H1 H2]. unfold escape_char. destruct (is_meta c) eqn:Ec.
    + apply (parseRegExp_step _ (chr c) s _ s); [done|]. by apply quantify_none.
    + apply (parseRegExp_step _ (chr c) s _ s); [|by apply quantify_none].
      apply parseAtom_plain; [done|]. by apply is_quant_false.
Qed.

Lemma parse_render ts :
  Forall tok_ok ts -> parseRegExp (concat (map render ts)) = Some (foldr Cat Eps (map tok_re ts)).
Proof.
  intros H. induction H as [|t ts Ht H IH]; [done|]. cbn [map concat foldr].
  rewrite parse_render_step by eauto using no_quant_render. by rewrite IH.
Qed.

(** ** The language of the direct reading *)

Lemma not_slash_spec u :
  Forall (fun c => negb (eqc c "/") = true) u <-> Forall (fun c => c <> "/"%char) u.
Proof. apply Forall_iff. intros c. rewrite negb_true_iff. apply eqc_false. Qed.

Lemma tokens_lang ts p : lang (foldr Cat Eps (map tok_re ts)) p <-> glob_lang ts p.
Proof.
  revert p; induction ts as [|t ts IH]; intros p; simpl.
  - rewrite lang_Eps. split; [intros ->; constructor|by inversion 1].
  - rewrite lang_Cat. split.
    + intros (u & q & -> & Hu & Hq%IH). destruct t; simpl in Hu.
      * apply lang_Alt in Hu as [(a & b & -> & Ha & ->%lang_chr)%lang_Cat | ->%lang_Eps].
        -- apply lang_Star_Cls in Ha. rewrite <- app_assoc. by constructor.
        -- by constructor.
      * apply lang_Star_Cls in Hu. by constructor.
      * apply lang_Star_Cls, not_slash_spec in Hu. by constructor.
      * apply lang_chr in Hu as ->. by constructor.
    + intros H. inversion H as [|c ts' q Hq|u ts' q Hu Hq|u ts' q Hu Hq|ts' q Hq|u ts' q Hu Hq];
        subst; apply IH in Hq.
      * exists [c], q. split_and!; [done|by apply lang_chr|done].
      * exists u, q. split_and!; [done|by apply lang_Star_Cls, not_slash_spec|done].
      * exists u, q. split_and!; [done|by apply lang_Star_Cls|done].
      * exists [], p. split_and!; [done|apply lang_Alt; right; constructor|done].
      * exists (u ++ ["/"%char]), q. split_and!; [by rewrite <- app_assoc| |done].
        apply lang_Alt. left. apply lang_Cat. exists u, ["/"%char].
        split_and!; [done|by apply lang_Star_Cls|by apply lang_chr].
Qed.

(** A pattern that is not empty, has no NUL, no [?] and spells no marker. *)
Definition regular_glob (p : str) : Prop :=
  p <> [] /\ NUL_BYTE ∉ p /\ "?"%char ∉ p /\ no_marker p.

Lemma globToRegExp_regular p :
  regular_glob p ->
  exists r, globToRegExp p = Ok r /\
            forall path, matches r path = true <-> glob_lang (tokenize p) path.
Proof.
  intros (Hne & Hnul & Hq & Hm). exists (foldr Cat Eps (map tok_re (tokenize p))).
  assert (parseRegExp (globSource p) = Some (foldr Cat Eps (map tok_re (tokenize p)))) as E.
  { rewrite globSource_render by done. by apply parse_render, tokenize_ok. }
  split.
  - destruct p as [|c p]; [done|]. unfold globToRegExp.
    rewrite bool_decide_eq_false_2 by done. by rewrite E.
  - intros path. by rewrite matches_spec, tokens_lang.
Qed.

(** ** Properties *)

(** The compiled glob of a regular pattern matches exactly the paths the pattern stands for. *)
Theorem globToRegExp_spec p :
  regular_glob p ->
  exists r, globToRegExp p = Ok r /\
            forall path, matches r path = true <-> glob_lang (tokenize p) path.
Proof. apply globToRegExp_regular. Qed.

Lemma globToRegExp_spec_witness :
  regular_glob "src/**/*.ts" /\
  exists r, globToRegExp "src/**/*.ts" = Ok r /\
            forall path, matches r path = true <-> glob_lang (tokenize "src/**/*.ts") path.
Proof.
  assert (regular_glob "src/**/*.ts") as H.
  { split_and!; [done|not_in|not_in|]. split; [not_in|done]. }
  split; [exact H|]. exact (globToRegExp_spec "src/**/*.ts" H).
Defined.

(** The question mark, documented as unsupported and matched literally, is not escaped: it
    reaches the regular expression as a quantifier, so a pattern with [?] does not match the
    path it spells, and a leading one makes the pattern invalid. *)
Theorem question_mark_is_a_quantifier :
  glob_test "a?b" "a?b" = false /\ glob_test "a?b" "b" = true /\
  isValidGlob "?b" = false /\ isValidGlob "*?b" = true.
Proof. vm_compute. done. Qed.

(** The dispatcher's translation and the configuration's differ on [**/]: a file directly in the
    directory is matched by the configuration's glob only. *)
Theorem tool_glob_differs :
  glob_test "src/**/foo.ts" "src/foo.ts" = true /\
  exists r, patternToRegExp "src/**/foo.ts" = Ok r /\ matches r "src/foo.ts" = false.
Proof. split; [done|]. eexists. by split. Qed.
