(* ===== verification/DiffFilter.v ===== *)
(** * Splitting, filtering and counting diffs (runner/src/diff-filter.ts)

    [parseDiffByFile] splits the diff text the Action and the CLI build (action/src/run.ts:
    a [--- path] line, then the patch, joined by newlines) into files, [applyPathFilters]
    drops the files that match an exclude glob, [reassembleDiff] prints the rest back and
    [countDiffLines] counts changed lines for the [max_diff_lines] cap. *)

From S2P Require Import Prelude Regex Glob.

Record ParsedDiffFile := { path : str; body : str }.
Record ParsedDiff := { preamble : str; files : list ParsedDiffFile }.

#[export] Instance ParsedDiffFile_eq : EqDecision ParsedDiffFile.
Proof. solve_decision. Defined.

(** [line.endsWith('\r') ? line.slice(0, -1) : line] *)
Definition stripCR (line : str) : str :=
  if endsWith line ["013"%char] then take (length line - 1) line else line.

(** [normalized.match(/^--- (.+)$/)]: the captured path. *)
Definition FILE_HEADER_LINE (line : str) : option str :=
  if startsWith line "--- " then
    let p := drop 4 line in
    if bool_decide (p <> []) && forallb is_dot p then Some p else None
  else None.

Definition headerPath (line : str) : option str := FILE_HEADER_LINE (stripCR line).

(** The loop's state: the preamble's lines and the files, the open one last. *)
Record parseState := { ps_preamble : list str; ps_files : list (str * list str) }.

(** [currentFile.bodyLines.push(line)], the current file being the last pushed. *)
Fixpoint pushLast (fs : list (str * list str)) (line : str) : list (str * list str) :=
  match fs with
  | [] => []
  | [(p, ls)] => [(p, ls ++ [line])]
  | f :: fs' => f :: pushLast fs' line
  end.

Definition parseStep (st : parseState) (line : str) : parseState :=
  match headerPath line with
  | Some p => {| ps_preamble := ps_preamble st; ps_files := ps_files st ++ [(p, [])] |}
  | None =>
      match ps_files st with
      | [] => {| ps_preamble := ps_preamble st ++ [line]; ps_files := [] |}
      | fs => {| ps_preamble := ps_preamble st; ps_files := pushLast fs line |}
      end
  end.

Definition parseDiffByFile (diff : str) : ParsedDiff :=
  match diff with
  | [] => {| preamble := []; files := [] |}
  | _ =>
      let st := fold_left parseStep (splitChar newline diff)
                  {| ps_preamble := []; ps_files := [] |} in
      {| preamble := join nl (ps_preamble st);
         files := map (fun f => {| path := f.1; body := join nl f.2 |}) (ps_files st) |}
  end.

Definition excluded (matchers : list re) (f : ParsedDiffFile) : bool :=
  existsb (fun r => matches r (path f)) matchers.

Fixpoint compileAll (filters : list str) : result GlobError (list re) :=
  match filters with
  | [] => Ok []
  | g :: gs => r ← globToRegExp g; rs ← compileAll gs; Ok (r :: rs)
  end.

(** The boolean is [true] when a new object is returned: the caller tests the identity of the
    result to learn whether a file was dropped. *)
Definition applyPathFilters (parsed : ParsedDiff) (filters : list str)
    : result GlobError (ParsedDiff * bool) :=
  match filters with
  | [] => Ok (parsed, false)
  | _ =>
      matchers ← compileAll filters;
      let kept := List.filter (fun f => negb (excluded matchers f)) (files parsed) in
      if bool_decide (length kept = length (files parsed)) then Ok (parsed, false)
      else Ok ({| preamble := preamble parsed; files := kept |}, true)
  end.

Definition renderFile (f : ParsedDiffFile) : str :=
  if bool_decide (body f <> []) then "--- " ++ path f ++ nl ++ body f else "--- " ++ path f.

Definition reassembleDiff (parsed : ParsedDiff) : str :=
  join nl ((if bool_decide (preamble parsed <> []) then [preamble parsed] else [])
           ++ map renderFile (files parsed)).

(** Does the line count as a change? *)
Definition isChange (l : str) : bool :=
  match l with
  | [] => false
  | c :: _ =>
      (eqc c "+" || eqc c "-")
      && negb (startsWith l "+++ " || startsWith l "--- ")
  end.

Definition countBody (b : str) : nat :=
  match b with
  | [] => 0
  | _ => length (List.filter isChange (splitChar newline b))
  end.

Definition countDiffLines (parsed : ParsedDiff) : nat :=
  fold_left (fun total f => total + countBody (body f)) (files parsed) 0.

(** The diff text the Action and the CLI build: the path, then the patch ([''] for [null]). *)
Definition diffText (fs : list ParsedDiffFile) : str :=
  join nl (map (fun f => "--- " ++ path f ++ nl ++ body f) fs).

(** ** The loop, read from the right *)

(** The same grouping of lines, as a structural recursion. *)
Fixpoint group (lines : list str) : list str * list (str * list str) :=
  match lines with
  | [] => ([], [])
  | l :: ls =>
      let '(pre, fs) := group ls in
      match headerPath l with
      | Some p => ([], (p, pre) :: fs)
      | None => (l :: pre, fs)
      end
  end.

Lemma pushLast_snoc fs p ls line : pushLast (fs ++ [(p, ls)]) line = fs ++ [(p, ls ++ [line])].
Proof.
  induction fs as [|[q ms] fs IH]; [done|]. cbn [app pushLast]. rewrite IH.
  by destruct fs.
Qed.

Lemma parseStep_open l pre fs p ls :
  headerPath l = None ->
  parseStep {| ps_preamble := pre; ps_files := fs ++ [(p, ls)] |} l =
  {| ps_preamble := pre; ps_files := fs ++ [(p, ls ++ [l])] |}.
Proof.
  intros H. unfold parseStep. cbn [ps_files ps_preamble]. rewrite H.
  rewrite <- pushLast_snoc. by destruct fs.
Qed.

Lemma parse_open lines pre fs p ls :
  fold_left parseStep lines {| ps_preamble := pre; ps_files := fs ++ [(p, ls)] |} =
  {| ps_preamble := pre;
     ps_files := fs ++ (p, ls ++ (group lines).1) :: (group lines).2 |}.
Proof.
  revert fs p ls; induction lines as [|l lines IH]; intros fs p ls; cbn [fold_left group].
  { by rewrite app_nil_r. }
  destruct (group lines) as [g1 g2]. destruct (headerPath l) as [q|] eqn:E.
  - unfold parseStep at 2. cbn [ps_files ps_preamble]. rewrite E, IH. simpl.
    by rewrite app_nil_r, <- app_assoc.
  - rewrite parseStep_open, IH by done. simpl. by rewrite <- app_assoc.
Qed.

Lemma parse_group_from lines pre :
  fold_left parseStep lines {| ps_preamble := pre; ps_files := [] |} =
  {| ps_preamble := pre ++ (group lines).1; ps_files := (group lines).2 |}.
Proof.
  revert pre; induction lines as [|l lines IH]; intros pre; simpl; [by rewrite app_nil_r|].
  unfold parseStep at 2. simpl. destruct (headerPath l) as [q|].
  - pose proof (parse_open lines pre [] q []) as E. simpl in E. rewrite E.
    destruct (group lines). simpl. by rewrite app_nil_r.
  - rewrite IH. destruct (group lines). simpl. by rewrite <- app_assoc.
Qed.

Lemma parseDiffByFile_group diff :
  parseDiffByFile diff =
  {| preamble := join nl (group (splitChar newline diff)).1;
     files := map (fun f => {| path := f.1; body := join nl f.2 |})
                  (group (splitChar newline diff)).2 |}.
Proof.
  destruct diff as [|c diff]; [done|]. unfold parseDiffByFile.
  by rewrite parse_group_from.
Qed.

(** No line is lost or reordered: the header lines and the bodies, in order, are the input. *)
Definition header_line (l : str) : bool := bool_decide (is_Some (headerPath l)).

(** ** Well-formed diffs *)

(** A path as the platforms send it: one non-empty line. *)
Definition path_ok (p : str) : Prop := p <> [] /\ forallb is_dot p = true.

(** A patch none of whose lines reads as a file header. *)
Definition patch_ok (b : str) : Prop :=
  Forall (fun l => headerPath l = None) (splitChar newline b).

Definition file_ok (f : ParsedDiffFile) : Prop := path_ok (path f) /\ patch_ok (body f).

Lemma is_dot_not c : is_dot c = true -> c <> newline /\ c <> "013"%char.
Proof.
  unfold is_dot. intros H. split; intros ->; by vm_compute in H.
Qed.

Lemma stripCR_dot l : forallb is_dot l = true -> stripCR l = l.
Proof.
  intros H. unfold stripCR. destruct (endsWith l _) eqn:E; [|done].
  apply endsWith_spec in E as [t ->]. rewrite forallb_elem in H.
  assert (is_dot "013" = true) as Hd by (apply H; set_solver). by vm_compute in Hd.
Qed.

Lemma headerPath_of p : path_ok p -> headerPath ("--- " ++ p) = Some p.
Proof.
  intros [Hne Hdot]. unfold headerPath. rewrite stripCR_dot.
  - unfold FILE_HEADER_LINE. rewrite startsWith_app.
    change (drop 4 ("--- " ++ p)) with p. rewrite bool_decide_eq_true_2 by done. by rewrite Hdot.
  - rewrite forallb_app, Hdot. done.
Qed.

Lemma newline_notin_header p : path_ok p -> newline ∉ ("--- " ++ p : str).
Proof.
  intros [_ Hdot] [Hin|Hin]%elem_of_app; [revert Hin; not_in|].
  rewrite forallb_elem in Hdot. apply Hdot, is_dot_not in Hin as [? _]. done.
Qed.

Lemma group_app_body ls rest :
  Forall (fun l => headerPath l = None) ls ->
  group (ls ++ rest) = (ls ++ (group rest).1, (group rest).2).
Proof.
  intros H. induction H as [|l ls Hl H IH]; simpl; [by destruct (group rest)|].
  rewrite IH. by rewrite Hl.
Qed.

(** Splitting a text between two texts joined by a newline. *)
Lemma splitChar_join_app c a b :
  splitChar c (a ++ c :: b) = splitChar c a ++ splitChar c b.
Proof.
  induction a as [|x a IH]; [apply splitChar_sep|]. simpl.
  destruct (decide (c = x)) as [<-|Hx].
  - rewrite splitChar_sep. rewrite splitChar_sep, IH. done.
  - destruct (splitChar_other c x (a ++ c :: b) Hx) as (y & ys & Hy & ->).
    destruct (splitChar_other c x a Hx) as (z & zs & Hz & ->).
    rewrite IH, Hz in Hy. simpl in Hy. by injection Hy as <- <-.
Qed.

Lemma group_diffText fs :
  fs <> [] -> Forall file_ok fs ->
  group (splitChar newline (diffText fs)) =
  ([], map (fun f => (path f, splitChar newline (body f))) fs).
Proof.
  intros Hne H. induction H as [|f fs [Hp Hb] H IH]; [done|].
  assert (splitChar newline ("--- " ++ path f ++ nl ++ body f)
          = ("--- " ++ path f) :: splitChar newline (body f)) as E.
  { rewrite app_assoc. apply splitChar_app. by apply newline_notin_header. }
  unfold diffText. cbn [map]. destruct fs as [|f' fs].
  - cbn [map join]. rewrite E. cbn [group].
    rewrite <- (app_nil_r (splitChar newline (body f))), (group_app_body _ [] Hb).
    cbn [group fst snd map]. rewrite headerPath_of by done. by rewrite app_nil_r.
  - rewrite join_cons by done. fold (diffText (f' :: fs)). unfold nl at 2.
    cbn [app]. rewrite splitChar_join_app, E. cbn [app group].
    rewrite (group_app_body _ _ Hb), IH by done.
    rewrite headerPath_of by done. by rewrite app_nil_r.
Qed.

Lemma join_splitChar c s : join [c] (splitChar c s) = s.
Proof. apply join_split. done. Qed.

Lemma parse_diffText fs :
  Forall file_ok fs -> parseDiffByFile (diffText fs) = {| preamble := []; files := fs |}.
Proof.
  intros H. destruct fs as [|f fs]; [done|].
  rewrite parseDiffByFile_group, group_diffText by done. cbn [fst snd join].
  f_equal. rewrite map_map. rewrite <- (map_id (f :: fs)) at 2. apply map_ext.
  intros [p b]. simpl. unfold nl. by rewrite join_splitChar.
Qed.

Lemma reassemble_render fs :
  Forall (fun f => body f <> []) fs ->
  reassembleDiff {| preamble := []; files := fs |} = diffText fs.
Proof.
  intros H. unfold reassembleDiff, diffText. simpl. f_equal.
  induction H as [|f fs Hf H IH]; [done|]. simpl. rewrite IH. f_equal.
  unfold renderFile. by rewrite bool_decide_eq_true_2.
Qed.

Lemma compileAll_elem filters ms f :
  compileAll filters = Ok ms ->
  existsb (fun r => matches r f) ms = true <->
  exists g r, g ∈ filters /\ globToRegExp g = Ok r /\ matches r f = true.
Proof.
  revert ms; induction filters as [|g gs IH]; intros ms H; simpl in H.
  { simplify_eq. simpl. set_solver. }
  destruct (globToRegExp g) as [r|] eqn:Eg; [|done]. simpl in H.
  destruct (compileAll gs) as [rs|] eqn:Egs; [|done]. simplify_eq/=.
  rewrite orb_true_iff, (IH rs) by done. split.
  - intros [Hm|(g' & r' & ? & ? & ?)]; [exists g, r|exists g', r']; set_solver.
  - intros (g' & r' & [->|Hg]%elem_of_cons & Hr & Hm); [left; congruence|right; eauto].
Qed.

(** ** What the printer loses *)

Definition emptyBodies (fs : list ParsedDiffFile) : nat :=
  length (List.filter (fun f => bool_decide (body f = [])) fs).

Lemma join_length sep l :
  length (join sep l) = sum_list_with length l + length sep * (length l - 1).
Proof.
  induction l as [|x l IH]; simpl; [lia|]. destruct l as [|y l]; [simpl; lia|].
  rewrite !length_app, IH. simpl. nia.
Qed.

(** Printing drops one newline per file without a patch. *)
Lemma reassemble_length fs :
  length (reassembleDiff {| preamble := []; files := fs |}) + emptyBodies fs =
  length (diffText fs).
Proof.
  unfold reassembleDiff, diffText. cbn [preamble files].
  rewrite bool_decide_eq_false_2 by (intros H; by apply H).
  rewrite app_nil_l, !join_length, !length_map.
  assert (sum_list_with length (map renderFile fs) + emptyBodies fs =
          sum_list_with length (map (fun f => "--- " ++ path f ++ nl ++ body f) fs)) as E; [|lia].
  induction fs as [|f fs IH]; [done|].
  unfold emptyBodies in *. cbn [map sum_list_with List.filter].
  rewrite <- IH. unfold renderFile at 1. destruct (decide (body f = [])) as [Hb|Hb].
  - rewrite (bool_decide_eq_true_2 (body f = [])) by done.
    rewrite bool_decide_eq_false_2 by (intros Hn; by apply Hn).
    rewrite Hb. rewrite app_nil_r, !length_app. cbn [length nl]. lia.
  - rewrite (bool_decide_eq_false_2 (body f = [])) by done.
    rewrite bool_decide_eq_true_2 by done. lia.
Qed.

Lemma emptyBodies_0 fs : emptyBodies fs = 0 <-> Forall (fun f => body f <> []) fs.
Proof.
  unfold emptyBodies. rewrite length_zero_iff_nil. induction fs as [|f fs IH]; simpl; [done|].
  case_bool_decide as Hb.
  - split; [done|]. intros H. by inv H.
  - rewrite IH. split; [by constructor|by intros H; inv H].
Qed.

Lemma applyPathFilters_files parsed filters d changed :
  applyPathFilters parsed filters = Ok (d, changed) ->
  exists ms, compileAll filters = Ok ms /\ preamble d = preamble parsed /\
    files d = List.filter (fun f => negb (excluded ms f)) (files parsed) /\
    changed = negb (bool_decide (length (files d) = length (files parsed))).
Proof.
  unfold applyPathFilters. destruct filters as [|g gs].
  - intros [= <- <-]. exists []. split; [done|]. split; [done|].
    rewrite bool_decide_eq_true_2 by done. split; [|done].
    clear. induction (files parsed) as [|f fs IH]; [done|]. cbn. by f_equal.
  - destruct (compileAll (g :: gs)) as [ms|] eqn:Em; [|done]. cbn.
    case_bool_decide as Hl; intros [= <- <-]; exists ms; split; [done| |done|];
      (split; [done|]); simpl.
    + by rewrite (bfilter_all _ _ Hl), bool_decide_eq_true_2.
    + by rewrite bool_decide_eq_false_2.
Qed.

(** ** Properties *)

(** On diffs in the documented format (one-line paths, patches whose lines do not read as
    headers, no empty patch), filtering by regular globs and printing gives the diff text of
    exactly the files no glob matches, and the result is a new object exactly when a file was
    dropped. *)
Theorem filter_pipeline fs filters d changed :
  Forall file_ok fs -> Forall (fun f => body f <> []) fs -> Forall regular_glob filters ->
  applyPathFilters (parseDiffByFile (diffText fs)) filters = Ok (d, changed) ->
  (forall f, f ∈ files d <->
     f ∈ fs /\ forall g, g ∈ filters -> ~ glob_lang (tokenize g) (path f)) /\
  files d `sublist_of` fs /\
  reassembleDiff d = diffText (files d) /\
  (changed = false <-> d = parseDiffByFile (diffText fs)).
Proof.
  intros Hok Hne Hreg H. rewrite parse_diffText in * by done.
  apply applyPathFilters_files in H as (ms & Hms & Hp & Hf & ->). simpl in *.
  assert (forall f, f ∈ files d <->
     f ∈ fs /\ forall g, g ∈ filters -> ~ glob_lang (tokenize g) (path f)) as Hin.
  { intros f. rewrite Hf, elem_of_bfilter. apply and_iff_compat_l.
    unfold excluded. rewrite negb_true_iff, <- not_true_iff_false, (compileAll_elem filters) by done.
    rewrite Forall_forall in Hreg. split.
    - intros Hn g Hg Hl. destruct (globToRegExp_regular g) as (r & Hr & Hm); [by apply Hreg|].
      apply Hn. exists g, r. by rewrite Hm.
    - intros Hn (g & r & Hg & Hr & Hm). apply (Hn g Hg).
      destruct (globToRegExp_regular g) as (r' & Hr' & Hm'); [by apply Hreg|].
      rewrite Hr in Hr'. simplify_eq. by apply Hm'. }
  assert (files d `sublist_of` fs) as Hsub by (rewrite Hf; apply sublist_bfilter).
  split_and!; [done|done| |].
  - destruct d as [pre fs']; simpl in *. subst pre. apply reassemble_render.
    rewrite Forall_forall in *. set_solver.
  - destruct d as [pre fs']; simpl in *. subst pre. rewrite negb_false_iff.
    rewrite bool_decide_eq_true. split; [|by intros [= ->]].
    intros Hl. f_equal. by apply sublist_length_eq.
Qed.

Definition two_files : list ParsedDiffFile :=
  [ {| path := "a.ts"; body := "@@ -1 +1 @@" |}; {| path := "dist/b.js"; body := "+x" |} ].

Lemma filter_pipeline_witness :
  exists d, applyPathFilters (parseDiffByFile (diffText two_files)) [js "dist/**"] = Ok (d, true) /\
  reassembleDiff d = diffText (files d).
Proof.
  eexists. split; [vm_compute; reflexivity|].
  eapply (filter_pipeline two_files [js "dist/**"] _ true);
    [| | |vm_compute; reflexivity].
  - repeat constructor; done.
  - repeat constructor; done.
  - repeat constructor; try not_in; done.
Defined.

(** Parsing then printing is the identity exactly when no file has an empty patch: a binary or
    rename-only file loses the newline its empty patch was joined with. *)
Theorem reassemble_lossless_iff fs :
  Forall file_ok fs ->
  reassembleDiff (parseDiffByFile (diffText fs)) = diffText fs <->
  Forall (fun f => body f <> []) fs.
Proof.
  intros Hok. rewrite parse_diffText by done. split.
  - intros H. apply emptyBodies_0. pose proof (reassemble_length fs) as L.
    rewrite H in L. lia.
  - apply reassemble_render.
Qed.

Definition renamed : list ParsedDiffFile := [ {| path := "a.ts"; body := "+x" |}; {| path := "logo.png"; body := [] |} ].

Lemma reassemble_lossless_iff_witness :
  Forall file_ok renamed /\
  ~ (reassembleDiff (parseDiffByFile (diffText renamed)) = diffText renamed).
Proof.
  assert (Forall file_ok renamed) as H by (repeat constructor; done).
  split; [exact H|]. rewrite (reassemble_lossless_iff renamed H).
  intros Hn. inv Hn. by inv H3.
Defined.

(** A removed line [-- q] (a comment in SQL or Lua) stands in the patch as [--- q] and is read as
    a file header: when a filter matches [q], everything after it in the patch leaves the
    reviewed diff, and it leaves the line count too. *)
Theorem removed_comment_hides_changes p b1 q b2 filters ms :
  path_ok p -> patch_ok b1 -> path_ok q -> patch_ok b2 -> b1 <> [] ->
  compileAll filters = Ok ms -> filters <> [] ->
  existsb (fun r => matches r p) ms = false -> existsb (fun r => matches r q) ms = true ->
  exists d,
    applyPathFilters
      (parseDiffByFile (diffText [{| path := p; body := b1 ++ nl ++ "--- " ++ q ++ nl ++ b2 |}]))
      filters = Ok (d, true) /\
    reassembleDiff d = diffText [{| path := p; body := b1 |}] /\
    countDiffLines d = countBody b1.
Proof.
  intros Hp Hb1 Hq Hb2 Hne Hms Hf Hep Heq.
  assert (diffText [{| path := p; body := b1 ++ nl ++ "--- " ++ q ++ nl ++ b2 |}] =
          diffText [{| path := p; body := b1 |}; {| path := q; body := b2 |}]) as ->.
  { unfold diffText. cbn [map join path body]. by rewrite <- !app_assoc. }
  rewrite parse_diffText by (by repeat (constructor; [done|])).

  unfold applyPathFilters. destruct filters as [|g gs]; [done|]. rewrite Hms.
  cbn [mbind result_bind files preamble List.filter]. unfold excluded. cbn [path].
  rewrite Hep, Heq. cbn [negb length]. rewrite bool_decide_eq_false_2 by done.
  eexists. split_and!; [reflexivity| |done].
  apply reassemble_render. repeat constructor. done.
Qed.

Lemma removed_comment_hides_changes_witness :
  exists d,
    applyPathFilters
      (parseDiffByFile (diffText [{| path := "db.sql";
         body := "+a" ++ nl ++ "--- see dist/x" ++ nl ++ "+evil" |}])) [js "**dist/**"] = Ok (d, true) /\
    reassembleDiff d = diffText [{| path := "db.sql"; body := "+a" |}] /\
    countDiffLines d = countBody "+a".
Proof.
  apply (removed_comment_hides_changes "db.sql" "+a" "see dist/x" "+evil" [js "**dist/**"]
    (match compileAll [js "**dist/**"] with Ok ms => ms | Throw _ => [] end));
    try done; try (repeat constructor; done); vm_compute; reflexivity.
Defined.
