(* ===== verification/Errors.v ===== *)
(** * Errors (core/src/errors.ts, core/src/error-utils.ts)

    The error classes the program throws, the other values a JavaScript [throw] can carry, and
    the two helpers that read them. *)

From S2P Require Import Prelude JsNumber.

Inductive ReviewAgentErrorKind :=
  | k_config | k_schema | k_cost_exceeded | k_context_length
  | k_tool_dispatch_refused | k_secret_leak_aborted | k_gitleaks_scan_failed.

Inductive SecretLeakPhase := phase_diff | phase_output.

Inductive GitleaksScanFailureReason :=
  | malformed_json | unexpected_shape | empty_stdout_on_leak_exit | stdout_too_large.

#[export] Instance GitleaksScanFailureReason_eq : EqDecision GitleaksScanFailureReason.
Proof. solve_decision. Defined.

Record issue := { issue_path : str; issue_message : str }.

(** The subclasses of [ReviewAgentError], with the fields their constructors take. *)
Inductive ReviewAgentError :=
  | ConfigError (message : str) (path : option str)
  | SchemaValidationError (message : str) (issues : list issue)
  | CostExceededError (limitUsd actualUsd : number)
  | ContextLengthError (limitTokens actualTokens : Z)
  | ToolDispatchRefusedError (toolName reason : str)
  | SecretLeakAbortedError (phase : SecretLeakPhase) (findingsCount : nat) (ruleIds : list str)
      (reason : str)
  | GitleaksScanError (failureReason : GitleaksScanFailureReason) (exitCode : Z)
      (stdoutExcerpt : str).

Definition kind (e : ReviewAgentError) : ReviewAgentErrorKind :=
  match e with
  | ConfigError _ _ => k_config
  | SchemaValidationError _ _ => k_schema
  | CostExceededError _ _ => k_cost_exceeded
  | ContextLengthError _ _ => k_context_length
  | ToolDispatchRefusedError _ _ => k_tool_dispatch_refused
  | SecretLeakAbortedError _ _ _ _ => k_secret_leak_aborted
  | GitleaksScanError _ _ _ => k_gitleaks_scan_failed
  end.

(** The [status] property of an object: absent, a finite number, or anything else. *)
Inductive statusField := NoStatus | Status (n : Z) | BadStatus.

(** What a [catch] receives: one of the classes above, an object (an [Error] when [message] is
    given) with the properties the helpers read, a string, or a value of another type with the
    text [String(err)] gives it. *)
Inductive thrown :=
  | Agent (e : ReviewAgentError)
  | Object (message : option str) (status : statusField) (response : option statusField)
      (shown : str)
  | StringValue (s : str)
  | OtherValue (shown : str).

Definition finiteStatus (f : statusField) : option Z :=
  match f with Status n => Some n | _ => None end.

Definition extractStatus (err : thrown) : option Z :=
  match err with
  | Object _ status response _ =>
      match finiteStatus status with
      | Some n => Some n
      | None => f ← response; finiteStatus f
      end
  | _ => None
  end.

(** [extractMessage]; the text of an [Agent] error is its class's message. *)
Definition extractMessage (agentMessage : ReviewAgentError -> str) (err : thrown) : str :=
  match err with
  | Agent e => agentMessage e
  | Object (Some m) _ _ _ => m
  | Object None _ _ shown => shown
  | StringValue s => s
  | OtherValue shown => shown
  end.

Definition isReviewAgentError (v : thrown) : bool :=
  match v with Agent _ => true | _ => false end.
