(* ===== verification/Retry.v ===== *)
(** * Retrying (core/src/retry.ts, action/src/retry.ts, llm/src/retry.ts)

    One loop, [withRetry], driven by a classifier; the Action's policy for GitHub writes and
    the LLM driver's policy are classifiers for it.  A call is an effect: it changes the state
    [S] of the world and returns or throws. *)

From S2P Require Import Prelude JsNumber Errors.

(** ** The loop of core/src/retry.ts *)

Inductive RetryDecision (E D : Type) :=
  | NoRetry (throwAs : option E)
  | DoRetry (delayMs : D).
Arguments NoRetry {E D} throwAs.
Arguments DoRetry {E D} delayMs.

Definition DEFAULT_MAX_ATTEMPTS : Z := 10.

Section loop.
Context {S E D A : Type}.
Context (fn : eff S E A) (classify : E -> nat -> eff S E (RetryDecision E D))
        (sleep : D -> eff S E unit).

(** The iterations from [attempt] on, [later] of them after this one: [max] is
    [attempt + later + 1]. *)
Fixpoint retryFrom (later attempt : nat) : eff S E A :=
  tryCatch fn (fun err =>
    decision ← classify err attempt;
    match decision with
    | NoRetry (Some e) => throw e
    | NoRetry None => throw err
    | DoRetry delayMs =>
        match later with
        | O => throw err
        | Datatypes.S later' => sleep delayMs;; retryFrom later' (Datatypes.S attempt)
        end
    end).

Definition withRetry (maxAttempts : option Z) : eff S E A :=
  let max := Z.max 1 (default DEFAULT_MAX_ATTEMPTS maxAttempts) in
  retryFrom (Z.to_nat (max - 1)) 0.
End loop.

(** ** The Action's policy *)

Definition DEFAULT_DELAYS_MS : list Z := [1000; 3000; 9000; 9000; 9000]%Z.

Definition isRetriable (err : thrown) : bool :=
  match extractStatus err with
  | None => true
  | Some status =>
      if (status =? 429)%Z then true
      else if ((500 <=? status) && (status <? 600))%Z then true
      else if ((400 <=? status) && (status <? 500))%Z then false
      else true
  end.

(** [delays[Math.min(attempt, delays.length - 1)] ?? 0]: the index is -1 for an empty schedule. *)
Definition delayAt (delays : list Z) (attempt : nat) : Z :=
  match delays with
  | [] => 0
  | _ => default 0%Z (delays !! Nat.min attempt (length delays - 1))
  end.

Section action.
Context {S A : Type}.
Context (fn : eff S thrown A) (sleep : Z -> eff S thrown unit)
        (logger : option (nat -> Z -> thrown -> eff S thrown unit)).

(** The classifier of action/src/retry.ts; the logger gets the attempt, the delay and the
    error its line is made of. *)
Definition actionClassify (retriable : thrown -> bool) (delays : list Z) (total : Z)
    (err : thrown) (attempt : nat) : eff S thrown (RetryDecision thrown Z) :=
  if negb (retriable err) then mret (NoRetry None)
  else
    let delayMs := delayAt delays attempt in
    (match logger with
     | Some log =>
         if (Z.of_nat attempt + 1 <? total)%Z then log (attempt + 1) delayMs err else mret tt
     | None => mret tt
     end);;
    mret (DoRetry delayMs).

Definition attemptsError (label : str) (attempts : Z) : thrown :=
  Object (Some ("withRetry(" ++ label ++ "): attempts must be >= 1; got " ++ showZ attempts
                ++ ". Skip the call upstream rather than passing 0."))
         NoStatus None [].

Definition actionWithRetry (attempts : Z) (label : str)
    (retriable : option (thrown -> bool)) (delaysMs : option (list Z)) : eff S thrown A :=
  if (attempts <=? 0)%Z then throw (attemptsError label attempts)
  else
    let total := Z.min attempts 10 in
    withRetry fn
      (actionClassify (default isRetriable retriable)
         (default DEFAULT_DELAYS_MS delaysMs) total)
      sleep (Some total).
End action.

(** ** The LLM driver's policy *)

Inductive ErrorKind := rate_limit | overloaded | context_length | auth | transient | fatal.

#[export] Instance ErrorKind_eq : EqDecision ErrorKind.
Proof. solve_decision. Defined.

Record ErrorClassification := { ek_kind : ErrorKind; retryAfterMs : option number }.

(** [RETRY_LIMITS], [None] for the kinds the table leaves out. *)
Definition RETRY_LIMITS (k : ErrorKind) : option nat :=
  match k with
  | rate_limit => Some 5
  | overloaded => Some 3
  | transient => Some 3
  | _ => None
  end.

Definition BACKOFF_MS : list Z := [1000; 2000; 4000; 8000; 16000]%Z.

(** The literal [0.2]. *)
Definition JITTER : number := num 7205759403792794 (-55).

(** [Math.max(...Object.values(RETRY_LIMITS)) + 1]. *)
Definition MAX_ATTEMPTS : Z :=
  Z.of_nat (foldr Nat.max 0 (omap RETRY_LIMITS [rate_limit; overloaded; transient])) + 1.

(** [Math.max(0, x)]. *)
Definition nmax0 (x : number) : number :=
  if is_nan x then x else if nlt zero x then x else zero.

Section llm.
Context {S A : Type}.
Context (classifyError : thrown -> ErrorClassification) (random : eff S thrown number)
        (fn : eff S thrown A) (sleep : number -> eff S thrown unit).

Definition llmClassify (err : thrown) (attempt : nat) :
    eff S thrown (RetryDecision thrown number) :=
  let c := classifyError err in
  match ek_kind c with
  | auth | fatal => mret (NoRetry None)
  | context_length => mret (NoRetry (Some (Agent (ContextLengthError 0 0))))
  | k =>
      if bool_decide (default 0 (RETRY_LIMITS k) <= attempt) then mret (NoRetry None)
      else
        let base := match retryAfterMs c with
                    | Some ms => ms
                    | None => num_of_Z (default 16000%Z (BACKOFF_MS !! Nat.min attempt 4))
                    end in
        r ← random;
        let jitter := nmul (nmul base JITTER)
                           (nadd (nmul r (num_of_Z 2)) (num_of_Z (-1))) in
        mret (DoRetry (nmax0 (nadd base jitter)))
  end.

Definition llmWithRetry : eff S thrown A :=
  withRetry fn llmClassify sleep (Some MAX_ATTEMPTS).
End llm.

(** ** A scripted world

    To state what a retry does, the call is scripted: its [i]-th execution has the outcome
    [outcome i], whatever that is, and the state is the trace of what happened. *)

Inductive event (D : Type) := Called | Slept (d : D) | Noted (n : nat).
Arguments Called {D}.
Arguments Slept {D} d.
Arguments Noted {D} n.

Section world.
Context {E D A : Type}.
Implicit Types (tr : list (event D)).

Fixpoint calls tr : nat :=
  match tr with [] => 0 | Called :: tr' => S (calls tr') | _ :: tr' => calls tr' end.

Fixpoint sleeps tr : list D :=
  match tr with [] => [] | Slept d :: tr' => d :: sleeps tr' | _ :: tr' => sleeps tr' end.

Fixpoint notes tr : list nat :=
  match tr with [] => [] | Noted n :: tr' => n :: notes tr' | _ :: tr' => notes tr' end.

Lemma calls_app tr tr' : calls (tr ++ tr') = calls tr + calls tr'.
Proof. induction tr as [|[]]; simpl; auto. Qed.

Lemma sleeps_app tr tr' : sleeps (tr ++ tr') = sleeps tr ++ sleeps tr'.
Proof. induction tr as [|[]]; simpl; auto; by f_equal. Qed.

Lemma notes_app tr tr' : notes (tr ++ tr') = notes tr ++ notes tr'.
Proof. induction tr as [|[]]; simpl; auto; by f_equal. Qed.

Definition scripted (outcome : nat -> result E A) : eff (list (event D)) E A :=
  fun tr => (outcome (calls tr), tr ++ [Called]).

Definition scriptedSleep : D -> eff (list (event D)) E unit :=
  fun d tr => (Ok tt, tr ++ [Slept d]).

(** The notes of the failures among the calls [from .. from + n - 1]. *)
Definition notesOf (outcome : nat -> result E A) (noted : E -> nat -> list nat)
    (from n : nat) : list nat :=
  flat_map (fun i => match outcome i with Throw e => noted e i | Ok _ => [] end) (seq from n).

(** What a finished retry that started at call [from] did: [n] calls, all but the last of them
    failures the policy retries after the delay it slept, the result that of the last. *)
Record finished (outcome : nat -> result E A) (policy : E -> nat -> RetryDecision E D)
    (from n max : nat) (ds : list D) (r : result E A) : Prop := {
  fin_pos : 1 <= n <= max;
  fin_sleeps : length ds = n - 1;
  fin_retried : forall i d, ds !! i = Some d ->
    exists e, outcome (from + i) = Throw e /\ policy e (from + i) = DoRetry d;
  fin_result :
    match outcome (from + (n - 1)) with
    | Ok a => r = Ok a
    | Throw e =>
        match policy e (from + (n - 1)) with
        | NoRetry throwAs => r = Throw (default e throwAs)
        | DoRetry _ => n = max /\ r = Throw e
        end
    end;
}.

Context (outcome : nat -> result E A) (policy : E -> nat -> RetryDecision E D).
Context (classify : E -> nat -> eff (list (event D)) E (RetryDecision E D)).
Context (noted : E -> nat -> list nat).
Hypothesis classify_policy : forall e n tr, calls tr = S n ->
  classify e n tr = (Ok (policy e n), tr ++ map Noted (noted e n)).

Lemma calls_noted ns : calls (map Noted ns : list (event D)) = 0.
Proof. by induction ns. Qed.

Lemma sleeps_noted ns : sleeps (map Noted ns : list (event D)) = [].
Proof. by induction ns. Qed.

Lemma notes_noted ns : notes (map Noted ns : list (event D)) = ns.
Proof. induction ns; simpl; by f_equal. Qed.

Lemma retryFrom_finished later attempt tr :
  calls tr = attempt ->
  exists r tr' n,
    retryFrom (scripted outcome) classify scriptedSleep later attempt tr = (r, tr ++ tr') /\
    calls tr' = n /\ finished outcome policy attempt n (S later) (sleeps tr') r /\
    notes tr' = notesOf outcome noted attempt n.
Proof.
  revert attempt tr. induction later as [|later IH]; intros attempt tr Hc;
    simpl; unfold tryCatch, scripted at 1; rewrite Hc;
    destruct (outcome attempt) as [a|e] eqn:Ho.
  1,3: exists (Ok a), [Called], 1; split_and!; [done|done| |];
    [constructor; simpl; [lia|done|done|]; by rewrite Nat.add_0_r, Ho
    |unfold notesOf; simpl; by rewrite Ho].
  all: unfold mbind, eff_bind; rewrite classify_policy by (rewrite calls_app; simpl; lia);
    destruct (policy e attempt) as [[e'|]|d] eqn:Hp.
  1-5: eexists _, (Called :: map Noted (noted e attempt)), 1; rewrite <- app_assoc; split_and!;
    [reflexivity|simpl; by rewrite calls_noted| |
     unfold notesOf; simpl; by rewrite Ho, app_nil_r, notes_noted];
    constructor; simpl; rewrite ?sleeps_noted; [lia|done|done|];
    by rewrite Nat.add_0_r, Ho, Hp.
  unfold scriptedSleep at 1.
  destruct (IH (S attempt) (((tr ++ [Called]) ++ map Noted (noted e attempt)) ++ [Slept d]))
    as (r & tr' & n & -> & Hn & Hf & Ht).
  { rewrite !calls_app, calls_noted. simpl. lia. }
  exists r, (Called :: map Noted (noted e attempt) ++ Slept d :: tr'), (S n). split_and!.
  - by rewrite <- !app_assoc.
  - simpl. rewrite calls_app, calls_noted. simpl. by rewrite Hn.
  - simpl. rewrite sleeps_app, sleeps_noted. simpl.
    destruct Hf as [Hpos Hlen Hret Hres]. constructor; simpl; [lia|lia| |].
    + intros [|i] d' Hd; cbn in Hd.
      * simplify_eq. exists e. by rewrite Nat.add_0_r.
      * destruct (Hret i d' Hd) as (e' & ? & ?). exists e'. by rewrite Nat.add_succ_r.
    + replace (attempt + (n - 0)) with (S attempt + (n - 1)) by lia.
      destruct (outcome (S attempt + (n - 1))) as [|e1]; [done|].
      destruct (policy e1 (S attempt + (n - 1))); [done|].
      destruct Hres. split; [lia|done].
  - simpl. rewrite notes_app, notes_noted. simpl. rewrite Ht.
    unfold notesOf. simpl. by rewrite Ho.
Qed.

Lemma withRetry_run maxAttempts :
  exists r tr,
    withRetry (scripted outcome) classify scriptedSleep maxAttempts [] = (r, tr) /\
    finished outcome policy 0 (calls tr)
      (Z.to_nat (Z.max 1 (default DEFAULT_MAX_ATTEMPTS maxAttempts))) (sleeps tr) r /\
    notes tr = notesOf outcome noted 0 (calls tr).
Proof.
  unfold withRetry. set (max := Z.max 1 _).
  destruct (retryFrom_finished (Z.to_nat (max - 1)) 0 [] eq_refl)
    as (r & tr & n & -> & <- & Hf & Hn).
  exists r, tr. split_and!; [done| |done].
  replace (Z.to_nat max) with (S (Z.to_nat (max - 1))) by lia. done.
Qed.
End world.

(** ** Properties *)

(** The retry loop makes at least one and at most [max(1, maxAttempts)] calls, sleeps once
    before each call after the first and never after the last, retries only what the
    classifier says, and answers with the last call's value or error, or with the classifier's
    substitute: a failure is never turned into a success. *)
Theorem withRetry_spec {E D A} (outcome : nat -> result E A)
    (policy : E -> nat -> RetryDecision E D) (maxAttempts : option Z) :
  exists r tr,
    withRetry (scripted outcome) (fun e n => mret (policy e n)) scriptedSleep maxAttempts []
      = (r, tr) /\
    finished outcome policy 0 (calls tr)
      (Z.to_nat (Z.max 1 (default 10%Z maxAttempts))) (sleeps tr) r.
Proof.
  destruct (withRetry_run outcome policy (fun e n => mret (policy e n)) (fun _ _ => []))
    with (maxAttempts := maxAttempts) as (r & tr & ? & ? & ?); [|eauto].
  intros e n tr _. by rewrite app_nil_r.
Qed.

(** The scripted logger of the Action's writes notes the attempt. *)
Definition noteAttempt {D E A : Type} : nat -> Z -> A -> eff (list (event D)) E unit :=
  fun attempt _ _ tr => (Ok tt, tr ++ [Noted attempt]).

Definition actionPolicy (err : thrown) (attempt : nat) : RetryDecision thrown Z :=
  if isRetriable err then DoRetry (delayAt DEFAULT_DELAYS_MS attempt) else NoRetry None.

Lemma delayAt_default attempt : (1000 <= delayAt DEFAULT_DELAYS_MS attempt <= 9000)%Z.
Proof.
  unfold delayAt, DEFAULT_DELAYS_MS. cbn [length]. 
  destruct attempt as [|[|[|[|[|n]]]]]; simpl; lia.
Qed.

Lemma isRetriable_spec err :
  isRetriable err = false <->
  exists s, extractStatus err = Some s /\ (400 <= s < 500)%Z /\ s <> 429%Z.
Proof.
  unfold isRetriable. destruct (extractStatus err) as [s|]; [|naive_solver].
  destruct (s =? 429)%Z eqn:E1; to_prop; [naive_solver lia|].
  destruct (500 <=? s)%Z eqn:E2, (s <? 600)%Z eqn:E3, (400 <=? s)%Z eqn:E4, (s <? 500)%Z eqn:E5;
    simpl; to_prop; naive_solver lia.
Qed.

Definition actionNotes (total : Z) (e : thrown) (n : nat) : list nat :=
  if isRetriable e && (Z.of_nat n + 1 <? total)%Z then [n + 1] else [].

Lemma notesOf_S {E A} (outcome : nat -> result E A) noted n :
  notesOf outcome noted 0 (S n) =
  notesOf outcome noted 0 n ++ match outcome n with Throw e => noted e n | Ok _ => [] end.
Proof. unfold notesOf. rewrite seq_S, flat_map_app. simpl. by rewrite app_nil_r. Qed.

Lemma action_notes {A} (outcome : nat -> result thrown A) total m :
  (forall i, i < m -> exists e, outcome i = Throw e /\ isRetriable e = true) ->
  m < Z.to_nat total -> notesOf outcome (actionNotes total) 0 m = seq 1 m.
Proof.
  induction m as [|m IH]; [done|]. intros Hr Hlt.
  rewrite notesOf_S, IH, seq_S by (intros; try apply Hr; lia). f_equal.
  destruct (Hr m) as (e & -> & He); [lia|]. unfold actionNotes. rewrite He. simpl.
  destruct (_ <? _)%Z eqn:E; to_prop; [|lia]. do 2 f_equal. lia.
Qed.

(** The Action retries a GitHub write at most [min(attempts, 10)] times, waits between one and
    nine seconds, logs exactly one line per wait, and gives up at once, with that error, on a
    4xx status other than 429. *)
Theorem actionWithRetry_spec {A} (outcome : nat -> result thrown A) attempts label :
  (1 <= attempts)%Z ->
  exists r tr,
    actionWithRetry (scripted outcome) scriptedSleep (Some noteAttempt) attempts label None None []
      = (r, tr) /\
    1 <= calls tr <= Z.to_nat (Z.min attempts 10) /\
    notes tr = seq 1 (calls tr - 1) /\ length (sleeps tr) = calls tr - 1 /\
    Forall (fun d => (1000 <= d <= 9000)%Z) (sleeps tr) /\
    r = outcome (calls tr - 1) /\
    (forall i e, i < calls tr -> outcome i = Throw e ->
       (exists s, extractStatus e = Some s /\ (400 <= s < 500)%Z /\ s <> 429%Z) ->
       i = calls tr - 1).
Proof.
  intros Ha. unfold actionWithRetry. destruct (attempts <=? 0)%Z eqn:E; to_prop; [lia|].
  set (total := Z.min attempts 10). cbn [default].
  destruct (withRetry_run outcome actionPolicy
    (actionClassify (Some noteAttempt) isRetriable DEFAULT_DELAYS_MS total)
    (actionNotes total))
    with (maxAttempts := Some total) as (r & tr & -> & Hf & Hn).
  { intros e n tr _. unfold actionClassify, actionPolicy, actionNotes.
    destruct (isRetriable e); simpl; [|by rewrite app_nil_r]. cbn. destruct (_ <? _)%Z; cbn; [done|by rewrite app_nil_r]. }
  exists r, tr. destruct Hf as [Hpos Hlen Hret Hres]. simpl in *.
  rewrite Z.max_r in * by (subst total; lia).
  assert (forall i, i < calls tr - 1 -> exists e, outcome i = Throw e /\ isRetriable e = true)
    as Hretry.
  { intros i Hi. destruct (lookup_lt_is_Some_2 (sleeps tr) i) as [d Hd]; [lia|].
    destruct (Hret i d Hd) as (e & He & Hp). exists e. split; [done|].
    unfold actionPolicy in Hp. by destruct (isRetriable e). }
  split_and!; [done|lia|lia| |done| | |].
  - rewrite Hn. destruct (calls tr) as [|m] eqn:Hm; [lia|]. simpl in *. rewrite Nat.sub_0_r in *.
    rewrite notesOf_S, action_notes by (done || lia). simpl.
    destruct (outcome m) as [a|e]; [by rewrite app_nil_r|].
    unfold actionPolicy in Hres. unfold actionNotes. destruct (isRetriable e); simpl;
      [|by rewrite app_nil_r].
    destruct Hres as [Hm' _]. destruct (_ <? _)%Z eqn:E'; to_prop; [lia|by rewrite app_nil_r].
  - apply Forall_lookup. intros i d Hd. destruct (Hret i d Hd) as (e & He & Hp).
    unfold actionPolicy in Hp. destruct (isRetriable e); simplify_eq. apply delayAt_default.
  - destruct (outcome _) as [a|e]; [done|]. unfold actionPolicy in Hres.
    destruct (isRetriable e); naive_solver.
  - intros i e Hi He Hs. apply isRetriable_spec in Hs.
    destruct (decide (i = calls tr - 1)); [done|].
    destruct (Hretry i) as (e' & He' & ?); [lia|]. congruence.
Qed.

(** Two failures (503, 429), then success: three calls, two waits, two log lines. *)
Definition flaky (i : nat) : result thrown nat :=
  match i with
  | 0 => Throw (Object None (Status 503) None [])
  | 1 => Throw (Object None NoStatus (Some (Status 429)) [])
  | _ => Ok 7
  end.

Lemma actionWithRetry_spec_witness :
  exists r tr,
    actionWithRetry (scripted flaky) scriptedSleep (Some noteAttempt) 5 "state" None None []
      = (r, tr) /\ sleeps tr = [1000; 3000]%Z /\ r = Ok 7 /\ notes tr = seq 1 (calls tr - 1).
Proof.
  destruct (actionWithRetry_spec flaky 5 "state" ltac:(lia)) as (r & tr & H & _ & Hn & _).
  exists r, tr. split; [exact H|].
  assert ((r, tr) = (Ok 7, [Called; Noted 1; Slept 1000; Called; Noted 2; Slept 3000; Called]%Z))
    as E by (rewrite <- H; vm_compute; reflexivity).
  injection E as -> ->. split_and!; [done|done|exact Hn].
Defined.

Section llm_spec.
Context {A : Type} (classifyError : thrown -> ErrorClassification) (rnd : nat -> number).

(** The random source of the scripted world: a number per call. *)
Definition scriptedRandom : eff (list (event number)) thrown number :=
  fun tr => (Ok (rnd (calls tr)), tr).

Definition llmPolicy (err : thrown) (attempt : nat) : RetryDecision thrown number :=
  match (llmClassify classifyError (fun u : unit => (Ok (rnd (S attempt)), u)) err attempt tt).1 with
  | Ok d => d
  | Throw _ => NoRetry None
  end.

Lemma llmClassify_policy err n tr :
  calls tr = S n ->
  llmClassify classifyError scriptedRandom err n tr = (Ok (llmPolicy err n), tr ++ map Noted []).
Proof.
  intros Hc. rewrite app_nil_r. unfold llmPolicy, llmClassify.
  destruct (ek_kind (classifyError err)); try done;
    case_bool_decide; try done; cbn; unfold mbind, eff_bind, scriptedRandom; by rewrite Hc.
Qed.

(** The kinds that may be retried, and the call from which on they are not. *)
Definition terminalFrom (k : ErrorKind) : nat := default 0 (RETRY_LIMITS k).

Lemma llmPolicy_retry err n d :
  llmPolicy err n = DoRetry d -> n < terminalFrom (ek_kind (classifyError err)).
Proof.
  unfold llmPolicy, llmClassify, terminalFrom.
  destruct (ek_kind (classifyError err)); try done;
    case_bool_decide; try done; cbn in *; lia.
Qed.

Lemma llmPolicy_stop err n e :
  llmPolicy err n = NoRetry e ->
  (ek_kind (classifyError err) = context_length /\ e = Some (Agent (ContextLengthError 0 0)))
  \/ (ek_kind (classifyError err) <> context_length /\ e = None).
Proof.
  unfold llmPolicy, llmClassify.
  destruct (ek_kind (classifyError err)); try (intros [= <-]; auto; fail);
    case_bool_decide; try done; intros [= <-]; auto.
Qed.

(** An LLM call is made at most six times; [auth], [fatal] and [context_length] failures end
    the loop at once, an [overloaded] or [transient] one ends it from the fourth call on and a
    [rate_limit] one from the sixth; the answer is the last call's, with the error of a
    context overflow replaced by [ContextLengthError]. *)
Theorem llmWithRetry_spec (outcome : nat -> result thrown A) :
  exists r tr,
    llmWithRetry classifyError scriptedRandom (scripted outcome) scriptedSleep [] = (r, tr) /\
    1 <= calls tr <= 6 /\ length (sleeps tr) = calls tr - 1 /\
    (forall i e, i < calls tr -> outcome i = Throw e ->
       terminalFrom (ek_kind (classifyError e)) <= i -> i = calls tr - 1) /\
    (forall i, i < calls tr - 1 -> is_ok (outcome i) = false) /\
    match outcome (calls tr - 1) with
    | Ok a => r = Ok a
    | Throw e =>
        if decide (ek_kind (classifyError e) = context_length)
        then r = Throw (Agent (ContextLengthError 0 0)) else r = Throw e
    end.
Proof.
  unfold llmWithRetry.
  destruct (withRetry_run outcome llmPolicy (llmClassify classifyError scriptedRandom)
    (fun _ _ => [])) with (maxAttempts := Some MAX_ATTEMPTS) as (r & tr & -> & Hf & _).
  { intros e n tr Hc. by apply llmClassify_policy. }
  exists r, tr. destruct Hf as [Hpos Hlen Hret Hres]. simpl in *.
  change (Z.to_nat (Z.max 1 MAX_ATTEMPTS)) with 6 in *.
  assert (forall i, i < calls tr - 1 -> exists e, outcome i = Throw e /\
    i < terminalFrom (ek_kind (classifyError e))) as Hretry.
  { intros i Hi. destruct (lookup_lt_is_Some_2 (sleeps tr) i) as [d Hd]; [lia|].
    destruct (Hret i d Hd) as (e & He & Hp%llmPolicy_retry). eauto. }
  split_and!; [done|lia|lia|done| | |].
  - intros i e Hi He Hs. destruct (decide (i = calls tr - 1)); [done|].
    destruct (Hretry i) as (e' & He' & ?); [lia|]. rewrite He in He'. simplify_eq. lia.
  - intros i Hi. by destruct (Hretry i Hi) as (e & -> & _).
  - destruct (outcome (calls tr - 1)) as [a|e]; [done|].
    destruct (llmPolicy e _) as [t|d] eqn:Hp.
    + apply llmPolicy_stop in Hp as [[Hk ->]|[Hk ->]].
      * by rewrite decide_True.
      * by rewrite decide_False.
    + destruct Hres as [_ ->]. apply llmPolicy_retry in Hp.
      rewrite decide_False; [done|]. intros Hk. rewrite Hk in Hp. cbn in Hp. lia.
Qed.
End llm_spec.
