(* ===== verification/Schema.v ===== *)
(** * Output schema and URL allowlist (core/src/url.ts, core/src/schemas.ts, core/src/limits.ts)

    [extractUrls] finds every http(s) URL of a text, [createReviewOutputSchema] accepts a
    review only when every such URL is in the pull request's own repository or behind a
    configured prefix, next to the shape limits of the fields.  The WHATWG parser behind
    [new URL] is the platform's: it is the parameter [parseURL]. *)

From S2P Require Import Prelude JsNumber Review.

(** ** URLs *)

Fixpoint takeWhile (f : ascii -> bool) (s : str) : str :=
  match s with
  | [] => []
  | c :: s' => if f c then c :: takeWhile f s' else []
  end.

(** The character class of [URL_PATTERN]. *)
Definition isUrlChar (c : ascii) : bool :=
  negb (is_ws c || bool_decide (c ∈ (")]}<>'`" ++ quote : str))).

(** The length of a match of [https?:\/\/] (flag [i]) at the head of the text. *)
Definition scheme (s : str) : option nat :=
  if startsWithI s "https://" then Some 8
  else if startsWithI s "http://" then Some 7
  else None.

(** The match of [URL_PATTERN] at the head of the text. *)
Definition urlAt (s : str) : option str :=
  match scheme s with
  | Some n => let run := takeWhile isUrlChar (drop n s) in
              if bool_decide (run = []) then None else Some (take n s ++ run)
  | None => None
  end.

(** [text.match(URL_PATTERN)] with flag [g]; [skip] characters of the last match are still to be
    passed over. *)
Fixpoint rawUrls (skip : nat) (s : str) : list str :=
  match s with
  | [] => []
  | _ :: s' =>
      match skip with
      | S k => rawUrls k s'
      | O => match urlAt s with
             | Some u => u :: rawUrls (length u - 1) s'
             | None => rawUrls 0 s'
             end
      end
  end.

(** [m.replace(/[.,;:!?]+$/, '')] *)
Definition isTrailingPunct (c : ascii) : bool := bool_decide (c ∈ (".,;:!?" : str)).
Definition trimPunct (m : str) : str := rev (dropWhile isTrailingPunct (rev m)).

Definition extractUrls (text : str) : list str := map trimPunct (rawUrls 0 text).

Definition isPrefixAllowed (url : str) (allowedPrefixes : list str) : bool :=
  match allowedPrefixes with
  | [] => false
  | _ => existsb (fun prefix => startsWith url prefix) allowedPrefixes
  end.

(** The parts of a parsed URL the code reads. *)
Record URL := { protocol : str; url_host : str; pathname : str }.

Record prRepo := { host : str; owner : str; repo : str }.

Section schema.
Context (parseURL : str -> option URL).

Definition isPrOwnRepoUrl (url : str) (expected : prRepo) : bool :=
  match parseURL url with
  | None => false
  | Some parsed =>
      if negb (bool_decide (protocol parsed = "http:")) &&
         negb (bool_decide (protocol parsed = "https:")) then false
      else if negb (bool_decide (toLowerCase (url_host parsed) = toLowerCase (host expected)))
      then false
      else
        let p := toLowerCase (pathname parsed) in
        let prefix := "/" ++ toLowerCase (owner expected) ++ "/" ++ toLowerCase (repo expected) in
        bool_decide (p = prefix) || startsWith p (prefix ++ "/")
  end.

(** ** The comment schema *)

Definition PATH_MAX : Z := 500.
Definition BODY_MAX : Z := 5000.
Definition SUGGESTION_MAX : Z := 5000.
Definition SUMMARY_MAX : Z := 10000.
Definition LINE_MAX : Z := 1000000.
Definition COMMENTS_MAX : Z := 50.
Definition MODEL_NAME_MIN : Z := 1.
Definition MODEL_NAME_MAX : Z := 128.
Definition RULE_ID_MIN : Z := 2.
Definition RULE_ID_MAX : Z := 64.

Definition NUL : ascii := "000"%char.
Definition NO_NUL (s : str) : bool := bool_decide (s <> []) && bool_decide (NUL ∉ s).

Definition is_word (c : ascii) : bool :=
  let n := code c in
  (((48 <=? n) && (n <=? 57)) || ((65 <=? n) && (n <=? 90)) || ((97 <=? n) && (n <=? 122))
   || (n =? 95))%N.
Definition is_lower (c : ascii) : bool := ((97 <=? code c) && (code c <=? 122))%N.
Definition is_digit (c : ascii) : bool := ((48 <=? code c) && (code c <=? 57))%N.
Definition is_hex (c : ascii) : bool :=
  is_digit c || ((97 <=? code c) && (code c <=? 102))%N.

(** [/\bcurl\s+http/i]: [prev] tells whether the character before is a word character. *)
Definition curlAt (s : str) : bool :=
  startsWithI s "curl" &&
  match drop 4 s with
  | c :: _ => is_ws c && startsWithI (dropWhile is_ws (drop 4 s)) "http"
  | [] => false
  end.

Fixpoint shellFetchFrom (prev : bool) (s : str) : bool :=
  match s with
  | [] => false
  | c :: s' => (negb prev && curlAt s) || shellFetchFrom (is_word c) s'
  end.

Definition SHELL_HTTP_FETCH (s : str) : bool := shellFetchFrom false s.

Definition notBroadcastMention (text : str) : bool :=
  negb (includes text "@everyone") && negb (includes text "@channel").

Definition notShellHttpFetch (text : str) : bool := negb (SHELL_HTTP_FETCH text).

Definition lengthBetween (lo hi : Z) (s : str) : bool := ((lo <=? Zlen s) && (Zlen s <=? hi))%Z.

Definition safeBody (s : str) : bool :=
  lengthBetween 1 BODY_MAX s && notBroadcastMention s && notShellHttpFetch s.

(** [/^[a-z][a-z0-9-]+$/] *)
Definition RULE_ID_PATTERN (s : str) : bool :=
  match s with
  | c :: _ :: _ => is_lower c &&
      forallb (fun d => is_lower d || is_digit d || eqc d "-") (drop 1 s)
  | _ => false
  end.

Definition optionally {A} (f : A -> bool) (o : option A) : bool :=
  match o with Some a => f a | None => true end.

Definition styleCapped (c : ReviewOutputComment) : bool :=
  negb (bool_decide (category c = Some style) &&
        (bool_decide (severity c = major) || bool_decide (severity c = critical))).

(** [InlineCommentSchema] accepts. The enumerations and the integer type of [line] are typed. *)
Definition InlineCommentSchema (c : ReviewOutputComment) : bool :=
  lengthBetween 1 PATH_MAX (path c) && NO_NUL (path c) &&
  ((0 <? line c)%Z && (line c <=? LINE_MAX)%Z) &&
  safeBody (body c) &&
  optionally (fun r => lengthBetween RULE_ID_MIN RULE_ID_MAX r && RULE_ID_PATTERN r) (ruleId c) &&
  optionally (fun s => (Zlen s <=? SUGGESTION_MAX)%Z) (suggestion c) &&
  styleCapped c.

(** ** The output schema *)

Inductive issuePath := BodyOf (i : nat) | SuggestionOf (i : nat) | Summary.

(** A custom issue of the URL refinement: the URL and where it stands. *)
Record urlIssue := { bad_url : str; issue_at : issuePath }.

Definition URL_ALLOWLIST_ISSUE_PREFIX : str := "URL not in allowlist:".

Definition issueMessage (expected : prRepo) (i : urlIssue) : str :=
  URL_ALLOWLIST_ISSUE_PREFIX ++ " " ++ bad_url i ++ " (expected host '" ++ host expected
  ++ "' or a configured allowed_url_prefixes entry)".

Context (allowedUrlPrefixes : list str) (pr : prRepo).

Definition allowedUrl (url : str) : bool :=
  isPrOwnRepoUrl url pr || isPrefixAllowed url allowedUrlPrefixes.

Definition reportBadUrls (text : str) (at_ : issuePath) : list urlIssue :=
  flat_map (fun url => if isPrOwnRepoUrl url pr then []
                       else if isPrefixAllowed url allowedUrlPrefixes then []
                       else [{| bad_url := url; issue_at := at_ |}])
           (extractUrls text).

Fixpoint commentIssues (i : nat) (cs : list ReviewOutputComment) : list urlIssue :=
  match cs with
  | [] => []
  | c :: cs' =>
      reportBadUrls (body c) (BodyOf i)
      ++ match suggestion c with
         | Some s => reportBadUrls s (SuggestionOf i)
         | None => []
         end
      ++ commentIssues (S i) cs'
  end.

Definition superRefine (comments : list ReviewOutputComment) (summary : str) : list urlIssue :=
  commentIssues 0 comments ++ reportBadUrls summary Summary.

Definition baseShape (comments : list ReviewOutputComment) (summary : str) : bool :=
  forallb InlineCommentSchema comments && (Zlen comments <=? COMMENTS_MAX)%Z
  && lengthBetween 1 SUMMARY_MAX summary.

Inductive SchemaFailure := ShapeFailure | UrlFailure (issues : list urlIssue).

(** [schema.safeParse]: the refinement runs on outputs of the right shape. *)
Definition ReviewOutputSchema (comments : list ReviewOutputComment) (summary : str)
    : result SchemaFailure unit :=
  if baseShape comments summary then
    match superRefine comments summary with
    | [] => Ok tt
    | issues => Throw (UrlFailure issues)
    end
  else Throw ShapeFailure.

(** ** The state schema *)

Definition REVIEW_STATE_SCHEMA_VERSION : Z := 1.

(** [/^[0-9a-f]{n}$/] *)
Definition hexOf (n : Z) (s : str) : bool := (Zlen s =? n)%Z && forallb is_hex s.
Definition SHA1_HEX : str -> bool := hexOf 40.
Definition FINGERPRINT_HEX : str -> bool := hexOf 16.

(** [ReviewStateSchema] on a state whose schema version is [version]; the date-time check is the
    validation library's. *)
Definition ReviewStateSchema (isDatetime : str -> bool) (version : Z) (st : ReviewState) : bool :=
  (version =? REVIEW_STATE_SCHEMA_VERSION)%Z &&
  SHA1_HEX (lastReviewedSha st) && SHA1_HEX (baseSha st) && isDatetime (reviewedAt st) &&
  lengthBetween MODEL_NAME_MIN MODEL_NAME_MAX (modelUsed st) &&
  (0 <=? totalTokens st)%Z && nle zero (totalCostUsd st) &&
  forallb FINGERPRINT_HEX (commentFingerprints st).
End schema.

(** ** Every link is covered by an extracted URL *)

Lemma takeWhile_app f a b : forallb f a = true -> takeWhile f (a ++ b) = a ++ takeWhile f b.
Proof.
  induction a as [|c a IH]; simpl; [done|]. destruct (f c); simpl; [|done].
  intros H. by rewrite IH.
Qed.

Lemma takeWhile_long f a b :
  length a < length (takeWhile f (a ++ b)) -> takeWhile f (a ++ b) = a ++ takeWhile f b.
Proof.
  induction a as [|c a IH]; simpl; [done|]. destruct (f c); simpl; [|lia].
  intros H. rewrite IH by lia. done.
Qed.

(** The characters that fold to a letter of the scheme may stand in a URL. *)
Lemma fold_isUrlChar c d : fold_char c = fold_char d -> d ∈ ("https://" : str) -> isUrlChar c = true.
Proof.
  intros H Hd.
  assert (forallb (fun d => all_ascii (fun c =>
    negb (eqc (fold_char c) (fold_char d)) || isUrlChar c)) ("https://" : str) = true) as Hall
    by (vm_compute; reflexivity).
  rewrite forallb_elem in Hall. specialize (Hall d Hd).
  apply (all_ascii_spec _ c) in Hall. cbv beta in Hall. by rewrite H, eqc_refl in Hall.
Qed.

Lemma startsWithI_prefix s p :
  startsWithI s p = true -> (forall d, d ∈ p -> d ∈ ("https://" : str)) ->
  forallb isUrlChar (take (length p) s) = true.
Proof.
  unfold startsWithI. revert s. induction p as [|d p IH]; intros [|c s]; simpl; try done.
  intros [Hc Hs]%andb_true_iff Hp. apply eqc_true in Hc.
  rewrite (fold_isUrlChar c d) by (done || set_solver). simpl. apply IH; [done|set_solver].
Qed.

Lemma urlAt_run s u : urlAt s = Some u -> u = takeWhile isUrlChar s /\ u <> [].
Proof.
  assert (forall p, p = js "https://" \/ p = js "http://" -> startsWithI s p = true ->
    take (length p) s ++ takeWhile isUrlChar (drop (length p) s) = takeWhile isUrlChar s) as H.
  { intros p Hp Hs. rewrite <- (take_drop (length p) s) at 3. symmetry. apply takeWhile_app.
    apply startsWithI_prefix; [done|]. destruct Hp as [-> | ->]; [done|]. intros d Hd.
    unfold js in *. simpl in *. set_solver. }
  unfold urlAt, scheme.
  destruct (startsWithI s "https://") eqn:E1; [|destruct (startsWithI s "http://") eqn:E2; [|done]];
    case_bool_decide as Hr; try done; intros [= <-].
  - split; [apply (H "https://"); auto|]. by intros [_ Hn]%app_nil.
  - split; [apply (H "http://"); auto|]. by intros [_ Hn]%app_nil.
Qed.

Lemma rawUrls_skip k s : rawUrls k s = rawUrls 0 (drop k s).
Proof. revert s; induction k as [|k IH]; intros [|c s]; try done. simpl. apply IH. Qed.

(** A link that starts anywhere in the text ends an extracted match. *)
Lemma rawUrls_cover a b u :
  urlAt b = Some u ->
  exists a1 a2, a = a1 ++ a2 /\ a2 ++ u ∈ rawUrls 0 (a ++ b).
Proof.
  intros Hu. remember (length a) as n eqn:Hn. revert a Hn.
  induction (lt_wf n) as [n _ IH]; intros a ->. destruct a as [|c a].
  { exists [], []. split; [done|]. destruct b as [|c b]; [done|].
    cbn [app rawUrls]. rewrite Hu. set_solver. }
  cbn [app rawUrls]. destruct (urlAt (c :: a ++ b)) as [m|] eqn:Em.
  - destruct (decide (length m <= length (c :: a))) as [Hle|Hgt].
    + rewrite rawUrls_skip. apply urlAt_run in Em as [_ Hm].
      assert (0 < length m) by (destruct m; simpl; [done|lia]). simpl in Hle.
      rewrite drop_app_le by lia.
      destruct (IH (length (drop (length m - 1) a))) with (a := drop (length m - 1) a)
        as (a1 & a2 & Ha & Hin); [rewrite length_drop; simpl; lia|done|].
      exists (c :: take (length m - 1) a ++ a1), a2. split; [|set_solver].
      rewrite <- app_comm_cons, <- app_assoc, <- Ha. by rewrite take_drop.
    + apply urlAt_run in Em as [-> _]. apply urlAt_run in Hu as [-> _].
      exists [], (c :: a). split; [done|]. rewrite app_comm_cons.
      rewrite takeWhile_long by (rewrite <- app_comm_cons; lia). set_solver.
  - destruct (IH (length a)) with (a := a) as (a1 & a2 & -> & Hin); [simpl; lia|done|].
    by exists (c :: a1), a2.
Qed.

(** ** What the schema accepts *)

Section schema_spec.
Context (parseURL : str -> option URL) (allowedUrlPrefixes : list str) (pr : prRepo).

(** The texts of an output a reader may click in. *)
Definition textsOf (comments : list ReviewOutputComment) (summary : str) : list str :=
  flat_map (fun c => body c :: option_list (suggestion c)) comments ++ [summary].

Lemma reportBadUrls_elem text p i :
  i ∈ reportBadUrls parseURL allowedUrlPrefixes pr text p <->
  issue_at i = p /\ bad_url i ∈ extractUrls text /\
  allowedUrl parseURL allowedUrlPrefixes pr (bad_url i) = false.
Proof.
  unfold reportBadUrls. rewrite list_elem_of_In, in_flat_map. setoid_rewrite <- list_elem_of_In.
  unfold allowedUrl. split.
  - intros (u & Hu & Hi). destruct (isPrOwnRepoUrl _ _ _) eqn:E1; [set_solver|].
    destruct (isPrefixAllowed _ _) eqn:E2; [set_solver|].
    apply list_elem_of_singleton in Hi as ->. simpl. by rewrite E1, E2.
  - intros (Ha & Hu & Hf). exists (bad_url i). split; [done|].
    apply orb_false_iff in Hf as [-> ->]. destruct i; simpl in *; subst. set_solver.
Qed.

Lemma superRefine_elem comments summary u :
  (exists i, i ∈ superRefine parseURL allowedUrlPrefixes pr comments summary /\ bad_url i = u) <->
  (exists text, text ∈ textsOf comments summary /\ u ∈ extractUrls text) /\
  allowedUrl parseURL allowedUrlPrefixes pr u = false.
Proof.
  unfold superRefine, textsOf.
  assert (forall n, (exists i, i ∈ commentIssues parseURL allowedUrlPrefixes pr n comments
                               /\ bad_url i = u) <->
    (exists text, text ∈ flat_map (fun c => body c :: option_list (suggestion c)) comments /\
                  u ∈ extractUrls text) /\
    allowedUrl parseURL allowedUrlPrefixes pr u = false) as Hc.
  { induction comments as [|c cs IH]; intros n; simpl.
    { split; [intros (i & []%elem_of_nil & _)|intros [(t & []%elem_of_nil & _) _]]. }
    setoid_rewrite elem_of_app. setoid_rewrite elem_of_app.
    specialize (IH (S n)). setoid_rewrite reportBadUrls_elem. split.
    - intros (i & [Hi|[Hi|Hi]] & <-).
      + destruct Hi as (_ & ? & ?). split; [|done]. exists (body c). split; [left|done].
      + destruct (suggestion c) as [s|]; [|by apply elem_of_nil in Hi].
        apply reportBadUrls_elem in Hi as (_ & ? & ?). split; [|done].
        exists s. split; [right; left|done].
      + destruct (proj1 IH) as [(t & Ht & ?) ?]; [by exists i|]. split; [|done].
        exists t. split; [right|done]. apply elem_of_app. by right.
    - intros [(t & [->|[Ht|Ht]%elem_of_app]%elem_of_cons & Hu) Hf].
      + exists {| bad_url := u; issue_at := BodyOf n |}. simpl. eauto.
      + destruct (suggestion c) as [s|]; [|by apply elem_of_nil in Ht].
        apply list_elem_of_singleton in Ht as ->.
        exists {| bad_url := u; issue_at := SuggestionOf n |}.
        split; [|done]. right; left. by apply reportBadUrls_elem.
      + destruct (proj2 IH) as (i & Hi & Hb); [eauto|].
        exists i. split; [|done]. by right; right. }
  setoid_rewrite elem_of_app. setoid_rewrite reportBadUrls_elem. specialize (Hc 0). split.
  - intros (i & [Hi|Hi] & <-).
    + destruct (proj1 Hc) as [(t & ? & ?) ?]; [by exists i|]. split; [|done].
      exists t. split; [by left|done].
    + destruct Hi as (_ & ? & ?). split; [|done]. exists summary.
      split; [right; by apply list_elem_of_singleton|done].
  - intros [(t & [Ht|Ht] & Hu) Hf].
    + destruct (proj2 Hc) as (i & ? & ?); [eauto|]. eauto.
    + apply list_elem_of_singleton in Ht as ->.
      exists {| bad_url := u; issue_at := Summary |}. simpl. eauto.
Qed.

Lemma ReviewOutputSchema_ok comments summary :
  ReviewOutputSchema parseURL allowedUrlPrefixes pr comments summary = Ok tt <->
  baseShape comments summary = true /\
  forall text u, text ∈ textsOf comments summary -> u ∈ extractUrls text ->
    allowedUrl parseURL allowedUrlPrefixes pr u = true.
Proof.
  unfold ReviewOutputSchema. destruct (baseShape comments summary); [|naive_solver].
  destruct (superRefine _ _ _ _ _) as [|i iss] eqn:E.
  - split; [|done]. intros _. split; [done|]. intros text u Ht Hu.
    destruct (allowedUrl _ _ _ u) eqn:Ha; [done|].
    destruct (superRefine_elem comments summary u) as [_ H].
    destruct H as (i & Hi & _); [eauto|]. rewrite E in Hi. set_solver.
  - split; [done|]. intros [_ H].
    destruct (superRefine_elem comments summary (bad_url i)) as [Hs _].
    destruct Hs as [(t & Ht & Hu) Ha]; [exists i; rewrite E; set_solver|].
    rewrite (H t _ Ht Hu) in Ha. done.
Qed.
End schema_spec.

(** ** Properties *)

(** An output the schema accepts holds no link that escapes the allowlist: wherever an http(s)
    link (in any letter case) starts in a body, a suggestion or the summary, the URL that ends
    with it was extracted and is in the pull request's own repository or behind an allowed
    prefix. *)
Theorem accepted_links_are_allowed parseURL prefixes pr comments summary text a b u :
  ReviewOutputSchema parseURL prefixes pr comments summary = Ok tt ->
  text ∈ textsOf comments summary -> text = a ++ b -> urlAt b = Some u ->
  exists a1 a2, a = a1 ++ a2 /\
    trimPunct (a2 ++ u) ∈ extractUrls text /\
    (isPrOwnRepoUrl parseURL (trimPunct (a2 ++ u)) pr = true \/
     exists p, p ∈ prefixes /\ startsWith (trimPunct (a2 ++ u)) p = true).
Proof.
  intros [_ H]%ReviewOutputSchema_ok Ht -> Hu.
  destruct (rawUrls_cover a b u Hu) as (a1 & a2 & -> & Hin). exists a1, a2.
  assert (trimPunct (a2 ++ u) ∈ extractUrls ((a1 ++ a2) ++ b)) as Hx
    by (apply elem_of_bmap; eauto).
  split_and!; [done|done|]. specialize (H _ _ Ht Hx).
  unfold allowedUrl, isPrefixAllowed in H. apply orb_true_iff in H as [H|H]; [by left|right].
  destruct prefixes; [done|]. by apply existsb_elem in H.
Qed.

Definition plain_comment (b : str) : ReviewOutputComment :=
  {| path := "src/a.ts"; line := 3; side := RIGHT; body := b; severity := minor;
     category := None; confidence := None; ruleId := None; suggestion := None |}.

Definition no_url : str -> option URL := fun _ => None.

Lemma accepted_links_are_allowed_witness :
  exists a1 a2, js "see (" = a1 ++ a2 /\
    trimPunct (a2 ++ "HTTPS://docs.io/x") ∈ extractUrls "see (HTTPS://docs.io/x)." /\
    (isPrOwnRepoUrl no_url (trimPunct (a2 ++ "HTTPS://docs.io/x"))
       {| host := "github.com"; owner := "o"; repo := "r" |} = true \/
     exists p, p ∈ [js "HTTPS://docs.io/"] /\
       startsWith (trimPunct (a2 ++ "HTTPS://docs.io/x")) p = true).
Proof.
  apply (accepted_links_are_allowed no_url [js "HTTPS://docs.io/"]
    {| host := "github.com"; owner := "o"; repo := "r" |}
    [plain_comment "see (HTTPS://docs.io/x)."] "ok" "see (HTTPS://docs.io/x)."
    "see (" "HTTPS://docs.io/x)." "HTTPS://docs.io/x").
  - vm_compute. reflexivity.
  - set_solver.
  - reflexivity.
  - vm_compute. reflexivity.
Defined.

(** The schema rejects any output with a disallowed URL and lists every one of them; the schema's
    other limits hold of what it accepts: at most fifty comments, [style] never above [minor],
    no broadcast mention and no [curl http] in a body. *)
Theorem ReviewOutputSchema_spec parseURL prefixes pr comments summary :
  match ReviewOutputSchema parseURL prefixes pr comments summary with
  | Ok _ =>
      (Zlen comments <= 50)%Z /\
      Forall (fun c =>
        (category c = Some style -> severity c = minor \/ severity c = info) /\
        (1 <= line c <= 1000000)%Z /\
        includes (body c) "@everyone" = false /\ includes (body c) "@channel" = false /\
        SHELL_HTTP_FETCH (body c) = false) comments
  | Throw ShapeFailure => baseShape comments summary = false
  | Throw (UrlFailure issues) =>
      baseShape comments summary = true /\ issues <> [] /\
      forall u, (exists i, i ∈ issues /\ bad_url i = u) <->
        (exists text, text ∈ textsOf comments summary /\ u ∈ extractUrls text) /\
        isPrOwnRepoUrl parseURL u pr = false /\
        (forall p, p ∈ prefixes -> startsWith u p = false)
  end.
Proof.
  unfold ReviewOutputSchema. destruct (baseShape comments summary) eqn:Hb; [|done].
  destruct (superRefine _ _ _ _ _) as [|i iss] eqn:E.
  - unfold baseShape in Hb. rewrite !andb_true_iff in Hb.
    destruct Hb as [[Hall Hlen] _]. to_prop. split; [done|].
    apply Forall_forall. intros c Hc.
    assert (InlineCommentSchema c = true) as Hs by (by eapply forallb_elem).
    unfold InlineCommentSchema, safeBody, notBroadcastMention, notShellHttpFetch, styleCapped,
      LINE_MAX in Hs.
    to_prop. repeat match goal with H : _ /\ _ |- _ => destruct H end. to_prop.
    split_and!; try done; try lia.
    intros Hst. rewrite Hst in *. destruct (severity c); naive_solver.
  - split_and!; [done|done|]. intros u. rewrite <- E, superRefine_elem.
    apply and_iff_compat_l. unfold allowedUrl, isPrefixAllowed.
    rewrite orb_false_iff. apply and_iff_compat_l. destruct prefixes as [|p ps]; [set_solver|].
    apply existsb_none.
Qed.
