(* ===== verification/Cost.v ===== *)
(** * Cost control (core/src/cost.ts, runner/src/middleware/cost-guard.ts)

    [decideCostAction] compares the projected spend with the caps; [createCostGuard] is the
    middleware that consults it before the provider is called and checks the spend after. *)

From S2P Require Import Prelude JsNumber Review Errors.

(** ** core/src/cost.ts *)

Inductive CostLedgerPhase := injection_detect | review_main | review_retry.
Inductive CostLedgerStatus := success | failed | cancelled | cost_exceeded_status.

#[export] Instance CostLedgerStatus_eq : EqDecision CostLedgerStatus.
Proof. solve_decision. Defined.

Record RecordPhaseInput := {
  rp_installationId : Z;
  rp_jobId : str;
  rp_provider : str;
  rp_model : str;
  rp_callPhase : CostLedgerPhase;
  rp_inputTokens : Z;
  rp_outputTokens : Z;
  rp_costUsd : number;
  rp_status : CostLedgerStatus;
}.

Record CostTotals := { running : number; daily : number }.

Inductive AbortReason := cost_exceeded | daily_cap.

Inductive CostGuardDecision :=
  | Proceed
  | Fallback
  | Abort (reason : AbortReason) (runningUsd capUsd : number)
  | Kill (runningUsd capUsd : number).

Definition FALLBACK_RATIO : number := lit_0_8.
Definition ABORT_RATIO : number := lit_1_0.
Definition KILL_RATIO : number := lit_1_5.

Record DecideCostInput := {
  in_running : number;
  estimate : number;
  perPrCap : number;
  in_daily : number;
  dailyCap : number;
}.

Definition projected (i : DecideCostInput) : number := nadd (in_running i) (estimate i).

Definition decideCostAction (i : DecideCostInput) : CostGuardDecision :=
  if ngt (dailyCap i) zero && nge (in_daily i) (dailyCap i)
  then Abort daily_cap (in_daily i) (dailyCap i)
  else if nle (perPrCap i) zero then Proceed
  else if ngt (in_running i) (nmul (perPrCap i) KILL_RATIO)
  then Kill (in_running i) (perPrCap i)
  else if ngt (projected i) (nmul (perPrCap i) ABORT_RATIO)
  then Abort cost_exceeded (projected i) (perPrCap i)
  else if ngt (projected i) (nmul (perPrCap i) FALLBACK_RATIO) then Fallback
  else Proceed.

(** ** The middleware *)

(** What the guard needs of the state its run shares with the rest of the review: a cell for
    the accumulated cost that nothing else of the guard writes. *)
Class CostCell (S : Type) := {
  getCost : S -> number;
  setCost : number -> S -> S;
  get_setCost : forall c s, getCost (setCost c s) = c;
}.

Record CostGuardRecordContext := {
  rc_installationId : Z;
  rc_jobId : str;
  rc_provider : str;
  rc_model : str;
}.

Inductive CostThreshold := th_fallback | th_abort | th_kill | th_daily_cap.

Record CostThresholdEvent := {
  threshold : CostThreshold;
  cumulativeUsd : number;
  capUsd : number;
}.

Section guard.
Context {S : Type} `{CostCell S}.

Record CostGuardOptions := {
  onFallbackHint : option (eff S thrown unit);
  onThresholdCrossed : option (CostThresholdEvent -> eff S thrown unit);
  dailyCapUsd : number;
  readTotals : option (eff S thrown CostTotals);
  recorder : option (RecordPhaseInput -> eff S thrown unit);
  recordContext : option CostGuardRecordContext;
}.

Definition toThresholdEvent (decision : CostGuardDecision) : CostThresholdEvent :=
  match decision with
  | Fallback => {| threshold := th_fallback; cumulativeUsd := zero; capUsd := zero |}
  | Kill r c => {| threshold := th_kill; cumulativeUsd := r; capUsd := c |}
  | Abort reason r c =>
      {| threshold := match reason with daily_cap => th_daily_cap | _ => th_abort end;
         cumulativeUsd := r; capUsd := c |}
  | Proceed => {| threshold := th_fallback; cumulativeUsd := zero; capUsd := zero |}
  end.

Definition recordExceeded (recorder : option (RecordPhaseInput -> eff S thrown unit))
    (ctx : option CostGuardRecordContext) (estimatedUsd : number) : eff S thrown unit :=
  match recorder, ctx with
  | Some r, Some c =>
      r {| rp_installationId := rc_installationId c; rp_jobId := rc_jobId c;
           rp_provider := rc_provider c; rp_model := rc_model c;
           rp_callPhase := review_main; rp_inputTokens := 0; rp_outputTokens := 0;
           rp_costUsd := estimatedUsd; rp_status := cost_exceeded_status |}
  | _, _ => mret tt
  end.

(** [onFallbackHint?.()] *)
Definition callHint (h : option (eff S thrown unit)) : eff S thrown unit :=
  match h with Some m => m | None => mret tt end.

Definition recordSuccess (o : CostGuardOptions) (r : ReviewOutput) : eff S thrown unit :=
  match recorder o, recordContext o with
  | Some rec, Some c =>
      rec {| rp_installationId := rc_installationId c; rp_jobId := rc_jobId c;
             rp_provider := rc_provider c; rp_model := rc_model c;
             rp_callPhase := review_main;
             rp_inputTokens := tok_input (out_tokensUsed r);
             rp_outputTokens := tok_output (out_tokensUsed r);
             rp_costUsd := out_costUsd r; rp_status := success |}
  | _, _ => mret tt
  end.

(** The part of the middleware after the decision lets the call through. *)
Definition guardedCall (o : CostGuardOptions) (cap : number) (totals : CostTotals)
    (next : eff S thrown ReviewOutput) : eff S thrown ReviewOutput :=
  r ← next;
  modify (setCost (nadd (running totals) (out_costUsd r)));;
  recordSuccess o r;;
  s ← get;
  if ngt cap zero && ngt (getCost s) cap then
    let cumulative := getCost s in
    callOpt (onThresholdCrossed o)
      {| threshold := if ngt cumulative (nmul cap lit_1_5) then th_kill else th_abort;
         cumulativeUsd := cumulative; capUsd := cap |};;
    recordExceeded (recorder o) (recordContext o) zero;;
    throw (Agent (CostExceededError cap cumulative))
  else mret r.

(** [cap] is [ctx.job.costCapUsd], [estimateCost] the provider's estimate of [ctx.input]. *)
Definition createCostGuard (o : CostGuardOptions) (cap : number)
    (estimateCost : eff S thrown number) (next : eff S thrown ReviewOutput)
    : eff S thrown ReviewOutput :=
  if nle cap zero && nle (dailyCapUsd o) zero && match recorder o with None => true | _ => false end
  then next
  else
    est ← estimateCost;
    totals ← match readTotals o with
             | Some m => m
             | None => s ← get; mret {| running := getCost s; daily := zero |}
             end;
    let decision := decideCostAction
      {| in_running := running totals; estimate := est; perPrCap := cap;
         in_daily := daily totals; dailyCap := dailyCapUsd o |} in
    match decision with
    | Abort _ runningUsd capUsd | Kill runningUsd capUsd =>
        callOpt (onThresholdCrossed o) (toThresholdEvent decision);;
        recordExceeded (recorder o) (recordContext o) est;;
        throw (Agent (CostExceededError capUsd runningUsd))
    | Fallback =>
        callHint (onFallbackHint o);;
        callOpt (onThresholdCrossed o) (toThresholdEvent decision);;
        guardedCall o cap totals next
    | Proceed => guardedCall o cap totals next
    end.
End guard.
Arguments CostGuardOptions S : clear implicits.

(** The options of the guard the agent installs: only the shared cell. *)
Definition agentGuardOptions {S} : CostGuardOptions S :=
  {| onFallbackHint := None; onThresholdCrossed := None; dailyCapUsd := zero;
     readTotals := None; recorder := None; recordContext := None |}.

(** ** An instrumented world *)

Record costWorld := {
  cw_total : number;
  cw_events : list CostThresholdEvent;
  cw_ledger : list RecordPhaseInput;
  cw_calls : nat;
}.

#[export, refine] Instance costWorld_cell : CostCell costWorld := {
  getCost := cw_total;
  setCost c w := {| cw_total := c; cw_events := cw_events w; cw_ledger := cw_ledger w;
                    cw_calls := cw_calls w |};
}.
Proof. done. Defined.

Section world.
Context (totals : CostTotals) (dailyCapUsd_ : number) (rc : CostGuardRecordContext)
        (cap est : number) (out : result thrown ReviewOutput).

Definition logEvent (e : CostThresholdEvent) : eff costWorld thrown unit :=
  modify (fun w => {| cw_total := cw_total w; cw_events := cw_events w ++ [e];
                      cw_ledger := cw_ledger w; cw_calls := cw_calls w |}).

Definition logRow (r : RecordPhaseInput) : eff costWorld thrown unit :=
  modify (fun w => {| cw_total := cw_total w; cw_events := cw_events w;
                      cw_ledger := cw_ledger w ++ [r]; cw_calls := cw_calls w |}).

(** The provider call, counted; its outcome is [out], a success or a failure. *)
Definition countedCall : eff costWorld thrown ReviewOutput :=
  fun w => (out, {| cw_total := cw_total w; cw_events := cw_events w;
                    cw_ledger := cw_ledger w; cw_calls := S (cw_calls w) |}).

Definition workerOptions : CostGuardOptions costWorld :=
  {| onFallbackHint := None; onThresholdCrossed := Some logEvent;
     dailyCapUsd := dailyCapUsd_; readTotals := Some (mret totals);
     recorder := Some logRow; recordContext := Some rc |}.

Definition emptyWorld : costWorld :=
  {| cw_total := zero; cw_events := []; cw_ledger := []; cw_calls := 0 |}.

Definition workerDecision : CostGuardDecision :=
  decideCostAction {| in_running := running totals; estimate := est; perPrCap := cap;
                      in_daily := daily totals; dailyCap := dailyCapUsd_ |}.

Definition runGuard : result thrown ReviewOutput * costWorld :=
  createCostGuard workerOptions cap (mret est) countedCall emptyWorld.

Definition statuses (w : costWorld) : list CostLedgerStatus := map rp_status (cw_ledger w).

Definition refused (d : CostGuardDecision) : bool :=
  match d with Abort _ _ _ | Kill _ _ => true | _ => false end.

Lemma runGuard_cases :
  runGuard =
  match workerDecision with
  | Abort _ r c | Kill r c =>
      ((callOpt (Some logEvent) (toThresholdEvent workerDecision);;
        recordExceeded (Some logRow) (Some rc) est;;
        throw (Agent (CostExceededError c r))) emptyWorld)
  | Fallback =>
      (callOpt (Some logEvent) (toThresholdEvent Fallback);;
       guardedCall workerOptions cap totals countedCall) emptyWorld
  | Proceed => guardedCall workerOptions cap totals countedCall emptyWorld
  end.
Proof.
  unfold runGuard, createCostGuard. cbn [recorder workerOptions]. rewrite andb_false_r.
  cbn -[decideCostAction]. unfold mbind, eff_bind. cbn -[decideCostAction].
  change (decideCostAction _) with workerDecision. by destruct workerDecision.
Qed.
End world.

(** ** Properties *)

(** Past the daily cap or past the pull request's cap the decision refuses; when it lets the
    call through under a positive cap, neither the running cost nor the projection is over its
    limit, and it says [Fallback] exactly above four fifths of the cap. *)
Theorem decideCostAction_spec i :
  match decideCostAction i with
  | Abort daily_cap r c => ngt c zero = true /\ nge r c = true /\ r = in_daily i /\ c = dailyCap i
  | Abort cost_exceeded r c =>
      ngt r (nmul c ABORT_RATIO) = true /\ r = projected i /\ c = perPrCap i /\ nle c zero = false
  | Kill r c => ngt r (nmul c KILL_RATIO) = true /\ r = in_running i /\ c = perPrCap i
  | Fallback =>
      ngt (projected i) (nmul (perPrCap i) FALLBACK_RATIO) = true /\
      ngt (projected i) (nmul (perPrCap i) ABORT_RATIO) = false /\
      ngt (in_running i) (nmul (perPrCap i) KILL_RATIO) = false
  | Proceed =>
      nle (perPrCap i) zero = true \/
      (ngt (projected i) (nmul (perPrCap i) FALLBACK_RATIO) = false /\
       ngt (projected i) (nmul (perPrCap i) ABORT_RATIO) = false /\
       ngt (in_running i) (nmul (perPrCap i) KILL_RATIO) = false)
  end /\
  (refused (decideCostAction i) = false ->
   ngt (dailyCap i) zero = true -> nge (in_daily i) (dailyCap i) = false).
Proof.
  unfold decideCostAction.
  destruct (ngt (dailyCap i) zero) eqn:E1, (nge (in_daily i) (dailyCap i)) eqn:E2; simpl;
    [by split_and!| | | ];
    (destruct (nle (perPrCap i) zero) eqn:E3; [by auto|]);
    (destruct (ngt (in_running i) _) eqn:E4; [by auto|]);
    (destruct (ngt (projected i) (nmul _ ABORT_RATIO)) eqn:E5; [by auto|]);
    (destruct (ngt (projected i) (nmul _ FALLBACK_RATIO)) eqn:E6; by auto 10).
Qed.

(** The guard with a ledger: a refused review makes no provider call, throws [CostExceededError]
    and leaves one threshold event and one [cost_exceeded] row; otherwise the provider is called
    exactly once. A call that returns leaves exactly one [success] row and its cost in the
    state; the result is handed on only when the total is not over a positive cap, and an
    overrun is thrown after the fact with one more event and row. A call that throws leaves the
    ledger and the cost as they were. *)
Theorem createCostGuard_spec totals dcap rc cap est out :
  let '(r, w) := runGuard totals dcap rc cap est out in
  match workerDecision totals dcap cap est with
  | Abort _ spent limit | Kill spent limit =>
      r = Throw (Agent (CostExceededError limit spent)) /\ cw_calls w = 0 /\
      statuses w = [cost_exceeded_status] /\ length (cw_events w) = 1
  | d =>
      cw_calls w = 1 /\
      match out with
      | Throw e => r = Throw e /\ statuses w = [] /\ cw_total w = zero
      | Ok o =>
          cw_total w = nadd (running totals) (out_costUsd o) /\
          if ngt cap zero && ngt (cw_total w) cap
          then r = Throw (Agent (CostExceededError cap (cw_total w))) /\
               statuses w = [success; cost_exceeded_status]
          else r = Ok o /\ statuses w = [success] /\
               length (cw_events w) = match d with Fallback => 1 | _ => 0 end
      end
  end.
Proof.
  rewrite runGuard_cases. destruct (workerDecision totals dcap cap est);
    [| |by cbn..]; destruct out as [o|e]; try (cbn; done);
    unfold guardedCall, mbind, eff_bind; cbn -[ngt nadd nmul];
    destruct (ngt cap zero), (ngt (nadd (running totals) (out_costUsd o)) cap) eqn:E;
    cbn -[ngt nadd nmul]; by rewrite ?E.
Qed.
