(* ===== verification/Tools.v ===== *)
(** * The workspace tools (runner/src/tools.ts)

    [read_file], [glob] and [grep], the tools the model may call: path resolution inside the
    workspace, the deny list, the tree walks and the dispatcher.  The file system is a tree whose
    symbolic links hold the node they lead to; [lstat] sees the link, reading a file follows it.
    The regular expression of [grep] is compiled by the platform: it is the parameter
    [newRegExp]; [emDash] is a character outside the model's range.  The workspace path is absolute and leads to the directory [root]. *)

From S2P Require Import Prelude Regex Glob.

(** ** Files *)

Inductive fsCode := ENOENT | EACCES | EPERM | EISDIR | OtherCode (code : str).

Inductive node :=
  | File (content : result fsCode str)
  | Dir (error : option fsCode) (entries : list (str * node))
  | Symlink (target : node)
  | Special.

Inductive toolError := ToolDispatchRefused (toolName reason : str) | FsError (code : fsCode).

Fixpoint lookupEntry (name : str) (entries : list (str * node)) : option node :=
  match entries with
  | [] => None
  | (n, x) :: rest => if bool_decide (n = name) then Some x else lookupEntry name rest
  end.

(** The node a sequence of names leads to, links not followed. *)
Fixpoint lookupNode (n : node) (segs : list str) : option node :=
  match segs with
  | [] => Some n
  | s :: rest =>
      match n with
      | Dir _ entries => x ← lookupEntry s entries; lookupNode x rest
      | _ => None
      end
  end.

(** [lstat(p)] says the node is a link; a failing [lstat] is [null]. *)
Definition lstatLink (root : node) (segs : list str) : bool :=
  match lookupNode root segs with Some (Symlink _) => true | _ => false end.

(** The same walk, links followed. *)
Fixpoint deref (n : node) : node := match n with Symlink t => deref t | _ => n end.

Fixpoint followNode (n : node) (segs : list str) : option node :=
  match segs with
  | [] => Some (deref n)
  | s :: rest =>
      match deref n with
      | Dir _ entries => x ← lookupEntry s entries; followNode x rest
      | _ => None
      end
  end.

(** Why a path leads nowhere: a name is missing, or the path goes through what is no directory. *)
Fixpoint missing (n : node) (segs : list str) : fsCode :=
  match segs with
  | [] => ENOENT
  | s :: rest =>
      match deref n with
      | Dir _ entries => match lookupEntry s entries with Some x => missing x rest | None => ENOENT end
      | _ => OtherCode "ENOTDIR"
      end
  end.

Definition readFile (root : node) (segs : list str) : result fsCode str :=
  match followNode root segs with
  | Some (File c) => c
  | Some (Dir _ _) => Throw EISDIR
  | Some _ => Throw (OtherCode "EINVAL")
  | None => Throw (missing root segs)
  end.

(** ** Paths (node:path, POSIX) *)

Definition slash : ascii := "/"%char.

(** The segments of an absolute path, [..] and [.] resolved; [stack] holds them reversed. *)
Fixpoint normSegs (stack segs : list str) : list str :=
  match segs with
  | [] => rev stack
  | s :: rest =>
      if bool_decide (s = []) || bool_decide (s = js ".") then normSegs stack rest
      else if bool_decide (s = js "..") then normSegs (tail stack) rest
      else normSegs (s :: stack) rest
  end.

Definition isAbsolute (p : str) : bool := startsWith p "/".

(** [path.resolve(workspace, requested)], as segments. *)
Definition resolve (workspace requested : str) : list str :=
  normSegs [] (if isAbsolute requested then splitChar slash requested
               else splitChar slash workspace ++ splitChar slash requested).

(** [path.relative(from, to)], as segments. *)
Fixpoint relSegs (from to : list str) : list str :=
  match from, to with
  | [], _ => to
  | a :: from', b :: to' =>
      if bool_decide (a = b) then relSegs from' to' else repeat (js "..") (length from) ++ to
  | _ :: _, [] => repeat (js "..") (length from)
  end.

Definition pathOf (segs : list str) : str := join "/" segs.

Definition relative (workspace : str) (absolute : list str) : str :=
  pathOf (relSegs (normSegs [] (splitChar slash workspace)) absolute).

(** ** The deny list *)

(** [(^|\/)r] tested anywhere, [r] reaching the end of the path or a slash. *)
Definition atSegment (r : re) : re := Cat (Alt Eps (Cat anything (chr "/"))) r.
Definition segmentEnd : re := Alt Eps (Cat (chr "/") anything).

Definition DENY_PATTERNS : list re := [
  atSegment (Cat (lit ".env") (opt (Cat (chr ".") (Star dot))));
  atSegment (Cat (litI "secret") (Cat (opt (chrI "s")) segmentEnd));
  atSegment (Cat (litI "private") segmentEnd);
  atSegment (Cat (litI "credential") (Cat (opt (chrI "s")) segmentEnd));
  Cat anything (Cat (chr ".") (alts [litI "key"; litI "pem"; litI "p12"; litI "pfx"]));
  Cat anything (Cat (litI "credentials") (Cat (Star dot) (litI ".json")));
  Cat anything (Cat (litI "service-account") (Cat (Star dot) (litI ".json")));
  lit ".aws/credentials" ].

Definition denied (patterns : list re) (rel : str) : bool :=
  existsb (fun p => matches p rel) patterns.

Definition read_file_refused {A} (reason : str) : result toolError A :=
  Throw (ToolDispatchRefused "read_file" reason).

Definition checkDenyList (rel : str) (patterns : list re) : result toolError unit :=
  if denied patterns rel then read_file_refused ("path matches deny-list: '" ++ rel ++ "'")
  else Ok tt.

(** The loop over the segments: [cursor] is relative to the workspace. *)
Fixpoint checkSymlinks (root : node) (rel : str) (cursor segments : list str)
    : result toolError unit :=
  match segments with
  | [] => Ok tt
  | segment :: rest =>
      match segment with
      | [] => checkSymlinks root rel cursor rest
      | _ =>
          let cursor' := cursor ++ [segment] in
          if lstatLink root cursor'
          then read_file_refused ("path traverses a symlink: '" ++ rel ++ "'")
          else checkSymlinks root rel cursor' rest
      end
  end.

Definition quoted (s : str) : str := "'" ++ s ++ "'".

(** The answer is the path's segments below the workspace. *)
Definition resolveSafePath (workspace requested : str) (root : node) (denyPatterns : list re)
    : result toolError (list str) :=
  match requested with
  | [] => read_file_refused "empty path"
  | _ =>
      if bool_decide (NUL_BYTE ∈ requested) then read_file_refused "path contains NUL byte"
      else if isAbsolute requested then read_file_refused ("absolute path: " ++ quoted requested)
      else if startsWith requested "~" then
        read_file_refused ("home-expanded path: " ++ quoted requested)
      else
        let absolute := resolve workspace requested in
        let rel := relative workspace absolute in
        if startsWith rel ".." || isAbsolute rel then
          read_file_refused ("path escapes workspace: " ++ quoted requested)
        else
          _ ← checkDenyList rel denyPatterns;
          _ ← checkSymlinks root rel [] (splitChar slash rel);
          Ok (relSegs (normSegs [] (splitChar slash workspace)) absolute)
  end.

(** ** The tools *)

Definition MAX_FILE_SIZE : Z := 1000000.
Definition MAX_GREP_PATTERN_LENGTH : nat := 200.

Definition fsResult {A} (r : result fsCode A) : result toolError A :=
  match r with Ok a => Ok a | Throw c => Throw (FsError c) end.

Definition truncated (content : str) : str :=
  if (MAX_FILE_SIZE <? Zlen content)%Z
  then take (Z.to_nat MAX_FILE_SIZE) content ++ nl ++ "[...truncated at 1000000 chars]"
  else content.

Definition childPath (rel name : str) : str :=
  match rel with [] => name | _ => rel ++ "/" ++ name end.

(** [walk]: the directory [n] stands at [rel]; an unreadable one has no entries. *)
Fixpoint walk (denyPatterns : list re) (matcher : re) (rel : str) (n : node) : list str :=
  match n with
  | Dir None entries =>
      flat_map (fun e : str * node =>
        let (name, child) := e in
        let r := childPath rel name in
        if denied denyPatterns r then []
        else match child with
             | Dir _ _ => walk denyPatterns matcher r child
             | File _ => if matches matcher r then [r] else []
             | _ => []
             end) entries
  | _ => []
  end.

Definition codeName (c : fsCode) : str :=
  match c with
  | ENOENT => "ENOENT" | EACCES => "EACCES" | EPERM => "EPERM" | EISDIR => "EISDIR"
  | OtherCode s => s
  end.

(** The matching lines of a text, numbered from [i]. *)
Fixpoint grepLines (test : str -> bool) (rel : str) (i : nat) (lines : list str) : list str :=
  match lines with
  | [] => []
  | l :: ls =>
      (if test l then [rel ++ ":" ++ showN i ++ ": " ++ l] else []) ++ grepLines test rel (S i) ls
  end.

Definition grepFile (test : str -> bool) (rel : str) (content : result fsCode str)
    : result fsCode (list str) :=
  match content with
  | Ok text => Ok (grepLines test rel 1 (splitChar newline text))
  | Throw (ENOENT | EISDIR) => Ok []
  | Throw ((EACCES | EPERM) as c) => Ok [rel ++ ":0: [unreadable file: " ++ codeName c ++ "]"]
  | Throw c => Throw c
  end.

(** [out] grows entry by entry; an error ends the whole search. *)
Definition appendResult (a b : result fsCode (list str)) : result fsCode (list str) :=
  x ← a; y ← b; Ok (x ++ y).

Fixpoint walkAll (denyPatterns : list re) (test : str -> bool) (rel : str) (n : node)
    : result fsCode (list str) :=
  match n with
  | Dir None entries =>
      foldr (fun (e : str * node) acc =>
        let (name, child) := e in
        let r := childPath rel name in
        appendResult
          (if denied denyPatterns r then Ok []
           else match child with
                | Dir _ _ => walkAll denyPatterns test r child
                | File content => grepFile test r content
                | _ => Ok []
                end) acc) (Ok []) entries
  | Dir (Some ENOENT) _ => Ok []
  | Dir (Some ((EACCES | EPERM) as c)) _ =>
      Ok [(match rel with [] => js "." | _ => rel end) ++ ":0: [unreadable directory: "
          ++ codeName c ++ "]"]
  | Dir (Some c) _ => Throw c
  | _ => Throw (OtherCode "ENOTDIR")
  end.

(** A directory that is not there is skipped like one that went away. *)
Definition grepInDir (scope : result fsCode node) (test : str -> bool) (denyPatterns : list re)
    : result fsCode (list str) :=
  match scope with
  | Ok n => walkAll denyPatterns test [] n
  | Throw ENOENT => Ok []
  | Throw c => Throw c
  end.

Section tools.
Context (newRegExp : str -> option (str -> bool)) (emDash : str).
Context (workspace : str) (root : node) (denyPatterns : list re).

Definition effectiveDeny : list re := DENY_PATTERNS ++ denyPatterns.

Definition read_file (requested : str) : result toolError str :=
  absolute ← resolveSafePath workspace requested root effectiveDeny;
  content ← fsResult (readFile root absolute);
  Ok (truncated content).

Definition glob (pattern : str) : result toolError (list str) :=
  match pattern with
  | [] => Throw (ToolDispatchRefused "glob" "empty pattern")
  | _ =>
      if includes pattern ".." then
        Throw (ToolDispatchRefused "glob" ("traversal pattern: " ++ quoted pattern))
      else match patternToRegExp pattern with
           | Ok matcher => Ok (walk effectiveDeny matcher [] root)
           | Throw _ => Throw (FsError (OtherCode "SyntaxError"))
           end
  end.

Definition grep (pattern : str) (scope : option str) : result toolError (list str) :=
  match pattern with
  | [] => Throw (ToolDispatchRefused "grep" "empty pattern")
  | _ =>
      if (MAX_GREP_PATTERN_LENGTH <? length pattern)%nat then
        Throw (ToolDispatchRefused "grep" ("pattern too long (max 200 chars) " ++ emDash ++ " defends against ReDoS"))
      else match newRegExp pattern with
           | None => Throw (ToolDispatchRefused "grep" ("invalid regex: " ++ quoted pattern))
           | Some test =>
               target ← match scope with
                        | Some ((_ :: _) as p) =>
                            segs ← resolveSafePath workspace p root effectiveDeny;
                            Ok match lookupNode root segs with
                               | Some n => Ok n
                               | None => Throw (missing root segs)
                               end
                        | _ => Ok (Ok root)
                        end;
               fsResult (grepInDir target test effectiveDeny)
           end
  end.

(** ** The dispatcher *)

(** The properties of the argument object the tools read. *)
Record ToolArgs := { arg_path : option str; arg_pattern : option str }.

Inductive ToolOutput := Text (s : str) | Lines (l : list str).

Definition TOOL_NAMES : list str := [js "read_file"; js "glob"; js "grep"].

(** [args] is [None] when the argument is not an object; an absent property is falsy like the
    empty string. *)
Definition dispatchTool (name : str) (args : option ToolArgs) : result toolError ToolOutput :=
  if negb (bool_decide (name ∈ TOOL_NAMES)) then
    Throw (ToolDispatchRefused name "tool not in whitelist")
  else match args with
       | None => Throw (ToolDispatchRefused name "invalid args (must be object)")
       | Some a =>
           if bool_decide (name = "read_file") then
             s ← read_file (default [] (arg_path a)); Ok (Text s)
           else if bool_decide (name = "glob") then
             l ← glob (default [] (arg_pattern a)); Ok (Lines l)
           else l ← grep (default [] (arg_pattern a)) (arg_path a); Ok (Lines l)
       end.

(** A tool of [createAiSdkToolset]: [onCall] runs before the dispatch, whatever it answers. *)
Definition execute {S} (onCall : option (str -> eff S toolError unit)) (name : str)
    (args : ToolArgs) : eff S toolError ToolOutput :=
  callOpt onCall name;; lift (dispatchTool name (Some args)).
End tools.

(** [MAX_TOOL_CALLS]: the steps of the agent loop. *)
Definition MAX_TOOL_CALLS : Z := 20.

(** ** Paths stay below the workspace *)

(** A proper segment: what [normSegs] keeps. *)
Definition seg_ok (s : str) : Prop := s <> [] /\ s <> js "." /\ s <> js ".." /\ slash ∉ s.

Lemma normSegs_ok stack segs :
  Forall seg_ok stack -> Forall (fun s => slash ∉ s) segs -> Forall seg_ok (normSegs stack segs).
Proof.
  revert stack. induction segs as [|s segs IH]; intros stack Hst Hs; cbn [normSegs].
  { rewrite Forall_forall in *. setoid_rewrite list_elem_of_In. setoid_rewrite <- in_rev.
    setoid_rewrite <- list_elem_of_In. done. }
  inv Hs. case_bool_decide; [by apply IH|]. cbn [orb]. case_bool_decide; [by apply IH|]. cbn [orb].
  case_bool_decide; apply IH; try done.
  - destruct Hst; [constructor|done].
  - by constructor.
Qed.

Lemma resolve_ok workspace requested : Forall seg_ok (resolve workspace requested).
Proof.
  apply normSegs_ok; [constructor|].
  destruct (isAbsolute requested); [apply splitChar_pieces|].
  apply Forall_app. split; apply splitChar_pieces.
Qed.

Lemma pathOf_cons_startsWith s segs p :
  slash ∉ p -> startsWith s p = true -> startsWith (pathOf (s :: segs)) p = true.
Proof.
  intros _ [t ->]%startsWith_spec. unfold pathOf. destruct segs as [|x segs]; cbn [join].
  - apply startsWith_app.
  - rewrite <- app_assoc. apply startsWith_app.
Qed.

(** A relative path that does not start with [..] goes down from the workspace. *)
Lemma relSegs_below from to :
  startsWith (pathOf (relSegs from to)) ".." = false -> to = from ++ relSegs from to.
Proof.
  revert to. induction from as [|a from IH]; intros [|b to] H; cbn [relSegs app] in *; try done.
  { cbn [length repeat] in H. by rewrite pathOf_cons_startsWith in H by (done || not_in). }
  case_bool_decide as Hab; [subst b; f_equal; by apply IH|].
  cbn [length repeat app] in H. by rewrite pathOf_cons_startsWith in H by (done || not_in).
Qed.

Lemma split_pathOf segs :
  segs <> [] -> Forall seg_ok segs -> splitChar slash (pathOf segs) = segs.
Proof.
  intros Hne H. apply (splitChar_join slash); [done|].
  eapply Forall_impl; [exact H|]. by intros s (_ & _ & _ & ?).
Qed.

(** ** Links *)

Definition isLink (n : node) : bool := match n with Symlink _ => true | _ => false end.

Lemma deref_nolink n : isLink n = false -> deref n = n.
Proof. by destruct n. Qed.

Lemma lookupNode_app n a b : lookupNode n (a ++ b) = (x ← lookupNode n a; lookupNode x b).
Proof.
  revert n. induction a as [|s a IH]; intros n; [done|]. simpl.
  destruct n as [|err entries| |]; try done. destruct (lookupEntry s entries); [|done]. apply IH.
Qed.

Lemma checkSymlinks_follow root rel cursor segs n :
  Forall (fun s => s <> []) segs -> lookupNode root cursor = Some n -> isLink n = false ->
  checkSymlinks root rel cursor segs = Ok tt -> followNode n segs = lookupNode n segs.
Proof.
  intros Hne. revert cursor n. induction Hne as [|s segs Hs Hne IH]; intros cursor n Hc Hl H.
  { simpl. by rewrite deref_nolink. }
  simpl in *. rewrite deref_nolink by done. destruct n as [|err entries| |]; try done.
  destruct (lookupEntry s entries) as [x|] eqn:Ex; [|done]. simpl.
  destruct s as [|c s]; [done|]. unfold lstatLink in H.
  assert (lookupNode root (cursor ++ [c :: s]) = Some x) as Hx.
  { rewrite lookupNode_app, Hc. simpl. by rewrite Ex. }
  rewrite Hx in H. destruct x; try done; by apply (IH (cursor ++ [c :: s])).
Qed.

Lemma resolveSafePath_ok workspace requested root deny segs :
  resolveSafePath workspace requested root deny = Ok segs ->
  Forall seg_ok segs /\ denied deny (pathOf segs) = false /\
  resolve workspace requested = normSegs [] (splitChar slash workspace) ++ segs /\
  isAbsolute requested = false /\
  (isLink root = false -> followNode root segs = lookupNode root segs).
Proof.
  unfold resolveSafePath. destruct requested as [|c r]; [done|]. set (req := c :: r).
  case_bool_decide; [done|]. destruct (isAbsolute req) eqn:Ea; [done|].
  destruct (startsWith req "~"); [done|]. destruct (_ || _) eqn:E; [done|].
  apply orb_false_iff in E as [Edots _]. unfold relative in *.
  set (from := normSegs [] (splitChar slash workspace)) in *.
  pose proof (relSegs_below from _ Edots) as Hbelow.
  set (segs' := relSegs from (resolve workspace req)) in *.
  unfold checkDenyList. destruct (denied deny (pathOf segs')) eqn:Ed; [done|]. cbn.
  destruct (checkSymlinks _ _ _ _) eqn:El; [|done]. cbn. intros [= <-].
  assert (Forall seg_ok segs') as Hok.
  { pose proof (resolve_ok workspace req) as H'. rewrite Hbelow in H'.
    by apply Forall_app in H' as [_ ?]. }
  split_and!; [done..|]. intros Hl. destruct (decide (segs' = [])) as [->|Hne].
  { simpl. by rewrite deref_nolink. }
  rewrite split_pathOf in El by done. destruct a.
  apply (checkSymlinks_follow root (pathOf segs') [] segs' root); [|done..].
  eapply Forall_impl; [exact Hok|]. by intros s (? & _).
Qed.

(** ** What the walks see *)

(** The nodes a walk reaches from a directory at [rel]: through readable directories, past the
    deny list at every step, no link followed. *)
Inductive visible (deny : list re) : str -> node -> str -> node -> Prop :=
  | v_entry rel entries name child :
      (name, child) ∈ entries -> denied deny (childPath rel name) = false ->
      visible deny rel (Dir None entries) (childPath rel name) child
  | v_deep rel entries name err sub r n :
      (name, Dir err sub) ∈ entries -> denied deny (childPath rel name) = false ->
      visible deny (childPath rel name) (Dir err sub) r n ->
      visible deny rel (Dir None entries) r n.

Lemma visible_allowed deny rel n r x : visible deny rel n r x -> denied deny r = false.
Proof. by induction 1. Qed.

Lemma visible_inv deny rel entries r x :
  visible deny rel (Dir None entries) r x ->
  exists name child, (name, child) ∈ entries /\ denied deny (childPath rel name) = false /\
    ((r = childPath rel name /\ x = child) \/
     exists err sub, child = Dir err sub /\ visible deny (childPath rel name) (Dir err sub) r x).
Proof. intros H. inv H; eauto 10. Qed.

Section node_ind.
Context (P : node -> Prop).
Hypothesis (HFile : forall c, P (File c)) (HLink : forall n, P (Symlink n)) (HSpec : P Special).
Hypothesis (HDir : forall err entries, Forall (fun e : str * node => P e.2) entries ->
                   P (Dir err entries)).

(** Induction over the tree, with the hypothesis for every entry of a directory. *)
Fixpoint node_tree_ind (n : node) : P n :=
  match n with
  | File c => HFile c
  | Symlink t => HLink t
  | Special => HSpec
  | Dir err entries =>
      HDir err entries
        ((fix go (l : list (str * node)) : Forall (fun e : str * node => P e.2) l :=
            match l with
            | [] => @List.Forall_nil _ _
            | e :: l' => @List.Forall_cons _ _ e l' (node_tree_ind (snd e)) (go l')
            end) entries)
  end.
End node_ind.

Lemma walk_elem deny m n : forall rel r,
  r ∈ walk deny m rel n <->
  exists c, visible deny rel n r (File c) /\ matches m r = true.
Proof.
  induction n as [c|t| |err entries IH] using node_tree_ind; intros rel r; simpl.
  1-3: split; [intros []%elem_of_nil|intros (c' & H & _); by inv H].
  destruct err as [e|]; [split; [intros []%elem_of_nil|intros (c' & H & _); by inv H]|].
  rewrite list_elem_of_In, in_flat_map. setoid_rewrite <- list_elem_of_In.
  rewrite Forall_forall in IH. split.
  - intros ([name child] & He & Hr). destruct (denied deny _) eqn:Ed; [by apply elem_of_nil in Hr|].
    destruct child as [c|err sub| |]; try (by apply elem_of_nil in Hr).
    + destruct (matches m _) eqn:Em; [|by apply elem_of_nil in Hr].
      apply list_elem_of_singleton in Hr as ->. exists c. split; [|done]. by constructor.
    + apply (IH _ He) in Hr as (c & Hv & Hm). exists c. split; [|done].
      by eapply v_deep.
  - intros (c & Hv & Hm). apply visible_inv in Hv as (name & child & Hin & Hd & Hv).
    exists (name, child). split; [done|]. rewrite Hd. destruct Hv as [[-> <-]|(err & sub & -> & Hv)].
    + rewrite Hm. by left.
    + apply (IH _ Hin). eauto.
Qed.

(** A line [grep] prints comes from a visible file, or reports a visible node it could not
    read. *)
Lemma grepLines_elem test rel i lines o :
  o ∈ grepLines test rel i lines ->
  exists k l, l ∈ lines /\ test l = true /\ o = rel ++ ":" ++ showN k ++ ": " ++ l.
Proof.
  revert i. induction lines as [|l lines IH]; intros i; simpl; [by intros []%elem_of_nil|].
  intros [H|H]%elem_of_app.
  - destruct (test l) eqn:E; [|by apply elem_of_nil in H].
    apply list_elem_of_singleton in H as ->. exists i, l. split; [left|done].
  - destruct (IH (S i) H) as (k & l' & ? & ? & ->). exists k, l'. split; [by right|done].
Qed.

(** The file a line of output names: the visible path it starts with. *)
Definition from_file (deny : list re) (rel : str) (n : node) (test : str -> bool) (o : str) : Prop :=
  exists r text k l, visible deny rel n r (File (Ok text)) /\ l ∈ splitChar newline text /\
    test l = true /\ o = r ++ ":" ++ showN k ++ ": " ++ l.

Definition marker_of (o : str) : Prop := includes o ":0: [unreadable " = true.

Lemma includes_suffix a b p : startsWith b p = true -> includes (a ++ b) p = true.
Proof.
  intros [t ->]%startsWith_spec. apply includes_spec. by exists a, t.
Qed.

Lemma grepFile_elem test r content l o :
  grepFile test r content = Ok l -> o ∈ l ->
  (exists text k x, content = Ok text /\ x ∈ splitChar newline text /\ test x = true /\
     o = r ++ ":" ++ showN k ++ ": " ++ x) \/ marker_of o.
Proof.
  unfold grepFile. destruct content as [text|[]]; intros [= <-] H; try (by apply elem_of_nil in H).
  - apply grepLines_elem in H as (k & x & ? & ? & ->). left. eauto 10.
  - apply list_elem_of_singleton in H as ->. right. by apply includes_suffix.
  - apply list_elem_of_singleton in H as ->. right. by apply includes_suffix.
Qed.

Lemma appendResult_ok a b l :
  appendResult a b = Ok l -> exists x y, a = Ok x /\ b = Ok y /\ l = x ++ y.
Proof.
  unfold appendResult. destruct a as [x|]; [|done]. destruct b as [y|]; [|done].
  intros [= <-]. eauto.
Qed.

Lemma walkAll_elem deny test n : forall rel l o,
  walkAll deny test rel n = Ok l -> o ∈ l -> from_file deny rel n test o \/ marker_of o.
Proof.
  induction n as [c|t| |err entries IH] using node_tree_ind; intros rel l o; simpl; try done.
  destruct err as [[]|]; try done; try (intros [= <-] []%elem_of_nil);
    try (intros [= <-] ->%list_elem_of_singleton; right; by apply includes_suffix).
  enough (forall es l', es ⊆ entries ->
    foldr (fun (e : str * node) acc =>
        let (name, child) := e in
        let r := childPath rel name in
        appendResult
          (if denied deny r then Ok []
           else match child with
                | Dir _ _ => walkAll deny test r child
                | File content => grepFile test r content
                | _ => Ok []
                end) acc) (Ok []) es = Ok l' -> o ∈ l' ->
      from_file deny rel (Dir None entries) test o \/ marker_of o) as H by (intros; by eapply H).
  rewrite Forall_forall in IH.
  induction es as [|[name child] es IHes]; intros l' Hsub; simpl; [intros [= <-] []%elem_of_nil|].
  intros (x & y & Hx & Hy & ->)%appendResult_ok [Ho|Ho]%elem_of_app;
    [|eapply IHes; [|exact Hy|exact Ho]; set_solver].
  assert ((name, child) ∈ entries) as Hin by set_solver.
  destruct (denied deny (childPath rel name)) eqn:Ed; [injection Hx as <-; by apply elem_of_nil in Ho|].
  destruct child as [c|err sub| |]; try (injection Hx as <-; by apply elem_of_nil in Ho).
  - destruct (grepFile_elem _ _ _ _ _ Hx Ho) as [(text & k & z & -> & ? & ? & ->)|?]; [left|by right].
    exists (childPath rel name), text, k, z. split_and!; [by constructor|done..].
  - destruct (IH _ Hin _ _ _ Hx Ho) as [(r & text & k & z & ? & ?)|?]; [left|by right].
    exists r, text, k, z. split; [by eapply v_deep|done].
Qed.

Lemma truncated_length content : (Zlen (truncated content) <= 1000000 + 32)%Z.
Proof.
  unfold truncated. destruct (MAX_FILE_SIZE <? Zlen content)%Z eqn:Hc; to_prop;
    [|unfold MAX_FILE_SIZE in Hc; lia].
  unfold Zlen. rewrite length_app, length_take, Nat2Z.inj_add, Nat2Z.inj_min, Z2Nat.id by done.
  unfold MAX_FILE_SIZE. change (Z.of_nat (length (nl ++ _))) with 32%Z. lia.
Qed.

(** ** Properties *)

(** C17. What [read_file] returns is a regular file of the workspace: the path resolves below the
    workspace through directories only (no link anywhere on the way), matches no deny pattern,
    built in or the operator's, and the text is the file's, cut at the cap with a marker. *)
Theorem read_file_confined workspace root deny requested s :
  isLink root = false -> read_file workspace root deny requested = Ok s ->
  exists segs content,
    Forall seg_ok segs /\
    resolve workspace requested = normSegs [] (splitChar slash workspace) ++ segs /\
    lookupNode root segs = Some (File (Ok content)) /\
    denied DENY_PATTERNS (pathOf segs) = false /\ denied deny (pathOf segs) = false /\
    s = truncated content /\ (Zlen s <= 1000000 + 32)%Z.
Proof.
  intros Hl. unfold read_file. destruct (resolveSafePath _ _ _ _) as [segs|] eqn:E; [|done].
  apply resolveSafePath_ok in E as (Hok & Hd & Hr & _ & Hf). specialize (Hf Hl). cbn.
  unfold readFile. rewrite Hf. destruct (lookupNode root segs) as [[[c|]| | |]|] eqn:En; try done.
  cbn. intros [= <-]. exists segs, c.
  unfold effectiveDeny, denied in *. rewrite existsb_app in Hd. apply orb_false_iff in Hd as [? ?].
  split_and!; [done..|]. apply truncated_length.
Qed.

Definition demoTree : node :=
  Dir None [ (js "src", Dir None [ (js "a.ts", File (Ok (js "let key")));
                                   (js "env", Symlink (File (Ok (js "TOKEN")))) ]);
             (js ".env", File (Ok (js "TOKEN")));
             (js "config", Dir None [ (js "db.yml", File (Ok (js "password: x"))) ]) ].

Lemma read_file_confined_witness :
  exists segs content,
    Forall seg_ok segs /\
    resolve "/work" "lib/../src/./a.ts" = normSegs [] (splitChar slash "/work") ++ segs /\
    lookupNode demoTree segs = Some (File (Ok content)) /\
    denied DENY_PATTERNS (pathOf segs) = false /\ denied [] (pathOf segs) = false /\
    js "let key" = truncated content /\ (Zlen ("let key" : str) <= 1000000 + 32)%Z.
Proof.
  apply (read_file_confined "/work" demoTree [] "lib/../src/./a.ts" "let key").
  - reflexivity.
  - vm_compute. reflexivity.
Defined.

(** Operators extend the deny list, they never relax it: whatever the operator's patterns, a path
    a built-in pattern matches is refused by [read_file] and absent from [glob], and an answer
    under more patterns is an answer under fewer. *)
Theorem deny_never_relaxed newRegExp emDash workspace root deny more requested pattern :
  (forall s, read_file workspace root (deny ++ more) requested = Ok s ->
     read_file workspace root deny requested = Ok s) /\
  (forall out, glob root deny pattern = Ok out ->
     forall r, r ∈ out -> denied DENY_PATTERNS r = false) /\
  (forall out out', glob root (deny ++ more) pattern = Ok out -> glob root deny pattern = Ok out' ->
     out ⊆ out') /\
  (forall segs, resolveSafePath workspace requested root (effectiveDeny deny) = Ok segs ->
     denied DENY_PATTERNS (pathOf segs) = false) /\
  (forall test out, newRegExp pattern = Some test ->
     grep newRegExp emDash workspace root deny pattern None = Ok out ->
     forall o, o ∈ out -> from_file (effectiveDeny deny) [] root test o \/ marker_of o).
Proof.
  assert (forall r, denied (effectiveDeny deny) r = false -> denied DENY_PATTERNS r = false) as Hb.
  { intros r. unfold effectiveDeny, denied. rewrite existsb_app. by intros [? _]%orb_false_iff. }
  assert (forall r, denied (effectiveDeny (deny ++ more)) r = false ->
    denied (effectiveDeny deny) r = false) as Hm.
  { intros r. unfold effectiveDeny, denied. rewrite !existsb_app, !orb_false_iff. naive_solver. }
  split_and!.
  - intros s. unfold read_file.
    destruct (resolveSafePath workspace requested root (effectiveDeny (deny ++ more))) as [segs|] eqn:E; [|done].
    assert (resolveSafePath workspace requested root (effectiveDeny deny) = Ok segs) as ->; [|done].
    revert E. unfold resolveSafePath, checkDenyList. destruct requested; [done|].
    case_bool_decide; [done|]. destruct (isAbsolute _); [done|].
    destruct (startsWith _ "~"); [done|]. destruct (_ || _); [done|].
    destruct (denied (effectiveDeny (deny ++ more)) _) eqn:Ed; [done|]. by rewrite (Hm _ Ed).
  - unfold glob. destruct pattern; [done|]. destruct (includes _ _); [done|].
    destruct (patternToRegExp _); [|done]. intros out [= <-] r (c & Hv & _)%walk_elem.
    by apply Hb, visible_allowed in Hv || by eapply Hb, visible_allowed.
  - unfold glob. destruct pattern; [done|]. destruct (includes _ _); [done|].
    destruct (patternToRegExp _) as [m|]; [|done]. intros out out' [= <-] [= <-] r.
    rewrite !walk_elem. intros (c & Hv & Hr). exists c. split; [|done].
    clear Hr. revert Hv. generalize (File c). intros x Hv.
    induction Hv; [constructor|eapply v_deep]; eauto.
  - intros segs (_ & Hd & _)%resolveSafePath_ok. by apply Hb.
  - intros test out Ht. unfold grep. destruct pattern; [done|]. destruct (_ <? _)%nat; [done|].
    rewrite Ht. cbn. destruct (walkAll _ _ _ _) as [l|] eqn:E; [|done]. intros [= <-] o Ho.
    by eapply walkAll_elem.
Qed.

(** [glob] lists exactly the visible regular files whose path the translated pattern matches. *)
Theorem glob_spec root deny pattern m :
  pattern <> [] -> includes pattern ".." = false -> patternToRegExp pattern = Ok m ->
  exists out, glob root deny pattern = Ok out /\
  forall r, r ∈ out <->
    exists c, visible (effectiveDeny deny) [] root r (File c) /\ lang m r.
Proof.
  intros Hp Hd Hm. unfold glob. destruct pattern as [|c p]; [done|]. rewrite Hd, Hm.
  eexists. split; [reflexivity|]. intros r. rewrite walk_elem. by setoid_rewrite matches_spec.
Qed.

Lemma glob_spec_witness :
  exists m out, patternToRegExp "src/*.ts" = Ok m /\ glob demoTree [] "src/*.ts" = Ok out /\
    forall r, r ∈ out <->
      exists c, visible (effectiveDeny []) [] demoTree r (File c) /\ lang m r.
Proof.
  destruct (patternToRegExp "src/*.ts") as [m|] eqn:E; [|vm_compute in E; discriminate E].
  destruct (glob_spec demoTree [] "src/*.ts" m) as (out & H1 & H2);
    [done|vm_compute; reflexivity|exact E|]. exists m, out. auto.
Defined.

Definition denyConfig : list re :=
  match globToRegExp "config/**" with Ok r => [r] | Throw _ => [] end.

(** A scoped [grep] tests the deny patterns on paths relative to its scope: the operator's
    [config/**] keeps [config/db.yml] from [read_file] and from an unscoped [grep], and not from
    a [grep] scoped to [config]. *)
Theorem grep_scope_escapes_deny :
  let re_ := fun p : str => Some (fun l : str => includes l p) in
  read_file "/w" demoTree denyConfig "config/db.yml" =
    Throw (ToolDispatchRefused "read_file" "path matches deny-list: 'config/db.yml'") /\
  grep re_ "--" "/w" demoTree denyConfig "password" None = Ok [] /\
  grep re_ "--" "/w" demoTree denyConfig "password" (Some (js "config")) = Ok [js "db.yml:1: password: x"].
Proof. vm_compute. done. Qed.
