(* ===== verification/Workspace.v ===== *)
(** * The worker's workspace (server/src/workspace.ts)

    Before a review the server may fill a temporary directory with the files of the pull request, by
    a sparse clone or file by file. The file system and the platform are the operations of a record
    over a world [W]; [join] and [dirname] are node's. *)

From S2P Require Import Prelude JsNumber Regex Glob Errors Schema Tools.

Inductive WorkspaceStrategy := sparse_clone | contents_api | no_workspace.
Inductive FileStatus := added | modified | renamed | removed_file.
#[export] Instance FileStatus_eq : EqDecision FileStatus.
Proof. solve_decision. Defined.

Record DiffFile := { df_path : str; df_status : FileStatus }.

(** ** The filter of paths *)

(** The eight patterns are the ones of the tool dispatcher. *)
Definition WORKSPACE_DENY_PATTERNS : list re := DENY_PATTERNS.

(** [/(^|\/)\.\.(\/|$)/]: a segment of two dots. *)
Definition traverses (rel : str) : bool := bool_decide (js ".." ∈ splitChar "/" rel).

Definition pathIsAllowed (rel : str) : bool :=
  match rel with
  | [] => false
  | _ =>
      if startsWith rel "/" || startsWith rel "~" || traverses rel || bool_decide (NUL ∈ rel) then false
      else negb (denied WORKSPACE_DENY_PATTERNS rel)
  end.

(** ** Parent directories *)

(** [p.slice(0, p.lastIndexOf('/'))], the root when there is no slash. *)
Definition parentDir (p : str) : str :=
  match indexOf (rev p) "/" with
  | Some i => take (length p - i - 1) p
  | None => js "/"
  end.

Definition uniqueParentDirs (paths : list str) : list str := uniq (map parentDir paths).

(** ** Provisioning *)

Record CloneOptions := {
  co_sparsePaths : option (list str);
  co_submodules : bool;
  co_lfs : bool;
}.

Record ProvisionDeps (W : Type) := {
  mkdtemp : eff W thrown str;
  mkdirFor : str -> eff W thrown unit;
  writeFile : str -> str -> eff W thrown unit;
  rmTree : str -> eff W thrown unit;
  getFile : str -> eff W thrown str;
  cloneRepo : str -> CloneOptions -> eff W thrown unit;
  canClone : bool;
}.
Arguments mkdtemp {W} _.
Arguments mkdirFor {W} _ _.
Arguments writeFile {W} _ _ _.
Arguments rmTree {W} _ _.
Arguments getFile {W} _ _.
Arguments cloneRepo {W} _ _ _.
Arguments canClone {W} _.

Record ProvisionInput := {
  strategy : WorkspaceStrategy;
  files : list DiffFile;
  hint_submodules : bool;
  hint_lfs : bool;
}.

Section provision.
Context {W : Type} (deps : ProvisionDeps W) (join : str -> str -> str) (cloneError : thrown).

Definition sparseClone (input : ProvisionInput) (dir : str) : eff W thrown unit :=
  if negb (canClone deps) then throw cloneError
  else
    let sparsePaths := uniqueParentDirs (map df_path (List.filter (fun f => pathIsAllowed (df_path f)) (files input))) in
    cloneRepo deps dir
      {| co_sparsePaths := match sparsePaths with [] => None | _ => Some sparsePaths end;
         co_submodules := hint_submodules input; co_lfs := hint_lfs input |}.

Fixpoint contentsApiFetch (fs : list DiffFile) (dir : str) : eff W thrown unit :=
  match fs with
  | [] => mret tt
  | f :: rest =>
      if bool_decide (df_status f = removed_file) || negb (pathIsAllowed (df_path f))
      then contentsApiFetch rest dir
      else
        buf ← getFile deps (df_path f);
        let dest := join dir (df_path f) in
        mkdirFor deps dest;;
        writeFile deps dest buf;;
        contentsApiFetch rest dir
  end.

(** The handle: the directory and its [cleaned] flag. *)
Definition cleanup (dir : str) (cleaned : bool) : eff W thrown bool :=
  if cleaned then mret true
  else match dir with [] => mret true | _ => rmTree deps dir;; mret true end.

Definition provisionWorkspace (input : ProvisionInput) : eff W thrown str :=
  match strategy input with
  | no_workspace => mret []
  | s =>
      dir ← mkdtemp deps;
      tryCatch
        (match s with sparse_clone => sparseClone input dir | _ => contentsApiFetch (files input) dir end;;
         mret dir)
        (fun err => cleanup dir false;; throw err)
  end.
End provision.

(** ** A scripted file system *)

Inductive FsOp := Made (dir : str) | Wrote (path content : str) | Removed (dir : str) | Cloned (o : CloneOptions).

Definition scriptedDeps (content : str -> result thrown str) (writes : str -> result thrown unit)
    (clone : result thrown unit) (can : bool) : ProvisionDeps (list FsOp) := {|
  mkdtemp := fun w => (Ok (js "/tmp/review-agent-ws-1"), w ++ [Made "/tmp/review-agent-ws-1"]);
  mkdirFor := fun _ w => (Ok tt, w);
  writeFile := fun p c w =>
    match writes p with Ok _ => (Ok tt, w ++ [Wrote p c]) | Throw e => (Throw e, w) end;
  rmTree := fun d w => (Ok tt, w ++ [Removed d]);
  getFile := fun p w => (content p, w);
  cloneRepo := fun _ o w => (clone, w ++ [Cloned o]);
  canClone := can;
|}.

Definition WS_DIR : str := "/tmp/review-agent-ws-1".

(** *** The files a provisioned directory may hold

    In words of their own: what counts as a secret by its path, and which entries of the diff may be
    written. *)

Definition sameName (a b : str) : Prop := map fold_char a = map fold_char b.
(** What may stand before and after a whole name in a path. *)
Definition nameStarts (before : str) : Prop := before = [] \/ exists b, before = b ++ "/".
Definition nameEnds (after : str) : Prop := after = [] \/ exists a, after = "/" ++ a.
Definition oneLine (s : str) : Prop := "010"%char ∉ s /\ "013"%char ∉ s.

Definition secretPath (p : str) : Prop :=
  (exists before ext, nameStarts before /\
     (p = before ++ ".env" \/ p = before ++ ".env." ++ ext /\ oneLine ext)) \/
  (exists before name after, p = before ++ name ++ after /\ nameStarts before /\ nameEnds after /\
     (sameName name "secret" \/ sameName name "secrets" \/ sameName name "private" \/
      sameName name "credential" \/ sameName name "credentials")) \/
  (exists before ext, p = before ++ "." ++ ext /\
     (sameName ext "key" \/ sameName ext "pem" \/ sameName ext "p12" \/ sameName ext "pfx")) \/
  (exists before name mid ext, p = before ++ name ++ mid ++ ext /\
     (sameName name "credentials" \/ sameName name "service-account") /\ oneLine mid /\
     sameName ext ".json") \/
  p = ".aws/credentials".

Definition mayBeWritten (f : DiffFile) : Prop :=
  df_status f <> removed_file /\ df_path f <> [] /\
  (forall rest, df_path f <> "/" ++ rest) /\ (forall rest, df_path f <> "~" ++ rest) /\
  js ".." ∉ splitChar "/" (df_path f) /\ NUL ∉ df_path f /\ ~ secretPath (df_path f).

Lemma lang_litI t s : lang (litI t) s <-> sameName s t.
Proof.
  unfold sameName. revert s. induction t as [|c t IH]; intros s; simpl.
  - rewrite lang_Eps. by destruct s.
  - rewrite lang_Cat. setoid_rewrite IH. split.
    + intros (u & v & -> & (d & -> & Hd)%lang_Cls & Hv). apply eqc_true in Hd. cbn. by rewrite Hd, Hv.
    + destruct s as [|d s]; [done|]. cbn. intros [= Hd Hs]. exists [d], s. split; [done|].
      split; [|done]. apply lang_Cls. exists d. split; [done|]. by apply eqc_true.
Qed.

Lemma lang_opt r s : lang (opt r) s <-> lang r s \/ s = [].
Proof. unfold opt. by rewrite lang_Alt, lang_Eps. Qed.

Lemma lang_dots s : lang (Star dot) s <-> oneLine s.
Proof.
  unfold dot, oneLine. rewrite lang_Star_Cls, Forall_forall. unfold is_dot. split.
  - intros H. split; intros Hin%H; by rewrite orb_comm in Hin || done.
  - intros [H1 H2] c Hc. destruct (eqc c "010") eqn:E1; [apply eqc_true in E1; congruence|].
    destruct (eqc c "013") eqn:E2; [apply eqc_true in E2; congruence|done].
Qed.

Lemma lang_nameStart s : lang (Alt Eps (Cat anything (chr "/"))) s <-> nameStarts s.
Proof.
  rewrite lang_Alt, lang_Eps, lang_Cat. unfold nameStarts. apply or_iff_compat_l. split.
  - intros (t & u & -> & _ & ->%lang_chr). by exists t.
  - intros (b & ->). exists b, (js "/"). split; [done|]. split; [apply lang_anything|by apply lang_chr].
Qed.

Lemma lang_segmentEnd s : lang segmentEnd s <-> nameEnds s.
Proof.
  unfold segmentEnd, nameEnds. rewrite lang_Alt, lang_Eps, lang_Cat. apply or_iff_compat_l. split.
  - intros (t & u & -> & ->%lang_chr & _). by exists u.
  - intros (a & ->). exists (js "/"), a. split; [done|]. split; [by apply lang_chr|apply lang_anything].
Qed.

Lemma lang_atSegment r s : lang (atSegment r) s <-> exists a t, s = a ++ t /\ nameStarts a /\ lang r t.
Proof. unfold atSegment. rewrite lang_Cat. by setoid_rewrite lang_nameStart. Qed.

Lemma lang_env t :
  lang (Cat (lit ".env") (opt (Cat (chr ".") (Star dot)))) t <->
  exists ext, t = ".env" \/ t = ".env." ++ ext /\ oneLine ext.
Proof.
  rewrite lang_Cat. setoid_rewrite lang_lit. setoid_rewrite lang_opt. setoid_rewrite lang_Cat.
  setoid_rewrite lang_chr. setoid_rewrite lang_dots. split.
  - intros (? & ? & -> & -> & [(? & ext & -> & -> & H)| ->]); [exists ext; by right|exists []; by left].
  - intros (ext & [->|[-> H]]); [exists (js ".env"), []|exists (js ".env"), (js "." ++ ext)];
      (split; [done|]; split; [done|]); [by right|left]. by exists (js "."), ext.
Qed.

Lemma lang_namedSegment r t (name : str -> Prop) : (forall u, lang r u <-> name u) ->
  lang (Cat r segmentEnd) t <-> exists u after, t = u ++ after /\ name u /\ nameEnds after.
Proof. intros H. rewrite lang_Cat. setoid_rewrite H. by setoid_rewrite lang_segmentEnd. Qed.

Lemma sameName_app a b t : sameName t (a ++ b) <-> exists u v, t = u ++ v /\ sameName u a /\ sameName v b.
Proof.
  rewrite <- !lang_litI. setoid_rewrite <- lang_litI. unfold litI. revert t.
  induction a as [|c a IH]; intros t; cbn.
  - setoid_rewrite lang_Eps. split; [intros H; by exists [], t|]. by intros (? & v & -> & -> & H).
  - setoid_rewrite lang_Cat. setoid_rewrite IH. split.
    + intros (x & y & -> & Hx & u & v & -> & Hu & Hv). exists (x ++ u), v. rewrite app_assoc.
      split_and!; [done| |done]. by exists x, u.
    + intros (? & v & -> & (x & u & -> & Hx & Hu) & Hv). exists x, (u ++ v). rewrite app_assoc.
      split_and!; [done..|]. by exists u, v.
Qed.

Lemma lang_plural name t :
  lang (Cat (litI name) (Cat (opt (chrI "s")) segmentEnd)) t <->
  exists u after, t = u ++ after /\ (sameName u name \/ sameName u (name ++ "s")) /\ nameEnds after.
Proof.
  setoid_rewrite sameName_app. rewrite lang_Cat. setoid_rewrite lang_litI. setoid_rewrite lang_Cat.
  setoid_rewrite lang_opt. setoid_rewrite lang_segmentEnd.
  assert (forall u, lang (chrI "s") u <-> sameName u "s") as Hs.
  { intros u. rewrite <- lang_litI. cbn. rewrite lang_Cat. setoid_rewrite lang_Eps. split.
    - intros H. exists u, []. by rewrite app_nil_r.
    - intros (? & ? & -> & H & ->). by rewrite app_nil_r. }
  setoid_rewrite Hs. split.
  - intros (u & v & -> & Hu & (x & after & -> & [Hx| ->] & Ha)).
    + exists (u ++ x), after. rewrite app_assoc. split_and!; [done| |done]. right. by exists u, x.
    + exists u, after. split_and!; [done|by left|done].
  - intros (w & after & -> & [Hw|(u & x & -> & Hu & Hx)] & Ha).
    + exists w, after. split_and!; [done..|]. exists [], after. split_and!; [done|by right|done].
    + exists u, (x ++ after). rewrite app_assoc. split_and!; [done..|]. exists x, after. split_and!; [done|by left|done].
Qed.

Lemma lang_json name p :
  lang (Cat anything (Cat (litI name) (Cat (Star dot) (litI ".json")))) p <->
  exists before n mid ext, p = before ++ n ++ mid ++ ext /\ sameName n name /\ oneLine mid /\ sameName ext ".json".
Proof.
  rewrite lang_Cat. setoid_rewrite lang_Cat. setoid_rewrite lang_Cat. setoid_rewrite lang_litI.
  setoid_rewrite lang_dots. split.
  - intros (b & ? & -> & _ & n & ? & -> & Hn & mid & ext & -> & Hm & He). by exists b, n, mid, ext.
  - intros (b & n & mid & ext & -> & Hn & Hm & He). exists b, (n ++ mid ++ ext).
    split_and!; [done|apply lang_anything|]. exists n, (mid ++ ext). split_and!; [done..|]. by exists mid, ext.
Qed.

Lemma lang_key_extension ext :
  lang (alts [litI "key"; litI "pem"; litI "p12"; litI "pfx"]) ext <->
  sameName ext "key" \/ sameName ext "pem" \/ sameName ext "p12" \/ sameName ext "pfx".
Proof.
  unfold alts. cbn [foldr]. rewrite !lang_Alt, !lang_litI. pose proof (lang_Void ext). naive_solver.
Qed.

Lemma lang_extension p :
  lang (Cat anything (Cat (chr ".") (alts [litI "key"; litI "pem"; litI "p12"; litI "pfx"]))) p <->
  exists before ext, p = before ++ "." ++ ext /\
    (sameName ext "key" \/ sameName ext "pem" \/ sameName ext "p12" \/ sameName ext "pfx").
Proof.
  rewrite lang_Cat. setoid_rewrite lang_Cat. setoid_rewrite lang_chr. setoid_rewrite lang_key_extension. split.
  - intros (b & ? & -> & _ & ? & ext & -> & -> & H). by exists b, ext.
  - intros (b & ext & -> & H). exists b, ("." ++ ext). split_and!; [done|apply lang_anything|].
    by exists (js "."), ext.
Qed.

Lemma denied_secret p : denied DENY_PATTERNS p = true <-> secretPath p.
Proof.
  unfold denied, DENY_PATTERNS, secretPath. cbn [existsb].
  rewrite !orb_true_iff, !matches_spec, !lang_atSegment, !lang_json, lang_extension, lang_lit.
  setoid_rewrite lang_env. setoid_rewrite lang_plural.
  setoid_rewrite (lang_namedSegment (litI "private") _ (fun u => sameName u "private") (lang_litI "private")).
  split.
  - intros [H|[H|[H|[H|[H|[H|[H|[H|[=]]]]]]]]].
    + left. destruct H as (a & t & -> & Ha & ext & [->|[-> He]]); exists a, ext; (split; [done|]); [by left|by right].
    + right; left. destruct H as (a & ? & -> & Ha & u & after & -> & Hu & He). exists a, u, after.
      split_and!; [done..|]. naive_solver.
    + right; left. destruct H as (a & ? & -> & Ha & u & after & -> & Hu & He). exists a, u, after.
      split_and!; [done..|]. naive_solver.
    + right; left. destruct H as (a & ? & -> & Ha & u & after & -> & Hu & He). exists a, u, after.
      split_and!; [done..|]. naive_solver.
    + by right; right; left.
    + right; right; right; left. destruct H as (b & n & mid & ext & -> & Hn & Hm). exists b, n, mid, ext. naive_solver.
    + right; right; right; left. destruct H as (b & n & mid & ext & -> & Hn & Hm). exists b, n, mid, ext. naive_solver.
    + by right; right; right; right.
  - intros [H|[H|[H|[H|H]]]].
    + left. destruct H as (a & ext & Ha & [->|[-> He]]); [exists a, (js ".env")|exists a, (".env." ++ ext)];
        (split; [done|]; split; [done|]; exists ext; [by left|by right]) ||
        (split; [done|]; split; [done|]; exists ext; by left) || (split; [done|]; split; [done|]; exists ext; by right).
    + destruct H as (a & u & after & -> & Ha & He & [Hu|[Hu|[Hu|[Hu|Hu]]]]).
      * right; left. exists a, (u ++ after). split_and!; [done..|]. exists u, after. naive_solver.
      * right; left. exists a, (u ++ after). split_and!; [done..|]. exists u, after. naive_solver.
      * right; right; left. exists a, (u ++ after). split_and!; [done..|]. exists u, after. naive_solver.
      * right; right; right; left. exists a, (u ++ after). split_and!; [done..|]. exists u, after. naive_solver.
      * right; right; right; left. exists a, (u ++ after). split_and!; [done..|]. exists u, after. naive_solver.
    + by right; right; right; right; left.
    + destruct H as (b & n & mid & ext & -> & [Hn|Hn] & Hm).
      * right; right; right; right; right; left. by exists b, n, mid, ext.
      * right; right; right; right; right; right; left. by exists b, n, mid, ext.
    + right; right; right; right; right; right; right; by left.
Qed.

Lemma startsWith_first (c : ascii) p : startsWith p [c] = false <-> forall rest, p <> c :: rest.
Proof.
  destruct p as [|d p]; [split; [by intros _ rest|done]|]. cbn. destruct (eqc c d) eqn:E.
  - apply eqc_true in E as ->. split; [done|]. intros H. by destruct (H p).
  - split; [|done]. intros _ rest [= -> ->]. assert (eqc c c = true) by (by apply eqc_true). congruence.
Qed.

Lemma pathIsAllowed_spec f :
  negb (bool_decide (df_status f = removed_file)) && pathIsAllowed (df_path f) = true <-> mayBeWritten f.
Proof.
  unfold mayBeWritten. rewrite andb_true_iff, negb_true_iff, bool_decide_eq_false.
  unfold pathIsAllowed, traverses, WORKSPACE_DENY_PATTERNS. rewrite <- denied_secret.
  change (forall rest, df_path f <> "/" ++ rest) with (forall rest, df_path f <> "/"%char :: rest).
  change (forall rest, df_path f <> "~" ++ rest) with (forall rest, df_path f <> "~"%char :: rest).
  rewrite <- !startsWith_first. destruct (df_path f) as [|c p] eqn:E; [naive_solver|].
  change (js "/") with ["/"%char]. change (js "~") with ["~"%char].
  destruct (startsWith (c :: p) ["/"%char]); cbn [orb]; [naive_solver|].
  destruct (startsWith (c :: p) ["~"%char]); cbn [orb]; [naive_solver|].
  case_bool_decide; cbn [orb]; [naive_solver|]. case_bool_decide; [naive_solver|].
  rewrite negb_true_iff, not_true_iff_false. naive_solver.
Qed.

#[export] Instance mayBeWritten_dec f : Decision (mayBeWritten f).
Proof.
  destruct (negb (bool_decide (df_status f = removed_file)) && pathIsAllowed (df_path f)) eqn:E.
  - left. by apply pathIsAllowed_spec.
  - right. rewrite <- pathIsAllowed_spec. by rewrite E.
Defined.

Definition wanted (f : DiffFile) : bool := bool_decide (mayBeWritten f).

Lemma wanted_code f :
  wanted f = negb (bool_decide (df_status f = removed_file)) && pathIsAllowed (df_path f).
Proof. apply eq_iff_eq_true. unfold wanted. by rewrite bool_decide_eq_true, pathIsAllowed_spec. Qed.

Definition okOr {A} (r : result thrown A) (d : A) : A := match r with Ok a => a | Throw _ => d end.

Section spec.
Context (content : str -> result thrown str) (writes : str -> result thrown unit)
        (clone : result thrown unit) (can : bool) (join : str -> str -> str) (cloneError : thrown).
Let deps := scriptedDeps content writes clone can.

Definition succeeds (f : DiffFile) : bool :=
  is_ok (content (df_path f)) && is_ok (writes (join WS_DIR (df_path f))).

(** The files before the first one that fails. *)
Fixpoint untilFailure (fs : list DiffFile) : list DiffFile :=
  match fs with
  | [] => []
  | f :: rest => if succeeds f then f :: untilFailure rest else []
  end.

(** How a fetch ends: with the error of the first file that cannot be read or written. *)
Definition outcomeFor (fs : list DiffFile) : result thrown unit :=
  match List.find (fun f => negb (succeeds f)) fs with
  | None => Ok tt
  | Some f => match content (df_path f) with
              | Throw e => Throw e
              | Ok _ => writes (join WS_DIR (df_path f))
              end
  end.

Definition writeOf (f : DiffFile) : FsOp :=
  Wrote (join WS_DIR (df_path f)) (okOr (content (df_path f)) []).

Lemma contentsApiFetch_spec fs w :
  contentsApiFetch deps join fs WS_DIR w
  = (outcomeFor (List.filter wanted fs), w ++ map writeOf (untilFailure (List.filter wanted fs))).
Proof.
  revert w. induction fs as [|f fs IH]; intros w.
  { cbn. by rewrite app_nil_r. }
  cbn [contentsApiFetch List.filter].
  replace (bool_decide (df_status f = removed_file) || negb (pathIsAllowed (df_path f)))
    with (negb (wanted f)) by (rewrite wanted_code; by rewrite negb_andb, negb_involutive).
  destruct (wanted f); [|apply IH]. cbn [negb].
  unfold mbind, eff_bind, deps. cbn [scriptedDeps getFile mkdirFor writeFile untilFailure].
  unfold outcomeFor. cbn [List.find].
  destruct (content (df_path f)) as [c|e] eqn:Ec.
  - destruct (writes (join WS_DIR (df_path f))) as [[]|e] eqn:Ew.
    + assert (succeeds f = true) as -> by (unfold succeeds; by rewrite Ec, Ew).
      assert (writeOf f = Wrote (join WS_DIR (df_path f)) c) as Hwr by (unfold writeOf; by rewrite Ec).
      fold deps. rewrite IH. cbn [map negb]. rewrite Hwr. by rewrite <- app_assoc.
    + assert (succeeds f = false) as -> by (unfold succeeds; by rewrite Ec, Ew).
      cbn -[WS_DIR]. by rewrite Ec, app_nil_r, Ew.
  - assert (succeeds f = false) as -> by (unfold succeeds; by rewrite Ec). cbn. by rewrite Ec, app_nil_r.
Qed.
End spec.

(** C18. Filling the workspace file by file. What is written are the contents of the files that may be
    written (still there at the head, with a path that is not empty or absolute, does not start in
    the home directory, and holds no parent segment, no NUL and no secret's name), and of no other,
    at their paths under the directory, in the order of the diff, up to the first file that cannot
    be read or written. Then the directory is removed and the error of that file is thrown on;
    when there is no such file the directory is the answer. *)
Theorem workspace_holds_allowed_files (content : str -> result thrown str)
    (writes : str -> result thrown unit) (clone : result thrown unit) (can : bool)
    (join : str -> str -> str) (cloneError : thrown) (fs : list DiffFile) (submodules lfs : bool) :
  let picked := List.filter (fun f => bool_decide (mayBeWritten f)) fs in
  let run := provisionWorkspace (scriptedDeps content writes clone can) join cloneError
      {| strategy := contents_api; files := fs; hint_submodules := submodules; hint_lfs := lfs |} [] in
  match List.find (fun f => negb (succeeds content writes join f)) picked with
  | None => run = (Ok WS_DIR, Made WS_DIR :: map (writeOf content join) picked)
  | Some bad =>
      exists before after e, picked = before ++ bad :: after /\ Forall (fun f => succeeds content writes join f = true) before /\
        (content (df_path bad) = Throw e \/
         exists c, content (df_path bad) = Ok c /\ writes (join WS_DIR (df_path bad)) = Throw e) /\
        run = (Throw e, Made WS_DIR :: map (writeOf content join) before ++ [Removed WS_DIR])
  end.
Proof.
  intros picked run.
  assert (run = (match outcomeFor content writes join picked with Ok _ => Ok WS_DIR | Throw e => Throw e end,
    Made WS_DIR :: map (writeOf content join) (untilFailure content writes join picked)
      ++ if is_ok (outcomeFor content writes join picked) then [] else [Removed WS_DIR])) as ->.
  { subst run. cbn [provisionWorkspace strategy files]. unfold mbind, eff_bind.
    cbn [scriptedDeps mkdtemp app]. unfold tryCatch. fold WS_DIR.
    rewrite (contentsApiFetch_spec content writes clone can join fs [Made WS_DIR]).
    change (List.filter wanted fs) with picked.
    destruct (outcomeFor content writes join picked) as [[]|e]; cbn; by rewrite ?app_nil_r. }
  clearbody picked. unfold outcomeFor. destruct (List.find _ picked) as [bad|] eqn:E.
  - assert (exists before after, picked = before ++ bad :: after /\
      Forall (fun f => succeeds content writes join f = true) before /\
      succeeds content writes join bad = false /\ untilFailure content writes join picked = before)
      as (before & after & -> & Hb & Hbad & ->).
    { induction picked as [|f picked IH]; [done|]. cbn in *. destruct (succeeds content writes join f) eqn:Ef; cbn in E.
      - destruct (IH E) as (b & a & -> & Hb & Hx & Hu). exists (f :: b), a. rewrite Hu. split_and!; [done|by constructor|done..].
      - injection E as ->. exists [], picked. split_and!; [done|constructor|done..]. }
    unfold succeeds in Hbad. destruct (content (df_path bad)) as [c|e] eqn:Ec; cbn [is_ok andb] in Hbad.
    + destruct (writes (join WS_DIR (df_path bad))) as [[]|e] eqn:Ew; [done|].
      exists before, after, e. split_and!; try done. right. by exists c.
    + exists before, after, e. split_and!; try done. by left.
  - cbn. rewrite app_nil_r. do 3 f_equal. induction picked as [|f picked IH]; [done|]. cbn in *.
    destruct (succeeds content writes join f); [|done]. cbn in E. by rewrite IH.
Qed.
