(* ===== verification/AutoFetch.v ===== *)
(** * Auto-fetched files (runner/src/auto-fetch.ts)

    For every changed file that matches a path instruction with [autoFetch], the companions of
    [candidatesFor] are read through the tools of [Tools.v], within a budget of files, bytes per
    file and bytes in total.  Sizes are string lengths, as in the source. *)

From S2P Require Import Prelude Regex Glob Tools Untrusted.

(** ** Paths (node:path, posix) *)

(** The index of the last occurrence of a character. *)
Fixpoint lastIndexOf (c : ascii) (s : str) : option nat :=
  match s with
  | [] => None
  | d :: s' => match lastIndexOf c s' with
               | Some i => Some (S i)
               | None => if eqc c d then Some 0 else None
               end
  end.

Definition stripTrailingSlashes (s : str) : str := rev (dropWhile (eqc slash) (rev s)).

(** [dirname]: what stands before the last slash of the path without its trailing slashes, a
    slash at index 0 apart. *)
Definition dirname (p : str) : str :=
  match stripTrailingSlashes p with
  | [] => if isAbsolute p then "/" else "."
  | c :: rest =>
      match lastIndexOf slash rest with
      | Some i => let d := c :: take i rest in
                  if isAbsolute p && (i =? 0)%nat then "//" else d
      | None => if isAbsolute p then "/" else "."
      end
  end.

Definition baseOf (p : str) : str :=
  let q := stripTrailingSlashes p in
  match lastIndexOf slash q with Some i => drop (S i) q | None => q end.

Definition extname (p : str) : str :=
  let b := baseOf p in
  match lastIndexOf "." b with
  | None | Some O => []
  | Some i => if bool_decide (b = js "..") then [] else drop i b
  end.

Definition basename (p ext : str) : str :=
  let b := baseOf p in
  if bool_decide (ext <> []) && endsWith b ext && negb (bool_decide (b = ext))
  then take (length b - length ext) b else b.

(** The segments of a relative path, normalised: [..] survives only in front. *)
Fixpoint normRel (stack segs : list str) : list str :=
  match segs with
  | [] => rev stack
  | s :: rest =>
      if bool_decide (s = []) || bool_decide (s = js ".") then normRel stack rest
      else if bool_decide (s = js "..") then
        match stack with
        | t :: stack' => if bool_decide (t = js "..") then normRel (s :: stack) rest
                         else normRel stack' rest
        | [] => normRel [s] rest
        end
      else normRel (s :: stack) rest
  end.

(** [path.posix.join] on segments without a trailing slash. *)
Definition posix (segments : list str) : str :=
  let joined := join "/" (List.filter (fun s => bool_decide (s <> [])) segments) in
  let norm := if isAbsolute joined then "/" ++ pathOf (normSegs [] (splitChar slash joined))
              else pathOf (normRel [] (splitChar slash joined)) in
  match norm with [] => "." | _ => norm end.

(** ** Candidates *)

Record AutoFetchOptions := { tests : bool; types : bool; siblings : bool }.

(** [autoFetch] as configured: each option may be absent. *)
Record AutoFetchConfig := {
  cfg_tests : option bool;
  cfg_types : option bool;
  cfg_siblings : option bool;
}.

(** [{ ...DEFAULT_FETCH, ...p.autoFetch }] *)
Definition withDefaults (c : AutoFetchConfig) : AutoFetchOptions :=
  {| tests := default true (cfg_tests c); types := default true (cfg_types c);
     siblings := default false (cfg_siblings c) |}.

Record PathInstruction := {
  pi_pattern : str;
  pi_text : str;
  pi_autoFetch : option AutoFetchConfig;
}.

Record AutoFetchBudget := { maxFiles : Z; maxBytesPerFile : Z; maxTotalBytes : Z }.

Definition DEFAULT_AUTO_FETCH_BUDGET : AutoFetchBudget :=
  {| maxFiles := 5; maxBytesPerFile := 50000; maxTotalBytes := 250000 |}.

Record AutoFetchResult := {
  af_files : list UntrustedRelatedFile;
  af_totalBytes : Z;
  af_hitBudgetLimit : bool;
}.

Definition EMPTY_RESULT : AutoFetchResult :=
  {| af_files := []; af_totalBytes := 0; af_hitBudgetLimit := false |}.

Record Candidate := { cand_path : str; cand_kind : relatedKind }.

(** [/\.(test|spec)\.[^/]+$/] and [/\.(t|j)sx?$/] *)
Definition testFile : re :=
  Cat anything (Cat (chr ".") (Cat (alts [lit "test"; lit "spec"]) (Cat (chr ".")
    (Cat not_slash (Star not_slash))))).
Definition scriptExt : re :=
  Cat anything (Cat (chr ".") (Cat (alts [chr "t"; chr "j"]) (Cat (chr "s") (opt (chr "x"))))).

Definition candidatesFor (changed : str) (opts : AutoFetchOptions) : list Candidate :=
  let dir := dirname changed in
  let ext := extname changed in
  let base := basename changed ext in
  let isTest := matches testFile changed in
  let isTypeDecl := endsWith changed ".d.ts" in
  (if tests opts && negb isTest then
     [ {| cand_path := posix [dir; base ++ ".test" ++ ext]; cand_kind := kind_test |};
       {| cand_path := posix [dir; base ++ ".spec" ++ ext]; cand_kind := kind_test |};
       {| cand_path := posix [dir; js "__tests__"; base ++ ".test" ++ ext]; cand_kind := kind_test |} ]
   else [])
  ++ (if types opts && negb isTypeDecl && matches scriptExt ext then
        [ {| cand_path := posix [dir; base ++ ".d.ts"]; cand_kind := kind_type |} ]
      else [])
  ++ (if siblings opts then
        [ {| cand_path := posix [dir; "index" ++ ext]; cand_kind := kind_sibling |} ]
      else []).

(** ** The loop *)

Definition truncationMarker (maxBytes : Z) : str :=
  nl ++ "[...truncated at " ++ showZ maxBytes ++ " chars]".

Record fetchState := {
  seen : list str;
  st_files : list UntrustedRelatedFile;
  st_total : Z;
  st_hit : bool;
}.

Definition setHit (st : fetchState) : fetchState :=
  {| seen := seen st; st_files := st_files st; st_total := st_total st; st_hit := true |}.

Section collect.
Context (read : str -> result toolError str) (budget : AutoFetchBudget).

Definition tryReadFile (rel : str) (maxBytes : Z) : option str :=
  match read rel with
  | Ok content =>
      if (maxBytes <? Zlen content)%Z
      then Some (take (Z.to_nat maxBytes) content ++ truncationMarker maxBytes)
      else Some content
  | Throw _ => None
  end.

(** The loop over the candidates of one changed file; [true] is [break outer]. *)
Fixpoint fetchCandidates (changed : str) (cands : list Candidate) (st : fetchState)
    : fetchState * bool :=
  match cands with
  | [] => (st, false)
  | cand :: rest =>
      if bool_decide (cand_path cand ∈ seen st) then fetchCandidates changed rest st
      else if (maxFiles budget <=? Zlen (st_files st))%Z then (setHit st, true)
      else if (maxTotalBytes budget <=? st_total st)%Z then (setHit st, true)
      else
        let seen' := seen st ++ [cand_path cand] in
        match tryReadFile (cand_path cand) (maxBytesPerFile budget) with
        | None => fetchCandidates changed rest
            {| seen := seen'; st_files := st_files st; st_total := st_total st;
               st_hit := st_hit st |}
        | Some content =>
            let remaining := (maxTotalBytes budget - st_total st)%Z in
            let trimmed := if (remaining <? Zlen content)%Z
                           then take (Z.to_nat remaining) content else content in
            let st' :=
              {| seen := seen';
                 st_files := st_files st ++
                   [{| rf_path := cand_path cand; rf_content := trimmed;
                       rf_kind := cand_kind cand; originatingChangedPath := changed |}];
                 st_total := st_total st + Zlen trimmed; st_hit := st_hit st |} in
            if (Zlen trimmed <? Zlen content)%Z then (setHit st', true)
            else fetchCandidates changed rest st'
        end
  end.

(** The first compiled instruction that matches decides. *)
Fixpoint fetchChanged (compiled : list (re * AutoFetchOptions)) (changed : str) (st : fetchState)
    : fetchState * bool :=
  match compiled with
  | [] => (st, false)
  | (regex, autoFetch) :: rest =>
      if matches regex changed then fetchCandidates changed (candidatesFor changed autoFetch) st
      else fetchChanged rest changed st
  end.

Fixpoint fetchAll (compiled : list (re * AutoFetchOptions)) (changedPaths : list str)
    (st : fetchState) : fetchState :=
  match changedPaths with
  | [] => st
  | changed :: rest =>
      let '(st', stop) := fetchChanged compiled changed st in
      if stop then st' else fetchAll compiled rest st'
  end.
End collect.

(** The instructions with [autoFetch] whose pattern compiles. *)
Fixpoint compileInstructions (ps : list PathInstruction) : list (re * AutoFetchOptions) :=
  match ps with
  | [] => []
  | p :: rest =>
      match pi_autoFetch p with
      | Some cfg => match globToRegExp (pi_pattern p) with
                    | Ok r => (r, withDefaults cfg) :: compileInstructions rest
                    | Throw _ => compileInstructions rest
                    end
      | None => compileInstructions rest
      end
  end.

(** [root] is the tree behind [workspaceDir]; the budget's fields come with their defaults. *)
Definition collectAutoFetchContext (changedPaths : list str) (pathInstructions : list PathInstruction)
    (workspaceDir : str) (root : node) (denyPatterns : list re) (budget : AutoFetchBudget)
    : AutoFetchResult :=
  match workspaceDir with
  | [] => EMPTY_RESULT
  | _ =>
      match compileInstructions pathInstructions with
      | [] => EMPTY_RESULT
      | compiled =>
          let st := fetchAll (read_file workspaceDir root denyPatterns) budget compiled changedPaths
                      {| seen := []; st_files := []; st_total := 0; st_hit := false |} in
          {| af_files := st_files st; af_totalBytes := st_total st; af_hitBudgetLimit := st_hit st |}
      end
  end.

(** ** Invariant *)

Section invariant.
Context (read : str -> result toolError str) (budget : AutoFetchBudget).

(** What the marker of a cut file adds to the per-file cap. *)
Definition markerLen : Z := Zlen (truncationMarker (maxBytesPerFile budget)).

Definition file_within (f : UntrustedRelatedFile) : Prop :=
  (Zlen (rf_content f) <= maxBytesPerFile budget + markerLen)%Z /\
  exists full text, read (rf_path f) = Ok full /\
    tryReadFile read (rf_path f) (maxBytesPerFile budget) = Some text /\
    startsWith text (rf_content f) = true.

Record fetch_inv (st : fetchState) : Prop := {
  inv_count : (Zlen (st_files st) <= Z.max 0 (maxFiles budget))%Z;
  inv_total : st_total st = foldr (fun f n => (Zlen (rf_content f) + n)%Z) 0%Z (st_files st);
  inv_cap : (0 <= st_total st <= Z.max 0 (maxTotalBytes budget))%Z;
  inv_nodup : NoDup (map rf_path (st_files st));
  inv_seen : forall f, f ∈ st_files st -> rf_path f ∈ seen st;
  inv_files : Forall file_within (st_files st);
}.

Lemma inv_setHit st : fetch_inv st -> fetch_inv (setHit st).
Proof. intros []. by constructor. Qed.

Lemma tryReadFile_spec p text :
  (0 <= maxBytesPerFile budget)%Z ->
  tryReadFile read p (maxBytesPerFile budget) = Some text ->
  (exists full, read p = Ok full) /\ (Zlen text <= maxBytesPerFile budget + markerLen)%Z.
Proof.
  intros H0. unfold tryReadFile. destruct (read p) as [full|]; [|done].
  destruct (_ <? _)%Z eqn:E; to_prop; intros [= <-]; split; eauto.
  - unfold markerLen, Zlen in *. rewrite length_app, length_take. lia.
  - unfold markerLen, Zlen in *. lia.
Qed.

Lemma sum_snoc (fs : list UntrustedRelatedFile) f :
  foldr (fun f n => (Zlen (rf_content f) + n)%Z) 0%Z (fs ++ [f]) =
  (foldr (fun f n => (Zlen (rf_content f) + n)%Z) 0%Z fs + Zlen (rf_content f))%Z.
Proof. induction fs as [|g fs IH]; simpl; [lia|]. rewrite IH. lia. Qed.

Lemma fetchCandidates_inv changed cands st :
  (0 <= maxBytesPerFile budget)%Z ->
  fetch_inv st -> fetch_inv (fetchCandidates read budget changed cands st).1.
Proof.
  intros H0. revert st. induction cands as [|c cands IH]; intros st Hst; [done|]. cbn [fetchCandidates].
  case_bool_decide as Hseen; [by apply IH|].
  destruct (maxFiles budget <=? _)%Z eqn:E1; [by apply inv_setHit|].
  destruct (maxTotalBytes budget <=? _)%Z eqn:E2; [by apply inv_setHit|]. to_prop.
  destruct (tryReadFile _ _ _) as [content|] eqn:Et.
  2: { apply IH. destruct Hst as [A B C D F G]. constructor; try done. simpl.
       intros f Hf. apply elem_of_app. left. by apply F. }
  cbv zeta.
  set (trimmed := if (maxTotalBytes budget - st_total st <? Zlen content)%Z then take _ content
                  else content).
  destruct (tryReadFile_spec _ _ H0 Et) as [[full Hfull] Hlen].
  assert (startsWith content trimmed = true /\ (Zlen trimmed <= maxTotalBytes budget - st_total st)%Z
          /\ (Zlen trimmed <= Zlen content)%Z) as (Hpre & Hrem & Hle).
  { subst trimmed. destruct (_ <? _)%Z eqn:E; to_prop.
    - split_and!; [|unfold Zlen in *; rewrite length_take; lia..].
      apply startsWith_spec. exists (drop (Z.to_nat (maxTotalBytes budget - st_total st)) content).
      by rewrite take_drop.
    - split_and!; [apply startsWith_refl|lia|lia]. }
  assert (forall hit, fetch_inv
    {| seen := seen st ++ [cand_path c];
       st_files := st_files st ++ [{| rf_path := cand_path c; rf_content := trimmed;
         rf_kind := cand_kind c; originatingChangedPath := changed |}];
       st_total := st_total st + Zlen trimmed; st_hit := hit |}) as Hnew.
  { intros hit. destruct Hst as [A B C D F G]. constructor; simpl.
    - unfold Zlen in *. rewrite length_app. simpl. lia.
    - rewrite sum_snoc, <- B. done.
    - assert (0 <= Zlen trimmed)%Z by (unfold Zlen; lia). lia.
    - rewrite map_app. apply NoDup_app. split_and!; [done| |apply NoDup_singleton].
      intros x (f & -> & Hf)%elem_of_bmap Hx%list_elem_of_singleton.
      apply Hseen. simpl in Hx. rewrite <- Hx. by apply F.
    - intros f [Hf|Hf]%elem_of_app; apply elem_of_app; [left; by apply F|].
      apply list_elem_of_singleton in Hf as ->. right. left.
    - apply Forall_app. split; [done|]. repeat constructor; simpl; [lia|eauto]. }
  clearbody trimmed. destruct (Zlen trimmed <? Zlen content)%Z; [apply (inv_setHit _ (Hnew (st_hit st)))|apply IH, Hnew].
Qed.

Lemma fetchAll_inv compiled paths st :
  (0 <= maxBytesPerFile budget)%Z -> fetch_inv st ->
  fetch_inv (fetchAll read budget compiled paths st).
Proof.
  intros H0. revert st. induction paths as [|p paths IH]; intros st Hst; [done|]. simpl.
  assert (fetch_inv (fetchChanged read budget compiled p st).1) as H.
  { clear IH. induction compiled as [|[r o] cs IHc]; [done|]. simpl.
    destruct (matches r p); [by apply fetchCandidates_inv|done]. }
  destruct (fetchChanged _ _ _ _ _) as [st' []]; simpl in *; auto.
Qed.
End invariant.

(** ** Properties *)

(** The fetched files are at most [maxFiles], all different, together at most [maxTotalBytes]
    long, and [totalBytes] says how long; each is at most the per-file cap and its marker; and
    each is a file the tools let the model read: a regular file of the workspace, behind no link,
    on no deny list. *)
Theorem collectAutoFetchContext_bounds changed instrs ws root deny budget :
  isLink root = false ->
  (0 <= maxFiles budget)%Z -> (0 <= maxBytesPerFile budget)%Z -> (0 <= maxTotalBytes budget)%Z ->
  let r := collectAutoFetchContext changed instrs ws root deny budget in
  (Zlen (af_files r) <= maxFiles budget)%Z /\
  NoDup (map rf_path (af_files r)) /\
  (af_totalBytes r <= maxTotalBytes budget)%Z /\
  af_totalBytes r = foldr (fun f n => (Zlen (rf_content f) + n)%Z) 0%Z (af_files r) /\
  Forall (fun f =>
    (Zlen (rf_content f) <= maxBytesPerFile budget + markerLen budget)%Z /\
    exists segs full,
      resolve ws (rf_path f) = normSegs [] (splitChar slash ws) ++ segs /\
      lookupNode root segs = Some (File (Ok full)) /\
      denied (effectiveDeny deny) (pathOf segs) = false) (af_files r).
Proof.
  intros Hroot H1 H2 H3 r. unfold collectAutoFetchContext in r.
  destruct ws as [|c w]; [subst r; simpl; by split_and!; [|constructor| | |]|].
  destruct (compileInstructions instrs) as [|e es];
    [subst r; simpl; by split_and!; [|constructor| | |]|].
  set (st := fetchAll _ _ _ _ _) in r.
  assert (fetch_inv (read_file (c :: w) root deny) budget st) as [A B C D _ G].
  { apply fetchAll_inv; [done|]. constructor; simpl;
      [unfold Zlen; simpl; lia|done|lia|constructor|by intros f []%elem_of_nil|constructor]. }
  subst r. cbn [af_files af_totalBytes]. split_and!; [lia|done|lia|done|].
  eapply Forall_impl; [exact G|]. intros f (Hlen & full & text & Hread & _). split; [done|].
  unfold read_file in Hread.
  destruct (resolveSafePath _ _ _ _) as [segs|] eqn:E; [|done].
  apply resolveSafePath_ok in E as (_ & Hd & Hr & _ & Hf). cbn in Hread.
  unfold readFile in Hread. rewrite (Hf Hroot) in Hread.
  destruct (lookupNode root segs) as [[[x|]| | |]|] eqn:En; try done.
  exists segs, x. done.
Qed.

Definition demoInstr : list PathInstruction :=
  [ {| pi_pattern := "src/**"; pi_text := []; pi_autoFetch :=
       Some {| cfg_tests := None; cfg_types := None; cfg_siblings := Some true |} |} ].

Definition fetchTree : node :=
  Dir None [ (js "src", Dir None [ (js "a.test.ts", File (Ok (js "test a")));
                                   (js "a.d.ts", Symlink (File (Ok (js "x"))));
                                   (js "index.ts", File (Ok (js "export"))) ]) ].

Lemma collectAutoFetchContext_bounds_witness :
  let r := collectAutoFetchContext [js "src/a.ts"] demoInstr "/w" fetchTree []
             {| maxFiles := 5; maxBytesPerFile := 4; maxTotalBytes := 60 |} in
  map rf_path (af_files r) = [js "src/a.test.ts"; js "src/index.ts"] /\
  (af_totalBytes r <= 60)%Z.
Proof.
  intros r. split; [vm_compute; reflexivity|].
  apply (collectAutoFetchContext_bounds [js "src/a.ts"] demoInstr "/w" fetchTree []
    {| maxFiles := 5; maxBytesPerFile := 4; maxTotalBytes := 60 |}); simpl; (reflexivity || lia).
Defined.
