(* ===== verification/Dedup.v ===== *)
(** * Fingerprints, deduplication and the persisted state
    (core/src/fingerprint.ts, core/src/comment-fingerprint.ts, runner/src/middleware/dedup.ts,
    runner/src/state-builder.ts, runner/src/feedback-fingerprint-resolver.ts)

    The hash behind [fingerprint] is node's SHA-256 in hexadecimal, the parameter [sha256hex]. *)

From S2P Require Import Prelude JsNumber Schema Review.

(** ** core/src/fingerprint.ts *)

Definition FINGERPRINT_LENGTH : nat := 16.

Record FingerprintInput := {
  fi_path : str;
  fi_line : Z;
  fi_ruleId : str;
  fi_suggestionType : str;
}.

Definition fingerprint (sha256hex : str -> str) (c : FingerprintInput) : str :=
  take FINGERPRINT_LENGTH
    (sha256hex (fi_path c ++ ":" ++ showZ (fi_line c) ++ ":" ++ fi_ruleId c ++ ":"
                ++ fi_suggestionType c)).

(** ** runner/src/middleware/dedup.ts *)

Definition ruleIdFor (c : ReviewOutputComment) : str :=
  match ruleId c with Some r => r | None => severity_str (severity c) end.

(** An empty suggestion is falsy. *)
Definition defaultSuggestionType (c : ReviewOutputComment) : str :=
  match suggestion c with Some (_ :: _) => "replacement" | _ => "comment" end.

Record DedupResult := {
  kept : list InlineComment;
  droppedCount : nat;
  droppedByFeedback : nat;
}.

Section dedup.
Context (fingerprintFn : FingerprintInput -> str) (suggestionTypeFor : ReviewOutputComment -> str).

Definition fingerprintOf (c : ReviewOutputComment) : str :=
  fingerprintFn {| fi_path := path c; fi_line := line c; fi_ruleId := ruleIdFor c;
                   fi_suggestionType := suggestionTypeFor c |}.

Fixpoint dedupLoop (rejected seen : list str) (cs : list ReviewOutputComment) : DedupResult :=
  match cs with
  | [] => {| kept := []; droppedCount := 0; droppedByFeedback := 0 |}
  | c :: rest =>
      let fp := fingerprintOf c in
      if bool_decide (fp ∈ rejected) then
        let r := dedupLoop rejected seen rest in
        {| kept := kept r; droppedCount := droppedCount r;
           droppedByFeedback := S (droppedByFeedback r) |}
      else if bool_decide (fp ∈ seen) then
        let r := dedupLoop rejected seen rest in
        {| kept := kept r; droppedCount := S (droppedCount r);
           droppedByFeedback := droppedByFeedback r |}
      else
        let r := dedupLoop rejected (fp :: seen) rest in
        {| kept := {| comment_of := c; fingerprint_of := fp |} :: kept r;
           droppedCount := droppedCount r; droppedByFeedback := droppedByFeedback r |}
  end.

Definition dedupComments (comments : list ReviewOutputComment)
    (previousState : option ReviewState) (rejectedFingerprints : list str) : DedupResult :=
  dedupLoop rejectedFingerprints
    (match previousState with Some st => commentFingerprints st | None => [] end) comments.
End dedup.

(** ** runner/src/state-builder.ts *)

Record BuildStateInput := {
  bs_previousState : option ReviewState;
  bs_comments : list InlineComment;
  bs_headSha : str;
  bs_baseSha : str;
  bs_modelUsed : str;
  bs_tokensUsed : Z;
  bs_costUsd : number;
}.

(** [now] is the clock's ISO text. *)
Definition buildReviewState (now : str) (i : BuildStateInput) : ReviewState :=
  let previousFingerprints :=
    match bs_previousState i with Some st => commentFingerprints st | None => [] end in
  {| lastReviewedSha := bs_headSha i;
     baseSha := bs_baseSha i;
     reviewedAt := now;
     modelUsed := bs_modelUsed i;
     totalTokens := (match bs_previousState i with Some st => totalTokens st | None => 0 end
                     + bs_tokensUsed i)%Z;
     totalCostUsd := nadd (match bs_previousState i with Some st => totalCostUsd st | None => zero end)
                          (bs_costUsd i);
     commentFingerprints :=
       uniq (previousFingerprints ++ map fingerprint_of (bs_comments i)) |}.

(** ** core/src/comment-fingerprint.ts *)

Definition isHexI (c : ascii) : bool := is_hex (fold_char c).

(** [FINGERPRINT_MARKER_REGEX] at the head of the text: the captured digits. *)
Definition markerAt (s : str) : option str :=
  if startsWithI s "<!--" then
    let s1 := dropWhile is_ws (drop 4 s) in
    if startsWithI s1 "fingerprint:" then
      let s2 := drop 12 s1 in
      let run := takeWhile isHexI s2 in
      if ((8 <=? length run) && (length run <=? 16))%nat &&
         startsWith (dropWhile is_ws (drop (length run) s2)) "-->"
      then Some run else None
    else None
  else None.

Fixpoint extractFingerprintFromComment (body : str) : option str :=
  match body with
  | [] => None
  | _ :: rest => match markerAt body with
                 | Some fp => Some (toLowerCase fp)
                 | None => extractFingerprintFromComment rest
                 end
  end.

Definition fingerprintMarker (fp : str) : str := "<!-- fingerprint:" ++ fp ++ " -->".

Definition appendFingerprintMarker (body fp : str) : str :=
  let expected := fingerprintMarker fp in
  if endsWith (trimEnd body) expected then body
  else
    let sep := if endsWith body nl then [] else nl ++ nl in
    body ++ sep ++ expected.

(** ** runner/src/feedback-fingerprint-resolver.ts *)

Inductive ResolutionSource := from_marker | from_prefix.
Inductive ResolutionFailure := no_match | ambiguous_prefix | no_marker_and_no_prefix.

Record FingerprintResolutionInput := {
  ri_commentBody : str;
  ri_fpPrefix : option str;
  ri_knownFingerprints : list str;
}.

Definition resolveFingerprint (i : FingerprintResolutionInput)
    : result ResolutionFailure (str * ResolutionSource) :=
  let byPrefix :=
    match ri_fpPrefix i with
    | Some fpPrefix =>
        let needle := toLowerCase fpPrefix in
        match List.filter (fun fp => startsWith fp needle) (ri_knownFingerprints i) with
        | [hit] => Ok (hit, from_prefix)
        | _ :: _ :: _ => Throw ambiguous_prefix
        | [] => Throw no_match
        end
    | None => Throw no_marker_and_no_prefix
    end in
  match extractFingerprintFromComment (ri_commentBody i) with
  | Some marker =>
      if bool_decide (marker ∈ ri_knownFingerprints i) then Ok (marker, from_marker) else byPrefix
  | None => byPrefix
  end.

(** ** Lemmas *)

Section dedup_lemmas.
Context (fingerprintFn : FingerprintInput -> str) (suggestionTypeFor : ReviewOutputComment -> str).
Notation fpOf := (fingerprintOf fingerprintFn suggestionTypeFor).
Notation loop := (dedupLoop fingerprintFn suggestionTypeFor).

Lemma dedupLoop_count rejected seen cs :
  length (kept (loop rejected seen cs)) + droppedCount (loop rejected seen cs)
    + droppedByFeedback (loop rejected seen cs) = length cs.
Proof.
  revert seen. induction cs as [|c cs IH]; intros seen; simpl; [done|].
  case_bool_decide; [specialize (IH seen); simpl; lia|].
  case_bool_decide; [specialize (IH seen)|specialize (IH (fpOf c :: seen))]; simpl; lia.
Qed.

Lemma dedupLoop_sublist rejected seen cs :
  map comment_of (kept (loop rejected seen cs)) `sublist_of` cs.
Proof.
  revert seen. induction cs as [|c cs IH]; intros seen; simpl; [constructor|].
  case_bool_decide; [apply sublist_cons, IH|].
  case_bool_decide; [apply sublist_cons, IH|apply sublist_skip, IH].
Qed.

Lemma dedupLoop_kept rejected seen cs (k : InlineComment) :
  k ∈ kept (loop rejected seen cs) ->
  fingerprint_of k = fpOf k /\ fingerprint_of k ∉ rejected /\ fingerprint_of k ∉ seen /\
  comment_of k ∈ cs.
Proof.
  revert seen. induction cs as [|c cs IH]; intros seen; simpl; [by intros []%elem_of_nil|].
  case_bool_decide as Hr.
  { intros (? & ? & ? & ?)%IH. split_and!; [done..|by right]. }
  case_bool_decide as Hs.
  { intros (? & ? & ? & ?)%IH. split_and!; [done..|by right]. }
  cbn [kept]. intros [->|H]%elem_of_cons; [by split_and!; [..|left]|].
  apply IH in H as (? & ? & [_ ?]%not_elem_of_cons & ?). split_and!; [done..|by right].
Qed.

Lemma dedupLoop_nodup rejected seen cs :
  NoDup (map fingerprint_of (kept (loop rejected seen cs))).
Proof.
  revert seen. induction cs as [|c cs IH]; intros seen; simpl; [constructor|].
  case_bool_decide; [apply IH|]. case_bool_decide; [apply IH|]. simpl. constructor; [|apply IH].
  intros (k & Hk & (_ & _ & [Hne _]%not_elem_of_cons & _)%dedupLoop_kept)%elem_of_bmap. congruence.
Qed.

(** A comment is dropped only for a fingerprint that is rejected, seen before or kept. *)
Lemma dedupLoop_complete rejected seen cs c :
  c ∈ cs ->
  fpOf c ∈ rejected \/ fpOf c ∈ seen \/ fpOf c ∈ map fingerprint_of (kept (loop rejected seen cs)).
Proof.
  revert seen. induction cs as [|d cs IH]; intros seen; [by intros []%elem_of_nil|]. simpl.
  intros Hc%elem_of_cons. case_bool_decide; [destruct Hc as [->|Hc]; [by left|by apply IH]|].
  case_bool_decide; [destruct Hc as [->|Hc]; [by right; left|by apply IH]|]. cbn [kept map].
  destruct Hc as [->|Hc]; [right; right; left|].
  destruct (IH (fpOf d :: seen) Hc) as [?|[[->|?]%elem_of_cons|?]];
    [by left|right; right; left|by right; left|right; right; by right].
Qed.

Lemma dedupLoop_all_seen rejected seen cs :
  (forall c, c ∈ cs -> fpOf c ∈ rejected \/ fpOf c ∈ seen) -> kept (loop rejected seen cs) = [].
Proof.
  induction cs as [|c cs IH]; intros H; [done|]. simpl.
  assert (forall d, d ∈ cs -> fpOf d ∈ rejected \/ fpOf d ∈ seen) as H' by (intros; apply H; by right).
  case_bool_decide; [by apply IH|]. case_bool_decide; [by apply IH|].
  destruct (H c); [left|done|done].
Qed.
End dedup_lemmas.

(** *** The marker *)

Definition fp_ok (fp : str) : Prop := forallb is_hex fp = true /\ 8 <= length fp <= 16.

Lemma is_hex_facts c :
  is_hex c = true -> isHexI c = true /\ lower_char c = c /\ is_ws c = false /\ c <> "<"%char.
Proof.
  assert (all_ascii (fun c => negb (is_hex c) ||
    (isHexI c && eqc (lower_char c) c && negb (is_ws c) && negb (eqc c "<"))) = true) as H
    by (vm_compute; reflexivity).
  intros Hc. apply (all_ascii_spec _ c) in H. cbv beta in H. rewrite Hc in H. simpl in H.
  rewrite !andb_true_iff, !negb_true_iff, eqc_true, eqc_false in H. naive_solver.
Qed.

Lemma takeWhile_stop f a c b :
  forallb f a = true -> f c = false -> takeWhile f (a ++ c :: b) = a.
Proof. intros Ha Hc. rewrite takeWhile_app by done. simpl. by rewrite Hc, app_nil_r. Qed.

Lemma toLowerCase_hex fp : forallb is_hex fp = true -> toLowerCase fp = fp.
Proof.
  unfold toLowerCase. induction fp as [|c fp IH]; [done|]. simpl.
  intros [Hc H]%andb_true_iff. f_equal; [by apply is_hex_facts|auto].
Qed.

Lemma markerAt_marker fp rest : fp_ok fp -> markerAt (fingerprintMarker fp ++ rest) = Some fp.
Proof.
  intros [Hhex Hlen]. unfold markerAt, fingerprintMarker.
  change (startsWithI _ "<!--") with true. cbv iota zeta.
  assert (dropWhile is_ws (drop 4 (("<!-- fingerprint:" ++ fp ++ " -->") ++ rest)) =
          "fingerprint:" ++ fp ++ " -->" ++ rest) as -> by (simpl; by rewrite <- app_assoc).
  change (startsWithI ("fingerprint:" ++ ?t) "fingerprint:") with true. cbv iota.
  change (drop 12 ("fingerprint:" ++ ?t)) with t.
  change (fp ++ " -->" ++ rest) with (fp ++ " "%char :: ("-->" ++ rest)).
  rewrite takeWhile_stop; [| |done].
  - rewrite drop_app_length.
    by rewrite (proj2 (Nat.leb_le 8 (length fp))), (proj2 (Nat.leb_le (length fp) 16)) by lia.
  - rewrite forallb_elem in *. intros c Hc. by apply is_hex_facts, Hhex.
Qed.

(** What may follow a text without changing the markers found in it: white space, then [<]. *)
Definition stop_tail (u : str) : Prop :=
  exists w t, u = w ++ "<"%char :: t /\ forallb is_ws w = true.

Lemma stop_tail_head u : stop_tail u -> exists d u', u = d :: u' /\ (is_ws d = true \/ d = "<"%char).
Proof.
  intros ([|d w] & t & -> & H); [by exists "<"%char, t; auto|].
  simpl in H. apply andb_true_iff in H as [? _]. exists d, (w ++ "<"%char :: t). auto.
Qed.

Lemma startsWith_tail x d u p : d ∉ p -> startsWith (x ++ d :: u) p = startsWith x p.
Proof.
  revert x. induction p as [|a p IH]; intros x Hd; [by rewrite !startsWith_nil|].
  apply not_elem_of_cons in Hd as [Ha Hd]. destruct x as [|c x]; simpl.
  - destruct (eqc a d) eqn:E; [|done]. by apply eqc_true in E.
  - by rewrite IH.
Qed.

(** A text none of whose characters is white space or [<], up to case. *)
Definition solid (p : str) : bool :=
  forallb (fun c => negb (is_ws (fold_char c)) && negb (eqc (fold_char c) "<")) p.

Lemma stop_notin d p : is_ws d = true \/ d = "<"%char -> solid p = true ->
  fold_char d ∉ map fold_char p.
Proof.
  intros Hd Hp (c & Hc & Hin)%elem_of_bmap. unfold solid in Hp. rewrite forallb_elem in Hp.
  specialize (Hp c Hin). rewrite <- Hc in Hp.
  assert (all_ascii (fun d => negb (is_ws d) || is_ws (fold_char d)) = true) as Hall
    by (vm_compute; reflexivity).
  apply (all_ascii_spec _ d) in Hall. cbv beta in Hall.
  destruct Hd as [Hd | ->]; [rewrite Hd in Hall; simpl in Hall; by rewrite Hall in Hp|].
  by vm_compute in Hp.
Qed.

Lemma startsWithI_tail x u p :
  stop_tail u -> solid p = true -> startsWithI (x ++ u) p = startsWithI x p.
Proof.
  intros (d & u' & -> & Hd)%stop_tail_head Hp. unfold startsWithI. rewrite map_app.
  apply startsWith_tail. by apply stop_notin.
Qed.

Lemma dropWhile_tail x u :
  stop_tail u -> exists u', stop_tail u' /\ dropWhile is_ws (x ++ u) = dropWhile is_ws x ++ u'.
Proof.
  intros (w & t & -> & Hw). induction x as [|c x IH]; simpl.
  - exists ("<"%char :: t). split; [by exists [], t|].
    induction w as [|d w IHw]; simpl; [done|]. simpl in Hw. apply andb_true_iff in Hw as [-> Hw].
    by apply IHw.
  - destruct (is_ws c); [done|]. exists (w ++ "<"%char :: t). split; [by exists w, t|done].
Qed.

Lemma takeWhile_tail x u : stop_tail u -> takeWhile isHexI (x ++ u) = takeWhile isHexI x.
Proof.
  intros (d & u' & -> & Hd)%stop_tail_head.
  assert (isHexI d = false) as Hh.
  { assert (all_ascii (fun d => negb (is_ws d) || negb (isHexI d)) = true) as Hall
      by (vm_compute; reflexivity).
    apply (all_ascii_spec _ d) in Hall. cbv beta in Hall.
    destruct Hd as [Hd | ->]; [rewrite Hd in Hall; simpl in Hall; by destruct (isHexI d)|done]. }
  induction x as [|c x IH]; simpl; [by rewrite Hh|]. by rewrite IH.
Qed.

Lemma takeWhile_length f s : length (takeWhile f s) <= length s.
Proof. induction s as [|c s IH]; simpl; [lia|]. destruct (f c); simpl; lia. Qed.

Lemma startsWithI_length s p : startsWithI s p = true -> length p <= length s.
Proof. unfold startsWithI. intros H%startsWith_length. by rewrite !length_map in H. Qed.

Lemma markerAt_tail x u : x <> [] -> stop_tail u -> markerAt (x ++ u) = markerAt x.
Proof.
  intros Hx Hu. destruct x as [|c x]; [done|]. unfold markerAt.
  assert (startsWithI ((c :: x) ++ u) "<!--" = startsWithI (c :: x) "<!--") as ->.
  { unfold startsWithI. simpl. f_equal. by apply (startsWithI_tail x u "!--"). }
  destruct (startsWithI (c :: x) "<!--") eqn:E1; [|done]. apply startsWithI_length in E1.
  rewrite drop_app_le by done.
  destruct (dropWhile_tail (drop 4 (c :: x)) u Hu) as (u1 & Hu1 & ->).
  set (y := dropWhile is_ws (drop 4 (c :: x))).
  rewrite startsWithI_tail by done. destruct (startsWithI y "fingerprint:") eqn:E2; [|done].
  apply startsWithI_length in E2. rewrite drop_app_le by done.
  rewrite takeWhile_tail by done. rewrite drop_app_le by apply takeWhile_length.
  destruct (dropWhile_tail (drop (length (takeWhile isHexI (drop 12 y))) (drop 12 y)) u1 Hu1)
    as (u2 & (d & u3 & -> & Hd)%stop_tail_head & ->).
  rewrite startsWith_tail; [done|]. destruct Hd as [Hd | ->]; [|not_in].
  intros Hin. unfold js in Hin. simpl in Hin. rewrite !elem_of_cons, elem_of_nil in Hin.
  destruct Hin as [->|[->|[->|[]]]]; by vm_compute in Hd.
Qed.

Lemma extract_tail body u :
  stop_tail u -> extractFingerprintFromComment body = None ->
  exists v, stop_tail v /\ (exists w, forallb is_ws w = true /\ u = w ++ v) /\
  extractFingerprintFromComment (body ++ u) = extractFingerprintFromComment v.
Proof.
  intros Hu. induction body as [|c body IH]; intros H.
  { exists u. split; [done|]. split; [by exists []|done]. }
  cbn [extractFingerprintFromComment] in H.
  destruct (markerAt (c :: body)) eqn:E; [done|].
  destruct (IH H) as (v & Hv & Hw & Heq). exists v. split_and!; [done..|].
  rewrite <- Heq. cbn [app extractFingerprintFromComment].
  change (c :: body ++ u) with ((c :: body) ++ u). by rewrite markerAt_tail, E.
Qed.

Lemma extract_ws w s :
  forallb is_ws w = true -> extractFingerprintFromComment (w ++ s) = extractFingerprintFromComment s.
Proof.
  induction w as [|c w IH]; [done|]. simpl. intros [Hc Hw]%andb_true_iff. rewrite IH by done.
  replace (markerAt (c :: w ++ s)) with (@None str); [done|]. unfold markerAt.
  assert (all_ascii (fun c => negb (is_ws c) || negb (eqc (fold_char "<") (fold_char c))) = true)
    as Hall by (vm_compute; reflexivity).
  apply (all_ascii_spec _ c) in Hall. cbv beta in Hall. rewrite Hc in Hall. simpl in Hall.
  unfold startsWithI. cbn [map js String.list_ascii_of_string startsWith].
  by destruct (eqc (fold_char "<") (fold_char c)).
Qed.

Lemma extract_marker fp rest :
  fp_ok fp -> extractFingerprintFromComment (fingerprintMarker fp ++ rest) = Some fp.
Proof.
  intros Hfp. pose proof (markerAt_marker fp rest Hfp) as Hm. revert Hm.
  generalize (fingerprintMarker fp ++ rest). intros [|c s] Hm; [done|].
  cbn [extractFingerprintFromComment]. rewrite Hm. by rewrite toLowerCase_hex by apply Hfp.
Qed.

Lemma extract_marker_found t fp rest :
  fp_ok fp -> extractFingerprintFromComment (t ++ fingerprintMarker fp ++ rest) <> None.
Proof.
  intros Hfp. induction t as [|c t IH]; [by rewrite app_nil_l, extract_marker|].
  cbn [app extractFingerprintFromComment]. by destruct (markerAt _).
Qed.

Lemma trimEnd_app_solid a b :
  (exists c, last b = Some c /\ is_ws c = false) -> trimEnd (a ++ b) = a ++ b.
Proof.
  intros (c & Hl & Hc). apply last_Some in Hl as [l ->]. unfold trimEnd.
  rewrite app_assoc, rev_app_distr. simpl. rewrite Hc.
  by rewrite <- rev_unit, rev_involutive.
Qed.

(** ** Properties *)

(** Deduplication keeps comments in order, each at most once, none rejected by feedback and none
    seen in the previous review; it drops a comment only for such a reason; and what is kept and
    what is counted as dropped add up to what the model emitted. *)
Theorem dedupComments_spec fpf stf comments prev rejected :
  let r := dedupComments fpf stf comments prev rejected in
  let seen := match prev with Some st => commentFingerprints st | None => [] end in
  length (kept r) + droppedCount r + droppedByFeedback r = length comments /\
  map comment_of (kept r) `sublist_of` comments /\
  NoDup (map fingerprint_of (kept r)) /\
  Forall (fun k : InlineComment => fingerprint_of k = fingerprintOf fpf stf k /\
    fingerprint_of k ∉ rejected /\ fingerprint_of k ∉ seen) (kept r) /\
  (forall c, c ∈ comments ->
     let fp := fingerprintOf fpf stf c in
     fp ∈ rejected \/ fp ∈ seen \/ fp ∈ map fingerprint_of (kept r)).
Proof.
  intros r seen. split_and!.
  - apply dedupLoop_count.
  - apply dedupLoop_sublist.
  - apply dedupLoop_nodup.
  - apply Forall_forall. intros k (? & ? & ? & _)%dedupLoop_kept. done.
  - intros c Hc. by apply dedupLoop_complete.
Qed.

(** Running the same review again on the state built from it posts nothing: the state remembers
    the previous fingerprints and the posted ones, each once. *)
Theorem rereview_posts_nothing fpf stf comments prev now headSha baseSha model tokens cost rejected :
  let r := dedupComments fpf stf comments prev [] in
  let st := buildReviewState now
    {| bs_previousState := prev; bs_comments := kept r; bs_headSha := headSha;
       bs_baseSha := baseSha; bs_modelUsed := model; bs_tokensUsed := tokens;
       bs_costUsd := cost |} in
  kept (dedupComments fpf stf comments (Some st) rejected) = [] /\
  NoDup (commentFingerprints st) /\
  (forall fp, fp ∈ commentFingerprints st <->
     fp ∈ match prev with Some p => commentFingerprints p | None => [] end \/
     fp ∈ map fingerprint_of (kept r)) /\
  lastReviewedSha st = headSha.
Proof.
  intros r st. assert (forall fp, fp ∈ commentFingerprints st <->
     fp ∈ match prev with Some p => commentFingerprints p | None => [] end \/
     fp ∈ map fingerprint_of (kept r)) as Hin.
  { intros fp. simpl. by rewrite elem_of_uniq, elem_of_app. }
  split_and!; [|apply NoDup_uniq|done|done].
  apply dedupLoop_all_seen. intros c Hc. right. apply Hin.
  destruct (dedupLoop_complete fpf stf [] (match prev with Some p => commentFingerprints p | None => [] end)
    comments c Hc) as [[]%elem_of_nil|[?|?]]; [by left|by right].
Qed.

(** A fingerprint written into a comment is read back from it, whatever the comment says before
    (short of a marker of its own), and writing it twice changes nothing. *)
Theorem fingerprint_marker_roundtrip body fp :
  fp_ok fp ->
  (extractFingerprintFromComment body = None ->
   extractFingerprintFromComment (appendFingerprintMarker body fp) = Some fp) /\
  appendFingerprintMarker (appendFingerprintMarker body fp) fp = appendFingerprintMarker body fp.
Proof.
  intros Hfp. split.
  - intros Hn. unfold appendFingerprintMarker.
    assert (forall w, forallb is_ws w = true ->
      extractFingerprintFromComment (body ++ w ++ fingerprintMarker fp) = Some fp) as H.
    { intros w Hw. destruct (extract_tail body (w ++ fingerprintMarker fp)) as (v & _ & (w' & Hw' & He) & ->);
        [by eexists w, _|done|].
      rewrite <- (extract_ws w' v), <- He, extract_ws by done.
      pose proof (extract_marker fp [] Hfp) as Hm. by rewrite app_nil_r in Hm. }
    destruct (endsWith (trimEnd body) _) eqn:E; [|destruct (endsWith body nl); by apply H].
    exfalso. apply endsWith_spec in E as [t Ht].
    destruct (trimEnd_prefix body) as (w & Hb & _). rewrite Ht in Hb. rewrite Hb in Hn.
    rewrite <- app_assoc in Hn. by apply extract_marker_found in Hn.
  - unfold appendFingerprintMarker at 2 3. destruct (endsWith (trimEnd body) _) eqn:E.
    { unfold appendFingerprintMarker. by rewrite E. }
    set (b := body ++ _). unfold appendFingerprintMarker.
    assert (trimEnd b = b) as ->.
    { subst b. rewrite app_assoc. apply trimEnd_app_solid. exists ">"%char. split; [|done].
      unfold fingerprintMarker. rewrite app_assoc.
      change (js " -->") with (js " --" ++ [">"%char]). rewrite app_assoc. apply last_snoc. }
    assert (endsWith b (fingerprintMarker fp) = true) as ->; [|done].
    apply endsWith_spec. eexists. subst b. by rewrite app_assoc.
Qed.

Lemma fingerprint_marker_roundtrip_witness :
  extractFingerprintFromComment (appendFingerprintMarker "Possible null deref <!--" "0123456789abcdef")
    = Some (js "0123456789abcdef").
Proof.
  refine (proj1 (fingerprint_marker_roundtrip "Possible null deref <!--" "0123456789abcdef" _) _).
  - split; [reflexivity|simpl; lia].
  - vm_compute. reflexivity.
Defined.

(** A feedback command resolves only to a fingerprint the bot posted: the one in the parent
    comment's marker, or the only one with the given prefix. *)
Theorem resolveFingerprint_sound i fp src :
  resolveFingerprint i = Ok (fp, src) ->
  fp ∈ ri_knownFingerprints i /\
  match src with
  | from_marker => extractFingerprintFromComment (ri_commentBody i) = Some fp
  | from_prefix => exists p, ri_fpPrefix i = Some p /\ startsWith fp (toLowerCase p) = true /\
      forall fp', fp' ∈ ri_knownFingerprints i -> startsWith fp' (toLowerCase p) = true -> fp' = fp
  end.
Proof.
  unfold resolveFingerprint.
  assert (match ri_fpPrefix i with
    | Some fpPrefix =>
        match List.filter (fun fp => startsWith fp (toLowerCase fpPrefix)) (ri_knownFingerprints i) with
        | [hit] => Ok (hit, from_prefix)
        | _ :: _ :: _ => Throw ambiguous_prefix
        | [] => Throw no_match
        end
    | None => Throw no_marker_and_no_prefix
    end = Ok (fp, src) -> fp ∈ ri_knownFingerprints i /\
      src = from_prefix /\ exists p, ri_fpPrefix i = Some p /\ startsWith fp (toLowerCase p) = true /\
      forall fp', fp' ∈ ri_knownFingerprints i -> startsWith fp' (toLowerCase p) = true -> fp' = fp)
    as Hp.
  { destruct (ri_fpPrefix i) as [p|]; [|done].
    destruct (List.filter _ _) as [|hit [|h2 l]] eqn:E; try done. intros [= <- <-].
    assert (forall x, x ∈ ri_knownFingerprints i /\ startsWith x (toLowerCase p) = true <-> x = hit)
      as Hx by (intros x; rewrite <- (elem_of_bfilter (fun fp => startsWith fp (toLowerCase p))), E;
                set_solver).
    split; [by apply Hx|]. split; [done|]. exists p. split; [done|]. split; [by apply Hx|].
    intros fp' ? ?. by apply Hx. }
  cbv zeta. destruct (extractFingerprintFromComment _) as [m|] eqn:E.
  - case_bool_decide; [intros [= <- <-]; done|]. intros (? & -> & ?)%Hp. done.
  - intros (? & -> & ?)%Hp. done.
Qed.

Lemma resolveFingerprint_sound_witness :
  js "deadbeef00000000" ∈ [js "0123456789abcdef"; js "deadbeef00000000"].
Proof.
  apply (resolveFingerprint_sound
    {| ri_commentBody := "no marker"; ri_fpPrefix := Some (js "DEADBEEF");
       ri_knownFingerprints := [js "0123456789abcdef"; js "deadbeef00000000"] |}
    "deadbeef00000000" from_prefix).
  vm_compute. reflexivity.
Defined.
