(* ===== verification/SystemPrompt.v ===== *)
(** * The system prompt (runner/src/prompts/system-prompt.ts)

    [composeSystemPrompt] and its sections. The constant text [BASE_SYSTEM_PROMPT] and the two
    headings of the learned facts hold characters outside the model's code units (dashes,
    emoji): they are the section's variables [base], [acceptedHeading] and [rejectedHeading]. *)

From S2P Require Import Prelude AutoFetch.

(** [ReviewHistoryFactType] of core/src/db/schema/review-history.ts; the prompt has no block for
    the last one. *)
Inductive factType := accepted_pattern | rejected_finding | arch_decision | suppression_rule.

#[export] Instance factType_eq : EqDecision factType.
Proof. solve_decision. Defined.

Record LearnedFact := { fact_type : factType; factText : str }.

Record ComposeSystemPromptOptions := {
  cp_profile : str;
  cp_skills : list str;
  cp_pathInstructions : list PathInstruction;
  cp_language : str;
  cp_incrementalContext : bool;
  cp_incrementalSinceSha : option str;
  cp_previousFingerprints : list str;
  cp_learnedFacts : list LearnedFact;
}.

Definition MAX_LEARNED_FACTS : nat := 50.
Definition MAX_PROMPT_FINGERPRINTS : nat := 32.

Section prompt.
Context (base acceptedHeading rejectedHeading : str).

(** An absent or empty commit leaves the generic clause. *)
Definition renderIncrementalSection (sinceSha : option str) : str :=
  let sinceClause :=
    match sinceSha with
    | Some ((_ :: _) as s) => " since commit `" ++ s ++ "` (the previously reviewed head)"
    | _ => js " since the previously reviewed head"
    end in
  join nl [ js "## Incremental review"; [];
    "You are reviewing ONLY the new commits added" ++ sinceClause ++ ", not the entire PR. Earlier commits were already reviewed in a prior pass and their findings persist on the PR.";
    [];
    js "Do not re-flag issues that live entirely outside this incremental diff. If a new commit introduces a regression in a previously-untouched line, you may comment on that line; otherwise treat unchanged regions as out-of-scope context only." ].

(** One block of learned facts: nothing when it has none. *)
Definition factBlock (heading : str) (facts : list LearnedFact) : list str :=
  match facts with
  | [] => []
  | _ => heading :: map (fun f => "- " ++ factText f) facts ++ [[]]
  end.

Definition factsOf (t : factType) (facts : list LearnedFact) : list LearnedFact :=
  List.filter (fun f => bool_decide (fact_type f = t)) facts.

Definition renderLearnedFactsSection (facts : list LearnedFact) : str :=
  join nl
    ([ js "## <learned_facts>"; [];
       js "Prior human feedback on this repo. Use these as priors, not absolutes. The runner still post-filters by fingerprint as a backstop.";
       [] ]
     ++ factBlock acceptedHeading (factsOf accepted_pattern facts)
     ++ factBlock rejectedHeading (factsOf rejected_finding facts)
     ++ factBlock "### Architectural decisions (operator-recorded context)"
          (factsOf arch_decision facts)
     ++ [js "</learned_facts>"]).

Definition renderPreviousFindingsSection (fingerprints : list str) : str :=
  let total := length fingerprints in
  let shown := take MAX_PROMPT_FINGERPRINTS fingerprints in
  let moreClause :=
    if (length shown <? total)%nat
    then " (showing first " ++ showN (length shown) ++ " of " ++ showN total ++ ")" else [] in
  join nl [ js "## Previously raised findings"; [];
    "The previous review of this PR posted " ++ showN total ++ " finding"
      ++ (if (total =? 1)%nat then [] else js "s") ++ " identified by fingerprint" ++ moreClause
      ++ ": " ++ join ", " shown ++ ".";
    [];
    js "The runner post-filters new comments whose fingerprint collides with one of these, so re-raising an equivalent issue produces no additional output. Prefer flagging genuinely new problems instead." ].

(** A section that is there when its condition is. *)
Definition whenSection (b : bool) (s : str) : list str := if b then [s] else [].

Definition nonEmpty {A} (l : list A) : bool := match l with [] => false | _ => true end.

Definition promptSections (o : ComposeSystemPromptOptions) : list str :=
  whenSection (nonEmpty (trim (cp_profile o))) ("## Profile" ++ nl ++ trim (cp_profile o))
  ++ whenSection (nonEmpty (cp_skills o))
       ("## Skills" ++ nl ++ join (nl ++ nl) (List.filter nonEmpty (map trim (cp_skills o))))
  ++ whenSection (nonEmpty (cp_pathInstructions o))
       ("## Path Instructions" ++ nl ++
        join nl (map (fun p => "- For files matching `" ++ pi_pattern p ++ "`: " ++ trim (pi_text p))
                   (cp_pathInstructions o)))
  ++ whenSection (cp_incrementalContext o) (renderIncrementalSection (cp_incrementalSinceSha o))
  ++ whenSection (nonEmpty (cp_previousFingerprints o))
       (renderPreviousFindingsSection (cp_previousFingerprints o))
  ++ whenSection (nonEmpty (cp_learnedFacts o)) (renderLearnedFactsSection (cp_learnedFacts o)).

Definition languageSection (language : str) : str :=
  "Write all comment bodies and the summary in " ++ language ++
  ". Code identifiers, file paths, and technical terms stay in their original form.".

Definition composeSystemPrompt (o : ComposeSystemPromptOptions) : str :=
  join (nl ++ nl) (base :: promptSections o ++ [languageSection (cp_language o)]).

(** ** Lemmas *)

Lemma whenSection_elem b s : b = true -> s ∈ whenSection b s.
Proof. intros ->. left. Qed.

Lemma nonEmpty_elem {A} (x : A) l : x ∈ l -> nonEmpty l = true.
Proof. destruct l; [by intros []%elem_of_nil|done]. Qed.

Lemma factBlock_elem heading facts f :
  f ∈ facts -> ("- " ++ factText f) ∈ factBlock heading facts.
Proof.
  destruct facts as [|g facts]; [by intros []%elem_of_nil|]. intros Hf. right.
  apply elem_of_app. left. apply elem_of_bmap. by exists f.
Qed.

Lemma renderLearnedFactsSection_includes facts f :
  f ∈ facts -> fact_type f <> suppression_rule -> includes (renderLearnedFactsSection facts) ("- " ++ factText f) = true.
Proof.
  intros Hf Hn. unfold renderLearnedFactsSection.
  apply (includes_joined _ _ ("- " ++ factText f)); [|apply includes_refl].
  assert (f ∈ factsOf (fact_type f) facts) as H.
  { apply elem_of_bfilter. by rewrite bool_decide_true. }
  rewrite !elem_of_app. right. destruct (fact_type f).
  - left. by apply factBlock_elem.
  - right. left. by apply factBlock_elem.
  - right. right. left. by apply factBlock_elem.
  - done.
Qed.

Lemma renderPreviousFindingsSection_includes fps fp :
  fp ∈ take MAX_PROMPT_FINGERPRINTS fps ->
  includes (renderPreviousFindingsSection fps) fp = true.
Proof.
  intros Hfp. unfold renderPreviousFindingsSection.
  eapply includes_joined; [do 2 right; left|].
  do 7 apply includes_app_r. apply includes_app_l.
  by eapply includes_joined; [done|apply includes_refl].
Qed.

(** ** Properties *)

(** The system prompt opens with the fixed instructions and closes with the language; in between
    it holds every accepted pattern, rejected finding and recorded decision, every path instruction's text, and the first thirty-two
    fingerprints of the previous review, whatever else is configured. *)
Theorem composeSystemPrompt_spec o :
  startsWith (composeSystemPrompt o) base = true /\
  endsWith (composeSystemPrompt o) (languageSection (cp_language o)) = true /\
  (forall f, f ∈ cp_learnedFacts o -> fact_type f <> suppression_rule ->
     includes (composeSystemPrompt o) ("- " ++ factText f) = true) /\
  (forall p, p ∈ cp_pathInstructions o ->
     includes (composeSystemPrompt o) ("`" ++ pi_pattern p ++ "`: " ++ trim (pi_text p)) = true) /\
  (forall fp, fp ∈ take MAX_PROMPT_FINGERPRINTS (cp_previousFingerprints o) ->
     includes (composeSystemPrompt o) fp = true).
Proof.
  assert (forall s p, s ∈ promptSections o -> includes s p = true ->
    includes (composeSystemPrompt o) p = true) as Hin.
  { intros s p Hs Hp. eapply includes_joined; [|done]. right. apply elem_of_app. by left. }
  split_and!.
  - apply startsWith_spec. unfold composeSystemPrompt. rewrite join_cons; [by eexists|].
    by destruct (promptSections o).
  - apply endsWith_spec. unfold composeSystemPrompt. rewrite app_comm_cons, join_app by done.
    rewrite app_assoc. by eexists.
  - intros f Hf Hn. apply (Hin (renderLearnedFactsSection (cp_learnedFacts o)));
      [|by apply renderLearnedFactsSection_includes].
    unfold promptSections. rewrite !elem_of_app. do 5 right.
    apply whenSection_elem. by eapply nonEmpty_elem.
  - intros p Hp. eapply Hin.
    { unfold promptSections. rewrite !elem_of_app. do 2 right. left.
      apply whenSection_elem. by eapply nonEmpty_elem. }
    do 2 apply includes_app_r. eapply includes_joined; [apply elem_of_bmap; by exists p|].
    apply (includes_app_r (js "- For files matching ") _ _), includes_refl.
  - intros fp Hfp. apply (Hin (renderPreviousFindingsSection (cp_previousFingerprints o)));
      [|by apply renderPreviousFindingsSection_includes].
    unfold promptSections. rewrite !elem_of_app. do 4 right. left.
    apply whenSection_elem.
    destruct (cp_previousFingerprints o); [by apply elem_of_nil in Hfp|done].
Qed.
End prompt.
