(* ===== verification/Runner.v ===== *)
(** * The runner's types and helpers (runner/src/types.ts, runner/src/agent.ts,
    runner/src/middleware/injection-guard.ts, llm/src/types.ts)

    The job, the provider, the injected dependencies and the result of a review, and the pure
    steps of agent.ts. The effects of the injected functions are those of a world [W]. What the
    runner takes from the JavaScript engine, node and zod is the record [Platform]. *)

From S2P Require Import Prelude JsNumber Regex Glob DiffFilter Errors Schema Cost Gitleaks.
From S2P Require Import Tools Untrusted AutoFetch SystemPrompt Review Dedup.

(** [log2] and [toFixed2] serve the entropy of a string and its text, [matchAll] and [newRegExp]
    compile regular expressions, [parseURL] is the URL constructor, [shapeIssues] are zod's issues
    for an output of the wrong shape, [sha256hex] is node's hash, [regexpMessage] the engine's
    message for an invalid expression, [emDashText] a character outside the model's range; [root] is the tree behind the job's workspace. *)
Record Platform := {
  log2 : number -> number;
  toFixed2 : number -> str;
  matchAll : str -> option (str -> list (nat * str));
  newRegExp : str -> option (str -> bool);
  parseURL : str -> option URL;
  shapeIssues : list ReviewOutputComment -> str -> list issue;
  sha256hex : str -> str;
  regexpMessage : str;
  emDashText : str;
  basePrompt : str;
  acceptedHeading : str;
  rejectedHeading : str;
  root : node;
}.

(** ** The job *)

Inductive ConfigResolutionSource := repo_yaml | org_yaml | from_env | from_default.

Record ConfigResolutionLog := {
  primarySource : ConfigResolutionSource;
  orgYamlLoaded : bool;
  envApplied : bool;
  sections : list (str * ConfigResolutionSource);
}.

Record RulesetEntry := { enabled : bool; min_severity : Severity }.

Record Privacy := {
  allowedUrlPrefixes : list str;
  denyPaths : list str;
  redactPatterns : list str;
}.

Record ReviewJob := {
  jobId : str;
  workspaceDir : str;
  diffText : str;
  changedPaths : option (list str);
  prMetadata : UntrustedMetadata;
  previousState : option ReviewState;
  profile : str;
  pathInstructions : list PathInstruction;
  skills : list str;
  language : str;
  costCapUsd : number;
  incrementalContext : bool;
  incrementalSinceSha : option str;
  minConfidence : option Confidence;
  requestChangesOn : option RequestChangesThreshold;
  pathFilters : list str;
  job_maxFiles : Z;
  job_maxDiffLines : Z;
  privacy : Privacy;
  job_prRepo : prRepo;
  ruleset : option (Category -> option RulesetEntry);
  resolutionLog : option ConfigResolutionLog;
  maxSteps : option Z;
}.

(** ** The result *)

Inductive exclusionReason := path_filter | max_files_cap | max_diff_lines_cap.
Inductive capName := cap_max_files | cap_max_diff_lines.

Record ExcludedFile := { ex_path : str; ex_reason : exclusionReason }.

Record ExclusionReport := { excludedFiles : list ExcludedFile; capsApplied : list capName }.

Record Aborted := { ab_reason : ReviewAbortReason; internalIssues : list issue }.

Record RunnerResult := {
  rr_comments : list InlineComment;
  rr_summary : str;
  rr_costUsd : number;
  rr_tokensUsed : TokensUsed;
  rr_model : str;
  rr_provider : str;
  droppedDuplicates : nat;
  rr_droppedByFeedback : option nat;
  droppedByRuleset : nat;
  droppedBySuppression : option nat;
  rr_toolCalls : Z;
  reviewEvent : ReviewEvent;
  exclusionReport : option ExclusionReport;
  aborted : option Aborted;
}.

(** ** The provider *)

Record ReviewInput := {
  in_systemPrompt : str;
  in_diffText : str;
  in_prMetadata : UntrustedMetadata;
  in_fileReader : str -> str;
  in_language : str;
  in_tools : str -> ToolArgs -> result toolError ToolOutput;
  in_maxToolCalls : Z;
}.

(** A call of [generateReview] dispatches a number of tool calls, each of which runs the
    runner's [onCall], whether it then returns or throws. *)
Record LlmProvider (W : Type) := {
  pv_name : str;
  pv_model : str;
  generateReview : ReviewInput -> W -> (nat * result thrown ReviewOutput) * W;
  estimateCost : ReviewInput -> eff W thrown number;
}.
Arguments pv_name {W} _.
Arguments pv_model {W} _.
Arguments generateReview {W} _ _ _.
Arguments estimateCost {W} _ _ _.

(** ** Review history rows *)

Record HistoryQuery := { hq_installationId : Z; hq_repo : str; hq_limit : option nat }.

Record EvalContext := { ec_installationId : Z; ec_prNumber : Z; ec_headSha : str }.

(** ** Constants and helpers of agent.ts *)

Definition RETRY_PROMPT_SUFFIX : str :=
  nl ++ nl ++ "IMPORTANT: your previous response failed schema validation. Produce strictly valid output that matches the configured schema.".

Definition DEFAULT_RULESET_CATEGORY : Category := bug.

(** The source's section signs are code units of the model. *)
Definition specRef : str := "See spec " ++ [section_sign] ++ "7.3.".

Definition URL_ALLOWLIST_ABORT_SUMMARY : str :=
  "Review aborted: LLM produced output that violates the URL allowlist after one retry. " ++ specRef.
Definition SCHEMA_ABORT_SUMMARY : str :=
  "Review aborted: LLM produced output that fails schema validation after one retry. " ++ specRef.

Definition maxFilesSkipSummary (fileCount : nat) (cap : Z) : str :=
  "Review skipped: PR exceeds the max_files cap (" ++ showN fileCount ++ " files > limit "
  ++ showZ cap ++ "). Adjust reviews.max_files in .review-agent.yml or reduce PR scope.".
Definition maxDiffLinesSkipSummary (lineCount : nat) (cap : Z) : str :=
  "Review skipped: PR exceeds the max_diff_lines cap (" ++ showN lineCount ++ " lines > limit "
  ++ showZ cap ++ "). Adjust reviews.max_diff_lines in .review-agent.yml or reduce PR scope.".

Definition noTokens : TokensUsed := {| tok_input := 0; tok_output := 0 |}.

Definition buildCapSkipResult {W} (provider : LlmProvider W) (reason : ReviewAbortReason)
    (summary : str) (report : ExclusionReport) : RunnerResult :=
  {| rr_comments := []; rr_summary := summary; rr_costUsd := zero; rr_tokensUsed := noTokens;
     rr_model := pv_model provider; rr_provider := pv_name provider; droppedDuplicates := 0;
     rr_droppedByFeedback := None; droppedByRuleset := 0; droppedBySuppression := None;
     rr_toolCalls := 0; reviewEvent := COMMENT; exclusionReport := Some report;
     aborted := Some {| ab_reason := reason; internalIssues := [] |} |}.

Definition classifyAbort (issues : list issue) : ReviewAbortReason * str :=
  if existsb (fun i => startsWith (issue_message i) URL_ALLOWLIST_ISSUE_PREFIX) issues
  then (url_allowlist, URL_ALLOWLIST_ABORT_SUMMARY)
  else (schema_violation, SCHEMA_ABORT_SUMMARY).

Definition CATEGORIES : list Category :=
  [bug; security; performance; maintainability; style; docs; test].

(** The rule a comment is judged by: none when the ruleset has no entry for its category. *)
Definition rulesetAllows (rs : Category -> option RulesetEntry) (c : InlineComment) : bool :=
  match rs (default DEFAULT_RULESET_CATEGORY (category c)) with
  | None => true
  | Some entry =>
      enabled entry &&
      negb (SEVERITY_RANK (severity c) <? SEVERITY_RANK (min_severity entry))%Z
  end.

(** The loop of [applyRulesetFilter] *)
Fixpoint rulesetLoop (rs : Category -> option RulesetEntry) (cs : list InlineComment)
    : list InlineComment * nat :=
  match cs with
  | [] => ([], 0)
  | c :: rest =>
      let '(k, dropped) := rulesetLoop rs rest in
      if rulesetAllows rs c then (c :: k, dropped) else (k, S dropped)
  end.

Definition applyRulesetFilter (comments : list InlineComment)
    (rs : option (Category -> option RulesetEntry)) : list InlineComment * nat :=
  match rs with
  | None => (comments, 0)
  | Some f =>
      if existsb (fun cat => bool_decide (is_Some (f cat))) CATEGORIES
      then rulesetLoop f comments else (comments, 0)
  end.

(** [Array.prototype.indexOf] on the confidences. *)
Definition confidence_index (c : Confidence) : nat :=
  match c with high => 0 | medium => 1 | low => 2 end.

Definition meetsConfidence (commentConfidence : option Confidence) (floor : Confidence) : bool :=
  (confidence_index (default high commentConfidence) <=? confidence_index floor)%nat.

Definition normalizeRepoKey (r : prRepo) (installationId : Z) : str :=
  (match owner r with [] => showZ installationId | o => o end) ++ "/" ++ repo r.

(** [/^\[fp:([0-9a-f]+)\]/] *)
Definition extractFingerprint (text : str) : option str :=
  if startsWith text "[fp:" then
    let digits := takeWhile is_hex (drop 4 text) in
    match digits with
    | [] => None
    | _ => if startsWith (drop (length digits) (drop 4 text)) "]" then Some digits else None
    end
  else None.

Definition uniqueRuleIds (findings : list GitleaksFinding) : list str :=
  uniq (map Gitleaks.ruleId findings).

(** [path.join('.')] *)
Definition issuePathText (p : issuePath) : str :=
  match p with
  | BodyOf i => "comments." ++ showN i ++ ".body"
  | SuggestionOf i => "comments." ++ showN i ++ ".suggestion"
  | Summary => "summary"
  end.

Definition validateOutput (P : Platform) (job : ReviewJob) (out : ReviewOutput)
    : result thrown unit :=
  let fail iss := Throw (Agent (SchemaValidationError
    "LLM output failed ReviewOutputSchema validation" iss)) in
  match ReviewOutputSchema (parseURL P) (allowedUrlPrefixes (privacy job)) (job_prRepo job)
          (out_comments out) (out_summary out) with
  | Ok _ => Ok tt
  | Throw ShapeFailure => fail (shapeIssues P (out_comments out) (out_summary out))
  | Throw (UrlFailure iss) =>
      fail (map (fun i => {| issue_path := issuePathText (issue_at i);
                             issue_message := issueMessage (job_prRepo job) i |}) iss)
  end.

Definition globThrown (P : Platform) (e : GlobError) : thrown :=
  let m : str := match e with
    | EmptyPattern => "glob pattern must be non-empty"
    | NulByte => "glob pattern must not contain a NUL byte"
    | SyntaxError => regexpMessage P
    end in
  Object (Some m) NoStatus None ("Error: " ++ m).

Definition globResult {A} (P : Platform) (r : result GlobError A) : result thrown A :=
  match r with Ok a => Ok a | Throw e => Throw (globThrown P e) end.

(** ** Middlewares *)

Definition Middleware (S : Type) : Type := eff S thrown ReviewOutput -> eff S thrown ReviewOutput.

(** The first middleware of the list runs first; each calls the next. *)
Definition compose {S} (mws : list (Middleware S)) (terminal : eff S thrown ReviewOutput)
    : eff S thrown ReviewOutput :=
  foldr (fun mw next => mw next) terminal mws.

(** Each pattern with its source text, matched in any letter case. *)
Definition SUSPICIOUS_PATTERNS : list str :=
  [js "ignore previous instructions"; js "system prompt"; js "you are now"; js "respond only with"].


Definition createInjectionGuard {S} (onSuspicion : option (str -> eff S thrown unit))
    (meta : UntrustedMetadata) : Middleware S := fun next =>
  let haystack := title meta ++ nl ++ um_body meta in
  match List.find (includesI haystack) SUSPICIOUS_PATTERNS with
  | Some pattern => callOpt onSuspicion ("pattern matched: " ++ pattern);; next
  | None => next
  end.
