(* ===== verification/Agent.v ===== *)
(** * The review loop (runner/src/agent.ts)

    [runReviewInner], phase by phase: the history, the cap pipeline, the secret scan of the diff,
    the assembly of the prompt, the guarded model call with its one retry, and the filters on
    what the model said. The two variables the phases share, the accumulated cost and the number
    of tool calls, and the world of the injected functions are the record [runState]. *)

From S2P Require Import Prelude JsNumber Regex Glob DiffFilter Errors Schema Cost Gitleaks.
From S2P Require Import Tools Untrusted AutoFetch SystemPrompt Review Dedup Runner.

(** ** The state of a run *)

Record runState (W : Type) := {
  rs_cost : number;
  rs_calls : nat;
  rs_world : W;
}.
Arguments rs_cost {W} _.
Arguments rs_calls {W} _.
Arguments rs_world {W} _.
Arguments Build_runState {W} _ _ _.

#[export, refine] Instance runState_cell {W} : CostCell (runState W) := {
  getCost := rs_cost;
  setCost c s := Build_runState c (rs_calls s) (rs_world s);
}.
Proof. done. Defined.

(** An injected function changes the world only. *)
Definition inWorld {W A} (m : eff W thrown A) : eff (runState W) thrown A := fun s =>
  let '(r, w) := m (rs_world s) in (r, Build_runState (rs_cost s) (rs_calls s) w).

(** The provider's tool calls run the runner's [onCall], which counts them. *)
Definition callProvider {W} (provider : LlmProvider W) (input : ReviewInput)
    : eff (runState W) thrown ReviewOutput := fun s =>
  let '((n, r), w) := generateReview provider input (rs_world s) in
  (r, Build_runState (rs_cost s) (rs_calls s + n) w).

(** ** The injected dependencies *)

Record RunReviewDeps (W : Type) := {
  onConfigResolution : option (ConfigResolutionLog -> eff W thrown unit);
  fileReader : option (str -> str);
  scanContent : option (str -> list GitleaksFinding);
  historyReader : option (HistoryQuery -> eff W thrown (list LearnedFact));
  onHistoryReaderError : option (thrown -> eff W thrown unit);
  suppressionLoader : option (HistoryQuery -> eff W thrown (list str));
  evalContext : option EvalContext;
}.
Arguments onConfigResolution {W} _.
Arguments fileReader {W} _.
Arguments scanContent {W} _.
Arguments historyReader {W} _.
Arguments onHistoryReaderError {W} _.
Arguments suppressionLoader {W} _.
Arguments evalContext {W} _.

Section agent.
Context {W : Type} (P : Platform) (job : ReviewJob) (provider : LlmProvider W)
  (deps : RunReviewDeps W).

(** ** Before the model *)

Definition noteConfig : eff W thrown unit :=
  match resolutionLog job, onConfigResolution deps with
  | Some log, Some f => f log
  | _, _ => mret tt
  end.

(** The learned facts and the fingerprints of the rejected ones; a failing reader is reported
    and its error thrown on. *)
Definition loadHistory : eff W thrown (list LearnedFact * list str) :=
  match historyReader deps, evalContext deps with
  | Some reader, Some ec =>
      rows ← tryCatch
        (reader {| hq_installationId := ec_installationId ec;
                   hq_repo := normalizeRepoKey (job_prRepo job) (ec_installationId ec);
                   hq_limit := Some MAX_LEARNED_FACTS |})
        (fun err => callOpt (onHistoryReaderError deps) err;; throw err);
      mret (rows, omap (fun r => extractFingerprint (factText r)) (factsOf rejected_finding rows))
  | _, _ => mret ([], [])
  end.

Definition loadSuppressions : eff W thrown (list str) :=
  match suppressionLoader deps, evalContext deps with
  | Some loader, Some ec =>
      rows ← loader {| hq_installationId := ec_installationId ec;
                       hq_repo := normalizeRepoKey (job_prRepo job) (ec_installationId ec);
                       hq_limit := None |};
      mret (omap extractFingerprint rows)
  | _, _ => mret []
  end.

(** [promptOptions]; the commit is passed on for an incremental review only. *)
Definition promptOptions (facts : list LearnedFact) : ComposeSystemPromptOptions :=
  {| cp_profile := profile job; cp_skills := skills job;
     cp_pathInstructions := pathInstructions job; cp_language := language job;
     cp_incrementalContext := incrementalContext job;
     cp_incrementalSinceSha := if incrementalContext job then incrementalSinceSha job else None;
     cp_previousFingerprints :=
       match previousState job with Some st => commentFingerprints st | None => [] end;
     cp_learnedFacts := facts |}.

Definition scan (text : str) : list GitleaksFinding :=
  match scanContent deps with
  | Some f => f text
  | None => quickScanContent (log2 P) (toFixed2 P) (matchAll P) text (redactPatterns (privacy job))
  end.

(** ** The cap pipeline *)

Inductive capOutcome :=
  | CapSkip (r : RunnerResult)
  | CapPass (diff : str) (changed : list str) (excluded : list ExcludedFile).

Definition excludedAs (reason : exclusionReason) (f : ParsedDiffFile) : ExcludedFile :=
  {| ex_path := DiffFilter.path f; ex_reason := reason |}.

(** The files the filter dropped, by their paths. *)
Definition pathFilterExclusions (parsed filtered : ParsedDiff) (changed : bool)
    : list ExcludedFile :=
  if changed then
    map (excludedAs path_filter)
      (List.filter (fun f =>
         negb (existsb (fun kf => bool_decide (DiffFilter.path kf = DiffFilter.path f)) (files filtered)))
         (files parsed))
  else [].

Definition capPipeline : result thrown capOutcome :=
  let parsed := parseDiffByFile (diffText job) in
  '(filtered, changed) ← globResult P (applyPathFilters parsed (pathFilters job));
  let dropped := pathFilterExclusions parsed filtered changed in
  let n := length (files filtered) in
  let lines := countDiffLines filtered in
  if (job_maxFiles job <? Z.of_nat n)%Z then
    Ok (CapSkip (buildCapSkipResult provider max_files_exceeded
          (maxFilesSkipSummary n (job_maxFiles job))
          {| excludedFiles := dropped ++ map (excludedAs max_files_cap) (files filtered);
             capsApplied := [cap_max_files] |}))
  else if (job_maxDiffLines job <? Z.of_nat lines)%Z then
    Ok (CapSkip (buildCapSkipResult provider max_diff_lines_exceeded
          (maxDiffLinesSkipSummary lines (job_maxDiffLines job))
          {| excludedFiles := dropped ++ map (excludedAs max_diff_lines_cap) (files filtered);
             capsApplied := [cap_max_diff_lines] |}))
  else
    Ok (CapPass
          (if changed then reassembleDiff filtered else diffText job)
          (if changed then map DiffFilter.path (files filtered) else default [] (changedPaths job))
          dropped).

(** The secret scan of a text: its findings, or the error that stops the review. *)
Definition scanOrAbort (phase : SecretLeakPhase) (text : str) : result thrown (list GitleaksFinding) :=
  let findings := scan text in
  let '(abort, reason) := shouldAbortReview findings in
  if abort then
    Throw (Agent (SecretLeakAbortedError phase (length findings) (uniqueRuleIds findings)
                    (default (js "unknown") reason)))
  else Ok findings.

(** ** The input *)

Definition autoFetched (changed : list str) (denyPatterns : list re) : AutoFetchResult :=
  collectAutoFetchContext changed (pathInstructions job) (workspaceDir job) (root P) denyPatterns
    DEFAULT_AUTO_FETCH_BUDGET.

(** The envelope, and after it the diff as it is. *)
Definition diffPayload (diff : str) (fetched : AutoFetchResult) : str :=
  wrapUntrusted (prMetadata job)
    (Some {| rf_files := af_files fetched; hitBudgetLimit := af_hitBudgetLimit fetched;
             totalBytes := af_totalBytes fetched |})
  ++ nl ++ nl ++ diff.

Definition baseInput (facts : list LearnedFact) (diff : str) (changed : list str)
    (denyPatterns : list re) : ReviewInput :=
  {| in_systemPrompt :=
       composeSystemPrompt (basePrompt P) (acceptedHeading P) (rejectedHeading P)
         (promptOptions facts);
     in_diffText := diffPayload diff (autoFetched changed denyPatterns);
     in_prMetadata := prMetadata job;
     in_fileReader := default (fun _ => []) (fileReader deps);
     in_language := language job;
     in_tools := fun name args =>
       dispatchTool (newRegExp P) (emDashText P) (workspaceDir job) (root P) denyPatterns name (Some args);
     in_maxToolCalls := default MAX_TOOL_CALLS (maxSteps job) |}.

(** ** The model call *)

Definition retryInput (input : ReviewInput) : ReviewInput :=
  {| in_systemPrompt := in_systemPrompt input ++ RETRY_PROMPT_SUFFIX;
     in_diffText := in_diffText input; in_prMetadata := in_prMetadata input;
     in_fileReader := in_fileReader input; in_language := in_language input;
     in_tools := in_tools input; in_maxToolCalls := in_maxToolCalls input |}.

Definition attempt (input : ReviewInput) : eff (runState W) thrown ReviewOutput :=
  out ← callProvider provider input;
  lift (validateOutput P job out);;
  mret out.

Definition main (input : ReviewInput) : eff (runState W) thrown ReviewOutput :=
  tryCatch (attempt input)
    (fun err => match err with
                | Agent (SchemaValidationError _ _) => attempt (retryInput input)
                | _ => throw err
                end).

Definition middlewares (input : ReviewInput) : list (Middleware (runState W)) :=
  [createInjectionGuard None (prMetadata job);
   createCostGuard agentGuardOptions (costCapUsd job) (inWorld (estimateCost provider input))].

(** ** After the model *)

Definition reportOf (excl : list ExcludedFile) : option ExclusionReport :=
  match excl with [] => None | _ => Some {| excludedFiles := excl; capsApplied := [] |} end.

(** The answer when the second output failed the schema too. *)
Definition abortResult (issues : list issue) (excl : list ExcludedFile) (s : runState W)
    : RunnerResult :=
  let '(reason, text) := classifyAbort issues in
  {| rr_comments := []; rr_summary := text; rr_costUsd := rs_cost s; rr_tokensUsed := noTokens;
     rr_model := pv_model provider; rr_provider := pv_name provider; droppedDuplicates := 0;
     rr_droppedByFeedback := None; droppedByRuleset := 0; droppedBySuppression := None;
     rr_toolCalls := Z.of_nat (rs_calls s); reviewEvent := COMMENT;
     exclusionReport := reportOf excl;
     aborted := Some {| ab_reason := reason; internalIssues := issues |} |}.

Definition isSuppressed (suppressed : list str) (c : InlineComment) : bool :=
  bool_decide (fingerprint_of c ∈ suppressed).

(** The comments no active suppression rule mutes, and how many one did. *)
Definition applySuppressions (suppressed : list str) (cs : list InlineComment)
    : list InlineComment * nat :=
  match suppressed with
  | [] => (cs, 0)
  | _ => (List.filter (fun c => negb (isSuppressed suppressed c)) cs,
          length (List.filter (isSuppressed suppressed) cs))
  end.

Definition dedup (rejected : list str) (out : ReviewOutput) : DedupResult :=
  dedupComments (fingerprint (sha256hex P)) defaultSuggestionType (out_comments out)
    (previousState job) rejected.

Definition confident (cs : list InlineComment) : list InlineComment :=
  List.filter (fun c : InlineComment => meetsConfidence (confidence c) (default low (minConfidence job))) cs.

Definition scannedText (summary : str) (cs : list InlineComment) : str :=
  join (nl ++ nl) (summary :: map (fun c : InlineComment => body c) cs).

Definition redactAll (findings : list GitleaksFinding) (cs : list InlineComment)
    : list InlineComment :=
  match findings with
  | [] => cs
  | _ => map (fun c : InlineComment => set_body (applyRedactions (body c) findings) c) cs
  end.

Definition finalize (rejected suppressed : list str) (excl : list ExcludedFile)
    (out : ReviewOutput) (s : runState W) : result thrown RunnerResult :=
  let d := dedup rejected out in
  let '(ruled, droppedRuled) := applyRulesetFilter (confident (kept d)) (ruleset job) in
  let '(left_, muted) := applySuppressions suppressed ruled in
  findings ← scanOrAbort phase_output (scannedText (out_summary out) left_);
  let comments := redactAll findings left_ in
  Ok {| rr_comments := comments;
        rr_summary := match findings with [] => out_summary out
                      | _ => applyRedactions (out_summary out) findings end;
        rr_costUsd := rs_cost s;
        rr_tokensUsed := out_tokensUsed out;
        rr_model := pv_model provider;
        rr_provider := pv_name provider;
        droppedDuplicates := droppedCount d;
        rr_droppedByFeedback := Some (droppedByFeedback d);
        droppedByRuleset := droppedRuled;
        droppedBySuppression := match suppressionLoader deps with Some _ => Some muted | None => None end;
        rr_toolCalls := Z.max (default 0%Z (out_toolCalls out)) (Z.of_nat (rs_calls s));
        reviewEvent := computeReviewEvent comments (default at_critical (requestChangesOn job));
        exclusionReport := reportOf excl;
        aborted := None |}.

(** The guarded call: its output, or the issues of an output that failed the schema twice. *)
Definition callModel (input : ReviewInput) : eff (runState W) thrown (ReviewOutput + list issue) :=
  tryCatch (out ← compose (middlewares input) (main input); mret (inl out))
    (fun err => match err with
                | Agent (SchemaValidationError _ issues) => mret (inr issues)
                | _ => throw err
                end).

(** The phases after the caps let the review through. *)
Definition reviewDiff (facts : list LearnedFact) (rejected suppressed : list str)
    (diff : str) (changed : list str) (excl : list ExcludedFile)
    : eff (runState W) thrown RunnerResult :=
  lift (scanOrAbort phase_diff diff);;
  denyPatterns ← lift (globResult P (compileAll (denyPaths (privacy job))));
  r ← callModel (baseInput facts diff changed denyPatterns);
  s ← get;
  match r with
  | inl out => lift (finalize rejected suppressed excl out s)
  | inr issues => mret (abortResult issues excl s)
  end.

(** What a review reads before it looks at the diff: the learned facts, the fingerprints of the
    rejected ones, and the suppressed fingerprints. *)
Definition prologue : eff W thrown (list LearnedFact * list str * list str) :=
  noteConfig;;
  '(facts, rejected) ← loadHistory;
  suppressed ← loadSuppressions;
  mret (facts, rejected, suppressed).

Definition runPhases : eff (runState W) thrown RunnerResult :=
  '(facts, rejected, suppressed) ← inWorld prologue;
  caps ← lift capPipeline;
  match caps with
  | CapSkip r => mret r
  | CapPass diff changed excl => reviewDiff facts rejected suppressed diff changed excl
  end.

Definition runReviewInner : eff W thrown RunnerResult := fun w =>
  let '(r, s) := runPhases (Build_runState zero 0 w) in (r, rs_world s).
End agent.
