(* ===== verification/AgentLemmas.v ===== *)
(** * Lemmas on the review loop

    How a run of [runReviewInner] that returns splits into its phases, and what the guarded
    model call leaves in the run's state. *)

From S2P Require Import Prelude JsNumber Regex Glob DiffFilter Errors Schema Cost Gitleaks.
From S2P Require Import Tools Untrusted AutoFetch SystemPrompt Review Dedup Runner Agent.

Lemma tryCatch_Ok {S E A} (m : eff S E A) h s a s' :
  tryCatch m h s = (Ok a, s') <->
  m s = (Ok a, s') \/ exists e s1, m s = (Throw e, s1) /\ h e s1 = (Ok a, s').
Proof.
  unfold tryCatch. destruct (m s) as [[x|e] s1]; split.
  - intros [= -> ->]. by left.
  - by intros [[= -> ->]|(? & ? & [=] & _)].
  - intros H. right. by exists e, s1.
  - intros [[=]|(? & ? & [= <- <-] & H)]. done.
Qed.

Lemma tryCatch_Throw {S E A} (m : eff S E A) h s e s' :
  tryCatch m h s = (Throw e, s') <-> exists e1 s1, m s = (Throw e1, s1) /\ h e1 s1 = (Throw e, s').
Proof.
  unfold tryCatch. destruct (m s) as [[x|e1] s1]; split.
  - done.
  - by intros (? & ? & [=] & _).
  - intros H. by exists e1, s1.
  - by intros (? & ? & [= <- <-] & H).
Qed.

Section lemmas.
Context {W : Type} (P : Platform) (job : ReviewJob) (provider : LlmProvider W)
  (deps : RunReviewDeps W).

Notation start w := (Build_runState (W := W) zero 0 w).

(** ** The model call *)

Lemma callProvider_cost input s r s' :
  callProvider provider input s = (r, s') -> rs_cost s' = rs_cost s.
Proof. unfold callProvider. destruct (generateReview _ _ _) as [[n o] w]. by intros [= <- <-]. Qed.

Lemma attempt_cost input s r s' :
  attempt P job provider input s = (r, s') -> rs_cost s' = rs_cost s.
Proof.
  unfold attempt, mbind, eff_bind.
  destruct (callProvider provider input s) as [[o|e] s1] eqn:E; apply callProvider_cost in E.
  - unfold lift. destruct (validateOutput P job o); cbn; by intros [= _ <-].
  - by intros [= _ <-].
Qed.

(** The provider, called in [w], answered [out] and left [w']. *)
Definition answers (input : ReviewInput) (w : W) (out : ReviewOutput) (w' : W) : Prop :=
  exists n, generateReview provider input w = ((n, Ok out), w').

(** An answer that is sent back to the model once: it broke the schema. *)
Definition brokeSchema (r : result thrown ReviewOutput) : Prop :=
  exists msg issues,
    r = Throw (Agent (SchemaValidationError msg issues)) \/
    exists out, r = Ok out /\
      validateOutput P job out = Throw (Agent (SchemaValidationError msg issues)).

(** The provider's last answer in a run that asks it for [input] first. With a cap on the cost
    the provider is first asked for its estimate; an answer that broke the schema is followed by
    a second call, and its answer is the last. *)
Definition lastAnswer (input : ReviewInput) (w : W) (out : ReviewOutput) (w' : W) : Prop :=
  exists wc,
    (if nle (costCapUsd job) zero then wc = w
     else exists est, estimateCost provider input w = (Ok est, wc)) /\
    (answers input wc out w' \/
     exists n r w2, generateReview provider input wc = ((n, r), w2) /\ brokeSchema r /\
       answers (retryInput input) w2 out w').

Lemma attempt_ok input s out s' :
  attempt P job provider input s = (Ok out, s') ->
  validateOutput P job out = Ok tt /\ answers input (rs_world s) out (rs_world s').
Proof.
  unfold attempt. rewrite bind_Ok. intros (o & s1 & Hc & H). revert H.
  rewrite bind_Ok. intros ([] & s2 & [= Hv <-] & [= <- <-]). split; [done|].
  unfold callProvider in Hc. destruct (generateReview _ _ _) as [[n r] w] eqn:E.
  injection Hc as -> <-. by exists n.
Qed.

Lemma attempt_broke input s msg issues s' :
  attempt P job provider input s = (Throw (Agent (SchemaValidationError msg issues)), s') ->
  exists n r, generateReview provider input (rs_world s) = ((n, r), rs_world s') /\ brokeSchema r.
Proof.
  unfold attempt, mbind, eff_bind, callProvider, lift.
  destruct (generateReview _ _ _) as [[n r] w] eqn:E. destruct r as [out|e]; cbn.
  - destruct (validateOutput P job out) eqn:Ev; cbn; [done|]. intros [= -> <-]. exists n, (Ok out).
    split; [done|]. exists msg, issues. right. by exists out.
  - intros [= -> <-]. exists n, (Throw (Agent (SchemaValidationError msg issues))). split; [done|].
    exists msg, issues. by left.
Qed.

Lemma main_cost input s r s' : main P job provider input s = (r, s') -> rs_cost s' = rs_cost s.
Proof.
  unfold main, tryCatch.
  destruct (attempt P job provider input s) as [[o|e] s1] eqn:E; apply attempt_cost in E.
  - by intros [= _ <-].
  - destruct e as [[]| | |]; try (by intros [= _ <-]). intros H%attempt_cost. congruence.
Qed.

Lemma main_ok input s out s' :
  main P job provider input s = (Ok out, s') ->
  validateOutput P job out = Ok tt /\
  (answers input (rs_world s) out (rs_world s') \/
   exists n r w2, generateReview provider input (rs_world s) = ((n, r), w2) /\ brokeSchema r /\
     answers (retryInput input) w2 out (rs_world s')).
Proof.
  unfold main. rewrite tryCatch_Ok. intros [[Hv Ha]%attempt_ok|(e & s1 & He & H)]; [by auto|].
  destruct e as [[]| | |]; try done. apply attempt_ok in H as [Hv Ha]. split; [done|]. right.
  apply attempt_broke in He as (n & r & Hg & Hb). eauto 10.
Qed.

(** The injection guard without a listener changes nothing. *)
Lemma injectionGuard_id {S} meta (next : eff S thrown ReviewOutput) s :
  createInjectionGuard None meta next s = next s.
Proof. unfold createInjectionGuard. by destruct (List.find _ _). Qed.

Lemma compose_guard input s :
  compose (middlewares job provider input) (main P job provider input) s =
  createCostGuard agentGuardOptions (costCapUsd job) (inWorld (estimateCost provider input))
    (main P job provider input) s.
Proof. unfold compose, middlewares. cbn [foldr]. apply injectionGuard_id. Qed.

(** What a guarded call that returns costs. *)
Definition chargedCost (out : ReviewOutput) : number :=
  if nle (costCapUsd job) zero then zero else nadd zero (out_costUsd out).

Lemma guardedCall_Ok totals input s out s' :
  guardedCall agentGuardOptions (costCapUsd job) totals (main P job provider input) s = (Ok out, s') ->
  validateOutput P job out = Ok tt /\ rs_cost s' = nadd (running totals) (out_costUsd out) /\
  exists s1, main P job provider input s = (Ok out, s1) /\ rs_world s1 = rs_world s'.
Proof.
  unfold guardedCall. rewrite bind_Ok. intros (o & s1 & Hm & H).
  revert H. unfold modify, get, recordSuccess, mbind, eff_bind, throw. cbn.
  destruct (ngt (costCapUsd job) zero && _); cbn; [done|]. intros [= <- <-].
  split_and!; [by eapply main_ok|done|by exists s1].
Qed.

Lemma guardedCall_Throw totals input s e s' :
  guardedCall agentGuardOptions (costCapUsd job) totals (main P job provider input) s = (Throw e, s') ->
  (exists l a, e = Agent (CostExceededError l a)) \/ rs_cost s' = rs_cost s.
Proof.
  unfold guardedCall. rewrite bind_Throw. intros [H|(o & s1 & Hm & H)].
  - right. by eapply main_cost.
  - left. revert H. unfold modify, get, recordSuccess, mbind, eff_bind, throw. cbn.
    destruct (ngt (costCapUsd job) zero && _); cbn; [|done]. intros [= <- _]. eauto.
Qed.

Lemma inWorld_cost {A} (m : eff W thrown A) s r s' :
  inWorld m s = (r, s') -> rs_cost s' = rs_cost s.
Proof. unfold inWorld. destruct (m (rs_world s)). by intros [= _ <-]. Qed.

Lemma guard_Ok input w out s' :
  createCostGuard agentGuardOptions (costCapUsd job) (inWorld (estimateCost provider input))
    (main P job provider input) (start w) = (Ok out, s') ->
  validateOutput P job out = Ok tt /\ rs_cost s' = chargedCost out /\
  lastAnswer input w out (rs_world s').
Proof.
  unfold createCostGuard, chargedCost, lastAnswer. cbn [dailyCapUsd recorder agentGuardOptions].
  change (nle zero zero) with true. rewrite !andb_true_r.
  destruct (nle (costCapUsd job) zero).
  { intros H. pose proof (main_cost _ _ _ _ H) as Hc. apply main_ok in H as [Hv Ha].
    split_and!; [done|done|by exists w]. }
  rewrite bind_Ok. intros (est & s1 & He & H). pose proof He as Hcost. apply inWorld_cost in Hcost.
  assert (estimateCost provider input w = (Ok est, rs_world s1)) as Hest.
  { unfold inWorld in He. cbn in He. destruct (estimateCost provider input w) as [r w1].
    by injection He as -> <-. }
  revert H. cbn [readTotals agentGuardOptions]. unfold get, mbind, eff_bind. cbn -[decideCostAction].
  rewrite Hcost. cbn -[decideCostAction].
  destruct (decideCostAction _); cbn; try done.
  all: intros (Hv & Hc & s2 & [_ Hm]%main_ok & Hw)%guardedCall_Ok.
  all: split_and!; [done|done|]; exists (rs_world s1); split; [by eexists|]; by rewrite <- Hw.
Qed.

Lemma guard_Throw input w e s' :
  createCostGuard agentGuardOptions (costCapUsd job) (inWorld (estimateCost provider input))
    (main P job provider input) (start w) = (Throw e, s') ->
  (exists l a, e = Agent (CostExceededError l a)) \/ rs_cost s' = zero.
Proof.
  unfold createCostGuard. cbn [dailyCapUsd recorder agentGuardOptions].
  change (nle zero zero) with true. rewrite !andb_true_r.
  destruct (nle (costCapUsd job) zero).
  { intros H%main_cost. by right. }
  rewrite bind_Throw. intros [He|(est & s1 & He & H)]; [right; by apply inWorld_cost in He|].
  apply inWorld_cost in He. revert H. cbn [readTotals agentGuardOptions].
  unfold get, mbind, eff_bind. cbn -[decideCostAction]. rewrite He. cbn -[decideCostAction].
  destruct (decideCostAction _); cbn.
  1, 2: intros [?|H]%guardedCall_Throw; [by left|right; rewrite H; exact He].
  all: intros [= <- _]; left; eauto.
Qed.

(** The model call: a valid output and its cost, or the issues of the last failure at no cost. *)
Lemma callModel_inl input w out s' :
  callModel P job provider input (start w) = (Ok (inl out), s') ->
  validateOutput P job out = Ok tt /\ rs_cost s' = chargedCost out /\
  lastAnswer input w out (rs_world s').
Proof.
  unfold callModel. rewrite tryCatch_Ok, bind_Ok.
  intros [(o & s1 & H & [= -> ->])|(e & s1 & _ & H)].
  - rewrite compose_guard in H. by apply guard_Ok in H.
  - by destruct e as [[]| | |].
Qed.

Lemma callModel_inr input w issues s' :
  callModel P job provider input (start w) = (Ok (inr issues), s') -> rs_cost s' = zero.
Proof.
  unfold callModel. rewrite tryCatch_Ok, bind_Ok.
  intros [(o & s1 & H & [=])|(e & s1 & He & H)].
  rewrite bind_Throw in He. destruct He as [He|(? & ? & _ & [=])].
  rewrite compose_guard in He. apply guard_Throw in He.
  destruct e as [[]| | |]; try done. injection H as _ <-.
  destruct He as [(? & ? & [=])|He]. done.
Qed.

(** ** The phases *)

(** A run that returns: what it read first, and which of the three answers it gave. *)
Lemma run_ok w r w' :
  runReviewInner P job provider deps w = (Ok r, w') ->
  exists facts rejected suppressed w1,
    prologue job deps w = (Ok (facts, rejected, suppressed), w1) /\
    ((capPipeline P job provider = Ok (CapSkip r) /\ w' = w1) \/
     exists diff changed excl denies s',
       (capPipeline P job provider = Ok (CapPass diff changed excl) /\
        globResult P (compileAll (denyPaths (privacy job))) = Ok denies) /\ w' = rs_world s' /\
       let input := baseInput P job deps facts diff changed denies in
       ((exists out, callModel P job provider input (start w1) = (Ok (inl out), s') /\
           finalize P job provider deps rejected suppressed excl out s' = Ok r) \/
        (exists issues, callModel P job provider input (start w1) = (Ok (inr issues), s') /\
           r = abortResult provider issues excl s'))).
Proof.
  unfold runReviewInner. destruct (runPhases _ _ _ _ _) as [r0 s0] eqn:E. intros [= -> Hw].
  revert E. unfold runPhases. rewrite bind_Ok. intros ([[facts rejected] suppressed] & s1 & Hp & H).
  unfold inWorld in Hp. cbn [rs_world] in Hp.
  destruct (prologue job deps w) as [r1 w1]. injection Hp as -> <-.
  exists facts, rejected, suppressed, w1. split; [done|]. revert H. rewrite bind_Ok.
  intros (caps & s2 & [= Hc <-] & H). destruct caps as [r'|diff changed excl].
  { injection H as -> <-. by left. }
  right. subst w'. unfold reviewDiff in H. apply bind_Ok in H as (fs & s3 & [= _ <-] & H).
  apply bind_Ok in H as (denies & s4 & [= Hd <-] & H).
  apply bind_Ok in H as (o & s5 & Hm & H). exists diff, changed, excl, denies, s5.
  split; [done|]. apply bind_Ok in H as (s6 & s7 & [= <- <-] & H).
  destruct o as [out|issues]; injection H as Hr <-; (split; [done|]).
  - left. by exists out.
  - right. by exists issues.
Qed.
End lemmas.
