(* ===== verification/AgentSpec.v ===== *)
(** * What a review guarantees

    The properties of [runReviewInner]: what is posted, what a refused diff costs, how often the
    model is called, and what the answer says of severity and secrets. *)

From S2P Require Import Prelude JsNumber Regex Glob DiffFilter Errors Schema Cost Gitleaks.
From S2P Require Import Tools Untrusted AutoFetch SystemPrompt Review Dedup Runner Agent.
From S2P Require Import AgentLemmas.

(** ** The filters *)

Definition allowed (rs : option (Category -> option RulesetEntry)) (c : InlineComment) : bool :=
  match rs with None => true | Some f => rulesetAllows f c end.

Lemma rulesetLoop_filter f cs :
  rulesetLoop f cs =
  (List.filter (rulesetAllows f) cs, length (List.filter (fun c => negb (rulesetAllows f c)) cs)).
Proof.
  induction cs as [|c cs IH]; [done|]. simpl. rewrite IH. by destruct (rulesetAllows f c).
Qed.

Lemma filter_true {A} (f : A -> bool) l : (forall x, f x = true) ->
  List.filter f l = l /\ List.filter (fun x => negb (f x)) l = [].
Proof. intros H. induction l as [|x l [IH1 IH2]]; simpl; [done|]. by rewrite H, IH1, IH2. Qed.

Lemma CATEGORIES_all cat : cat ∈ CATEGORIES.
Proof. refine (bool_decide_eq_true_1 _ _). by destruct cat. Qed.

Lemma applyRulesetFilter_filter rs cs :
  applyRulesetFilter cs rs =
  (List.filter (allowed rs) cs, length (List.filter (fun c => negb (allowed rs c)) cs)).
Proof.
  assert ((forall c, allowed rs c = true) ->
    (cs, 0) = (List.filter (allowed rs) cs, length (List.filter (fun c => negb (allowed rs c)) cs)))
    as Hall by (intros H; by destruct (filter_true (allowed rs) cs H) as [-> ->]).
  destruct rs as [f|]; [|by apply Hall]. unfold applyRulesetFilter.
  destruct (existsb _ _) eqn:E; [apply rulesetLoop_filter|]. apply Hall.
  intros c. unfold allowed, rulesetAllows. set (cat := default _ _).
  rewrite existsb_none in E. specialize (E cat (CATEGORIES_all cat)).
  by destruct (f cat); [apply bool_decide_eq_false in E; destruct E|].
Qed.

Lemma applySuppressions_filter suppressed cs :
  applySuppressions suppressed cs =
  (List.filter (fun c => negb (isSuppressed suppressed c)) cs,
   length (List.filter (isSuppressed suppressed) cs)).
Proof.
  destruct suppressed as [|fp fps]; [|done]. unfold applySuppressions.
  assert (forall c, isSuppressed [] c = false) as H
    by (intros c; apply bool_decide_eq_false, not_elem_of_nil).
  f_equal.
  - symmetry. apply filter_true. intros c. by rewrite H.
  - induction cs as [|c cs IH]; [done|]. cbn [List.filter]. by rewrite H.
Qed.

(** [{ ...c, body }] when there is something to redact. *)
Definition redactBody (findings : list GitleaksFinding) (c : InlineComment) : InlineComment :=
  match findings with
  | [] => c
  | _ => set_body (applyRedactions (body c) findings) c
  end.

Lemma redactAll_map findings cs : redactAll findings cs = map (redactBody findings) cs.
Proof. destruct findings; [by rewrite map_id|done]. Qed.

Lemma redactBody_keeps findings c :
  fingerprint_of (redactBody findings c) = fingerprint_of c /\
  severity (redactBody findings c) = severity c /\
  confidence (redactBody findings c) = confidence c /\
  category (redactBody findings c) = category c.
Proof. by destruct findings. Qed.

Section spec.
Context {W : Type} (P : Platform) (job : ReviewJob) (provider : LlmProvider W)
  (deps : RunReviewDeps W).

(** The comments left after every filter, before redaction. *)
Definition survivors (rejected suppressed : list str) (out : ReviewOutput) : list InlineComment :=
  List.filter (fun c => negb (isSuppressed suppressed c))
    (List.filter (allowed (ruleset job)) (confident job (kept (dedup P job rejected out)))).

(** *** What becomes of a comment

    The filters as the operator's documentation has them, one comment at a time: the levels are
    numbers of their own, and the first reason that applies decides. *)

Definition sureness (c : Confidence) : nat := match c with high => 3 | medium => 2 | low => 1 end.
Definition gravity (s : Severity) : nat :=
  match s with critical => 4 | major => 3 | minor => 2 | info => 1 end.

(** The fingerprint of a comment: its place, its rule (or severity) and its kind. *)
Definition printOf (c : ReviewOutputComment) : str :=
  fingerprint (sha256hex P)
    {| fi_path := path c; fi_line := line c;
       fi_ruleId := default (severity_str (severity c)) (ruleId c);
       fi_suggestionType := match suggestion c with
                            | None | Some [] => "comment"
                            | Some _ => "replacement"
                            end |}.

(** Sure enough: a comment without a confidence counts as a sure one, and without a configured
    floor every comment is sure enough. *)
Definition sureEnough (c : ReviewOutputComment) : Prop :=
  match minConfidence job with
  | None => True
  | Some floor => sureness floor <= sureness (default high (confidence c))
  end.

(** The rule of the comment's category, if it has one, is on and its floor is reached. *)
Definition followsRules (c : ReviewOutputComment) : Prop :=
  match ruleset job with
  | None => True
  | Some rules =>
      match rules (default bug (category c)) with
      | None => True
      | Some rule => enabled rule = true /\ gravity (min_severity rule) <= gravity (severity c)
      end
  end.

#[export] Instance sureEnough_dec c : Decision (sureEnough c).
Proof. unfold sureEnough. destruct (minConfidence job); apply _. Defined.
#[export] Instance followsRules_dec c : Decision (followsRules c).
Proof.
  unfold followsRules. destruct (ruleset job) as [f|]; [|apply _].
  destruct (f _); apply _.
Defined.

Inductive fate :=
  | rejectedBefore | postedBefore | tooUnsure | againstRules | mutedByRule | toPost.

Definition isFate (f g : fate) : bool :=
  match f, g with
  | rejectedBefore, rejectedBefore | postedBefore, postedBefore | tooUnsure, tooUnsure
  | againstRules, againstRules | mutedByRule, mutedByRule | toPost, toPost => true
  | _, _ => false
  end.

(** [earlier]: the fingerprints posted before and those of the comments before this one. *)
Definition fateOf (rejected suppressed earlier : list str) (c : ReviewOutputComment) : fate :=
  if decide (printOf c ∈ rejected) then rejectedBefore
  else if decide (printOf c ∈ earlier) then postedBefore
  else if decide (~ sureEnough c) then tooUnsure
  else if decide (~ followsRules c) then againstRules
  else if decide (printOf c ∈ suppressed) then mutedByRule
  else toPost.

Fixpoint fates (rejected suppressed earlier : list str) (cs : list ReviewOutputComment)
    : list (fate * ReviewOutputComment) :=
  match cs with
  | [] => []
  | c :: rest =>
      (fateOf rejected suppressed earlier c, c)
      :: fates rejected suppressed (printOf c :: earlier) rest
  end.

(** The comments of an output that meet a fate, in order, with their fingerprints. *)
Definition meeting (f : fate) (l : list (fate * ReviewOutputComment)) : list InlineComment :=
  omap (fun p => if isFate p.1 f then Some {| comment_of := p.2; fingerprint_of := printOf p.2 |}
                 else None) l.

Definition outputFates (rejected suppressed : list str) (out : ReviewOutput)
    : list (fate * ReviewOutputComment) :=
  fates rejected suppressed
    match previousState job with Some st => commentFingerprints st | None => [] end
    (out_comments out).

(** A comment the operator's policy lets through. *)
Definition postable (rejected suppressed : list str) (c : InlineComment) : Prop :=
  fingerprint_of c = printOf c /\
  fingerprint_of c ∉ rejected /\
  fingerprint_of c ∉ suppressed /\
  fingerprint_of c ∉ match previousState job with Some st => commentFingerprints st | None => [] end /\
  sureEnough c /\ followsRules c.

Lemma printOf_eq c :
  fingerprintOf (fingerprint (sha256hex P)) defaultSuggestionType c = printOf c.
Proof.
  unfold fingerprintOf, printOf, ruleIdFor, defaultSuggestionType.
  destruct (ruleId c), (suggestion c) as [[|]|]; reflexivity.
Qed.

Lemma meetsConfidence_sure c :
  meetsConfidence (confidence c) (default low (minConfidence job)) = bool_decide (sureEnough c).
Proof.
  apply Bool.eq_iff_eq_true. rewrite bool_decide_eq_true. unfold meetsConfidence, sureEnough.
  destruct (minConfidence job) as [[]|], (confidence c) as [[]|]; cbn; split; (done || lia).
Qed.

Lemma allowed_follows (c : InlineComment) :
  allowed (ruleset job) c = bool_decide (followsRules c).
Proof.
  apply Bool.eq_iff_eq_true. rewrite bool_decide_eq_true. unfold allowed, followsRules, rulesetAllows.
  change DEFAULT_RULESET_CATEGORY with bug.
  destruct (ruleset job) as [f|]; [|done].
  destruct (f _) as [[en sev]|]; cbn [enabled min_severity]; [|done].
  destruct en, sev, (severity c); cbn; split; try done; try intros []; (done || lia || (split; [done|lia])).
Qed.

Lemma meeting_cons f a c l :
  meeting f ((a, c) :: l) =
  if isFate a f then {| comment_of := c; fingerprint_of := printOf c |} :: meeting f l
  else meeting f l.
Proof. unfold meeting. cbn. by destruct (isFate a f). Qed.

Notation loop := (dedupLoop (fingerprint (sha256hex P)) defaultSuggestionType).
Notation ruled d := (List.filter (allowed (ruleset job)) (confident job (kept d))).

(** The passes of the review loop sort the comments by their fates. *)
Lemma loop_fates rejected suppressed seen earlier cs :
  (forall fp, fp ∉ rejected -> fp ∈ seen <-> fp ∈ earlier) ->
  let d := loop rejected seen cs in
  let fs := fates rejected suppressed earlier cs in
  List.filter (fun c => negb (isSuppressed suppressed c)) (ruled d) = meeting toPost fs /\
  List.filter (isSuppressed suppressed) (ruled d) = meeting mutedByRule fs /\
  List.filter (fun c => negb (allowed (ruleset job) c)) (confident job (kept d))
    = meeting againstRules fs /\
  List.filter (fun c : InlineComment =>
      negb (meetsConfidence (confidence c) (default low (minConfidence job)))) (kept d)
    = meeting tooUnsure fs /\
  droppedCount d = length (meeting postedBefore fs) /\
  droppedByFeedback d = length (meeting rejectedBefore fs).
Proof.
  revert seen earlier. induction cs as [|c cs IH]; intros seen earlier Hse d fs; [done|].
  subst d fs. cbn [dedupLoop fates]. rewrite printOf_eq, !meeting_cons. unfold fateOf.
  assert (forall fp, fp ∉ rejected -> fp ∈ printOf c :: seen <-> fp ∈ printOf c :: earlier) as Hcons
    by (intros fp Hfp; rewrite !elem_of_cons, (Hse fp Hfp); done).
  destruct (decide (printOf c ∈ rejected)) as [Hr|Hr].
  { rewrite bool_decide_true by done. cbn -[confident printOf].
    destruct (IH seen (printOf c :: earlier)) as (? & ? & ? & ? & ? & ?); [|split_and!; by auto].
    intros fp Hfp. rewrite elem_of_cons, (Hse fp Hfp). set_solver. }
  rewrite bool_decide_false by done. destruct (decide (printOf c ∈ earlier)) as [He|He].
  { rewrite bool_decide_true by (by apply Hse). cbn -[confident printOf].
    destruct (IH seen (printOf c :: earlier)) as (? & ? & ? & ? & ? & ?); [|split_and!; by auto].
    intros fp Hfp. rewrite elem_of_cons, (Hse fp Hfp). set_solver. }
  rewrite bool_decide_false by (by rewrite Hse).
  destruct (IH (printOf c :: seen) (printOf c :: earlier) Hcons) as (H1 & H2 & H3 & H4 & H5 & H6).
  set (d := loop rejected _ cs) in *. cbn [kept droppedCount droppedByFeedback].
  unfold confident in *. cbn [List.filter]. rewrite meetsConfidence_sure. cbn [comment_of].
  destruct (decide (~ sureEnough c)) as [Hs|Hs].
  { rewrite bool_decide_false by done. cbn -[printOf]. split_and!; auto. by f_equal. }
  rewrite bool_decide_true by (by apply dec_stable in Hs). cbn [negb List.filter].
  rewrite allowed_follows. cbn [comment_of].
  destruct (decide (~ followsRules c)) as [Hf|Hf].
  { rewrite bool_decide_false by done. cbn -[printOf]. split_and!; auto. by f_equal. }
  rewrite bool_decide_true by (by apply dec_stable in Hf). cbn [negb List.filter].
  unfold isSuppressed in *. cbn [fingerprint_of].
  destruct (decide (printOf c ∈ suppressed)) as [Hm|Hm].
  - rewrite bool_decide_true by done. cbn -[printOf]. split_and!; auto. by f_equal.
  - rewrite bool_decide_false by done. cbn -[printOf]. split_and!; auto. by f_equal.
Qed.

Lemma survivors_fates rejected suppressed out :
  survivors rejected suppressed out = meeting toPost (outputFates rejected suppressed out).
Proof. unfold survivors, dedup, dedupComments. by apply loop_fates. Qed.

Lemma dedup_fates rejected suppressed out :
  let d := dedup P job rejected out in
  let fs := outputFates rejected suppressed out in
  List.filter (isSuppressed suppressed) (ruled d) = meeting mutedByRule fs /\
  List.filter (fun c => negb (allowed (ruleset job) c)) (confident job (kept d))
    = meeting againstRules fs /\
  droppedCount d = length (meeting postedBefore fs) /\
  droppedByFeedback d = length (meeting rejectedBefore fs).
Proof.
  intros d fs. unfold fs, outputFates. set (st := match previousState job with Some _ => _ | _ => _ end).
  destruct (loop_fates rejected suppressed st st (out_comments out)) as (_ & ? & ? & _ & ? & ?); done.
Qed.

Lemma meeting_toPost rejected suppressed earlier cs c :
  c ∈ meeting toPost (fates rejected suppressed earlier cs) ->
  fingerprint_of c = printOf c /\ fingerprint_of c ∉ rejected /\ fingerprint_of c ∉ suppressed /\
  fingerprint_of c ∉ earlier /\ sureEnough c /\ followsRules c /\ comment_of c ∈ cs.
Proof.
  revert earlier. induction cs as [|d cs IH]; intros earlier; [by intros []%elem_of_nil|].
  cbn [fates]. rewrite meeting_cons. unfold fateOf.
  destruct (decide (printOf d ∈ rejected)); [cbn; intros H%IH; set_solver|].
  destruct (decide (printOf d ∈ earlier)); [cbn; intros H%IH; set_solver|].
  destruct (decide (~ sureEnough d)); [cbn; intros H%IH; set_solver|].
  destruct (decide (~ followsRules d)); [cbn; intros H%IH; set_solver|].
  destruct (decide (printOf d ∈ suppressed)); [cbn; intros H%IH; set_solver|].
  cbn. intros [->|H%IH]%elem_of_cons; [|set_solver]. cbn [comment_of fingerprint_of].
  split_and!; [done..|by apply dec_stable|by apply dec_stable|left].
Qed.

Lemma survivors_postable rejected suppressed out c :
  c ∈ survivors rejected suppressed out ->
  postable rejected suppressed c /\ comment_of c ∈ out_comments out.
Proof.
  rewrite survivors_fates. intros (? & ? & ? & ? & ? & ? & ?)%meeting_toPost. by split_and!.
Qed.

(** Every comment meets one fate. *)
Lemma fates_partition rejected suppressed earlier cs :
  let n f := length (meeting f (fates rejected suppressed earlier cs)) in
  n toPost + n mutedByRule + n againstRules + n tooUnsure + n postedBefore + n rejectedBefore
    = length cs.
Proof.
  revert earlier. induction cs as [|c cs IH]; intros earlier n; [done|]. subst n. cbv beta.
  specialize (IH (printOf c :: earlier)). cbv zeta beta in IH. cbn [fates]. rewrite !meeting_cons.
  destruct (fateOf rejected suppressed earlier c); cbn [isFate length]; lia.
Qed.

Lemma survivors_nodup rejected suppressed out :
  NoDup (map fingerprint_of (survivors rejected suppressed out)).
Proof.
  eapply sublist_NoDup; [apply (dedupLoop_nodup (fingerprint (sha256hex P)) defaultSuggestionType
    rejected (match previousState job with Some st => commentFingerprints st | None => [] end)
    (out_comments out))|].
  apply (fmap_sublist fingerprint_of).
  do 2 (etrans; [apply sublist_bfilter|]). apply sublist_bfilter.
Qed.

(** What [finalize] answers. *)
Lemma finalize_ok rejected suppressed excl out s r :
  finalize P job provider deps rejected suppressed excl out s = Ok r ->
  let cs := survivors rejected suppressed out in
  let findings := scan P job deps (scannedText (out_summary out) cs) in
  (shouldAbortReview findings).1 = false /\
  rr_comments r = redactAll findings cs /\
  rr_summary r = match findings with [] => out_summary out
                 | _ => applyRedactions (out_summary out) findings end /\
  rr_costUsd r = rs_cost s /\
  reviewEvent r = computeReviewEvent (rr_comments r) (default at_critical (requestChangesOn job)) /\
  aborted r = None /\
  droppedDuplicates r = droppedCount (dedup P job rejected out) /\
  rr_droppedByFeedback r = Some (droppedByFeedback (dedup P job rejected out)) /\
  droppedByRuleset r =
    length (List.filter (fun c => negb (allowed (ruleset job) c))
      (confident job (kept (dedup P job rejected out)))) /\
  droppedBySuppression r =
    match suppressionLoader deps with
    | Some _ => Some (length (List.filter (isSuppressed suppressed)
        (List.filter (allowed (ruleset job)) (confident job (kept (dedup P job rejected out))))))
    | None => None
    end.
Proof.
  intros H cs findings. unfold finalize in H.
  rewrite applyRulesetFilter_filter, applySuppressions_filter in H.
  fold (survivors rejected suppressed out) cs in H. unfold scanOrAbort in H. fold findings in H.
  destruct (shouldAbortReview findings) as [[] reason]; [done|]. injection H as <-. by split_and!.
Qed.

Lemma finalize_tokens rejected suppressed excl out s r :
  finalize P job provider deps rejected suppressed excl out s = Ok r ->
  rr_tokensUsed r = out_tokensUsed out.
Proof.
  unfold finalize. destruct (applyRulesetFilter _ _) as [ruled n], (applySuppressions _ _) as [l m].
  destruct (scanOrAbort _ _ _ _ _); [|done]. by intros [= <-].
Qed.

(** Redaction leaves what the filters look at. *)
Lemma redactBody_postable rejected suppressed found c :
  postable rejected suppressed c -> postable rejected suppressed (redactBody found c).
Proof. by destruct found. Qed.

(** Without a loader nothing is suppressed. *)
Lemma prologue_suppressed w facts rejected suppressed w1 :
  prologue job deps w = (Ok (facts, rejected, suppressed), w1) ->
  suppressionLoader deps = None -> suppressed = [].
Proof.
  unfold prologue. rewrite bind_Ok. intros ([] & s1 & _ & H) Hn.
  apply bind_Ok in H as ([f r] & s2 & _ & H). apply bind_Ok in H as (sup & s3 & Hs & [= _ _ <- _]).
  unfold loadSuppressions in Hs. rewrite Hn in Hs. by injection Hs as <- _.
Qed.

Lemma capPipeline_skip r :
  capPipeline P job provider = Ok (CapSkip r) -> exists a, aborted r = Some a.
Proof.
  unfold capPipeline.
  destruct (globResult _ _) as [[filtered ch]|]; [|done]. cbn -[Z.ltb Z.of_nat].
  destruct (_ <? _)%Z; [intros [= <-]; by eexists|].
  destruct (_ <? _)%Z; intros [= <-]; by eexists.
Qed.

(** [out] is the last answer of the provider to the review's own input: the prompt, and the diff
    the caps let through. *)
Definition modelOutput (facts : list LearnedFact) (w : W) (out : ReviewOutput) (w' : W) : Prop :=
  exists diff changed excl denies,
    capPipeline P job provider = Ok (CapPass diff changed excl) /\
    globResult P (compileAll (denyPaths (privacy job))) = Ok denies /\
    lastAnswer P job provider (baseInput P job deps facts diff changed denies) w out w'.

(** A run that returns without an abort notice: the model's output it kept, and the lists the
    prologue read. *)
Lemma run_finalized w r w' :
  runReviewInner P job provider deps w = (Ok r, w') -> aborted r = None ->
  exists facts rejected suppressed w1 excl out s,
    prologue job deps w = (Ok (facts, rejected, suppressed), w1) /\
    (modelOutput facts w1 out w' /\ validateOutput P job out = Ok tt) /\
    rs_cost s = chargedCost job out /\
    finalize P job provider deps rejected suppressed excl out s = Ok r.
Proof.
  intros (facts & rejected & suppressed & w1 & Hp & H)%run_ok Ha.
  destruct H as [[Hc _]|(diff & changed & excl & denies & s & [Hc Hd] & Hw & H)].
  { apply capPipeline_skip in Hc as [x Hx]. congruence. }
  destruct H as [(out & (Hv & Hcost & Hl)%callModel_inl & Hf)|(issues & _ & ->)].
  - exists facts, rejected, suppressed, w1, excl, out, s. split_and!; try done.
    rewrite Hw. by exists diff, changed, excl, denies.
  - revert Ha. unfold abortResult. by destruct (classifyAbort issues).
Qed.

(** An abort notice posts nothing and reports no cost. *)
Lemma run_aborted w r w' a :
  runReviewInner P job provider deps w = (Ok r, w') -> aborted r = Some a ->
  rr_comments r = [] /\ reviewEvent r = COMMENT /\ rr_costUsd r = zero.
Proof.
  intros (facts & rejected & suppressed & w1 & Hp & H)%run_ok Ha.
  destruct H as [[Hc _]|(diff & changed & excl & denies & s & _ & _ & H)].
  { revert Hc. unfold capPipeline.
    destruct (globResult _ _) as [[filtered ch]|]; [|done]. cbn -[Z.ltb Z.of_nat].
    destruct (_ <? _)%Z; [by intros [= <-]|]. destruct (_ <? _)%Z; by intros [= <-]. }
  destruct H as [(out & _ & Hf)|(issues & Hcost%callModel_inr & ->)].
  - apply finalize_ok in Hf as (_ & _ & _ & _ & _ & Hn & _). congruence.
  - unfold abortResult. by destruct (classifyAbort issues).
Qed.

End spec.

(** ** A scripted model

    The provider whose [n]-th call ends as [outcome n], over a world that logs the inputs. *)

Section scripted.
Context (P : Platform) (job : ReviewJob) (outcome : nat -> nat * result thrown ReviewOutput)
  (est : number) (rows : list LearnedFact) (muted : list str) (ec : EvalContext).

Definition scriptedProvider : LlmProvider (list ReviewInput) :=
  {| pv_name := "scripted"; pv_model := "model-1";
     generateReview := fun i w => (outcome (length w), w ++ [i]);
     estimateCost := fun _ w => (Ok est, w) |}.

Definition scriptedDeps : RunReviewDeps (list ReviewInput) :=
  {| onConfigResolution := None; fileReader := None; scanContent := None;
     historyReader := Some (fun _ w => (Ok rows, w)); onHistoryReaderError := None;
     suppressionLoader := Some (fun _ w => (Ok muted, w)); evalContext := Some ec |}.

(** The [n]-th call after validation. *)
Definition verdict (n : nat) : result thrown ReviewOutput :=
  out ← (outcome n).2; validateOutput P job out;; Ok out.

Definition schemaFailed (r : result thrown ReviewOutput) : bool :=
  match r with Throw (Agent (SchemaValidationError _ _)) => true | _ => false end.

Lemma attempt_scripted input s :
  attempt P job scriptedProvider input s =
  (verdict (length (rs_world s)),
   Build_runState (rs_cost s) (rs_calls s + (outcome (length (rs_world s))).1) (rs_world s ++ [input])).
Proof.
  unfold attempt, verdict, callProvider, mbind, eff_bind, result_bind. cbn.
  destruct (outcome (length (rs_world s))) as [n [out|e]]; [|done]. cbn. unfold lift.
  by destruct (validateOutput P job out).
Qed.

Lemma main_scripted input s :
  rs_world s = [] ->
  exists s1,
    main P job scriptedProvider input s =
      (verdict (if schemaFailed (verdict 0) then 1 else 0), s1) /\
    rs_world s1 = if schemaFailed (verdict 0) then [input; retryInput input] else [input].
Proof.
  intros Hs. unfold main, tryCatch. rewrite attempt_scripted, Hs. cbn [length app].
  destruct (verdict 0) as [out|e] eqn:E; cbn [schemaFailed]; [rewrite E; eauto|].
  destruct e as [[]| | |]; try (rewrite E; cbn; eauto; fail). rewrite attempt_scripted. cbn. eauto.
Qed.

(** The guarded call: refused before the model is reached, or the model's answer, or the cap's
    error after a valid answer. *)
Lemma guard_scripted input r s' :
  createCostGuard agentGuardOptions (costCapUsd job) (inWorld (estimateCost scriptedProvider input))
    (main P job scriptedProvider input) (Build_runState zero 0 []) = (r, s') ->
  let v := verdict (if schemaFailed (verdict 0) then 1 else 0) in
  let trace := if schemaFailed (verdict 0) then [input; retryInput input] else [input] in
  (rs_world s' = [] /\ exists l a, r = Throw (Agent (CostExceededError l a))) \/
  (rs_world s' = trace /\
   (r = v \/ is_ok v = true /\ exists l a, r = Throw (Agent (CostExceededError l a)))).
Proof.
  intros H v trace. revert H. unfold createCostGuard. cbn [dailyCapUsd recorder agentGuardOptions].
  change (nle zero zero) with true. rewrite !andb_true_r.
  destruct (main_scripted input (Build_runState zero 0 []) eq_refl) as (s1 & Hm & Hw).
  fold v trace in Hm, Hw.
  destruct (nle (costCapUsd job) zero); [rewrite Hm; intros [= <- <-]; by right; auto|].
  unfold inWorld, get, mbind, eff_bind. cbn -[decideCostAction].
  assert (forall t, guardedCall agentGuardOptions (costCapUsd job) t (main P job scriptedProvider input)
    (Build_runState zero 0 []) = (r, s') ->
    rs_world s' = trace /\ (r = v \/ is_ok v = true /\ exists l a, r = Throw (Agent (CostExceededError l a))))
    as Hg.
  { intros t. unfold guardedCall, mbind, eff_bind. rewrite Hm.
    destruct v as [out|e]; [|by intros [= <- <-]; auto].
    unfold modify, get, recordSuccess, throw. cbn.
    destruct (_ && _); cbn; intros [= <- <-]; split; [done| |done|by left]. right. eauto. }
  destruct (decideCostAction _); cbn; [intros H; right; by eapply Hg..| |];
    intros [= <- <-]; left; eauto.
Qed.

Definition lastVerdict : result thrown ReviewOutput :=
  verdict (if schemaFailed (verdict 0) then 1 else 0).

Definition calledWith (input : ReviewInput) : list ReviewInput :=
  if schemaFailed (verdict 0) then [input; retryInput input] else [input].

Lemma callModel_scripted input r s' :
  callModel P job scriptedProvider input (Build_runState zero 0 []) = (r, s') ->
  (rs_world s' = [] /\ exists e, r = Throw e) \/
  (rs_world s' = calledWith input /\
   match r with
   | Ok (inl out) => lastVerdict = Ok out
   | Ok (inr _) => schemaFailed lastVerdict = true
   | Throw _ => True
   end).
Proof.
  unfold callModel, tryCatch, mbind, eff_bind. rewrite compose_guard.
  destruct (createCostGuard _ _ _ _ _) as [r1 s1] eqn:E.
  apply guard_scripted in E. fold lastVerdict (calledWith input) in E. cbv zeta in E.
  destruct E as [[Hw (l & a & ->)]|[Hw [->|[_ (l & a & ->)]]]]; cbn.
  - intros [= <- <-]. left. eauto.
  - destruct lastVerdict as [out|e]; cbn; [by intros [= <- <-]; right|].
    destruct e as [[]| | |]; cbn; intros [= <- <-]; by right.
  - intros [= <- <-]. by right.
Qed.

Lemma prologue_scripted :
  exists rejected suppressed,
    prologue job scriptedDeps [] = (Ok (rows, rejected, suppressed), []).
Proof.
  unfold prologue, noteConfig, loadHistory, loadSuppressions, tryCatch, mbind, eff_bind.
  cbn -[omap]. destruct (resolutionLog job); cbn -[omap]; eauto.
Qed.

Lemma run_trace :
  let '(_, trace) := runReviewInner P job scriptedProvider scriptedDeps [] in
  trace = [] \/ exists input, trace = calledWith input.
Proof.
  unfold runReviewInner, runPhases, inWorld, mbind, eff_bind. cbn [rs_world].
  destruct prologue_scripted as (rejected & suppressed & ->). cbn.
  unfold lift. destruct (capPipeline P job scriptedProvider) as [[r|diff changed excl]|e]; cbn; [by left| |by left].
  unfold reviewDiff, mbind, eff_bind, lift.
  destruct (scanOrAbort _ _ _ _ _); cbn -[callModel]; [|by left].
  destruct (globResult _ _); cbn -[callModel]; [|by left].
  destruct (callModel _ _ _ _ _) as [r s] eqn:E.
  apply callModel_scripted in E as [[Hw (e & ->)]|[Hw _]]; [by left|].
  destruct r as [[out|issues]|e]; cbn -[finalize abortResult]; eauto.
Qed.

(** What a returning run says of its calls. *)
Lemma run_scripted r trace :
  runReviewInner P job scriptedProvider scriptedDeps [] = (Ok r, trace) ->
  match aborted r with
  | None => exists n out, length trace = S n /\ verdict n = Ok out /\ rr_costUsd r = chargedCost job out
  | Some _ => (trace = [] \/ schemaFailed (verdict 0) = true /\ schemaFailed (verdict 1) = true) /\
              rr_costUsd r = zero
  end.
Proof.
  intros H. pose proof H as (facts & rejected & suppressed & w1 & Hp & Hr)%run_ok.
  destruct prologue_scripted as (rej & sup & Hp'). rewrite Hp' in Hp. injection Hp as <- <- <- <-.
  destruct (aborted r) as [a|] eqn:Ha.
  - destruct (run_aborted _ _ _ _ _ _ _ _ H Ha) as (_ & _ & Hcost). split; [|done].
    destruct Hr as [[_ ->]|(diff & changed & excl & denies & s & _ & -> & Hr)]; [by left|].
    destruct Hr as [(out & _ & Hf)|(issues & Hm & ->)].
    { apply finalize_ok in Hf as (_ & _ & _ & _ & _ & Hn & _). congruence. }
    apply callModel_scripted in Hm as [[_ (e & [=])]|[_ Hv]]. right. unfold lastVerdict in Hv.
    destruct (schemaFailed (verdict 0)) eqn:E0; [done|]. congruence.
  - destruct Hr as [[Hc ->]|(diff & changed & excl & denies & s & _ & -> & Hr)].
    { by destruct (capPipeline_skip _ _ _ _ Hc) as (x & Hx); rewrite Hx in Ha. }
    destruct Hr as [(out & Hm & Hf)|(issues & _ & ->)].
    + pose proof Hm as (_ & Hcost & _)%callModel_inl.
      apply callModel_scripted in Hm as [[_ (e & [=])]|[Hw Hv]].
      apply finalize_ok in Hf as (_ & _ & _ & Hrc & _). rewrite Hw, Hrc, Hcost.
      unfold lastVerdict, calledWith in *. destruct (schemaFailed (verdict 0)); eauto.
    + revert Ha. unfold abortResult. by destruct (classifyAbort issues).
Qed.
End scripted.

(** ** Properties *)

(** C1. What a review posts. The output it is about is the last answer of the provider to the
    review's input, and it passed the schema. Every comment of that output meets exactly one fate,
    the first that applies: rejected by feedback before, posted before (or a repetition of an
    earlier comment of the same fingerprint), below the confidence floor, against the ruleset of
    its category, muted by a suppression rule, or posted. The comments posted are those of the
    last fate, in the model's order, with the secrets the scan of the output found redacted and
    nothing else changed; their fingerprints are distinct; each drop counter is the number of
    comments of its fate; and the summary is the model's, redacted. *)
Theorem review_posts_only_survivors {W} P job (provider : LlmProvider W) deps w r w' :
  runReviewInner P job provider deps w = (Ok r, w') -> aborted r = None ->
  exists facts rejected suppressed w1 out,
    prologue job deps w = (Ok (facts, rejected, suppressed), w1) /\
    modelOutput P job provider deps facts w1 out w' /\ validateOutput P job out = Ok tt /\
    let fs := outputFates P job rejected suppressed out in
    let count f := length (meeting P f fs) in
    let text := join (nl ++ nl) (out_summary out :: map (fun c : InlineComment => body c) (meeting P toPost fs)) in
    rr_comments r = map (redactBody (scan P job deps text)) (meeting P toPost fs) /\
    rr_summary r = match scan P job deps text with
                   | [] => out_summary out
                   | found => applyRedactions (out_summary out) found
                   end /\
    NoDup (map fingerprint_of (rr_comments r)) /\
    Forall (postable P job rejected suppressed) (rr_comments r) /\
    rr_droppedByFeedback r = Some (count rejectedBefore) /\
    droppedDuplicates r = count postedBefore /\
    droppedByRuleset r = count againstRules /\
    droppedBySuppression r = (if suppressionLoader deps then Some (count mutedByRule) else None) /\
    length (rr_comments r) + count mutedByRule + count againstRules + count tooUnsure
      + count postedBefore + count rejectedBefore = length (out_comments out) /\
    rr_costUsd r = chargedCost job out /\ rr_tokensUsed r = out_tokensUsed out.
Proof.
  intros H Ha. destruct (run_finalized _ _ _ _ _ _ _ H Ha)
    as (facts & rejected & suppressed & w1 & excl & out & s & Hp & [Hm Hv] & Hcost & Hf).
  exists facts, rejected, suppressed, w1, out. do 3 (split; [done|]). intros fs count text.
  pose proof (finalize_tokens _ _ _ _ _ _ _ _ _ _ Hf) as Htok.
  apply finalize_ok in Hf as (_ & Hc & Hsum & Hrc & _ & _ & Hd & Hfb & Hr & Hs).
  destruct (dedup_fates P job rejected suppressed out) as (Hmuted & Hruled & Hdup & Hfeed).
  unfold scannedText in Hc, Hsum. rewrite survivors_fates in Hc, Hsum. fold fs text in Hc, Hsum.
  rewrite redactAll_map in Hc. split; [done|]. split; [by rewrite Hsum; destruct (scan _ _ _ text)|].
  split_and!.
  - rewrite Hc, map_map, (map_ext _ fingerprint_of) by (intros; apply redactBody_keeps).
    subst fs. rewrite <- survivors_fates. apply survivors_nodup.
  - rewrite Hc. apply Forall_forall. intros c (c0 & -> & Hc0)%elem_of_bmap.
    subst fs. rewrite <- survivors_fates in Hc0. apply survivors_postable in Hc0 as [Hpost _].
    by apply redactBody_postable.
  - rewrite Hfb. by f_equal.
  - by rewrite Hd.
  - by rewrite Hr, Hruled.
  - by rewrite Hs, Hmuted.
  - rewrite Hc, length_map. apply fates_partition.
  - by rewrite Hrc, Hcost.
  - done.
Qed.

(** The event follows what is posted: changes are requested exactly when a posted comment reaches
    the configured severity, and nothing is ever approved, an aborted or skipped review
    included. *)
Theorem review_event_of_posted {W} P job (provider : LlmProvider W) deps w :
  match (runReviewInner P job provider deps w).1 with
  | Throw _ => True
  | Ok r =>
      reviewEvent r <> APPROVE /\
      (aborted r <> None -> rr_comments r = [] /\ rr_costUsd r = zero) /\
      (reviewEvent r = REQUEST_CHANGES <->
       exists floor (c : InlineComment),
         threshold_rank (default at_critical (requestChangesOn job)) = Some floor /\
         c ∈ rr_comments r /\ (floor <= SEVERITY_RANK (severity c))%Z)
  end.
Proof.
  destruct (runReviewInner P job provider deps w) as [[r|e] w'] eqn:E; cbn [fst]; [|done].
  destruct (aborted r) as [a|] eqn:Ha.
  - destruct (run_aborted _ _ _ _ _ _ _ _ E Ha) as (Hc & Hev & Hcost).
    rewrite Hev, Hc. split_and!; [done..|]. split; [done|]. by intros (? & ? & _ & []%elem_of_nil & _).
  - destruct (run_finalized _ _ _ _ _ _ _ E Ha)
      as (facts & rejected & suppressed & w1 & excl & out & s & _ & _ & _ & Hf).
    apply finalize_ok in Hf as (_ & _ & _ & _ & -> & _).
    split_and!; [apply computeReviewEvent_never_approves|done|apply computeReviewEvent_iff].
Qed.

(** C2. With the built-in scanner, no secret it finds in the model's summary and in the comments that
    are left of the model's output is posted: the summary of the answer is the model's summary
    redacted, its comments are the remaining comments redacted, and neither holds a secret that
    was found, in a review without comments as in one with. *)
Theorem review_posts_no_found_secret {W} P job (provider : LlmProvider W) deps w r w' :
  scanContent deps = None ->
  runReviewInner P job provider deps w = (Ok r, w') -> aborted r = None ->
  exists facts rejected suppressed w1 out,
    prologue job deps w = (Ok (facts, rejected, suppressed), w1) /\
    modelOutput P job provider deps facts w1 out w' /\
    let cs := meeting P toPost (outputFates P job rejected suppressed out) in
    let text := join (nl ++ nl) (out_summary out :: map (fun c : InlineComment => body c) cs) in
    let found := quickScanContent (log2 P) (toFixed2 P) (matchAll P) text (redactPatterns (privacy job)) in
    rr_summary r = applyRedactions (out_summary out) found /\
    map (fun c : InlineComment => body c) (rr_comments r)
      = map (fun c : InlineComment => applyRedactions (body c) found) cs /\
    forall f, f ∈ found ->
      includes (rr_summary r) (secret f) = false /\
      forall c : InlineComment, c ∈ rr_comments r -> includes (body c) (secret f) = false.
Proof.
  intros Hscan H Ha. destruct (run_finalized _ _ _ _ _ _ _ H Ha)
    as (facts & rejected & suppressed & w1 & excl & out & s & Hp & [Hm _] & _ & Hf).
  exists facts, rejected, suppressed, w1, out. do 2 (split; [done|]). intros cs text found.
  apply finalize_ok in Hf as (Hab & Hc & Hsum & _). unfold scan, scannedText in *. rewrite Hscan in *.
  rewrite survivors_fates in *. fold cs in Hc, Hsum. fold text in Hc, Hsum. fold found in Hc, Hsum.
  assert (rr_summary r = applyRedactions (out_summary out) found) as Hsum'
    by (rewrite Hsum; by destruct found).
  assert (map (fun c : InlineComment => body c) (rr_comments r)
    = map (fun c : InlineComment => applyRedactions (body c) found) cs) as Hcs.
  { rewrite Hc. unfold redactAll. destruct found; [done|]. by rewrite map_map. }
  split; [done|]. split; [done|]. intros f Hf. split.
  - rewrite Hsum'. by eapply quickScan_redacts.
  - intros c Hin. assert (body c ∈ map (fun c : InlineComment => body c) (rr_comments r)) as Hb
      by (by apply elem_of_bmap; exists c).
    rewrite Hcs in Hb. apply elem_of_bmap in Hb as (c0 & -> & _). by eapply quickScan_redacts.
Qed.

(** C7. A diff over a cap, counted after the path filters, is refused before the model and the secret
    scan: the run answers at once with the cap's notice, no cost and no comment, whatever the
    provider and the scanner would do. *)
Theorem over_cap_never_reaches_the_model {W} P job (provider : LlmProvider W) deps w filtered changed :
  applyPathFilters (parseDiffByFile (diffText job)) (pathFilters job) = Ok (filtered, changed) ->
  (job_maxFiles job < Z.of_nat (length (files filtered)) \/
   job_maxDiffLines job < Z.of_nat (countDiffLines filtered))%Z ->
  exists r, rr_comments r = [] /\ rr_costUsd r = zero /\ rr_toolCalls r = 0%Z /\
    reviewEvent r = COMMENT /\
    option_map ab_reason (aborted r) =
      Some (if (job_maxFiles job <? Z.of_nat (length (files filtered)))%Z
            then max_files_exceeded else max_diff_lines_exceeded) /\
    runReviewInner P job provider deps w =
      match prologue job deps w with
      | (Ok _, w1) => (Ok r, w1)
      | (Throw e, w1) => (Throw e, w1)
      end.
Proof.
  intros Hf Hcap. destruct (capPipeline P job provider) as [[r|diff ch excl]|e] eqn:E;
    unfold capPipeline in E; rewrite Hf in E; cbn -[Z.ltb Z.of_nat] in E.
  - exists r. assert (runReviewInner P job provider deps w =
      match prologue job deps w with
      | (Ok _, w1) => (Ok r, w1)
      | (Throw e, w1) => (Throw e, w1)
      end) as Hrun.
    { unfold runReviewInner, runPhases, inWorld, mbind, eff_bind. cbn [rs_world].
      destruct (prologue job deps w) as [[[[facts rej] sup]|e] w1]; [|done].
      unfold lift, capPipeline. rewrite Hf. cbn -[Z.ltb Z.of_nat]. rewrite E. done. }
    destruct (job_maxFiles job <? _)%Z; [injection E as <-; by split_and!|].
    destruct (job_maxDiffLines job <? _)%Z; [injection E as <-; by split_and!|done].
  - destruct (job_maxFiles job <? _)%Z eqn:E1; [done|].
    destruct (job_maxDiffLines job <? _)%Z eqn:E2; [done|]. to_prop. lia.
  - destruct (job_maxFiles job <? _)%Z; [done|]. by destruct (job_maxDiffLines job <? _)%Z.
Qed.

(** The model is called at most twice, the second time only after an output that failed the
    schema, with the same input and the correction appended to the system prompt. A review that
    is posted comes from the last call and reports the cost of that call alone; a notice of two
    failed outputs reports no cost, although both calls were made. *)
Theorem at_most_two_calls P job outcome est rows muted ec :
  let '(res, trace) :=
    runReviewInner P job (scriptedProvider outcome est) (scriptedDeps rows muted ec) [] in
  let v := verdict P job outcome in
  (trace = [] \/
   exists input, trace = if schemaFailed (v 0) then [input; retryInput input] else [input]) /\
  match res with
  | Throw _ => True
  | Ok r =>
      match aborted r with
      | None => exists n out, length trace = S n /\ v n = Ok out /\ rr_costUsd r = chargedCost job out
      | Some _ => (trace = [] \/ schemaFailed (v 0) = true /\ schemaFailed (v 1) = true) /\
                  rr_costUsd r = zero
      end
  end.
Proof.
  pose proof (run_trace P job outcome est rows muted ec) as Ht.
  destruct (runReviewInner _ _ _ _ _) as [[r|e] trace] eqn:E; [|by split].
  split; [exact Ht|]. by apply (run_scripted P job outcome est rows muted ec).
Qed.

(** ** A concrete run for the witnesses *)

Definition demoPlatform : Platform :=
  {| log2 := steep; toFixed2 := fun _ => []; matchAll := Gitleaks.no_match; newRegExp := fun _ => None;
     parseURL := fun _ => None; shapeIssues := fun _ _ => []; sha256hex := fun s => s;
     regexpMessage := []; emDashText := "--"; basePrompt := "review"; acceptedHeading := "accepted";
     rejectedHeading := "rejected"; root := Dir None [] |}.

Definition demoMeta : UntrustedMetadata :=
  {| title := "fix"; um_body := []; author := "ann"; baseRef := None; labels := None;
     commitMessages := None |}.

Definition demoJob (maxFiles : Z) : ReviewJob :=
  {| jobId := "j1"; workspaceDir := []; diffText := "--- a.ts" ++ nl ++ "+x"; changedPaths := None;
     prMetadata := demoMeta; previousState := None; profile := []; pathInstructions := [];
     skills := []; language := "en"; costCapUsd := zero; incrementalContext := false;
     incrementalSinceSha := None; minConfidence := Some medium; requestChangesOn := None;
     pathFilters := []; job_maxFiles := maxFiles; job_maxDiffLines := 3000;
     privacy := {| allowedUrlPrefixes := []; denyPaths := []; redactPatterns := [] |};
     job_prRepo := {| host := "github.com"; owner := "o"; repo := "r" |};
     ruleset := Some (fun c => match c with
                               | style => Some {| enabled := false; min_severity := info |}
                               | _ => None
                               end);
     resolutionLog := None; maxSteps := None |}.

Definition demoComment (l : Z) (b : str) (cat : option Category) (conf : option Confidence)
    : ReviewOutputComment :=
  {| path := "a.ts"; line := l; side := RIGHT; body := b; severity := minor; category := cat;
     confidence := conf; ruleId := None; suggestion := None |}.

(** The first output breaks the schema; the second has a comment to post, with a secret in it,
    one of a disabled category and one below the confidence floor. *)
Definition demoOutcome (n : nat) : nat * result thrown ReviewOutput :=
  match n with
  | O => (0, Ok {| out_comments := []; out_summary := []; out_tokensUsed := noTokens;
                   out_costUsd := lit_1_0; out_toolCalls := None |})
  | _ => (2, Ok {| out_comments := [demoComment 1 ("see " ++ blob) None None;
                     demoComment 2 "naming" (Some style) None;
                     demoComment 3 "maybe" None (Some low)];
                   out_summary := "one finding"; out_tokensUsed := noTokens;
                   out_costUsd := lit_1_0; out_toolCalls := None |})
  end.

Definition demoContext : EvalContext := {| ec_installationId := 1; ec_prNumber := 2; ec_headSha := [] |}.

Definition demoRun : result thrown RunnerResult * list ReviewInput :=
  runReviewInner demoPlatform (demoJob 50) (scriptedProvider demoOutcome zero)
    (scriptedDeps [] [] demoContext) [].

(** One comment is posted, after two calls. *)
Lemma demoRun_posts :
  match demoRun with
  | (Ok r, trace) => aborted r = None /\ length (rr_comments r) = 1 /\ length trace = 2
  | (Throw _, _) => False
  end.
Proof. vm_compute. done. Qed.

(** The fates of the three comments of the second output. *)
Lemma review_posts_only_survivors_witness :
  exists r trace facts rejected suppressed w1 out, demoRun = (Ok r, trace) /\
    modelOutput demoPlatform (demoJob 50) (scriptedProvider demoOutcome zero)
      (scriptedDeps [] [] demoContext) facts w1 out trace /\
    length (rr_comments r) = 1 /\ NoDup (map fingerprint_of (rr_comments r)) /\
    rr_comments r = map (redactBody (scan demoPlatform (demoJob 50) (scriptedDeps [] [] demoContext)
                      (join (nl ++ nl) (out_summary out :: map (fun c : InlineComment => body c)
                        (meeting demoPlatform toPost
                          (outputFates demoPlatform (demoJob 50) rejected suppressed out))))))
      (meeting demoPlatform toPost (outputFates demoPlatform (demoJob 50) rejected suppressed out)).
Proof.
  pose proof demoRun_posts as H. destruct demoRun as [[r|e] trace] eqn:E; [|destruct H].
  destruct H as (Ha & Hl & _). unfold demoRun in E.
  destruct (review_posts_only_survivors _ _ _ _ _ _ _ E Ha)
    as (facts & rej & sup & w1 & out & _ & Hm & _ & Hc & _ & Hn & _).
  exists r, trace, facts, rej, sup, w1, out. split_and!; [reflexivity|exact Hm|exact Hl|exact Hn|exact Hc].
Defined.

Lemma review_posts_no_found_secret_witness :
  exists r trace, demoRun = (Ok r, trace) /\ length (rr_comments r) = 1 /\
    exists facts w1 out, modelOutput demoPlatform (demoJob 50) (scriptedProvider demoOutcome zero)
        (scriptedDeps [] [] demoContext) facts w1 out trace /\
      exists found, rr_summary r = applyRedactions (out_summary out) found /\
        forall f, f ∈ found -> includes (rr_summary r) (secret f) = false.
Proof.
  pose proof demoRun_posts as H. destruct demoRun as [[r|e] trace] eqn:E; [|destruct H].
  destruct H as (Ha & Hl & _). unfold demoRun in E. exists r, trace. split_and!; [reflexivity|exact Hl|].
  destruct (review_posts_no_found_secret demoPlatform (demoJob 50)
    (scriptedProvider demoOutcome zero) (scriptedDeps [] [] demoContext) [] r trace eq_refl E Ha)
    as (facts & rej & sup & w1 & out & _ & Hm & Hs & _ & Hf).
  exists facts, w1, out. split; [exact Hm|]. eexists. split; [exact Hs|]. intros f Hin. by apply Hf.
Defined.

Lemma over_cap_never_reaches_the_model_witness :
  exists r, rr_comments r = [] /\ rr_costUsd r = zero /\
    runReviewInner demoPlatform (demoJob 0) (scriptedProvider demoOutcome zero)
      (scriptedDeps [] [] demoContext) [] = (Ok r, []).
Proof.
  destruct (over_cap_never_reaches_the_model demoPlatform (demoJob 0)
    (scriptedProvider demoOutcome zero) (scriptedDeps [] [] demoContext) []
    (parseDiffByFile (diffText (demoJob 0))) false) as (r & Hc & Hcost & _ & _ & _ & Hrun).
  - reflexivity.
  - left. vm_compute. reflexivity.
  - exists r. split_and!; [done..|]. rewrite Hrun. reflexivity.
Defined.
