(* ===== verification/EvalRecorder.v ===== *)
(** * The evaluation event (runner/src/middleware/eval-recorder.ts, runReview of
    runner/src/agent.ts, core/src/eval.ts)

    The event built from a review's result, its recording, which never fails a review, and
    [runReview], the review loop with the clock and the recorder around it. *)

From S2P Require Import Prelude JsNumber Errors Schema Review Runner Agent AgentSpec.

Record EvalRecorderContext := {
  er_installationId : Z;
  er_jobId : str;
  er_repo : str;
  er_prNumber : Z;
  er_headSha : str;
}.

Record ReviewEvalEvent := {
  ev_context : EvalRecorderContext;
  ev_provider : str;
  ev_model : str;
  commentCount : nat;
  severityDist : Severity -> nat;
  confidenceDist : Confidence -> nat;
  ev_droppedDuplicates : nat;
  ev_droppedByFeedback : nat;
  ev_toolCalls : Z;
  latencyMs : Z;
  ev_costUsd : number;
  tokensInput : Z;
  tokensOutput : Z;
  abortReason : option ReviewAbortReason;
}.

(** [dist[k] = dist[k] + 1] *)
Definition bumpAt {K} `{EqDecision K} (k : K) (dist : K -> nat) : K -> nat :=
  fun x => if decide (x = k) then S (dist x) else dist x.

(** The loop over the comments, from the empty distributions. *)
Fixpoint tally (cs : list InlineComment) (sev : Severity -> nat) (conf : Confidence -> nat)
    : (Severity -> nat) * (Confidence -> nat) :=
  match cs with
  | [] => (sev, conf)
  | c :: rest => tally rest (bumpAt (severity c) sev) (bumpAt (default high (confidence c)) conf)
  end.

Definition buildReviewEvalEvent (ctx : EvalRecorderContext) (r : RunnerResult) (latency : Z)
    : ReviewEvalEvent :=
  let '(sev, conf) := tally (rr_comments r) (fun _ => 0) (fun _ => 0) in
  {| ev_context := ctx; ev_provider := rr_provider r; ev_model := rr_model r;
     commentCount := length (rr_comments r); severityDist := sev; confidenceDist := conf;
     ev_droppedDuplicates := droppedDuplicates r;
     ev_droppedByFeedback := default 0 (rr_droppedByFeedback r);
     ev_toolCalls := rr_toolCalls r; latencyMs := latency; ev_costUsd := rr_costUsd r;
     tokensInput := tok_input (rr_tokensUsed r); tokensOutput := tok_output (rr_tokensUsed r);
     abortReason := option_map ab_reason (aborted r) |}.

Section recording.
Context {W : Type}.

Record EvalDeps := {
  now : eff W thrown Z;
  evalRecorder : option (ReviewEvalEvent -> eff W thrown unit);
  onEvalRecordError : option (thrown -> eff W thrown unit);
}.

Definition recordEvalEvent (recorder : ReviewEvalEvent -> eff W thrown unit)
    (onRecordError : option (thrown -> eff W thrown unit)) (ctx : EvalRecorderContext)
    (r : RunnerResult) (latency : Z) : eff W thrown unit :=
  tryCatch (recorder (buildReviewEvalEvent ctx r latency)) (callOpt onRecordError).

Definition evalContextOf (job : ReviewJob) (ec : EvalContext) : EvalRecorderContext :=
  {| er_installationId := ec_installationId ec; er_jobId := jobId job;
     er_repo := normalizeRepoKey (job_prRepo job) (ec_installationId ec);
     er_prNumber := ec_prNumber ec; er_headSha := ec_headSha ec |}.

Definition runReview (P : Platform) (job : ReviewJob) (provider : LlmProvider W)
    (deps : RunReviewDeps W) (ed : EvalDeps) : eff W thrown RunnerResult :=
  startedAt ← now ed;
  r ← runReviewInner P job provider deps;
  finishedAt ← now ed;
  let latency := Z.max 0 (finishedAt - startedAt) in
  match evalRecorder ed, evalContext deps with
  | Some recorder, Some ec =>
      recordEvalEvent recorder (onEvalRecordError ed) (evalContextOf job ec) r latency
  | _, _ => mret tt
  end;;
  mret r.
End recording.
Arguments EvalDeps W : clear implicits.

(** ** Lemmas *)

(** How many elements have the key [k]. *)
Definition countKey {A K} `{EqDecision K} (key : A -> K) (k : K) (l : list A) : nat :=
  length (List.filter (fun x => bool_decide (key x = k)) l).

Definition confidenceKey (c : InlineComment) : Confidence := default high (confidence c).

Lemma bumpAt_count {A K} `{EqDecision K} (key : A -> K) (x : A) l (dist : K -> nat) k :
  bumpAt (key x) dist k + countKey key k l = dist k + countKey key k (x :: l).
Proof.
  unfold bumpAt, countKey. cbn [List.filter].
  destruct (decide (k = key x)) as [->|Hk].
  - rewrite (bool_decide_true (key x = key x)) by done. simpl. lia.
  - rewrite (bool_decide_false (key x = k)) by congruence. lia.
Qed.

Lemma tally_spec cs sev conf :
  (forall s, (tally cs sev conf).1 s = sev s + countKey (fun c : InlineComment => severity c) s cs) /\
  (forall k, (tally cs sev conf).2 k = conf k + countKey confidenceKey k cs).
Proof.
  revert sev conf. induction cs as [|c cs IH]; intros sev conf; cbn [tally].
  { unfold countKey. simpl. split; intros; lia. }
  destruct (IH (bumpAt (severity c) sev) (bumpAt (confidenceKey c) conf)) as [IH1 IH2].
  split; [intros s|intros k].
  - etrans; [apply IH1|]. apply (bumpAt_count (fun c : InlineComment => severity c)).
  - etrans; [apply IH2|]. apply bumpAt_count.
Qed.

Lemma countKey_cons {A K} `{EqDecision K} (key : A -> K) k x l :
  countKey key k (x :: l) = (if bool_decide (key x = k) then 1 else 0) + countKey key k l.
Proof. unfold countKey. cbn [List.filter]. by destruct (bool_decide _). Qed.

Lemma severity_total cs :
  sum_list_with (fun s => countKey (fun c : InlineComment => severity c) s cs) SEVERITIES = length cs.
Proof.
  induction cs as [|c cs IH]; [done|]. simpl length. rewrite <- IH. cbn [SEVERITIES sum_list_with].
  rewrite !countKey_cons. destruct (severity c); simpl; lia.
Qed.

Lemma confidence_total cs :
  sum_list_with (fun k => countKey confidenceKey k cs) CONFIDENCES = length cs.
Proof.
  induction cs as [|c cs IH]; [done|]. simpl length. rewrite <- IH. cbn [CONFIDENCES sum_list_with].
  rewrite !countKey_cons. destruct (confidenceKey c); simpl; lia.
Qed.

(** ** Properties *)

(** The event counts the posted comments: each distribution has exactly the comments of its key
    (a comment without a confidence under [high]) and adds up to the comment count. And recording
    it never changes a review: when the clock ticks and the error hook returns, [runReview]
    answers as the review loop does, whatever the recorder throws. *)
Theorem runReview_recording {W} P job (provider : LlmProvider W) deps ed ctx r latency w t w0 :
  now ed w = (Ok t, w0) ->
  (forall w', exists t' w'', now ed w' = (Ok t', w'')) ->
  (forall hook e w', onEvalRecordError ed = Some hook -> exists w'', hook e w' = (Ok tt, w'')) ->
  (runReview P job provider deps ed w).1 = (runReviewInner P job provider deps w0).1 /\
  let ev := buildReviewEvalEvent ctx r latency in
  (forall s, severityDist ev s = countKey (fun c : InlineComment => severity c) s (rr_comments r)) /\
  (forall k, confidenceDist ev k = countKey confidenceKey k (rr_comments r)) /\
  sum_list_with (severityDist ev) SEVERITIES = commentCount ev /\
  sum_list_with (confidenceDist ev) CONFIDENCES = commentCount ev.
Proof.
  intros Hnow Hclock Hhook. split.
  - unfold runReview, mbind, eff_bind. rewrite Hnow.
    destruct (runReviewInner P job provider deps w0) as [[res|e] w1]; [|done].
    destruct (Hclock w1) as (t2 & w2 & ->). unfold recordEvalEvent, tryCatch.
    destruct (evalRecorder ed) as [rec|]; [|done]. destruct (evalContext deps) as [ec|]; [|done].
    destruct (rec _ w2) as [[[]|e] w3]; [done|]. unfold callOpt.
    destruct (onEvalRecordError ed) as [hook|]; [|done].
    by destruct (Hhook hook e w3 eq_refl) as (w4 & ->).
  - cbv zeta. unfold buildReviewEvalEvent.
    destruct (tally_spec (rr_comments r) (fun _ => 0) (fun _ => 0)) as [Hs Hc].
    destruct (tally _ _ _) as [sev conf]. cbn in *.
    split_and!; [done|done| |].
    + rewrite <- severity_total. cbn [SEVERITIES sum_list_with]. by rewrite !Hs.
    + rewrite <- confidence_total. cbn [CONFIDENCES sum_list_with]. by rewrite !Hc.
Qed.

(** A recorder that always fails. *)
Definition failingRecorder : EvalDeps (list ReviewInput) :=
  {| now := fun w => (Ok 5%Z, w);
     evalRecorder := Some (fun _ w => (Throw (StringValue "database down"), w));
     onEvalRecordError := None |}.

Lemma runReview_recording_witness :
  (runReview demoPlatform (demoJob 50) (scriptedProvider demoOutcome zero)
     (scriptedDeps [] [] demoContext) failingRecorder []).1 = demoRun.1.
Proof.
  refine (proj1 (runReview_recording demoPlatform (demoJob 50) (scriptedProvider demoOutcome zero)
    (scriptedDeps [] [] demoContext) failingRecorder
    {| er_installationId := 1; er_jobId := []; er_repo := []; er_prNumber := 2; er_headSha := [] |}
    {| rr_comments := []; rr_summary := []; rr_costUsd := zero; rr_tokensUsed := noTokens;
       rr_model := []; rr_provider := []; droppedDuplicates := 0; rr_droppedByFeedback := None;
       droppedByRuleset := 0; droppedBySuppression := None; rr_toolCalls := 0;
       reviewEvent := COMMENT; exclusionReport := None; aborted := None |}
    0 [] 5 [] eq_refl _ _)).
  - intros w'. exists 5%Z, w'. reflexivity.
  - intros hook e w' [=].
Defined.
