(* ===== verification/AgentFrame.v ===== *)
(** * What a review leaves alone

    A review changes the world only through the operations it is given: whatever the provider and
    the clock keep, [runReview] keeps. *)

From S2P Require Import Prelude JsNumber Regex Glob DiffFilter Errors Schema Cost Gitleaks.
From S2P Require Import Tools Untrusted AutoFetch SystemPrompt Review Dedup Runner Agent EvalRecorder.

Section frame.
Context {W T : Type} (t : W -> T) (P : Platform) (job : ReviewJob) (provider : LlmProvider W).
Context (Hgenerate : forall input w, t (generateReview provider input w).2 = t w).
Context (Hestimate : forall input, keeps t (estimateCost provider input)).

Let rt (s : runState W) : T := t (rs_world s).

Lemma inWorld_keeps {A} (m : eff W thrown A) : keeps t m -> keeps rt (inWorld m).
Proof. intros H s. unfold inWorld. specialize (H (rs_world s)). by destruct (m _). Qed.

Lemma callProvider_keeps input : keeps rt (callProvider provider input).
Proof.
  intros s. unfold callProvider. specialize (Hgenerate input (rs_world s)).
  by destruct (generateReview _ _ _) as [[n r] w].
Qed.

Lemma setCost_keeps c : keeps (E := thrown) rt (modify (setCost c)).
Proof. by apply keeps_modify. Qed.

Lemma attempt_keeps input : keeps rt (attempt P job provider input).
Proof. pose proof (callProvider_keeps input). unfold attempt. solve_keeps. Qed.

Lemma main_keeps input : keeps rt (main P job provider input).
Proof. pose proof (attempt_keeps input). pose proof (attempt_keeps (retryInput input)). unfold main. solve_keeps. Qed.

Lemma guardedCall_keeps cap totals next :
  keeps rt next -> keeps rt (guardedCall agentGuardOptions cap totals next).
Proof.
  intros H. unfold guardedCall, recordSuccess, recordExceeded. cbn [recorder agentGuardOptions onThresholdCrossed].
  pose proof setCost_keeps. solve_keeps.
Qed.

Lemma costGuard_keeps cap est next :
  keeps rt est -> keeps rt next -> keeps rt (createCostGuard agentGuardOptions cap est next).
Proof.
  intros He Hn. unfold createCostGuard, recordExceeded, callHint.
  cbn [recorder agentGuardOptions onThresholdCrossed onFallbackHint readTotals].
  pose proof (fun totals => guardedCall_keeps cap totals next Hn). solve_keeps.
Qed.

Lemma callModel_keeps input : keeps rt (callModel P job provider input).
Proof.
  unfold callModel, compose, middlewares. cbn [foldr].
  assert (keeps rt (createCostGuard agentGuardOptions (costCapUsd job)
    (inWorld (estimateCost provider input)) (main P job provider input))) as Hg.
  { apply costGuard_keeps; [by apply inWorld_keeps|apply main_keeps]. }
  unfold createInjectionGuard. solve_keeps.
Qed.

(** The dependencies the Action and the CLI leave out. *)
Definition noDeps : RunReviewDeps W :=
  {| onConfigResolution := None; fileReader := None; scanContent := None; historyReader := None;
     onHistoryReaderError := None; suppressionLoader := None; evalContext := None |}.

Lemma prologue_keeps : keeps t (prologue job noDeps).
Proof.
  unfold prologue, noteConfig, loadHistory, loadSuppressions.
  cbn [historyReader onConfigResolution noDeps suppressionLoader]. solve_keeps.
Qed.

Lemma runReviewInner_keeps : keeps t (runReviewInner P job provider noDeps).
Proof.
  intros w. unfold runReviewInner.
  assert (keeps rt (runPhases P job provider noDeps)) as H.
  { unfold runPhases, reviewDiff. pose proof (inWorld_keeps _ prologue_keeps).
    pose proof callModel_keeps. solve_keeps. }
  specialize (H (Build_runState zero 0 w)). by destruct (runPhases _ _ _ _ _).
Qed.

Lemma runReview_keeps clock :
  keeps t clock ->
  keeps t (runReview P job provider noDeps {| now := clock; evalRecorder := None; onEvalRecordError := None |}).
Proof.
  intros Hc. unfold runReview. cbn [now evalRecorder]. pose proof runReviewInner_keeps. solve_keeps.
Qed.
End frame.

(** ** What a review cannot see *)

Section blindness.
Context {W : Type} (g : W -> W) (P : Platform) (job : ReviewJob) (provider : LlmProvider W).
Context (Hgenerate : forall input w,
           generateReview provider input (g w) =
             ((generateReview provider input w).1, g (generateReview provider input w).2)).
Context (Hestimate : forall input, blind g (estimateCost provider input)).

Let rg (s : runState W) : runState W := Build_runState (rs_cost s) (rs_calls s) (g (rs_world s)).

Lemma inWorld_blind {A} (m : eff W thrown A) : blind g m -> blind rg (inWorld m).
Proof. intros H s. unfold inWorld. cbn. rewrite H. by destruct (m (rs_world s)). Qed.

Lemma callProvider_blind input : blind rg (callProvider provider input).
Proof.
  intros s. unfold callProvider. cbn. rewrite Hgenerate.
  by destruct (generateReview provider input (rs_world s)) as [[n r] w].
Qed.

Lemma setCost_blind c : blind (E := thrown) rg (modify (setCost c)).
Proof. by apply blind_modify. Qed.

Lemma attempt_blind input : blind rg (attempt P job provider input).
Proof. pose proof (callProvider_blind input). unfold attempt. solve_blind. Qed.

Lemma main_blind input : blind rg (main P job provider input).
Proof. pose proof (attempt_blind input). pose proof (attempt_blind (retryInput input)). unfold main. solve_blind. Qed.

Lemma guardedCall_blind cap totals next :
  blind rg next -> blind rg (guardedCall agentGuardOptions cap totals next).
Proof.
  intros H. unfold guardedCall, recordSuccess, recordExceeded. cbn [recorder agentGuardOptions onThresholdCrossed].
  pose proof setCost_blind. solve_blind.
Qed.

Lemma costGuard_blind cap est next :
  blind rg est -> blind rg next -> blind rg (createCostGuard agentGuardOptions cap est next).
Proof.
  intros He Hn. unfold createCostGuard, recordExceeded, callHint.
  cbn [recorder agentGuardOptions onThresholdCrossed onFallbackHint readTotals].
  pose proof (fun totals => guardedCall_blind cap totals next Hn). solve_blind.
Qed.

Lemma callModel_blind input : blind rg (callModel P job provider input).
Proof.
  unfold callModel, compose, middlewares. cbn [foldr].
  assert (blind rg (createCostGuard agentGuardOptions (costCapUsd job)
    (inWorld (estimateCost provider input)) (main P job provider input))) as Hg.
  { apply costGuard_blind; [by apply inWorld_blind|apply main_blind]. }
  unfold createInjectionGuard. solve_blind.
Qed.

Lemma prologue_blind : blind g (prologue job (noDeps (W := W))).
Proof.
  unfold prologue, noteConfig, loadHistory, loadSuppressions.
  cbn [historyReader onConfigResolution noDeps suppressionLoader]. solve_blind.
Qed.

Lemma runReviewInner_blind : blind g (runReviewInner P job provider noDeps).
Proof.
  intros w. unfold runReviewInner.
  assert (blind rg (runPhases P job provider noDeps)) as H.
  { unfold runPhases, reviewDiff. pose proof (inWorld_blind _ prologue_blind).
    pose proof callModel_blind. solve_blind. }
  specialize (H (Build_runState zero 0 w)). unfold rg at 1 in H. cbn [rs_cost rs_calls rs_world] in H.
  rewrite H. by destruct (runPhases P job provider noDeps (Build_runState zero 0 w)) as [r s].
Qed.

Lemma runReview_blind clock :
  blind g clock ->
  blind g (runReview P job provider noDeps {| now := clock; evalRecorder := None; onEvalRecordError := None |}).
Proof.
  intros Hc. unfold runReview. cbn [now evalRecorder]. pose proof runReviewInner_blind. solve_blind.
Qed.
End blindness.
