(* ===== verification/History.v ===== *)
(** * The review history table (db/src/review-history.ts, core/src/db/schema/review-history.ts)

    The table [review_history] as the list of its rows in insertion order, and the queries on it.
    Times are in milliseconds; a row lives for 180 days. *)

From S2P Require Import Prelude Regex Errors SystemPrompt.
From stdpp Require Import sorting.

Record HistoryRow := {
  row_id : Z;
  row_installationId : Z;
  row_repo : str;
  row_factType : factType;
  row_factText : str;
  row_createdAt : Z;
  row_expiresAt : Z;
}.

Record HistoryDb := { rows : list HistoryRow; nextId : Z }.

(** [now() + interval '180 days'] *)
Definition ROW_TTL_MS : Z := 180 * 24 * 3600 * 1000.

(** An insert with the column defaults. *)
Definition insertRow (now installationId : Z) (repo : str) (t : factType) (text : str)
    (db : HistoryDb) : HistoryDb :=
  {| rows := rows db ++ [{| row_id := nextId db; row_installationId := installationId;
                            row_repo := repo; row_factType := t; row_factText := text;
                            row_createdAt := now; row_expiresAt := (now + ROW_TTL_MS)%Z |}];
     nextId := (nextId db + 1)%Z |}.

(** [createReviewHistoryWriter(db)] *)
Definition writeReviewHistory (now installationId : Z) (repo : str) (t : factType) (text : str)
    : eff HistoryDb thrown unit :=
  modify (insertRow now installationId repo t text).

(** The rows of a repository that have not expired. *)
Definition active (now installationId : Z) (repo : str) (r : HistoryRow) : bool :=
  (row_installationId r =? installationId)%Z && bool_decide (row_repo r = repo)
  && (now <? row_expiresAt r)%Z.

(** [ORDER BY created_at DESC]; SQL leaves the order of rows of one instant open, and no lemma
    depends on the one chosen here. *)
Definition newer (a b : HistoryRow) : Prop := (row_createdAt b <= row_createdAt a)%Z.
#[export] Instance newer_dec a b : Decision (newer a b).
Proof. unfold newer. apply _. Defined.

Definition newestFirst (l : list HistoryRow) : list HistoryRow := merge_sort newer (rev l).

Definition loadRecentReviewHistory (now installationId : Z) (repo : str) (limit : nat)
    (db : HistoryDb) : list HistoryRow :=
  take limit (newestFirst (List.filter (active now installationId repo) (rows db))).

(** [DELETE FROM review_history WHERE expires_at < now]: how many rows went. *)
Definition deleteExpired (now : Z) (db : HistoryDb) : nat * HistoryDb :=
  let expired r := (row_expiresAt r <? now)%Z in
  (length (List.filter expired (rows db)),
   {| rows := List.filter (fun r => negb (expired r)) (rows db); nextId := nextId db |}).

(** What a driver answers to a DELETE of so many rows: [rowCount] and [length], where it has them.
    node-postgres gives the first; postgres.js, which the program uses, an array of the returned
    rows, which a DELETE without RETURNING leaves empty. *)
Record DriverResult := { rowCount : option Z; resultLength : option Z }.
Definition nodePostgres (n : nat) : DriverResult := {| rowCount := Some (Z.of_nat n); resultLength := None |}.
Definition postgresJs (_ : nat) : DriverResult := {| rowCount := None; resultLength := Some 0%Z |}.

(** [r.rowCount ?? r.length ?? 0] *)
Definition affected (r : DriverResult) : Z :=
  match rowCount r with Some k => k | None => default 0%Z (resultLength r) end.

Definition pruneExpiredReviewHistory (answer : nat -> DriverResult) (now : Z) (db : HistoryDb) : Z * HistoryDb :=
  let '(n, db') := deleteExpired now db in (affected (answer n), db').

(** SQL's [LIKE]: [%] is any text, [_] any character, [\] makes the next character plain. *)
Fixpoint likePattern (p : str) : re :=
  match p with
  | [] => Eps
  | c :: rest =>
      if eqc c "%" then Cat anything (likePattern rest)
      else if eqc c "_" then Cat any_char (likePattern rest)
      else if eqc c "\" then
        match rest with
        | d :: rest' => Cat (chr d) (likePattern rest')
        | [] => chr c
        end
      else Cat (chr c) (likePattern rest)
  end.

Definition like (s p : str) : bool := matches (likePattern p) s.

Definition fpKey (fp : str) : str := "[fp:" ++ fp ++ "]".

Definition isType (t : factType) (r : HistoryRow) : bool := bool_decide (row_factType r = t).

Definition countRejectionsByFingerprint (now installationId : Z) (repo fp : str)
    (db : HistoryDb) : nat :=
  length (List.filter (fun r => active now installationId repo r && isType rejected_finding r
                                && like (row_factText r) (fpKey fp ++ "%")) (rows db)).

Definition createSuppressionRule (now installationId : Z) (repo fp reason : str)
    : eff HistoryDb thrown Z := fun db =>
  (Ok (nextId db),
   insertRow now installationId repo suppression_rule (fpKey fp ++ " " ++ reason) db).

Definition loadActiveSuppressionRules (now installationId : Z) (repo : str) (db : HistoryDb)
    : list HistoryRow :=
  newestFirst (List.filter (fun r => active now installationId repo r && isType suppression_rule r)
                 (rows db)).

Definition deleteSuppressionRule (answer : nat -> DriverResult) (id installationId : Z) (repo : str) (db : HistoryDb)
    : bool * HistoryDb :=
  let hit r := (row_id r =? id)%Z && (row_installationId r =? installationId)%Z
               && bool_decide (row_repo r = repo) && isType suppression_rule r in
  ((0 <? affected (answer (length (List.filter hit (rows db)))))%Z,
   {| rows := List.filter (fun r => negb (hit r)) (rows db); nextId := nextId db |}).

(** ** Lemmas *)

Lemma elem_of_newestFirst r l : r ∈ newestFirst l <-> r ∈ l.
Proof.
  unfold newestFirst. rewrite (merge_sort_Permutation newer (rev l)).
  by rewrite <- (Permutation_rev l).
Qed.

Lemma length_newestFirst l : length (newestFirst l) = length l.
Proof.
  unfold newestFirst. rewrite (merge_sort_Permutation newer (rev l)).
  by rewrite <- (Permutation_rev l).
Qed.

(** A text none of whose characters is special to [LIKE]. *)
Definition like_plain (p : str) : bool := forallb (fun c => negb (bool_decide (c ∈ ("%_\" : str)))) p.

Lemma matches_chr_cat c r s :
  matches (Cat (chr c) r) s = match s with d :: s' => eqc c d && matches r s' | [] => false end.
Proof.
  apply eq_true_iff_eq. rewrite matches_spec. rewrite lang_Cat. split.
  - intros (a & b & -> & Ha%lang_chr & Hb). subst a. cbn [app].
    rewrite eqc_refl. by apply matches_spec.
  - destruct s as [|d s']; [done|]. intros [->%eqc_true H%matches_spec]%andb_true_iff.
    exists [d], s'. split_and!; [done|by apply lang_chr|done].
Qed.

Lemma like_prefix p s : like_plain p = true -> like s (p ++ "%") = startsWith s p.
Proof.
  unfold like. revert s. induction p as [|c p IH]; intros s Hp.
  - rewrite startsWith_nil. apply matches_spec. simpl. apply lang_Cat.
    exists s, []. split_and!; [by rewrite app_nil_r|apply lang_anything|constructor].
  - unfold like_plain in Hp. cbn [forallb] in Hp.
    apply andb_true_iff in Hp as [Hc%negb_true_iff%bool_decide_eq_false Hp].
    assert (eqc c "%" = false /\ eqc c "_" = false /\ eqc c "\" = false) as (E1 & E2 & E3).
    { rewrite !eqc_false. split_and!; intros ->; apply Hc; refine (bool_decide_eq_true_1 _ _); done. }
    cbn [app likePattern]. rewrite E1, E2, E3, matches_chr_cat.
    destruct s as [|d s]; [done|]. cbn [startsWith]. by rewrite (IH s Hp).
Qed.
