(* ===== verification/Commands.v ===== *)
(** * Commands in comments (server/src/utils/parse-command.ts, server/src/utils/feedback-authz.ts,
    core/src/feedback.ts)

    The three parsers of a comment's text and the permission check of the commands. *)

From S2P Require Import Prelude JsNumber Errors Schema SystemPrompt.

(** ** [@review-agent <command>] *)

Definition COMMAND_PREFIX : str := "@review-agent".

Definition headToken (s : str) : str := match splitWs s with t :: _ => t | [] => [] end.

(** A word of other characters only leaves the empty command. *)
Definition parseCommand (commentBody : str) : option str :=
  let lower := toLowerCase commentBody in
  match indexOf lower COMMAND_PREFIX with
  | None => None
  | Some idx =>
      let after := trim (drop (idx + length COMMAND_PREFIX) lower) in
      match headToken after with
      | [] => None
      | word => Some (List.filter is_lower word)
      end
  end.

(** ** [/review], [/skip], [/resume] *)

Inductive SlashCommand :=
  | SlashReview (pathScope : option str)
  | SlashSkip
  | SlashResume.

(** The four characters the source accepts before a slash. *)
Definition isBlank (c : ascii) : bool := bool_decide (code c ∈ [32; 9; 10; 13]%N).

Definition boundaryBefore (prev : option ascii) : bool :=
  match prev with None => true | Some c => isBlank c end.

(** [/[/*.?]/] *)
Definition looksLikePath (s : str) : bool :=
  existsb (fun c => bool_decide (c ∈ ("/*.?" : str))) s.

(** The command after a slash. *)
Definition slashAt (after : str) : option SlashCommand :=
  let tokens := splitWs after in
  let cmd := default [] (head tokens) in
  if bool_decide (cmd = "skip") then Some SlashSkip
  else if bool_decide (cmd = "resume") then Some SlashResume
  else if bool_decide (cmd = "review") then
    match tokens with
    | _ :: pathArg :: _ => if looksLikePath pathArg then Some (SlashReview (Some pathArg))
                           else Some (SlashReview None)
    | _ => Some (SlashReview None)
    end
  else None.

Fixpoint slashFrom (prev : option ascii) (s : str) : option SlashCommand :=
  match s with
  | [] => None
  | c :: rest =>
      if eqc c "/" && boundaryBefore prev then
        match slashAt rest with
        | Some cmd => Some cmd
        | None => slashFrom (Some c) rest
        end
      else slashFrom (Some c) rest
  end.

Definition parseSlashCommand (commentBody : str) : option SlashCommand :=
  slashFrom None (toLowerCase commentBody).

(** ** [/feedback] *)

Inductive FeedbackKind := thumbs_up | thumbs_down | dismissed.

#[export] Instance FeedbackKind_eq : EqDecision FeedbackKind.
Proof. solve_decision. Defined.

Record FeedbackCommand := { fb_kind : FeedbackKind; fpPrefix : option str }.

Definition FEEDBACK_COMMAND_PREFIX : str := "/feedback".
Definition MIN_FP_PREFIX_HEX_CHARS : nat := 8.

Definition isValidFpPrefix (s : str) : bool :=
  (MIN_FP_PREFIX_HEX_CHARS <=? length s)%nat && forallb is_hex s.

(** The word characters of a lower-case text. *)
Definition isLowWord (c : ascii) : bool := is_lower c || is_digit c || eqc c "_".

Definition feedbackArgs (kind : FeedbackKind) (arg : option str) : option FeedbackCommand :=
  match arg with
  | None => Some {| fb_kind := kind; fpPrefix := None |}
  | Some a => if isValidFpPrefix a then Some {| fb_kind := kind; fpPrefix := Some a |} else None
  end.

(** Only the first occurrence of the prefix is looked at. *)
Definition parseFeedbackCommand (commentBody : str) : option FeedbackCommand :=
  let lower := toLowerCase commentBody in
  match indexOf lower FEEDBACK_COMMAND_PREFIX with
  | None => None
  | Some idx =>
      if match idx with
         | O => false
         | S i => match lower !! i with Some c => isLowWord c | None => false end
         end
      then None
      else
        let after := trim (drop (idx + length FEEDBACK_COMMAND_PREFIX) lower) in
        match after with
        | [] => None
        | _ =>
            let tokens := splitWs after in
            let sub := default [] (head tokens) in
            let arg := match tokens with _ :: a :: _ => Some a | _ => None end in
            if bool_decide (sub = "accept") then feedbackArgs thumbs_up arg
            else if bool_decide (sub = "reject") then feedbackArgs thumbs_down arg
            else if bool_decide (sub = "dismiss") then Some {| fb_kind := dismissed; fpPrefix := None |}
            else None
        end
  end.

(** ** core/src/feedback.ts *)

Definition feedbackKindToFactType (k : FeedbackKind) : factType :=
  match k with thumbs_up => accepted_pattern | _ => rejected_finding end.

(** ** server/src/utils/feedback-authz.ts *)

Inductive FeedbackAuthzResult := Allowed | Denied (reason : str).

Record GithubAuthzInput := { az_owner : str; az_repo : str; az_username : str }.

Definition GITHUB_WRITE_PERMISSIONS : list str := [js "admin"; js "maintain"; js "write"].

(** [getLevel] is GitHub's permission query: a permission, an answer without one, or an error;
    [errorText] is the message of an [Error], or [unknown]. *)
Definition checkGithubFeedbackAuthz {S} (getLevel : GithubAuthzInput -> eff S thrown (option str))
    (errorText : thrown -> str) (input : GithubAuthzInput) : eff S thrown FeedbackAuthzResult :=
  match az_username input with
  | [] => mret (Denied "missing username on webhook payload")
  | _ =>
      tryCatch
        (permission ← getLevel input;
         mret match permission with
              | None => Denied "getCollaboratorPermissionLevel returned no permission"
              | Some p => if bool_decide (p ∈ GITHUB_WRITE_PERMISSIONS) then Allowed
                          else Denied ("permission '" ++ p ++ "' is below write")
              end)
        (fun e => mret (Denied ("getCollaboratorPermissionLevel threw: " ++ errorText e)))
  end.

(** ** Lemmas *)

Lemma feedbackArgs_sound kind arg c :
  feedbackArgs kind arg = Some c ->
  fb_kind c = kind /\ fpPrefix c = arg /\ forall p, arg = Some p -> isValidFpPrefix p = true.
Proof.
  unfold feedbackArgs. destruct arg as [a|].
  - destruct (isValidFpPrefix a) eqn:E; [|done]. intros [= <-]. split_and!; try done. congruence.
  - by intros [= <-].
Qed.

(** The white space of the parser's characters. *)
Lemma isBlank_ws c : isBlank c = true -> is_ws c = true.
Proof.
  intros H. assert (all_ascii (fun c => negb (isBlank c) || is_ws c) = true) as Ha
    by (vm_compute; reflexivity).
  apply (all_ascii_spec _ c) in Ha. cbv beta in Ha. by rewrite H in Ha.
Qed.

Lemma splitWs_token t rest :
  forallb (fun c => negb (is_ws c)) t = true ->
  match rest with [] => True | c :: _ => is_ws c = true end ->
  exists ts, splitWs (t ++ rest) = t :: ts.
Proof.
  intros Ht Hrest. induction t as [|c t IH]; cbn [app].
  - destruct rest as [|c rest]; [by exists []|]. simpl. rewrite Hrest.
    assert (forall r, match r with [] => True | c :: _ => is_ws c = true end ->
      exists ts, splitWs r = [] :: ts) as Hws; [|].
    { intros r. induction r as [|d r IHr]; [by exists []|]. intros Hd. simpl. rewrite Hd.
      destruct r as [|e r]; [by eexists|]. destruct (is_ws e) eqn:E; [by apply IHr|by eexists]. }
    destruct rest as [|d rest]; [by eexists|]. destruct (is_ws d) eqn:E; [by apply Hws|by eexists].
  - simpl in Ht. apply andb_true_iff in Ht as [Hc%negb_true_iff Ht]. simpl. rewrite Hc.
    destruct (IH Ht) as (ts & ->). by eexists.
Qed.

Lemma lower_char_facts c :
  is_ws (lower_char c) = is_ws c /\
  bool_decide (lower_char c ∈ ("/*.?" : str)) = bool_decide (c ∈ ("/*.?" : str)).
Proof.
  assert (all_ascii (fun c => eqb (is_ws (lower_char c)) (is_ws c) &&
    eqb (bool_decide (lower_char c ∈ ("/*.?" : str))) (bool_decide (c ∈ ("/*.?" : str)))) = true) as H
    by (vm_compute; reflexivity).
  apply (all_ascii_spec _ c) in H. cbv beta in H. apply andb_true_iff in H as [H1 H2].
  by apply eqb_prop in H1, H2.
Qed.

Lemma looksLikePath_lower s : looksLikePath (toLowerCase s) = looksLikePath s.
Proof.
  unfold looksLikePath, toLowerCase. induction s as [|c s IH]; [done|]. cbn [map existsb].
  rewrite IH. by destruct (lower_char_facts c) as [_ ->].
Qed.

Lemma not_ws_lower s :
  forallb (fun c => negb (is_ws c)) (toLowerCase s) = forallb (fun c => negb (is_ws c)) s.
Proof.
  unfold toLowerCase. induction s as [|c s IH]; [done|]. cbn [map forallb].
  rewrite IH. by destruct (lower_char_facts c) as [-> _].
Qed.

(** The last token of a text. *)
Lemma splitWs_word t : forallb (fun c => negb (is_ws c)) t = true -> splitWs t = [t].
Proof.
  induction t as [|c t IH]; [done|]. simpl. intros [Hc%negb_true_iff Ht]%andb_true_iff.
  by rewrite Hc, (IH Ht).
Qed.

Lemma splitWs_two a b :
  forallb (fun c => negb (is_ws c)) a = true -> forallb (fun c => negb (is_ws c)) b = true ->
  b <> [] -> splitWs (a ++ " "%char :: b) = [a; b].
Proof.
  intros Ha Hb Hn. induction a as [|c a IH]; simpl.
  - destruct b as [|d b]; [done|]. pose proof Hb as Hb'. simpl in Hb'.
    apply andb_true_iff in Hb' as [Hd%negb_true_iff _]. rewrite Hd. by rewrite splitWs_word.
  - simpl in Ha. apply andb_true_iff in Ha as [Hc%negb_true_iff Ha]. by rewrite Hc, (IH Ha).
Qed.

Lemma parseFeedbackCommand_arg body c p :
  parseFeedbackCommand body = Some c -> fpPrefix c = Some p ->
  isValidFpPrefix p = true /\ fb_kind c <> dismissed.
Proof.
  unfold parseFeedbackCommand. destruct (indexOf _ _) as [idx|]; [|done]. cbv zeta.
  destruct (match idx with O => false | S i => _ end); [done|].
  destruct (trim _) as [|d after]; [done|].
  set (arg := match splitWs (d :: after) with _ :: a :: _ => Some a | _ => None end).
  repeat case_bool_decide; try done.
  1, 2: intros (-> & -> & Hv)%feedbackArgs_sound Hp; split; [by apply Hv|done].
  by intros [= <-].
Qed.

(** ** Properties *)

(** [/review] hands the worker the path in lower case: a scope written with a capital letter
    names another path, and file paths and the globs over them are case-sensitive. *)
Theorem review_path_is_lowercased p :
  p <> [] -> forallb (fun c => negb (is_ws c)) p = true -> looksLikePath p = true ->
  parseSlashCommand ("/review " ++ p) = Some (SlashReview (Some (toLowerCase p))).
Proof.
  intros Hn Hws Hp. unfold parseSlashCommand.
  assert (toLowerCase ("/review " ++ p) = "/"%char :: "review" ++ " "%char :: toLowerCase p) as ->
    by (unfold toLowerCase; by rewrite map_app).
  cbn [slashFrom]. change (eqc "/" "/" && boundaryBefore None) with true. cbv iota.
  unfold slashAt. rewrite splitWs_two; [|done|by rewrite not_ws_lower|by destruct p].
  cbn [head default]. rewrite looksLikePath_lower, Hp. done.
Qed.

Lemma review_path_is_lowercased_witness :
  parseSlashCommand "/review src/App.ts" = Some (SlashReview (Some (js "src/app.ts"))).
Proof.
  refine (review_path_is_lowercased "src/App.ts" _ _ _); [discriminate|reflexivity|reflexivity].
Defined.

(** The permission check allows a command only when GitHub answers [admin], [maintain] or
    [write] for the commenter; every other answer, an error of the query included, is a denial,
    and the check itself never throws. *)
Theorem checkGithubFeedbackAuthz_spec {S} (getLevel : GithubAuthzInput -> eff S thrown (option str))
    errorText input s :
  exists r s', checkGithubFeedbackAuthz getLevel errorText input s = (Ok r, s') /\
    (r = Allowed <-> az_username input <> [] /\
       exists p, (getLevel input s).1 = Ok (Some p) /\ p ∈ GITHUB_WRITE_PERMISSIONS).
Proof.
  unfold checkGithubFeedbackAuthz. destruct (az_username input) as [|c u].
  { eexists _, s. split; [done|]. split; [done|]. by intros [[] _]. }
  unfold tryCatch, mbind, eff_bind.
  destruct (getLevel input s) as [[[p|]|e] s'] eqn:E; cbn -[bool_decide].
  - case_bool_decide as Hp; eexists _, s'; (split; [done|]); (split; [|by intros (_ & q & [= <-] & ?)]).
    + intros _. split; [done|]. by exists p.
    + done.
  - eexists _, s'. split; [done|]. split; [done|]. by intros (_ & q & [=] & _).
  - eexists _, s'. split; [done|]. split; [done|]. by intros (_ & q & [=] & _).
Qed.
