(* ===== verification/Feedback.v ===== *)
(** * Feedback and suppression (runner/src/feedback-writer.ts)

    The writer of the review history: its rate limit, its redaction, and the rule it creates when
    a finding was rejected often enough. The closure's counter and the world of the injected
    functions are the record [writerState]. No caller of the repository passes the suppression
    options; [WiredAsDocumented] states the wiring their type describes, over the table of
    History.v. *)

From S2P Require Import Prelude JsNumber Regex Glob Errors Schema Gitleaks Tools SystemPrompt Review.
From S2P Require Import Dedup Runner AgentSpec History Commands.

(** ** The writer *)

Record FeedbackEvent := {
  fe_installationId : Z;
  fe_repo : str;
  fe_prNumber : Z;
  fe_fingerprint : str;
  fe_kind : FeedbackKind;
  fe_factText : str;
  fe_occurredAt : Z;
}.

Record SuppressionOpts (W : Type) := {
  suppressAfter : Z;
  rejectionCounter : Z -> str -> str -> eff W thrown nat;
  so_suppressionLoader : Z -> str -> eff W thrown (list str);
  suppressionWriter : Z -> str -> str -> str -> eff W thrown unit;
  onSuppressionRuleCreated : option (str -> eff W thrown unit);
}.
Arguments suppressAfter {W} _.
Arguments rejectionCounter {W} _ _ _ _.
Arguments so_suppressionLoader {W} _ _ _.
Arguments suppressionWriter {W} _ _ _ _ _.
Arguments onSuppressionRuleCreated {W} _.

Inductive MaxWrites := Unlimited | AtMost (n : Z).

Record FeedbackWriterOptions (W : Type) := {
  fw_writer : Z -> str -> factType -> str -> eff W thrown unit;
  fw_redactPatterns : list str;
  maxWritesPerJob : option MaxWrites;
  onRateLimit : option (FeedbackEvent -> eff W thrown unit);
  suppressionOpts : option (SuppressionOpts W);
}.
Arguments fw_writer {W} _ _ _ _ _.
Arguments fw_redactPatterns {W} _.
Arguments maxWritesPerJob {W} _.
Arguments onRateLimit {W} _.
Arguments suppressionOpts {W} _.

Definition DEFAULT_MAX_WRITES_PER_JOB : Z := 10.

Record writerState (W : Type) := { ws_count : Z; ws_world : W }.
Arguments ws_count {W} _.
Arguments ws_world {W} _.
Arguments Build_writerState {W} _ _.

Definition onWorld {W A} (m : eff W thrown A) : eff (writerState W) thrown A := fun s =>
  let '(r, w) := m (ws_world s) in (r, Build_writerState (ws_count s) w).

Definition suppressionReason (count : nat) (threshold : Z) : str :=
  "Auto-suppressed after " ++ showN count ++ " rejection(s) (threshold: " ++ showZ threshold ++ ")".

Section writer.
Context {W : Type} (P : Platform).

(** Any error ends it silently. *)
Definition maybeCreateSuppressionRule (event : FeedbackEvent) (so : SuppressionOpts W)
    : eff W thrown unit :=
  tryCatch
    (count ← rejectionCounter so (fe_installationId event) (fe_repo event) (fe_fingerprint event);
     if (Z.of_nat count <? suppressAfter so)%Z then mret tt
     else
       existing ← so_suppressionLoader so (fe_installationId event) (fe_repo event);
       if existsb (fun t => startsWith t (fpKey (fe_fingerprint event))) existing then mret tt
       else
         suppressionWriter so (fe_installationId event) (fe_repo event) (fe_fingerprint event)
           (suppressionReason count (suppressAfter so));;
         callOpt (onSuppressionRuleCreated so) (fe_repo event))
    (fun _ => mret tt).

Definition redactedText (opts : FeedbackWriterOptions W) (text : str) : str :=
  let patterns := List.filter (isValidRegex (fun p => bool_decide (is_Some (newRegExp P p)))) (fw_redactPatterns opts) in
  match quickScanContent (log2 P) (toFixed2 P) (matchAll P) text patterns with
  | [] => text
  | findings => applyRedactions text findings
  end.

Definition overLimit (opts : FeedbackWriterOptions W) (count : Z) : bool :=
  match default (AtMost DEFAULT_MAX_WRITES_PER_JOB) (maxWritesPerJob opts) with
  | Unlimited => false
  | AtMost max => (max <=? count)%Z
  end.

(** [record]: [true] when the event was dropped. *)
Definition record (opts : FeedbackWriterOptions W) (event : FeedbackEvent)
    : eff (writerState W) thrown bool :=
  s ← get;
  if overLimit opts (ws_count s) then
    onWorld (callOpt (onRateLimit opts) event);;
    mret true
  else
    put (Build_writerState (ws_count s + 1) (ws_world s));;
    let t := feedbackKindToFactType (fe_kind event) in
    onWorld (fw_writer opts (fe_installationId event) (fe_repo event) t
               (fpKey (fe_fingerprint event) ++ " " ++ redactedText opts (fe_factText event)));;
    match t, suppressionOpts opts with
    | rejected_finding, Some so => onWorld (maybeCreateSuppressionRule event so)
    | _, _ => mret tt
    end;;
    mret false.

(** A job's events, in turn. *)
Fixpoint recordAll (opts : FeedbackWriterOptions W) (events : list FeedbackEvent)
    : eff (writerState W) thrown (list bool) :=
  match events with
  | [] => mret []
  | e :: rest => d ← record opts e; ds ← recordAll opts rest; mret (d :: ds)
  end.
End writer.

(** ** The writer over the table *)

(** The wiring the comments of the options describe: each function is the one of the history table
    it is said to be wired to, and the two hooks only observe. *)
Record WiredAsDocumented (now threshold : Z) (opts : FeedbackWriterOptions HistoryDb) : Prop := {
  wd_writer : forall i r t text db,
    fw_writer opts i r t text db = writeReviewHistory now i r t text db;
  wd_onRateLimit : forall hook e db, onRateLimit opts = Some hook -> hook e db = (Ok tt, db);
  wd_suppression : exists so, suppressionOpts opts = Some so /\ suppressAfter so = threshold /\
    (forall i r fp db, rejectionCounter so i r fp db = (Ok (countRejectionsByFingerprint now i r fp db), db)) /\
    (forall i r db, so_suppressionLoader so i r db =
       (Ok (map row_factText (loadActiveSuppressionRules now i r db)), db)) /\
    (forall i r fp reason db, suppressionWriter so i r fp reason db =
       (createSuppressionRule now i r fp reason;; mret tt) db) /\
    (forall hook r db, onSuppressionRuleCreated so = Some hook -> (hook r db).2 = db);
}.

(** The events a job stores when [count] are already written. *)
Definition stored {A} (opts : FeedbackWriterOptions HistoryDb) (count : Z) (events : list A) : list A :=
  match maxWritesPerJob opts with
  | Some Unlimited => events
  | Some (AtMost max) => take (Z.to_nat (max - count)) events
  | None => take (Z.to_nat (10 - count)) events
  end.

(** ** Fingerprints in the table's texts *)

Definition hexFp (fp : str) : Prop := fp <> [] /\ forallb is_hex fp = true.

Lemma hex_not_bracket c : is_hex c = true -> c <> "]"%char.
Proof. intros H E. rewrite E in H. done. Qed.

(** The key at the head of a text is the text's own. *)
Lemma fpKey_prefix fp fp' rest :
  hexFp fp -> hexFp fp' -> startsWith (fpKey fp' ++ rest) (fpKey fp) = true -> fp = fp'.
Proof.
  unfold fpKey. intros [_ H1] [_ H2] H. cbn [app startsWith js] in H.
  assert (startsWith ((fp' ++ "]") ++ rest) (fp ++ "]") = true) as Hs by exact H.
  clear H. revert fp' H2 Hs.
  induction fp as [|c fp IH]; intros [|d fp'] H2 Hs; [done| | |].
  - simpl in H2, Hs. apply andb_true_iff in H2 as [Hd _], Hs as [<-%eqc_true _].
    by apply hex_not_bracket in Hd.
  - simpl in H1, Hs. apply andb_true_iff in H1 as [Hc _], Hs as [->%eqc_true _].
    by apply hex_not_bracket in Hc.
  - simpl in H1, H2, Hs. apply andb_true_iff in H1 as [_ H1], H2 as [_ H2], Hs as [->%eqc_true Hs].
    f_equal. by apply IH.
Qed.

Lemma hex_like_plain fp : forallb is_hex fp = true -> like_plain (fpKey fp) = true.
Proof.
  intros H. unfold fpKey, like_plain. rewrite !forallb_app.
  assert (forallb (fun c => negb (bool_decide (c ∈ ("%_\" : str)))) fp = true) as ->; [|done].
  rewrite forallb_elem in *. intros c Hc. specialize (H c Hc).
  assert (all_ascii (fun c => negb (is_hex c) || negb (bool_decide (c ∈ ("%_\" : str)))) = true) as Ha
    by (vm_compute; reflexivity).
  apply (all_ascii_spec _ c) in Ha. cbv beta in Ha. by rewrite H in Ha.
Qed.

Lemma extractFingerprint_key fp rest : hexFp fp -> extractFingerprint (fpKey fp ++ rest) = Some fp.
Proof.
  intros [Hn Hhex]. unfold extractFingerprint, fpKey.
  change (startsWith (("[fp:" ++ fp ++ "]") ++ rest) "[fp:") with true. cbv iota.
  assert (drop 4 (("[fp:" ++ fp ++ "]") ++ rest) = fp ++ "]"%char :: rest) as ->
    by (simpl; by rewrite <- app_assoc).
  rewrite takeWhile_stop by done. cbv zeta.
  destruct fp as [|c fp]; [done|]. by rewrite drop_app_length.
Qed.

(** ** One event over the table *)

(** The suppression rules of a fingerprint. *)
Definition rulesFor (now installationId : Z) (repo fp : str) (db : HistoryDb) : nat :=
  length (List.filter (fun r => active now installationId repo r && isType suppression_rule r
                                && startsWith (row_factText r) (fpKey fp)) (rows db)).

Lemma insert_counts now i i' r r' fp t text db :
  hexFp fp ->
  let hit := (i' =? i)%Z && bool_decide (r' = r) && startsWith text (fpKey fp) in
  countRejectionsByFingerprint now i r fp (insertRow now i' r' t text db) =
    countRejectionsByFingerprint now i r fp db
      + (if hit && bool_decide (t = rejected_finding) then 1 else 0) /\
  rulesFor now i r fp (insertRow now i' r' t text db) =
    rulesFor now i r fp db + (if hit && bool_decide (t = suppression_rule) then 1 else 0).
Proof.
  intros Hfp hit. unfold countRejectionsByFingerprint, rulesFor, insertRow, active, isType.
  cbn [rows]. rewrite !List.filter_app, !length_app. cbn [List.filter row_installationId row_repo
    row_expiresAt row_factType row_factText].
  rewrite like_prefix by (apply hex_like_plain, Hfp).
  assert ((now <? now + ROW_TTL_MS)%Z = true) as -> by (apply Z.ltb_lt; unfold ROW_TTL_MS; lia).
  subst hit. split; f_equal; destruct (i' =? i)%Z, (bool_decide (r' = r)), (bool_decide (t = _)),
    (startsWith text (fpKey fp)); done.
Qed.

Lemma rules_loaded now i r fp db :
  existsb (fun t => startsWith t (fpKey fp))
    (map row_factText (loadActiveSuppressionRules now i r db)) =
  negb (rulesFor now i r fp db =? 0)%nat.
Proof.
  unfold loadActiveSuppressionRules, rulesFor.
  destruct (_ =? 0)%nat eqn:E; to_prop.
  - apply existsb_none. intros y (x & -> & [Hx Ha]%elem_of_newestFirst%elem_of_bfilter)%elem_of_bmap.
    apply nil_length_inv in E. destruct (startsWith (row_factText x) (fpKey fp)) eqn:Hs; [|done].
    assert (x ∈ List.filter (fun r0 => active now i r r0 && isType suppression_rule r0
      && startsWith (row_factText r0) (fpKey fp)) (rows db)) as Hin
      by (apply elem_of_bfilter; by rewrite Ha).
    rewrite E in Hin. by apply elem_of_nil in Hin.
  - apply existsb_elem. destruct (List.filter _ (rows db)) as [|x l] eqn:F; [done|].
    assert (x ∈ x :: l) as Hx by left. rewrite <- F in Hx.
    apply elem_of_bfilter in Hx as [Hin [Ha Hs]%andb_true_iff]. exists (row_factText x). split; [|done].
    apply elem_of_bmap. exists x. split; [done|]. by apply elem_of_newestFirst, elem_of_bfilter.
Qed.

(** The table after one event that is not dropped. *)
Definition afterEvent (P : Platform) (now threshold : Z) (opts : FeedbackWriterOptions HistoryDb)
    (e : FeedbackEvent) (db : HistoryDb) : HistoryDb :=
  let i := fe_installationId e in
  let r := fe_repo e in
  let fp := fe_fingerprint e in
  let t := feedbackKindToFactType (fe_kind e) in
  let db1 := insertRow now i r t (fpKey fp ++ " " ++ redactedText P opts (fe_factText e)) db in
  let count := countRejectionsByFingerprint now i r fp db1 in
  if bool_decide (t = rejected_finding) && (threshold <=? Z.of_nat count)%Z
     && (rulesFor now i r fp db1 =? 0)%nat
  then insertRow now i r suppression_rule (fpKey fp ++ " " ++ suppressionReason count threshold) db1
  else db1.

Section wired.
Context (P : Platform) (now threshold : Z) (opts : FeedbackWriterOptions HistoryDb).
Context (HW : WiredAsDocumented now threshold opts).
Implicit Types (e : FeedbackEvent) (db : HistoryDb).

Lemma maybeCreate_wired so e db :
  suppressionOpts opts = Some so ->
  let i := fe_installationId e in
  let r := fe_repo e in
  let fp := fe_fingerprint e in
  let count := countRejectionsByFingerprint now i r fp db in
  maybeCreateSuppressionRule e so db = (Ok tt,
    if (threshold <=? Z.of_nat count)%Z && (rulesFor now i r fp db =? 0)%nat
    then insertRow now i r suppression_rule (fpKey fp ++ " " ++ suppressionReason count threshold) db
    else db).
Proof.
  intros Hso. destruct (wd_suppression _ _ _ HW) as (so' & Hso' & Hth & Hc & Hl & Hw & Hh).
  rewrite Hso in Hso'. injection Hso' as <-. cbv zeta.
  unfold maybeCreateSuppressionRule, tryCatch, mbind, eff_bind. rewrite Hc, Hth, Z.leb_antisym.
  destruct (_ <? threshold)%Z; [done|]. rewrite Hl, rules_loaded. cbn [andb negb].
  destruct (rulesFor _ _ _ _ db =? 0)%nat; [|done]. cbn [negb]. rewrite Hw.
  unfold createSuppressionRule, mbind, eff_bind. cbn -[insertRow suppressionReason fpKey].
  set (db1 := insertRow _ _ _ _ _ _). unfold callOpt.
  destruct (onSuppressionRuleCreated so) as [hook|] eqn:E; [|done].
  pose proof (Hh hook (fe_repo e) db1 eq_refl) as Hk. revert Hk.
  by destruct (hook (fe_repo e) db1) as [[[]|x] db2]; cbn; intros ->.
Qed.

Lemma record_wired e s :
  record P opts e s =
  if overLimit opts (ws_count s) then (Ok true, s)
  else (Ok false, Build_writerState (ws_count s + 1) (afterEvent P now threshold opts e (ws_world s))).
Proof.
  destruct s as [count db]. unfold record, get, put, mbind, eff_bind. cbn [ws_count].
  destruct (overLimit opts count).
  - unfold onWorld, callOpt. destruct (onRateLimit opts) as [hook|] eqn:E; [|done]. cbn.
    by rewrite (wd_onRateLimit _ _ _ HW hook).
  - unfold onWorld at 1. cbn -[redactedText insertRow feedbackKindToFactType afterEvent]. rewrite (wd_writer _ _ _ HW).
    cbn -[redactedText insertRow feedbackKindToFactType afterEvent].
    destruct (wd_suppression _ _ _ HW) as (so & Hso & _). rewrite Hso. unfold afterEvent.
    destruct (feedbackKindToFactType (fe_kind e)); [done| |done|done].
    unfold onWorld. cbn -[redactedText insertRow maybeCreateSuppressionRule]. by rewrite maybeCreate_wired.
Qed.

End wired.

(** ** What the table says of a fingerprint *)

Definition rejects (i : Z) (r fp : str) (e : FeedbackEvent) : bool :=
  (fe_installationId e =? i)%Z && bool_decide (fe_repo e = r) && bool_decide (fe_fingerprint e = fp)
  && bool_decide (feedbackKindToFactType (fe_kind e) = rejected_finding).

(** At most one rule, and one as soon as the rejections reach the threshold. *)
Definition muted_at (now threshold i : Z) (r fp : str) (db : HistoryDb) : Prop :=
  rulesFor now i r fp db <= 1 /\
  ((threshold <= Z.of_nat (countRejectionsByFingerprint now i r fp db))%Z ->
   rulesFor now i r fp db = 1).

Lemma startsWith_own_key fp fp' rest :
  hexFp fp -> hexFp fp' -> startsWith (fpKey fp' ++ rest) (fpKey fp) = bool_decide (fp' = fp).
Proof.
  intros H1 H2. destruct (startsWith _ _) eqn:E; symmetry.
  - apply bool_decide_eq_true. symmetry. by eapply fpKey_prefix.
  - apply bool_decide_eq_false. intros ->. by rewrite startsWith_app in E.
Qed.

Lemma afterEvent_muted P now threshold opts e db i r fp :
  hexFp fp -> hexFp (fe_fingerprint e) ->
  muted_at now threshold i r fp db ->
  muted_at now threshold i r fp (afterEvent P now threshold opts e db) /\
  countRejectionsByFingerprint now i r fp (afterEvent P now threshold opts e db) =
    countRejectionsByFingerprint now i r fp db + (if rejects i r fp e then 1 else 0).
Proof.
  intros Hfp He [Hle Hth]. unfold afterEvent, rejects, muted_at.
  set (t := feedbackKindToFactType (fe_kind e)). set (text := redactedText _ _ _).
  set (db1 := insertRow _ _ _ t _ db).
  assert (t <> suppression_rule) as Ht by (unfold t; by destruct (fe_kind e)).
  destruct (insert_counts now i (fe_installationId e) r (fe_repo e) fp t
    (fpKey (fe_fingerprint e) ++ " " ++ text) db Hfp) as [Hc1 Hr1]. fold db1 in Hc1, Hr1.
  rewrite startsWith_own_key in Hc1, Hr1 by done.
  rewrite (bool_decide_false (t = suppression_rule)), andb_false_r, Nat.add_0_r in Hr1 by done.
  destruct (bool_decide (t = rejected_finding)) eqn:Htr; cbn [andb] in Hc1 |- *;
    [|rewrite andb_false_r, Nat.add_0_r in *; rewrite Hc1, Hr1; done].
  rewrite andb_true_r in Hc1 |- *. apply bool_decide_eq_true in Htr.
  destruct ((threshold <=? _)%Z && _) eqn:E.
  - set (c := countRejectionsByFingerprint now (fe_installationId e) (fe_repo e)
      (fe_fingerprint e) db1) in *.
    destruct (insert_counts now i (fe_installationId e) r (fe_repo e) fp suppression_rule
      (fpKey (fe_fingerprint e) ++ " " ++ suppressionReason c threshold) db1 Hfp) as [Hc2 Hr2].
    rewrite startsWith_own_key in Hc2, Hr2 by done.
    rewrite (bool_decide_false (suppression_rule = rejected_finding)), andb_false_r in Hc2 by done.
    rewrite (bool_decide_true (suppression_rule = suppression_rule)), andb_true_r in Hr2 by done.
    rewrite Hc2, Hr2, Hc1, Hr1, Nat.add_0_r. split; [|done].
    apply andb_true_iff in E as [_ E]. to_prop.
    destruct ((fe_installationId e =? i)%Z && _ && _) eqn:Hit; [|rewrite !Nat.add_0_r; done].
    to_prop. subst. rewrite Hr1 in E. lia.
  - rewrite Hc1, Hr1. split; [|done]. split; [done|].
    destruct ((fe_installationId e =? i)%Z && _ && _) eqn:Hit; [|by rewrite Nat.add_0_r].
    apply andb_true_iff in Hit as [[Hi Hr]%andb_true_iff Hf]. to_prop. subst.
    rewrite Hc1, Hr1 in E. destruct E as [E|E]; to_prop; lia.
Qed.

(** A batch of events. *)
Definition afterEvents (P : Platform) (now threshold : Z) (opts : FeedbackWriterOptions HistoryDb)
    (events : list FeedbackEvent) (db : HistoryDb) : HistoryDb :=
  fold_left (fun db e => afterEvent P now threshold opts e db) events db.

Section batch.
Context (P : Platform) (now threshold : Z) (opts : FeedbackWriterOptions HistoryDb).
Context (HW : WiredAsDocumented now threshold opts).

Lemma stored_cons (count : Z) (e : FeedbackEvent) events :
  stored opts count (e :: events) =
  if overLimit opts count then [] else e :: stored opts (count + 1) events.
Proof.
  unfold stored, overLimit, DEFAULT_MAX_WRITES_PER_JOB.
  assert (forall max, take (Z.to_nat (max - count)) (e :: events) =
    if (max <=? count)%Z then [] else e :: take (Z.to_nat (max - (count + 1))) events) as H.
  { intros max. destruct (max <=? count)%Z eqn:E; to_prop.
    - by replace (Z.to_nat (max - count)) with 0 by lia.
    - by replace (Z.to_nat (max - count)) with (S (Z.to_nat (max - (count + 1)))) by lia. }
  destruct (maxWritesPerJob opts) as [[|max]|]; [done|apply H..].
Qed.

Lemma overLimit_stored count (events : list FeedbackEvent) :
  overLimit opts count = true -> stored opts count events = [].
Proof. intros H. destruct events; [|by rewrite stored_cons, H]. unfold stored. by destruct (maxWritesPerJob opts) as [[|]|]; rewrite ?take_nil. Qed.

Lemma stored_stored count (events : list FeedbackEvent) : stored opts count (stored opts count events) = stored opts count events.
Proof. unfold stored. destruct (maxWritesPerJob opts) as [[|]|]; by rewrite ?take_take, ?Nat.min_id. Qed.

Lemma recordAll_wired events s :
  let kept := stored opts (ws_count s) events in
  recordAll P opts events s =
  (Ok (map (fun _ => false) kept ++ map (fun _ => true) (drop (length kept) events)),
   Build_writerState (ws_count s + Z.of_nat (length kept))
     (afterEvents P now threshold opts kept (ws_world s))).
Proof.
  cbv zeta. revert s. induction events as [|e events IH]; intros s; cbn [recordAll].
  { assert (stored opts (ws_count s) [] = ([] : list FeedbackEvent)) as ->.
    { unfold stored. by destruct (maxWritesPerJob opts) as [[|]|]; rewrite ?take_nil. }
    destruct s as [c w]. cbn. by rewrite Z.add_0_r. }
  unfold mbind, eff_bind. rewrite (record_wired P now threshold opts HW), stored_cons.
  destruct (overLimit opts (ws_count s)) eqn:E; rewrite IH.
  - rewrite overLimit_stored by done. cbn. by rewrite Z.add_0_r.
  - cbn -[Z.add Z.of_nat afterEvent stored]. do 2 f_equal. lia.
Qed.

Lemma afterEvents_muted events db i r fp :
  hexFp fp -> Forall (fun e => hexFp (fe_fingerprint e)) events ->
  muted_at now threshold i r fp db ->
  muted_at now threshold i r fp (afterEvents P now threshold opts events db) /\
  countRejectionsByFingerprint now i r fp (afterEvents P now threshold opts events db) =
    countRejectionsByFingerprint now i r fp db + length (List.filter (rejects i r fp) events).
Proof.
  clear HW. intros Hfp Hall. revert db. induction Hall as [|e events He _ IH]; intros db Hm.
  { cbn. by rewrite Nat.add_0_r. }
  destruct (afterEvent_muted P now threshold opts e db i r fp Hfp He Hm) as [Hm1 Hc1].
  destruct (IH _ Hm1) as [Hm2 Hc2]. split; [exact Hm2|]. etrans; [exact Hc2|]. rewrite Hc1.
  cbn [List.filter]. destruct (rejects i r fp e); simpl; lia.
Qed.
End batch.

Lemma rule_extracted now i r fp db :
  hexFp fp -> rulesFor now i r fp db = 1 ->
  fp ∈ omap extractFingerprint (map row_factText (loadActiveSuppressionRules now i r db)).
Proof.
  unfold rulesFor. intros Hfp H. destruct (List.filter _ (rows db)) as [|x l] eqn:F; [done|].
  assert (x ∈ x :: l) as Hx by left. rewrite <- F in Hx.
  apply elem_of_bfilter in Hx as [Hin [Ha Hs]%andb_true_iff].
  apply startsWith_spec in Hs as [rest Hrest].
  apply list_elem_of_omap. exists (row_factText x). split.
  - apply elem_of_bmap. exists x. split; [done|]. by apply elem_of_newestFirst, elem_of_bfilter.
  - rewrite Hrest. by apply extractFingerprint_key.
Qed.

(** Feedback on one finding, and the documented wiring, for the witness. *)
Definition demoEvent (kind : FeedbackKind) : FeedbackEvent :=
  {| fe_installationId := 1; fe_repo := "o/r"; fe_prNumber := 7;
     fe_fingerprint := "0123456789abcdef"; fe_kind := kind; fe_factText := "not a bug";
     fe_occurredAt := 0 |}.

Definition demoFeedback : list FeedbackEvent := map demoEvent [thumbs_down; thumbs_down; thumbs_up; thumbs_down].

Definition demoOptions : FeedbackWriterOptions HistoryDb :=
  {| fw_writer := writeReviewHistory 0; fw_redactPatterns := []; maxWritesPerJob := None;
     onRateLimit := None;
     suppressionOpts := Some
       {| suppressAfter := 3;
          rejectionCounter := fun i r fp db => (Ok (countRejectionsByFingerprint 0 i r fp db), db);
          so_suppressionLoader := fun i r db =>
            (Ok (map row_factText (loadActiveSuppressionRules 0 i r db)), db);
          suppressionWriter := fun i r fp reason => createSuppressionRule 0 i r fp reason;; mret tt;
          onSuppressionRuleCreated := None |} |}.

Definition emptyHistory : HistoryDb := {| rows := []; nextId := 1 |}.

(** ** Properties *)


