(* ===== verification/ReviewStateStore.v ===== *)
(** * The review-state mirror (db/src/review-state.ts, core/src/db/schema/review-state.ts)

    The table [review_state] as a map from its primary key, the mirror's two operations, and the
    reader that reconciles the mirror with the hidden comment of the pull request. *)

From S2P Require Import Prelude JsNumber Errors Review.

Record StateRow := {
  sr_installationId : Z;
  sr_prId : str;
  sr_headSha : str;
  sr_state : ReviewState;
  sr_updatedAt : Z;
}.

Abbreviation stateTable := (gmap str StateRow).

Record ReviewStateLookup := { lk_installationId : Z; lk_prId : str }.

#[export] Instance ReviewStateLookup_eq : EqDecision ReviewStateLookup.
Proof. solve_decision. Defined.

(** [`${q.installationId}:${q.prId}`] *)
Definition idFor (q : ReviewStateLookup) : str := showZ (lk_installationId q) ++ ":" ++ lk_prId q.

Definition readMirror (q : ReviewStateLookup) (t : stateTable) : option ReviewState :=
  sr_state <$> t !! idFor q.

(** The insert, or on a conflict of the key the update of head, state and time. *)
Definition upsertMirror (now : Z) (q : ReviewStateLookup) (headSha : str) (state : ReviewState)
    (t : stateTable) : stateTable :=
  match t !! idFor q with
  | None =>
      <[ idFor q := {| sr_installationId := lk_installationId q; sr_prId := lk_prId q;
                       sr_headSha := headSha; sr_state := state; sr_updatedAt := now |} ]> t
  | Some row =>
      <[ idFor q := {| sr_installationId := sr_installationId row; sr_prId := sr_prId row;
                       sr_headSha := headSha; sr_state := state; sr_updatedAt := now |} ]> t
  end.

(** [loadReviewState] with the mirror of [q] as its reader and writer; [hidden] is the state found
    in the hidden comment. *)
Definition loadReviewState (now : Z) (q : ReviewStateLookup) (hidden : option ReviewState)
    (t : stateTable) : option ReviewState * stateTable :=
  let mirror := readMirror q t in
  match hidden with
  | Some h =>
      if match mirror with Some m => negb (bool_decide (reviewedAt m = reviewedAt h)) | None => true end
      then (Some h,
            match lastReviewedSha h with
            | [] => t
            | sha => upsertMirror now q sha h t
            end)
      else (mirror, t)
  | None => (mirror, t)
  end.

(** ** The key *)

Lemma idFor_inj q q' : idFor q = idFor q' -> q = q'.
Proof.
  unfold idFor. intros E. apply app_sep_inj in E as [Ei%showZ_inj Ep].
  - destruct q, q'; cbn in *. by subst.
  - by apply showZ_free.
  - by apply showZ_free.
Qed.

Lemma readMirror_upsert now q q' sha st t :
  readMirror q' (upsertMirror now q sha st t)
  = if bool_decide (q = q') then Some st else readMirror q' t.
Proof.
  unfold readMirror, upsertMirror. case_bool_decide as H.
  - subst q'. by destruct (t !! idFor q); rewrite lookup_insert_eq.
  - assert (idFor q <> idFor q') as Hne by by intros ?%idFor_inj.
    by destruct (t !! idFor q); rewrite lookup_insert_ne.
Qed.

(** Every key of the table is the key of its row. *)
Definition mirrored (t : stateTable) : Prop :=
  forall id row, t !! id = Some row ->
    id = idFor {| lk_installationId := sr_installationId row; lk_prId := sr_prId row |}.

Lemma mirrored_empty : mirrored ∅.
Proof. intros id row. by rewrite lookup_empty. Qed.

Lemma mirrored_upsert now q sha st t : mirrored t -> mirrored (upsertMirror now q sha st t).
Proof.
  intros H id row. unfold upsertMirror.
  destruct (t !! idFor q) as [r|] eqn:E;
    (destruct (decide (idFor q = id)) as [<-|Hne];
     [rewrite lookup_insert_eq; intros [= <-]|rewrite lookup_insert_ne by done; apply H]).
  - by apply (H _ r).
  - by destruct q.
Qed.

Lemma mirrored_load now q hidden t : mirrored t -> mirrored (loadReviewState now q hidden t).2.
Proof.
  intros H. unfold loadReviewState. destruct hidden as [h|]; [|done].
  destruct (readMirror q t) as [m|]; [case_bool_decide; [done|]|]; cbn;
    (destruct (lastReviewedSha h); [done|]); by apply mirrored_upsert.
Qed.

(** Reading the state of a pull request: the hidden comment wins whenever its review is not the
    one of the mirror, and the mirror then holds it; a second read, for the same comment, writes
    nothing; other pull requests, of this or any other installation, are not touched. *)
Theorem loadReviewState_converges now now' q h t :
  lastReviewedSha h <> [] ->
  let '(r, t1) := loadReviewState now q (Some h) t in
  (exists st, r = Some st /\ reviewedAt st = reviewedAt h /\ readMirror q t1 = Some st /\
     (st = h \/ readMirror q t = Some st)) /\
  loadReviewState now' q (Some h) t1 = (r, t1) /\
  forall q', q <> q' -> readMirror q' t1 = readMirror q' t.
Proof.
  intros Hs. unfold loadReviewState at 1.
  assert (forall t', readMirror q t' = Some h -> loadReviewState now' q (Some h) t' = (Some h, t')) as Hfix.
  { intros t' E. unfold loadReviewState. rewrite E. by rewrite bool_decide_eq_true_2. }
  destruct (lastReviewedSha h) as [|c sha] eqn:Eh; [done|].
  assert (readMirror q (upsertMirror now q (c :: sha) h t) = Some h) as Hup
    by (by rewrite readMirror_upsert, bool_decide_eq_true_2).
  assert (forall q', q <> q' -> readMirror q' (upsertMirror now q (c :: sha) h t) = readMirror q' t) as Hother
    by (intros q' ?; by rewrite readMirror_upsert, bool_decide_eq_false_2).
  destruct (readMirror q t) as [m|] eqn:Em; [case_bool_decide as Hr; cbn [negb]|].
  - split_and!; [exists m; by split_and!; auto| |done].
    unfold loadReviewState. by rewrite Em, bool_decide_eq_true_2.
  - split_and!; [exists h; by split_and!; auto|by apply Hfix|done].
  - split_and!; [exists h; by split_and!; auto|by apply Hfix|done].
Qed.

Definition demoState (at_ sha : str) : ReviewState :=
  {| lastReviewedSha := sha; baseSha := js "base"; reviewedAt := at_; modelUsed := js "m";
     totalTokens := 0; totalCostUsd := zero; commentFingerprints := [] |}.
Definition demoLookup : ReviewStateLookup := {| lk_installationId := 11; lk_prId := js "o/r#1" |}.

Lemma loadReviewState_converges_witness :
  let t := upsertMirror 0 demoLookup "old" (demoState "t0" "old") ∅ in
  let run := loadReviewState 5 demoLookup (Some (demoState "t1" "new")) t in
  readMirror demoLookup run.2 = Some (demoState "t1" "new") /\
  loadReviewState 9 demoLookup (Some (demoState "t1" "new")) run.2 = run.
Proof.
  intros t run.
  pose proof (loadReviewState_converges 5 9 demoLookup (demoState "t1" "new") t ltac:(discriminate)) as H.
  fold run in H. destruct run as [r t1] eqn:Er. destruct H as (_ & H & _).
  split; [|exact H]. assert (t1 = run.2) as -> by by rewrite Er. by vm_compute.
Defined.
