(* ===== verification/Incremental.v ===== *)
(** * Incremental reviews (core/src/incremental.ts)

    Whether the next review of a pull request may look only at what follows the last reviewed
    commit. [git] runs outside the program: [runGit] is a parameter that returns its output or
    throws. The two merge bases the source asks for concurrently are asked for one after the other
    here; neither call depends on the other. *)

From S2P Require Import Prelude JsNumber Errors Review Schema.

(** ** Errors of git *)

Inductive IncrementalGitFailureReason := auth | transient | permanent.

#[export] Instance reason_eq : EqDecision IncrementalGitFailureReason.
Proof. solve_decision. Defined.

Record IncrementalGitFailure := {
  gf_reason : IncrementalGitFailureReason;
  gf_args : list str;
  gf_message : str;
  gf_retried : bool;
}.

(** A word character, for [\b]. *)
Definition wordBefore (prev : option ascii) : bool := match prev with Some c => is_word c | None => false end.
Definition wordAfter (s : str) : bool := match s with c :: _ => is_word c | [] => false end.

(** Some position of [s] satisfies [f], which sees the character before it. *)
Fixpoint somewhere (f : option ascii -> str -> bool) (prev : option ascii) (s : str) : bool :=
  f prev s || match s with [] => false | c :: s' => somewhere f (Some c) s' end.

(** [/\bp\b/i] at a position, for [p] between word characters. *)
Definition wordAt (p : str) (prev : option ascii) (s : str) : bool :=
  negb (wordBefore prev) && startsWithI s p && negb (wordAfter (drop (length p) s)).

(** [/\bhttp\/[\d.]+\s+40[13]\b/i] at a position. *)
Definition httpAt (prev : option ascii) (s : str) : bool :=
  negb (wordBefore prev) && startsWithI s "http/" &&
  let t := drop 5 s in
  let version := takeWhile (fun c => is_digit c || eqc c ".") t in
  let u := drop (length version) t in
  let blanks := takeWhile is_ws u in
  let v := drop (length blanks) u in
  bool_decide (version <> []) && bool_decide (blanks <> []) &&
  (startsWith v "401" || startsWith v "403") && negb (wordAfter (drop 3 v)).

Definition isAuthError (message : str) : bool :=
  existsb (includesI message)
    [js "permission denied"; js "authentication failed"; js "could not read from remote";
     js "unable to access"; js "host key verification failed"; js "could not read username"]
  || somewhere httpAt None message.

Definition isTransientError (message : str) : bool :=
  existsb (includesI message)
    [js "timed out"; js "could not resolve host"; js "temporary failure";
     js "network is unreachable"; js "connection reset"; js "connection refused"]
  || existsb (fun p => somewhere (wordAt p) None message)
       [js "timeout"; js "bad gateway"; js "service unavailable"; js "gateway timeout"]
  || includes message "failed (null):".

Definition classifyGitError (message : str) : IncrementalGitFailureReason :=
  if isAuthError message then auth
  else if isTransientError message then transient
  else permanent.

(** ** The strategy *)

Inductive DiffStrategy := Full | Since (sha : str).

Record PrHeads := { cur_baseSha : str; cur_headSha : str }.

Definition TRANSIENT_RETRY_BACKOFF_MS : Z := 250.

Section strategy.
Context {X : Type} (messageOf : thrown -> str).

Record ComputeDiffStrategyDeps := {
  runGit : list str -> eff X thrown str;
  onGitFailure : option (IncrementalGitFailure -> eff X thrown unit);
  delayMs : Z -> eff X thrown unit;
}.

Context (deps : ComputeDiffStrategyDeps).

Definition reportFailure (args : list str) (message : str) (retried : bool) : eff X thrown (option str) :=
  callOpt (onGitFailure deps)
    {| gf_reason := classifyGitError message; gf_args := args; gf_message := message;
       gf_retried := retried |};;
  mret None.

Definition mergeBase (a b : str) : eff X thrown (option str) :=
  let args := [js "merge-base"; a; b] in
  tryRun ← tryCatch (out ← runGit deps args; mret (inl out)) (fun err => mret (inr err));
  match tryRun : str + thrown with
  | inl out => mret (Some out)
  | inr err =>
      let message := messageOf err in
      if decide (classifyGitError message = transient) then
        delayMs deps TRANSIENT_RETRY_BACKOFF_MS;;
        again ← tryCatch (out ← runGit deps args; mret (inl out)) (fun err => mret (inr err));
        match again : str + thrown with
        | inl out => mret (Some out)
        | inr err2 => reportFailure args (messageOf err2) true
        end
      else reportFailure args message false
  end.

Definition computeDiffStrategy (prevState : option ReviewState) (current : PrHeads)
    : eff X thrown DiffStrategy :=
  match prevState with
  | None => mret Full
  | Some prev =>
      match lastReviewedSha prev, baseSha prev with
      | (_ :: _) as previousHead, (_ :: _) as previousBase =>
          prevMb ← mergeBase previousBase previousHead;
          currMb ← mergeBase (cur_baseSha current) (cur_headSha current);
          match truthyStr prevMb, truthyStr currMb with
          | Some p, Some c =>
              if bool_decide (p = c) then
                reachable ← mergeBase previousHead (cur_headSha current);
                mret (if bool_decide (reachable = Some previousHead) then Since previousHead else Full)
              else mret Full
          | _, _ => mret Full
          end
      | _, _ => mret Full
      end
  end.
End strategy.
Arguments ComputeDiffStrategyDeps : clear implicits.

Example classify_1 : map classifyGitError
  [js "git merge-base a b failed (128): fatal: unable to access 'https://x': HTTP/1.1 401";
   js "read timeout"; js "git merge-base a b failed (null): "; js "fatal: Not a valid object name";
   js "http/2 403"; js "xhttp/2 403 timeouts"]
  = [auth; transient; transient; permanent; auth; permanent].
Proof. reflexivity. Qed.

(** ** What the strategy guarantees *)

Section guarantees.
Context {X : Type} (messageOf : thrown -> str) (deps : ComputeDiffStrategyDeps X).
Notation mergeBase := (mergeBase messageOf deps).

(** [git merge-base a b] prints a common ancestor of the two commits, or fails. *)
Definition printsCommonAncestors (anc : str -> str -> Prop) : Prop :=
  forall a b x out x', runGit deps [js "merge-base"; a; b] x = (Ok out, x') -> anc out a /\ anc out b.

(** What a successful [mergeBase] returns, some call of git printed. *)
Lemma mergeBase_Some a b x s x' :
  mergeBase a b x = (Ok (Some s), x') ->
  exists y y', runGit deps [js "merge-base"; a; b] y = (Ok s, y').
Proof.
  unfold Incremental.mergeBase, reportFailure. intros H.
  apply bind_Ok in H as (r & x1 & H1 & H2).
  unfold tryCatch, mbind, eff_bind in H1.
  destruct (runGit deps _ x) as [[out|err] x0] eqn:E; unfold mret, eff_ret in H1; simplify_eq.
  { unfold mret, eff_ret in H2. simplify_eq. eauto. }
  destruct (decide _); [|apply bind_Ok in H2 as (? & ? & _ & [=])].
  apply bind_Ok in H2 as (? & x2 & _ & H2). apply bind_Ok in H2 as (r & x3 & H3 & H4).
  unfold tryCatch, mbind, eff_bind in H3.
  destruct (runGit deps _ x2) as [[out|err2] x4] eqn:E2; unfold mret, eff_ret in H3; simplify_eq.
  - unfold mret, eff_ret in H4. simplify_eq. eauto.
  - apply bind_Ok in H4 as (? & ? & _ & [=]).
Qed.

(** An incremental review is chosen only where the last reviewed commit is still part of the pull
    request: it is an ancestor of the new head, so that nothing reviewed has been rewritten, and
    the old and the new base meet the branch in the same commit. After a force-push, a rebase, or
    any failure of git, the whole pull request is reviewed. *)
Theorem since_is_an_ancestor anc prevState current x sha x' :
  printsCommonAncestors anc ->
  computeDiffStrategy messageOf deps prevState current x = (Ok (Since sha), x') ->
  exists prev fork, prevState = Some prev /\ sha = lastReviewedSha prev /\ sha <> [] /\
    anc sha (cur_headSha current) /\
    anc fork (baseSha prev) /\ anc fork sha /\ anc fork (cur_baseSha current) /\ anc fork (cur_headSha current).
Proof.
  intros Hg. unfold computeDiffStrategy. destruct prevState as [prev|]; [|done].
  destruct (lastReviewedSha prev) as [|h hs] eqn:Eh; [done|].
  destruct (baseSha prev) as [|b bs] eqn:Eb; [done|]. intros H.
  apply bind_Ok in H as (prevMb & x1 & H1 & H). apply bind_Ok in H as (currMb & x2 & H2 & H).
  destruct (truthyStr prevMb) as [p|] eqn:Ep; [|done].
  destruct (truthyStr currMb) as [c|] eqn:Ec; [|done].
  apply truthyStr_Some in Ep as [-> _], Ec as [-> _].
  case_bool_decide as Epc; [subst c|done].
  apply bind_Ok in H as (reachable & x3 & H3 & H).
  unfold mret, eff_ret in H. case_bool_decide as Er; [|done]. injection H as <- _. subst reachable.
  apply mergeBase_Some in H1 as (? & ? & H1%Hg), H2 as (? & ? & H2%Hg), H3 as (? & ? & H3%Hg).
  exists prev, p. rewrite Eh, Eb. by destruct H1, H2, H3.
Qed.

(** *** Calls of git *)

Context (calls : X -> nat).

(** [m] returns, after at most [n] calls of git. *)
Definition returnsWithin {A} (n : nat) (m : eff X thrown A) : Prop :=
  forall x, is_ok (m x).1 = true /\ calls (m x).2 <= calls x + n.

Lemma returnsWithin_ret {A} n (a : A) : returnsWithin n (mret a).
Proof. intros x. split; [done|]. cbn. lia. Qed.

Lemma returnsWithin_bind {A B} n k (m : eff X thrown A) (f : A -> eff X thrown B) :
  returnsWithin n m -> (forall a, returnsWithin k (f a)) -> returnsWithin (n + k) (m ≫= f).
Proof.
  intros Hm Hf x. unfold mbind, eff_bind. destruct (Hm x) as [Ho Hc].
  destruct (m x) as [[a|e] x1]; [|done]. cbn in Hc. destruct (Hf a x1) as [Ho2 Hc2]. split; [done|lia].
Qed.

(** The injected functions: git is called once by [runGit] and by nothing else; the callback and
    the delay return. *)
Record GitContract : Prop := {
  gc_run : forall args x, calls (runGit deps args x).2 = S (calls x);
  gc_delay : forall ms, returnsWithin 0 (delayMs deps ms);
  gc_report : forall f, returnsWithin 0 (callOpt (onGitFailure deps) f);
}.
Context (HG : GitContract).

Lemma returnsWithin_try args :
  returnsWithin 1 (tryCatch (out ← runGit deps args; mret (inl out)) (fun err => mret (inr (A := str) err))).
Proof.
  intros x. unfold tryCatch, mbind, eff_bind. pose proof (gc_run HG args x) as Hr.
  destruct (runGit deps args x) as [[out|e] x1]; cbn in *; (split; [done|lia]).
Qed.

Lemma returnsWithin_mergeBase a b : returnsWithin 2 (mergeBase a b).
Proof.
  assert (forall args msg retried, returnsWithin 0 (reportFailure deps args msg retried)) as Hrep.
  { intros args msg retried. apply (returnsWithin_bind 0 0); [apply (gc_report HG)|].
    intros []. apply returnsWithin_ret. }
  unfold Incremental.mergeBase. apply (returnsWithin_bind 1 1); [apply returnsWithin_try|].
  intros [out|err]; [apply returnsWithin_ret|].
  destruct (decide _); [|intros x; destruct (Hrep [js "merge-base"; a; b] (messageOf err) false x); split; [done|lia]].
  apply (returnsWithin_bind 0 1); [apply (gc_delay HG)|]. intros [].
  apply (returnsWithin_bind 1 0); [apply returnsWithin_try|].
  intros [out|err2]; [apply returnsWithin_ret|apply Hrep].
Qed.

(** The strategy is always found: whatever git answers or fails with, the function returns, with
    at most two calls of git for each of the three questions it asks. *)
Theorem strategy_always_returns prevState current :
  returnsWithin 6 (computeDiffStrategy messageOf deps prevState current).
Proof.
  unfold computeDiffStrategy. destruct prevState as [prev|]; [|apply returnsWithin_ret].
  destruct (lastReviewedSha prev); [apply returnsWithin_ret|].
  destruct (baseSha prev); [apply returnsWithin_ret|].
  apply (returnsWithin_bind 2 4); [apply returnsWithin_mergeBase|]. intros prevMb.
  apply (returnsWithin_bind 2 2); [apply returnsWithin_mergeBase|]. intros currMb.
  destruct (truthyStr prevMb), (truthyStr currMb); try apply returnsWithin_ret.
  case_bool_decide; [|apply returnsWithin_ret].
  apply (returnsWithin_bind 2 0); [apply returnsWithin_mergeBase|]. intros r. apply returnsWithin_ret.
Qed.
End guarantees.

(** ** A linear history *)

(** Commits c1 to c3 in a row; the first call of git times out. *)
Definition demoAnc (a b : str) : Prop := (a, b) ∈ [(js "c1", js "c1"); (js "c1", js "c2"); (js "c1", js "c3");
  (js "c2", js "c2"); (js "c2", js "c3"); (js "c3", js "c3")].
Definition demoGit : ComputeDiffStrategyDeps nat :=
  {| runGit args n :=
       (if decide (n = 0) then Throw (StringValue "git merge-base c1 c2 failed (null): ")
        else if bool_decide (args = [js "merge-base"; js "c1"; js "c2"]) then Ok (js "c1")
        else if bool_decide (args = [js "merge-base"; js "c1"; js "c3"]) then Ok (js "c1")
        else if bool_decide (args = [js "merge-base"; js "c2"; js "c3"]) then Ok (js "c2")
        else Throw (StringValue "fatal: bad object"), S n);
     onGitFailure := None; delayMs _ := mret tt |}.
Definition demoPrev : ReviewState :=
  {| lastReviewedSha := js "c2"; baseSha := js "c1"; reviewedAt := js "t"; modelUsed := js "m";
     totalTokens := 0; totalCostUsd := zero; commentFingerprints := [] |}.
Definition demoHeads : PrHeads := {| cur_baseSha := js "c1"; cur_headSha := js "c3" |}.
Definition demoMessageOf : thrown -> str := extractMessage (fun _ => []).

Lemma since_is_an_ancestor_witness :
  computeDiffStrategy demoMessageOf demoGit (Some demoPrev) demoHeads 0 = (Ok (Since "c2"), 4) /\
  demoAnc "c2" "c3".
Proof.
  assert (computeDiffStrategy demoMessageOf demoGit (Some demoPrev) demoHeads 0 = (Ok (Since "c2"), 4)) as E
    by (vm_compute; reflexivity).
  split; [exact E|].
  destruct (since_is_an_ancestor demoMessageOf demoGit demoAnc (Some demoPrev) demoHeads 0 "c2" 4)
    as (prev & fork & _ & _ & _ & H & _); [|exact E|exact H].
  intros a b x out x'. cbn. destruct (decide (x = 0)); [discriminate|]. unfold demoAnc.
  repeat (let Ha := fresh in case_bool_decide as Ha; [injection Ha as -> ->; intros [= <- _];
    split; apply (bool_decide_eq_true_1 (_ ∈ _)); vm_compute; reflexivity|]). discriminate.
Defined.

Lemma strategy_always_returns_witness :
  returnsWithin (fun n => n) 6 (computeDiffStrategy demoMessageOf demoGit (Some demoPrev) demoHeads).
Proof.
  apply strategy_always_returns. split; [reflexivity|intros ms x; cbn; split; [reflexivity|lia]|].
  intros f x. cbn. split; [reflexivity|lia].
Defined.
