(* ===== verification/StateComment.v ===== *)
(** * The hidden state comment (platform-github/src/state-comment.ts, platform-github/src/adapter.ts)

    The review state travels in an HTML comment of a pull request's thread: its text, its parser,
    and the adapter's operations that find, read and replace it. The thread is the list of the
    pull request's issue comments, oldest first, whoever wrote them. *)

From S2P Require Import Prelude JsNumber.
From S2P Require Json.
From S2P Require Import JsonTree Errors Review Schema.

Definition MARKER_OPEN : str := "<!-- review-agent-state:".
Definition MARKER_CLOSE : str := "-->".

Section codec.
(** [String(n)] on doubles, [JSON.parse], and zod's date test. *)
Context (showNumber : number -> str) (parseJSON : str -> option json) (isDatetime : str -> bool).

(** ** Writing *)

Definition jsonText (key text : str) : str := Json.jsonQuote key ++ ":" ++ text.

(** [JSON.stringify] on a state, in the order of its keys. *)
Definition stringifyState (st : ReviewState) : str :=
  "{" ++ join ","
    [jsonText "schemaVersion" (showZ REVIEW_STATE_SCHEMA_VERSION);
     jsonText "lastReviewedSha" (Json.jsonQuote (lastReviewedSha st));
     jsonText "baseSha" (Json.jsonQuote (baseSha st));
     jsonText "reviewedAt" (Json.jsonQuote (reviewedAt st));
     jsonText "modelUsed" (Json.jsonQuote (modelUsed st));
     jsonText "totalTokens" (showZ (totalTokens st));
     jsonText "totalCostUsd" (showNumber (totalCostUsd st));
     jsonText "commentFingerprints" ("[" ++ join "," (map Json.jsonQuote (commentFingerprints st)) ++ "]")]
  ++ "}".

Definition formatStateComment (st : ReviewState) : str :=
  MARKER_OPEN ++ " " ++ stringifyState st ++ " " ++ MARKER_CLOSE.

Definition buildSummaryWithState (humanReadable : str) (st : ReviewState) : str :=
  trimEnd humanReadable ++ nl ++ nl ++ formatStateComment st ++ nl.

(** ** Reading *)

(** [MARKER_REGEX] at the head of a text: the captured group. *)
Definition stateMarkerAt (s : str) : option str :=
  if startsWith s "<!--" then
    let t := trimStart (drop 4 s) in
    if startsWith t "review-agent-state:" then
      let u := trimStart (drop 19 t) in
      match indexOf u MARKER_CLOSE with
      | Some i => Some (trimEnd (take i u))
      | None => None
      end
    else None
  else None.

(** [MARKER_REGEX.exec(body)]: the first match. *)
Fixpoint stateJson (s : str) : option str :=
  match stateMarkerAt s with
  | Some group => Some group
  | None => match s with [] => None | _ :: s' => stateJson s' end
  end.

Inductive StateParseEvent :=
  | SchemaMismatch (found : json)
  | ValidationFailure
  | JsonParseFailure.

Definition stringArray (v : json) : option (list str) :=
  match v with
  | JArr l => mapM (fun x => match x with JStr s => Some s | _ => None end) l
  | _ => None
  end.

Definition STATE_KEYS : list str :=
  [js "schemaVersion"; js "lastReviewedSha"; js "baseSha"; js "reviewedAt"; js "modelUsed";
   js "totalTokens"; js "totalCostUsd"; js "commentFingerprints"].

(** The shape [ReviewStateSchema] asks for, without unknown keys: the version and the state. *)
Definition stateOfJson (v : json) : option (Z * ReviewState) :=
  match v with
  | JObj fields =>
      if forallb (fun f => bool_decide (f.1 ∈ STATE_KEYS)) fields then
        version ← (n ← member "schemaVersion" v; match n with JNum x => integerOf x | _ => None end);
        last ← stringMember "lastReviewedSha" v;
        base ← stringMember "baseSha" v;
        at_ ← stringMember "reviewedAt" v;
        model ← stringMember "modelUsed" v;
        tokens ← (n ← member "totalTokens" v; match n with JNum x => integerOf x | _ => None end);
        cost ← (n ← member "totalCostUsd" v; match n with JNum x => Some x | _ => None end);
        fps ← (l ← member "commentFingerprints" v; stringArray l);
        Some (version, {| lastReviewedSha := last; baseSha := base; reviewedAt := at_;
                          modelUsed := model; totalTokens := tokens; totalCostUsd := cost;
                          commentFingerprints := fps |})
      else None
  | _ => None
  end.

(** [parseStateComment]: the state, and the event it emits. *)
Definition parseStateComment (body : str) : option ReviewState * option StateParseEvent :=
  match truthyStr (stateJson body) with
  | None => (None, None)
  | Some text =>
      match parseJSON text with
      | None => (None, Some JsonParseFailure)
      | Some parsed =>
          match member "schemaVersion" parsed with
          | Some found =>
              if match found with
                 | JNum x => bool_decide (integerOf x = Some REVIEW_STATE_SCHEMA_VERSION)
                 | _ => false
                 end
              then
                match stateOfJson parsed with
                | Some (version, st) =>
                    if ReviewStateSchema isDatetime version st then (Some st, None)
                    else (None, Some ValidationFailure)
                | None => (None, Some ValidationFailure)
                end
              else (None, Some (SchemaMismatch found))
          | None => (None, Some ValidationFailure)
          end
      end
  end.

(** ** The adapter *)

Record IssueComment := { ic_id : Z; ic_author : str; ic_body : option str }.

(** The last comment that holds the marker. *)
Definition findStateComment (thread : list IssueComment) : option (Z * str) :=
  match last (List.filter (fun c => match ic_body c with
                                    | Some b => includes b MARKER_OPEN
                                    | None => false
                                    end) thread) with
  | Some c => b ← ic_body c; Some (ic_id c, b)
  | None => None
  end.

Definition getStateComment (thread : list IssueComment) : option ReviewState :=
  match findStateComment thread with
  | None => None
  | Some (_, body) => (parseStateComment body).1
  end.

(** [upsertStateComment]; a new comment gets an unused identifier and the bot's name. *)
Definition upsertStateComment (bot : str) (newId : Z) (st : ReviewState) (thread : list IssueComment)
    : list IssueComment :=
  let body := formatStateComment st ++ nl in
  match findStateComment thread with
  | Some (id, _) =>
      map (fun c => if (ic_id c =? id)%Z
                    then {| ic_id := ic_id c; ic_author := ic_author c; ic_body := Some body |}
                    else c) thread
  | None => thread ++ [{| ic_id := newId; ic_author := bot; ic_body := Some body |}]
  end.
End codec.

(** ** Round trips *)

Lemma jsonQuote_free (c : ascii) s :
  all_ascii (fun d => eqc d c || negb (bool_decide (c ∈ Json.jsonEscape d))) = true ->
  c <> Json.quoteChar -> c ∉ s -> c ∉ Json.jsonQuote s.
Proof.
  intros Hall Hq Hs. unfold Json.jsonQuote. rewrite not_elem_of_cons. split; [done|].
  rewrite elem_of_app, list_elem_of_singleton. intros [H|H]; [|done].
  induction s as [|d s IH]; cbn [flat_map] in H; [by apply elem_of_nil in H|].
  apply not_elem_of_cons in Hs as [Hd Hs]. apply elem_of_app in H as [H|H]; [|by apply IH].
  apply (all_ascii_spec _ d) in Hall. cbv beta in Hall.
  apply orb_true_iff in Hall as [Hall|Hall]; [apply eqc_true in Hall; congruence|].
  by rewrite bool_decide_eq_true_2 in Hall.
Qed.

Lemma not_elem_of_join (c : ascii) sep l :
  c ∉ sep -> Forall (fun x => c ∉ x) l -> c ∉ join sep l.
Proof.
  intros Hs H. induction H as [|x l Hx H IH]; [apply not_elem_of_nil|].
  destruct l as [|y l]; [done|]. rewrite join_cons by done. rewrite !elem_of_app. tauto.
Qed.

Lemma indexOf_close a b : ">"%char ∉ a -> indexOf (a ++ MARKER_CLOSE ++ b) MARKER_CLOSE = Some (length a).
Proof.
  induction a as [|c a IH]; intros H; [done|].
  apply not_elem_of_cons in H as [Hc Ha].
  assert (startsWith ((c :: a) ++ MARKER_CLOSE ++ b) MARKER_CLOSE = false) as Hs.
  { apply not_true_iff_false. intros [t Ht]%startsWith_spec.
    destruct a as [|x [|y a]]; cbn in Ht; simplify_eq. apply Ha. set_solver. }
  cbn [indexOf app] in *. rewrite Hs, IH by done. done.
Qed.

Section roundtrip.
Context (showNumber : number -> str) (parseJSON : str -> option json) (isDatetime : str -> bool).
Notation stringify := (stringifyState showNumber).
Notation format := (formatStateComment showNumber).
Notation parse := (parseStateComment parseJSON isDatetime).

(** No text of the state can end the HTML comment. *)
Record printable (st : ReviewState) : Prop := {
  pr_last : ">"%char ∉ lastReviewedSha st;
  pr_base : ">"%char ∉ baseSha st;
  pr_at : ">"%char ∉ reviewedAt st;
  pr_model : ">"%char ∉ modelUsed st;
  pr_cost : ">"%char ∉ showNumber (totalCostUsd st);
  pr_fps : Forall (fun f => ">"%char ∉ f) (commentFingerprints st);
}.

Lemma stringify_free st : printable st -> ">"%char ∉ stringify st.
Proof.
  assert (forall s, ">"%char ∉ s -> ">"%char ∉ Json.jsonQuote s) as Hq.
  { intros s. apply jsonQuote_free; [vm_compute; reflexivity|done]. }
  intros []. unfold stringifyState. rewrite !elem_of_app.
  assert (forall key text, ">"%char ∉ key -> ">"%char ∉ text -> ">"%char ∉ jsonText key text) as Hf.
  { intros key text Hk Ht. unfold jsonText. rewrite !elem_of_app. intros [H|[H|H]]; try done.
    - by apply Hq in H.
    - revert H. not_in. }
  intros [H|[H|H]]; [revert H; not_in| |revert H; not_in]. revert H.
  apply not_elem_of_join; [not_in|].
  repeat (apply Forall_cons; split; [apply Hf; [not_in|]|]); try apply Forall_nil_2; auto.
  - by apply showZ_free.
  - by apply showZ_free.
  - rewrite !elem_of_app. intros [H|[H|H]]; [revert H; not_in| |revert H; not_in]. revert H.
    apply not_elem_of_join; [not_in|]. apply Forall_map.
    eapply Forall_impl; [eassumption|]. intros f Hfp. by apply Hq.
Qed.

(** The regular expression captures exactly the JSON text. *)
Lemma markerAt_format st post : printable st -> stateMarkerAt (format st ++ post) = Some (stringify st).
Proof.
  intros Hp%stringify_free. unfold stateMarkerAt, formatStateComment.
  remember (stringify st) as text eqn:Et. assert (exists u, text = "{"%char :: u ++ ["}"%char]) as [u Hu].
  { eexists. rewrite Et. unfold stringifyState. reflexivity. }
  rewrite <- !app_assoc. unfold MARKER_OPEN at 1 2.
  change (startsWith _ (js "<!--")) with true. cbv iota.
  change (drop 4 _) with (js " review-agent-state:" ++ " " ++ text ++ " " ++ MARKER_CLOSE ++ post).
  change (trimStart _) with (js "review-agent-state:" ++ " " ++ text ++ " " ++ MARKER_CLOSE ++ post) at 1.
  cbv zeta. rewrite startsWith_app.
  change (trimStart (js " review-agent-state:" ++ " " ++ text ++ " " ++ MARKER_CLOSE ++ post))
    with (js "review-agent-state:" ++ " " ++ text ++ " " ++ MARKER_CLOSE ++ post).
  rewrite (drop_app_length' (js "review-agent-state:")) by done.
  assert (trimStart (js " " ++ text ++ " " ++ MARKER_CLOSE ++ post) = (text ++ js " ") ++ MARKER_CLOSE ++ post) as ->.
  { rewrite Hu, <- app_assoc. reflexivity. }
  rewrite indexOf_close by (rewrite elem_of_app; intros [H|H]; [done|revert H; not_in]).
  rewrite take_app_length. f_equal. rewrite Hu. unfold trimEnd.
  rewrite !rev_app_distr. cbn [rev app]. rewrite !rev_app_distr. cbn.
  change (is_ws " ") with true. change (is_ws "}") with false. cbv iota. cbn [rev].
  by rewrite rev_app_distr, rev_involutive.
Qed.

(** *** The state read back *)

(** The JSON value of a state. *)
Definition jsonOfState (st : ReviewState) : json :=
  JObj [(js "schemaVersion", JNum (num_of_Z REVIEW_STATE_SCHEMA_VERSION));
        (js "lastReviewedSha", JStr (lastReviewedSha st)); (js "baseSha", JStr (baseSha st));
        (js "reviewedAt", JStr (reviewedAt st)); (js "modelUsed", JStr (modelUsed st));
        (js "totalTokens", JNum (num_of_Z (totalTokens st)));
        (js "totalCostUsd", JNum (totalCostUsd st));
        (js "commentFingerprints", JArr (map JStr (commentFingerprints st)))].

(** A state the schema accepts, printable, whose token count a double holds exactly, and which
    [JSON.parse] reads back from its own text. *)
Record storable (st : ReviewState) : Prop := {
  so_valid : ReviewStateSchema isDatetime REVIEW_STATE_SCHEMA_VERSION st = true;
  so_printable : printable st;
  so_exact : integerOf (num_of_Z (totalTokens st)) = Some (totalTokens st);
  so_json : parseJSON (stringify st) = Some (jsonOfState st);
}.

Lemma stringArray_map l : stringArray (JArr (map JStr l)) = Some l.
Proof.
  cbn [stringArray]. induction l as [|x l IH]; [done|]. cbn. by rewrite IH.
Qed.

Lemma stateOfJson_jsonOfState st :
  integerOf (num_of_Z (totalTokens st)) = Some (totalTokens st) ->
  stateOfJson (jsonOfState st) = Some (REVIEW_STATE_SCHEMA_VERSION, st).
Proof.
  intros H. unfold stateOfJson. set (v := jsonOfState st).
  assert (member "schemaVersion" v = Some (JNum (num_of_Z REVIEW_STATE_SCHEMA_VERSION))) as E1 by reflexivity.
  assert (stringMember "lastReviewedSha" v = Some (lastReviewedSha st)) as E2 by reflexivity.
  assert (stringMember "baseSha" v = Some (baseSha st)) as E3 by reflexivity.
  assert (stringMember "reviewedAt" v = Some (reviewedAt st)) as E4 by reflexivity.
  assert (stringMember "modelUsed" v = Some (modelUsed st)) as E5 by reflexivity.
  assert (member "totalTokens" v = Some (JNum (num_of_Z (totalTokens st)))) as E6 by reflexivity.
  assert (member "totalCostUsd" v = Some (JNum (totalCostUsd st))) as E7 by reflexivity.
  assert (member "commentFingerprints" v = Some (JArr (map JStr (commentFingerprints st)))) as E8 by reflexivity.
  assert (integerOf (num_of_Z REVIEW_STATE_SCHEMA_VERSION) = Some REVIEW_STATE_SCHEMA_VERSION) as E9
    by (vm_compute; reflexivity).
  assert (forallb (fun f : str * json => bool_decide (f.1 ∈ STATE_KEYS))
    (match v with JObj fields => fields | _ => [] end) = true) as E10.
  { unfold v, jsonOfState. cbn [forallb fst]. rewrite !bool_decide_eq_true_2; [done|..];
      apply (bool_decide_eq_true_1 (_ ∈ STATE_KEYS)); vm_compute; reflexivity. }
  change v with (JObj (match v with JObj fields => fields | _ => [] end)) at 1. cbv iota.
  rewrite E10, E1, E2, E3, E4, E5, E6, E7, E8. unfold mbind, option_bind.
  rewrite E9, H, stringArray_map. by destruct st.
Qed.

Lemma parse_found body st :
  stateJson body = Some (stringify st) -> storable st -> parse body = (Some st, None).
Proof.
  intros Hb [Hv _ He Hj]. unfold parseStateComment. rewrite Hb.
  change (truthyStr (Some (stringify st))) with (Some (stringify st)). cbv iota beta. rewrite Hj.
  change (member "schemaVersion" (jsonOfState st)) with (Some (JNum (num_of_Z REVIEW_STATE_SCHEMA_VERSION))).
  cbv iota beta. rewrite bool_decide_eq_true_2 by (vm_compute; reflexivity).
  rewrite stateOfJson_jsonOfState by done. by rewrite Hv.
Qed.

Lemma stateJson_format st post : printable st -> stateJson (format st ++ post) = Some (stringify st).
Proof.
  intros H. pose proof (markerAt_format st post H) as E.
  destruct (format st ++ post) as [|c s]; cbn [stateJson]; by rewrite E.
Qed.

(** A comment cannot start inside a text without the opening, whatever stands after it. *)
Lemma stateJson_skip pre rest :
  includes pre "<!--" = false -> stateJson (pre ++ "<"%char :: rest) = stateJson ("<"%char :: rest).
Proof.
  induction pre as [|c pre IH]; intros H; [done|].
  cbn [includes] in H. apply orb_false_iff in H as [Hs Hi].
  assert (stateMarkerAt ((c :: pre) ++ "<"%char :: rest) = None) as E.
  { unfold stateMarkerAt. destruct (startsWith ((c :: pre) ++ "<"%char :: rest) "<!--") eqn:Hm; [|reflexivity]. exfalso.
    apply startsWith_spec in Hm as [t Ht].
    destruct pre as [|x [|y [|z pre]]]; cbn in Ht; simplify_eq. }
  cbn [stateJson app] in *. rewrite E. by apply IH.
Qed.

Lemma format_head st : exists rest, format st = "<"%char :: rest.
Proof. by eexists. Qed.

(** A summary that opens no HTML comment of its own: the state posted with it is read back. *)
Lemma summary_state_roundtrip human st :
  includes human "<!--" = false -> storable st ->
  parse (buildSummaryWithState showNumber human st) = (Some st, None).
Proof.
  intros Hh Hs. apply parse_found; [|done]. unfold buildSummaryWithState.
  pose proof (stateJson_format st nl (so_printable st Hs)) as E.
  destruct (format_head st) as [rest Er]. rewrite Er in E |- *. rewrite !app_assoc.
  rewrite <- (app_assoc _ ("<"%char :: rest)). cbn [app] in E |- *. rewrite stateJson_skip; [done|].
  apply not_true_iff_false. intros Hin. unfold nl in Hin. rewrite <- app_assoc in Hin. cbn [app] in Hin.
  apply (includes_mid newline) in Hin as [Hin|Hin]; [|by vm_compute in Hin|not_in|done].
  destruct (trimEnd_prefix human) as (w & Hw & _). rewrite Hw in Hh.
  by rewrite includes_app_l in Hh.
Qed.

(** A summary that carries a state comment of its own is believed: the program posts the summary
    the model wrote before its own state, and reads the first state of the text. *)
Theorem forged_summary_state_wins human pre forged post st :
  trimEnd human = pre ++ format forged ++ post -> includes pre "<!--" = false -> storable forged ->
  parse (buildSummaryWithState showNumber human st) = (Some forged, None).
Proof.
  intros Hh Hp Hs. apply parse_found; [|done]. unfold buildSummaryWithState. rewrite Hh.
  pose proof (stateJson_format forged (post ++ nl ++ nl ++ format st ++ nl) (so_printable forged Hs)) as E.
  rewrite <- !app_assoc. destruct (format_head forged) as [rest Er]. rewrite Er in E |- *.
  cbn [app] in E |- *. by rewrite stateJson_skip.
Qed.

(** *** The adapter *)

Definition marked (c : IssueComment) : bool :=
  match ic_body c with Some b => includes b MARKER_OPEN | None => false end.

Lemma last_filter {A} (P : A -> bool) l c :
  last (List.filter P l) = Some c ->
  exists l1 l2, l = l1 ++ c :: l2 /\ P c = true /\ List.filter P l2 = [].
Proof.
  induction l as [|x l IH] using rev_ind; [done|]. rewrite List.filter_app. cbn.
  destruct (P x) eqn:Ex.
  - rewrite last_snoc. intros [= ->]. by exists l, [].
  - rewrite app_nil_r. intros (l1 & l2 & -> & Hc & Hl)%IH. exists l1, (l2 ++ [x]).
    split; [by rewrite <- app_assoc|]. split; [done|]. rewrite List.filter_app, Hl. cbn. by rewrite Ex.
Qed.

Lemma find_last l1 l2 c b :
  ic_body c = Some b -> includes b MARKER_OPEN = true -> List.filter marked l2 = [] ->
  findStateComment (l1 ++ c :: l2) = Some (ic_id c, b).
Proof.
  intros Hb Hi Hl. unfold findStateComment. change (fun c => _) with marked at 1.
  rewrite List.filter_app. cbn [List.filter]. assert (marked c = true) as -> by (unfold marked; by rewrite Hb).
  rewrite Hl, last_snoc. cbn. by rewrite Hb.
Qed.

Lemma format_marked st post : includes (format st ++ post) MARKER_OPEN = true.
Proof. unfold formatStateComment. rewrite <- app_assoc. apply includes_app_l, includes_refl. Qed.

Lemma get_format l1 l2 c st post :
  ic_body c = Some (format st ++ post) -> List.filter marked l2 = [] -> storable st ->
  getStateComment parseJSON isDatetime (l1 ++ c :: l2) = Some st.
Proof.
  intros Hb Hl Hs. unfold getStateComment.
  rewrite (find_last l1 l2 c (format st ++ post)) by (done || apply format_marked).
  cbv iota beta. rewrite (parse_found _ st); [done|apply stateJson_format, Hs|done].
Qed.

(** What is stored is read back: after [upsertStateComment], [getStateComment] returns the state,
    whatever other comments the thread holds and whoever wrote them. *)
Theorem state_comment_roundtrip bot newId st thread :
  NoDup (map ic_id thread) -> storable st ->
  getStateComment parseJSON isDatetime (upsertStateComment showNumber bot newId st thread) = Some st.
Proof.
  intros Hn Hs. unfold upsertStateComment, findStateComment. change (fun c => _) with marked at 1.
  destruct (last (List.filter marked thread)) as [c|] eqn:El; [|by eapply get_format].
  apply last_filter in El as (l1 & l2 & -> & Hc & Hl). unfold marked in Hc.
  destruct (ic_body c) as [b|] eqn:Eb; [|done]. cbn.
  rewrite map_app. cbn [map]. rewrite Z.eqb_refl.
  assert (forall l, ic_id c ∉ map ic_id l -> map (fun x => if (ic_id x =? ic_id c)%Z then
    {| ic_id := ic_id x; ic_author := ic_author x; ic_body := Some (format st ++ nl) |} else x) l = l) as Hid.
  { clear. intros l. induction l as [|x l IH]; [done|]. cbn [map]. rewrite not_elem_of_cons.
    intros [Hx Hl]. rewrite IH by done. apply not_eq_sym, Z.eqb_neq in Hx. by rewrite Hx. }
  rewrite map_app, NoDup_app in Hn. destruct Hn as (_ & Hd & Hn). cbn [map] in Hn. inv Hn.
  rewrite !Hid; [by eapply get_format|done|].
  intros Hin. apply (Hd _ Hin). by left.
Qed.

(** Nobody checks who wrote the comment: a state in the newest marked comment, by any author, is
    the state the next review starts from. *)
Theorem anyone_writes_the_state thread author id st post :
  storable st ->
  getStateComment parseJSON isDatetime
    (thread ++ [{| ic_id := id; ic_author := author; ic_body := Some (format st ++ post) |}]) = Some st.
Proof. intros Hs. by eapply get_format. Qed.
End roundtrip.

(** ** A thread with a stranger's comment *)

Definition threadState (sha : ascii) : ReviewState :=
  {| lastReviewedSha := replicate 40 sha; baseSha := replicate 40 "b"%char;
     reviewedAt := js "2026-04-30T10:00:00.000Z"; modelUsed := js "claude"; totalTokens := 12345;
     totalCostUsd := zero; commentFingerprints := [replicate 16 "0"%char] |}.
Definition showZero : number -> str := fun _ => js "0".
Definition threadJSON (s : str) : option json :=
  if bool_decide (s = stringifyState showZero (threadState "a")) then Some (jsonOfState (threadState "a"))
  else if bool_decide (s = stringifyState showZero (threadState "e")) then Some (jsonOfState (threadState "e"))
  else None.
Definition anyDate : str -> bool := fun _ => true.

Lemma threadState_storable : storable showZero threadJSON anyDate (threadState "a").
Proof.
  split; [vm_compute; reflexivity| |vm_compute; reflexivity|].
  - split; cbn [lastReviewedSha baseSha reviewedAt modelUsed totalCostUsd commentFingerprints threadState];
      try not_in. apply Forall_singleton. not_in.
  - unfold threadJSON. by rewrite bool_decide_eq_true_2.
Qed.

Definition strangerComment : IssueComment :=
  {| ic_id := 7; ic_author := js "stranger";
     ic_body := Some (formatStateComment showZero (threadState "e")) |}.

Lemma state_comment_roundtrip_witness :
  getStateComment threadJSON anyDate
    (upsertStateComment showZero "review-agent[bot]" 9 (threadState "a")
      [{| ic_id := 1; ic_author := js "dev"; ic_body := None |}; strangerComment]) = Some (threadState "a").
Proof.
  apply state_comment_roundtrip; [|exact threadState_storable].
  refine (bool_decide_eq_true_1 (NoDup _) _). vm_compute. reflexivity.
Defined.

Lemma anyone_writes_the_state_witness :
  getStateComment threadJSON anyDate
    [{| ic_id := 1; ic_author := js "review-agent[bot]"; ic_body := Some (formatStateComment showZero (threadState "e")) |};
     {| ic_id := 2; ic_author := js "stranger"; ic_body := Some (formatStateComment showZero (threadState "a") ++ js " hi") |}]
  = Some (threadState "a").
Proof.
  apply (anyone_writes_the_state showZero threadJSON anyDate [_] "stranger" 2 (threadState "a") (js " hi")).
  exact threadState_storable.
Defined.

Lemma forged_summary_state_wins_witness :
  parseStateComment threadJSON anyDate
    (buildSummaryWithState showZero ("Looks fine. " ++ formatStateComment showZero (threadState "a"))
      (threadState "e")) = (Some (threadState "a"), None).
Proof.
  apply (forged_summary_state_wins showZero threadJSON anyDate _ "Looks fine. " (threadState "a") []);
    [vm_compute; reflexivity|vm_compute; reflexivity|exact threadState_storable].
Defined.
