(* ===== verification/Queue.v ===== *)
(** * The job queue (core/src/queue.ts, server/src/queue/sqs.ts, server/src/lambda-worker.ts)

    The job message with its schema, the sender, and the two consumers: the long-polling loop of
    [dequeue] and the Lambda batch handler. SQS itself is a record of operations on the world. *)

From S2P Require Import Prelude Errors Schema.

(** ** The message *)

Inductive VcsPlatform := github | codecommit.

#[export] Instance VcsPlatform_eq : EqDecision VcsPlatform.
Proof. solve_decision. Defined.

Record JobMessage := {
  jm_jobId : str;
  jm_installationId : str;
  jm_platform : VcsPlatform;
  jm_owner : str;
  jm_repo : str;
  jm_number : Z;
  jm_headSha : option str;
  triggeredBy : str;
  enqueuedAt : str;
  pathScope : option (list str);
}.

#[export] Instance JobMessage_eq : EqDecision JobMessage.
Proof. solve_decision. Defined.

Definition TRIGGERS : list str :=
  [js "pull_request.opened"; js "pull_request.synchronize"; js "pull_request.reopened";
   js "pull_request.ready_for_review"; js "comment.command"; js "manual"].

(** [PrRefSchema]: GitHub needs an owner, CodeCommit must have none. *)
Definition PrRefSchema (m : JobMessage) : bool :=
  match jm_platform m with
  | github => lengthBetween 1 200 (jm_owner m)
  | codecommit => bool_decide (jm_owner m = [])
  end
  && lengthBetween 1 200 (jm_repo m) && (0 <? jm_number m)%Z
  && optionally (lengthBetween 7 64) (jm_headSha m).

(** [isDatetime] is zod's date test. *)
Definition JobMessageSchema (isDatetime : str -> bool) (m : JobMessage) : bool :=
  lengthBetween 1 128 (jm_jobId m) && lengthBetween 1 64 (jm_installationId m)
  && PrRefSchema m
  && bool_decide (triggeredBy m ∈ TRIGGERS) && isDatetime (enqueuedAt m)
  && optionally (fun l => bool_decide (l <> []) && forallb (fun s => bool_decide (s <> [])) l)
       (pathScope m).

(** ** Sending *)

(** The schema first, then the client's [send]. *)
Definition sqsEnqueue {S} (isDatetime : str -> bool) (zodError : thrown)
    (send : JobMessage -> eff S thrown str) (m : JobMessage) : eff S thrown str :=
  if JobMessageSchema isDatetime m then send m else throw zodError.

(** ** Receiving *)

Record SqsMessage := { sm_body : option str; receiptHandle : option str }.

Section consumers.
Context {W : Type}.

(** What the loop uses of the SQS client and of the stop signal. *)
Record SqsClient := {
  receive : eff W thrown (list SqsMessage);
  deleteMessage : str -> eff W thrown unit;
  aborted : W -> bool;
}.

Context (isDatetime : str -> bool) (parseJSON : str -> option JobMessage).
Context (handler : JobMessage -> eff W thrown unit).

Definition parseBody (body : str) : option JobMessage :=
  match parseJSON body with
  | Some m => if JobMessageSchema isDatetime m then Some m else None
  | None => None
  end.

Section sqs.
Context (client : SqsClient).

(** One message of a batch: it is deleted when its handler has returned. *)
Definition consumeOne (m : SqsMessage) : eff W thrown unit :=
  match truthyStr (sm_body m), truthyStr (receiptHandle m) with
  | Some body, Some handle =>
      match parseBody body with
      | None => mret tt
      | Some job => tryCatch (handler job;; deleteMessage client handle) (fun _ => mret tt)
      end
  | _, _ => mret tt
  end.

(** The loop over a batch; [true] when the stop signal ended it. *)
Fixpoint consume (messages : list SqsMessage) : eff W thrown bool := fun w =>
  match messages with
  | [] => (Ok false, w)
  | m :: rest =>
      if aborted client w then (Ok true, w) else (consumeOne m;; consume rest) w
  end.

(** [dequeue] for at most [polls] long polls; [true] when it has returned, [false] when it is
    still polling. *)
Fixpoint dequeue (polls : nat) : eff W thrown bool := fun w =>
  if aborted client w then (Ok true, w)
  else match polls with
       | O => (Ok false, w)
       | S n =>
           (messages ← receive client;
            stop ← consume messages;
            if stop : bool then mret true else dequeue n) w
       end.
End sqs.

(** ** The Lambda batch handler *)

Record SQSRecord := { messageId : str; rec_body : str }.

(** [createSqsLambdaHandler]: the identifiers reported as failed. *)
Fixpoint sqsLambdaHandler (records : list SQSRecord) : eff W thrown (list str) :=
  match records with
  | [] => mret []
  | r :: rest =>
      failed ←
        match parseBody (rec_body r) with
        | None => mret true
        | Some job => tryCatch (handler job;; mret false) (fun _ => mret true)
        end;
      failures ← sqsLambdaHandler rest;
      mret (if failed : bool then messageId r :: failures else failures)
  end.
End consumers.
Arguments SqsClient : clear implicits.

(** ** What the consumers guarantee

    [finished] lists the jobs whose handler has returned and [deleted] the receipts removed from
    the queue: two views of the world that only the handler and the client's delete change. *)

Record ConsumerContract {W} (finished : W -> list JobMessage) (deleted : W -> list str)
    (inQueue : str -> str -> Prop) (handler : JobMessage -> eff W thrown unit)
    (client : SqsClient W) : Prop := {
  cc_returns : forall job w w', handler job w = (Ok tt, w') ->
    finished w' = finished w ++ [job] /\ deleted w' = deleted w;
  cc_throws : forall job w e w', handler job w = (Throw e, w') ->
    finished w' = finished w /\ deleted w' = deleted w;
  cc_delete : forall r w res w', deleteMessage client r w = (res, w') ->
    finished w' = finished w /\ (deleted w' = deleted w \/ deleted w' = deleted w ++ [r]);
  cc_receive : forall w res w', receive client w = (res, w') ->
    finished w' = finished w /\ deleted w' = deleted w;
  cc_received : forall w ms w' m body r, receive client w = (Ok ms, w') -> m ∈ ms ->
    sm_body m = Some body -> receiptHandle m = Some r -> inQueue r body;
}.

Section guarantees.
Context {W : Type} (finished : W -> list JobMessage) (deleted : W -> list str).
Context (inQueue : str -> str -> Prop) (handler : JobMessage -> eff W thrown unit).
Context (client : SqsClient W) (isDatetime : str -> bool) (parseJSON : str -> option JobMessage).
Context (HC : ConsumerContract finished deleted inQueue handler client).

(** Receipt [r] belongs to a message whose job has finished by [w]. *)
Definition accounted (w : W) (r : str) : Prop :=
  exists body job, inQueue r body /\ parseBody isDatetime parseJSON body = Some job /\
    job ∈ finished w.

(** From [w] to [w'], jobs have finished and receipts of finished jobs have been deleted. *)
Definition progress (w w' : W) : Prop :=
  (exists jobs, finished w' = finished w ++ jobs) /\
  exists rs, deleted w' = deleted w ++ rs /\ Forall (accounted w') rs.

Lemma accounted_mono w w' r :
  (exists jobs, finished w' = finished w ++ jobs) -> accounted w r -> accounted w' r.
Proof.
  intros [jobs E] (body & job & Hq & Hp & Hf). exists body, job. rewrite E. set_solver.
Qed.

#[export] Instance progress_preorder : PreOrder progress.
Proof.
  split.
  - intros w. split; exists []; [by rewrite app_nil_r|]. by rewrite app_nil_r.
  - intros a b c ([j1 E1] & r1 & D1 & F1) ([j2 E2] & r2 & D2 & F2). split.
    + exists (j1 ++ j2). by rewrite E2, E1, app_assoc.
    + exists (r1 ++ r2). rewrite D2, D1, app_assoc. split; [done|]. apply Forall_app. split; [|done].
      eapply Forall_impl; [exact F1|]. intros r. apply accounted_mono. eauto.
Qed.

Lemma unchanged_progress w w' : finished w' = finished w /\ deleted w' = deleted w -> progress w w'.
Proof. intros [E1 E2]. split; exists []; rewrite app_nil_r; by rewrite ?E1, ?E2. Qed.

Definition received (m : SqsMessage) : Prop :=
  forall body r, sm_body m = Some body -> receiptHandle m = Some r -> inQueue r body.

Lemma progress_consumeOne m w :
  received m -> is_ok (consumeOne isDatetime parseJSON handler client m w).1 = true /\
  progress w (consumeOne isDatetime parseJSON handler client m w).2.
Proof.
  intros Hm. unfold consumeOne.
  destruct (truthyStr (sm_body m)) as [body|] eqn:Eb; [|done].
  destruct (truthyStr (receiptHandle m)) as [r|] eqn:Er; [|done].
  destruct (parseBody isDatetime parseJSON body) as [job|] eqn:Ep; [|done].
  apply truthyStr_Some in Eb as [Eb _], Er as [Er _]. specialize (Hm body r Eb Er).
  unfold tryCatch, mbind, eff_bind. destruct (handler job w) as [[[]|e] w1] eqn:Eh.
  - apply (cc_returns _ _ _ _ _ HC) in Eh as [F1 D1].
    destruct (deleteMessage client r w1) as [[[]|e] w2] eqn:Ed; cbn; (split; [done|]);
      apply (cc_delete _ _ _ _ _ HC) in Ed as [F2 D2]; rewrite F1 in F2; rewrite D1 in D2.
    all: split; [by exists [job]|].
    all: destruct D2 as [D2|D2]; [exists []; by rewrite app_nil_r|].
    all: exists [r]; split; [done|]; apply Forall_singleton; exists body, job; rewrite F2; set_solver.
  - apply (cc_throws _ _ _ _ _ HC) in Eh. cbn. split; [done|]. by apply unchanged_progress.
Qed.

Lemma progress_consume ms w :
  Forall received ms -> is_ok (consume isDatetime parseJSON handler client ms w).1 = true /\
  progress w (consume isDatetime parseJSON handler client ms w).2.
Proof.
  intros H. revert w. induction H as [|m ms Hm _ IH]; intros w; cbn [consume]; [done|].
  destruct (aborted client w); [done|].
  destruct (progress_consumeOne m w Hm) as [Ho Hp].
  unfold mbind, eff_bind.
  destruct (consumeOne isDatetime parseJSON handler client m w) as [[[]|e] w1]; [|done].
  cbn in *. destruct (IH w1) as [Ho2 Hp2]. split; [done|]. by etrans.
Qed.

(** C21. At-least-once delivery: however many messages are polled, whatever the handlers throw and
    whenever the loop is stopped, a receipt is deleted only if it is that of a message whose job's
    handler returned; and the loop itself throws only what [receive] throws. *)
Theorem deleted_jobs_are_finished polls w :
  let run := dequeue isDatetime parseJSON handler client polls w in
  progress w run.2 /\
  (forall e, run.1 = Throw e -> exists w1 w2, receive client w1 = (Throw e, w2)).
Proof.
  cbv zeta. revert w. induction polls as [|n IH]; intros w; cbn [dequeue];
    (destruct (aborted client w); [done|]); [done|].
  unfold mbind, eff_bind. destruct (receive client w) as [[ms|e] w1] eqn:Er.
  - pose proof (cc_receive _ _ _ _ _ HC _ _ _ Er) as Hr%unchanged_progress.
    destruct (progress_consume ms w1) as [Ho Hp].
    { apply Forall_forall. intros m Hm body r Hb Hh. by eapply (cc_received _ _ _ _ _ HC). }
    destruct (consume isDatetime parseJSON handler client ms w1) as [[[]|e] w2]; [| |done]; cbn in *.
    + split; [by etrans|done].
    + destruct (IH w2) as [Hp2 He2]. split; [by repeat (etrans; [eassumption|])|done].
  - apply (cc_receive _ _ _ _ _ HC) in Er as Hr. cbn. split; [by apply unchanged_progress|].
    intros e' [= <-]. eauto.
Qed.

(** The batch handler never throws. Every record is either reported as failed or its job finished,
    exactly once and in the order of the batch; a record that is not a job message is reported. *)
Theorem lambda_batch_accounts_for_all records w :
  exists flags w',
    sqsLambdaHandler isDatetime parseJSON handler records w
      = (Ok (messageId <$> (fst <$> filter (fun x => x.2 = true) (zip records flags))), w') /\
    length flags = length records /\
    map Some (finished w') = map Some (finished w)
      ++ (parseBody isDatetime parseJSON ∘ rec_body ∘ fst
          <$> filter (fun x => x.2 = false) (zip records flags)) /\
    (forall r, (r, false) ∈ zip records flags ->
      is_Some (parseBody isDatetime parseJSON (rec_body r))).
Proof.
  revert w. induction records as [|r records IH]; intros w.
  { exists [], w. split_and!; [done|done|by rewrite app_nil_r|by intros r ?%elem_of_nil]. }
  cbn [sqsLambdaHandler]. unfold tryCatch, mbind, eff_bind.
  destruct (parseBody isDatetime parseJSON (rec_body r)) as [job|] eqn:Ep.
  - destruct (handler job w) as [[[]|e] w1] eqn:Eh; cbn [mret eff_ret]; unfold mret, eff_ret.
    + destruct (IH w1) as (flags & w2 & E & L & F & P). rewrite E. exists (false :: flags), w2.
      apply (cc_returns _ _ _ _ _ HC) in Eh as [F1 _]. rewrite F1, map_app, <- app_assoc in F.
      change (zip (r :: records) (false :: flags)) with ((r, false) :: zip records flags).
      rewrite filter_cons_False, filter_cons_True by done.
      split_and!; [done|cbn; by rewrite L|rewrite F; cbn; by rewrite Ep|].
      intros r'. rewrite elem_of_cons. intros [[= ->]|H]; [by rewrite Ep|by apply P].
    + destruct (IH w1) as (flags & w2 & E & L & F & P). rewrite E. exists (true :: flags), w2.
      apply (cc_throws _ _ _ _ _ HC) in Eh as [F1 _]. rewrite F1 in F.
      change (zip (r :: records) (true :: flags)) with ((r, true) :: zip records flags).
      rewrite filter_cons_True, filter_cons_False by done.
      split_and!; [done|cbn; by rewrite L|done|].
      intros r'. rewrite elem_of_cons. intros [[=]|H]. by apply P.
  - unfold mret, eff_ret. destruct (IH w) as (flags & w2 & E & L & F & P). rewrite E.
    exists (true :: flags), w2.
    change (zip (r :: records) (true :: flags)) with ((r, true) :: zip records flags).
    rewrite filter_cons_True, filter_cons_False by done.
    split_and!; [done|cbn; by rewrite L|done|].
    intros r'. rewrite elem_of_cons. intros [[=]|H]. by apply P.
Qed.
End guarantees.

(** ** A queue with a failing job *)

Definition demoJob (sha : str) : JobMessage :=
  {| jm_jobId := js "o/r#1@0"; jm_installationId := js "11"; jm_platform := github;
     jm_owner := js "o"; jm_repo := js "r"; jm_number := 1; jm_headSha := Some sha;
     triggeredBy := js "pull_request.synchronize"; enqueuedAt := js "2026-04-30T00:00:00.000Z";
     pathScope := None |}.

(** A body is the head's hash; the handler fails on one of them. *)
Definition demoJSON (body : str) : option JobMessage :=
  if bool_decide (body = "garbage") then None else Some (demoJob body).
Definition failingHash : str := replicate 40 "f"%char.
Definition goodHash : str := replicate 40 "a"%char.
Definition demoHandler (job : JobMessage) : eff (list JobMessage * list str) thrown unit := fun w =>
  if bool_decide (jm_headSha job = Some failingHash) then (Throw (StringValue "boom"), w)
  else (Ok tt, (w.1 ++ [job], w.2)).
Definition demoMessages : list SqsMessage :=
  [{| sm_body := Some (js "garbage"); receiptHandle := Some (js "r0") |};
   {| sm_body := Some failingHash; receiptHandle := Some (js "r1") |};
   {| sm_body := Some goodHash; receiptHandle := Some (js "r2") |}].
Definition demoClient : SqsClient (list JobMessage * list str) :=
  {| receive w := (Ok demoMessages, w);
     deleteMessage r w := (Ok tt, (w.1, w.2 ++ [r]));
     aborted w := bool_decide (w.2 <> []) |}.
Definition demoInQueue (r body : str) : Prop :=
  {| sm_body := Some body; receiptHandle := Some r |} ∈ demoMessages.

Lemma demo_contract : ConsumerContract fst snd demoInQueue demoHandler demoClient.
Proof.
  split.
  - unfold demoHandler. intros job w w'. case_bool_decide; [done|]. by intros [= <-].
  - unfold demoHandler. intros job w e w'. case_bool_decide; [|done]. by intros [= _ <-].
  - intros r w res w' [= _ <-]. cbn. auto.
  - intros w res w' [= _ <-]. done.
  - intros w ms w' m body r [= <- _] Hm Hb Hr. unfold demoInQueue.
    destruct m as [b' r']; cbn in Hb, Hr. by subst.
Qed.

Lemma deleted_jobs_are_finished_witness :
  let run := dequeue (fun _ => true) demoJSON demoHandler demoClient 5 ([], []) in
  progress fst snd demoInQueue (fun _ => true) demoJSON ([], []) run.2 /\
  run = (Ok true, ([demoJob goodHash], [js "r2"])).
Proof.
  intros run. split; [|vm_compute; reflexivity].
  apply (deleted_jobs_are_finished fst snd demoInQueue demoHandler demoClient
           (fun _ => true) demoJSON demo_contract).
Defined.

Lemma lambda_batch_accounts_for_all_witness :
  exists (flags : list bool) w', sqsLambdaHandler (fun _ => true) demoJSON demoHandler
    [{| messageId := js "m1"; rec_body := failingHash |}; {| messageId := js "m2"; rec_body := goodHash |}]
    ([], []) = (Ok [js "m1"], w') /\ length flags = 2 /\ w'.1 = [demoJob goodHash].
Proof.
  destruct (lambda_batch_accounts_for_all fst snd demoInQueue demoHandler demoClient
              (fun _ => true) demoJSON demo_contract
              [{| messageId := js "m1"; rec_body := failingHash |};
               {| messageId := js "m2"; rec_body := goodHash |}] ([], []))
    as (flags & w' & E & L & _ & _).
  assert (w' = ([demoJob goodHash], [])) as ->
    by (assert (forall A B (x y : A * B), x = y -> x.2 = y.2) as Hsnd by (by intros ???? ->);
        apply Hsnd in E; vm_compute in E; by symmetry).
  exists flags, ([demoJob goodHash], []). split; [vm_compute; reflexivity|]. done.
Defined.
