(* ===== verification/Webhook.v ===== *)
(** * The webhook receiver (server/src/handlers/webhook.ts, server/src/middleware/,
    server/src/app.ts)

    [handleWebhook] over the server's tables and the two middlewares in front of it. A payload is
    the record of the fields the handler reads; a field that is missing or of another type is [None]. The functions injected into the handler act on
    the part [ext] of the server's world. Times are in milliseconds. *)

From S2P Require Import Prelude JsNumber Errors Schema Commands Queue.

(** ** The payload *)

Record CommentBody := {
  cm_body : option str;
  cm_user : option str;
  cm_id : option Z;
  cm_inReplyTo : option Z;
  cm_diffHunk : option str;
}.

Record IssueBody := { is_pullRequest : bool; is_number : option Z }.

Record EventBody := {
  eb_action : option str;
  eb_installationId : option Z;
  eb_appId : option Z;
  eb_accountLogin : option str;
  eb_accountType : option str;
  eb_prNumber : option Z;
  eb_draft : bool;
  eb_headSha : option str;
  eb_title : option str;
  eb_prBody : option str;
  eb_labels : list (option str);
  eb_owner : option str;
  eb_repo : option str;
  eb_label : option str;
  eb_comment : option CommentBody;
  eb_sender : option str;
  eb_issue : option IssueBody;
  eb_reviewId : option Z;
  eb_reaction : option str;
}.

Inductive EventName :=
  | ev_pull_request
  | ev_pull_request_review
  | ev_pull_request_review_comment
  | ev_pull_request_review_comment_reaction
  | ev_reaction
  | ev_issue_comment
  | ev_installation
  | ev_installation_repositories
  | ev_ping
  | ev_other (name : str).

#[export] Instance EventName_eq : EqDecision EventName.
Proof. solve_decision. Defined.

(** ** The server's world *)

Record ReviewStateRow := { rs_updatedAt : Z; paused : bool }.

Record InstallationRow := {
  ins_appId : Z;
  ins_accountLogin : str;
  ins_accountType : str;
  ins_setupAction : str;
  ins_suspendedAt : option Z;
  ins_updatedAt : Z;
}.

Inductive FeedbackCommandOutcome := recorded | unauthorized | unresolved | rate_limited.

(** The tables the handler uses, the feedback counter's increments, the error the database
    answers with while it is down, and the rest of the world. *)
Record World (X : Type) := {
  reviewStates : gmap (Z * str) ReviewStateRow;
  installations : gmap Z InstallationRow;
  deliveries : gset str;
  feedbackCommandTotal : list (VcsPlatform * FeedbackKind * FeedbackCommandOutcome);
  dbFault : option thrown;
  ext : X;
}.
Arguments reviewStates {X} _.
Arguments installations {X} _.
Arguments deliveries {X} _.
Arguments feedbackCommandTotal {X} _.
Arguments dbFault {X} _.
Arguments ext {X} _.
Arguments Build_World {X} _ _ _ _ _ _.

(** The answers of the two routes. *)
Inductive Response (R : Type) :=
  | Unauthorized401
  | BadRequest400 (error : str)
  | Forbidden403 (reason : str)
  | Deduped200
  | Result200 (r : R).
Arguments Unauthorized401 {R}.
Arguments BadRequest400 {R} error.
Arguments Forbidden403 {R} reason.
Arguments Deduped200 {R}.
Arguments Result200 {R} r.

Section tables.
Context {X : Type}.
Implicit Types w : World X.

Definition setReviewStates (m : gmap (Z * str) ReviewStateRow) (w : World X) : World X :=
  Build_World m (installations w) (deliveries w) (feedbackCommandTotal w) (dbFault w) (ext w).
Definition setInstallations (m : gmap Z InstallationRow) (w : World X) : World X :=
  Build_World (reviewStates w) m (deliveries w) (feedbackCommandTotal w) (dbFault w) (ext w).
Definition addDelivery (id : str) (w : World X) : World X :=
  Build_World (reviewStates w) (installations w) ({[ id ]} ∪ deliveries w) (feedbackCommandTotal w)
    (dbFault w) (ext w).
Definition addFeedback (p : VcsPlatform) (k : FeedbackKind) (o : FeedbackCommandOutcome) (w : World X) : World X :=
  Build_World (reviewStates w) (installations w) (deliveries w) (feedbackCommandTotal w ++ [(p, k, o)])
    (dbFault w) (ext w).

(** An injected function acts on the rest of the world. *)
Definition onExt {A} (m : eff X thrown A) : eff (World X) thrown A := fun w =>
  let '(r, x) := m (ext w) in
  (r, Build_World (reviewStates w) (installations w) (deliveries w) (feedbackCommandTotal w)
        (dbFault w) x).

(** A statement inside [withTenant]. *)
Definition dbWrite (f : World X -> World X) : eff (World X) thrown unit := fun w =>
  match dbFault w with Some e => (Throw e, w) | None => (Ok tt, f w) end.

(** [readReviewStateRow]: fail-open. *)
Definition readReviewStateRow (installationId : Z) (prId : str)
    : eff (World X) thrown (option ReviewStateRow) := fun w =>
  (Ok match dbFault w with Some _ => None | None => reviewStates w !! (installationId, prId) end, w).

(** ** Results *)

Inductive ConversationReplyOutcome := dispatched | conv_unauthorized | self_reply.

Inductive WebhookResult :=
  | Ignored (reason : str)
  | Enqueued (messageId : str)
  | Noop (reason : str)
  | Installation (action : str) (installationId : Z)
  | Feedback (signal : FeedbackKind) (commentId : Z)
  | FeedbackCommandResult (signal : FeedbackKind) (outcome : FeedbackCommandOutcome)
      (fpPrefix : option str) (prNumber : Z)
  | ConversationReply (outcome : ConversationReplyOutcome) (commentId prNumber : Z).

Record ConversationHandlerInput := {
  ch_installationId : Z;
  ch_owner : str;
  ch_repo : str;
  ch_prNumber : Z;
  rootCommentId : Z;
  replyCommentId : Z;
  ch_body : str;
  ch_diffHunk : option str;
  ch_sender : str;
}.

Record TriggerConfig := { trigger_labels : list str; skip_labels : list str }.

(** [clock] is [now()] in one call and [toISOString] its text. *)
Record WebhookHandlerDeps := {
  enqueue : JobMessage -> eff X thrown str;
  clock : Z;
  toISOString : Z -> str;
  checkAuthz : option (GithubAuthzInput -> eff X thrown FeedbackAuthzResult);
  handleConversation :
    option (ConversationHandlerInput -> eff X thrown ConversationReplyOutcome);
  getBotLogin : option (eff X thrown str);
  hasDb : bool;
  triggerConfig : option TriggerConfig;
  debounceMs : option Z;
}.

(** The login of the bot: the caller's function, [GITHUB_BOT_LOGIN], or the slug that [GET /app]
    answers to the JWT of the app. The closure is made for every request and the handler calls it at
    most once, so its cache is never read. *)
Definition resolveGetBotLogin (override : option (eff X thrown str)) (GITHUB_BOT_LOGIN : option str)
    (createAppJwt : option (eff X thrown str)) (getAuthenticated : str -> eff X thrown (option str)) : option (eff X thrown str) :=
  match override with
  | Some f => Some f
  | None =>
      match truthyStr GITHUB_BOT_LOGIN with
      | Some envLogin => Some (mret envLogin)
      | None =>
          match createAppJwt with
          | Some createJwt =>
              Some (jwt ← createJwt;
                    slug ← getAuthenticated jwt;
                    mret (default (js "review-agent") slug ++ "[bot]"))
          | None => None
          end
      end
  end.

Context (deps : WebhookHandlerDeps).

(** ** Helpers *)

Definition truthyNum (o : option Z) : option Z :=
  match o with Some n => if (n =? 0)%Z then None else Some n | None => None end.

(** [pull_request.number ?? issue.number] *)
Definition prNumberOf (b : EventBody) : option Z :=
  match eb_prNumber b with Some n => Some n | None => i ← eb_issue b; is_number i end.

Definition prIdText (owner repo : str) (number : Z) : str :=
  owner ++ "/" ++ repo ++ "#" ++ showZ number.

Definition buildPrId (b : EventBody) : option str :=
  owner ← truthyStr (eb_owner b);
  repo ← truthyStr (eb_repo b);
  number ← truthyNum (prNumberOf b);
  Some (prIdText owner repo number).

Definition buildJobMessageWithScope (b : EventBody) (trigger : str) (scope : option str)
    : option JobMessage :=
  installationId ← truthyNum (eb_installationId b);
  owner ← truthyStr (eb_owner b);
  repo ← truthyStr (eb_repo b);
  number ← truthyNum (prNumberOf b);
  Some {| jm_jobId := prIdText owner repo number ++ "@" ++ showZ (clock deps);
          jm_installationId := showZ installationId; jm_platform := github;
          jm_owner := owner; jm_repo := repo;
          jm_number := number; jm_headSha := truthyStr (eb_headSha b); triggeredBy := trigger;
          enqueuedAt := toISOString deps (clock deps);
          pathScope := option_map (fun s => [s]) scope |}.

Definition buildJobMessage (b : EventBody) (trigger : str) : option JobMessage :=
  buildJobMessageWithScope b trigger None.

(** Enqueue a message, when there is one. *)
Definition enqueueOr (m : option JobMessage) : eff (World X) thrown WebhookResult :=
  match m with
  | None => mret (Ignored "missing repo/installation/pr fields")
  | Some msg => id ← onExt (enqueue deps msg); mret (Enqueued id)
  end.

(** [/\[skip review\]/i] *)
Definition hasSkipMarker (text : str) : bool := includes (map fold_char text) "[skip review]".

Definition commandUser (b : EventBody) : str :=
  match eb_sender b with
  | Some s => s
  | None => default [] (c ← eb_comment b; cm_user c)
  end.

Definition checkCommandAuthz (b : EventBody) : eff (World X) thrown FeedbackAuthzResult :=
  match truthyStr (eb_owner b), truthyStr (eb_repo b), commandUser b with
  | Some owner, Some repo, (_ :: _) as username =>
      match checkAuthz deps with
      | None => mret (Denied "no checkAuthz wired (fail-closed)")
      | Some check => onExt (check {| az_owner := owner; az_repo := repo; az_username := username |})
      end
  | _, _, _ => mret (Denied "missing owner/repo/username from webhook payload")
  end.

Definition DEFAULT_DEBOUNCE_MS : Z := 30000.

Definition checkDebounce (b : EventBody) : eff (World X) thrown bool :=
  if hasDb deps then
    match eb_installationId b, buildPrId b with
    | Some installationId, Some prId =>
        row ← readReviewStateRow installationId prId;
        mret match row with
             | None => false
             | Some r => (clock deps - rs_updatedAt r <? default DEFAULT_DEBOUNCE_MS (debounceMs deps))%Z
             end
    | _, _ => mret false
    end
  else mret false.

(** [classifyReactionPayload] *)
Definition classifyReactionPayload (b : EventBody) : option (FeedbackKind * Z) :=
  if bool_decide (eb_action b = Some (js "created")) then
    let signal :=
      if bool_decide (eb_reaction b = Some (js "+1")) then Some thumbs_up
      else if bool_decide (eb_reaction b = Some (js "-1")) then Some thumbs_down else None in
    let commentId :=
      match (c ← eb_comment b; cm_id c) with Some i => Some i | None => eb_reviewId b end in
    match signal, commentId with
    | Some s, Some i => Some (s, i)
    | _, _ => None
    end
  else None.

(** ** Installation lifecycle *)

Definition actionText (a : option str) : str := default (js "unknown") a.

Definition handleInstallationEvent (b : EventBody) : eff (World X) thrown WebhookResult :=
  match eb_installationId b with
  | None => mret (Ignored "installation event missing installation.id")
  | Some installationId =>
      let now := clock deps in
      let action := default [] (eb_action b) in
      if bool_decide (action = "created") || bool_decide (action = "unsuspend") then
        match eb_appId b, eb_accountLogin b, eb_accountType b with
        | Some appId, Some login, Some type_ =>
            dbWrite (fun w => setInstallations
              (<[ installationId := {| ins_appId := appId; ins_accountLogin := login;
                                       ins_accountType := type_; ins_setupAction := "install";
                                       ins_suspendedAt := None; ins_updatedAt := now |} ]>
                 (installations w)) w);;
            mret (Installation action installationId)
        | _, _, _ => mret (Ignored "installation.created/unsuspend missing required fields")
        end
      else if bool_decide (action = "suspend") then
        dbWrite (fun w => setInstallations
          (alter (fun r => {| ins_appId := ins_appId r; ins_accountLogin := ins_accountLogin r;
                              ins_accountType := ins_accountType r;
                              ins_setupAction := ins_setupAction r;
                              ins_suspendedAt := Some now; ins_updatedAt := now |})
             installationId (installations w)) w);;
        mret (Installation action installationId)
      else if bool_decide (action = "deleted") then
        dbWrite (fun w => setInstallations (delete installationId (installations w)) w);;
        mret (Installation action installationId)
      else mret (Noop ("installation." ++ actionText (eb_action b) ++ " acknowledged"))
  end.

(** ** Pull request events *)

Definition isAction (names : list str) (a : str) : bool := bool_decide (a ∈ names).

Definition ENQUEUE_PR_ACTIONS : list str :=
  [js "opened"; js "synchronize"; js "reopened"; js "ready_for_review"].
Definition PUSH_TRIGGERED_ACTIONS : list str := [js "opened"; js "synchronize"; js "reopened"].

Definition handleLabeled (b : EventBody) : eff (World X) thrown WebhookResult :=
  match triggerConfig deps with
  | None => mret (Ignored "pull_request action 'labeled'")
  | Some cfg =>
      let appliedLabel := toLowerCase (default [] (eb_label b)) in
      if bool_decide (appliedLabel ∈ map toLowerCase (trigger_labels cfg))
      then enqueueOr (buildJobMessage b "comment.command")
      else mret (Ignored ("label '" ++ appliedLabel ++ "' not in trigger_labels"))
  end.

Definition carriesMarker (b : EventBody) : bool :=
  hasSkipMarker (default [] (eb_title b)) || hasSkipMarker (default [] (eb_prBody b)).

Definition nonEmptyStr (s : str) : bool := match s with [] => false | _ => true end.

Definition carriesSkipLabel (b : EventBody) : bool :=
  match triggerConfig deps with
  | None => false
  | Some cfg =>
      let prLabels := List.filter nonEmptyStr (map (fun l => toLowerCase (default [] l)) (eb_labels b)) in
      existsb (fun sl => bool_decide (toLowerCase sl ∈ prLabels)) (skip_labels cfg)
  end.

(** [readPausedState], for a payload that names its pull request. *)
Definition isPaused (b : EventBody) : eff (World X) thrown bool :=
  if hasDb deps then
    match eb_installationId b, truthyStr (eb_owner b), truthyStr (eb_repo b),
          truthyNum (eb_prNumber b) with
    | Some installationId, Some owner, Some repo, Some number =>
        row ← readReviewStateRow installationId (prIdText owner repo number);
        mret match row with Some r => paused r | None => false end
    | _, _, _, _ => mret false
    end
  else mret false.

Definition handlePullRequest (b : EventBody) : eff (World X) thrown WebhookResult :=
  match truthyStr (eb_action b) with
  | None => mret (Ignored ("pull_request action '" ++ actionText (eb_action b) ++ "'"))
  | Some action =>
      if bool_decide (action = "labeled") then handleLabeled b
      else if negb (isAction ENQUEUE_PR_ACTIONS action)
      then mret (Ignored ("pull_request action '" ++ action ++ "'"))
      else if eb_draft b then mret (Ignored "draft PR")
      else
        let push := isAction PUSH_TRIGGERED_ACTIONS action in
        if push && carriesMarker b then mret (Ignored "[skip review] marker in PR title/body")
        else if push && carriesSkipLabel b then mret (Ignored "PR carries a skip_label")
        else
          stopped ← if push then isPaused b else mret false;
          if stopped : bool then mret (Ignored "PR is paused (skip)")
          else enqueueOr (buildJobMessage b ("pull_request." ++ action))
  end.

(** ** Commands *)

Definition countFeedback (k : FeedbackKind) (o : FeedbackCommandOutcome) : eff (World X) thrown unit :=
  modify (addFeedback github k o).

Definition handleFeedbackCommand (fb : FeedbackCommand) (b : EventBody)
    : eff (World X) thrown WebhookResult :=
  let answer o n :=
    countFeedback (fb_kind fb) o;; mret (FeedbackCommandResult (fb_kind fb) o (fpPrefix fb) n) in
  match prNumberOf b, truthyStr (eb_owner b), truthyStr (eb_repo b) with
  | Some prNumber, Some owner, Some repo =>
      authz ← match checkAuthz deps with
              | Some check =>
                  onExt (check {| az_owner := owner; az_repo := repo; az_username := commandUser b |})
              | None => mret (Denied "no checkAuthz wired (fail-closed)")
              end;
      match authz with
      | Allowed => answer recorded prNumber
      | Denied _ => answer unauthorized prNumber
      end
  | n, _, _ => answer unresolved (default 0%Z n)
  end.

(** The update of [/skip] and [/resume]: a pull request without a row stays without one. *)
Definition setPaused (value : bool) (b : EventBody) : eff (World X) thrown unit :=
  if hasDb deps then
    match buildPrId b, eb_installationId b with
    | Some prId, Some installationId =>
        dbWrite (fun w => setReviewStates
          (alter (fun _ => {| rs_updatedAt := clock deps; paused := value |})
             (installationId, prId) (reviewStates w)) w)
    | _, _ => mret tt
    end
  else mret tt.

Definition reviewCommand (b : EventBody) (scope : option str) : eff (World X) thrown WebhookResult :=
  debounced ← checkDebounce b;
  if debounced : bool then mret (Ignored "debounced: review already in flight")
  else enqueueOr (buildJobMessageWithScope b "comment.command" scope).

Definition handleSlashCommand (slash : SlashCommand) (b : EventBody)
    : eff (World X) thrown WebhookResult :=
  authz ← checkCommandAuthz b;
  match authz with
  | Denied _ => mret (Ignored "unauthorized command")
  | Allowed =>
      match slash with
      | SlashSkip => setPaused true b;; mret (Noop "PR paused (skip)")
      | SlashResume => setPaused false b;; mret (Noop "PR resumed")
      | SlashReview scope => reviewCommand b scope
      end
  end.

Definition commentText (b : EventBody) : str := default [] (c ← eb_comment b; cm_body c).

(** The parsers in turn. *)
Definition handleComment (b : EventBody) : eff (World X) thrown WebhookResult :=
  match parseFeedbackCommand (commentText b) with
  | Some fb => handleFeedbackCommand fb b
  | None =>
      match parseSlashCommand (commentText b) with
      | Some slash => handleSlashCommand slash b
      | None =>
          match parseCommand (commentText b) with
          | None | Some [] => mret (Ignored "no agent command")
          | Some command =>
              if bool_decide (command = "review") then
                authz ← checkCommandAuthz b;
                match authz with
                | Denied _ => mret (Ignored "unauthorized command")
                | Allowed => reviewCommand b None
                end
              else mret (Noop ("command '" ++ command ++ "' not yet implemented"))
          end
      end
  end.

(** ** Conversation replies *)

Definition handleReply (b : EventBody) (c : CommentBody) (rootId : Z)
    (handler : ConversationHandlerInput -> eff X thrown ConversationReplyOutcome)
    : eff (World X) thrown WebhookResult :=
  if negb (bool_decide (eb_action b = Some (js "created")))
  then mret (Ignored "pull_request_review_comment action is not created")
  else if negb (includes (toLowerCase (default [] (cm_body c))) "@review-agent")
  then mret (Ignored "no @review-agent mention in reply")
  else
    match eb_installationId b, truthyStr (eb_owner b), truthyStr (eb_repo b), eb_prNumber b, cm_id c with
    | Some installationId, Some owner, Some repo, Some prNumber, Some replyId =>
        match getBotLogin deps with
        | None => mret (Ignored "conversation reply: getBotLogin not wired (fail-closed)")
        | Some getLogin =>
            botLogin ← onExt getLogin;
            match botLogin with
            | [] => mret (Ignored "conversation reply: getBotLogin returned empty (fail-closed)")
            | _ =>
                let sender := default [] (eb_sender b) in
                if bool_decide (sender = botLogin)
                then mret (ConversationReply self_reply replyId prNumber)
                else
                  authz ← checkCommandAuthz b;
                  match authz with
                  | Denied _ => mret (ConversationReply conv_unauthorized replyId prNumber)
                  | Allowed =>
                      outcome ← onExt (handler
                        {| ch_installationId := installationId; ch_owner := owner; ch_repo := repo;
                           ch_prNumber := prNumber; rootCommentId := rootId;
                           replyCommentId := replyId; ch_body := default [] (cm_body c);
                           ch_diffHunk := cm_diffHunk c; ch_sender := sender |});
                      mret (ConversationReply outcome replyId prNumber)
                  end
            end
        end
    | _, _, _, _, _ => mret (Ignored "conversation reply: missing required fields")
    end.

(** A thread reply goes to the conversation handler, when one is wired. *)
Definition handleReviewComment (b : EventBody) : eff (World X) thrown WebhookResult :=
  match handleConversation deps, eb_comment b with
  | Some handler, Some c =>
      match cm_inReplyTo c with
      | Some rootId => handleReply b c rootId handler
      | None => handleComment b
      end
  | _, _ => handleComment b
  end.

(** ** The dispatcher *)

Definition isDismissal (b : EventBody) : option Z :=
  if bool_decide (eb_action b = Some (js "dismissed")) then eb_reviewId b else None.

Definition eventText (e : EventName) : str :=
  match e with ev_other name => name | _ => [] end.

Definition handleWebhook (event : EventName) (b : EventBody) : eff (World X) thrown WebhookResult :=
  match event with
  | ev_ping => mret (Noop "ping")
  | ev_installation_repositories => mret (Noop "installation_repositories acknowledged")
  | ev_installation =>
      if hasDb deps then handleInstallationEvent b
      else mret (Noop (actionText (eb_action b) ++ " acknowledged"))
  | ev_pull_request_review_comment_reaction | ev_reaction =>
      match classifyReactionPayload b with
      | None => mret (Ignored "reaction payload not recognised")
      | Some (signal, commentId) => mret (Feedback signal commentId)
      end
  | ev_pull_request => handlePullRequest b
  | ev_pull_request_review =>
      match isDismissal b with
      | Some id => mret (Feedback dismissed id)
      | None => handleComment b
      end
  | ev_issue_comment =>
      if match eb_issue b with Some i => is_pullRequest i | None => false end
      then handleComment b
      else mret (Ignored "issue comment, not PR")
  | ev_pull_request_review_comment => handleReviewComment b
  | ev_other _ => mret (Ignored ("unhandled event '" ++ eventText event ++ "'"))
  end.

(** ** The middlewares and the route *)

Record Request := {
  rq_signature : option str;
  rq_deliveryId : option str;
  rq_event : EventName;
  rq_raw : str;
}.

Context (hmacHex : str -> str -> str) (parseJSON : str -> option EventBody) (webhookSecret : str).

(** [verifyGithubSignature]: the parsed body, or the answer that ends the request. *)
Definition verifyGithubSignature (r : Request) : Response WebhookResult + EventBody :=
  match truthyStr (rq_signature r) with
  | None => inl Unauthorized401
  | Some sig =>
      if bool_decide (sig = "sha256=" ++ hmacHex webhookSecret (rq_raw r)) then
        match parseJSON (rq_raw r) with
        | Some body => inr body
        | None => inl (BadRequest400 "bad request")
        end
      else inl Unauthorized401
  end.

(** [idempotency]: the delivery is recorded before the handler runs. *)
Definition idempotency {R} (deliveryId : option str) (next : eff (World X) thrown (Response R))
    : eff (World X) thrown (Response R) :=
  match truthyStr deliveryId with
  | None => mret (BadRequest400 "missing delivery id")
  | Some id =>
      w ← get;
      match dbFault w with
      | Some e => throw e
      | None =>
          if bool_decide (id ∈ deliveries w) then mret Deduped200
          else modify (addDelivery id);; next
      end
  end.

(** [POST /webhook] of [createApp]. *)
Definition postWebhook (r : Request) : eff (World X) thrown (Response WebhookResult) :=
  match verifyGithubSignature r with
  | inl response => mret response
  | inr body =>
      idempotency (rq_deliveryId r)
        (result ← handleWebhook (rq_event r) body; mret (Result200 result))
  end.
End tables.
