(* ===== verification/WebhookSpec.v ===== *)
(** * What the webhook receiver guarantees

    Requests without a valid signature do nothing; a delivery runs once; commands of commenters
    without write access change nothing; pausing, and the installation table. *)

From S2P Require Import Prelude JsNumber Errors Schema Commands Queue Webhook.

(** ** Frames

    [within R m]: every run of [m], returning or throwing, relates the worlds by [R]. *)

Definition within {X E A} (R : World X -> World X -> Prop) (m : eff (World X) E A) : Prop :=
  forall w, R w (m w).2.

Section frame.
Context {X : Type} (R : World X -> World X -> Prop) `{!PreOrder R}.

Lemma within_ret {E A} (a : A) : within R (mret a : eff (World X) E A).
Proof. intros w. reflexivity. Qed.

Lemma within_bind {E A B} (m : eff (World X) E A) (f : A -> eff (World X) E B) :
  within R m -> (forall a, within R (f a)) -> within R (m ≫= f).
Proof.
  intros Hm Hf w. unfold mbind, eff_bind. specialize (Hm w).
  destruct (m w) as [[a|e] w1]; [|done]. etrans; [exact Hm|apply Hf].
Qed.
End frame.

(** The delivery table and the database's health. *)
Definition keeps {X} (w w' : World X) : Prop :=
  deliveries w' = deliveries w /\ dbFault w' = dbFault w.

#[export] Instance keeps_preorder {X} : PreOrder (@keeps X).
Proof. split; [done|]. intros a b c [? ?] [? ?]. split; congruence. Qed.

(** Everything but the feedback counter. *)
Definition inert {X} (w w' : World X) : Prop :=
  reviewStates w' = reviewStates w /\ installations w' = installations w /\
  deliveries w' = deliveries w /\ dbFault w' = dbFault w /\ ext w' = ext w.

#[export] Instance inert_preorder {X} : PreOrder (@inert X).
Proof. split; [done|]. intros a b c (? & ? & ? & ? & ?) (? & ? & ? & ? & ?). split_and!; congruence. Qed.

Section keeps.
Context {X : Type} (deps : WebhookHandlerDeps (X := X)).

Lemma keeps_onExt {A} (m : eff X thrown A) : within keeps (onExt m).
Proof. intros w. unfold onExt. by destruct (m (ext w)). Qed.

Lemma keeps_dbWrite f : (forall w : World X, keeps w (f w)) -> within keeps (dbWrite f).
Proof. intros Hf w. unfold dbWrite. by destruct (dbFault w) eqn:E; [|apply Hf]. Qed.

Lemma keeps_read i p : within keeps (readReviewStateRow (X := X) i p).
Proof. by intros w. Qed.

Lemma keeps_count k o : within keeps (countFeedback (X := X) k o).
Proof. by intros w. Qed.

(** Walk through a handler: every leaf is one of the four lemmas above or an answer. *)
Ltac frame_step :=
  match goal with
  | |- within _ (_ ≫= _) => apply within_bind; [| |intros ?]
  | |- within _ (mret _) => apply within_ret
  | |- within _ (onExt _) => apply keeps_onExt
  | |- within _ (dbWrite _) => apply keeps_dbWrite; by intros w
  | |- within _ (readReviewStateRow _ _) => apply keeps_read
  | |- within _ (countFeedback _ _) => apply keeps_count
  | |- within _ (if ?b then _ else _) => destruct b
  | |- within _ (match ?x with _ => _ end) => destruct x
  | |- PreOrder _ => apply keeps_preorder
  end.

Lemma keeps_handleWebhook event b : within keeps (handleWebhook deps event b).
Proof.
  unfold handleWebhook, handleInstallationEvent, handlePullRequest, handleLabeled, isPaused,
    handleReviewComment, handleReply, handleComment, handleFeedbackCommand, handleSlashCommand,
    reviewCommand, setPaused, checkDebounce, checkCommandAuthz, enqueueOr.
  cbv zeta. repeat frame_step.
Qed.
End keeps.

(** ** A commenter without write access *)

(** The permission check, where it is wired, denies this user and touches nothing. *)
Definition denies {X} (deps : WebhookHandlerDeps (X := X)) (user : str) : Prop :=
  forall check, checkAuthz deps = Some check ->
  forall i x, az_username i = user -> exists reason, check i x = (Ok (Denied reason), x).

(** The lookup of the bot's own login touches nothing. *)
Definition readsLogin {X} (deps : WebhookHandlerDeps (X := X)) : Prop :=
  forall getLogin, getBotLogin deps = Some getLogin -> forall x, (getLogin x).2 = x.

Section denied.
Context {X : Type} (deps : WebhookHandlerDeps (X := X)).
Context (b : EventBody) (Hdeny : denies deps (commandUser b)) (Hbot : readsLogin deps).

Lemma onExt_pure {A} (m : eff X thrown A) (w : World X) :
  (m (ext w)).2 = ext w -> (onExt m w).2 = w.
Proof. unfold onExt. destruct (m (ext w)) as [r x]. cbn. intros ->. by destruct w. Qed.

Lemma onExt_denied check i (w : World X) :
  checkAuthz deps = Some check -> az_username i = commandUser b ->
  exists reason, onExt (check i) w = (Ok (Denied reason), w).
Proof.
  intros H Hu. destruct (Hdeny check H i (ext w) Hu) as [reason E]. exists reason.
  unfold onExt. rewrite E. by destruct w.
Qed.

Lemma checkCommandAuthz_denied w : exists reason, checkCommandAuthz deps b w = (Ok (Denied reason), w).
Proof.
  unfold checkCommandAuthz.
  destruct (truthyStr (eb_owner b)), (truthyStr (eb_repo b)); try by eexists.
  remember (commandUser b) as u eqn:Hu in |- *. destruct u; [by eexists|].
  destruct (checkAuthz deps) eqn:E; [by apply onExt_denied|by eexists].
Qed.

Lemma inert_denied {A} (f : FeedbackAuthzResult -> eff (World X) thrown A) :
  (forall reason, within inert (f (Denied reason))) ->
  within inert (checkCommandAuthz deps b ≫= f).
Proof.
  intros Hf w. unfold mbind, eff_bind. destruct (checkCommandAuthz_denied w) as [reason ->].
  apply Hf.
Qed.

Lemma inert_feedback fb : within inert (handleFeedbackCommand deps fb b).
Proof.
  unfold handleFeedbackCommand. cbv zeta.
  assert (forall o n, within inert (countFeedback (X := X) (fb_kind fb) o;;
    mret (FeedbackCommandResult (fb_kind fb) o (fpPrefix fb) n))) as Ha by (intros o n w; done).
  destruct (prNumberOf b), (truthyStr (eb_owner b)), (truthyStr (eb_repo b)); try apply Ha.
  intros w. destruct (checkAuthz deps) as [check|] eqn:E; [|apply Ha].
  unfold mbind at 1, eff_bind at 1.
  match goal with |- context [check ?i] => destruct (onExt_denied check i w E eq_refl) as [reason ->] end.
  apply Ha.
Qed.

Lemma inert_slash slash : within inert (handleSlashCommand deps slash b).
Proof. apply inert_denied. intros reason. apply within_ret, inert_preorder. Qed.

Lemma inert_comment : within inert (handleComment deps b).
Proof.
  unfold handleComment. destruct (parseFeedbackCommand _); [apply inert_feedback|].
  destruct (parseSlashCommand _); [apply inert_slash|].
  destruct (parseCommand _) as [[|c command]|]; try (apply within_ret, inert_preorder).
  destruct (bool_decide _); [|apply within_ret, inert_preorder].
  apply inert_denied. intros reason. apply within_ret, inert_preorder.
Qed.

Lemma inert_reply c rootId handler : within inert (handleReply deps b c rootId handler).
Proof.
  unfold handleReply. do 2 (destruct (negb _); [apply within_ret, inert_preorder|]).
  destruct (eb_installationId b), (truthyStr (eb_owner b)), (truthyStr (eb_repo b)), (eb_prNumber b),
    (cm_id c); try (apply within_ret, inert_preorder).
  destruct (getBotLogin deps) as [getLogin|] eqn:E; [|apply within_ret, inert_preorder].
  apply within_bind; [apply inert_preorder| |].
  { intros w. rewrite (onExt_pure getLogin w) by by apply Hbot. reflexivity. }
  intros [|d login]; [apply within_ret, inert_preorder|]. cbv zeta.
  destruct (bool_decide _); [apply within_ret, inert_preorder|].
  apply inert_denied. intros reason. apply within_ret, inert_preorder.
Qed.

Lemma inert_event event :
  event ∈ [ev_issue_comment; ev_pull_request_review; ev_pull_request_review_comment] ->
  within inert (handleWebhook deps event b).
Proof.
  intros Hev. rewrite !elem_of_cons, elem_of_nil in Hev. destruct Hev as [->|[->|[->|[]]]]; cbn.
  - destruct (match eb_issue b with Some i => _ | None => _ end); [apply inert_comment|].
    apply within_ret, inert_preorder.
  - destruct (isDismissal b); [apply within_ret, inert_preorder|apply inert_comment].
  - unfold handleReviewComment. destruct (handleConversation deps), (eb_comment b) as [c|];
      try apply inert_comment.
    destruct (cm_inReplyTo c); [apply inert_reply|apply inert_comment].
Qed.
End denied.

(** ** Jobs on the queue *)

(** The jobs a comment or push may lead to: those of its own installation and pull request. *)
Definition jobOf (b : EventBody) (m : JobMessage) : Prop :=
  eb_installationId b ≫= (fun i => Some (showZ i)) = Some (jm_installationId m) /\
  eb_owner b = Some (jm_owner m) /\ eb_repo b = Some (jm_repo m) /\
  prNumberOf b = Some (jm_number m) /\ jm_number m <> 0%Z.

(** [m]'s new jobs, all of [P]. *)
Definition adds {X} (queue : X -> list JobMessage) (P : JobMessage -> Prop) (w w' : World X) : Prop :=
  exists jobs, queue (ext w') = queue (ext w) ++ jobs /\ Forall P jobs.

#[export] Instance adds_preorder {X} (queue : X -> list JobMessage) P : PreOrder (adds queue P).
Proof.
  split.
  - intros w. exists []. by rewrite app_nil_r.
  - intros a b c (j1 & E1 & F1) (j2 & E2 & F2). exists (j1 ++ j2).
    rewrite E2, E1, app_assoc. split; [done|]. by apply Forall_app.
Qed.

Lemma adds_onExt {X A} (queue : X -> list JobMessage) P (m : eff X thrown A) :
  (forall x, queue (m x).2 = queue x) -> within (adds queue P) (onExt m).
Proof.
  intros Hm w. exists []. rewrite app_nil_r. unfold onExt. specialize (Hm (ext w)).
  by destruct (m (ext w)) as [r x].
Qed.

(** An enqueue of a job of [P]. *)
Lemma adds_enqueue {X A} (queue : X -> list JobMessage) (P : JobMessage -> Prop) (m : eff X thrown A) job :
  (forall x, exists jobs, queue (m x).2 = queue x ++ jobs /\ Forall (eq job) jobs) -> P job ->
  within (adds queue P) (onExt m).
Proof.
  intros Hm Hp w. unfold onExt. destruct (Hm (ext w)) as (jobs & E & Hj).
  destruct (m (ext w)) as [r x]. exists jobs. split; [exact E|].
  eapply Forall_impl; [exact Hj|]. by intros ? <-.
Qed.

Lemma adds_idempotency {X R} (queue : X -> list JobMessage) P id (next : eff (World X) thrown (Response R)) :
  within (adds queue P) next -> within (adds queue P) (idempotency id next).
Proof.
  intros Hn. unfold idempotency. destruct (truthyStr id) as [d|]; [|apply within_ret, adds_preorder].
  intros w. unfold mbind at 1, eff_bind at 1. cbn [get].
  destruct (dbFault w); [cbn; reflexivity|]. case_bool_decide; [cbn; reflexivity|].
  unfold mbind, eff_bind. cbn [modify]. exact (Hn (addDelivery d w)).
Qed.

(** The input of the conversation handler is about the payload's own thread. *)
Definition replyOf (b : EventBody) (i : ConversationHandlerInput) : Prop :=
  eb_installationId b = Some (ch_installationId i) /\ eb_owner b = Some (ch_owner i) /\
  eb_repo b = Some (ch_repo i) /\ eb_prNumber b = Some (ch_prNumber i).

(** How the injected functions use the queue. The conversation handler is injected too, and may
    put messages on the queue for its reply: [replies i] says which, for the input [i]. *)
Record QueueContract {X} (queue : X -> list JobMessage) (replies : ConversationHandlerInput -> JobMessage -> Prop)
    (deps : WebhookHandlerDeps (X := X)) : Prop := {
  qc_enqueue : forall m x, exists jobs,
    queue (enqueue deps m x).2 = queue x ++ jobs /\ Forall (eq m) jobs;
  qc_authz : forall check, checkAuthz deps = Some check ->
    forall i x, queue (check i x).2 = queue x;
  qc_login : forall getLogin, getBotLogin deps = Some getLogin ->
    forall x, queue (getLogin x).2 = queue x;
  qc_reply : forall handler, handleConversation deps = Some handler ->
    forall i x, exists jobs, queue (handler i x).2 = queue x ++ jobs /\ Forall (replies i) jobs;
}.

(** The receiver's own jobs, and those of the conversation handler for a reply in the payload's
    thread. *)
Definition ownJob (replies : ConversationHandlerInput -> JobMessage -> Prop) (b : EventBody) (m : JobMessage) : Prop :=
  jobOf b m \/ exists i, replyOf b i /\ replies i m.

Lemma truthyNum_Some o n : truthyNum o = Some n -> o = Some n /\ n <> 0%Z.
Proof.
  destruct o as [k|]; cbn; [|done]. destruct (k =? 0)%Z eqn:E; [done|]. intros [= ->].
  apply Z.eqb_neq in E. done.
Qed.

Lemma buildJobMessage_fields {X} (deps : WebhookHandlerDeps (X := X)) b t scope m :
  buildJobMessageWithScope deps b t scope = Some m ->
  jobOf b m /\ triggeredBy m = t /\
  jm_jobId m = prIdText (jm_owner m) (jm_repo m) (jm_number m) ++ "@" ++ showZ (clock deps).
Proof.
  unfold buildJobMessageWithScope, jobOf.
  destruct (truthyNum (eb_installationId b)) as [i|] eqn:Ei; [|done].
  destruct (truthyStr (eb_owner b)) as [o|] eqn:Eo; [|done].
  destruct (truthyStr (eb_repo b)) as [r|] eqn:Er; [|done].
  destruct (truthyNum (prNumberOf b)) as [n|] eqn:En; [|done].
  cbn. intros [= <-]. cbn.
  apply truthyNum_Some in Ei as [-> ?], En as [-> ?]. apply truthyStr_Some in Eo as [-> ?], Er as [-> ?].
  done.
Qed.

Section jobs.
Context {X : Type} (deps : WebhookHandlerDeps (X := X)) (queue : X -> list JobMessage).
Context (replies : ConversationHandlerInput -> JobMessage -> Prop).
Context (HQ : QueueContract queue replies deps) (b : EventBody).
Notation silent m := (within (adds queue (ownJob replies b)) m).

Lemma silent_dbWrite f : (forall w : World X, ext (f w) = ext w) -> silent (dbWrite f).
Proof.
  intros Hf w. exists []. rewrite app_nil_r. unfold dbWrite.
  destruct (dbFault w); [done|]. cbn. by rewrite Hf.
Qed.

Lemma silent_enqueueOr t scope : silent (enqueueOr deps (buildJobMessageWithScope deps b t scope)).
Proof.
  unfold enqueueOr. destruct (buildJobMessageWithScope deps b t scope) as [m|] eqn:E;
    [|apply within_ret, adds_preorder].
  apply buildJobMessage_fields in E as (Hm & _).
  apply within_bind; [apply adds_preorder| |intros ?; apply within_ret, adds_preorder].
  eapply adds_enqueue; [apply (qc_enqueue _ _ _ HQ)|by left].
Qed.

Lemma silent_check check i : checkAuthz deps = Some check -> silent (onExt (check i)).
Proof. intros H. apply adds_onExt. by apply (qc_authz _ _ _ HQ). Qed.

Lemma silent_reply handler i :
  handleConversation deps = Some handler -> replyOf b i -> silent (onExt (handler i)).
Proof.
  intros H Hi w. unfold onExt. destruct (qc_reply _ _ _ HQ handler H i (ext w)) as (jobs & E & Hj).
  destruct (handler i (ext w)) as [r x]. exists jobs. split; [exact E|].
  eapply Forall_impl; [exact Hj|]. intros m Hm. right. by exists i.
Qed.

Lemma replyOf_fields i :
  eb_installationId b = Some (ch_installationId i) -> truthyStr (eb_owner b) = Some (ch_owner i) ->
  truthyStr (eb_repo b) = Some (ch_repo i) -> eb_prNumber b = Some (ch_prNumber i) -> replyOf b i.
Proof. by intros ? [? _]%truthyStr_Some [? _]%truthyStr_Some ?. Qed.

Ltac silent_step :=
  match goal with
  | |- within _ (_ ≫= _) => apply within_bind; [| |intros ?]
  | |- within _ (mret _) => apply within_ret
  | |- within _ (enqueueOr _ _) => apply silent_enqueueOr
  | |- within _ (dbWrite _) => apply silent_dbWrite; by intros w
  | |- within _ (readReviewStateRow _ _) => intros w; exists []; by rewrite app_nil_r
  | |- within _ (countFeedback _ _) => intros w; exists []; by rewrite app_nil_r
  | H : checkAuthz deps = Some ?c |- within _ (onExt (?c _)) => by apply silent_check
  | H : handleConversation deps = Some ?c |- within _ (onExt (?c _)) =>
      apply silent_reply; [done|by apply replyOf_fields]
  | H : getBotLogin deps = Some ?c |- within _ (onExt ?c) =>
      apply adds_onExt; by apply (qc_login _ _ _ HQ)
  | |- within _ (if ?x then _ else _) => destruct x eqn:?
  | |- within _ (match ?x with _ => _ end) => destruct x eqn:?
  | |- PreOrder _ => apply adds_preorder
  end.

Lemma silent_authz : silent (checkCommandAuthz deps b).
Proof. unfold checkCommandAuthz. repeat silent_step. Qed.

Lemma silent_debounce : silent (checkDebounce deps b).
Proof. unfold checkDebounce. repeat silent_step. Qed.

Lemma silent_comment : silent (handleComment deps b).
Proof.
  pose proof silent_authz. pose proof silent_debounce.
  unfold handleComment, handleFeedbackCommand, handleSlashCommand, reviewCommand, setPaused.
  cbv zeta. repeat first [done | silent_step].
Qed.

Lemma silent_event event : silent (handleWebhook deps event b).
Proof.
  pose proof silent_authz. pose proof silent_comment.
  unfold handleWebhook, handleInstallationEvent, handlePullRequest, handleLabeled, isPaused,
    handleReviewComment, handleReply, buildJobMessage.
  cbv zeta. repeat first [done | silent_step].
Qed.
End jobs.

(** ** Properties *)

Definition commentEvents : list EventName :=
  [ev_issue_comment; ev_pull_request_review; ev_pull_request_review_comment].

(** *** A server to try things on

    The world outside is the queue; mallory has no write access. *)

Definition demoAuthz (i : GithubAuthzInput) : eff (list JobMessage) thrown FeedbackAuthzResult :=
  mret (if bool_decide (az_username i = "mallory") then Denied "permission 'read' is below write"
        else Allowed).

Definition demoServer : WebhookHandlerDeps (X := list JobMessage) :=
  {| enqueue m := fun q => (Ok (js "m1"), q ++ [m]); clock := 60000; toISOString := fun _ => js "1970-01-01T00:01:00.000Z";
     checkAuthz := Some demoAuthz; handleConversation := None; getBotLogin := Some (mret (js "bot"));
     hasDb := true; triggerConfig := None; debounceMs := None |}.

Definition demoComment (user text : str) : EventBody :=
  {| eb_action := Some (js "created"); eb_installationId := Some 7%Z; eb_appId := None;
     eb_accountLogin := None; eb_accountType := None; eb_prNumber := None; eb_draft := false;
     eb_headSha := None; eb_title := None; eb_prBody := None; eb_labels := []; eb_owner := Some (js "acme");
     eb_repo := Some (js "shop"); eb_label := None;
     eb_comment := Some {| cm_body := Some text; cm_user := Some user; cm_id := Some 5%Z;
                           cm_inReplyTo := None; cm_diffHunk := None |};
     eb_sender := Some user; eb_issue := Some {| is_pullRequest := true; is_number := Some 3%Z |};
     eb_reviewId := None; eb_reaction := None |}.

Definition demoPush : EventBody :=
  {| eb_action := Some (js "synchronize"); eb_installationId := Some 7%Z; eb_appId := None;
     eb_accountLogin := None; eb_accountType := None; eb_prNumber := Some 3%Z; eb_draft := false;
     eb_headSha := Some (js "0123456789"); eb_title := Some (js "fix"); eb_prBody := None; eb_labels := [];
     eb_owner := Some (js "acme"); eb_repo := Some (js "shop"); eb_label := None; eb_comment := None;
     eb_sender := Some (js "alice"); eb_issue := None; eb_reviewId := None; eb_reaction := None |}.

Definition demoPr : Z * str := (7%Z, js "acme/shop#3").

Definition demoWorld : World (list JobMessage) :=
  {| reviewStates := {[ demoPr := {| rs_updatedAt := 0; paused := false |} ]};
     installations := ∅; deliveries := ∅; feedbackCommandTotal := []; dbFault := None; ext := [] |}.

(** C4. A comment of someone the permission check denies changes nothing: no pause flag, no
    installation, no message on the queue, no reply (nothing of the world outside is touched); at
    most the counter of feedback commands moves. The same holds when no check is wired. *)
Theorem commands_need_write_access {X} (deps : WebhookHandlerDeps (X := X)) event b w :
  denies deps (commandUser b) -> readsLogin deps ->
  event ∈ commentEvents ->
  let w' := (handleWebhook deps event b w).2 in
  reviewStates w' = reviewStates w /\ installations w' = installations w /\
  deliveries w' = deliveries w /\ dbFault w' = dbFault w /\ ext w' = ext w.
Proof.
  intros Hd Hb Hev. by apply (inert_event deps b Hd Hb event).
Qed.

Lemma commands_need_write_access_witness :
  let w' := (handleWebhook demoServer ev_issue_comment (demoComment "mallory" "/skip") demoWorld).2 in
  reviewStates w' = reviewStates demoWorld /\ installations w' = installations demoWorld /\
  deliveries w' = deliveries demoWorld /\ dbFault w' = dbFault demoWorld /\ ext w' = ext demoWorld.
Proof.
  apply (commands_need_write_access demoServer ev_issue_comment).
  - intros check [= <-] i x Hu. unfold demoAuthz. rewrite Hu. by eexists.
  - by intros getLogin [= <-] x.
  - left.
Defined.

(** C20. Whatever the event, the jobs it puts on the queue are jobs of the payload's own
    installation, repository and pull request, or messages the injected conversation handler
    enqueues for an input that names just these: no payload reaches another tenant's queue by way
    of the receiver. *)
Theorem jobs_are_the_payloads_own {X} (deps : WebhookHandlerDeps (X := X)) queue replies event b w :
  QueueContract queue replies deps ->
  exists jobs, queue (ext (handleWebhook deps event b w).2) = queue (ext w) ++ jobs /\
    Forall (ownJob replies b) jobs.
Proof. intros HQ. apply (silent_event deps queue replies HQ b event w). Qed.

(** A server whose conversation handler enqueues a job of its own for every reply. *)
Definition replyJob (i : ConversationHandlerInput) : JobMessage :=
  {| jm_jobId := prIdText (ch_owner i) (ch_repo i) (ch_prNumber i) ++ "@reply";
     jm_installationId := showZ (ch_installationId i); jm_platform := github; jm_owner := ch_owner i;
     jm_repo := ch_repo i; jm_number := ch_prNumber i; jm_headSha := None; triggeredBy := js "conversation";
     enqueuedAt := js "1970-01-01T00:01:00.000Z"; pathScope := None |}.

Definition talkingServer : WebhookHandlerDeps (X := list JobMessage) :=
  {| enqueue := enqueue demoServer; clock := 60000; toISOString := toISOString demoServer;
     checkAuthz := Some demoAuthz;
     handleConversation := Some (fun i q => (Ok dispatched, q ++ [replyJob i]));
     getBotLogin := Some (mret (js "bot")); hasDb := true; triggerConfig := None; debounceMs := None |}.

Definition demoReply : EventBody :=
  {| eb_action := Some (js "created"); eb_installationId := Some 7%Z; eb_appId := None;
     eb_accountLogin := None; eb_accountType := None; eb_prNumber := Some 3%Z; eb_draft := false;
     eb_headSha := None; eb_title := None; eb_prBody := None; eb_labels := []; eb_owner := Some (js "acme");
     eb_repo := Some (js "shop"); eb_label := None;
     eb_comment := Some {| cm_body := Some (js "@review-agent why?"); cm_user := Some (js "alice");
                           cm_id := Some 6%Z; cm_inReplyTo := Some 5%Z; cm_diffHunk := None |};
     eb_sender := Some (js "alice"); eb_issue := None; eb_reviewId := None; eb_reaction := None |}.

Lemma talkingContract : QueueContract (fun q => q) (fun i m => m = replyJob i) talkingServer.
Proof.
  split; [intros m x; by exists [m]; repeat constructor|..].
  - by intros check [= <-] i x.
  - by intros getLogin [= <-] x.
  - intros handler [= <-] i x. exists [replyJob i]. split; [done|by constructor].
Qed.

Lemma jobs_are_the_payloads_own_witness :
  let run event b := ext (handleWebhook talkingServer event b demoWorld).2 in
  (exists jobs, run ev_pull_request demoPush = [] ++ jobs /\ length jobs = 1 /\
     Forall (ownJob (fun i m => m = replyJob i) demoPush) jobs) /\
  (exists jobs, run ev_pull_request_review_comment demoReply = [] ++ jobs /\ length jobs = 1 /\
     Forall (ownJob (fun i m => m = replyJob i) demoReply) jobs).
Proof.
  split.
  - destruct (jobs_are_the_payloads_own _ _ _ ev_pull_request demoPush demoWorld talkingContract)
      as (jobs & E & H). exists jobs. split_and!; [exact E| |exact H].
    apply (f_equal length) in E. vm_compute in E. by symmetry.
  - destruct (jobs_are_the_payloads_own _ _ _ ev_pull_request_review_comment demoReply demoWorld talkingContract)
      as (jobs & E & H). exists jobs. split_and!; [exact E| |exact H].
    apply (f_equal length) in E. vm_compute in E. by symmetry.
Defined.

(** A request without the signature of its body under the secret is answered 401 and leaves the
    whole world as it was. *)
Theorem unsigned_requests_do_nothing {X} (deps : WebhookHandlerDeps (X := X)) hmacHex parseJSON
    secret r w :
  rq_signature r <> Some ("sha256=" ++ hmacHex secret (rq_raw r)) ->
  postWebhook deps hmacHex parseJSON secret r w = (Ok Unauthorized401, w).
Proof.
  intros Hs. unfold postWebhook, verifyGithubSignature.
  destruct (truthyStr (rq_signature r)) as [sig|] eqn:E; [|done].
  apply truthyStr_Some in E as [E _]. rewrite bool_decide_eq_false_2; [done|].
  intros ->. by apply Hs.
Qed.

Definition demoHmac (secret raw : str) : str := secret ++ raw.
Definition demoParse (raw : str) : option EventBody :=
  if bool_decide (raw = "push") then Some demoPush else None.
Definition demoRequest (sig : option str) : Request :=
  {| rq_signature := sig; rq_deliveryId := Some (js "d1"); rq_event := ev_pull_request; rq_raw := js "push" |}.

Lemma unsigned_requests_do_nothing_witness :
  postWebhook demoServer demoHmac demoParse "k" (demoRequest (Some (js "sha256=push"))) demoWorld
  = (Ok Unauthorized401, demoWorld).
Proof. apply unsigned_requests_do_nothing. intros H. vm_compute in H. discriminate H. Defined.

Lemma idempotency_run {X R} id (next : eff (World X) thrown (Response R)) w :
  id <> [] -> dbFault w = None ->
  idempotency (Some id) next w
  = if bool_decide (id ∈ deliveries w) then (Ok Deduped200, w) else next (addDelivery id w).
Proof.
  intros Hne Hdb. unfold idempotency. rewrite truthyStr_ne by done.
  unfold mbind, eff_bind. cbn [get modify]. rewrite Hdb. by case_bool_decide.
Qed.

(** What may happen between two requests of one delivery: other requests, of any content and at
    any time; changes of everything but the deliveries (the other tables, the queue, the health of
    the database); and ticks of the cleanup, which delete old deliveries ([gone]) but not [id]. *)
Inductive laterStep {X} (id : str) (w : World X) : World X -> Prop :=
  | step_request deps hmacHex parseJSON secret r :
      laterStep id w (postWebhook deps hmacHex parseJSON secret r w).2
  | step_outside states inst count fault x :
      laterStep id w (Build_World states inst (deliveries w) count fault x)
  | step_cleanup gone : id ∉ gone ->
      laterStep id w (Build_World (reviewStates w) (installations w) (deliveries w ∖ gone)
        (feedbackCommandTotal w) (dbFault w) (ext w)).

Lemma postWebhook_deliveries {X} (deps : WebhookHandlerDeps (X := X)) hmacHex parseJSON secret r w :
  deliveries w ⊆ deliveries (postWebhook deps hmacHex parseJSON secret r w).2.
Proof.
  unfold postWebhook, idempotency. destruct (verifyGithubSignature _ _ _ _) as [|body]; [done|].
  destruct (truthyStr (rq_deliveryId r)) as [d|]; [|done].
  unfold mbind, eff_bind. cbn [get modify]. destruct (dbFault w); [done|]. case_bool_decide; [done|].
  destruct (keeps_handleWebhook deps (rq_event r) body (addDelivery d w)) as [Hk _].
  destruct (handleWebhook _ _ _ _) as [[res|e] w2]; cbn in *; rewrite Hk; set_solver.
Qed.

Lemma later_deliveries {X} id (w w' : World X) :
  rtc (laterStep id) w w' -> id ∈ deliveries w -> id ∈ deliveries w'.
Proof.
  induction 1 as [|w1 w2 w3 Hs _ IH]; [done|]. intros Hin. apply IH. destruct Hs as [| |gone Hg]; cbn.
  - by apply postWebhook_deliveries.
  - done.
  - set_solver.
Qed.

(** C12. A signed request with a delivery id that is not recorded runs the handler, once the id is
    recorded. From then on, as long as the cleanup leaves the id in the table, whatever other
    requests, failures of the database and changes of the rest of the world come between, every
    signed request with the same id is answered [Deduped200], or with the database's error while
    it is down, and changes nothing, however the first one ended: a delivery whose handler threw
    is not run again when GitHub redelivers it. *)
Theorem delivery_runs_once {X} (deps : WebhookHandlerDeps (X := X)) hmacHex parseJSON secret
    r id body w w2 :
  verifyGithubSignature hmacHex parseJSON secret r = inr body ->
  rq_deliveryId r = Some id -> id <> [] -> dbFault w = None ->
  let post := postWebhook deps hmacHex parseJSON secret in
  (id ∉ deliveries w ->
     post r w = (result ← handleWebhook deps (rq_event r) body; mret (Result200 result)) (addDelivery id w)) /\
  (rtc (laterStep id) (post r w).2 w2 ->
   forall deps' r' body', verifyGithubSignature hmacHex parseJSON secret r' = inr body' ->
     rq_deliveryId r' = Some id ->
     postWebhook deps' hmacHex parseJSON secret r' w2 =
       (match dbFault w2 with None => Ok Deduped200 | Some e => Throw e end, w2)).
Proof.
  intros Hv Hid Hne Hdb post. split.
  { intros Hin. subst post. unfold postWebhook. rewrite Hv, Hid, (idempotency_run id) by done.
    by rewrite bool_decide_eq_false_2. }
  intros Hl deps' r' body' Hv' Hid'.
  assert (id ∈ deliveries w2) as Hin.
  { apply (later_deliveries _ _ _ Hl). subst post. unfold postWebhook.
    rewrite Hv, Hid, (idempotency_run id) by done. case_bool_decide; [done|].
    unfold mbind, eff_bind.
    destruct (keeps_handleWebhook deps (rq_event r) body (addDelivery id w)) as [Hk Hf].
    destruct (handleWebhook deps (rq_event r) body (addDelivery id w)) as [[res|e] w3];
      cbn in *; rewrite Hk; apply elem_of_union_l, elem_of_singleton_2; done. }
  clear Hl. unfold postWebhook, idempotency. rewrite Hv', Hid', truthyStr_ne by done.
  unfold mbind, eff_bind. cbn [get]. destruct (dbFault w2); [done|]. by rewrite bool_decide_eq_true_2.
Qed.

(** The queue is down at the first delivery. *)
Definition brokenServer : WebhookHandlerDeps (X := list JobMessage) :=
  {| enqueue m := throw (StringValue "SQS unavailable"); clock := 60000;
     toISOString := toISOString demoServer; checkAuthz := None; handleConversation := None;
     getBotLogin := None; hasDb := true; triggerConfig := None; debounceMs := None |}.

(** The redelivery after an unsigned request, with the database down and up again. *)
Lemma delivery_runs_once_witness :
  let post := postWebhook brokenServer demoHmac demoParse "k" in
  let push := demoRequest (Some (js "sha256=kpush")) in
  let w1 := (post push demoWorld).2 in
  let w2 := (post (demoRequest None) w1).2 in
  let down := Build_World (reviewStates w2) (installations w2) (deliveries w2) (feedbackCommandTotal w2)
                (Some (StringValue "down")) (ext w2) in
  (exists e, (post push demoWorld).1 = Throw e) /\ post push w2 = (Ok Deduped200, w2) /\
  post push down = (Throw (StringValue "down"), down) /\ ext w2 = [].
Proof.
  cbv zeta. split_and!; [by eexists| | |reflexivity].
  - eapply (delivery_runs_once brokenServer demoHmac demoParse "k"
      (demoRequest (Some (js "sha256=kpush"))) "d1" demoPush demoWorld);
      [reflexivity|reflexivity|done|reflexivity| |reflexivity|reflexivity].
    apply rtc_once, step_request.
  - eapply (delivery_runs_once brokenServer demoHmac demoParse "k"
      (demoRequest (Some (js "sha256=kpush"))) "d1" demoPush demoWorld);
      [reflexivity|reflexivity|done|reflexivity| |reflexivity|reflexivity].
    eapply rtc_l; [apply step_request|]. apply rtc_once, step_outside.
Defined.

(** *** Pausing *)

(** A push payload of pull request [n] of [owner/repo] in installation [i]. *)
Record pushOf (i : Z) (owner repo : str) (n : Z) (b : EventBody) : Prop := {
  po_installation : eb_installationId b = Some i;
  po_owner : eb_owner b = Some owner;
  po_repo : eb_repo b = Some repo;
  po_number : eb_prNumber b = Some n;
  po_action : exists a, eb_action b = Some a /\ a ∈ PUSH_TRIGGERED_ACTIONS;
  po_draft : eb_draft b = false;
}.

(** A comment on it with a slash command, of a commenter the check allows. *)
Record commandOf {X} (deps : WebhookHandlerDeps (X := X)) (i : Z) (owner repo : str) (n : Z)
    (cmd : SlashCommand) (b : EventBody) (w : World X) : Prop := {
  co_installation : eb_installationId b = Some i;
  co_pr : buildPrId b = Some (prIdText owner repo n);
  co_issue : exists issue, eb_issue b = Some issue /\ is_pullRequest issue = true;
  co_notFeedback : parseFeedbackCommand (commentText b) = None;
  co_command : parseSlashCommand (commentText b) = Some cmd;
  co_allowed : checkCommandAuthz deps b w = (Ok Allowed, w);
}.

Section pause.
Context {X : Type} (deps : WebhookHandlerDeps (X := X)).
Context (i : Z) (owner repo : str) (n : Z).
Context (Howner : owner <> []) (Hrepo : repo <> []) (Hn : n <> 0%Z) (Hdb : hasDb deps = true).
Notation key := (i, prIdText owner repo n).

Lemma command_runs cmd b w :
  commandOf deps i owner repo n cmd b w ->
  handleWebhook deps ev_issue_comment b w
  = match cmd with
    | SlashSkip => (setPaused deps true b;; mret (Noop "PR paused (skip)")) w
    | SlashResume => (setPaused deps false b;; mret (Noop "PR resumed")) w
    | SlashReview scope => reviewCommand deps b scope w
    end.
Proof.
  intros [? ? (issue & Hi & Hpr) Hf Hs Ha]. cbn [handleWebhook]. rewrite Hi, Hpr.
  unfold handleComment. rewrite Hf, Hs. unfold handleSlashCommand, mbind at 1, eff_bind at 1.
  rewrite Ha. by destruct cmd.
Qed.

Lemma setPaused_run v b w :
  eb_installationId b = Some i -> buildPrId b = Some (prIdText owner repo n) -> dbFault w = None ->
  setPaused deps v b w
  = (Ok tt, setReviewStates (alter (fun _ => {| rs_updatedAt := clock deps; paused := v |})
              key (reviewStates w)) w).
Proof. intros Hi Hp Hf. unfold setPaused. rewrite Hdb, Hi, Hp. unfold dbWrite. by rewrite Hf. Qed.

(** Whether a push is stopped is the row's flag. *)
Lemma isPaused_run b w :
  pushOf i owner repo n b -> dbFault w = None ->
  isPaused deps b w = (Ok match reviewStates w !! key with Some r => paused r | None => false end, w).
Proof.
  intros [Hi Ho Hr Hnum _ _] Hf. unfold isPaused. rewrite Hdb, Hi, Ho, Hr, Hnum.
  rewrite !truthyStr_ne by done. cbn [truthyNum]. apply Z.eqb_neq in Hn. rewrite Hn.
  unfold readReviewStateRow, mbind, eff_bind. by rewrite Hf.
Qed.

Lemma push_run b w :
  pushOf i owner repo n b -> carriesMarker b = false -> carriesSkipLabel deps b = false ->
  dbFault w = None ->
  exists a, a ∈ PUSH_TRIGGERED_ACTIONS /\
  handleWebhook deps ev_pull_request b w
  = if match reviewStates w !! key with Some r => paused r | None => false end
    then (Ok (Ignored "PR is paused (skip)"), w)
    else enqueueOr deps (buildJobMessage deps b ("pull_request." ++ a)) w.
Proof.
  intros Hp Hm Hl Hf. pose proof (isPaused_run b w Hp Hf) as Hrun.
  destruct Hp as [_ _ _ _ (a & Ha & Hin) Hd]. exists a. split; [done|]. cbn [handleWebhook].
  unfold handlePullRequest. rewrite Ha.
  assert (truthyStr (Some a) = Some a /\ bool_decide (a = "labeled") = false /\
    isAction ENQUEUE_PR_ACTIONS a = true /\ isAction PUSH_TRIGGERED_ACTIONS a = true)
    as (-> & -> & -> & ->).
  { revert Hin. unfold PUSH_TRIGGERED_ACTIONS. rewrite !elem_of_cons, elem_of_nil.
    by intros [->|[->|[->|[]]]]. }
  cbn [negb]. rewrite Hd, Hm, Hl. cbn [andb]. unfold mbind, eff_bind. rewrite Hrun.
  by destruct (reviewStates w !! key) as [[u []]|].
Qed.
End pause.

(** [/skip] and [/resume] of a permitted commenter on a pull request that has been reviewed
    before: after [/skip] a push is ignored and changes nothing; after [/resume] it is enqueued
    again. On a pull request without a row both answer as if they had worked and change nothing:
    the next push is enqueued as before. *)
Theorem pause_lifecycle {X} (deps : WebhookHandlerDeps (X := X)) i owner repo n cmd comment push w :
  owner <> [] -> repo <> [] -> n <> 0%Z -> hasDb deps = true -> dbFault w = None ->
  cmd = SlashSkip \/ cmd = SlashResume ->
  commandOf deps i owner repo n cmd comment w ->
  pushOf i owner repo n push -> carriesMarker push = false -> carriesSkipLabel deps push = false ->
  let run := handleWebhook deps ev_issue_comment comment w in
  run.1 = Ok (Noop (if cmd is SlashSkip then "PR paused (skip)" else "PR resumed" : str)) /\
  (forall row, reviewStates w !! (i, prIdText owner repo n) = Some row ->
     if cmd is SlashSkip
     then handleWebhook deps ev_pull_request push run.2 = (Ok (Ignored "PR is paused (skip)"), run.2)
     else exists a, a ∈ PUSH_TRIGGERED_ACTIONS /\
       handleWebhook deps ev_pull_request push run.2
       = enqueueOr deps (buildJobMessage deps push ("pull_request." ++ a)) run.2) /\
  (reviewStates w !! (i, prIdText owner repo n) = None -> reviewStates run.2 = reviewStates w).
Proof.
  intros Ho Hr Hn Hdb Hf Hcmd Hc Hp Hm Hl run.
  assert (exists v, (v = if cmd is SlashSkip then true else false) /\
    run = (Ok (Noop (if cmd is SlashSkip then "PR paused (skip)" else "PR resumed" : str)),
      setReviewStates (alter (fun _ => {| rs_updatedAt := clock deps; paused := v |})
        (i, prIdText owner repo n) (reviewStates w)) w)) as (v & Hv & ->).
  { eexists. split; [reflexivity|]. subst run. rewrite (command_runs deps i owner repo n cmd) by done.
    destruct Hc as [Hi Hpr _ _ _ _].
    destruct Hcmd as [->| ->]; unfold mbind, eff_bind;
      by rewrite (setPaused_run deps i owner repo n Hdb _ comment w Hi Hpr Hf). }
  cbn [fst snd]. split; [done|]. split.
  - intros row Hrow.
    destruct (push_run deps i owner repo n Ho Hr Hn Hdb push
      (setReviewStates (alter (fun _ => {| rs_updatedAt := clock deps; paused := v |})
        (i, prIdText owner repo n) (reviewStates w)) w) Hp Hm Hl Hf) as (a & Ha & E).
    cbn [reviewStates setReviewStates] in E. rewrite lookup_alter_eq, Hrow in E.
    cbn [fmap option_fmap option_map paused] in E.
    destruct Hcmd as [->| ->]; subst v; [exact E|exists a; split; [done|exact E]].
  - intros Hrow. cbn. apply map_eq. intros j. destruct (decide (j = (i, prIdText owner repo n))) as [->|Hj].
    + by rewrite lookup_alter_eq, Hrow.
    + by rewrite lookup_alter_ne.
Qed.

Lemma demoPush_of : pushOf 7 "acme" "shop" 3 demoPush.
Proof. split; try reflexivity. exists (js "synchronize"). split; [done|]. right. left. Qed.

Lemma pause_lifecycle_witness :
  let run := handleWebhook demoServer ev_issue_comment (demoComment "alice" "please /skip") demoWorld in
  run.1 = Ok (Noop "PR paused (skip)") /\
  handleWebhook demoServer ev_pull_request demoPush run.2 = (Ok (Ignored "PR is paused (skip)"), run.2) /\
  (exists m, (handleWebhook demoServer ev_pull_request demoPush demoWorld).1 = Ok (Enqueued m)).
Proof.
  destruct (pause_lifecycle demoServer 7 "acme" "shop" 3 SlashSkip
    (demoComment "alice" "please /skip") demoPush demoWorld) as (H1 & H2 & _);
    try done; try exact demoPush_of; [by left|split; try reflexivity; by eexists|].
  cbv zeta. split_and!; [exact H1|by eapply H2|by eexists].
Defined.

(** *** Installations *)

(** An installation event touches the row of its own installation only, and sets it as its action
    says: created and unsuspend (re)write it as active, suspend marks the row that is there,
    deleted removes it, any other action leaves the table as it was. *)
Theorem installation_lifecycle {X} (deps : WebhookHandlerDeps (X := X)) b w i :
  eb_installationId b = Some i -> hasDb deps = true -> dbFault w = None ->
  let '(r, w') := handleWebhook deps ev_installation b w in
  let before := installations w in
  let after := installations w' in
  (forall j, j <> i -> after !! j = before !! j) /\
  (match r with
   | Ok (Installation a j) => j = i /\
       ((a = "created" \/ a = "unsuspend") /\
          (exists row, after !! i = Some row /\ ins_suspendedAt row = None /\
             Some (ins_appId row) = eb_appId b /\ Some (ins_accountLogin row) = eb_accountLogin b)
        \/ (a = "suspend" /\
          (before !! i = None -> after !! i = None) /\
          (forall row, before !! i = Some row -> exists row', after !! i = Some row' /\
             ins_suspendedAt row' = Some (clock deps) /\ ins_accountLogin row' = ins_accountLogin row))
        \/ (a = "deleted" /\ after !! i = None))
   | _ => after = before
   end) /\
  reviewStates w' = reviewStates w /\ deliveries w' = deliveries w /\ ext w' = ext w.
Proof.
  intros Hi Hdb Hf. cbn [handleWebhook]. rewrite Hdb. unfold handleInstallationEvent. rewrite Hi.
  cbv zeta. set (a := default [] (eb_action b)).
  destruct (bool_decide (a = "created") || bool_decide (a = "unsuspend")) eqn:E1.
  - destruct (eb_appId b) as [app|], (eb_accountLogin b) as [login|], (eb_accountType b) as [ty|]; try done.
    unfold dbWrite, mbind, eff_bind. rewrite Hf. cbn. split_and!; try done.
    + intros j Hj. by rewrite lookup_insert_ne.
    + left. split; [to_prop; destruct E1; to_prop; [by left|by right]|].
      eexists. by rewrite lookup_insert_eq.
  - destruct (bool_decide (a = "suspend")) eqn:E2; [|destruct (bool_decide (a = "deleted")) eqn:E3]; to_prop.
    + unfold dbWrite, mbind, eff_bind. rewrite Hf. cbn. split_and!; try done.
      * intros j Hj. by rewrite lookup_alter_ne.
      * right. left. split_and!; [done|intros Hrow|intros row Hrow]; rewrite lookup_alter_eq, Hrow; [done|].
        by eexists.
    + unfold dbWrite, mbind, eff_bind. rewrite Hf. cbn. split_and!; try done.
      * intros j Hj. by rewrite lookup_delete_ne.
      * right. right. by rewrite lookup_delete_eq.
    + done.
Qed.

Lemma installation_lifecycle_witness :
  let w := setInstallations {[ 8%Z := {| ins_appId := 1; ins_accountLogin := js "other";
    ins_accountType := js "User"; ins_setupAction := js "install"; ins_suspendedAt := None;
    ins_updatedAt := 0 |} ]} demoWorld in
  let b := {| eb_action := Some (js "deleted"); eb_installationId := Some 7%Z; eb_appId := None;
     eb_accountLogin := None; eb_accountType := None; eb_prNumber := None; eb_draft := false;
     eb_headSha := None; eb_title := None; eb_prBody := None; eb_labels := []; eb_owner := None;
     eb_repo := None; eb_label := None; eb_comment := None; eb_sender := None; eb_issue := None;
     eb_reviewId := None; eb_reaction := None |} in
  installations (handleWebhook demoServer ev_installation b w).2 !! 8%Z = installations w !! 8%Z.
Proof. intros w b. by apply (installation_lifecycle demoServer b w 7). Defined.

(** *** Job identifiers *)

(** A job of an owner and repository whose names are together at least 126 characters long fails
    the queue's own schema, for the length of the identifier the receiver builds, although the
    schema allows each name 200 characters: the enqueue throws and sends nothing. *)
Theorem long_names_are_refused {X} (deps : WebhookHandlerDeps (X := X)) isDatetime zodError send
    b trigger scope m (x : X) :
  buildJobMessageWithScope deps b trigger scope = Some m ->
  (126 <= Zlen (jm_owner m) + Zlen (jm_repo m))%Z ->
  sqsEnqueue isDatetime zodError send m x = (Throw zodError, x).
Proof.
  intros Hm Hlen. apply buildJobMessage_fields in Hm as (_ & _ & Hid).
  unfold sqsEnqueue, JobMessageSchema, lengthBetween at 1.
  assert (128 < Zlen (jm_jobId m))%Z as Hgt.
  { rewrite Hid. unfold prIdText, Zlen in *. rewrite !length_app. cbn. lia. }
  assert ((Zlen (jm_jobId m) <=? 128)%Z = false) as -> by (by apply Z.leb_gt).
  by rewrite andb_false_r.
Qed.

(** An owner of 39 and a repository of 100 characters, the longest names GitHub allows. *)
Definition longMessage : JobMessage :=
  {| jm_jobId := prIdText (replicate 39 "a"%char) (replicate 100 "b"%char) 3 ++ "@" ++ showZ 60000;
     jm_installationId := showZ 7; jm_platform := github; jm_owner := replicate 39 "a"%char; jm_repo := replicate 100 "b"%char;
     jm_number := 3; jm_headSha := None; triggeredBy := js "pull_request.opened";
     enqueuedAt := js "1970-01-01T00:01:00.000Z"; pathScope := None |}.

Definition longPush : EventBody :=
  {| eb_action := Some (js "opened"); eb_installationId := Some 7%Z; eb_appId := None;
     eb_accountLogin := None; eb_accountType := None; eb_prNumber := Some 3%Z; eb_draft := false;
     eb_headSha := None; eb_title := None; eb_prBody := None; eb_labels := [];
     eb_owner := Some (replicate 39 "a"%char); eb_repo := Some (replicate 100 "b"%char); eb_label := None;
     eb_comment := None; eb_sender := None; eb_issue := None; eb_reviewId := None; eb_reaction := None |}.

Lemma long_names_are_refused_witness :
  sqsEnqueue (S := list JobMessage) (fun _ => true) (StringValue "ZodError")
    (fun m q => (Ok (js "m1"), q ++ [m])) longMessage [] = (Throw (StringValue "ZodError"), []).
Proof.
  apply (long_names_are_refused demoServer _ _ _ longPush "pull_request.opened" None); [reflexivity|].
  vm_compute. discriminate.
Defined.
