(* ===== verification/Sns.v ===== *)
(** * SNS signatures (server/src/middleware/verify-sns-signature.ts)

    The canonical text of a message, the certificate cache (a JavaScript [Map], oldest entry
    first), the verification and the middleware. The specification
    of the cache is an unbounded history of fetched certificates, which the cache refines under
    every interleaving of requests. *)

From S2P Require Import Prelude JsNumber JsMap JsonTree Errors.

(** ** Messages *)

Inductive SnsMessageType := Notification | SubscriptionConfirmation | UnsubscribeConfirmation.

#[export] Instance SnsMessageType_eq : EqDecision SnsMessageType.
Proof. solve_decision. Defined.

Definition typeText (t : SnsMessageType) : str :=
  match t with
  | Notification => "Notification"
  | SubscriptionConfirmation => "SubscriptionConfirmation"
  | UnsubscribeConfirmation => "UnsubscribeConfirmation"
  end.

(** The four optional members are not checked by the middleware: any JSON value may stand there. *)
Record SnsMessage := {
  sns_Type : SnsMessageType;
  MessageId : str;
  TopicArn : str;
  Timestamp : str;
  Signature : str;
  SignatureVersion : str;
  SigningCertURL : str;
  Message : option json;
  Subject : option json;
  Token : option json;
  SubscribeURL : option json;
}.

(** An entry of the certificate cache; the cache is a map from URLs in insertion order. *)
Record CertCacheEntry := { pem : str; expiresAt : Z }.

Abbreviation certMap := (jsmap CertCacheEntry).

Section sns.
(** [String(v)] on numbers, arrays and objects. *)
Context (ToString : json -> str).

Definition StringOf (v : json) : str :=
  match v with
  | JStr s => s
  | JNull => "null"
  | JBool true => "true"
  | JBool false => "false"
  | _ => ToString v
  end.

(** ** The canonical text *)

Inductive SnsKey := kMessage | kMessageId | kSubject | kSubscribeURL | kTimestamp | kToken | kTopicArn | kType.

#[export] Instance SnsKey_eq : EqDecision SnsKey.
Proof. solve_decision. Defined.

Definition keyText (k : SnsKey) : str :=
  match k with
  | kMessage => "Message"
  | kMessageId => "MessageId"
  | kSubject => "Subject"
  | kSubscribeURL => "SubscribeURL"
  | kTimestamp => "Timestamp"
  | kToken => "Token"
  | kTopicArn => "TopicArn"
  | kType => "Type"
  end.

(** [String(msg[k])], unless [msg[k]] is undefined. *)
Definition snsField (m : SnsMessage) (k : SnsKey) : option str :=
  match k with
  | kMessage => StringOf <$> Message m
  | kMessageId => Some (MessageId m)
  | kSubject => StringOf <$> Subject m
  | kSubscribeURL => StringOf <$> SubscribeURL m
  | kTimestamp => Some (Timestamp m)
  | kToken => StringOf <$> Token m
  | kTopicArn => Some (TopicArn m)
  | kType => Some (typeText (sns_Type m))
  end.

Definition canonicalKeys (m : SnsMessage) : list SnsKey :=
  match sns_Type m with
  | Notification =>
      match Subject m with
      | Some _ => [kMessage; kMessageId; kSubject; kTimestamp; kTopicArn; kType]
      | None => [kMessage; kMessageId; kTimestamp; kTopicArn; kType]
      end
  | _ => [kMessage; kMessageId; kSubscribeURL; kTimestamp; kToken; kTopicArn; kType]
  end.

(** The pairs that are signed. *)
Definition canonicalFields (m : SnsMessage) : list (SnsKey * str) :=
  omap (fun k => v ← snsField m k; Some (k, v)) (canonicalKeys m).

Definition buildSnsCanonicalString (m : SnsMessage) : str :=
  flat_map (fun f => keyText f.1 ++ nl ++ f.2 ++ nl) (canonicalFields m).

(** ** The certificate cache *)

Definition CERT_CACHE_TTL_MS : Z := 24 * 60 * 60 * 1000.
Definition CERT_CACHE_MAX_ENTRIES : nat := 64.

Definition getCachedCert (now : Z) (url : str) (c : certMap) : option str * certMap :=
  match mapGet url c with
  | None => (None, c)
  | Some hit =>
      if (expiresAt hit <=? now)%Z then (None, mapDelete url c)
      else (Some (pem hit), mapSet url hit (mapDelete url c))
  end.

Definition setCachedCert (now : Z) (url pem_ : str) (c : certMap) : certMap :=
  let c1 :=
    if (CERT_CACHE_MAX_ENTRIES <=? length c) && negb (bool_decide (is_Some (mapGet url c)))
    then match c with [] => c | (oldest, _) :: _ => mapDelete oldest c end
    else c in
  mapSet url {| pem := pem_; expiresAt := now + CERT_CACHE_TTL_MS |} c1.

(** ** Verification *)

Record CertURL := { cu_protocol : str; cu_hostname : str }.

Record VerifyParams := {
  canonical : str;
  signatureBase64 : str;
  signatureVersion : str;
  certificatePem : str;
}.

(** [/^sns\.[a-z0-9-]+\.amazonaws\.com$/] *)
Definition isRegionChar (c : ascii) : bool :=
  ((97 <=? code c) && (code c <=? 122) || (48 <=? code c) && (code c <=? 57) || (code c =? 45))%N.
Definition AWS_SUFFIX : str := ".amazonaws.com".
Definition DEFAULT_CERT_HOST_PATTERN (h : str) : bool :=
  let rest := drop 4 h in
  let region := take (length rest - length AWS_SUFFIX) rest in
  startsWith h "sns." && endsWith rest AWS_SUFFIX
  && bool_decide (region <> []) && forallb isRegionChar region.

(** The world of the middleware: the cache, and the rest with its clock. *)
Record SnsWorld (X : Type) := { certCache : certMap; sns_ext : X }.
Arguments Build_SnsWorld {X}.
Arguments certCache {X}.
Arguments sns_ext {X}.

Context {X : Type} (clock : X -> Z) (parseURL : str -> option CertURL).

Record VerifySnsSignatureOpts := {
  fetchCert : str -> eff X thrown str;
  verifySignature : VerifyParams -> result thrown bool;
  allowedCertHostPattern : option (str -> bool);
}.

Context (opts : VerifySnsSignatureOpts).

(** The tests before the certificate is looked up. *)
Definition acceptable (m : SnsMessage) : bool :=
  (bool_decide (SignatureVersion m = "1") || bool_decide (SignatureVersion m = "2")) &&
  match parseURL (SigningCertURL m) with
  | None => false
  | Some parsed =>
      bool_decide (cu_protocol parsed = "https:") &&
      default DEFAULT_CERT_HOST_PATTERN (allowedCertHostPattern opts) (cu_hostname parsed)
  end.

(** The call of the verifier, with certificate [cert]. *)
Definition verifyWith (m : SnsMessage) (cert : str) : result thrown bool :=
  verifySignature opts
    {| canonical := buildSnsCanonicalString m; signatureBase64 := Signature m;
       signatureVersion := SignatureVersion m; certificatePem := cert |}.

Definition lookupCert (url : str) : eff (SnsWorld X) thrown (option str) := fun w =>
  let '(hit, c) := getCachedCert (clock (sns_ext w)) url (certCache w) in
  (Ok hit, Build_SnsWorld c (sns_ext w)).

Definition storeCert (url cert : str) : eff (SnsWorld X) thrown unit := fun w =>
  (Ok tt, Build_SnsWorld (setCachedCert (clock (sns_ext w)) url cert (certCache w)) (sns_ext w)).

Definition onSnsExt {A} (m : eff X thrown A) : eff (SnsWorld X) thrown A := fun w =>
  let '(r, x) := m (sns_ext w) in (r, Build_SnsWorld (certCache w) x).

Definition verifySnsMessage (m : SnsMessage) : eff (SnsWorld X) thrown bool :=
  if negb (acceptable m) then mret false
  else
    hit ← lookupCert (SigningCertURL m);
    cert ← match hit with
           | Some cert => mret cert
           | None =>
               cert ← onSnsExt (fetchCert opts (SigningCertURL m));
               storeCert (SigningCertURL m) cert;;
               mret cert
           end;
    lift (verifyWith m cert).

(** ** The middleware *)

Inductive SnsRejection := SnsBadRequest400 | SnsUnauthorized401.

Definition messageType (t : str) : option SnsMessageType :=
  List.find (fun x => bool_decide (typeText x = t))
    [Notification; SubscriptionConfirmation; UnsubscribeConfirmation].

(** The envelope, when every test of the middleware passes. *)
Definition parseEnvelope (parseJSON : str -> option json) (raw : str) : option SnsMessage :=
  obj ← parseJSON raw;
  type ← stringMember "Type" obj;
  id ← stringMember "MessageId" obj;
  topic ← stringMember "TopicArn" obj;
  time ← stringMember "Timestamp" obj;
  sig ← stringMember "Signature" obj;
  url ← stringMember "SigningCertURL" obj;
  t ← messageType type;
  sv ← stringMember "SignatureVersion" obj;
  if bool_decide (sv = js "1") || bool_decide (sv = js "2") then
    Some {| sns_Type := t; MessageId := id; TopicArn := topic; Timestamp := time;
            Signature := sig; SignatureVersion := sv; SigningCertURL := url;
            Message := member "Message" obj; Subject := member "Subject" obj;
            Token := member "Token" obj; SubscribeURL := member "SubscribeURL" obj |}
  else None.

(** [verifySnsSignature]: the verified message, or the answer that ends the request. *)
Definition verifySnsSignature (parseJSON : str -> option json) (raw : str)
    : eff (SnsWorld X) thrown (SnsRejection + SnsMessage) :=
  match parseEnvelope parseJSON raw with
  | None => mret (inl SnsBadRequest400)
  | Some m =>
      ok ← tryCatch (verifySnsMessage m) (fun _ => mret false);
      if ok : bool then mret (inr m) else mret (inl SnsUnauthorized401)
  end.
End sns.
Arguments SnsWorld : clear implicits.
Arguments Build_SnsWorld {X}.
Arguments certCache {X}.
Arguments sns_ext {X}.
