(* ===== verification/SnsSpec.v ===== *)
(** * What the SNS check guarantees

    The canonical text determines the signed fields; the certificate cache refines a history of
    fetches; the middleware answers without running the handler unless the verifier said yes. *)

From S2P Require Import Prelude JsNumber JsonTree JsMap Errors Sns.

(** ** The canonical text is injective *)

Section canonical.
Context (ToString : json -> str).
Implicit Types (m : SnsMessage) (fs : list (SnsKey * str)).

(** A newline before each key and each value. *)
Definition render (fs : list (SnsKey * str)) : str :=
  flat_map (fun f => nl ++ keyText f.1 ++ nl ++ f.2) fs.

Definition oneLine (s : str) : Prop := newline ∉ s.

Lemma render_canonical m : nl ++ buildSnsCanonicalString ToString m = render (canonicalFields ToString m) ++ nl.
Proof.
  unfold buildSnsCanonicalString, render. induction (canonicalFields ToString m) as [|f fs IH]; [done|].
  cbn [flat_map]. rewrite <- !app_assoc. f_equal. do 3 f_equal. exact IH.
Qed.

Lemma render_snoc fs f : render (fs ++ [f]) = render fs ++ nl ++ keyText f.1 ++ nl ++ f.2.
Proof. unfold render. rewrite flat_map_app. cbn. by rewrite app_nil_r. Qed.

Lemma keyText_inj k k' : keyText k = keyText k' -> k = k'.
Proof. by destruct k, k'. Qed.

Lemma keyText_oneLine k : oneLine (keyText k).
Proof. destruct k; not_in. Qed.

(** The last field can be read off the text. *)
Lemma last_field x y f g :
  oneLine f.2 -> oneLine g.2 ->
  x ++ nl ++ keyText f.1 ++ nl ++ f.2 = y ++ nl ++ keyText g.1 ++ nl ++ g.2 -> x = y /\ f = g.
Proof.
  intros Hf Hg E. rewrite !app_assoc in E. rewrite <- !(app_assoc _ nl) in E.
  apply app_last_sep_inj in E as [E Ev]; [|done..].
  apply app_last_sep_inj in E as [-> Ek%keyText_inj]; [|apply keyText_oneLine..].
  destruct f, g; cbn in *. by subst.
Qed.

(** Reading from the end, the fields after [MessageId] and [MessageId] itself. *)
Lemma fields_after_id x y id id' p q :
  oneLine id -> oneLine id' ->
  Forall (fun f => f.1 <> kMessageId /\ oneLine f.2) p ->
  Forall (fun f => f.1 <> kMessageId /\ oneLine f.2) q ->
  x ++ render ((kMessageId, id) :: p) = y ++ render ((kMessageId, id') :: q) ->
  x = y /\ id = id' /\ p = q.
Proof.
  intros Hi Hi' Hp. revert q. induction p as [|f p IH] using rev_ind; intros q Hq E;
    destruct q as [|g q _] using rev_ind.
  - unfold render in E. cbn in E. rewrite !app_nil_r in E.
    by apply (last_field x y (kMessageId, id) (kMessageId, id')) in E as [-> [= ->]].
  - apply Forall_app in Hq as [_ [Hq _]%Forall_cons].
    rewrite (app_comm_cons q), render_snoc, app_assoc in E.
    unfold render at 1 in E. cbn [flat_map] in E. rewrite app_nil_r in E.
    apply (last_field x _ (kMessageId, id) g) in E as [_ E]; [|done|apply Hq].
    destruct Hq as [Hq _]. by subst g.
  - apply Forall_app in Hp as [_ [Hp _]%Forall_cons].
    rewrite (app_comm_cons p), render_snoc, app_assoc in E.
    unfold render at 2 in E. cbn [flat_map] in E. rewrite app_nil_r in E.
    apply (last_field _ y f (kMessageId, id')) in E as [_ E]; [|apply Hp|done].
    destruct Hp as [Hp _]. by subst f.
  - apply Forall_app in Hp as [Hp [[? Hf] _]%Forall_cons], Hq as [Hq [[? Hg] _]%Forall_cons].
    rewrite (app_comm_cons p), (app_comm_cons q), !render_snoc in E.
    rewrite (app_assoc x), (app_assoc y) in E.
    apply last_field in E as [E ->]; [|done..].
    by destruct (IH Hp q Hq E) as (-> & -> & ->).
Qed.

(** Every signed field but the message text itself stands on one line. *)
Definition wellFormed m : Prop :=
  Forall (fun f => f.1 <> kMessage -> oneLine f.2) (canonicalFields ToString m).

Lemma canonicalFields_split m :
  exists post, canonicalFields ToString m
    = option_list ((fun v => (kMessage, v)) <$> snsField ToString m kMessage)
      ++ (kMessageId, MessageId m) :: post /\
  Forall (fun f => f.1 <> kMessageId /\ f.1 <> kMessage) post.
Proof.
  unfold canonicalFields, canonicalKeys.
  destruct (sns_Type m); [destruct (Subject m) eqn:?|..]; cbn;
    repeat match goal with H : Subject m = _ |- _ => rewrite H; clear H end;
    destruct (Message m), (SubscribeURL m), (Token m); cbn;
    (eexists; split; [reflexivity|]); repeat (constructor; [done|]); constructor.
Qed.

Lemma canonical_inj m m' :
  wellFormed m -> wellFormed m' ->
  buildSnsCanonicalString ToString m = buildSnsCanonicalString ToString m' ->
  canonicalFields ToString m = canonicalFields ToString m'.
Proof.
  unfold wellFormed. intros H H' E.
  apply (f_equal (app nl)) in E. rewrite !render_canonical in E. apply app_inv_tail in E.
  destruct (canonicalFields_split m) as (p & Ep & Hp), (canonicalFields_split m') as (q & Eq & Hq).
  rewrite Ep in H, E |- *. rewrite Eq in H', E |- *.
  apply Forall_app in H as [_ H], H' as [_ H']. inv H; inv H'.
  unfold render in E. rewrite !flat_map_app in E.
  apply fields_after_id in E as (E & -> & ->); [|naive_solver|naive_solver| |].
  2, 3: rewrite Forall_forall in *; naive_solver.
  destruct (snsField ToString m kMessage), (snsField ToString m' kMessage); cbn in *;
    rewrite ?app_nil_r in E; simplify_eq; done.
Qed.

(** The fields a message of type [t] signs. *)
Definition signs (t : SnsMessageType) (k : SnsKey) : bool :=
  match k, t with
  | kSubject, Notification => true
  | kSubject, _ => false
  | (kSubscribeURL | kToken), Notification => false
  | _, _ => true
  end.

Lemma elem_of_canonicalFields m k v :
  (k, v) ∈ canonicalFields ToString m <-> signs (sns_Type m) k = true /\ snsField ToString m k = Some v.
Proof.
  unfold canonicalFields. rewrite list_elem_of_omap.
  trans (k ∈ canonicalKeys m /\ snsField ToString m k = Some v).
  { split.
    - intros (k' & Hk & E). destruct (snsField ToString m k') eqn:Ef; [|done]. cbn in E.
      by simplify_eq.
    - intros [Hk E]. exists k. by rewrite E. }
  split; intros [Hk E]; split; try done.
  - unfold canonicalKeys in Hk.
    destruct (sns_Type m); [destruct (Subject m)|..];
      destruct k; try reflexivity; exfalso; revert Hk; not_in.
  - unfold canonicalKeys.
    destruct (sns_Type m); [destruct (Subject m) eqn:Hs|..];
      destruct k; try discriminate Hk; try (cbn in E; rewrite Hs in E; discriminate E);
      apply (bool_decide_eq_true_1 (_ ∈ _)); vm_compute; reflexivity.
Qed.

Lemma typeText_inj t t' : typeText t = typeText t' -> t = t'.
Proof. by destruct t, t'. Qed.

(** A signature covers the whole message: two messages with the same canonical text are of the same
    type and agree on every field their type signs (for a notification the text, subject,
    identifier, time and topic; for a confirmation the token and the URL to fetch as well), so
    long as the fields other than the text hold no newline. *)
Theorem signature_covers_message m m' :
  wellFormed m -> wellFormed m' ->
  buildSnsCanonicalString ToString m = buildSnsCanonicalString ToString m' ->
  sns_Type m = sns_Type m' /\
  forall k, signs (sns_Type m) k = true -> snsField ToString m k = snsField ToString m' k.
Proof.
  intros H H' E%canonical_inj; [|done..].
  assert (sns_Type m = sns_Type m') as Et.
  { apply typeText_inj. pose proof (elem_of_canonicalFields m kType (typeText (sns_Type m))) as Hm.
    rewrite E, elem_of_canonicalFields in Hm. cbn in Hm. destruct Hm as [_ Hm].
    destruct Hm as [_ [= ->]]; [|done]. split; [by destruct (sns_Type m)|done]. }
  split; [done|]. intros k Hk.
  assert (forall v, snsField ToString m k = Some v <-> snsField ToString m' k = Some v) as Hv.
  { intros v. pose proof (elem_of_canonicalFields m k v) as H1.
    rewrite E, elem_of_canonicalFields, <- Et, Hk in H1. naive_solver. }
  destruct (snsField ToString m k) as [v|]; [symmetry; by apply Hv|].
  destruct (snsField ToString m' k) as [v|]; [by apply Hv|done].
Qed.
End canonical.

(** ** The certificate cache *)

(** The specification's state: every fetch of a certificate, with its time. *)
Abbreviation history := (list (str * str * Z)).

Section cache.
Implicit Types (c : certMap) (url : str).

Record cacheOk (h : history) c : Prop := {
  ck_nodup : NoDup (keys c);
  ck_size : length c <= CERT_CACHE_MAX_ENTRIES;
  ck_fetched : forall u e, (u, e) ∈ c -> (u, pem e, (expiresAt e - CERT_CACHE_TTL_MS)%Z) ∈ h;
}.

Lemma cacheOk_new h url e c :
  NoDup (keys c) -> length c < CERT_CACHE_MAX_ENTRIES -> url ∉ keys c ->
  (url, pem e, (expiresAt e - CERT_CACHE_TTL_MS)%Z) ∈ h ->
  (forall u e, (u, e) ∈ c -> (u, pem e, (expiresAt e - CERT_CACHE_TTL_MS)%Z) ∈ h) ->
  cacheOk h (mapSet url e c).
Proof.
  intros Hn Hl Hu He Hf. rewrite mapSet_new by done. split.
  - unfold keys. rewrite map_app. apply NoDup_app. split_and!; [done| |apply NoDup_singleton].
    intros u Hin ->%list_elem_of_singleton. done.
  - rewrite length_app. cbn. lia.
  - intros u g [H|[= -> ->]%list_elem_of_singleton]%elem_of_app; [by apply Hf|done].
Qed.

Lemma mapDelete_ok h url c :
  cacheOk h c -> cacheOk h (mapDelete url c) /\ url ∉ keys (mapDelete url c).
Proof.
  intros [Hn Hl Hf]. split; [split|].
  - eapply sublist_NoDup; [done|apply keys_mapDelete].
  - etrans; [|exact Hl]. apply filter_length_le.
  - intros u e [H _]%elem_of_mapDelete. by apply Hf.
  - unfold keys. rewrite list_elem_of_fmap. intros ([u e] & -> & [_ H]%elem_of_mapDelete). done.
Qed.

(** A read answers with a certificate of the history that is less than a day old. *)
Lemma getCachedCert_ok h now url c :
  cacheOk h c -> cacheOk h (getCachedCert now url c).2 /\
  (forall p, (getCachedCert now url c).1 = Some p ->
    exists t, (url, p, t) ∈ h /\ (now < t + CERT_CACHE_TTL_MS)%Z).
Proof.
  intros H. unfold getCachedCert. destruct (mapGet url c) as [hit|] eqn:E; [|done].
  destruct (mapDelete_ok h url c H) as [Hd Hu].
  pose proof (mapGet_Some url c hit (ck_nodup _ _ H)) as [Hin _]. specialize (Hin E).
  pose proof (ck_fetched _ _ H _ _ Hin) as Hf.
  destruct (expiresAt hit <=? now)%Z eqn:Et; cbn; [done|]. split.
  - destruct Hd as [Hn Hl Hold]. apply cacheOk_new; try done.
    eapply Nat.lt_le_trans; [|apply (ck_size _ _ H)]. apply length_mapDelete.
    unfold keys. rewrite list_elem_of_fmap. by exists (url, hit).
  - intros p [= <-]. eexists. split; [exact Hf|]. to_prop. lia.
Qed.

Lemma cacheOk_more h h' c : h ⊆ h' -> cacheOk h c -> cacheOk h' c.
Proof. intros Hs [Hn Hl Hf]. split; [done|done|]. intros u e H. by apply Hs, Hf. Qed.

(** A write keeps the bound: the oldest entry makes room. *)
Lemma setCachedCert_ok h now url p c :
  cacheOk h c -> cacheOk ((url, p, now) :: h) (setCachedCert now url p c).
Proof.
  intros H%(cacheOk_more _ ((url, p, now) :: h)); [|set_solver]. unfold setCachedCert.
  assert ((url, p, (now + CERT_CACHE_TTL_MS - CERT_CACHE_TTL_MS)%Z) ∈ (url, p, now) :: h) as Hnew.
  { rewrite Z.add_simpl_r. by left. }
  destruct (mapGet url c) as [e|] eqn:Eg.
  - rewrite bool_decide_eq_true_2, andb_false_r by by eexists.
    destruct (mapSet_known url {| pem := p; expiresAt := now + CERT_CACHE_TTL_MS |} e c Eg) as [Hu Hin].
    destruct H as [Hn Hl Hf]. split.
    + by rewrite Hu.
    + unfold mapSet. rewrite Eg, length_map. done.
    + intros u g [[-> ->]|Hg]%Hin; [done|by apply Hf].
  - rewrite bool_decide_eq_false_2, andb_true_r by by intros [? [=]].
    pose proof Eg as Hu%mapGet_None.
    destruct (CERT_CACHE_MAX_ENTRIES <=? length c)%nat eqn:El; to_prop.
    + destruct c as [|[oldest e] c]; [unfold CERT_CACHE_MAX_ENTRIES in El; cbn in El; lia|].
      destruct (mapDelete_ok _ oldest _ H) as [[Hn Hl Hf] _]. apply cacheOk_new; try done.
      * eapply Nat.lt_le_trans; [|apply (ck_size _ _ H)]. apply length_mapDelete. by left.
      * intros Hx. apply Hu. eapply sublist_subseteq; [apply keys_mapDelete|exact Hx].
    + destruct H as [Hn Hl Hf]. by apply cacheOk_new.
Qed.
End cache.

(** ** Verification *)

Lemma DEFAULT_CERT_HOST_PATTERN_spec h :
  DEFAULT_CERT_HOST_PATTERN h = true <->
  exists region, h = "sns." ++ region ++ AWS_SUFFIX /\ region <> [] /\ forallb isRegionChar region = true.
Proof.
  unfold DEFAULT_CERT_HOST_PATTERN. split.
  - intros H. to_prop. match goal with H : startsWith _ _ = true |- _ => apply startsWith_spec in H as [t ->] end.
    rewrite (drop_app_length' (js "sns.")) in * by done.
    match goal with H : endsWith _ _ = true |- _ => apply endsWith_spec in H as [region ->] end.
    rewrite length_app, Nat.add_sub, take_app_length in *. by exists region.
  - intros (region & -> & Hr & Hc).
    rewrite startsWith_app, (drop_app_length' (js "sns.")) by done.
    rewrite length_app, Nat.add_sub, take_app_length, Hc.
    rewrite (proj2 (endsWith_spec _ _)) by eauto. by rewrite bool_decide_eq_true_2.
Qed.

Section verification.
Context (ToString : json -> str) {X : Type} (clock : X -> Z) (parseURL : str -> option CertURL).
Context (opts : VerifySnsSignatureOpts (X := X)).

(** What happens to the cache when requests are served concurrently: a message arrives, the fetch
    of another one ends or fails, in any order. *)
Inductive snsEvent :=
  | Arrive (now : Z) (m : SnsMessage)
  | Fetched (now : Z) (m : SnsMessage) (cert : str)
  | FetchFailed (m : SnsMessage) (e : thrown).

(** The answer the event decides, if any, and the cache after it. *)
Definition snsStep (ev : snsEvent) (c : certMap) : option (result thrown bool) * certMap :=
  match ev with
  | Arrive now m =>
      if acceptable parseURL opts m then
        let '(hit, c') := getCachedCert now (SigningCertURL m) c in
        (verifyWith ToString opts m <$> hit, c')
      else (Some (Ok false), c)
  | Fetched now m cert =>
      (Some (verifyWith ToString opts m cert), setCachedCert now (SigningCertURL m) cert c)
  | FetchFailed m e => (Some (Throw e), c)
  end.

Fixpoint snsRun (evs : list snsEvent) (c : certMap) : list (option (result thrown bool)) * certMap :=
  match evs with
  | [] => ([], c)
  | ev :: evs' =>
      let '(a, c1) := snsStep ev c in let '(l, c2) := snsRun evs' c1 in (a :: l, c2)
  end.

(** A request on its own is an arrival and, on a miss, the end of its fetch. *)
Lemma verifySnsMessage_steps m (w : SnsWorld X) :
  verifySnsMessage ToString clock parseURL opts m w =
  match snsStep (Arrive (clock (sns_ext w)) m) (certCache w) with
  | (Some r, c) => (r, Build_SnsWorld c (sns_ext w))
  | (None, c) =>
      match fetchCert opts (SigningCertURL m) (sns_ext w) with
      | (Ok cert, x) =>
          let '(r, c') := snsStep (Fetched (clock x) m cert) c in
          (default (Ok false) r, Build_SnsWorld c' x)
      | (Throw e, x) => (Throw e, Build_SnsWorld c x)
      end
  end.
Proof.
  unfold verifySnsMessage, snsStep. destruct w as [c x]. cbn.
  destruct (acceptable parseURL opts m); [|done]. cbn.
  unfold lookupCert, storeCert, onSnsExt, lift, mbind, eff_bind. cbn.
  destruct (getCachedCert (clock x) (SigningCertURL m) c) as [[cert|] c1]; [done|]. cbn.
  by destruct (fetchCert opts (SigningCertURL m) x) as [[cert|e] x1].
Qed.

(** The specification: a message is judged with a certificate of its own URL that was fetched
    less than a day ago, or with one fetched for it now. *)
Inductive specStep : history -> snsEvent -> option (result thrown bool) -> history -> Prop :=
  | spec_refuse h now m : acceptable parseURL opts m = false -> specStep h (Arrive now m) (Some (Ok false)) h
  | spec_reuse h now m cert t :
      acceptable parseURL opts m = true -> (SigningCertURL m, cert, t) ∈ h ->
      (now < t + CERT_CACHE_TTL_MS)%Z ->
      specStep h (Arrive now m) (Some (verifyWith ToString opts m cert)) h
  | spec_fetch h now m : acceptable parseURL opts m = true -> specStep h (Arrive now m) None h
  | spec_fetched h now m cert :
      specStep h (Fetched now m cert) (Some (verifyWith ToString opts m cert))
        ((SigningCertURL m, cert, now) :: h)
  | spec_failed h m e : specStep h (FetchFailed m e) (Some (Throw e)) h.

Inductive specRun : history -> list snsEvent -> list (option (result thrown bool)) -> history -> Prop :=
  | spec_done h : specRun h [] [] h
  | spec_cons h ev a h1 evs l h2 :
      specStep h ev a h1 -> specRun h1 evs l h2 -> specRun h (ev :: evs) (a :: l) h2.

Lemma snsStep_simulates h c ev :
  cacheOk h c -> exists h', specStep h ev (snsStep ev c).1 h' /\ cacheOk h' (snsStep ev c).2.
Proof.
  intros H. destruct ev as [now m|now m cert|m e]; cbn [snsStep].
  - destruct (acceptable parseURL opts m) eqn:Ea; [|exists h; split; [by constructor|done]].
    destruct (getCachedCert_ok h now (SigningCertURL m) c H) as [Hc Hp].
    destruct (getCachedCert now (SigningCertURL m) c) as [[cert|] c']; exists h; cbn in *;
      (split; [|done]).
    + destruct (Hp cert eq_refl) as (t & Hin & Ht). by eapply spec_reuse.
    + by constructor.
  - eexists. split; [constructor|]. by apply setCachedCert_ok.
  - exists h. split; [constructor|done].
Qed.

(** C6. However requests interleave, the bounded cache gives the answers of the unbounded history of
    fetches: no message is judged with a certificate of another URL, or with one fetched a day
    ago or earlier, and the cache never holds more than 64 certificates. *)
Theorem cert_cache_refines_history evs :
  exists h, specRun [] evs (snsRun evs []).1 h /\ cacheOk h (snsRun evs []).2.
Proof.
  assert (forall h c, cacheOk h c ->
    exists h', specRun h evs (snsRun evs c).1 h' /\ cacheOk h' (snsRun evs c).2) as Hgen.
  { induction evs as [|ev evs IH]; intros h c H; cbn [snsRun]; [exists h; by split; [constructor|]|].
    destruct (snsStep_simulates h c ev H) as (h1 & Hs & H1).
    destruct (snsStep ev c) as [a c1]. destruct (IH h1 c1 H1) as (h2 & Hr & H2).
    destruct (snsRun evs c1) as [l c2]. exists h2. cbn in *. split; [by econstructor|done]. }
  apply Hgen. split; [constructor|cbn; lia|by intros u e ?%elem_of_nil].
Qed.

(** C5. The middleware never throws. It answers 400 to what is not an envelope, before any other
    effect; 401 when the verification says no or throws; and it lets a message through only when
    its URL passed the host test and the verifier accepted the signature with a certificate that
    was fetched from that URL, now or less than a day ago. *)
Theorem only_verified_messages_pass parseJSON raw (w : SnsWorld X) h :
  cacheOk h (certCache w) ->
  exists res w', verifySnsSignature ToString clock parseURL opts parseJSON raw w = (Ok res, w') /\
  match res with
  | inl SnsBadRequest400 => parseEnvelope parseJSON raw = None /\ w' = w
  | inl SnsUnauthorized401 => exists m, parseEnvelope parseJSON raw = Some m /\
      (verifySnsMessage ToString clock parseURL opts m w).1 <> Ok true
  | inr m => parseEnvelope parseJSON raw = Some m /\ acceptable parseURL opts m = true /\
      exists cert, verifyWith ToString opts m cert = Ok true /\
      ((exists t, (SigningCertURL m, cert, t) ∈ h /\ (clock (sns_ext w) < t + CERT_CACHE_TTL_MS)%Z)
       \/ fetchCert opts (SigningCertURL m) (sns_ext w) = (Ok cert, sns_ext w'))
  end.
Proof.
  intros H. unfold verifySnsSignature. destruct (parseEnvelope parseJSON raw) as [m|] eqn:Ep;
    [|by eexists _, _].
  unfold tryCatch, mbind, eff_bind.
  destruct (verifySnsMessage ToString clock parseURL opts m w) as [[[]|e] w1] eqn:Ev; cbn.
  2: { eexists _, _. split; [reflexivity|]. exists m. by rewrite Ev. }
  2: { eexists _, _. split; [reflexivity|]. exists m. by rewrite Ev. }
  eexists _, _. split; [reflexivity|]. split; [done|].
  rewrite verifySnsMessage_steps in Ev. cbn [snsStep] in Ev.
  destruct (acceptable parseURL opts m); [|done]. split; [done|].
  pose proof (getCachedCert_ok h (clock (sns_ext w)) (SigningCertURL m) _ H) as [_ Hp].
  destruct (getCachedCert (clock (sns_ext w)) (SigningCertURL m) (certCache w)) as [[cert|] c]; cbn in Ev.
  - exists cert. split; [by simplify_eq|]. left. by apply Hp.
  - destruct (fetchCert opts (SigningCertURL m) (sns_ext w)) as [[cert|e] x] eqn:Ef; cbn in Ev; [|done].
    exists cert. simplify_eq. split; [congruence|]. by right.
Qed.
End verification.

(** ** A server that accepts one signature *)

Definition demoEnvelope (sig : str) : json :=
  JObj [(js "Type", JStr (js "Notification")); (js "MessageId", JStr (js "id-1"));
        (js "TopicArn", JStr (js "arn:aws:sns:us-east-1:1:pr")); (js "Timestamp", JStr (js "t"));
        (js "Signature", JStr sig); (js "SignatureVersion", JStr (js "2"));
        (js "SigningCertURL", JStr (js "https://sns.us-east-1.amazonaws.com/c.pem"));
        (js "Message", JStr (js "{}"))].
Definition demoEnvelopeJSON (raw : str) : option json :=
  if bool_decide (raw = "ok") then Some (demoEnvelope "good") else None.
Definition demoCertURL (u : str) : option CertURL :=
  Some {| cu_protocol := "https:"; cu_hostname := "sns.us-east-1.amazonaws.com" |}.
Definition demoSnsOpts : VerifySnsSignatureOpts (X := Z) :=
  {| fetchCert u now := (Ok (js "PEM"), (now + 1)%Z);
     verifySignature p := Ok (bool_decide (signatureBase64 p = "good") && bool_decide (certificatePem p = "PEM"));
     allowedCertHostPattern := None |}.
Definition demoSnsWorld : SnsWorld Z := {| certCache := []; sns_ext := 0%Z |}.

Lemma only_verified_messages_pass_witness :
  exists m w', verifySnsSignature (fun _ => []) (fun x => x) demoCertURL demoSnsOpts demoEnvelopeJSON "ok"
    demoSnsWorld = (Ok (inr m), w') /\ acceptable demoCertURL demoSnsOpts m = true /\
    length (certCache w') = 1.
Proof.
  destruct (only_verified_messages_pass (fun _ => []) (fun x : Z => x) demoCertURL demoSnsOpts
              demoEnvelopeJSON "ok" demoSnsWorld []) as (res & w' & E & H).
  { split; [constructor|cbn; lia|by intros u e ?%elem_of_nil]. }
  vm_compute in E. injection E as <- <-. destruct H as (_ & Ha & _).
  eexists _, _. split; [vm_compute; reflexivity|]. split; [exact Ha|reflexivity].
Defined.

Definition demoSnsMessage (text : str) : SnsMessage :=
  {| sns_Type := Notification; MessageId := js "id"; TopicArn := js "arn"; Timestamp := js "t";
     Signature := js "good"; SignatureVersion := js "2"; SigningCertURL := js "u";
     Message := Some (JStr text); Subject := None; Token := None; SubscribeURL := None |}.

Lemma signature_covers_message_witness :
  let m := demoSnsMessage "MessageId" in
  sns_Type m = sns_Type m /\ snsField (fun _ => []) m kMessage = Some (js "MessageId").
Proof.
  intros m. destruct (signature_covers_message (fun _ => []) m m) as [Ht Hf]; [| |reflexivity|].
  1, 2: repeat constructor; cbn; try done; intros _; not_in.
  split; [exact Ht|]. exact (Hf kMessage eq_refl).
Defined.
