(* ===== verification/NumberText.v ===== *)
(** * Numbers in texts

    [Number.parseInt], [Number.parseFloat] and [Number] on strings: the language's grammar of numeric
    literals, and the double nearest to the decimal value; and [toFixed], the digits of a double. *)

From S2P Require Import Prelude JsNumber Schema.

Definition digitsValue (ds : str) : Z :=
  fold_left (fun acc c => (acc * 10 + (Z.of_N (code c) - 48))%Z) ds 0%Z.

(** The double nearest to [m * 10^k], [m >= 0]: a negative exponent divides with enough bits for a
    sticky last one. *)
Definition decimalNumber (m k : Z) : number :=
  if (m =? 0)%Z then zero
  else if (0 <=? k)%Z then num_of_Z (m * 10 ^ k)
  else
    let d := (10 ^ (- k))%Z in
    let sh := Z.max 0 (64 + Z.log2 d - Z.log2 m) in
    let n := (m * 2 ^ sh)%Z in
    num (2 * (n / d) + (if (n mod d =? 0)%Z then 0 else 1))%Z (- (sh + 1)).

Definition negate (x : number) : number := SpecFloat.SFopp x.

Definition signOf (s : str) : bool * str :=
  match s with
  | c :: u => if eqc c "-" then (true, u) else if eqc c "+" then (false, u) else (false, s)
  | [] => (false, s)
  end.

(** The exponent at the head of a text, 0 and nothing read when there is none. *)
Definition exponentPrefix (s : str) : Z * str :=
  match s with
  | c :: u =>
      if eqc c "e" || eqc c "E" then
        let '(negative, v) := signOf u in
        match takeWhile is_digit v with
        | [] => (0%Z, s)
        | ds => ((if negative : bool then - digitsValue ds else digitsValue ds)%Z, drop (length ds) v)
        end
      else (0%Z, s)
  | [] => (0%Z, s)
  end.

(** The longest unsigned decimal literal at the head of a text, and what follows it. *)
Definition decimalPrefix (s : str) : option (number * str) :=
  if startsWith s "Infinity" then Some (SpecFloat.S754_infinity false, drop 8 s)
  else
    let ds := takeWhile is_digit s in
    let r := drop (length ds) s in
    let '(fs, r') := match r with
                     | "."%char :: u => let fs := takeWhile is_digit u in (fs, drop (length fs) u)
                     | _ => ([], r)
                     end in
    match ds ++ fs with
    | [] => None
    | all =>
        let '(e, rest) := exponentPrefix r' in
        Some (decimalNumber (digitsValue all) (e - Zlen fs), rest)
    end.

Definition signed (negative : bool) (x : number) : number := if negative then negate x else x.
Definition nan : number := SpecFloat.S754_nan.

(** [Number.parseFloat(s)]: what follows the literal does not matter. *)
Definition parseFloat (s : str) : number :=
  let '(negative, u) := signOf (trimStart s) in
  match decimalPrefix u with
  | Some (x, _) => signed negative x
  | None => nan
  end.

(** The value of a digit in a base up to 16. *)
Definition digitValue (c : ascii) : option Z :=
  let n := Z.of_N (code (fold_char c)) in
  if is_digit c then Some (n - 48)%Z
  else if ((97 <=? n) && (n <=? 102))%Z then Some (n - 87)%Z
  else None.

Definition baseValue (base : Z) (ds : str) : option Z :=
  foldl (fun acc c => a ← acc; d ← digitValue c; if (d <? base)%Z then Some (a * base + d)%Z else None)
    (Some 0%Z) ds.

Definition basedNumber (base : Z) (ds : str) : number :=
  match ds with
  | [] => nan
  | _ => match baseValue base ds with Some n => num_of_Z n | None => nan end
  end.

(** [Number(s)]: the whole text, white space around it apart, is a literal. *)
Definition toNumber (s : str) : number :=
  let t := trim s in
  if bool_decide (t = []) then zero
  else if startsWithI t "0x" then basedNumber 16 (drop 2 t)
  else if startsWithI t "0o" then basedNumber 8 (drop 2 t)
  else if startsWithI t "0b" then basedNumber 2 (drop 2 t)
  else
    let '(negative, u) := signOf t in
    match decimalPrefix u with
    | Some (x, []) => signed negative x
    | _ => nan
    end.

(** [Number.parseInt(s, 10)]; the result is exact on the safe integers, [None] is NaN. *)
Definition parseInt (s : str) : option Z :=
  let '(negative, u) := signOf (trimStart s) in
  match takeWhile is_digit u with
  | [] => None
  | ds => Some (if negative : bool then (- digitsValue ds)%Z else digitsValue ds)
  end.

Definition isFinite (x : number) : bool :=
  match x with SpecFloat.S754_zero _ | SpecFloat.S754_finite _ _ _ => true | _ => false end.

(** ** Tests *)

Example parseFloat_ex :
  parseFloat (js " 0.8abc") = lit_0_8 /\ parseFloat (js "1.5") = lit_1_5 /\
  parseFloat (js "1e2x") = num_of_Z 100 /\ parseFloat (js "-.5") = num (-1) (-1) /\
  parseFloat (js "abc") = nan /\ parseFloat (js "1e") = num_of_Z 1 /\
  parseFloat (js "0.1") = num 7205759403792794 (-56) /\ parseFloat (js "5e-324") = num 1 (-1074).
Proof. by vm_compute. Qed.

Example toNumber_ex :
  toNumber (js " 20 ") = num_of_Z 20 /\ toNumber (js "20.0") = num_of_Z 20 /\
  toNumber (js "2e1") = num_of_Z 20 /\ toNumber (js "0x14") = num_of_Z 20 /\
  toNumber (js "") = zero /\ toNumber (js "20x") = nan /\ toNumber (js "-Infinity") = SpecFloat.S754_infinity true /\
  toNumber (js "9007199254740993") = num_of_Z 9007199254740992.
Proof. by vm_compute. Qed.

(** ** Printed integers are read back *)

Lemma digitsValue_cons c ds :
  digitsValue (c :: ds) = ((Z.of_N (code c) - 48) * 10 ^ Zlen ds + digitsValue ds)%Z.
Proof.
  unfold digitsValue, Zlen. cbn [fold_left].
  assert (forall a, fold_left (fun acc c => (acc * 10 + (Z.of_N (code c) - 48))%Z) ds a
    = (a * 10 ^ Z.of_nat (length ds)
       + fold_left (fun acc c => (acc * 10 + (Z.of_N (code c) - 48))%Z) ds 0)%Z) as H.
  { clear c. induction ds as [|d ds IH]; intros a; cbn [fold_left length]; [lia|].
    rewrite IH, (IH (0 * 10 + _)%Z). rewrite Nat2Z.inj_succ, Z.pow_succ_r by lia. lia. }
  rewrite H. lia.
Qed.

Lemma pretty_N_go_value n s :
  digitsValue (js (pretty_N_go n s)) = (Z.of_N n * 10 ^ Zlen (js s) + digitsValue (js s))%Z.
Proof.
  revert s. induction (N.lt_wf_0 n) as [n _ IH]; intros s.
  destruct (decide (0 < n)%N) as [Hn|Hn].
  - rewrite pretty_N_go_step, IH by (done || by apply N.div_lt).
    unfold js. cbn [String.list_ascii_of_string]. fold (js s).
    assert (n mod 10 < 10)%N as Hlt by (by apply N.mod_lt).
    rewrite digitsValue_cons, pretty_N_char_code by done.
    unfold Zlen. cbn [length]. rewrite Nat2Z.inj_succ, Z.pow_succ_r by lia.
    pose proof (N.div_mod n 10) as Hdm.
    replace (Z.of_N n) with (10 * Z.of_N (n / 10) + Z.of_N (n mod 10))%Z by lia. lia.
  - assert (n = 0%N) as -> by lia. rewrite pretty_N_go_0. lia.
Qed.

Lemma showZ_value n : (0 <= n)%Z -> digitsValue (showZ n) = n.
Proof.
  intros H. unfold showZ. destruct n as [|p|p]; [done| |lia].
  change (pretty (Z.pos p)) with (pretty (N.pos p)). unfold pretty, pretty_N.
  case_decide; [done|]. rewrite pretty_N_go_value. transitivity (Z.of_N (N.pos p) * 1 + 0)%Z; [done|lia].
Qed.

Lemma takeWhile_id (f : ascii -> bool) s : forallb f s = true -> takeWhile f s = s.
Proof. induction s as [|c s IH]; [done|]. cbn. intros [-> H]%andb_true_iff. by rewrite IH. Qed.

(** A printed natural number: digits, at least one. *)
Lemma showZ_digits n : (0 <= n)%Z -> forallb is_digit (showZ n) = true /\ showZ n <> [].
Proof.
  intros H. unfold showZ. destruct n as [|p|p]; [by split| |lia].
  change (pretty (Z.pos p)) with (pretty (N.pos p)). split; [apply pretty_N_digits|].
  intros E. assert (digitsValue (showZ (Zpos p)) = 0%Z) as Hv; [|by rewrite showZ_value in Hv].
  unfold showZ. change (pretty (Z.pos p)) with (pretty (N.pos p)). by rewrite E.
Qed.

Lemma is_digit_not_ws c : is_digit c = true -> is_ws c = false.
Proof.
  assert (implb (is_digit c) (negb (is_ws c)) = true) as H
    by (apply (all_ascii_spec (fun c => implb (is_digit c) (negb (is_ws c)))); by vm_compute).
  intros E. rewrite E in H. by apply negb_true_iff.
Qed.

Lemma trim_digits ds : forallb is_digit ds = true -> trim ds = ds.
Proof.
  assert (forall l, forallb is_digit l = true -> dropWhile is_ws l = l) as Hd.
  { intros [|c l] H; [done|]. cbn in *. apply andb_true_iff in H as [H _].
    by rewrite is_digit_not_ws. }
  intros H. unfold trim, trimStart, trimEnd. rewrite (Hd ds H), Hd, rev_involutive; [done|].
  rewrite forallb_forall in *. intros c Hc. apply H. by apply in_rev.
Qed.

Lemma digits_startsWith ds p c :
  forallb is_digit ds = true -> c ∈ p -> is_digit (fold_char c) = false -> startsWithI ds p = false.
Proof.
  intros Hd Hc Hn. apply not_true_iff_false. unfold startsWithI. intros [t E]%startsWith_spec.
  assert (fold_char c ∈ map fold_char ds) as (d & Hf & Hin)%elem_of_bmap.
  { rewrite E. apply elem_of_app. left. apply elem_of_bmap. eauto. }
  rewrite forallb_forall in Hd. rewrite list_elem_of_In in Hin. specialize (Hd d Hin).
  assert (implb (is_digit d) (is_digit (fold_char d)) = true) as Hi
    by (apply (all_ascii_spec (fun d => implb (is_digit d) (is_digit (fold_char d)))); by vm_compute).
  rewrite Hd in Hi. cbn in Hi. congruence.
Qed.

Lemma signOf_digits ds : forallb is_digit ds = true -> signOf ds = (false, ds).
Proof.
  destruct ds as [|c ds]; [done|]. cbn [forallb signOf]. intros [H _]%andb_true_iff.
  destruct (eqc c "-") eqn:E; [by apply eqc_true in E; subst|].
  destruct (eqc c "+") eqn:E'; [by apply eqc_true in E'; subst|]. done.
Qed.

Lemma decimalPrefix_digits ds :
  forallb is_digit ds = true -> ds <> [] ->
  decimalPrefix ds = Some (decimalNumber (digitsValue ds) 0, []).
Proof.
  intros H Hn. unfold decimalPrefix.
  assert (startsWith ds "Infinity" = false) as ->.
  { destruct ds as [|c ds]; [done|]. cbn in H. apply andb_true_iff in H as [H _].
    cbn [js String.list_ascii_of_string startsWith]. destruct (eqc "I" c) eqn:E; [|done].
    by apply eqc_true in E; subst. }
  rewrite takeWhile_id, drop_all by done. rewrite app_nil_r. by destruct ds.
Qed.

Lemma decimalNumber_Z n : (0 <= n)%Z -> decimalNumber n 0 = num_of_Z n.
Proof.
  intros H. unfold decimalNumber. destruct (Z.eqb_spec n 0) as [->|]; [done|].
  cbn. by rewrite Z.mul_1_r.
Qed.

(** [Number(String(n))] is [n], and so is [Number.parseInt]. *)
Lemma toNumber_showZ n : (0 <= n)%Z -> toNumber (showZ n) = num_of_Z n.
Proof.
  intros H. pose proof (showZ_digits n H) as [Hd Hn]. pose proof (showZ_value n H) as Hv.
  unfold toNumber. rewrite trim_digits by done. rewrite bool_decide_eq_false_2 by done.
  rewrite (digits_startsWith _ "0x" "x"), (digits_startsWith _ "0o" "o"),
    (digits_startsWith _ "0b" "b") by (done || set_solver).
  rewrite signOf_digits, decimalPrefix_digits by done. cbn [signed]. rewrite Hv.
  by apply decimalNumber_Z.
Qed.

Lemma parseInt_showZ n : (0 <= n)%Z -> parseInt (showZ n) = Some n.
Proof.
  intros H. pose proof (showZ_digits n H) as [Hd Hn]. pose proof (showZ_value n H) as Hv.
  unfold parseInt. assert (trimStart (showZ n) = showZ n) as ->.
  { unfold trimStart. destruct (showZ n) as [|c ds]; [done|]. cbn in *.
    apply andb_true_iff in Hd as [Hd _]. by rewrite is_digit_not_ws. }
  rewrite signOf_digits, takeWhile_id by done. revert Hv. by destruct (showZ n); [|intros ->].
Qed.

(** ** Numbers with a fixed number of digits

    [Number.prototype.toFixed] and [Number(x.toFixed(f))], by which the evaluation scripts round.
    The digits are those of the exact value of the double. *)

Definition nsub : number -> number -> number := SpecFloat.SFsub 53 1024.

(** The whole number nearest to [|x| * 10^f], the larger one of two. *)
Definition fixedDigits (f : nat) (m : positive) (e : Z) : Z :=
  let k := (10 ^ Z.of_nat f)%Z in
  if (0 <=? e)%Z then (Zpos m * 2 ^ e * k)%Z
  else ((2 * Zpos m * k + 2 ^ (- e)) / 2 ^ (1 - e))%Z.

(** A whole number of units of [10^-f], with its point. *)
Definition placePoint (f : nat) (n : Z) : str :=
  let s := showZ n in
  let padded := repeat "0"%char (S f - length s) ++ s in
  match f with
  | O => padded
  | _ => take (length padded - f) padded ++ "." ++ drop (length padded - f) padded
  end.

Section fixed.
(** [String(x)], which [toFixed] gives from [10^21] on. *)
Context (showNumber : number -> str).

Definition toFixed (f : nat) (x : number) : str :=
  match x with
  | SpecFloat.S754_nan => "NaN"
  | SpecFloat.S754_zero _ => placePoint f 0
  | SpecFloat.S754_infinity s => if s then "-Infinity" else "Infinity"
  | SpecFloat.S754_finite s m e =>
      let sign := if s : bool then js "-" else [] in
      if nge (SpecFloat.S754_finite false m e) (num_of_Z (10 ^ 21)) then showNumber x
      else sign ++ placePoint f (fixedDigits f m e)
  end.

(** [Number(x.toFixed(f))] *)
Definition roundFixed (f : nat) (x : number) : number := toNumber (toFixed f x).
End fixed.

Example toFixed_ex : forall showNumber,
  toFixed showNumber 2 (num_of_Z 5) = js "5.00" /\ toFixed showNumber 1 (num (-1) (-2)) = js "-0.3" /\
  toFixed showNumber 4 (ndiv (num_of_Z 2) (num_of_Z 3)) = js "0.6667" /\ toFixed showNumber 0 (num 5 (-1)) = js "3" /\
  toFixed showNumber 2 (parseFloat "1.005") = js "1.00".
Proof. by vm_compute. Qed.

(** Rounding to digits the value has changes nothing. *)
Example roundFixed_ex : forall showNumber,
  roundFixed showNumber 4 lit_0_8 = lit_0_8 /\ roundFixed showNumber 6 (nsub (parseFloat "0.9") (parseFloat "0.85")) = parseFloat "0.05".
Proof. by vm_compute. Qed.
