(* ===== verification/Presets.v ===== *)
(** * Presets (config/src/preset-loader.ts)

    [extends:] names bundled presets; they are merged left to right and the repository's own values
    come last. A key named [__proto__] is outside the model, and so is the inheritance of
    [Object.prototype]. *)

From S2P Require Import Prelude JsNumber JsMap JsonTree.

(** Both error classes extend [ConfigError]; a name that is not a string is never known. *)
Inductive PresetError :=
  | PresetNotFoundError (name : json)
  | PresetCycleError (cycle : list json).

Definition isPlainObject (v : json) : bool := match v with JObj _ => true | _ => false end.

(** One value of the target against one of the source: objects are merged, everything else is
    replaced. *)
Fixpoint mergeValue (tgt : option json) (src : json) : json :=
  match src, tgt with
  | JObj s, Some (JObj t) =>
      JObj ((fix go (s : jsmap json) (result : jsmap json) : jsmap json :=
        match s with
        | [] => result
        | (key, srcVal) :: s' => go s' (mapSet key (mergeValue (mapGet key t) srcVal) result)
        end) s t)
  | _, _ => src
  end.

Definition deepMerge (target source : jsmap json) : jsmap json :=
  foldl (fun result kv => mapSet kv.1 (mergeValue (mapGet kv.1 target) kv.2) result) target source.

(** ** The bundled presets *)

Definition lines (l : list string) : json := JArr (map (fun s => JStr (js s)) l).
Definition fields (l : list (string * json)) : jsmap json := map (fun kv => (js kv.1, kv.2)) l.
Definition object (l : list (string * json)) : json := JObj (fields l).
Definition text (s : string) : json := JStr (js s).
Definition int (n : Z) : json := JNum (num_of_Z n).

Definition PRESET_PATH_FILTERS : json := lines
  ["!dist/**"; "!build/**"; "!coverage/**"; "!**/*.lock"; "!**/*.generated.*"; "!**/__snapshots__/**";
   "!**/*.min.js"; "!**/*.min.css"]%string.
Definition PRESET_IGNORE_AUTHORS : json := lines
  ["dependabot[bot]"; "renovate[bot]"; "github-actions[bot]"]%string.
Definition rule (severity : string) : json :=
  object [("enabled", JBool true); ("min_severity", text severity)]%string.
Definition ruleOff : json := object [("enabled", JBool false)]%string.

Definition RECOMMENDED_YAML : jsmap json := fields [
  ("reviews", object [
    ("auto_review", object [
      ("enabled", JBool true); ("drafts", JBool false);
      ("base_branches", lines ["main"; "master"; "develop"])]);
    ("path_filters", PRESET_PATH_FILTERS); ("max_files", int 50); ("max_diff_lines", int 3000);
    ("ignore_authors", PRESET_IGNORE_AUTHORS); ("min_confidence", text "low");
    ("request_changes_on", text "critical"); ("max_steps", int 20)]);
  ("cost", object [
    ("max_usd_per_pr", int 1); ("hard_stop", JBool true); ("daily_cap_usd", int 50)]);
  ("ruleset", object [
    ("bug", rule "minor"); ("security", rule "minor"); ("performance", rule "major");
    ("maintainability", rule "major"); ("style", rule "minor"); ("docs", rule "info");
    ("test", rule "minor")])]%string.

Definition STRICT_YAML : jsmap json := fields [
  ("reviews", object [
    ("auto_review", object [("enabled", JBool true); ("drafts", JBool true)]);
    ("path_filters", PRESET_PATH_FILTERS); ("max_files", int 100); ("max_diff_lines", int 5000);
    ("ignore_authors", PRESET_IGNORE_AUTHORS); ("min_confidence", text "low");
    ("request_changes_on", text "major"); ("max_steps", int 30)]);
  ("cost", object [
    ("max_usd_per_pr", int 2); ("hard_stop", JBool true); ("daily_cap_usd", int 100)]);
  ("ruleset", object [
    ("bug", rule "info"); ("security", rule "info"); ("performance", rule "minor");
    ("maintainability", rule "minor"); ("style", rule "minor"); ("docs", rule "info");
    ("test", rule "info")])]%string.

Definition SECURITY_FOCUSED_YAML : jsmap json := fields [
  ("reviews", object [
    ("auto_review", object [("enabled", JBool true); ("drafts", JBool true)]);
    ("path_filters", PRESET_PATH_FILTERS); ("max_files", int 100); ("max_diff_lines", int 5000);
    ("ignore_authors", PRESET_IGNORE_AUTHORS); ("min_confidence", text "low");
    ("request_changes_on", text "critical"); ("max_steps", int 30)]);
  ("cost", object [
    ("max_usd_per_pr", int 2); ("hard_stop", JBool true); ("daily_cap_usd", int 100)]);
  ("ruleset", object [
    ("bug", rule "minor"); ("security", rule "info"); ("performance", rule "major");
    ("maintainability", ruleOff); ("style", ruleOff); ("docs", ruleOff); ("test", rule "minor")])]%string.

Definition BUNDLED_PRESETS : jsmap (jsmap json) :=
  [(js "recommended", RECOMMENDED_YAML); (js "strict", STRICT_YAML);
   (js "security-focused", SECURITY_FOCUSED_YAML)].

Definition loadBundledPresetRaw (name : json) : result PresetError (jsmap json) :=
  match name with
  | JStr s => match mapGet s BUNDLED_PRESETS with Some p => Ok p | None => Throw (PresetNotFoundError name) end
  | _ => Throw (PresetNotFoundError name)
  end.

(** A preset that names one already visited in an [extends] of its own. *)
Definition innerCycle (presetRaw : jsmap json) (visited : list str) : option json :=
  match mapGet (js "extends") presetRaw with
  | Some (JArr inner) =>
      List.find (fun v => match v with JStr s => bool_decide (s ∈ visited) | _ => false end) inner
  | _ => None
  end.

(** The loop over the names; [visited] holds names of presets that were found. *)
Fixpoint resolveGo (names : list json) (visited : list str) (base : jsmap json)
    : result PresetError (jsmap json) :=
  match names with
  | [] => Ok base
  | name :: names' =>
      match name with
      | JStr s =>
          if bool_decide (s = js "org") then Throw (PresetNotFoundError name)
          else if bool_decide (s ∈ visited) then Throw (PresetCycleError (map JStr visited ++ [name]))
          else
            presetRaw ← loadBundledPresetRaw name;
            match innerCycle presetRaw (visited ++ [s]) with
            | Some inner => Throw (PresetCycleError (map JStr (visited ++ [s]) ++ [inner]))
            | None => resolveGo names' (visited ++ [s]) (deepMerge base presetRaw)
            end
      | _ => Throw (PresetNotFoundError name)
      end
  end.

Definition resolveExtendsPresets (extendsValue : list json) (repoRaw : jsmap json)
    : result PresetError (jsmap json) :=
  base ← resolveGo extendsValue [] []; Ok (deepMerge base repoRaw).

(** ** Merging, leaf by leaf *)

(** The value at a path of keys. *)
Fixpoint valueAt (p : list str) (v : json) : option json :=
  match p with
  | [] => Some v
  | k :: p' => w ← member k v; valueAt p' w
  end.

(** The tree says nothing about the path: on the way down an object lacks the next key. *)
Fixpoint silent (p : list str) (v : json) : bool :=
  match p, v with
  | k :: p', JObj f => match mapGet k f with None => true | Some w => silent p' w end
  | _, _ => false
  end.

(** No object of the tree has a key twice; so is every tree a YAML parser returns. *)
Fixpoint uniqueKeys (v : json) : bool :=
  match v with
  | JObj f => bool_decide (NoDup (keys f)) && forallb (fun kv => uniqueKeys kv.2) f
  | _ => true
  end.

Lemma mergeValue_objects t s : mergeValue (Some (JObj t)) (JObj s) = JObj (deepMerge t s).
Proof.
  cbn [mergeValue]. f_equal. unfold deepMerge. generalize t at 2 4 as result.
  induction s as [|[k v] s IH]; intros result; [done|]. cbn [foldl fst snd]. apply IH.
Qed.

Lemma mapGet_deepMerge k t s : NoDup (keys s) ->
  mapGet k (deepMerge t s)
  = match mapGet k s with Some v => Some (mergeValue (mapGet k t) v) | None => mapGet k t end.
Proof.
  unfold deepMerge. assert (forall result, NoDup (keys s) ->
    mapGet k (foldl (fun r kv => mapSet kv.1 (mergeValue (mapGet kv.1 t) kv.2) r) result s)
    = match mapGet k s with Some v => Some (mergeValue (mapGet k t) v) | None => mapGet k result end) as H;
    [|by apply H].
  induction s as [|[u v] s IH]; intros result Hn; [done|]. inv Hn. cbn [foldl fst snd].
  rewrite IH, mapGet_cons, mapGet_mapSet by done.
  destruct (decide (u = k)) as [->|Hu].
  - apply mapGet_None in H1. rewrite H1. by rewrite !bool_decide_eq_true_2.
  - rewrite !bool_decide_eq_false_2 by congruence. done.
Qed.

Lemma uniqueKeys_member k f v : uniqueKeys (JObj f) = true -> mapGet k f = Some v -> uniqueKeys v = true.
Proof.
  cbn. intros [Hn Hf]%andb_true_iff Hk. to_prop. apply mapGet_Some in Hk; [|done].
  rewrite forallb_forall in Hf. apply list_elem_of_In in Hk. by apply (Hf (k, v)).
Qed.

Lemma deepMerge_leaf p t s v : uniqueKeys (JObj s) = true -> isPlainObject v = false ->
  valueAt p (JObj (deepMerge t s)) = Some v <->
  valueAt p (JObj s) = Some v \/ silent p (JObj s) = true /\ valueAt p (JObj t) = Some v.
Proof.
  intros Hs Hv. revert t s Hs. induction p as [|k p IH]; intros t s Hs.
  { cbn. split; [by intros [= <-]|]. intros [[= <-]|[? _]]; done. }
  cbn [valueAt silent member]. pose proof Hs as [Hn _]%andb_true_iff. to_prop.
  rewrite mapGet_deepMerge by done. destruct (mapGet k s) as [w|] eqn:Ek; [|naive_solver].
  pose proof (uniqueKeys_member _ _ _ Hs Ek) as Hw. cbn [mbind option_bind].
  destruct w as [| | | | |s']; [by destruct p; naive_solver..|].
  destruct (mapGet k t) as [[| | | | |t']|];
    [..|rewrite mergeValue_objects; by apply IH|]; by destruct p; naive_solver.
Qed.

(** ** The chain of presets *)

(** What the layers, the strongest last, say at a leaf: the last one that is not silent decides. *)
Definition decidedBy (layers : list (jsmap json)) (p : list str) (v : json) : Prop :=
  exists before l after, layers = before ++ l :: after /\ valueAt p (JObj l) = Some v /\
    Forall (fun s => silent p (JObj s) = true) after.

Lemma decidedBy_snoc layers s p v :
  decidedBy (layers ++ [s]) p v <->
  valueAt p (JObj s) = Some v \/ silent p (JObj s) = true /\ decidedBy layers p v.
Proof.
  split.
  - intros (before & l & after & E & Hl & Ha). destruct after as [|a after] using rev_ind.
    { apply app_inj_tail in E as [_ ->]. by left. }
    rewrite app_comm_cons, app_assoc in E. apply app_inj_tail in E as [-> ->].
    apply Forall_app in Ha as [Ha [Hs _]%Forall_cons]. right. split; [done|]. by exists before, l, after.
  - intros [H|(Hs & before & l & after & -> & Hl & Ha)].
    { exists layers, s, []. by split_and!. }
    exists before, l, (after ++ [s]). rewrite <- app_assoc. split_and!; [done..|].
    apply Forall_app. split; [done|]. by repeat constructor.
Qed.

Lemma foldl_deepMerge_leaf layers p v :
  Forall (fun l => uniqueKeys (JObj l) = true) layers -> isPlainObject v = false ->
  valueAt p (JObj (foldl deepMerge [] layers)) = Some v <-> decidedBy layers p v.
Proof.
  intros H Hv. induction layers as [|l layers IH] using rev_ind.
  { cbn. split; [|by intros ([] & ? & ? & ? & _)].
    destruct p; cbn; [by intros [= <-]|done]. }
  apply Forall_app in H as [H [Hl _]%Forall_cons]. rewrite foldl_app. cbn [foldl].
  rewrite deepMerge_leaf, decidedBy_snoc, IH by done. done.
Qed.

Definition presetLayers (names : list str) : list (jsmap json) :=
  omap (fun n => mapGet n BUNDLED_PRESETS) names.

Lemma presetLayers_cons n preset ns :
  mapGet n BUNDLED_PRESETS = Some preset -> presetLayers (n :: ns) = preset :: presetLayers ns.
Proof. intros E. unfold presetLayers, omap. cbn -[BUNDLED_PRESETS mapGet]. by rewrite E. Qed.

Lemma bundled_layers names : Forall (fun l => uniqueKeys (JObj l) = true) (presetLayers names).
Proof.
  apply Forall_forall. intros l (n & _ & Hn)%list_elem_of_omap.
  apply mapGet_Some in Hn; [|refine (bool_decide_eq_true_1 _ _); by vm_compute].
  repeat (apply elem_of_cons in Hn as [[= _ ->]|Hn]; [by vm_compute|]). by apply elem_of_nil in Hn.
Qed.

Lemma no_inner_cycle n preset visited : mapGet n BUNDLED_PRESETS = Some preset -> innerCycle preset visited = None.
Proof.
  intros Hn. unfold innerCycle. replace (mapGet (js "extends") preset) with (@None json); [done|].
  apply mapGet_Some in Hn; [|refine (bool_decide_eq_true_1 _ _); by vm_compute].
  repeat (apply elem_of_cons in Hn as [[= _ ->]|Hn]; [by vm_compute|]). by apply elem_of_nil in Hn.
Qed.

Lemma resolveGo_string n names visited base :
  resolveGo (JStr n :: names) visited base =
  match mapGet n BUNDLED_PRESETS with
  | Some preset =>
      if bool_decide (n ∈ visited) then Throw (PresetCycleError (map JStr visited ++ [JStr n]))
      else resolveGo names (visited ++ [n]) (deepMerge base preset)
  | None =>
      Throw (if bool_decide (n ∈ visited) && bool_decide (n <> js "org")
             then PresetCycleError (map JStr visited ++ [JStr n]) else PresetNotFoundError (JStr n))
  end.
Proof.
  cbn [resolveGo loadBundledPresetRaw]. destruct (decide (n = js "org")) as [->|Ho].
  { rewrite bool_decide_eq_true_2 by done. rewrite (bool_decide_eq_false_2 (_ <> _)) by naive_solver.
    by rewrite andb_false_r. }
  rewrite bool_decide_eq_false_2, (bool_decide_eq_true_2 (n <> _)), andb_true_r by done.
  destruct (mapGet n BUNDLED_PRESETS) as [preset|] eqn:E; [|by case_bool_decide].
  cbn [mbind result_bind]. by rewrite (no_inner_cycle _ _ _ E).
Qed.

Lemma resolveGo_Ok names visited base r :
  resolveGo names visited base = Ok r <->
  exists ns, names = map JStr ns /\ NoDup ns /\ Forall (fun n => n ∉ visited) ns /\
    Forall (fun n => n ∈ keys BUNDLED_PRESETS) ns /\ r = foldl deepMerge base (presetLayers ns).
Proof.
  revert visited base. induction names as [|name names IH]; intros visited base.
  { split; [intros [= <-]; exists []; by repeat constructor|]. by intros ([|n ns] & [=] & _ & _ & _ & ->). }
  destruct name as [| | |n| |];
    try (split; [done|]; by intros ([|m ns] & [=] & _)).
  rewrite resolveGo_string. destruct (mapGet n BUNDLED_PRESETS) as [preset|] eqn:E.
  - assert (n ∈ keys BUNDLED_PRESETS) as Hk.
    { destruct (decide (n ∈ keys BUNDLED_PRESETS)) as [?|Hk]; [done|].
      apply mapGet_None in Hk. congruence. }
    case_bool_decide as Hv.
    { split; [done|]. intros ([|m ns] & [= -> ->] & _ & [Hm _]%Forall_cons & _). done. }
    rewrite IH. clear IH. split.
    + intros (ns & -> & Hn & Ho & Hb & ->). exists (n :: ns). rewrite !Forall_cons, NoDup_cons.
      rewrite Forall_forall in Ho. split_and!; [done| |done|done| |done|done|].
      * intros Hin. apply (Ho n Hin). set_solver.
      * apply Forall_forall. intros x Hx ?. apply (Ho x Hx). set_solver.
      * by rewrite (presetLayers_cons _ _ _ E).
    + intros ([|m ns] & [= -> ->] & [Hm Hn]%NoDup_cons & [_ Ho]%Forall_cons & [_ Hb]%Forall_cons & ->).
      exists ns. split_and!; [done..| |done|].
      * rewrite Forall_forall in *. intros x Hx Hin. apply elem_of_app in Hin as [Hin|Hin]; [by apply (Ho x Hx)|].
        apply list_elem_of_singleton in Hin as ->. done.
      * by rewrite (presetLayers_cons _ _ _ E).
  - split; [done|]. apply mapGet_None in E.
    by intros ([|m ns] & [= -> ->] & _ & _ & [Hb _]%Forall_cons & _).
Qed.

(** ** Resolving an [extends] *)

(** C15. A chain of presets resolves exactly when its names are distinct bundled ones, and every leaf of
    the result is then decided by the last layer that speaks about it: the repository's own file
    first, then the presets from right to left; arrays and scalars are replaced as a whole. *)
Theorem preset_layers (names : list json) (repoRaw : jsmap json) (Hu : uniqueKeys (JObj repoRaw) = true) :
  (is_ok (resolveExtendsPresets names repoRaw) = true <->
   exists ns, names = map JStr ns /\ NoDup ns /\ Forall (fun n => n ∈ keys BUNDLED_PRESETS) ns) /\
  forall ns r, resolveExtendsPresets (map JStr ns) repoRaw = Ok r ->
  forall p v, isPlainObject v = false ->
  valueAt p (JObj r) = Some v <-> decidedBy (presetLayers ns ++ [repoRaw]) p v.
Proof.
  unfold resolveExtendsPresets. split.
  - destruct (resolveGo names [] []) as [base|e] eqn:E; cbn; split; try done.
    + intros _. apply resolveGo_Ok in E as (ns & -> & Hn & _ & Hb & _). by exists ns.
    + intros (ns & -> & Hn & Hb). exfalso.
      assert (resolveGo (map JStr ns) [] [] = Ok (foldl deepMerge [] (presetLayers ns))); [|congruence].
      apply resolveGo_Ok. exists ns. split_and!; [done..| |done|done].
      apply Forall_true. intros x. apply not_elem_of_nil.
  - intros ns r Hr p v Hv. destruct (resolveGo (map JStr ns) [] []) as [base|e] eqn:E; [|done].
    cbn in Hr. injection Hr as <-.
    apply resolveGo_Ok in E as (ns' & Hns & _ & _ & _ & ->).
    assert (Inj (=) (=) JStr) as HJ by (by intros x y [= ->]). apply (inj (map JStr)) in Hns as <-.
    rewrite deepMerge_leaf, decidedBy_snoc, foldl_deepMerge_leaf by (done || apply bundled_layers).
    done.
Qed.

Lemma preset_layers_witness :
  let repo := fields [("reviews", object [("max_steps", int 7)])]%string in
  let steps := [js "reviews"; js "max_steps"] in
  exists r, resolveExtendsPresets [JStr (js "recommended"); JStr (js "strict")] repo = Ok r /\
    valueAt steps (JObj r) = Some (int 7) /\
    valueAt [js "reviews"; js "max_files"] (JObj r) = Some (int 100) /\
    decidedBy [RECOMMENDED_YAML; STRICT_YAML; repo] steps (int 7).
Proof.
  eexists. split; [reflexivity|]. split; [by vm_compute|]. split; [by vm_compute|].
  refine (proj1 (proj2 (preset_layers [] (fields [("reviews", object [("max_steps", int 7)])]%string) _)
    [js "recommended"; js "strict"] _ _ [js "reviews"; js "max_steps"] (int 7) _) _);
    [by vm_compute|reflexivity|done|by vm_compute].
Defined.
