(* ===== verification/Codec.v ===== *)
(** * Schemas as readers, and the interface of a reader

    The combinators of the validation library the configuration uses (strings, numbers, arrays,
    enumerations, strict objects, defaults) as functions on parsed values. [Codec] is what a schema
    promises to its clients: what it accepts is well formed, and a well-formed value written out is
    read back. *)

From S2P Require Import Prelude JsNumber JsMap JsonTree.

(** ** Readers

    A reader takes a member, [None] when it is absent, and answers [None] to refuse it. *)

Definition reader (A : Type) : Type := option json -> option A.

Definition requiredR {A} (f : json -> option A) : reader A := fun v => x ← v; f x.
Definition optionalR {A} (f : json -> option A) : reader (option A) := fun v =>
  match v with None => Some None | Some x => Some <$> f x end.
(** [.default(d)]: for an absent member only; [null] is refused like any other value. *)
Definition defaultR {A} (d : A) (f : json -> option A) : reader A := fun v =>
  match v with None => Some d | Some x => f x end.
(** [.default({})]: the schema reads the empty object when the member is absent. *)
Definition emptyR {A} (f : json -> option A) : reader A := fun v => f (default (JObj []) v).

Definition asBool (v : json) : option bool := match v with JBool b => Some b | _ => None end.
Definition asString (v : json) : option str := match v with JStr s => Some s | _ => None end.
Definition checked {A} (test : A -> bool) (f : json -> option A) (v : json) : option A :=
  x ← f v; if test x then Some x else None.
(** [z.string().min(1)] *)
Definition asName : json -> option str := checked (fun s => bool_decide (s <> [])) asString.
(** [z.number()] refuses NaN. *)
Definition asNumber (v : json) : option number :=
  match v with JNum n => if is_nan n then None else Some n | _ => None end.
(** A whole number within bounds. *)
Definition isInt (lo : Z) (hi : option Z) (x : number) : bool :=
  match integerOf x with
  | Some n => (lo <=? n)%Z && match hi with Some h => (n <=? h)%Z | None => true end
  | None => false
  end.
Definition asInt (lo : Z) (hi : option Z) : json -> option number := checked (isInt lo hi) asNumber.
Definition asPositive : json -> option number := checked (fun x => ngt x zero) asNumber.
Definition asArray {A} (f : json -> option A) (v : json) : option (list A) :=
  match v with JArr l => mapM f l | _ => None end.
Definition asEnum {A} (values : list (str * A)) (v : json) : option A :=
  s ← asString v; mapGet s values.
(** A [.strict()] object: its members, when it has no other keys. *)
Definition asObject (known : list string) (v : json) : option (jsmap json) :=
  match v with
  | JObj fields =>
      if forallb (fun f => bool_decide (f.1 ∈ map js known)) fields then Some fields else None
  | _ => None
  end.
(** [z.record(keySchema, valueSchema)]: assigned key by key. *)
Definition asRecord {A} (isKey : str -> bool) (f : json -> option A) (v : json) : option (jsmap A) :=
  match v with
  | JObj fields =>
      foldl (fun acc kv => m ← acc; if isKey kv.1 then x ← f kv.2; Some (mapSet kv.1 x m) else None)
        (Some []) fields
  | _ => None
  end.
Definition at_ {A} (key : string) (r : reader A) (fields : jsmap json) : option A :=
  r (mapGet key fields).

(** An enumeration whose values are its own strings. *)
Definition texts (l : list string) : list (str * str) := map (fun s => (js s, js s)) l.

(** An object written out; an [undefined] member is absent. *)
Definition entries (l : list (string * option json)) : jsmap json :=
  omap (fun kv => (fun v => (js kv.1, v)) <$> kv.2) l.
Definition obj (l : list (string * option json)) : json := JObj (entries l).
Fixpoint entryAt (key : string) (l : list (string * option json)) : option json :=
  match l with
  | [] => None
  | (k, v) :: l' =>
      if String.eqb k key then v else entryAt key l'
  end.
Fixpoint distinct (l : list string) : bool :=
  match l with [] => true | x :: l' => negb (existsb (String.eqb x) l') && distinct l' end.

(** ** The interface *)

Class Codec {A} (f : json -> option A) (e : A -> json) (w : A -> Prop) : Prop := {
  decode_wf : forall v a, f v = Some a -> w a;
  decode_encode : forall a, w a -> f (e a) = Some a;
}.

Class Member {A} (r : reader A) (e : A -> option json) (w : A -> Prop) : Prop := {
  read_wf : forall v a, r v = Some a -> w a;
  read_back : forall a, w a -> r (e a) = Some a;
}.
#[global] Hint Mode Codec - ! - - : typeclass_instances.
#[global] Hint Mode Member - ! - - : typeclass_instances.

(** ** The combinators implement it *)

#[export] Instance asBool_codec : Codec asBool JBool (fun _ => True).
Proof. by split. Qed.

#[export] Instance asString_codec : Codec asString JStr (fun _ => True).
Proof. by split. Qed.

#[export] Instance asNumber_codec : Codec asNumber JNum (fun n => is_nan n = false).
Proof.
  split; [|by intros a H; cbn; rewrite H].
  intros [] a; try done. cbn. destruct (is_nan n) eqn:E; [done|]. by intros [= <-].
Qed.

#[export] Instance checked_codec {A} test (f : json -> option A) e w :
  Codec f e w -> Codec (checked test f) e (fun a => w a /\ test a = true).
Proof.
  intros C. split; unfold checked.
  - intros v a H. destruct (f v) as [x|] eqn:E; [|done]. cbn in H.
    destruct (test x) eqn:T; simplify_eq. split; [exact (decode_wf _ _ E)|done].
  - intros a [Hw Ht]. rewrite decode_encode by done. cbn. by rewrite Ht.
Qed.

#[export] Instance asName_codec : Codec asName JStr (fun s => s <> []).
Proof.
  split.
  - intros v a H%(decode_wf (w := fun a => True /\ bool_decide (a <> []) = true)). naive_solver.
  - intros a H. unfold asName, checked. cbn. by rewrite bool_decide_eq_true_2.
Qed.

#[export] Instance asInt_codec lo hi :
  Codec (asInt lo hi) JNum (fun n => is_nan n = false /\ isInt lo hi n = true).
Proof. apply checked_codec, asNumber_codec. Qed.

#[export] Instance asPositive_codec :
  Codec asPositive JNum (fun n => is_nan n = false /\ ngt n zero = true).
Proof. apply checked_codec, asNumber_codec. Qed.

#[global] Typeclasses Opaque asName asInt asPositive.

#[export] Instance asArray_codec {A} (f : json -> option A) e w :
  Codec f e w -> Codec (asArray f) (fun l => JArr (map e l)) (Forall w).
Proof.
  intros C. split.
  - intros [] a; try done. cbn. intros H%mapM_Some.
    apply Forall_forall. intros x Hx. apply list_elem_of_lookup in Hx as [i Hi].
    destruct (Forall2_lookup_r _ _ _ _ _ H Hi) as (y & _ & Hy). exact (decode_wf _ _ Hy).
  - intros l H. cbn. apply mapM_Some. induction H; cbn; constructor; auto.
    by apply decode_encode.
Qed.

Lemma mapGet_texts s l x : mapGet s (texts l) = Some x -> x = s /\ s ∈ map js l.
Proof.
  induction l as [|t l IH]; [done|]. cbn [texts map]. rewrite mapGet_cons.
  case_bool_decide; [intros [= <-]; subst; split; [done|left]|].
  intros [-> Hin]%IH. split; [done|by right].
Qed.

Lemma mapGet_texts_in s l : s ∈ map js l -> mapGet s (texts l) = Some s.
Proof.
  induction l as [|t l IH]; [by intros ?%elem_of_nil|]. cbn [texts map].
  rewrite elem_of_cons, mapGet_cons. case_bool_decide; [by subst|]. intros [->|H']; [done|by apply IH].
Qed.

#[export] Instance asEnum_texts l : Codec (asEnum (texts l)) JStr (fun s => s ∈ map js l).
Proof.
  split; unfold asEnum; [|intros s H; cbn; by apply mapGet_texts_in].
  intros [] a; try done. cbn. by intros [-> H]%mapGet_texts.
Qed.

(** An enumeration with its printer: every value is printed as one of its names. *)
Lemma asEnum_codec {A} (values : list (str * A)) (print : A -> str) :
  (forall a, mapGet (print a) values = Some a) ->
  Codec (asEnum values) (fun a => JStr (print a)) (fun _ => True).
Proof. intros H. split; [done|]. intros a _. apply H. Qed.

Section record.
Context {A} (isKey : str -> bool) (f : json -> option A) (e : A -> json) (w : A -> Prop).

Definition record_wf (m : jsmap A) : Prop :=
  NoDup (keys m) /\ Forall (fun kv => isKey kv.1 = true /\ w kv.2) m.

Lemma record_wf_mapSet k a m :
  isKey k = true -> w a -> record_wf m -> record_wf (mapSet k a m).
Proof.
  intros Hk Ha [Hn Hm]. destruct (mapGet k m) as [b|] eqn:E.
  - destruct (mapSet_known k a b m E) as [Hkeys Hin]. split; [by rewrite Hkeys|].
    apply Forall_forall. intros [u g] H. apply Hin in H as [[-> ->]|H]; [done|].
    rewrite Forall_forall in Hm. by apply (Hm (u, g)).
  - apply mapGet_None in E. rewrite mapSet_new by done. split.
    + unfold keys. rewrite map_app. apply NoDup_app. split; [done|]. split; [|apply NoDup_singleton].
      intros x Hx. cbn. intros ->%list_elem_of_singleton. done.
    + apply Forall_app. split; [done|]. by repeat constructor.
Qed.

Local Definition step (acc : option (jsmap A)) (kv : str * json) : option (jsmap A) :=
  m ← acc; if isKey kv.1 then x ← f kv.2; Some (mapSet kv.1 x m) else None.

Lemma record_step_None fields : foldl step None fields = None.
Proof. by induction fields. Qed.

Lemma asRecord_codec : Codec f e w ->
  Codec (asRecord isKey f) (fun m => JObj (map (fun kv => (kv.1, e kv.2)) m)) record_wf.
Proof.
  intros C. split.
  - intros [] a; try done. cbn. fold step.
    assert (record_wf []) as H0 by (split; constructor).
    revert H0. generalize (@nil (str * A)) as acc. induction fields as [|[k v] fields IH]; cbn.
    { by intros acc ? [= <-]. }
    intros acc Hacc. unfold step at 1. cbn. destruct (isKey k) eqn:Ek; [|by rewrite record_step_None].
    destruct (f v) as [x|] eqn:E; cbn; [|by rewrite record_step_None].
    apply IH. apply record_wf_mapSet; [done|exact (decode_wf _ _ E)|done].
  - intros m H. cbn. fold step.
    assert (forall acc, record_wf (acc ++ m) ->
      foldl step (Some acc) (map (fun kv => (kv.1, e kv.2)) m) = Some (acc ++ m)) as Hgo;
      [|by apply (Hgo [])].
    clear H. induction m as [|[k a] m IH]; intros acc [Hn Hm]; cbn; [by rewrite app_nil_r|].
    pose proof Hm as [_ [[Hk Ha] _]%Forall_cons]%Forall_app. cbn in Hk, Ha.
    unfold step at 1. cbn. rewrite Hk, decode_encode by done. cbn.
    rewrite mapSet_new; [rewrite IH; by rewrite <- app_assoc|].
    unfold keys in Hn. rewrite map_app in Hn. apply NoDup_app in Hn as (_ & Hd & _).
    intros Hin. apply (Hd _ Hin). left.
Qed.
End record.

#[export] Instance requiredR_member {A} (f : json -> option A) e w :
  Codec f e w -> Member (requiredR f) (fun a => Some (e a)) w.
Proof.
  intros [Cw Ce]. split; [|intros a H; exact (Ce a H)].
  intros [v|] a; [|done]. intros H. exact (Cw _ _ H).
Qed.

#[export] Instance optionalR_member {A} (f : json -> option A) e w :
  Codec f e w -> Member (optionalR f) (fun a => e <$> a) (from_option w True).
Proof.
  intros [Cw Ce]. split.
  - intros [v|] a; cbn; [|by intros [= <-]]. intros (x & H & ->)%fmap_Some. exact (Cw _ _ H).
  - intros [a|] H; [|done]. cbn. by rewrite Ce.
Qed.

Lemma defaultR_member {A} (d : A) (f : json -> option A) e w :
  Codec f e w -> w d -> Member (defaultR d f) (fun a => Some (e a)) w.
Proof.
  intros [Cw Ce] Hd. split; [|intros a H; exact (Ce a H)].
  intros [v|] a H; [exact (Cw _ _ H)|]. by injection H as <-.
Qed.

#[export] Instance emptyR_member {A} (f : json -> option A) e w :
  Codec f e w -> Member (emptyR f) (fun a => Some (e a)) w.
Proof. intros [Cw Ce]. split; [|intros a H; exact (Ce a H)]. intros v a H. exact (Cw _ _ H). Qed.

(** The default of a member is well formed by evaluation. *)
Ltac default_wf := repeat constructor; try done; refine (bool_decide_eq_true_1 _ _); vm_compute; reflexivity.
#[export] Hint Extern 1 (Member (defaultR _ _) _ _) =>
  eapply @defaultR_member; [exact _|solve [default_wf]] : typeclass_instances.

(** ** Objects *)

Lemma entries_cons k v l :
  entries ((k, v) :: l) = match v with Some x => (js k, x) :: entries l | None => entries l end.
Proof. by destruct v. Qed.

Lemma mapGet_entries key l :
  distinct (map fst l) = true -> mapGet (js key) (entries l) = entryAt key l.
Proof.
  induction l as [|[k v] l IH]; [done|]. rewrite entries_cons. cbn [map fst distinct entryAt].
  intros [Hk H]%andb_true_iff. apply IH in H. destruct (String.eqb_spec k key) as [->|Hn].
  - destruct v as [v|]; [by rewrite mapGet_cons, bool_decide_eq_true_2|].
    rewrite H. clear H IH. induction l as [|[k v] l IH]; [done|]. cbn in *.
    destruct (String.eqb_spec key k) as [->|Hn]; [done|].
    rewrite <- String.eqb_neq, String.eqb_sym in Hn. rewrite Hn. by apply IH.
  - destruct v as [v|]; [|done]. rewrite mapGet_cons, bool_decide_eq_false_2; [done|].
    by intros ?%js_inj.
Qed.

Lemma asObject_obj known l :
  forallb (fun kv => existsb (String.eqb kv.1) known) l = true ->
  asObject known (obj l) = Some (entries l).
Proof.
  intros H. cbn. replace (forallb _ (entries l)) with true; [done|]. symmetry.
  induction l as [|[k v] l IH]; [done|]. rewrite entries_cons. cbn in H. apply andb_true_iff in H as [Hk H].
  destruct v as [v|]; [|by apply IH]. cbn [forallb]. rewrite IH, andb_true_r by done. apply bool_decide_eq_true_2.
  apply existsb_exists in Hk as (x & Hx & ->%String.eqb_eq).
  apply list_elem_of_In. by apply (in_map js).
Qed.

Lemma at_wf {A} key (r : reader A) o e w a : Member r e w -> at_ key r o = Some a -> w a.
Proof. intros M. exact (read_wf _ _). Qed.

Lemma at_entries {A} key (r : reader A) l e w a :
  Member r e w -> distinct (map fst l) = true -> entryAt key l = e a -> w a ->
  at_ key r (entries l) = Some a.
Proof. intros M D E H. unfold at_. rewrite mapGet_entries, E by done. by apply read_back. Qed.

Lemma at_default {A} key d (f : json -> option A) l :
  distinct (map fst l) = true -> entryAt key l = None -> at_ key (defaultR d f) (entries l) = Some d.
Proof. intros D E. unfold at_. by rewrite mapGet_entries, E. Qed.

Lemma at_empty {A} key (f : json -> option A) l :
  distinct (map fst l) = true -> entryAt key l = None -> at_ key (emptyR f) (entries l) = f (JObj []).
Proof. intros D E. unfold at_. by rewrite mapGet_entries, E. Qed.

Lemma at_present {A} key (f : json -> option A) l v :
  distinct (map fst l) = true -> entryAt key l = Some v -> at_ key (emptyR f) (entries l) = f v.
Proof. intros D E. unfold at_. by rewrite mapGet_entries, E. Qed.

Lemma from_option_trivial {A} (o : option A) : from_option (fun _ => True) True o.
Proof. by destruct o. Qed.

(** What the reader of an object tells about the record it builds. *)
Ltac object_wf :=
  repeat match goal with
  | H : (_ ≫= _) = Some _ |- _ => apply bind_Some in H as (? & ? & ?)
  | H : at_ _ _ _ = Some _ |- _ => eapply at_wf in H; [|exact _]
  | H : Some _ = Some _ |- _ => injection H as <-
  end.

Ltac member_wf :=
  first [exact I|assumption|by case_match|by apply from_option_trivial|by apply Forall_true].

(** The members of an object written out are read back one after the other, absent ones as their
    defaults. *)
Ltac members_back :=
  repeat (cbn [mbind option_bind];
    first [ erewrite at_entries; [|exact _|reflexivity|reflexivity|solve [member_wf]]
          | rewrite at_default by reflexivity
          | rewrite at_empty by reflexivity ]).
Ltac object_back := rewrite asObject_obj by reflexivity; members_back.
