(* ===== verification/SkillLoader.v ===== *)
(** * Skills (runner/src/skill-loader.ts)

    A skill is a file with a front matter and a body of instructions for the model. The loader reads
    the front matter with a small parser of its own and checks it; the block of the prompt holds the
    bodies of the skills that apply, by priority, without script tags and shell code fences. Files
    are read by a parameter; [resolve] and [join] are node's path functions. *)

From S2P Require Import Prelude JsNumber NumberText JsMap JsonTree Regex Glob Codec Schema.

Definition MAX_SKILL_BYTES : nat := 50000.

Inductive SkillError :=
  | TooLarge (reference : str)
  | MissingFrontmatter (reference : str)
  | InvalidFrontmatter (reference : str)
  | NotBundled (request : str)
  | BadPattern (pattern : str).

Record SkillFrontmatter := {
  sk_name : str;
  sk_description : option str;
  sk_version : option str;
  applies_to : list str;
  priority : number;
}.

Record Skill := { sk_source : str; sk_frontmatter : SkillFrontmatter; sk_body : str }.

(** ** The front matter *)

Definition boundedString (lo hi : nat) : json -> option str :=
  checked (fun s => (lo <=? length s) && (length s <=? hi))%nat asString.
Definition asWhole : json -> option number :=
  checked (fun x => bool_decide (is_Some (integerOf x))) asNumber.

Definition SkillFrontmatterSchema (v : json) : option SkillFrontmatter :=
  o ← asObject ["name"; "description"; "version"; "applies_to"; "priority"]%string v;
  n ← at_ "name" (requiredR (boundedString 1 64)) o;
  d ← at_ "description" (optionalR (boundedString 0 500)) o;
  ve ← at_ "version" (optionalR (boundedString 0 32)) o;
  a ← at_ "applies_to" (defaultR [] (asArray asName)) o;
  p ← at_ "priority" (defaultR (num_of_Z 50) asWhole) o;
  Some {| sk_name := n; sk_description := d; sk_version := ve; applies_to := a; priority := p |}.

Definition unquote (value : str) : str :=
  let trimmed := trim value in
  if (startsWith trimmed quote && endsWith trimmed quote)
     || (startsWith trimmed "'" && endsWith trimmed "'")
  then take (length trimmed - 2) (drop 1 trimmed)
  else trimmed.

Definition carriageReturn : ascii := "013"%char.

(** [/^\s*-\s+(.+)$/] on a line: the text after the dash. When only white space follows it, [.+]
    takes its last character. *)
Definition arrayItem (line : str) : option str :=
  match dropWhile is_ws line with
  | "-"%char :: u =>
      let blanks := takeWhile is_ws u in
      let v := drop (length blanks) u in
      if bool_decide (blanks = []) || bool_decide (carriageReturn ∈ v) then None
      else match v, rev blanks with
           | [], c :: _ :: _ => if eqc c carriageReturn then None else Some [c]
           | [], _ => None
           | _, _ => Some v
           end
  | _ => None
  end.

Definition is_alpha (c : ascii) : bool :=
  let n := code (fold_char c) in ((97 <=? n) && (n <=? 122))%N.
Definition isKeyStart (c : ascii) : bool := is_alpha c || eqc c "_".
Definition isKeyChar (c : ascii) : bool := isKeyStart c || is_digit c.

(** A key, a colon, white space, and the rest of the line, which holds no carriage return. *)
Definition keyValue (line : str) : option (str * str) :=
  let key := takeWhile isKeyChar line in
  match key, drop (length key) line with
  | c :: _, ":"%char :: u =>
      let v := dropWhile is_ws u in
      if isKeyStart c && negb (bool_decide (carriageReturn ∈ v)) then Some (key, v) else None
  | _, _ => None
  end.

(** [/^-?\d+(\.\d+)?$/] *)
Definition isNumberText (s : str) : bool :=
  let t := match s with "-"%char :: u => u | _ => s end in
  let ds := takeWhile is_digit t in
  match ds, drop (length ds) t with
  | [], _ => false
  | _, [] => true
  | _, "."%char :: fs => bool_decide (fs <> []) && forallb is_digit fs
  | _, _ => false
  end.

(** One line of [parseFrontmatter]: the object so far and the key whose list is open. *)
Definition frontmatterLine (st : jsmap json * option str) (rawLine : str) : jsmap json * option str :=
  let '(out, currentArrayKey) := st in
  if bool_decide (trim rawLine = []) then st
  else match arrayItem rawLine, currentArrayKey with
  | Some item, Some key =>
      let arr := match mapGet key out with Some (JArr l) => l | _ => [] end in
      (mapSet key (JArr (arr ++ [JStr (unquote item)])) out, currentArrayKey)
  | _, _ =>
      match keyValue rawLine with
      | None => st
      | Some (key, value) =>
          let rawValue := trim value in
          if bool_decide (rawValue = []) then (mapSet key (JArr []) out, Some key)
          else if isNumberText rawValue then (mapSet key (JNum (toNumber rawValue)) out, None)
          else if bool_decide (rawValue = js "true") || bool_decide (rawValue = js "false")
          then (mapSet key (JBool (bool_decide (rawValue = js "true"))) out, None)
          else (mapSet key (JStr (unquote rawValue)) out, None)
      end
  end.

Definition parseFrontmatter (text : str) : json :=
  JObj (foldl frontmatterLine ([], None) (splitChar newline text)).1.

(** [FRONTMATTER_REGEX]: the text between the first line [---] and the next one, and the rest. *)
Definition frontmatterParts (text : str) : option (str * str) :=
  let fence := ("---" : str) ++ nl in
  if startsWith text fence then
    i ← indexOf (drop 4 text) (nl ++ fence);
    Some (take i (drop 4 text), drop (i + 5) (drop 4 text))
  else None.

Definition parseSkillText (text reference : str) : result SkillError (SkillFrontmatter * str) :=
  match frontmatterParts text with
  | None => Throw (MissingFrontmatter reference)
  | Some (frontmatterText, body) =>
      match SkillFrontmatterSchema (parseFrontmatter frontmatterText) with
      | Some f => Ok (f, body)
      | None => Throw (InvalidFrontmatter reference)
      end
  end.

(** ** Loading *)

Section loading.
Context {W E : Type} (asError : SkillError -> E).
Context (isAbsolute : str -> bool) (pathResolve join : str -> str -> str).
Context (readFn : str -> eff W E str).

(** [/^[a-zA-Z][\w-]*$/] *)
Definition isPackageName (s : str) : bool :=
  match s with c :: u => is_alpha c && forallb (fun d => is_word d || eqc d "-") u | [] => false end.

Definition locateSkillFile (reference workspaceRoot : str) : result SkillError str :=
  if startsWith reference "@" || isPackageName reference
  then Throw (NotBundled (reference ++ "/SKILL.md"))
  else
    let abs := if isAbsolute reference then reference else pathResolve workspaceRoot reference in
    Ok (join abs "SKILL.md").

Definition liftSkill {A} (r : result SkillError A) : eff W E A :=
  match r with Ok a => mret a | Throw e => throw (asError e) end.

Definition loadSkill (workspaceRoot reference : str) : eff W E Skill :=
  skillFile ← liftSkill (locateSkillFile reference workspaceRoot);
  text ← readFn skillFile;
  if (MAX_SKILL_BYTES <? length text)%nat then throw (asError (TooLarge reference))
  else
    parsed ← liftSkill (parseSkillText text reference);
    mret {| sk_source := reference; sk_frontmatter := parsed.1; sk_body := parsed.2 |}.

(** [Promise.all] over the references; the reads do not depend on each other. *)
Fixpoint loadSkills (workspaceRoot : str) (references : list str) : eff W E (list Skill) :=
  match references with
  | [] => mret []
  | r :: rest => s ← loadSkill workspaceRoot r; l ← loadSkills workspaceRoot rest; mret (s :: l)
  end.
End loading.

(** ** Rendering *)

(** Remove every match, from left to right: [m] is the length of the match at the head of a text. *)
Fixpoint removeGo (m : str -> option nat) (skip : nat) (s : str) : str :=
  match s with
  | [] => []
  | c :: s' =>
      match skip with
      | S k => removeGo m k s'
      | O => match m s with
             | Some (S k) => removeGo m k s'
             | _ => c :: removeGo m 0 s'
             end
      end
  end.

(** [s.indexOf(p)] up to ASCII case. *)
Definition indexOfI (s p : str) : option nat := indexOf (map fold_char s) (map fold_char p).

(** [/<script[\s\S]*?<\/script>/i] at the head of a text. *)
Definition scriptMatch (s : str) : option nat :=
  if startsWithI s "<script" then i ← indexOfI (drop 7 s) "</script>"; Some (7 + i + 9) else None.

(** [/```\s*lang\b[\s\S]*?```/i] at the head of a text. *)
Definition fenceMatch (lang : str) (s : str) : option nat :=
  if startsWith s "```" then
    let blanks := takeWhile is_ws (drop 3 s) in
    let t := drop (3 + length blanks) s in
    if startsWithI t lang && negb (match drop (length lang) t with c :: _ => is_word c | [] => false end)
    then
      let start := 3 + length blanks + length lang in
      i ← indexOf (drop start s) "```"; Some (start + i + 3)
    else None
  else None.

Definition FORBIDDEN_FENCED_LANGS : list str :=
  [js "bash"; js "sh"; js "shell"; js "powershell"; js "python"].

Definition stripScriptyContent (body : str) : str :=
  foldl (fun out lang => removeGo (fenceMatch lang) 0 out) (removeGo scriptMatch 0 body)
    FORBIDDEN_FENCED_LANGS.

(** [applies_to.map(globToRegExp)]: the first pattern that does not compile throws. *)
Fixpoint compilePatterns (ps : list str) : result SkillError (list re) :=
  match ps with
  | [] => Ok []
  | p :: rest =>
      match patternToRegExp p with
      | Throw _ => Throw (BadPattern p)
      | Ok r => l ← compilePatterns rest; Ok (r :: l)
      end
  end.

Definition skillApplies (changedPaths : list str) (s : Skill) : result SkillError bool :=
  match applies_to (sk_frontmatter s), changedPaths with
  | [], _ | _, [] => Ok true
  | patterns, _ =>
      matchers ← compilePatterns patterns;
      Ok (existsb (fun p => existsb (fun m => matches m p) matchers) changedPaths)
  end.

Fixpoint filterByAppliesTo (skills : list Skill) (changedPaths : list str) : result SkillError (list Skill) :=
  match skills with
  | [] => Ok []
  | s :: rest =>
      keep ← skillApplies changedPaths s;
      l ← filterByAppliesTo rest changedPaths;
      Ok (if keep : bool then s :: l else l)
  end.

(** The stable sort by descending priority. *)
Definition higher (a b : Skill) : bool := ngt (priority (sk_frontmatter a)) (priority (sk_frontmatter b)).
Fixpoint insertSkill (s : Skill) (l : list Skill) : list Skill :=
  match l with
  | [] => [s]
  | t :: l' => if higher t s then t :: insertSkill s l' else s :: l
  end.
Definition sortSkills (l : list Skill) : list Skill := foldr insertSkill [] l.

Definition renderSkill (s : Skill) : str :=
  "### " ++ sk_name (sk_frontmatter s) ++ nl ++ nl ++ trim (stripScriptyContent (sk_body s)).

Definition renderSkillsBlock (skills : list Skill) (changedPaths : list str) : result SkillError str :=
  filtered ← filterByAppliesTo skills changedPaths;
  Ok (join (nl ++ nl) (map renderSkill (sortSkills filtered))).

(** ** Tests *)

Definition demoSkillText : str :=
  "---" ++ nl ++ "name: " ++ quote ++ "rust" ++ quote ++ nl ++ "priority: 70" ++ nl ++ "applies_to:" ++ nl
  ++ "  - src/**" ++ nl ++ "---" ++ nl ++ "Prefer iterators.".

Example parse_demo :
  parseSkillText demoSkillText "r" = Ok
    ({| sk_name := js "rust"; sk_description := None; sk_version := None; applies_to := [js "src/**"];
        priority := num_of_Z 70 |}, js "Prefer iterators.").
Proof. by vm_compute. Qed.

Example strip_demo :
  stripScriptyContent ("a <SCRIPT x>1</script> b ```sh" ++ nl ++ "ls``` c ```shx``` ")
  = ("a  b  c ```shx``` " : str).
Proof. by vm_compute. Qed.

(** ** Removing matches *)

Lemma removeGo_none m s : (forall t, includes s t = true -> m t = None) -> removeGo m 0 s = s.
Proof.
  induction s as [|c s IH]; [done|]. intros H. cbn.
  rewrite H by apply includes_refl. f_equal. apply IH. intros t Ht. apply H. cbn. by rewrite Ht, orb_true_r.
Qed.

(** Text in which no match can start, before the rest. *)
Lemma removeGo_plain m (a : ascii) t s :
  a ∉ t -> (forall c u, c <> a -> m (c :: u) = None) -> removeGo m 0 (t ++ s) = t ++ removeGo m 0 s.
Proof.
  intros Ha Hm. induction t as [|c t IH]; [done|]. apply not_elem_of_cons in Ha as [Hc Ht]. cbn.
  rewrite Hm by done. by rewrite IH.
Qed.

Lemma removeGo_drop m k s : removeGo m k s = removeGo m 0 (drop k s).
Proof. revert s. induction k as [|k IH]; intros [|c s]; try done. cbn [removeGo drop]. apply IH. Qed.

Lemma removeGo_cons m c s : m (c :: s) = None -> removeGo m 0 (c :: s) = c :: removeGo m 0 s.
Proof. intros H. cbn. by rewrite H. Qed.

Lemma removeGo_match m k s : m s = Some (S k) -> s <> [] -> removeGo m 0 s = removeGo m 0 (drop (S k) s).
Proof. intros H Hs. destruct s as [|c s]; [done|]. cbn. rewrite H. apply removeGo_drop. Qed.

Lemma fold_char_lt c : fold_char c = "<"%char -> c = "<"%char.
Proof.
  intros H. assert (implb (eqc (fold_char c) "<") (eqc c "<") = true) as Hi
    by (apply (all_ascii_spec (fun c => implb (eqc (fold_char c) "<") (eqc c "<"))); by vm_compute).
  rewrite H in Hi. cbn in Hi. by apply eqc_true in Hi.
Qed.

Lemma scriptMatch_lt c u : c <> "<"%char -> scriptMatch (c :: u) = None.
Proof.
  intros H. unfold scriptMatch, startsWithI. cbn [js String.list_ascii_of_string map startsWith].
  destruct (eqc _ (fold_char c)) eqn:E; [|done]. apply eqc_true in E. symmetry in E.
  by apply fold_char_lt in E.
Qed.

Lemma fenceMatch_tick lang c u : c <> "`"%char -> fenceMatch lang (c :: u) = None.
Proof.
  intros H. unfold fenceMatch. cbn [js String.list_ascii_of_string startsWith].
  destruct (eqc "`" c) eqn:E; [|done]. by apply eqc_true in E; subst.
Qed.

Lemma strip_no_ticks s :
  "`"%char ∉ s -> foldl (fun out lang => removeGo (fenceMatch lang) 0 out) s FORBIDDEN_FENCED_LANGS = s.
Proof.
  intros H. cbn [FORBIDDEN_FENCED_LANGS foldl].
  assert (forall lang, removeGo (fenceMatch lang) 0 s = s) as Hr; [|by rewrite !Hr].
  intros lang. rewrite <- (app_nil_r s) at 1. rewrite (removeGo_plain _ "`") by (done || apply fenceMatch_tick).
  apply app_nil_r.
Qed.

(** The removal is one pass: a script whose opening tag is split around an empty script is put
    together by it, and reaches the prompt whole. *)
Theorem stripping_assembles_a_script (t : str) (Ht : "<"%char ∉ t) (Hb : "`"%char ∉ t) :
  stripScriptyContent ("<scr<script></script>ipt>" ++ t ++ "</script>")
  = "<script>" ++ t ++ "</script>".
Proof.
  unfold stripScriptyContent.
  assert (removeGo scriptMatch 0 ("<scr<script></script>ipt>" ++ t ++ "</script>")
    = ("<script>" : str) ++ t ++ "</script>") as ->.
  { change (("<scr<script></script>ipt>" : str) ++ t ++ js "</script>")
      with ("<"%char :: (("scr" : str) ++ ("<script></script>" : str) ++ ("ipt>" : str) ++ t ++ js "</script>")).
    rewrite removeGo_cons by reflexivity.
    rewrite (removeGo_plain _ "<") by (not_in || apply scriptMatch_lt).
    rewrite (removeGo_match _ 16) by done.
    change (drop 17 (("<script></script>" : str) ++ ("ipt>" : str) ++ t ++ js "</script>"))
      with (("ipt>" : str) ++ t ++ js "</script>").
    rewrite (removeGo_plain _ "<" "ipt>") by (not_in || apply scriptMatch_lt).
    rewrite (removeGo_plain _ "<" t) by (done || apply scriptMatch_lt). done. }
  apply strip_no_ticks. rewrite !not_elem_of_app. split_and!; [not_in|done|not_in].
Qed.

Lemma stripping_assembles_a_script_witness :
  stripScriptyContent ("<scr<script></script>ipt>" ++ "fetch('//x')" ++ "</script>")
  = "<script>" ++ "fetch('//x')" ++ "</script>".
Proof. apply (stripping_assembles_a_script "fetch('//x')"); not_in. Defined.

(** ** What is loaded *)

#[export] Instance boundedString_codec lo hi :
  Codec (boundedString lo hi) JStr (fun s => True /\ ((lo <=? length s) && (length s <=? hi))%nat = true).
Proof. apply checked_codec, asString_codec. Qed.
#[export] Instance asWhole_codec :
  Codec asWhole JNum (fun n => is_nan n = false /\ bool_decide (is_Some (integerOf n)) = true).
Proof. apply checked_codec, asNumber_codec. Qed.
#[global] Typeclasses Opaque boundedString asWhole.

Definition frontmatter_wf (f : SkillFrontmatter) : Prop :=
  (1 <= length (sk_name f) <= 64)%nat /\
  (forall d, sk_description f = Some d -> (length d <= 500)%nat) /\
  (forall v, sk_version f = Some v -> (length v <= 32)%nat) /\
  Forall (fun p => p <> []) (applies_to f) /\ exists n, integerOf (priority f) = Some n.

Lemma SkillFrontmatterSchema_wf v f : SkillFrontmatterSchema v = Some f -> frontmatter_wf f.
Proof.
  unfold SkillFrontmatterSchema. intros H. object_wf. unfold frontmatter_wf. cbn [sk_name sk_description
    sk_version applies_to priority].
  destruct H4 as [_ H4], H0 as [_ H0]. to_prop. destruct H4 as [n H4].
  split_and!; [done|done| | |done|by exists n]; intros d ->; cbn in *; destruct_and?; to_prop; done.
Qed.

Section loaded.
Context {W E : Type} (asError : SkillError -> E).
Context (isAbsolute : str -> bool) (pathResolve join : str -> str -> str).
Context (readFn : str -> eff W E str).

(** A loaded skill comes from one read of a file named [SKILL.md], is at most 50000 characters
    long and has a checked front matter; a package name or a scoped reference never reads. *)
Theorem loaded_skill_is_bounded (root reference : str) (w w' : W) (s : Skill)
    (H : loadSkill asError isAbsolute pathResolve join readFn root reference w = (Ok s, w')) :
  (exists dir text, readFn (join dir "SKILL.md") w = (Ok text, w') /\
     (dir = reference \/ dir = pathResolve root reference) /\
     (length text <= 50000)%nat /\ (length (sk_body s) <= length text)%nat) /\
  frontmatter_wf (sk_frontmatter s) /\ sk_source s = reference /\
  startsWith reference "@" = false /\ isPackageName reference = false.
Proof.
  unfold loadSkill, locateSkillFile in H. apply bind_Ok in H as (file & w1 & Hf & H).
  destruct (startsWith reference "@" || isPackageName reference) eqn:Ep; [done|].
  apply orb_false_iff in Ep as [Ea Ep]. cbn in Hf. unfold mret, eff_ret in Hf. injection Hf as <- <-.
  apply bind_Ok in H as (text & w2 & Hr & H).
  destruct (MAX_SKILL_BYTES <? length text)%nat eqn:El; [done|]. apply Nat.ltb_ge in El.
  apply bind_Ok in H as (parsed & w3 & Hp & H). unfold mret, eff_ret in H. injection H as <- <-.
  unfold parseSkillText in Hp. destruct (frontmatterParts text) as [[fm body]|] eqn:Eb; [|done].
  destruct (SkillFrontmatterSchema _) as [f|] eqn:Ef; [|done]. cbn in Hp.
  unfold mret, eff_ret in Hp. injection Hp as <- <-. cbn [sk_frontmatter sk_source sk_body fst snd].
  split; [|split_and!; [by eapply SkillFrontmatterSchema_wf|done..]].
  exists (if isAbsolute reference then reference else pathResolve root reference), text.
  split_and!; [done|by destruct (isAbsolute _); [left|right]|unfold MAX_SKILL_BYTES in El; lia|].
  unfold frontmatterParts in Eb. cbv zeta in Eb. destruct (startsWith text _) in Eb; [|done].
  destruct (indexOf _ _) as [i|] in Eb; [|done]. cbn [mbind option_bind] in Eb. injection Eb as _ <-.
  rewrite !length_drop. lia.
Qed.
End loaded.

Lemma loaded_skill_is_bounded_witness : exists s,
  loadSkill (W := unit) (fun e => e) (fun _ => false) (fun a b => a ++ "/" ++ b) (fun a b => a ++ "/" ++ b)
    (fun _ w => (Ok demoSkillText, w)) "/w" "./skills/rust" tt = (Ok s, tt) /\
  frontmatter_wf (sk_frontmatter s).
Proof.
  eexists. split; [vm_compute; reflexivity|].
  eapply (loaded_skill_is_bounded (W := unit) (fun e => e) (fun _ => false) (fun a b => a ++ "/" ++ b)
    (fun a b => a ++ "/" ++ b) (fun _ w => (Ok demoSkillText, w)) "/w" "./skills/rust" tt tt).
  vm_compute. reflexivity.
Defined.

(** ** What is rendered *)

Lemma insertSkill_Permutation s l : insertSkill s l ≡ₚ s :: l.
Proof.
  induction l as [|t l IH]; [done|]. cbn. destruct (higher t s); [|done].
  rewrite IH. constructor.
Qed.

Lemma sortSkills_Permutation l : sortSkills l ≡ₚ l.
Proof. induction l as [|s l IH]; [done|]. cbn. by rewrite insertSkill_Permutation, IH. Qed.

(** Nothing lower stands before something higher. *)
Fixpoint descending (l : list Skill) : Prop :=
  match l with
  | [] => True
  | s :: l' => (forall t, t ∈ l' -> higher t s = false) /\ descending l'
  end.

Definition whole (s : Skill) : Prop := is_nan (priority (sk_frontmatter s)) = false.

Lemma insertSkill_descending s l :
  whole s -> Forall whole l -> descending l -> descending (insertSkill s l).
Proof.
  intros Hs Hl. induction Hl as [|t l Ht Hl IH]; cbn; [by split; [intros ? ?%elem_of_nil|]|].
  intros [Hd Hl']. destruct (higher t s) eqn:E; cbn.
  - split; [|by apply IH]. intros u Hu. rewrite insertSkill_Permutation, elem_of_cons in Hu.
    destruct Hu as [->|Hu]; [|by apply Hd]. unfold higher in *. by apply ngt_asym.
  - split; [|done]. intros u [->|Hu]%elem_of_cons; [done|].
    rewrite Forall_forall in Hl. unfold higher, whole in *.
    by apply (ngt_false_trans _ (priority (sk_frontmatter t))); auto.
Qed.

Lemma sortSkills_descending l : Forall whole l -> descending (sortSkills l).
Proof.
  induction 1 as [|s l Hs Hl IH]; [done|]. cbn. apply insertSkill_descending; [done| |done].
  by rewrite sortSkills_Permutation.
Qed.

(** Among skills of one priority the given order stays. *)
Lemma insertSkill_stable s l (P : Skill -> bool) : whole s -> Forall whole l ->
  (forall a b, P a = true -> P b = true -> higher a b = false) ->
  List.filter P (insertSkill s l) = List.filter P (s :: l).
Proof.
  intros Hs Hl HP. induction Hl as [|t l Ht Hl IH]; [done|]. cbn.
  destruct (higher t s) eqn:E; [|done]. cbn [List.filter]. rewrite IH. cbn.
  destruct (P t) eqn:Et, (P s) eqn:Es; try done. by rewrite HP in E.
Qed.

Lemma sortSkills_stable l (P : Skill -> bool) : Forall whole l ->
  (forall a b, P a = true -> P b = true -> higher a b = false) ->
  List.filter P (sortSkills l) = List.filter P l.
Proof.
  intros Hl HP. induction Hl as [|s l Hs Hl IH]; [done|]. change (sortSkills (s :: l)) with (insertSkill s (sortSkills l)).
  rewrite insertSkill_stable; [|done| |done].
  - cbn [List.filter]. by rewrite IH.
  - by rewrite sortSkills_Permutation.
Qed.

Definition samePriority (x : number) (s : Skill) : bool :=
  negb (ngt (priority (sk_frontmatter s)) x) && negb (ngt x (priority (sk_frontmatter s)))
  && negb (is_nan (priority (sk_frontmatter s))).

Lemma filterByAppliesTo_Ok skills paths l :
  filterByAppliesTo skills paths = Ok l ->
  exists f, (forall s, s ∈ skills -> skillApplies paths s = Ok (f s)) /\ l = List.filter f skills.
Proof.
  intros H. exists (fun s => match skillApplies paths s with Ok b => b | Throw _ => false end).
  revert l H. induction skills as [|s skills IH]; cbn; intros l H.
  { injection H as <-. split; [by intros ? ?%elem_of_nil|done]. }
  destruct (skillApplies paths s) as [keep|e] eqn:E; [|done]. cbn in H.
  destruct (filterByAppliesTo skills paths) as [l'|e]; [|done]. cbn in H. injection H as <-.
  destruct (IH l' eq_refl) as [Hf ->]. split; [|by destruct keep].
  intros t [->|Ht]%elem_of_cons; [by rewrite E|by apply Hf].
Qed.

(** The prompt's block holds exactly the skills that apply to the changed paths, each once, the
    higher priorities first and the given order among equals. *)
Theorem rendered_skills (skills : list Skill) (paths : list str) (block : str)
    (Hw : Forall whole skills) (H : renderSkillsBlock skills paths = Ok block) :
  exists applies l,
    (forall s, s ∈ skills -> skillApplies paths s = Ok (applies s)) /\
    block = join (nl ++ nl) (map renderSkill l) /\
    l ≡ₚ List.filter applies skills /\ descending l /\
    forall x, is_nan x = false ->
      List.filter (samePriority x) l = List.filter (samePriority x) (List.filter applies skills).
Proof.
  unfold renderSkillsBlock in H. destruct (filterByAppliesTo skills paths) as [fl|e] eqn:E; [|done].
  cbn in H. injection H as <-. apply filterByAppliesTo_Ok in E as (f & Hf & ->).
  assert (Forall whole (List.filter f skills)) as Hfw.
  { rewrite Forall_forall in *. intros s [Hs _]%elem_of_bfilter. by apply Hw. }
  exists f, (sortSkills (List.filter f skills)). split_and!; [done|done| | |].
  - apply sortSkills_Permutation.
  - by apply sortSkills_descending.
  - intros x Hx. apply sortSkills_stable; [done|]. unfold samePriority, higher. intros a b Ha Hb.
    to_prop. eapply (ngt_false_trans _ x); done.
Qed.

Definition demoSkill (name : string) (p : Z) (globs : list str) : Skill :=
  {| sk_source := js name; sk_body := js name;
     sk_frontmatter := {| sk_name := js name; sk_description := None; sk_version := None;
                          applies_to := globs; priority := num_of_Z p |} |}.
Definition demoSkills : list Skill :=
  [demoSkill "a" 50 []; demoSkill "b" 90 [js "src/**"]; demoSkill "c" 50 []; demoSkill "d" 99 [js "docs/*"]].

Lemma rendered_skills_witness : exists block applies l,
  renderSkillsBlock demoSkills [js "src/x/y.ts"] = Ok block /\
  block = join (nl ++ nl) (map renderSkill l) /\ l ≡ₚ List.filter applies demoSkills /\
  block = "### b" ++ nl ++ nl ++ "b" ++ nl ++ nl ++ "### a" ++ nl ++ nl ++ "a" ++ nl ++ nl
          ++ "### c" ++ nl ++ nl ++ "c".
Proof.
  destruct (rendered_skills demoSkills [js "src/x/y.ts"]
    ("### b" ++ nl ++ nl ++ "b" ++ nl ++ nl ++ "### a" ++ nl ++ nl ++ "a" ++ nl ++ nl
     ++ "### c" ++ nl ++ nl ++ "c")) as (f & l & _ & Hb & Hp & _);
    [by repeat constructor|by vm_compute|].
  exists ("### b" ++ nl ++ nl ++ "b" ++ nl ++ nl ++ "### a" ++ nl ++ nl ++ "a" ++ nl ++ nl
          ++ "### c" ++ nl ++ nl ++ "c"), f, l.
  split; [by vm_compute|]. by split_and!.
Defined.
