(* ===== verification/Config.v ===== *)
(** * The configuration schema (config/src/schema.ts, config/src/languages.ts)

    [.review-agent.yml] as a parsed value, and [ConfigSchema] as the function from such values to
    configurations: strict objects, defaults for absent members, bounds and enumerations. The YAML
    parser, the URL test and the engine that compiles regular expressions are parameters. *)

From S2P Require Import Prelude JsNumber JsMap JsonTree Review Schema Glob Codec.

(** ** The configuration *)

Inductive ExtendsValue := ExtName (s : str) | ExtList (l : list str) | ExtNull.

Record Provider := {
  pr_type : str;
  pr_modelName : str;
  fallback_models : list str;
  base_url : option str;
  region : option str;
  azure_deployment : option str;
  vertex_project_id : option str;
  anthropic_cache_control : bool;
}.

Record AutoReview := {
  ar_enabled : bool;
  drafts : bool;
  base_branches : list str;
  ar_paths : list str;
  ar_trigger_labels : list str;
  ar_skip_labels : list str;
}.

Record AutoFetchCfg := { af_tests : bool; af_types : bool; af_siblings : bool }.

Record PathInstruction := { pi_path : str; pi_instructions : str; auto_fetch : option AutoFetchCfg }.

Record Reviews := {
  auto_review : AutoReview;
  path_filters : list str;
  path_instructions : list PathInstruction;
  max_files : number;
  max_diff_lines : number;
  ignore_authors : list str;
  min_confidence : Confidence;
  request_changes_on : RequestChangesThreshold;
  max_steps : number;
  max_conversation_turns : number;
}.

Record CostCfg := { max_usd_per_pr : number; hard_stop : bool; daily_cap_usd : number }.
Record Privacy := { redact_patterns : list str; deny_paths : list str; allowed_url_prefixes : list str }.
Record Repo := { submodules : bool; lfs : bool }.
Record Coordination := { other_bots : str; other_bots_logins : list str }.
Record Incremental := { in_enabled : bool }.
Record ServerCfg := { workspace_strategy : str }.
Record CodecommitCfg := { approvalState : str }.
Record FeedbackCfg := { suppress_after : number }.
Record RulesetCategory := { rc_enabled : bool; rc_min_severity : Severity }.

Record Config := {
  extends : option ExtendsValue;
  language : str;
  profile : str;
  provider : option Provider;
  reviews : Reviews;
  cost : CostCfg;
  privacy : Privacy;
  repo : Repo;
  skills : list str;
  incremental : Incremental;
  coordination : Coordination;
  server : ServerCfg;
  codecommit : CodecommitCfg;
  ruleset : jsmap RulesetCategory;
  feedback : FeedbackCfg;
}.

Definition SUPPORTED_LANGUAGES : list string :=
  ["en-US"; "ja-JP"; "zh-CN"; "zh-TW"; "ko-KR"; "de-DE"; "fr-FR"; "es-ES"; "pt-BR"; "it-IT";
   "ru-RU"; "pl-PL"; "tr-TR"]%string.

Definition isSupportedLanguage (value : str) : bool := bool_decide (value ∈ map js SUPPORTED_LANGUAGES).

Definition isCategory (s : str) : bool :=
  bool_decide (s ∈ map js ["bug"; "security"; "performance"; "maintainability"; "style"; "docs"; "test"]%string).
Definition confidence_str (c : Confidence) : str :=
  match c with high => js "high" | medium => js "medium" | low => js "low" end.
Definition threshold_str (t : RequestChangesThreshold) : str :=
  match t with at_critical => js "critical" | at_major => js "major" | never => js "never" end.
Definition asSeverity : json -> option Severity :=
  asEnum (map (fun s => (severity_str s, s)) SEVERITIES).
Definition asConfidence : json -> option Confidence :=
  asEnum (map (fun c => (confidence_str c, c)) [high; medium; low]).
Definition asThreshold : json -> option RequestChangesThreshold :=
  asEnum (map (fun t => (threshold_str t, t)) [at_critical; at_major; never]).

(** ** The schemas *)

Section schema.
(** [new URL(s)] and [new RegExp(s)] return. *)
Context (isUrl compiles : str -> bool).

Definition asUrl : json -> option str := checked isUrl asString.
Definition asGlob : json -> option str := checked isValidGlob asName.
Definition asRegex : json -> option str := checked (isValidRegex compiles) asName.

Definition PROVIDER_TYPES : list string :=
  ["anthropic"; "openai"; "azure-openai"; "google"; "vertex"; "bedrock"; "openai-compatible"]%string.

Definition ProviderSchema (v : json) : option Provider :=
  o ← asObject ["type"; "model"; "fallback_models"; "base_url"; "region"; "azure_deployment";
                "vertex_project_id"; "anthropic_cache_control"]%string v;
  type ← at_ "type" (requiredR (asEnum (texts PROVIDER_TYPES))) o;
  model ← at_ "model" (requiredR asName) o;
  fallbacks ← at_ "fallback_models" (defaultR [] (asArray asName)) o;
  base ← at_ "base_url" (optionalR asUrl) o;
  reg ← at_ "region" (optionalR asString) o;
  azure ← at_ "azure_deployment" (optionalR asString) o;
  vertex ← at_ "vertex_project_id" (optionalR asString) o;
  cache ← at_ "anthropic_cache_control" (defaultR true asBool) o;
  Some {| pr_type := type; pr_modelName := model; fallback_models := fallbacks; base_url := base;
          region := reg; azure_deployment := azure; vertex_project_id := vertex;
          anthropic_cache_control := cache |}.

Definition AutoReviewSchema (v : json) : option AutoReview :=
  o ← asObject ["enabled"; "drafts"; "base_branches"; "paths"; "trigger_labels"; "skip_labels"]%string v;
  en ← at_ "enabled" (defaultR true asBool) o;
  dr ← at_ "drafts" (defaultR false asBool) o;
  bb ← at_ "base_branches" (defaultR [js "main"; js "master"; js "develop"] (asArray asName)) o;
  ps ← at_ "paths" (defaultR [] (asArray asName)) o;
  tl ← at_ "trigger_labels" (defaultR [] (asArray asName)) o;
  sl ← at_ "skip_labels" (defaultR [] (asArray asName)) o;
  Some {| ar_enabled := en; drafts := dr; base_branches := bb; ar_paths := ps;
          ar_trigger_labels := tl; ar_skip_labels := sl |}.

Definition AutoFetchSchema (v : json) : option AutoFetchCfg :=
  o ← asObject ["tests"; "types"; "siblings"]%string v;
  t ← at_ "tests" (defaultR true asBool) o;
  y ← at_ "types" (defaultR true asBool) o;
  s ← at_ "siblings" (defaultR false asBool) o;
  Some {| af_tests := t; af_types := y; af_siblings := s |}.

Definition PathInstructionSchema (v : json) : option PathInstruction :=
  o ← asObject ["path"; "instructions"; "auto_fetch"]%string v;
  p ← at_ "path" (requiredR asGlob) o;
  i ← at_ "instructions" (requiredR asName) o;
  a ← at_ "auto_fetch" (optionalR AutoFetchSchema) o;
  Some {| pi_path := p; pi_instructions := i; auto_fetch := a |}.

Definition ReviewsSchema (v : json) : option Reviews :=
  o ← asObject ["auto_review"; "path_filters"; "path_instructions"; "max_files"; "max_diff_lines";
                "ignore_authors"; "min_confidence"; "request_changes_on"; "max_steps";
                "max_conversation_turns"]%string v;
  ar ← at_ "auto_review" (emptyR AutoReviewSchema) o;
  pf ← at_ "path_filters" (defaultR [] (asArray asString)) o;
  pi ← at_ "path_instructions" (defaultR [] (asArray PathInstructionSchema)) o;
  mf ← at_ "max_files" (defaultR (num_of_Z 50) (asInt 1 None)) o;
  ml ← at_ "max_diff_lines" (defaultR (num_of_Z 3000) (asInt 1 None)) o;
  ia ← at_ "ignore_authors" (defaultR [js "dependabot[bot]"; js "renovate[bot]"; js "github-actions[bot]"]
                               (asArray asName)) o;
  mc ← at_ "min_confidence" (defaultR low asConfidence) o;
  rc ← at_ "request_changes_on" (defaultR at_critical asThreshold) o;
  ms ← at_ "max_steps" (defaultR (num_of_Z 20) (asInt 1 (Some 50%Z))) o;
  mt ← at_ "max_conversation_turns" (defaultR (num_of_Z 5) (asInt 1 (Some 50%Z))) o;
  Some {| auto_review := ar; path_filters := pf; path_instructions := pi; max_files := mf;
          max_diff_lines := ml; ignore_authors := ia; min_confidence := mc; request_changes_on := rc;
          max_steps := ms; max_conversation_turns := mt |}.

Definition CostSchema (v : json) : option CostCfg :=
  o ← asObject ["max_usd_per_pr"; "hard_stop"; "daily_cap_usd"]%string v;
  m ← at_ "max_usd_per_pr" (defaultR (num_of_Z 1) asPositive) o;
  h ← at_ "hard_stop" (defaultR true asBool) o;
  d ← at_ "daily_cap_usd" (defaultR (num_of_Z 50) asPositive) o;
  Some {| max_usd_per_pr := m; hard_stop := h; daily_cap_usd := d |}.

Definition PrivacySchema (v : json) : option Privacy :=
  o ← asObject ["redact_patterns"; "deny_paths"; "allowed_url_prefixes"]%string v;
  r ← at_ "redact_patterns" (defaultR [] (asArray asRegex)) o;
  d ← at_ "deny_paths" (defaultR [] (asArray asGlob)) o;
  a ← at_ "allowed_url_prefixes" (defaultR [] (asArray asUrl)) o;
  Some {| redact_patterns := r; deny_paths := d; allowed_url_prefixes := a |}.

Definition RepoSchema (v : json) : option Repo :=
  o ← asObject ["submodules"; "lfs"]%string v;
  s ← at_ "submodules" (defaultR false asBool) o;
  l ← at_ "lfs" (defaultR false asBool) o;
  Some {| submodules := s; lfs := l |}.

Definition IncrementalSchema (v : json) : option Incremental :=
  o ← asObject ["enabled"]%string v;
  e ← at_ "enabled" (defaultR true asBool) o;
  Some {| in_enabled := e |}.

Definition CodecommitSchema (v : json) : option CodecommitCfg :=
  o ← asObject ["approvalState"]%string v;
  a ← at_ "approvalState" (defaultR (js "off") (asEnum (texts ["managed"; "off"]%string))) o;
  Some {| approvalState := a |}.

Definition WORKSPACE_STRATEGIES : list string := ["sparse-clone"; "contents-api"; "none"]%string.

Definition ServerSchema (v : json) : option ServerCfg :=
  o ← asObject ["workspace_strategy"]%string v;
  w ← at_ "workspace_strategy" (defaultR (js "none") (asEnum (texts WORKSPACE_STRATEGIES))) o;
  Some {| workspace_strategy := w |}.

Definition CoordinationSchema (v : json) : option Coordination :=
  o ← asObject ["other_bots"; "other_bots_logins"]%string v;
  b ← at_ "other_bots" (defaultR (js "ignore") (asEnum (texts ["ignore"; "defer_if_present"]%string))) o;
  l ← at_ "other_bots_logins" (defaultR [] (asArray asName)) o;
  Some {| other_bots := b; other_bots_logins := l |}.

Definition FeedbackSchema (v : json) : option FeedbackCfg :=
  o ← asObject ["suppress_after"]%string v;
  n ← at_ "suppress_after" (defaultR (num_of_Z 3) (asInt 1 None)) o;
  Some {| suppress_after := n |}.

Definition RulesetCategorySchema (v : json) : option RulesetCategory :=
  o ← asObject ["enabled"; "min_severity"]%string v;
  e ← at_ "enabled" (defaultR true asBool) o;
  m ← at_ "min_severity" (defaultR info asSeverity) o;
  Some {| rc_enabled := e; rc_min_severity := m |}.

Definition RulesetSchema : json -> option (jsmap RulesetCategory) :=
  asRecord isCategory RulesetCategorySchema.

(** A single name, ['org'] included; a list of names; or [null]. *)
Definition ExtendsSchema (v : json) : option ExtendsValue :=
  match v with
  | JNull => Some ExtNull
  | JArr _ => ExtList <$> asArray asName v
  | _ => ExtName <$> asName v
  end.

Definition ConfigSchema (v : json) : option Config :=
  o ← asObject ["extends"; "language"; "profile"; "provider"; "reviews"; "cost"; "privacy"; "repo";
                "skills"; "incremental"; "coordination"; "server"; "codecommit"; "ruleset";
                "feedback"]%string v;
  ex ← at_ "extends" (optionalR ExtendsSchema) o;
  la ← at_ "language" (defaultR (js "en-US") (asEnum (texts SUPPORTED_LANGUAGES))) o;
  pf ← at_ "profile" (defaultR (js "chill") (asEnum (texts ["chill"; "assertive"]%string))) o;
  pv ← at_ "provider" (optionalR ProviderSchema) o;
  rv ← at_ "reviews" (emptyR ReviewsSchema) o;
  co ← at_ "cost" (emptyR CostSchema) o;
  pr ← at_ "privacy" (emptyR PrivacySchema) o;
  re ← at_ "repo" (emptyR RepoSchema) o;
  sk ← at_ "skills" (defaultR [] (asArray asName)) o;
  ic ← at_ "incremental" (emptyR IncrementalSchema) o;
  cd ← at_ "coordination" (emptyR CoordinationSchema) o;
  sv ← at_ "server" (emptyR ServerSchema) o;
  cc ← at_ "codecommit" (emptyR CodecommitSchema) o;
  rs ← at_ "ruleset" (emptyR RulesetSchema) o;
  fb ← at_ "feedback" (emptyR FeedbackSchema) o;
  Some {| extends := ex; language := la; profile := pf; provider := pv; reviews := rv; cost := co;
          privacy := pr; repo := re; skills := sk; incremental := ic; coordination := cd;
          server := sv; codecommit := cc; ruleset := rs; feedback := fb |}.

(** ** Configurations written out *)

Definition strs (l : list str) : json := JArr (map JStr l).

Definition extendsJson (x : ExtendsValue) : json :=
  match x with ExtName s => JStr s | ExtList l => strs l | ExtNull => JNull end.

Definition providerJson (p : Provider) : json := obj [
  ("type", Some (JStr (pr_type p))); ("model", Some (JStr (pr_modelName p)));
  ("fallback_models", Some (strs (fallback_models p))); ("base_url", JStr <$> base_url p);
  ("region", JStr <$> region p); ("azure_deployment", JStr <$> azure_deployment p);
  ("vertex_project_id", JStr <$> vertex_project_id p);
  ("anthropic_cache_control", Some (JBool (anthropic_cache_control p)))]%string.

Definition autoReviewJson (a : AutoReview) : json := obj [
  ("enabled", Some (JBool (ar_enabled a))); ("drafts", Some (JBool (drafts a)));
  ("base_branches", Some (strs (base_branches a))); ("paths", Some (strs (ar_paths a)));
  ("trigger_labels", Some (strs (ar_trigger_labels a)));
  ("skip_labels", Some (strs (ar_skip_labels a)))]%string.

Definition autoFetchJson (a : AutoFetchCfg) : json := obj [
  ("tests", Some (JBool (af_tests a))); ("types", Some (JBool (af_types a)));
  ("siblings", Some (JBool (af_siblings a)))]%string.

Definition pathInstructionJson (p : PathInstruction) : json := obj [
  ("path", Some (JStr (pi_path p))); ("instructions", Some (JStr (pi_instructions p)));
  ("auto_fetch", autoFetchJson <$> auto_fetch p)]%string.

Definition reviewsJson (r : Reviews) : json := obj [
  ("auto_review", Some (autoReviewJson (auto_review r))); ("path_filters", Some (strs (path_filters r)));
  ("path_instructions", Some (JArr (map pathInstructionJson (path_instructions r))));
  ("max_files", Some (JNum (max_files r))); ("max_diff_lines", Some (JNum (max_diff_lines r)));
  ("ignore_authors", Some (strs (ignore_authors r)));
  ("min_confidence", Some (JStr (confidence_str (min_confidence r))));
  ("request_changes_on", Some (JStr (threshold_str (request_changes_on r))));
  ("max_steps", Some (JNum (max_steps r)));
  ("max_conversation_turns", Some (JNum (max_conversation_turns r)))]%string.

Definition costJson (c : CostCfg) : json := obj [
  ("max_usd_per_pr", Some (JNum (max_usd_per_pr c))); ("hard_stop", Some (JBool (hard_stop c)));
  ("daily_cap_usd", Some (JNum (daily_cap_usd c)))]%string.

Definition privacyJson (p : Privacy) : json := obj [
  ("redact_patterns", Some (strs (redact_patterns p))); ("deny_paths", Some (strs (deny_paths p)));
  ("allowed_url_prefixes", Some (strs (allowed_url_prefixes p)))]%string.

Definition repoJson (r : Repo) : json := obj [
  ("submodules", Some (JBool (submodules r))); ("lfs", Some (JBool (lfs r)))]%string.

Definition incrementalJson (i : Incremental) : json := obj [("enabled", Some (JBool (in_enabled i)))]%string.

Definition coordinationJson (c : Coordination) : json := obj [
  ("other_bots", Some (JStr (other_bots c)));
  ("other_bots_logins", Some (strs (other_bots_logins c)))]%string.

Definition serverJson (c : ServerCfg) : json :=
  obj [("workspace_strategy", Some (JStr (workspace_strategy c)))]%string.

Definition codecommitJson (c : CodecommitCfg) : json :=
  obj [("approvalState", Some (JStr (approvalState c)))]%string.

Definition categoryJson (r : RulesetCategory) : json := obj [
  ("enabled", Some (JBool (rc_enabled r)));
  ("min_severity", Some (JStr (severity_str (rc_min_severity r))))]%string.

Definition rulesetJson (r : jsmap RulesetCategory) : json :=
  JObj (map (fun kv => (kv.1, categoryJson kv.2)) r).

Definition feedbackJson (f : FeedbackCfg) : json :=
  obj [("suppress_after", Some (JNum (suppress_after f)))]%string.

Definition configJson (c : Config) : json := obj [
  ("extends", extendsJson <$> extends c); ("language", Some (JStr (language c)));
  ("profile", Some (JStr (profile c))); ("provider", providerJson <$> provider c);
  ("reviews", Some (reviewsJson (reviews c))); ("cost", Some (costJson (cost c)));
  ("privacy", Some (privacyJson (privacy c))); ("repo", Some (repoJson (repo c)));
  ("skills", Some (strs (skills c))); ("incremental", Some (incrementalJson (incremental c)));
  ("coordination", Some (coordinationJson (coordination c)));
  ("server", Some (serverJson (server c))); ("codecommit", Some (codecommitJson (codecommit c)));
  ("ruleset", Some (rulesetJson (ruleset c))); ("feedback", Some (feedbackJson (feedback c)))]%string.

(** ** Well-formed configurations *)

Definition name_wf (s : str) : Prop := s <> [].
Definition names_wf : list str -> Prop := Forall name_wf.
Definition int_wf (lo : Z) (hi : option Z) (n : number) : Prop :=
  is_nan n = false /\ isInt lo hi n = true.
Definition positive_wf (n : number) : Prop := is_nan n = false /\ ngt n zero = true.
Definition glob_wf (s : str) : Prop := name_wf s /\ isValidGlob s = true.
Definition regex_wf (s : str) : Prop := name_wf s /\ isValidRegex compiles s = true.
Definition url_wf (s : str) : Prop := isUrl s = true.

Definition extends_wf (x : ExtendsValue) : Prop :=
  match x with ExtName s => name_wf s | ExtList l => names_wf l | ExtNull => True end.

Definition provider_wf (p : Provider) : Prop :=
  pr_type p ∈ map js PROVIDER_TYPES /\ name_wf (pr_modelName p) /\ names_wf (fallback_models p) /\
  from_option url_wf True (base_url p).

Definition autoReview_wf (a : AutoReview) : Prop :=
  names_wf (base_branches a) /\ names_wf (ar_paths a) /\ names_wf (ar_trigger_labels a) /\
  names_wf (ar_skip_labels a).

Definition pathInstruction_wf (p : PathInstruction) : Prop :=
  glob_wf (pi_path p) /\ name_wf (pi_instructions p).

Definition reviews_wf (r : Reviews) : Prop :=
  autoReview_wf (auto_review r) /\ Forall pathInstruction_wf (path_instructions r) /\
  int_wf 1 None (max_files r) /\ int_wf 1 None (max_diff_lines r) /\ names_wf (ignore_authors r) /\
  int_wf 1 (Some 50%Z) (max_steps r) /\ int_wf 1 (Some 50%Z) (max_conversation_turns r).

Definition cost_wf (c : CostCfg) : Prop := positive_wf (max_usd_per_pr c) /\ positive_wf (daily_cap_usd c).

Definition privacy_wf (p : Privacy) : Prop :=
  Forall regex_wf (redact_patterns p) /\ Forall glob_wf (deny_paths p) /\
  Forall url_wf (allowed_url_prefixes p).

Definition coordination_wf (c : Coordination) : Prop :=
  other_bots c ∈ map js ["ignore"; "defer_if_present"]%string /\ names_wf (other_bots_logins c).
Definition server_wf (c : ServerCfg) : Prop := workspace_strategy c ∈ map js WORKSPACE_STRATEGIES.
Definition codecommit_wf (c : CodecommitCfg) : Prop := approvalState c ∈ map js ["managed"; "off"]%string.
Definition feedback_wf (f : FeedbackCfg) : Prop := int_wf 1 None (suppress_after f).
Definition ruleset_wf : jsmap RulesetCategory -> Prop := record_wf isCategory (fun _ => True).

Definition config_wf (c : Config) : Prop :=
  from_option extends_wf True (extends c) /\ language c ∈ map js SUPPORTED_LANGUAGES /\
  profile c ∈ map js ["chill"; "assertive"]%string /\ from_option provider_wf True (provider c) /\
  reviews_wf (reviews c) /\ cost_wf (cost c) /\ privacy_wf (privacy c) /\ names_wf (skills c) /\
  coordination_wf (coordination c) /\ server_wf (server c) /\ codecommit_wf (codecommit c) /\
  ruleset_wf (ruleset c) /\ feedback_wf (feedback c).

(** ** The schemas keep their promise *)

Ltac object_codec :=
  match goal with |- Codec ?f ?e ?w => try unfold w; split; unfold f, e end;
  [ intros ? ? ?; object_wf;
    repeat match goal with |- _ /\ _ => split end; first [assumption|done]
  | intros a ?; destruct_and?; object_back; by destruct a ].

#[export] Instance asSeverity_codec : Codec asSeverity (fun s => JStr (severity_str s)) (fun _ => True).
Proof. apply asEnum_codec. by intros []. Qed.
#[export] Instance asConfidence_codec : Codec asConfidence (fun s => JStr (confidence_str s)) (fun _ => True).
Proof. apply asEnum_codec. by intros []. Qed.
#[export] Instance asThreshold_codec : Codec asThreshold (fun s => JStr (threshold_str s)) (fun _ => True).
Proof. apply asEnum_codec. by intros []. Qed.
#[export] Instance asUrl_codec : Codec asUrl JStr url_wf.
Proof.
  destruct (checked_codec isUrl asString JStr (fun _ => True) _) as [Cw Ce]. split.
  - intros v a H. by apply Cw in H as [_ H].
  - intros a H. by apply Ce.
Qed.
#[export] Instance asGlob_codec : Codec asGlob JStr glob_wf.
Proof. apply checked_codec, asName_codec. Qed.
#[export] Instance asRegex_codec : Codec asRegex JStr regex_wf.
Proof. apply checked_codec, asName_codec. Qed.

#[export] Instance AutoReviewSchema_codec : Codec AutoReviewSchema autoReviewJson autoReview_wf.
Proof. object_codec. Qed.
#[export] Instance AutoFetchSchema_codec : Codec AutoFetchSchema autoFetchJson (fun _ => True).
Proof. object_codec. Qed.
#[export] Instance ProviderSchema_codec : Codec ProviderSchema providerJson provider_wf.
Proof. object_codec. Qed.
#[export] Instance PathInstructionSchema_codec : Codec PathInstructionSchema pathInstructionJson pathInstruction_wf.
Proof. object_codec. Qed.
#[export] Instance ReviewsSchema_codec : Codec ReviewsSchema reviewsJson reviews_wf.
Proof. object_codec. Qed.
#[export] Instance CostSchema_codec : Codec CostSchema costJson cost_wf.
Proof. object_codec. Qed.
#[export] Instance PrivacySchema_codec : Codec PrivacySchema privacyJson privacy_wf.
Proof. object_codec. Qed.
#[export] Instance RepoSchema_codec : Codec RepoSchema repoJson (fun _ => True).
Proof. object_codec. Qed.
#[export] Instance IncrementalSchema_codec : Codec IncrementalSchema incrementalJson (fun _ => True).
Proof. object_codec. Qed.
#[export] Instance CodecommitSchema_codec : Codec CodecommitSchema codecommitJson codecommit_wf.
Proof. object_codec. Qed.
#[export] Instance ServerSchema_codec : Codec ServerSchema serverJson server_wf.
Proof. object_codec. Qed.
#[export] Instance CoordinationSchema_codec : Codec CoordinationSchema coordinationJson coordination_wf.
Proof. object_codec. Qed.
#[export] Instance FeedbackSchema_codec : Codec FeedbackSchema feedbackJson feedback_wf.
Proof. object_codec. Qed.
#[export] Instance RulesetCategorySchema_codec : Codec RulesetCategorySchema categoryJson (fun _ => True).
Proof. object_codec. Qed.
#[export] Instance RulesetSchema_codec : Codec RulesetSchema rulesetJson ruleset_wf.
Proof. apply asRecord_codec, _. Qed.
#[export] Instance ExtendsSchema_codec : Codec ExtendsSchema extendsJson extends_wf.
Proof.
  split.
  - intros v a H. unfold ExtendsSchema in H.
    destruct v; try (apply fmap_Some in H as (x & H & ->); exact (decode_wf _ _ H)). by injection H as <-.
  - intros [s|l|] H; [|exact (f_equal (fmap ExtList) (decode_encode l H))|done].
    exact (f_equal (fmap ExtName) (decode_encode s H)).
Qed.

#[export] Instance ConfigSchema_codec : Codec ConfigSchema configJson config_wf.
Proof. object_codec. Qed.
End schema.

#[global] Typeclasses Opaque asUrl asGlob asRegex asSeverity asConfidence asThreshold.
#[export] Existing Instances
  asSeverity_codec asConfidence_codec asThreshold_codec asUrl_codec
  asGlob_codec asRegex_codec AutoReviewSchema_codec AutoFetchSchema_codec
  ProviderSchema_codec PathInstructionSchema_codec ReviewsSchema_codec CostSchema_codec
  PrivacySchema_codec RepoSchema_codec IncrementalSchema_codec CodecommitSchema_codec
  ServerSchema_codec CoordinationSchema_codec FeedbackSchema_codec RulesetCategorySchema_codec
  RulesetSchema_codec ExtendsSchema_codec ConfigSchema_codec.

(** ** What a loaded configuration is *)

Lemma int_wf_spec lo hi n :
  int_wf lo hi n <-> is_nan n = false /\ exists z, integerOf n = Some z /\ (lo <= z)%Z /\
    match hi with Some h => (z <= h)%Z | None => True end.
Proof.
  unfold int_wf, isInt. destruct (integerOf n) as [z|]; [|naive_solver].
  rewrite andb_true_iff, Z.leb_le. destruct hi as [h|]; [rewrite Z.leb_le|]; naive_solver.
Qed.

(** Whatever value the YAML parser gives, a configuration the schema accepts is well typed: known
    language, profile and modes, no empty names, globs, regular expressions and URLs that compile,
    positive caps, at least one file and one line, and between 1 and 50 steps and turns. *)
Theorem parsed_config_well_typed (isUrl compiles : str -> bool) (v : json) (c : Config)
    (H : ConfigSchema isUrl compiles v = Some c) :
  config_wf isUrl compiles c /\
  (exists n, integerOf (max_steps (reviews c)) = Some n /\ 1 <= n <= 50)%Z /\
  (exists n, integerOf (max_conversation_turns (reviews c)) = Some n /\ 1 <= n <= 50)%Z /\
  (exists n, integerOf (max_files (reviews c)) = Some n /\ 1 <= n)%Z.
Proof.
  pose proof (decode_wf (Codec := ConfigSchema_codec isUrl compiles) v c H) as Hw.
  pose proof Hw as (_ & _ & _ & _ & (_ & _ & Hf & _ & _ & Hs & Ht) & _).
  apply int_wf_spec in Hf as (_ & f & Hf & Hf1 & _). apply int_wf_spec in Hs as (_ & s & Hs & Hs1 & Hs2).
  apply int_wf_spec in Ht as (_ & t & Ht & Ht1 & Ht2). split_and!; [done|by exists s|by exists t|by exists f].
Qed.

Definition smallConfig : json :=
  JObj [(js "language", JStr (js "ja-JP")); (js "reviews", JObj [(js "max_steps", JNum (num_of_Z 50))])].

Lemma parsed_config_well_typed_witness : exists c,
  ConfigSchema (fun _ => true) (fun _ => true) smallConfig = Some c /\
  config_wf (fun _ => true) (fun _ => true) c.
Proof.
  eexists. split; [vm_compute; reflexivity|].
  eapply (parsed_config_well_typed (fun _ => true) (fun _ => true) smallConfig). vm_compute. reflexivity.
Defined.

(** A file that leaves out all it may: nothing but a provider's type and model, a path instruction
    whose automatic context is an empty object, and a category with an empty rule. *)
Definition minimalFile (type model path instructions category : str) : json :=
  JObj [(js "provider", JObj [(js "type", JStr type); (js "model", JStr model)]);
        (js "reviews", JObj [(js "path_instructions",
           JArr [JObj [(js "path", JStr path); (js "instructions", JStr instructions);
                       (js "auto_fetch", JObj [])]])]);
        (js "ruleset", JObj [(category, JObj [])])].

(** The documented defaults, with the given optional parts. *)
Definition documentedDefaults (p : option Provider) (pis : list PathInstruction) (rules : jsmap RulesetCategory) : Config :=
  {| extends := None; language := "en-US"; profile := "chill"; provider := p;
     reviews := {| auto_review := {| ar_enabled := true; drafts := false;
                                     base_branches := [js "main"; js "master"; js "develop"];
                                     ar_paths := []; ar_trigger_labels := []; ar_skip_labels := [] |};
                   path_filters := []; path_instructions := pis; max_files := num_of_Z 50;
                   max_diff_lines := num_of_Z 3000;
                   ignore_authors := [js "dependabot[bot]"; js "renovate[bot]"; js "github-actions[bot]"];
                   min_confidence := low; request_changes_on := at_critical; max_steps := num_of_Z 20;
                   max_conversation_turns := num_of_Z 5 |};
     cost := {| max_usd_per_pr := num_of_Z 1; hard_stop := true; daily_cap_usd := num_of_Z 50 |};
     privacy := {| redact_patterns := []; deny_paths := []; allowed_url_prefixes := [] |};
     repo := {| submodules := false; lfs := false |}; skills := [];
     incremental := {| in_enabled := true |};
     coordination := {| other_bots := "ignore"; other_bots_logins := [] |};
     server := {| workspace_strategy := "none" |}; codecommit := {| approvalState := "off" |};
     ruleset := rules; feedback := {| suppress_after := num_of_Z 3 |} |}.

(** C14. Writing a configuration out and reading it back gives it back, for the well-typed ones and no
    other; a configuration that was read from any file is therefore the same when it is written
    out and read again. An empty file reads as the documented defaults, and a file that only names
    a provider, a path instruction and a category as these with their documented defaults; as
    readings, the defaults are well typed and stable too. *)
Theorem config_roundtrip (isUrl compiles : str -> bool) :
  (forall c, ConfigSchema isUrl compiles (configJson c) = Some c <-> config_wf isUrl compiles c) /\
  (forall v c, ConfigSchema isUrl compiles v = Some c -> ConfigSchema isUrl compiles (configJson c) = Some c) /\
  ConfigSchema isUrl compiles (JObj []) = Some (documentedDefaults None [] []) /\
  forall type model path instructions category,
    type ∈ map js PROVIDER_TYPES -> model <> [] -> path <> [] -> isValidGlob path = true ->
    instructions <> [] -> isCategory category = true ->
    ConfigSchema isUrl compiles (minimalFile type model path instructions category) =
    Some (documentedDefaults
      (Some {| pr_type := type; pr_modelName := model; fallback_models := []; base_url := None;
               region := None; azure_deployment := None; vertex_project_id := None;
               anthropic_cache_control := true |})
      [{| pi_path := path; pi_instructions := instructions;
          auto_fetch := Some {| af_tests := true; af_types := true; af_siblings := false |} |}]
      [(category, {| rc_enabled := true; rc_min_severity := info |})]).
Proof.
  pose proof (ConfigSchema_codec isUrl compiles) as C. split_and!.
  - intros c. split; [apply (decode_wf (Codec := C))|apply (decode_encode (Codec := C))].
  - intros v c H. apply (decode_encode (Codec := C)), (decode_wf (Codec := C) _ _ H).
  - reflexivity.
  - intros type model path instructions category Ht Hm Hp Hg Hi Hc.
    apply (decode_encode (Codec := asEnum_texts PROVIDER_TYPES)) in Ht.
    assert (asName (JStr model) = Some model) as Hm' by (by apply (decode_encode (Codec := asName_codec))).
    assert (asName (JStr instructions) = Some instructions) as Hi'
      by (by apply (decode_encode (Codec := asName_codec))).
    assert (asGlob (JStr path) = Some path) as Hp' by (by apply (decode_encode (Codec := asGlob_codec))).
    clear Hm Hi Hp Hg. unfold minimalFile.
    cbv -[asEnum asName asGlob isCategory texts PROVIDER_TYPES documentedDefaults].
    match goal with |- context [asEnum ?l (JStr type)] => change (asEnum l (JStr type)) with (asEnum (texts PROVIDER_TYPES) (JStr type)) end.
    rewrite Ht, Hm', Hp', Hi', Hc. reflexivity.
Qed.

(** ** Tests *)

Example config_51_steps :
  ConfigSchema (fun _ => true) (fun _ => true)
    (JObj [(js "reviews", JObj [(js "max_steps", JNum (num_of_Z 51))])]) = None.
Proof. by vm_compute. Qed.

Example config_unknown_key : ConfigSchema (fun _ => true) (fun _ => true) (JObj [(js "extend", JNull)]) = None.
Proof. by vm_compute. Qed.
