(* ===== verification/ConfigLoad.v ===== *)
(** * Loading the configuration (config/src/loader.ts, config/src/org-config.ts)

    The repository's file, the presets it extends, the environment and the organisation's file
    make the configuration a review runs with. *)

From S2P Require Import Prelude JsNumber NumberText JsMap JsonTree Presets Codec Config Review Glob.

(** Every throw of this component is a [ConfigError]. *)
Inductive LoadError :=
  | InvalidYaml
  | BadPreset (e : PresetError)
  | InvalidConfig
  | BadEnv (variable : string)
  | OrgConfigNotFound (owner : str).

Record EnvOverrides := {
  REVIEW_AGENT_LANGUAGE : option str;
  REVIEW_AGENT_PROVIDER : option str;
  REVIEW_AGENT_MODEL : option str;
  REVIEW_AGENT_MAX_USD_PER_PR : option str;
  REVIEW_AGENT_MAX_STEPS : option str;
}.

Inductive ConfigResolutionSource := repo_yaml | org_yaml | from_env | from_default.
#[export] Instance ConfigResolutionSource_eq : EqDecision ConfigResolutionSource.
Proof. solve_decision. Defined.

Record ConfigResolutionLog := {
  primarySource : ConfigResolutionSource;
  orgYamlLoaded : bool;
  envApplied : bool;
  sections : list (str * ConfigResolutionSource);
}.

Section load.
(** [new URL(s)] and [new RegExp(s)] return; [parseYaml], [None] when it throws. *)
Context (isUrl compiles : str -> bool) (parseYaml : str -> option json).

Let ConfigSchema' := ConfigSchema isUrl compiles.

(** [parseYaml(text) ?? {}] *)
Definition parsedYaml (yamlText : str) : option json :=
  v ← parseYaml yamlText; Some match v with JNull => JObj [] | _ => v end.

(** [extends] names presets: it is removed and they become the lower layers. *)
Definition expandExtends (parsed : json) : result PresetError json :=
  match parsed with
  | JObj raw =>
      let resolve names :=
        m ← resolveExtendsPresets names (mapDelete (js "extends") raw); Ok (JObj m) in
      match mapGet (js "extends") raw with
      | Some (JArr names) => resolve names
      | Some (JStr s) => if bool_decide (s = js "org") then Ok parsed else resolve [JStr s]
      | _ => Ok parsed
      end
  | _ => Ok parsed
  end.

Definition loadConfigFromYaml (yamlText : str) : result LoadError Config :=
  match parsedYaml yamlText with
  | None => Throw InvalidYaml
  | Some parsed =>
      match expandExtends parsed with
      | Throw e => Throw (BadPreset e)
      | Ok effective =>
          match ConfigSchema' effective with Some c => Ok c | None => Throw InvalidConfig end
      end
  end.

Definition rawYamlHasMaxSteps (raw : json) : bool :=
  match member (js "reviews") raw with
  | Some reviews => bool_decide (is_Some (member (js "max_steps") reviews))
  | None => false
  end.

Definition defaultConfig : result LoadError Config :=
  match ConfigSchema' (JObj []) with Some c => Ok c | None => Throw InvalidConfig end.

Definition topLevelKeys : list (string * (Config -> option json)) := [
  ("language", fun c => Some (JStr (language c))); ("profile", fun c => Some (JStr (profile c)));
  ("provider", fun c => providerJson <$> provider c);
  ("reviews", fun c => Some (reviewsJson (reviews c))); ("cost", fun c => Some (costJson (cost c)));
  ("privacy", fun c => Some (privacyJson (privacy c))); ("repo", fun c => Some (repoJson (repo c)));
  ("skills", fun c => Some (strs (skills c)));
  ("incremental", fun c => Some (incrementalJson (incremental c)));
  ("coordination", fun c => Some (coordinationJson (coordination c)));
  ("server", fun c => Some (serverJson (server c)));
  ("codecommit", fun c => Some (codecommitJson (codecommit c)));
  ("ruleset", fun c => Some (rulesetJson (ruleset c)))]%string.

(** A section that prints like its default counts as default. *)
Definition buildSectionSources (config defaults : Config) (primary : ConfigResolutionSource)
    (orgSource : option ConfigResolutionSource) : list (str * ConfigResolutionSource) :=
  map (fun kf => (js kf.1,
    if bool_decide (kf.2 config <> kf.2 defaults) then
      if bool_decide (orgSource <> None) && bool_decide (primary = repo_yaml) then primary
      else default primary orgSource
    else from_default)) topLevelKeys.

(** ** The environment *)

Definition set_language (l : str) (c : Config) : Config :=
  {| extends := extends c; language := l; profile := profile c; provider := provider c;
     reviews := reviews c; cost := cost c; privacy := privacy c; repo := repo c; skills := skills c;
     incremental := incremental c; coordination := coordination c; server := server c;
     codecommit := codecommit c; ruleset := ruleset c; feedback := feedback c |}.
Definition set_provider (p : option Provider) (c : Config) : Config :=
  {| extends := extends c; language := language c; profile := profile c; provider := p;
     reviews := reviews c; cost := cost c; privacy := privacy c; repo := repo c; skills := skills c;
     incremental := incremental c; coordination := coordination c; server := server c;
     codecommit := codecommit c; ruleset := ruleset c; feedback := feedback c |}.
Definition set_reviews (r : Reviews) (c : Config) : Config :=
  {| extends := extends c; language := language c; profile := profile c; provider := provider c;
     reviews := r; cost := cost c; privacy := privacy c; repo := repo c; skills := skills c;
     incremental := incremental c; coordination := coordination c; server := server c;
     codecommit := codecommit c; ruleset := ruleset c; feedback := feedback c |}.
Definition set_cost (k : CostCfg) (c : Config) : Config :=
  {| extends := extends c; language := language c; profile := profile c; provider := provider c;
     reviews := reviews c; cost := k; privacy := privacy c; repo := repo c; skills := skills c;
     incremental := incremental c; coordination := coordination c; server := server c;
     codecommit := codecommit c; ruleset := ruleset c; feedback := feedback c |}.
Definition set_max_steps (n : number) (r : Reviews) : Reviews :=
  {| auto_review := auto_review r; path_filters := path_filters r;
     path_instructions := path_instructions r; max_files := max_files r;
     max_diff_lines := max_diff_lines r; ignore_authors := ignore_authors r;
     min_confidence := min_confidence r; request_changes_on := request_changes_on r;
     max_steps := n; max_conversation_turns := max_conversation_turns r |}.
Definition set_max_usd (n : number) (k : CostCfg) : CostCfg :=
  {| max_usd_per_pr := n; hard_stop := hard_stop k; daily_cap_usd := daily_cap_usd k |}.

Definition envLanguage (env : EnvOverrides) (c : Config) : result LoadError Config :=
  match truthyStr (REVIEW_AGENT_LANGUAGE env) with
  | None => Ok c
  | Some l =>
      if isSupportedLanguage l then Ok (set_language l c) else Throw (BadEnv "REVIEW_AGENT_LANGUAGE")
  end.

Definition envProvider (env : EnvOverrides) (c : Config) : result LoadError Config :=
  match truthyStr (REVIEW_AGENT_PROVIDER env), truthyStr (REVIEW_AGENT_MODEL env) with
  | Some p, Some m =>
      match ProviderSchema isUrl (JObj [(js "type", JStr p); (js "model", JStr m)]) with
      | Some parsed => Ok (set_provider (Some parsed) c)
      | None => Throw (BadEnv "REVIEW_AGENT_PROVIDER")
      end
  | None, None => Ok c
  | _, _ => Throw (BadEnv "REVIEW_AGENT_PROVIDER")
  end.

Definition envMaxUsd (env : EnvOverrides) (c : Config) : result LoadError Config :=
  match truthyStr (REVIEW_AGENT_MAX_USD_PER_PR env) with
  | None => Ok c
  | Some raw =>
      let value := parseFloat raw in
      if negb (isFinite value) || nle value zero then Throw (BadEnv "REVIEW_AGENT_MAX_USD_PER_PR")
      else Ok (set_cost (set_max_usd value (cost c)) c)
  end.

Definition mergeWithEnv (config : Config) (env : EnvOverrides) : result LoadError Config :=
  c ← envLanguage env config; c ← envProvider env c; envMaxUsd env c.

Definition applyMaxStepsEnv (config : Config) (raw : str) : result LoadError Config :=
  let value := toNumber raw in
  if isInt 1 (Some 50%Z) value then Ok (set_reviews (set_max_steps value (reviews config)) config)
  else Throw (BadEnv "REVIEW_AGENT_MAX_STEPS").

Definition resolveEffectiveConfig (repoYaml orgYaml : option str) (env : EnvOverrides)
    : result LoadError (Config * ConfigResolutionLog) :=
  defaults ← defaultConfig;
  base ← match repoYaml, orgYaml with
         | Some y, _ | None, Some y => loadConfigFromYaml y
         | None, None => Ok defaults
         end;
  let primary := match repoYaml, orgYaml with
                 | Some _, _ => repo_yaml | None, Some _ => org_yaml | None, None => from_default end in
  let orgLoaded := bool_decide (is_Some orgYaml) in
  let sects := buildSectionSources base defaults primary (if orgLoaded then Some org_yaml else None) in
  let rawParsed := match repoYaml, orgYaml with
                   | Some y, _ | None, Some y => default (JObj []) (parsedYaml y)
                   | None, None => JObj []
                   end in
  let hasEnvWithoutMaxSteps :=
    bool_decide (is_Some (REVIEW_AGENT_LANGUAGE env)) || bool_decide (is_Some (REVIEW_AGENT_PROVIDER env))
    || bool_decide (is_Some (REVIEW_AGENT_MODEL env))
    || bool_decide (is_Some (REVIEW_AGENT_MAX_USD_PER_PR env)) in
  let hasMaxStepsEnv := bool_decide (is_Some (REVIEW_AGENT_MAX_STEPS env)) in
  c ← (if hasEnvWithoutMaxSteps then mergeWithEnv base env else Ok base);
  c ← match REVIEW_AGENT_MAX_STEPS env with
      | Some raw => if rawYamlHasMaxSteps rawParsed then Ok c else applyMaxStepsEnv c raw
      | None => Ok c
      end;
  Ok (c, {| primarySource := primary; orgYamlLoaded := orgLoaded;
            envApplied := hasEnvWithoutMaxSteps || hasMaxStepsEnv; sections := sects |}).
End load.

(** ** Lemmas *)

Section wf.
Context (isUrl compiles : str -> bool).
Let wf := config_wf isUrl compiles.

Lemma schema_wf v c : ConfigSchema isUrl compiles v = Some c -> wf c.
Proof. apply (decode_wf (Codec := ConfigSchema_codec isUrl compiles)). Qed.

Lemma bind_result_Ok {E A B} (m : result E A) (f : A -> result E B) b :
  (m ≫= f) = Ok b <-> exists a, m = Ok a /\ f a = Ok b.
Proof. destruct m; cbn; naive_solver. Qed.

Lemma loadConfig_wf parseYaml y c : loadConfigFromYaml isUrl compiles parseYaml y = Ok c -> wf c.
Proof.
  unfold loadConfigFromYaml. destruct (parsedYaml _ _) as [v|]; [|done].
  destruct (expandExtends v) as [e|]; [|done].
  destruct (ConfigSchema _ _ e) as [d|] eqn:E; [|done]. intros [= <-]. by eapply schema_wf.
Qed.

Lemma defaultConfig_Ok : is_ok (defaultConfig isUrl compiles) = true.
Proof. by vm_compute. Qed.

Lemma defaultConfig_wf c : defaultConfig isUrl compiles = Ok c -> wf c.
Proof.
  unfold defaultConfig. destruct (ConfigSchema _ _ _) as [d|] eqn:E; [|done].
  intros [= <-]. by eapply schema_wf.
Qed.

Lemma envLanguage_Ok env c c' : envLanguage env c = Ok c' ->
  c' = c \/ exists l, isSupportedLanguage l = true /\ c' = set_language l c.
Proof.
  unfold envLanguage. destruct (truthyStr _) as [l|]; [|intros [= <-]; by left].
  destruct (isSupportedLanguage l) eqn:E; [|done]. intros [= <-]. right. by exists l.
Qed.

Lemma envProvider_Ok env c c' : envProvider isUrl env c = Ok c' ->
  c' = c \/ exists p, provider_wf isUrl p /\ c' = set_provider (Some p) c.
Proof.
  unfold envProvider.
  destruct (truthyStr _) as [p|], (truthyStr _) as [m|]; try done; [|intros [= <-]; by left].
  destruct (ProviderSchema _ _) as [q|] eqn:E; [|done]. intros [= <-]. right. exists q. split; [|done].
  by apply (decode_wf (Codec := ProviderSchema_codec isUrl)) in E.
Qed.

Lemma envMaxUsd_Ok env c c' : envMaxUsd env c = Ok c' ->
  c' = c \/ exists n, positive_wf n /\ c' = set_cost (set_max_usd n (cost c)) c.
Proof.
  unfold envMaxUsd. destruct (truthyStr _) as [raw|]; [|intros [= <-]; by left]. cbv zeta.
  generalize (parseFloat raw) as n. intros n.
  destruct (isFinite n) eqn:Ef; [|done]. cbn [negb orb].
  destruct (nle n zero) eqn:En; [done|]. intros [= <-]. right. exists n. split; [|done].
  assert (is_nan n = false) as Hn by (by destruct n). split; [done|].
  destruct (ngt n zero) eqn:Eg; [done|]. by rewrite ngt_false_nle in En.
Qed.

Lemma mergeWithEnv_wf c env c' :
  wf c -> mergeWithEnv isUrl c env = Ok c' -> wf c' /\ reviews c' = reviews c.
Proof.
  unfold mergeWithEnv. intros Hw (c1 & H1 & (c2 & H2 & H3)%bind_result_Ok)%bind_result_Ok.
  apply envLanguage_Ok in H1. apply envProvider_Ok in H2. apply envMaxUsd_Ok in H3.
  assert (wf c1 /\ reviews c1 = reviews c) as [Hw1 Hr1].
  { destruct H1 as [->|(l & Hl & ->)]; [done|]. split; [|done]. unfold isSupportedLanguage in Hl.
    to_prop. revert Hw. unfold wf, config_wf. cbn. tauto. }
  assert (wf c2 /\ reviews c2 = reviews c) as [Hw2 Hr2].
  { destruct H2 as [->|(p & Hp & ->)]; [done|]. split; [|done]. revert Hw1. unfold wf, config_wf. cbn. tauto. }
  destruct H3 as [->|(n & Hn & ->)]; [done|]. split; [|done].
  revert Hw2. unfold wf, config_wf, cost_wf. cbn. tauto.
Qed.

Lemma applyMaxSteps_wf c raw c' :
  wf c -> applyMaxStepsEnv c raw = Ok c' ->
  wf c' /\ max_steps (reviews c') = toNumber raw /\ isInt 1 (Some 50%Z) (toNumber raw) = true.
Proof.
  unfold applyMaxStepsEnv. cbv zeta. generalize (toNumber raw) as n. intros n Hw.
  destruct (isInt 1 (Some 50%Z) n) eqn:E; [|done]. intros [= <-]. split_and!; [|done..].
  assert (int_wf 1 (Some 50%Z) n) as Hn.
  { split; [|done]. unfold isInt in E. by destruct n. }
  revert Hw. unfold wf, config_wf, reviews_wf. cbn. tauto.
Qed.
End wf.

Ltac inv_load :=
  repeat match goal with
  | H : (_ ≫= _) = Ok _ |- _ => apply bind_result_Ok in H as (? & ? & H)
  | H : Ok _ = Ok _ |- _ => injection H as <-
  end.

(** ** The effective configuration *)

(** The file that decides: the repository's, else the organisation's. *)
Definition decidingYaml (repoYaml orgYaml : option str) : option str :=
  match repoYaml with Some y => Some y | None => orgYaml end.

(** The file sets [reviews.max_steps] itself. *)
Definition explicitMaxSteps (parseYaml : str -> option json) (file : option str) : Prop :=
  match file with
  | Some y => exists raw, parsedYaml parseYaml y = Some raw /\ rawYamlHasMaxSteps raw = true
  | None => False
  end.

(** C13. Whatever the files and the environment hold, a configuration that resolves is well typed, the
    environment's values included; a step limit the file itself sets is not overridden, and without
    one the environment's is the limit, between 1 and 50. *)
Theorem effective_config_well_typed (isUrl compiles : str -> bool) (parseYaml : str -> option json)
    (repoYaml orgYaml : option str) (env : EnvOverrides) (c : Config) (log : ConfigResolutionLog)
    (H : resolveEffectiveConfig isUrl compiles parseYaml repoYaml orgYaml env = Ok (c, log)) :
  config_wf isUrl compiles c /\
  exists base,
    match decidingYaml repoYaml orgYaml with
    | Some y => loadConfigFromYaml isUrl compiles parseYaml y
    | None => defaultConfig isUrl compiles
    end = Ok base /\
    (explicitMaxSteps parseYaml (decidingYaml repoYaml orgYaml) ->
      max_steps (reviews c) = max_steps (reviews base)) /\
    forall raw, REVIEW_AGENT_MAX_STEPS env = Some raw ->
      ~ explicitMaxSteps parseYaml (decidingYaml repoYaml orgYaml) ->
      max_steps (reviews c) = toNumber raw /\
      exists n, integerOf (toNumber raw) = Some n /\ (1 <= n <= 50)%Z.
Proof.
  unfold resolveEffectiveConfig in H.
  apply bind_result_Ok in H as (d & Hd & H). apply bind_result_Ok in H as (base & Hb & H).
  cbv zeta in H. apply bind_result_Ok in H as (c1 & H1 & H). apply bind_result_Ok in H as (c2 & H2 & H).
  injection H as -> _.
  set (y := decidingYaml repoYaml orgYaml).
  assert (match y with Some y => loadConfigFromYaml isUrl compiles parseYaml y
          | None => defaultConfig isUrl compiles end = Ok base) as Hbase.
  { unfold y, decidingYaml. destruct repoYaml, orgYaml; [done..|]. by injection Hb as <-. }
  set (rawHas := rawYamlHasMaxSteps _) in H2.
  assert (rawHas = true <-> explicitMaxSteps parseYaml y) as Hraw.
  { unfold rawHas, y, decidingYaml, explicitMaxSteps. destruct repoYaml as [t|], orgYaml as [u|]; [| | |done];
      destruct (parsedYaml _ _); cbn; naive_solver. }
  clearbody rawHas. clear Hb. revert Hraw. generalize (explicitMaxSteps parseYaml y) as explicit.
  intros explicit Hraw.
  assert (config_wf isUrl compiles base) as Hw.
  { destruct y; [by eapply loadConfig_wf|by eapply defaultConfig_wf]. }
  assert (config_wf isUrl compiles c1 /\ reviews c1 = reviews base) as [Hw1 Hr1].
  { destruct (_ || _ || _); [by eapply mergeWithEnv_wf|by injection H1 as <-]. }
  clear H1.
  destruct (REVIEW_AGENT_MAX_STEPS env) as [raw|].
  - destruct rawHas; [injection H2 as <-|].
    + split; [done|]. exists base. split_and!; [done|by rewrite Hr1|]. intros raw' [= <-] Hn. by destruct Hn; apply Hraw.
    + destruct (applyMaxSteps_wf isUrl compiles _ _ _ Hw1 H2) as (Hw2 & Hs & Hi). split; [done|].
      exists base. split_and!; [done|by intros ?%Hraw|]. intros raw' [= <-] _. split; [done|].
      unfold isInt in Hi. destruct (integerOf _) as [n|]; [|done]. exists n. split; [done|].
      apply andb_true_iff in Hi as [H3 H4]. to_prop. lia.
  - injection H2 as <-. split; [done|]. exists base. rewrite Hr1. by split_and!.
Qed.

Definition oneYaml (tree : json) (_ : str) : option json := Some tree.
Definition noEnv : EnvOverrides :=
  {| REVIEW_AGENT_LANGUAGE := None; REVIEW_AGENT_PROVIDER := None; REVIEW_AGENT_MODEL := None;
     REVIEW_AGENT_MAX_USD_PER_PR := Some (js "2.5"); REVIEW_AGENT_MAX_STEPS := Some (js "7") |}.
Definition strictTree : json := JObj [(js "extends", JStr (js "strict"))].

(** The preset's 30 steps give way to the environment's 7. *)
Lemma effective_config_well_typed_witness : exists c log,
  resolveEffectiveConfig (fun _ => true) (fun _ => true) (oneYaml strictTree) (Some []) None noEnv = Ok (c, log) /\
  config_wf (fun _ => true) (fun _ => true) c /\ max_steps (reviews c) = num_of_Z 7.
Proof.
  eexists _, _. split; [vm_compute; reflexivity|]. split; [|vm_compute; reflexivity].
  eapply (effective_config_well_typed (fun _ => true) (fun _ => true) (oneYaml strictTree) (Some []) None noEnv).
  vm_compute. reflexivity.
Defined.

(** Every chain of bundled presets alone is a configuration the schema accepts. *)
Lemma bundled_presets_valid (isUrl compiles : str -> bool) n preset :
  mapGet n BUNDLED_PRESETS = Some preset -> is_Some (ConfigSchema isUrl compiles (JObj preset)).
Proof.
  intros Hn. apply mapGet_Some in Hn; [|refine (bool_decide_eq_true_1 _ _); by vm_compute].
  repeat (apply elem_of_cons in Hn as [[= _ ->]|Hn]; [vm_compute; eauto|]). by apply elem_of_nil in Hn.
Qed.
