(* ===== verification/OrgConfig.v ===== *)
(** * The organisation's configuration (config/src/org-config.ts)

    A cache of the organisation's file with a time to live, the choice between the repository's
    file, the organisation's and the defaults, and the merge that [extends: org] asks for. *)

From S2P Require Import Prelude JsNumber JsMap JsonTree Presets Codec Config ConfigLoad Review Glob.

(** ** The cache *)

Definition DEFAULT_TTL_MS : Z := 5 * 60 * 1000.

Record CacheEntry := { ce_text : option str; ce_expires : Z }.
Abbreviation OrgCache := (jsmap CacheEntry).

Section cache.
(** [fetch(owner)] at a time; the clock is read before it and again after it. *)
Context {E : Type} (ttl : Z) (fetch : str -> result E (option str)).

Definition orgCacheGet (owner : str) (now nowAfter : Z) (c : OrgCache) : result E (option str) * OrgCache :=
  let refresh :=
    match fetch owner with
    | Throw e => (Throw e, c)
    | Ok text => (Ok text, mapSet owner {| ce_text := text; ce_expires := nowAfter + ttl |} c)
    end in
  match mapGet owner c with
  | Some cached => if (now <? ce_expires cached)%Z then (Ok (ce_text cached), c) else refresh
  | None => refresh
  end.
End cache.

Definition orgCacheInvalidate (owner : option str) (c : OrgCache) : OrgCache :=
  match owner with None => [] | Some o => mapDelete o c end.

(** ** The merge *)

Definition dedup : list str -> list str := uniq.

(** [{...a, ...b}] of two objects written out. *)
Definition spread (a b : json) : json :=
  match a, b with JObj x, JObj y => JObj (mapSpread x y) | _, _ => b end.

(** The object [mergeOrgIntoRepo] hands to the schema. *)
Definition mergedInput (orgConfig repoConfig : Config) : json :=
  let o := reviews orgConfig in
  let r := reviews repoConfig in
  let oa := auto_review o in
  let ra := auto_review r in
  obj [
    ("extends", Some JNull); ("language", Some (JStr (language repoConfig)));
    ("profile", Some (JStr (profile repoConfig)));
    ("provider", providerJson <$> match provider repoConfig with
                                  | Some p => Some p | None => provider orgConfig end);
    ("reviews", Some (obj [
      ("auto_review", Some (spread (spread (autoReviewJson oa) (autoReviewJson ra)) (obj [
        ("trigger_labels", Some (strs (dedup (ar_trigger_labels oa ++ ar_trigger_labels ra))));
        ("skip_labels", Some (strs (dedup (ar_skip_labels oa ++ ar_skip_labels ra))))])));
      ("path_filters", Some (strs (dedup (path_filters o ++ path_filters r))));
      ("path_instructions", Some (JArr (map pathInstructionJson
        (path_instructions o ++ path_instructions r))));
      ("max_files", Some (JNum (max_files r))); ("max_diff_lines", Some (JNum (max_diff_lines r)));
      ("max_steps", Some (JNum (max_steps r)));
      ("max_conversation_turns", Some (JNum (max_conversation_turns r)));
      ("ignore_authors", Some (strs (dedup (ignore_authors o ++ ignore_authors r))))]));
    ("cost", Some (spread (costJson (cost orgConfig)) (costJson (cost repoConfig))));
    ("privacy", Some (obj [
      ("redact_patterns", Some (strs (dedup
        (redact_patterns (privacy orgConfig) ++ redact_patterns (privacy repoConfig)))));
      ("deny_paths", Some (strs (dedup (deny_paths (privacy orgConfig) ++ deny_paths (privacy repoConfig)))));
      ("allowed_url_prefixes", Some (strs (dedup
        (allowed_url_prefixes (privacy orgConfig) ++ allowed_url_prefixes (privacy repoConfig)))))]));
    ("repo", Some (spread (repoJson (repo orgConfig)) (repoJson (repo repoConfig))));
    ("skills", Some (strs (skills orgConfig ++ skills repoConfig)));
    ("incremental", Some (spread (incrementalJson (incremental orgConfig))
                                 (incrementalJson (incremental repoConfig))));
    ("ruleset", Some (spread (rulesetJson (ruleset orgConfig)) (rulesetJson (ruleset repoConfig))));
    ("feedback", Some (spread (feedbackJson (feedback orgConfig)) (feedbackJson (feedback repoConfig))))
  ]%string.

Inductive OrgSource := src_repo_org | src_repo | src_org | src_defaults.

Section org.
Context (isUrl compiles : str -> bool) (parseYaml : str -> option json).

Definition mergeOrgIntoRepo (orgConfig repoConfig : Config) : result LoadError Config :=
  match ConfigSchema isUrl compiles (mergedInput orgConfig repoConfig) with
  | Some c => Ok c
  | None => Throw InvalidConfig
  end.

(** [cacheGet]: the [get] of the cache the caller hands in. *)
Definition loadConfigWithOrgFallback {S : Type} (cacheGet : str -> eff S LoadError (option str))
    (owner : str) (repoYaml : option str) : eff S LoadError (Config * OrgSource) :=
  repoConfig ← match repoYaml with
               | None => mret None
               | Some y => c ← lift (loadConfigFromYaml isUrl compiles parseYaml y); mret (Some c)
               end;
  let wantsExtends := match repoConfig with
                      | Some c => match extends c with
                                  | Some (ExtName s) => bool_decide (s = js "org") | _ => false end
                      | None => false
                      end in
  match repoConfig, wantsExtends with
  | Some c, false => mret (c, src_repo)
  | _, _ =>
      orgYaml ← cacheGet owner;
      orgConfig ← match orgYaml with
                  | None => mret None
                  | Some y => c ← lift (loadConfigFromYaml isUrl compiles parseYaml y); mret (Some c)
                  end;
      match repoConfig, orgConfig with
      | Some _, None => throw (OrgConfigNotFound owner)
      | Some r, Some o => m ← lift (mergeOrgIntoRepo o r); mret (m, src_repo_org)
      | None, Some o => mret (o, src_org)
      | None, None => c ← lift (defaultConfig isUrl compiles); mret (c, src_defaults)
      end
  end.
End org.

(** ** The merge is total *)

(** What the merge makes of two configurations: the lists of both, the organisation's first and
    each entry once; the repository's scalars and objects; the defaults of the schema for the five
    members the merged object leaves out. *)
Definition mergedConfig (org repoC : Config) : Config :=
  let o := reviews org in
  let r := reviews repoC in
  let oa := auto_review o in
  let ra := auto_review r in
  {| extends := Some ExtNull; language := language repoC; profile := profile repoC;
     provider := match provider repoC with Some p => Some p | None => provider org end;
     reviews :=
       {| auto_review :=
            {| ar_enabled := ar_enabled ra; drafts := drafts ra; base_branches := base_branches ra;
               ar_paths := ar_paths ra;
               ar_trigger_labels := dedup (ar_trigger_labels oa ++ ar_trigger_labels ra);
               ar_skip_labels := dedup (ar_skip_labels oa ++ ar_skip_labels ra) |};
          path_filters := dedup (path_filters o ++ path_filters r);
          path_instructions := path_instructions o ++ path_instructions r;
          max_files := max_files r; max_diff_lines := max_diff_lines r;
          ignore_authors := dedup (ignore_authors o ++ ignore_authors r);
          min_confidence := low; request_changes_on := at_critical;
          max_steps := max_steps r; max_conversation_turns := max_conversation_turns r |};
     cost := cost repoC;
     privacy :=
       {| redact_patterns := dedup (redact_patterns (privacy org) ++ redact_patterns (privacy repoC));
          deny_paths := dedup (deny_paths (privacy org) ++ deny_paths (privacy repoC));
          allowed_url_prefixes :=
            dedup (allowed_url_prefixes (privacy org) ++ allowed_url_prefixes (privacy repoC)) |};
     repo := repo repoC; skills := skills org ++ skills repoC; incremental := incremental repoC;
     coordination := {| other_bots := js "ignore"; other_bots_logins := [] |};
     server := {| workspace_strategy := js "none" |}; codecommit := {| approvalState := js "off" |};
     ruleset := mapSpread (ruleset org) (ruleset repoC); feedback := feedback repoC |}.

Lemma spread_autoReview a b (t s : list str) :
  spread (spread (autoReviewJson a) (autoReviewJson b))
    (obj [("trigger_labels", Some (strs t)); ("skip_labels", Some (strs s))]%string)
  = autoReviewJson {| ar_enabled := ar_enabled b; drafts := drafts b; base_branches := base_branches b;
      ar_paths := ar_paths b; ar_trigger_labels := t; ar_skip_labels := s |}.
Proof. by destruct a, b. Qed.

Lemma spread_cost a b : spread (costJson a) (costJson b) = costJson b.
Proof. by destruct a, b. Qed.
Lemma spread_repo a b : spread (repoJson a) (repoJson b) = repoJson b.
Proof. by destruct a, b. Qed.
Lemma spread_incremental a b : spread (incrementalJson a) (incrementalJson b) = incrementalJson b.
Proof. by destruct a, b. Qed.
Lemma spread_feedback a b : spread (feedbackJson a) (feedbackJson b) = feedbackJson b.
Proof. by destruct a, b. Qed.

Lemma mapGet_map {V W} (f : V -> W) k (c : jsmap V) :
  mapGet k (map (fun kv => (kv.1, f kv.2)) c) = f <$> mapGet k c.
Proof.
  induction c as [|[u v] c IH]; [done|]. cbn [map fst snd]. rewrite !mapGet_cons. by case_bool_decide.
Qed.

Lemma mapSet_map {V W} (f : V -> W) k e (c : jsmap V) :
  mapSet k (f e) (map (fun kv => (kv.1, f kv.2)) c) = map (fun kv => (kv.1, f kv.2)) (mapSet k e c).
Proof.
  unfold mapSet. rewrite mapGet_map. destruct (mapGet k c); cbn.
  - rewrite !map_map. apply map_ext. intros [u w]. cbn. by case_bool_decide.
  - by rewrite map_app.
Qed.

Lemma spread_ruleset a b : spread (rulesetJson a) (rulesetJson b) = rulesetJson (mapSpread a b).
Proof.
  unfold spread, rulesetJson, mapSpread. f_equal. revert a.
  induction b as [|[k v] b IH]; intros a; [done|]. cbn [map foldl fst snd]. by rewrite mapSet_map, IH.
Qed.

Lemma ruleset_wf_spread a b : ruleset_wf a -> ruleset_wf b -> ruleset_wf (mapSpread a b).
Proof.
  unfold ruleset_wf, mapSpread. intros Ha [_ Hb]. revert a Ha.
  induction Hb as [|[k v] b [Hk _] Hb IH]; intros a Ha; [done|]. cbn [foldl fst snd].
  apply IH. by apply record_wf_mapSet.
Qed.

Lemma Forall_dedup (P : str -> Prop) a b : Forall P a -> Forall P b -> Forall P (dedup (a ++ b)).
Proof.
  rewrite !Forall_forall. intros Ha Hb x. unfold dedup. rewrite elem_of_uniq, elem_of_app. naive_solver.
Qed.

Lemma mergedConfig_wf isUrl compiles o r :
  config_wf isUrl compiles o -> config_wf isUrl compiles r -> config_wf isUrl compiles (mergedConfig o r).
Proof.
  intros (_ & _ & _ & Hop & Hor & _ & Hopr & Hosk & _ & _ & _ & Horu & _).
  intros (_ & Hl & Hpf & Hrp & Hrr & Hrc & Hrpr & Hrsk & _ & _ & _ & Hrru & Hrf).
  destruct Hor as (Hoa & Hoi & _ & _ & Hog & _), Hrr as (Hra & Hri & Hrmf & Hrml & Hrg & Hrms & Hrmt).
  destruct Hoa as (_ & _ & Hoa1 & Hoa2), Hra as (Hra1 & Hra2 & Hra3 & Hra4).
  destruct Hopr as (Hp1 & Hp2 & Hp3), Hrpr as (Hq1 & Hq2 & Hq3).
  unfold config_wf, reviews_wf, autoReview_wf, privacy_wf, coordination_wf, server_wf, codecommit_wf, names_wf.
  split_and!; cbn -[isValidGlob isInt PROVIDER_TYPES SUPPORTED_LANGUAGES WORKSPACE_STRATEGIES];
    try done; try (by apply Forall_dedup); try (by apply Forall_app);
    try (refine (bool_decide_eq_true_1 _ _); by vm_compute).
  - by destruct (provider r).
  - by apply ruleset_wf_spread.
Qed.

(** The merged object leaves two members of [reviews] out: they come back as defaults. *)
Lemma partial_reviews_read r : reviews_wf r ->
  min_confidence r = low -> request_changes_on r = at_critical ->
  ReviewsSchema (obj [
    ("auto_review", Some (autoReviewJson (auto_review r))); ("path_filters", Some (strs (path_filters r)));
    ("path_instructions", Some (JArr (map pathInstructionJson (path_instructions r))));
    ("max_files", Some (JNum (max_files r))); ("max_diff_lines", Some (JNum (max_diff_lines r)));
    ("max_steps", Some (JNum (max_steps r)));
    ("max_conversation_turns", Some (JNum (max_conversation_turns r)));
    ("ignore_authors", Some (strs (ignore_authors r)))]%string) = Some r.
Proof.
  intros Hw Hm Hr. unfold reviews_wf in Hw. destruct_and?. unfold ReviewsSchema. object_back.
  destruct r. cbn in *. by subst.
Qed.

Lemma mergedInput_read isUrl compiles o r : config_wf isUrl compiles (mergedConfig o r) ->
  ConfigSchema isUrl compiles (mergedInput o r) = Some (mergedConfig o r).
Proof.
  intros Hw. unfold mergedInput. cbv zeta.
  rewrite spread_autoReview, spread_cost, spread_repo, spread_incremental, spread_feedback, spread_ruleset.
  match goal with |- context [("privacy"%string, Some ?p)] =>
    change p with (privacyJson (privacy (mergedConfig o r))) end.
  assert (from_option extends_wf True (Some ExtNull)) as Hx by done.
  change (Some JNull) with (extendsJson <$> Some ExtNull).
  unfold config_wf in Hw. destruct_and?. unfold ConfigSchema. rewrite asObject_obj by reflexivity.
  cbn [mbind option_bind].
  erewrite (at_present "reviews"); [|reflexivity|reflexivity].
  match goal with H : reviews_wf _ |- _ => pose proof (partial_reviews_read _ H eq_refl eq_refl) as Hr end.
  cbn [reviews mergedConfig auto_review path_filters path_instructions max_files max_diff_lines max_steps
    max_conversation_turns ignore_authors] in Hr.
  rewrite Hr. clear Hr. revert Hx. generalize (Some ExtNull) at 1; intros ex Hx. members_back.
  replace (CoordinationSchema (JObj []))
    with (Some {| other_bots := js "ignore"; other_bots_logins := [] |}) by (by vm_compute).
  replace (ServerSchema (JObj [])) with (Some {| workspace_strategy := js "none" |}) by (by vm_compute).
  replace (CodecommitSchema (JObj [])) with (Some {| approvalState := js "off" |}) by (by vm_compute).
  done.
Qed.

(** ** Theorems *)

(** [extends: org] with two valid files always resolves, to a valid configuration in which the lists
    of both count, the repository's scalars win, and the repository's own choices for
    [min_confidence], [request_changes_on], coordination, the workspace and CodeCommit approvals are
    dropped for the built-in defaults. *)
Theorem org_merge (isUrl compiles : str -> bool) (o r : Config)
    (Ho : config_wf isUrl compiles o) (Hr : config_wf isUrl compiles r) :
  mergeOrgIntoRepo isUrl compiles o r = Ok (mergedConfig o r) /\
  config_wf isUrl compiles (mergedConfig o r).
Proof.
  pose proof (mergedConfig_wf isUrl compiles o r Ho Hr) as Hw. split; [|done].
  unfold mergeOrgIntoRepo. by rewrite mergedInput_read.
Qed.

Definition configOf (v : json) : option Config := ConfigSchema (fun _ => true) (fun _ => true) v.
Definition orgTree : json := JObj [(js "skills", JArr [JStr (js "a")])].
Definition repoTree : json := JObj [(js "extends", JStr (js "org"));
  (js "reviews", JObj [(js "request_changes_on", JStr (js "never"))])].

(** The repository asked never to block a merge; the merged configuration blocks on critical
    findings. *)
Lemma org_merge_witness : exists o r,
  configOf orgTree = Some o /\ configOf repoTree = Some r /\
  request_changes_on (reviews r) = never /\
  mergeOrgIntoRepo (fun _ => true) (fun _ => true) o r = Ok (mergedConfig o r) /\
  request_changes_on (reviews (mergedConfig o r)) = at_critical.
Proof.
  eexists _, _. split; [vm_compute; reflexivity|]. split; [vm_compute; reflexivity|].
  split; [reflexivity|]. split; [|reflexivity].
  apply org_merge; [apply (schema_wf _ _ orgTree)|apply (schema_wf _ _ repoTree)]; vm_compute; reflexivity.
Defined.

(** *** The cache *)

Inductive CacheOp :=
  | Get (owner : str) (now nowAfter : Z) (fetched : result unit (option str))
  | Invalidate (owner : option str).

Definition Answer : Type := option (result unit (option str)).

Definition cacheStep (ttl : Z) (op : CacheOp) (c : OrgCache) : Answer * OrgCache :=
  match op with
  | Get owner now nowAfter fetched =>
      let '(r, c') := orgCacheGet ttl (fun _ => fetched) owner now nowAfter c in (Some r, c')
  | Invalidate o => (None, orgCacheInvalidate o c)
  end.

(** The contract, on the history of what happened, newest first: an answer is the text of the last
    fetch for the owner, while it is not older than the time to live and nothing was invalidated
    since; otherwise the owner's file is fetched again. *)
Inductive CacheEvent := Fetched (owner : str) (text : option str) (time : Z) | Dropped (owner : option str).

Fixpoint lastFetch (owner : str) (h : list CacheEvent) : option (option str * Z) :=
  match h with
  | [] => None
  | Fetched o text time :: h' => if bool_decide (owner = o) then Some (text, time) else lastFetch owner h'
  | Dropped None :: _ => None
  | Dropped (Some o) :: h' => if bool_decide (owner = o) then None else lastFetch owner h'
  end.

Definition specStep (ttl : Z) (op : CacheOp) (h : list CacheEvent) : Answer * list CacheEvent :=
  match op with
  | Get owner now nowAfter fetched =>
      let refetch := (Some fetched,
        match fetched with Ok text => Fetched owner text nowAfter :: h | Throw _ => h end) in
      match lastFetch owner h with
      | Some (text, time) => if (now <? time + ttl)%Z then (Some (Ok text), h) else refetch
      | None => refetch
      end
  | Invalidate o => (None, Dropped o :: h)
  end.

Fixpoint answers {S} (step : CacheOp -> S -> Answer * S) (ops : list CacheOp) (s : S) : list Answer :=
  match ops with
  | [] => []
  | op :: ops' => let '(a, s') := step op s in a :: answers step ops' s'
  end.

Definition remembers (ttl : Z) (c : OrgCache) (h : list CacheEvent) : Prop :=
  forall owner, mapGet owner c
    = (fun f => {| ce_text := f.1; ce_expires := f.2 + ttl |}) <$> lastFetch owner h.

Lemma cacheStep_refines ttl op c h : remembers ttl c h ->
  (cacheStep ttl op c).1 = (specStep ttl op h).1 /\
  remembers ttl (cacheStep ttl op c).2 (specStep ttl op h).2.
Proof.
  intros H. destruct op as [owner now nowAfter fetched|o].
  - cbn. unfold orgCacheGet. rewrite H.
    assert (forall text, remembers ttl (mapSet owner {| ce_text := text; ce_expires := nowAfter + ttl |} c)
      (Fetched owner text nowAfter :: h)) as Hset.
    { intros text k. rewrite mapGet_mapSet, H. cbn. by case_bool_decide. }
    destruct (lastFetch owner h) as [[text time]|]; cbn; [destruct (_ <? _)%Z; [done|]|];
      destruct fetched; cbn; done.
  - split; [done|]. intros k. destruct o as [o|]; [|done].
    cbn [cacheStep specStep snd fst orgCacheInvalidate lastFetch]. rewrite mapGet_mapDelete, H. by case_bool_decide.
Qed.

(** Whatever the sequence of reads, invalidations, clock readings and fetches, the cache answers as
    its contract on the history says: no organisation file older than the time to live is ever
    served, and none from before an invalidation. *)
Theorem org_cache_refines_history (ttl : Z) (ops : list CacheOp) :
  answers (cacheStep ttl) ops [] = answers (specStep ttl) ops [].
Proof.
  assert (remembers ttl [] []) as H by done. revert H.
  generalize (@nil (str * CacheEntry)) as c, (@nil CacheEvent) as h.
  induction ops as [|op ops IH]; intros c h H; [done|]. cbn [answers].
  destruct (cacheStep_refines ttl op c h H) as [Ha Hr].
  destruct (cacheStep ttl op c) as [a c'], (specStep ttl op h) as [a' h']. cbn in Ha, Hr. subst a'.
  by rewrite (IH c' h').
Qed.

(** *** The choice of the file *)

Definition extendsOrg (c : Config) : bool :=
  match extends c with Some (ExtName s) => bool_decide (s = js "org") | _ => false end.

Section fallback.
Context (isUrl compiles : str -> bool) (parseYaml : str -> option json).
Context {S : Type} (cacheGet : str -> eff S LoadError (option str)) (owner : str).
Let load := loadConfigFromYaml isUrl compiles parseYaml.
Let fallback := loadConfigWithOrgFallback isUrl compiles parseYaml cacheGet owner.

Lemma fallback_repo y c s : load y = Ok c -> extendsOrg c = false ->
  fallback (Some y) s = (Ok (c, src_repo), s).
Proof.
  unfold fallback, load, loadConfigWithOrgFallback, extendsOrg. intros E Hx.
  unfold mbind, eff_bind, mret, eff_ret, lift. rewrite E. by rewrite Hx.
Qed.

Lemma fallback_extends y c s s' t : load y = Ok c -> extendsOrg c = true ->
  cacheGet owner s = (Ok t, s') ->
  fallback (Some y) s =
  (match t with
   | None => Throw (OrgConfigNotFound owner)
   | Some u => match load u with
               | Ok o => Ok (mergedConfig o c, src_repo_org)
               | Throw e => Throw e
               end
   end, s').
Proof.
  unfold fallback, load, loadConfigWithOrgFallback, extendsOrg. intros E Hx Hg.
  unfold mbind, eff_bind, mret, eff_ret, lift. rewrite E, Hx, Hg. destruct t as [u|]; [|done].
  destruct (loadConfigFromYaml _ _ _ u) as [o|e] eqn:Eo; [|done].
  unfold mergeOrgIntoRepo. rewrite mergedInput_read; [done|].
  by apply mergedConfig_wf; [apply (loadConfig_wf _ _ parseYaml u)|apply (loadConfig_wf _ _ parseYaml y)].
Qed.

Lemma fallback_none s s' t : cacheGet owner s = (Ok t, s') ->
  fallback None s =
  (match t with
   | None => match defaultConfig isUrl compiles with Ok c => Ok (c, src_defaults) | Throw e => Throw e end
   | Some u => match load u with Ok o => Ok (o, src_org) | Throw e => Throw e end
   end, s').
Proof.
  unfold fallback, load, loadConfigWithOrgFallback. intros Hg.
  unfold mbind, eff_bind, mret, eff_ret, lift. rewrite Hg. destruct t as [u|].
  - by destruct (loadConfigFromYaml _ _ _ u).
  - by destruct (defaultConfig _ _).
Qed.
End fallback.
