(* ===== verification/Llm.v ===== *)
(** * LLM drivers: types, prices and defaults (llm/src/types.ts, pricing.ts, defaults.ts)

    Names that are members of every JavaScript object ([constructor], [toString]) are not model
    names. *)

From S2P Require Import Prelude JsNumber JsMap JsonTree NumberText Errors Review.

(** ** llm/src/types.ts *)

Inductive ProviderType :=
  | p_anthropic | p_openai | p_azure_openai | p_google | p_vertex | p_bedrock | p_openai_compatible.
#[export] Instance ProviderType_eq : EqDecision ProviderType.
Proof. solve_decision. Defined.

Definition PROVIDER_TYPES : list ProviderType :=
  [p_anthropic; p_openai; p_azure_openai; p_google; p_vertex; p_bedrock; p_openai_compatible].

Definition providerType_str (t : ProviderType) : str :=
  match t with
  | p_anthropic => "anthropic" | p_openai => "openai" | p_azure_openai => "azure-openai"
  | p_google => "google" | p_vertex => "vertex" | p_bedrock => "bedrock"
  | p_openai_compatible => "openai-compatible"
  end.

Record ProviderConfig := {
  pc_type : ProviderType;
  pc_model : str;
  pc_baseUrl : option str;
  pc_apiKey : option str;
  pc_region : option str;
  azureDeployment : option str;
  anthropicCacheControl : option bool;
  vertexProjectId : option str;
}.

(** ** llm/src/pricing.ts *)

(** The double of a literal with [d] decimals. *)
Definition dec (m d : Z) : number := decimalNumber m (- d).

Record ModelPrice := {
  inputPerMTok : number;
  outputPerMTok : number;
  cacheReadPerMTok : number;
  cacheWritePerMTok : number;
}.

Definition price (i o r w : number) : ModelPrice :=
  {| inputPerMTok := i; outputPerMTok := o; cacheReadPerMTok := r; cacheWritePerMTok := w |}.
Definition SONNET : ModelPrice := price (dec 3 0) (dec 15 0) (dec 3 1) (dec 375 2).
Definition HAIKU : ModelPrice := price (dec 8 1) (dec 4 0) (dec 8 2) (dec 1 0).
Definition noCache (i o : number) : ModelPrice := price i o zero zero.

Definition ANTHROPIC_PRICING : jsmap ModelPrice :=
  [(js "claude-sonnet-4-6", SONNET); (js "claude-sonnet-4-5", SONNET);
   (js "claude-haiku-4-5-20251001", HAIKU)].
Definition OPENAI_PRICING : jsmap ModelPrice :=
  [(js "gpt-4o", noCache (dec 25 1) (dec 10 0)); (js "gpt-4o-mini", noCache (dec 15 2) (dec 6 1));
   (js "gpt-4.1", noCache (dec 2 0) (dec 8 0)); (js "gpt-4.1-mini", noCache (dec 4 1) (dec 16 1))].
Definition AZURE_OPENAI_PRICING : jsmap ModelPrice := OPENAI_PRICING.
Definition GOOGLE_PRICING : jsmap ModelPrice :=
  [(js "gemini-2.0-pro", noCache (dec 125 2) (dec 5 0));
   (js "gemini-2.0-flash", noCache (dec 75 3) (dec 3 1))].
Definition VERTEX_PRICING : jsmap ModelPrice :=
  GOOGLE_PRICING ++ [(js "claude-sonnet-4-6@anthropic", SONNET)].
Definition BEDROCK_PRICING : jsmap ModelPrice :=
  [(js "anthropic.claude-sonnet-4-6-v1:0", SONNET); (js "anthropic.claude-sonnet-4-5-v1:0", SONNET);
   (js "anthropic.claude-haiku-4-5-v1:0", HAIKU)].
Definition OPENAI_COMPATIBLE_PRICING : jsmap ModelPrice := [].

(** A table is passed by reference: [table === OPENAI_COMPATIBLE_PRICING] compares the objects. *)
Inductive PricingTable := anthropicT | openaiT | googleT | vertexT | bedrockT | compatibleT.

Definition rows (t : PricingTable) : jsmap ModelPrice :=
  match t with
  | anthropicT => ANTHROPIC_PRICING | openaiT => OPENAI_PRICING | googleT => GOOGLE_PRICING
  | vertexT => VERTEX_PRICING | bedrockT => BEDROCK_PRICING | compatibleT => OPENAI_COMPATIBLE_PRICING
  end.

Definition plainError (m : str) : thrown := Object (Some m) NoStatus None [].

Definition noPrice (model : str) : thrown :=
  plainError ("No price entry for model '" ++ model
              ++ "'. Update the provider's pricing table to include it.").

Definition priceForModel (table : PricingTable) (model : str) : result thrown ModelPrice :=
  match mapGet model (rows table) with
  | Some p => Ok p
  | None =>
      match table with
      | compatibleT => Ok (price zero zero zero zero)
      | _ => Throw (noPrice model)
      end
  end.

(** ** llm/src/defaults.ts *)

Record ProviderDefaults := {
  pd_default : option str;
  pd_fallback : list str;
  cheapest : option str;
}.

Definition PROVIDER_DEFAULTS (t : ProviderType) : ProviderDefaults :=
  match t with
  | p_anthropic =>
      {| pd_default := Some (js "claude-sonnet-4-6");
         pd_fallback := [js "claude-sonnet-4-5"; js "claude-haiku-4-5-20251001"];
         cheapest := Some (js "claude-haiku-4-5-20251001") |}
  | p_openai =>
      {| pd_default := Some (js "gpt-4o"); pd_fallback := [js "gpt-4o-mini"];
         cheapest := Some (js "gpt-4o-mini") |}
  | p_google | p_vertex =>
      {| pd_default := Some (js "gemini-2.0-pro"); pd_fallback := [js "gemini-2.0-flash"];
         cheapest := Some (js "gemini-2.0-flash") |}
  | p_bedrock =>
      {| pd_default := Some (js "anthropic.claude-sonnet-4-6-v1:0");
         pd_fallback := [js "anthropic.claude-sonnet-4-5-v1:0"];
         cheapest := Some (js "anthropic.claude-haiku-4-5-v1:0") |}
  | p_azure_openai | p_openai_compatible =>
      {| pd_default := None; pd_fallback := []; cheapest := None |}
  end.
