(* ===== verification/ProviderBase.v ===== *)
(** * LLM drivers: the shared part (llm/src/provider-base.ts)

    A driver puts the review's input into messages, calls the SDK's [generateText], prices what it
    used and classifies what it throws. [generateText], the models and the tokenizer are parameters.
    An error is the value a [catch] receives, read as an object with the members the classifiers
    look at; [showNumber] is [String] on numbers. The runner always passes [maxToolCalls] and the
    tools, so the defaults for a missing member are not reached through [ReviewInput]. *)

From S2P Require Import Prelude JsNumber JsMap JsonTree NumberText Errors Review Regex Schema Tools Untrusted Retry Runner Llm.

(** ** Reading an error *)

(** [typeof v === 'string'] and [typeof v === 'number']. *)
Definition numberMember (key : str) (v : json) : option number :=
  match member key v with Some (JNum n) => Some n | _ => None end.

Definition isObject (v : json) : bool :=
  match v with JObj _ | JArr _ => true | _ => false end.

(** [r{0,n}] *)
Fixpoint upTo (n : nat) (r : re) : re :=
  match n with O => Eps | S n => opt (Cat r (upTo n r)) end.

Definition classifiedAs (k : ErrorKind) : ErrorClassification := {| ek_kind := k; retryAfterMs := None |}.
Definition rateLimited (ms : option number) : ErrorClassification :=
  {| ek_kind := rate_limit; retryAfterMs := ms |}.

Definition isStatus (n : Z) (status : option number) : bool :=
  match status with Some s => bool_decide (integerOf s = Some n) | None => false end.

Definition readStatus (err : json) : option number :=
  match numberMember "status" err with
  | Some s => Some s
  | None => numberMember "statusCode" err
  end.

Section header.
Context (showNumber : number -> str).

(** [bag[name] ?? bag[name.toLowerCase()]], when it is a string or a number. *)
Definition headerIn (name : str) (bag : json) : option str :=
  match (match field name bag with Some v => Some v | None => member (toLowerCase name) bag end) with
  | Some (JStr s) => Some s
  | Some (JNum n) => Some (showNumber n)
  | _ => None
  end.

Definition readHeader (err : json) (name : str) : option str :=
  let bag key := b ← member key err; if isObject b then headerIn name b else None in
  match bag (js "headers") with
  | Some v => Some v
  | None => bag (js "responseHeaders")
  end.
End header.

Definition readErrorCode (err : json) : option str :=
  match stringMember "code" err with
  | Some c => Some c
  | None =>
      match (e ← member "error" err; stringMember "code" e) with
      | Some c => Some c
      | None => stringMember "type" err
      end
  end.

Definition CONTEXT_LENGTH : re := alts
  [Cat (litI "context") (Cat (upTo 5 dot) (litI "length"));
   litI "maximum context length"; litI "too long for the model";
   Cat (litI "token") (Cat (opt (chrI "s")) (litI " exceeds"));
   Cat (litI "exceeds") (Cat (upTo 10 dot) (litI "context window"))].

Definition looksLikeContextLength (err : json) : bool :=
  bool_decide (readErrorCode err = Some (js "context_length_exceeded")) ||
  match stringMember "message" err with
  | Some m => matches (search CONTEXT_LENGTH) m
  | None => false
  end.

Definition NETWORK_CODES : list str :=
  [js "ECONNRESET"; js "ETIMEDOUT"; js "ENOTFOUND"; js "EAI_AGAIN"; js "ECONNREFUSED"].

Definition looksLikeNetworkError (err : json) : bool :=
  match truthyStr (readErrorCode err) with
  | Some code => bool_decide (code ∈ NETWORK_CODES)
  | None => false
  end.

(** A header that holds a number, in milliseconds. *)
Definition finiteHeader (scale : number -> number) (h : option str) : option number :=
  s ← h;
  if isFinite (parseFloat s) then Some (scale (parseFloat s)) else None.

Definition THOUSAND : number := num_of_Z 1000.

Definition classifyHttpStyleError (showNumber : number -> str) (err : json) : ErrorClassification :=
  if looksLikeContextLength err then classifiedAs context_length
  else
    let status := readStatus err in
    if isStatus 429 status then
      match finiteHeader id (readHeader showNumber err "retry-after-ms") with
      | Some n => rateLimited (Some n)
      | None =>
          rateLimited (finiteHeader (fun n => nmul n THOUSAND) (readHeader showNumber err "retry-after"))
      end
    else if isStatus 500 status || isStatus 503 status then classifiedAs overloaded
    else if isStatus 401 status || isStatus 403 status then classifiedAs auth
    else if looksLikeNetworkError err then classifiedAs transient
    else classifiedAs fatal.

(** ** The driver *)

Definition DEFAULT_TEMPERATURE : number := decimalNumber 2 (-1).
Definition FALLBACK_CHARS_PER_TOKEN : Z := 4.
Definition DEFAULT_MAX_TOOL_CALLS : Z := 20.
Definition MILLION : number := num_of_Z 1000000.

(** [Math.ceil(text.length / FALLBACK_CHARS_PER_TOKEN)] *)
Definition approximateTokens (text : str) : Z :=
  ((Zlen text + (FALLBACK_CHARS_PER_TOKEN - 1)) / FALLBACK_CHARS_PER_TOKEN)%Z.

Definition ProviderOutputShapeSchema (comments : list ReviewOutputComment) (summary : str) : bool :=
  forallb InlineCommentSchema comments && (Zlen comments <=? COMMENTS_MAX)%Z
  && lengthBetween 1 SUMMARY_MAX summary.

Definition composeUserPrompt (input : ReviewInput) : str :=
  let meta := in_prMetadata input in
  join nl [js "<untrusted>"; "<title>" ++ title meta ++ "</title>";
           "<author>" ++ author meta ++ "</author>"; "<body>" ++ um_body meta ++ "</body>";
           js "</untrusted>"; []; js "<diff>"; in_diffText input; js "</diff>"].

Inductive Role := system | user.

(** A text part, with the cache marker Anthropic understands. *)
Record MessagePart := { part_text : str; ephemeral : bool }.
Inductive Content := Plain (text : str) | Parts (parts : list MessagePart).
Record Message := { role : Role; content : Content }.

(** The arguments of [generateText]. *)
Record GenerateArgs (M : Type) := {
  ga_model : M;
  ga_tools : str -> ToolArgs -> result toolError ToolOutput;
  ga_stopWhen : Z;
  ga_outputSchema : list ReviewOutputComment -> str -> bool;
  ga_messages : list Message;
  ga_temperature : number;
}.
Arguments ga_model {M}.
Arguments ga_tools {M}.
Arguments ga_stopWhen {M}.
Arguments ga_outputSchema {M}.
Arguments ga_messages {M}.
Arguments ga_temperature {M}.

Record Usage := { inputTokens : option Z; outputTokens : option Z }.

(** What [generateText] resolves to; [experimental_output] is a getter, which may throw. *)
Record GenerateResult := {
  totalUsage : option Usage;
  gr_usage : option Usage;
  experimental_output : result thrown (list ReviewOutputComment * str);
  gr_steps : option json;
}.

(** [generateText]: a number of tool calls and an outcome, as a provider's call has. *)
Definition GenerateTextFn (W M : Type) : Type :=
  GenerateArgs M -> W -> (nat * result thrown GenerateResult) * W.

Definition countToolCalls (result : GenerateResult) : Z :=
  match gr_steps result with
  | Some (JArr steps) =>
      foldl (fun total step => match member "toolCalls" step with
                               | Some (JArr calls) => (total + Zlen calls)%Z
                               | _ => total
                               end) 0%Z steps
  | _ => 0%Z
  end.

Definition tokens (n : option Z) : Z := default 0%Z n.

Definition resultUsage (result : GenerateResult) : Usage :=
  match totalUsage result with
  | Some u => u
  | None => default {| inputTokens := None; outputTokens := None |} (gr_usage result)
  end.

(** [(n / 1_000_000) * price] *)
Definition priced (n : Z) (perMTok : number) : number := nmul (ndiv (num_of_Z n) MILLION) perMTok.

(** What a driver makes of a result: the price is looked up before the output is read. *)
Definition reviewOutput (table : PricingTable) (model : str) (r : GenerateResult)
    : result thrown ReviewOutput :=
  let inp := tokens (inputTokens (resultUsage r)) in
  let out := tokens (outputTokens (resultUsage r)) in
  p ← priceForModel table model;
  data ← experimental_output r;
  Ok {| out_comments := data.1; out_summary := data.2;
        out_tokensUsed := {| tok_input := inp; tok_output := out |};
        out_costUsd := nadd (priced inp (inputPerMTok p)) (priced out (outputPerMTok p));
        out_toolCalls := Some (countToolCalls r) |}.

(** A driver: the provider of the runner, its price list and its classifier. *)
Record Driver (W : Type) := {
  dr_provider : LlmProvider W;
  pricePerMillionTokens : result thrown (number * number);
  classifyError : json -> ErrorClassification;
}.
Arguments dr_provider {W}.
Arguments pricePerMillionTokens {W}.
Arguments classifyError {W}.

Record ProviderShape (M : Type) := {
  ps_name : str;
  ps_pricing : PricingTable;
  ps_classifyError : json -> ErrorClassification;
  ps_modelForRequest : str -> M;
}.
Arguments ps_name {M}.
Arguments ps_pricing {M}.
Arguments ps_classifyError {M}.
Arguments ps_modelForRequest {M}.

Section driver.
Context {W M : Type} (generate : GenerateTextFn W M) (tokenize : str -> Z).

Definition generateArgs (model : M) (messages : list Message) (input : ReviewInput) : GenerateArgs M :=
  {| ga_model := model; ga_tools := in_tools input; ga_stopWhen := in_maxToolCalls input;
     ga_outputSchema := ProviderOutputShapeSchema; ga_messages := messages;
     ga_temperature := DEFAULT_TEMPERATURE |}.

Definition plainMessages (input : ReviewInput) : list Message :=
  [{| role := system; content := Plain (in_systemPrompt input) |};
   {| role := user; content := Plain (composeUserPrompt input) |}].

(** [generateReview] after its arguments: the call, then what is made of its result. *)
Definition reviewed (table : PricingTable) (model : str) (args : GenerateArgs M) (w : W)
    : (nat * result thrown ReviewOutput) * W :=
  let '((calls, r), w') := generate args w in
  ((calls, r ≫= reviewOutput table model), w').

Definition estimated (table : PricingTable) (model : str) (input : ReviewInput) : result thrown number :=
  p ← priceForModel table model;
  Ok (priced (tokenize (in_systemPrompt input ++ nl ++ composeUserPrompt input)) (inputPerMTok p)).

Definition createGenericProvider (shape : ProviderShape M) (model : str) : Driver W :=
  {| dr_provider :=
       {| pv_name := ps_name shape; pv_model := model;
          generateReview := fun input =>
            reviewed (ps_pricing shape) model
              (generateArgs (ps_modelForRequest shape model) (plainMessages input) input);
          estimateCost := fun input => lift (estimated (ps_pricing shape) model input) |};
     pricePerMillionTokens := p ← priceForModel (ps_pricing shape) model;
                              Ok (inputPerMTok p, outputPerMTok p);
     classifyError := ps_classifyError shape |}.
End driver.
