(* ===== verification/Anthropic.v ===== *)
(** * The Anthropic driver (llm/src/anthropic.ts) *)

From S2P Require Import Prelude JsNumber JsMap JsonTree NumberText Errors Review Regex Tools Untrusted Retry Runner Llm ProviderBase.

(** ** The classifier *)

Definition readStatus (err : json) : option number :=
  match numberMember "status" err with
  | Some s => Some s
  | None => numberMember "statusCode" err
  end.

Section header.
Context (showNumber : number -> str).

Definition headerIn (name : str) (bag : json) : option str :=
  match (match field name bag with Some v => Some v | None => member (toLowerCase name) bag end) with
  | Some (JStr s) => Some s
  | Some (JNum n) => Some (showNumber n)
  | _ => None
  end.

Definition readHeader (err : json) (name : str) : option str :=
  let bag key := b ← member key err; if isObject b then headerIn name b else None in
  match bag (js "headers") with
  | Some v => Some v
  | None => bag (js "responseHeaders")
  end.
End header.

Definition CONTEXT_LENGTH : re := alts
  [Cat (litI "context") (Cat (upTo 5 dot) (litI "length"));
   litI "too long"; litI "maximum context"; litI "prompt is too long"].

Definition looksLikeContextLength (err : json) : bool :=
  match stringMember "message" err with
  | Some m => matches (search CONTEXT_LENGTH) m
  | None => false
  end.

Definition looksLikeNetworkError (err : json) : bool :=
  match stringMember "code" err with
  | Some code =>
      bool_decide (code ∈ [js "ECONNRESET"; js "ETIMEDOUT"; js "ENOTFOUND"; js "EAI_AGAIN"; js "ECONNREFUSED"])
  | None => false
  end.

Definition classifyAnthropicError (showNumber : number -> str) (err : json) : ErrorClassification :=
  let status := readStatus err in
  if isStatus 429 status then
    match truthyStr (readHeader showNumber err "retry-after") with
    | Some s =>
        let ms := nmul (parseFloat s) THOUSAND in
        rateLimited (if isFinite ms then Some ms else None)
    | None => rateLimited None
    end
  else if isStatus 529 status then classifiedAs overloaded
  else if isStatus 401 status || isStatus 403 status then classifiedAs auth
  else if looksLikeContextLength err then classifiedAs context_length
  else if looksLikeNetworkError err then classifiedAs transient
  else classifiedAs fatal.

(** ** The driver *)

(** The environment variables the drivers read for their keys and regions. *)
Record ProviderEnv := {
  ANTHROPIC_API_KEY : option str;
  OPENAI_API_KEY : option str;
  GOOGLE_GENERATIVE_AI_API_KEY : option str;
  AZURE_OPENAI_API_KEY : option str;
  CLOUD_ML_REGION : option str;
}.

Definition wrongType (creator : string) (t : ProviderType) : thrown :=
  plainError (creator ++ " received provider.type='" ++ providerType_str t ++ "'").

(** [config.apiKey ?? env], when it is not empty. *)
Definition configuredKey (apiKey env : option str) : option str :=
  truthyStr (match apiKey with Some k => Some k | None => env end).

Definition composeUserPrompt (input : ReviewInput) : str :=
  let meta := in_prMetadata input in
  join nl [js "<untrusted>"; "<title>" ++ title meta ++ "</title>";
           "<author>" ++ author meta ++ "</author>"; "<body>" ++ um_body meta ++ "</body>";
           js "</untrusted>"; []; js "<diff>"; in_diffText input; js "</diff>"].

Definition composeMessages (systemPrompt userPrompt : str) (cacheControl : bool) : list Message :=
  [{| role := system; content := Parts [{| part_text := systemPrompt; ephemeral := cacheControl |}] |};
   {| role := user; content := Parts [{| part_text := userPrompt; ephemeral := false |}] |}].

Section anthropic.
Context {W M : Type} (generate : GenerateTextFn W M) (showNumber : number -> str).
(** [createAnthropic({ apiKey })], a function from model names to models. *)
Context (createClient : str -> str -> M).

Definition createAnthropicProvider (env : ProviderEnv) (config : ProviderConfig) : result thrown (Driver W) :=
  if negb (bool_decide (pc_type config = p_anthropic)) then
    Throw (wrongType "createAnthropicProvider" (pc_type config))
  else if bool_decide (pc_model config = []) then
    Throw (plainError "createAnthropicProvider requires config.model")
  else match configuredKey (pc_apiKey config) (ANTHROPIC_API_KEY env) with
  | None => Throw (plainError
      "Anthropic API key not configured. Set ANTHROPIC_API_KEY env or provide config.apiKey.")
  | Some apiKey =>
      let cacheControl := default true (anthropicCacheControl config) in
      Ok {| dr_provider :=
              {| pv_name := "anthropic"; pv_model := pc_model config;
                 generateReview := fun input =>
                   reviewed generate anthropicT (pc_model config)
                     (generateArgs (createClient apiKey (pc_model config))
                        (composeMessages (in_systemPrompt input) (composeUserPrompt input) cacheControl) input);
                 estimateCost := fun input =>
                   lift (p ← priceForModel anthropicT (pc_model config);
                         Ok (priced (approximateTokens (in_systemPrompt input ++ nl ++ composeUserPrompt input))
                               (inputPerMTok p))) |};
            pricePerMillionTokens := p ← priceForModel anthropicT (pc_model config);
                                     Ok (inputPerMTok p, outputPerMTok p);
            classifyError := classifyAnthropicError showNumber |}
  end.
End anthropic.
