(* ===== verification/OpenAI.v ===== *)
(** * The OpenAI driver (llm/src/openai.ts) *)

From S2P Require Import Prelude JsNumber JsMap JsonTree NumberText Errors Review Regex Tools Untrusted Retry Runner Llm ProviderBase Anthropic.

(** ** The classifier *)

Definition readStatus (err : json) : option number :=
  match numberMember "status" err with
  | Some s => Some s
  | None => numberMember "statusCode" err
  end.

Section header.
Context (showNumber : number -> str).

Definition headerIn (name : str) (bag : json) : option str :=
  match (match field name bag with Some v => Some v | None => member (toLowerCase name) bag end) with
  | Some (JStr s) => Some s
  | Some (JNum n) => Some (showNumber n)
  | _ => None
  end.

Definition readHeader (err : json) (name : str) : option str :=
  let bag key := b ← member key err; if isObject b then headerIn name b else None in
  match bag (js "headers") with
  | Some v => Some v
  | None => bag (js "responseHeaders")
  end.
End header.

Definition readErrorCode (err : json) : option str :=
  match stringMember "code" err with
  | Some c => Some c
  | None =>
      match (e ← member "error" err; stringMember "code" e) with
      | Some c => Some c
      | None => stringMember "type" err
      end
  end.

Definition CONTEXT_LENGTH : re := alts
  [Cat (litI "context") (Cat (upTo 5 dot) (litI "length"));
   litI "maximum context length"; litI "too long for the model"].

Definition looksLikeContextLength (err : json) : bool :=
  bool_decide (readErrorCode err = Some (js "context_length_exceeded")) ||
  match stringMember "message" err with
  | Some m => matches (search CONTEXT_LENGTH) m
  | None => false
  end.

Definition looksLikeNetworkError (err : json) : bool :=
  match truthyStr (readErrorCode err) with
  | Some code =>
      bool_decide (code ∈ [js "ECONNRESET"; js "ETIMEDOUT"; js "ENOTFOUND"; js "EAI_AGAIN"; js "ECONNREFUSED"])
  | None => false
  end.

Definition classifyOpenAIError (showNumber : number -> str) (err : json) : ErrorClassification :=
  if looksLikeContextLength err then classifiedAs context_length
  else
    let status := readStatus err in
    if isStatus 429 status then
      match finiteHeader id (readHeader showNumber err "retry-after-ms") with
      | Some n => rateLimited (Some n)
      | None =>
          rateLimited (finiteHeader (fun n => nmul n THOUSAND)
                         (readHeader showNumber err "retry-after"))
      end
    else if isStatus 500 status || isStatus 503 status then classifiedAs overloaded
    else if isStatus 401 status || isStatus 403 status then classifiedAs auth
    else if looksLikeNetworkError err then classifiedAs transient
    else classifiedAs fatal.

(** ** The driver *)

Definition composeUserPrompt (input : ReviewInput) : str :=
  let meta := in_prMetadata input in
  join nl [js "<untrusted>"; "<title>" ++ title meta ++ "</title>";
           "<author>" ++ author meta ++ "</author>"; "<body>" ++ um_body meta ++ "</body>";
           js "</untrusted>"; []; js "<diff>"; in_diffText input; js "</diff>"].

Section openai.
Context {W M : Type} (generate : GenerateTextFn W M) (showNumber : number -> str).
(** The tokenizer of js-tiktoken, when it loads. *)
Context (tiktoken : option (str -> Z)).
(** [createOpenAI({ apiKey, baseURL })] *)
Context (createClient : str -> option str -> str -> M).

Definition openaiTokenize : str -> Z := default approximateTokens tiktoken.

Definition createOpenAIProvider (env : ProviderEnv) (config : ProviderConfig) : result thrown (Driver W) :=
  if negb (bool_decide (pc_type config = p_openai)) then
    Throw (wrongType "createOpenAIProvider" (pc_type config))
  else if bool_decide (pc_model config = []) then
    Throw (plainError "createOpenAIProvider requires config.model")
  else match configuredKey (pc_apiKey config) (OPENAI_API_KEY env) with
  | None => Throw (plainError
      "OpenAI API key not configured. Set OPENAI_API_KEY env or provide config.apiKey.")
  | Some apiKey =>
      let client := createClient apiKey (truthyStr (pc_baseUrl config)) in
      Ok {| dr_provider :=
              {| pv_name := "openai"; pv_model := pc_model config;
                 generateReview := fun input =>
                   reviewed generate openaiT (pc_model config)
                     (generateArgs (client (pc_model config))
                        [{| role := system; content := Plain (in_systemPrompt input) |};
                         {| role := user; content := Plain (composeUserPrompt input) |}] input);
                 estimateCost := fun input =>
                   lift (p ← priceForModel openaiT (pc_model config);
                         Ok (priced (openaiTokenize (in_systemPrompt input ++ nl ++ composeUserPrompt input))
                               (inputPerMTok p))) |};
            pricePerMillionTokens := p ← priceForModel openaiT (pc_model config);
                                     Ok (inputPerMTok p, outputPerMTok p);
            classifyError := classifyOpenAIError showNumber |}
  end.
End openai.
