(* ===== verification/Byok.v ===== *)
(** * Bring-your-own keys (core/src/kms/envelope.ts, core/src/kms/types.ts, db/src/byok-store.ts,
    db/src/tenancy.ts, server/src/api/llm-keys.ts, server/src/api/middleware/, server/src/api/index.ts)

    Customer keys are stored encrypted under a data key that the KMS wraps. The table is a map from
    installation and provider to a row; a transaction restores it when its body throws, and the
    row-level policy hides the rows of every installation but the one the transaction is for. The
    outside (the KMS, the random source, the clock, the audit log, which is written through a
    connection of its own) is a state [X] that no transaction rolls back. The cipher is a pair of
    functions. Wiping a buffer after use is not observable and left out. *)

From S2P Require Import Prelude JsNumber JsMap JsonTree Regex Schema NumberText Codec Errors Llm.

(** A byte is a character. *)
Abbreviation bytes := str.

Definition KEY_BYTES : Z := 32.
Definition IV_BYTES : Z := 12.
Definition TAG_BYTES : Z := 16.

Record EncryptedPayload := { ciphertext : bytes; iv : bytes; authTag : bytes }.

(** AES-256-GCM: ciphertext and tag for a key, an IV and a text; the text back, if the tag agrees. *)
Record Cipher := {
  seal : bytes -> bytes -> str -> bytes * bytes;
  unseal : bytes -> bytes -> bytes -> bytes -> option str;
}.

Record KmsClient (X : Type) := {
  encryptDataKey : bytes -> str -> eff X thrown bytes;
  decryptDataKey : bytes -> str -> eff X thrown bytes;
}.
Arguments encryptDataKey {X}.
Arguments decryptDataKey {X}.

Definition BYOK_PROVIDERS : list ProviderType :=
  [p_anthropic; p_openai; p_azure_openai; p_google; p_vertex; p_bedrock; p_openai_compatible].

#[export] Instance ProviderType_countable : Countable ProviderType.
Proof.
  refine (inj_countable' (fun t => match t with
    | p_anthropic => 0 | p_openai => 1 | p_azure_openai => 2 | p_google => 3 | p_vertex => 4
    | p_bedrock => 5 | p_openai_compatible => 6 end)%nat
    (fun n => match n with
    | 0 => p_anthropic | 1 => p_openai | 2 => p_azure_openai | 3 => p_google | 4 => p_vertex
    | 5 => p_bedrock | _ => p_openai_compatible end)%nat _).
  by intros [].
Defined.

Record SecretRow := {
  sr_kmsKeyId : str;
  wrappedDataKey : bytes;
  sr_payload : EncryptedPayload;
  sr_createdAt : Z;
  rotatedAt : Z;
}.

Abbreviation secretsTable := (gmap (Z * ProviderType) SecretRow).

Record ByokWorld (X : Type) := {
  bw_secrets : secretsTable;
  bw_tenant : option Z;
  bw_ext : X;
}.
Arguments Build_ByokWorld {X}.
Arguments bw_secrets {X}.
Arguments bw_tenant {X}.
Arguments bw_ext {X}.

Record ByokRecord := { br_installationId : Z; br_provider : ProviderType; br_kmsKeyId : str }.

(** An audit entry, as far as the routes fill it. *)
Inductive ByokEvent := byok_upsert | byok_rotate | byok_delete.
Record ByokAudit := { ba_event : ByokEvent; ba_installationId : Z; ba_model : ProviderType }.

Section byok.
Context {X : Type} (randomBytes : Z -> eff X thrown bytes) (clock : X -> Z) (cipher : Cipher)
        (kms : KmsClient X) (showLarge : Z -> str).
Notation World := (ByokWorld X).

Definition ext {A} (m : eff X thrown A) : eff World thrown A := fun w =>
  let '(r, x) := m (bw_ext w) in (r, Build_ByokWorld (bw_secrets w) (bw_tenant w) x).

(** ** The envelope *)

Definition lengthError (what : string) (n got : Z) : thrown :=
  plainError (what ++ " must be " ++ showZ n ++ " bytes (got " ++ showZ got ++ ").").

Definition generateDataKey : eff X thrown bytes := randomBytes KEY_BYTES.

Definition encryptWithDataKey (plaintext : str) (dataKey : bytes) : eff X thrown EncryptedPayload :=
  if negb (Zlen dataKey =? KEY_BYTES)%Z then throw (lengthError "dataKey" KEY_BYTES (Zlen dataKey))
  else
    iv_ ← randomBytes IV_BYTES;
    let '(c, t) := seal cipher dataKey iv_ plaintext in
    mret {| ciphertext := c; iv := iv_; authTag := t |}.

Definition decryptWithDataKey (p : EncryptedPayload) (dataKey : bytes) : result thrown str :=
  if negb (Zlen dataKey =? KEY_BYTES)%Z then Throw (lengthError "dataKey" KEY_BYTES (Zlen dataKey))
  else if negb (Zlen (iv p) =? IV_BYTES)%Z then Throw (lengthError "iv" IV_BYTES (Zlen (iv p)))
  else if negb (Zlen (authTag p) =? TAG_BYTES)%Z then
    Throw (lengthError "authTag" TAG_BYTES (Zlen (authTag p)))
  else match unseal cipher dataKey (iv p) (ciphertext p) (authTag p) with
       | Some s => Ok s
       | None => Throw (plainError "Unsupported state or unable to authenticate data")
       end.

(** ** The table under the tenant's policy *)

Definition visible (w : World) (installationId : Z) : bool :=
  match bw_tenant w with Some t => (t =? installationId)%Z | None => false end.

Definition setSecrets (f : secretsTable -> secretsTable) (w : World) : World :=
  Build_ByokWorld (f (bw_secrets w)) (bw_tenant w) (bw_ext w).

Definition selectSecret (k : Z * ProviderType) : eff World thrown (option SecretRow) :=
  w ← get;
  mret (if visible w k.1 then bw_secrets w !! k else None).

(** [INSERT ... ON CONFLICT DO UPDATE], refused by the policy for another installation. *)
Definition upsertRow (k : Z * ProviderType) (kmsKeyId : str) (wrapped : bytes) (p : EncryptedPayload)
    : eff World thrown unit :=
  w ← get;
  let now := clock (bw_ext w) in
  if visible w k.1 then
    modify (setSecrets (fun t => <[ k := {| sr_kmsKeyId := kmsKeyId; wrappedDataKey := wrapped; sr_payload := p;
                                            sr_createdAt := match t !! k with Some r => sr_createdAt r | None => now end;
                                            rotatedAt := now |} ]> t))
  else throw (plainError "new row violates row-level security policy for table installation_secrets").

(** ** The store *)

Definition rowKey (record : ByokRecord) : Z * ProviderType := (br_installationId record, br_provider record).

Definition upsertWithSecret (record : ByokRecord) (secret : str) : eff World thrown unit :=
  dataKey ← ext generateDataKey;
  wrapped ← ext (encryptDataKey kms dataKey (br_kmsKeyId record));
  envelope ← ext (encryptWithDataKey secret dataKey);
  upsertRow (rowKey record) (br_kmsKeyId record) wrapped envelope.

Definition readSecret (k : Z * ProviderType) : eff World thrown (option str) :=
  row ← selectSecret k;
  match row with
  | None => mret None
  | Some r =>
      dataKey ← ext (decryptDataKey kms (wrappedDataKey r) (sr_kmsKeyId r));
      s ← lift (decryptWithDataKey (sr_payload r) dataKey);
      mret (Some s)
  end.

Definition MISSING : str := "BYOK row missing".
Definition missingError (record : ByokRecord) : thrown :=
  plainError (MISSING ++ " for installation_id=" ++ showZ (br_installationId record) ++ " provider="
    ++ providerType_str (br_provider record) ++ "; nothing to rotate").

Definition rotate (record : ByokRecord) : eff World thrown unit :=
  existing ← readSecret (rowKey record);
  match truthyStr existing with
  | None => throw (missingError record)
  | Some s => upsertWithSecret record s
  end.

Definition remove (k : Z * ProviderType) : eff World thrown unit :=
  w ← get;
  if visible w k.1 then modify (setSecrets (delete k)) else mret tt.

Definition listProviders (installationId : Z) : eff World thrown (list (ProviderType * bool)) :=
  w ← get;
  mret (map (fun p => (p, visible w installationId && bool_decide (is_Some (bw_secrets w !! (installationId, p)))))
          BYOK_PROVIDERS).

(** ** Transactions *)

(** [String(installationId)]; [showLarge] prints the numbers that take an exponent. *)
Definition tenantText (installationId : Z) : str :=
  if (installationId <? 10 ^ 21)%Z then showZ installationId else showLarge installationId.

Definition notAnId (id : str) : thrown :=
  plainError ("installationId must be a positive integer (got " ++ id ++ ").").

(** [withTenant], called on a pool: the setting ends with the transaction. *)
Definition withTenant {A} (installationId : Z) (fn : eff World thrown A) : eff World thrown A := fun w =>
  let id := tenantText installationId in
  if bool_decide (id <> []) && forallb is_digit id then
    match fn (Build_ByokWorld (bw_secrets w) (Some installationId) (bw_ext w)) with
    | (Ok a, w') => (Ok a, Build_ByokWorld (bw_secrets w') None (bw_ext w'))
    | (Throw e, w') => (Throw e, Build_ByokWorld (bw_secrets w) None (bw_ext w'))
    end
  else (Throw (notAnId id), w).

(** ** The routes *)

Definition installationIdSchema (v : json) : option Z :=
  n ← asInt 1 None v;
  integerOf n.

Definition providerSchema : json -> option ProviderType :=
  asEnum (map (fun p => (providerType_str p, p)) BYOK_PROVIDERS).

Definition MAX_API_KEY : Z := 8192.

(** [z.object]: other members are dropped. *)
Definition lookupBodySchema (body : json) : option (Z * ProviderType) :=
  match body with
  | JObj fields =>
      i ← at_ "installationId" (requiredR installationIdSchema) fields;
      p ← at_ "provider" (requiredR providerSchema) fields;
      Some (i, p)
  | _ => None
  end.

Definition upsertBodySchema (body : json) : option (Z * ProviderType * str) :=
  match body with
  | JObj fields =>
      i ← at_ "installationId" (requiredR installationIdSchema) fields;
      p ← at_ "provider" (requiredR providerSchema) fields;
      k ← at_ "apiKey" (requiredR (checked (fun s => (1 <=? Zlen s) && (Zlen s <=? MAX_API_KEY))%Z asString)) fields;
      Some (i, p, k)
  | _ => None
  end.

(** The query schema: its transform throws on digits that are not a positive integer. *)
Definition listQuerySchema (installationId : option str) : result thrown (option Z) :=
  match installationId with
  | Some v =>
      if bool_decide (v <> []) && forallb is_digit v then
        match integerOf (toNumber v) with
        | Some n => if (n <=? 0)%Z then Throw (plainError "installationId must be a positive integer") else Ok (Some n)
        | None => Throw (plainError "installationId must be a positive integer")
        end
      else Ok None
  | None => Ok None
  end.

(** A request; a body is [None] when it is not JSON. *)
Inductive KeyRequest :=
  | ListKeys (installationId : option str)
  | UpsertKey (body : option json)
  | RotateKey (body : option json)
  | DeleteKey (body : option json).

Inductive KeyResponse :=
  | Keys200 (installationId : Z) (keys : list (ProviderType * bool))
  | Configured200 (installationId : Z) (provider : ProviderType) (configured : bool)
  | InvalidJson400
  | Validation422
  | KeyNotFound404
  | NotImplemented501
  | Unauthorized401
  | NotConfigured503.

Record LlmKeysDeps := {
  auditAppender : ByokAudit -> eff X thrown unit;
  lk_kmsKeyId : str;
  lk_multiTenant : bool;
}.

Context (deps : LlmKeysDeps).

(** The audit entry, written after the change; its failure is swallowed. *)
Definition audited (e : ByokEvent) (k : Z * ProviderType) : eff World thrown unit :=
  tryCatch (ext (auditAppender deps {| ba_event := e; ba_installationId := k.1; ba_model := k.2 |}))
    (fun _ => mret tt).

Definition recordFor (k : Z * ProviderType) : ByokRecord :=
  {| br_installationId := k.1; br_provider := k.2; br_kmsKeyId := lk_kmsKeyId deps |}.

Definition listRoute (installationId : option str) : eff World thrown KeyResponse :=
  parsed ← lift (listQuerySchema installationId);
  match parsed with
  | None => mret Validation422
  | Some i => keys ← withTenant i (listProviders i); mret (Keys200 i keys)
  end.

Definition upsertRoute (body : option json) : eff World thrown KeyResponse :=
  match body with
  | None => mret InvalidJson400
  | Some v =>
      match upsertBodySchema v with
      | None => mret Validation422
      | Some (i, p, apiKey) =>
          withTenant i (upsertWithSecret (recordFor (i, p)) apiKey;; audited byok_upsert (i, p));;
          mret (Configured200 i p true)
      end
  end.

(** [err instanceof Error && err.message.includes('BYOK row missing')] *)
Definition isMissing (e : thrown) : bool :=
  match e with
  | Object (Some m) _ _ _ => includes m MISSING
  | _ => false
  end.

Definition rotateRoute (body : option json) : eff World thrown KeyResponse :=
  match body with
  | None => mret InvalidJson400
  | Some v =>
      match lookupBodySchema v with
      | None => mret Validation422
      | Some k =>
          tryCatch
            (withTenant k.1 (rotate (recordFor k);; audited byok_rotate k);;
             mret (Configured200 k.1 k.2 true))
            (fun err => if isMissing err then mret KeyNotFound404 else throw err)
      end
  end.

Definition deleteRoute (body : option json) : eff World thrown KeyResponse :=
  match body with
  | None => mret InvalidJson400
  | Some v =>
      match lookupBodySchema v with
      | None => mret Validation422
      | Some k =>
          withTenant k.1 (remove k;; audited byok_delete k);;
          mret (Configured200 k.1 k.2 false)
      end
  end.

(** [createLlmKeysRouter] *)
Definition llmKeysRouter (r : KeyRequest) : eff World thrown KeyResponse :=
  if lk_multiTenant deps then mret NotImplemented501
  else match r with
       | ListKeys i => listRoute i
       | UpsertKey b => upsertRoute b
       | RotateKey b => rotateRoute b
       | DeleteKey b => deleteRoute b
       end.
End byok.

(** ** The API in front of the routes *)

(** [bearerTokenAuth]: whether the request goes on, or the refusal. *)
Definition bearerTokenAuth (token : option str) (requireAuth : bool) (method : str) (authorization : option str)
    : option KeyResponse :=
  if bool_decide (method = js "OPTIONS") then None
  else match truthyStr token with
  | None => if requireAuth then Some NotConfigured503 else None
  | Some expected =>
      match truthyStr authorization with
      | Some h =>
          if startsWith h "Bearer " && bool_decide (drop 7 h = expected) then None else Some Unauthorized401
      | None => Some Unauthorized401
      end
  end.

(** [REVIEW_AGENT_MULTI_TENANT] *)
Definition parseMultiTenantEnv (raw : option str) : bool :=
  match raw with Some r => bool_decide (toLowerCase (trim r) = js "true") | None => false end.

Record ApiDeps (X : Type) := {
  dashboardToken : option str;
  requireDashboardAuth : bool;
  api_kmsClient : option (KmsClient X);
  api_kmsKeyId : option str;
  api_auditAppender : ByokAudit -> eff X thrown unit;
  api_multiTenant : option bool;
  env_multiTenant : option str;
}.
Arguments dashboardToken {X}.
Arguments requireDashboardAuth {X}.
Arguments api_kmsClient {X}.
Arguments api_kmsKeyId {X}.
Arguments api_auditAppender {X}.
Arguments api_multiTenant {X}.
Arguments env_multiTenant {X}.

Definition methodOf (r : KeyRequest) : str :=
  match r with ListKeys _ => "GET" | UpsertKey _ | RotateKey _ => "POST" | DeleteKey _ => "DELETE" end.

(** [/api/integrations/llm-keys] of [createApi]. *)
Definition llmKeysApi {X} (randomBytes : Z -> eff X thrown bytes) (clock : X -> Z) (cipher : Cipher)
    (showLarge : Z -> str) (deps : ApiDeps X) (authorization : option str) (r : KeyRequest)
    : eff (ByokWorld X) thrown KeyResponse :=
  match bearerTokenAuth (dashboardToken deps) (requireDashboardAuth deps) (methodOf r) authorization with
  | Some refusal => mret refusal
  | None =>
      match api_kmsClient deps, truthyStr (api_kmsKeyId deps) with
      | Some kms, Some kmsKeyId =>
          llmKeysRouter randomBytes clock cipher kms showLarge
            {| auditAppender := api_auditAppender deps; lk_kmsKeyId := kmsKeyId;
               lk_multiTenant := match api_multiTenant deps with
                                 | Some b => b
                                 | None => parseMultiTenantEnv (env_multiTenant deps)
                                 end |} r
      | _, _ => mret NotConfigured503
      end
  end.
