(* ===== verification/ByokSpec.v ===== *)
(** * Bring-your-own keys: the contract

    The routes implement a map from installation and provider to a secret: [byok_is_a_secret_map] says
    which answer and which next map each request may have, whatever the KMS, the random source and
    the audit log do, and for every sequence of requests. *)

From S2P Require Import Prelude JsNumber JsMap JsonTree Regex Schema NumberText Codec Errors Llm Byok.

Abbreviation secretMap := (gmap (Z * ProviderType) str).

Section contract.
Context {X : Type} (randomBytes : Z -> eff X thrown bytes) (clock : X -> Z) (cipher : Cipher)
        (kms : KmsClient X) (showLarge : Z -> str) (deps : LlmKeysDeps (X := X)).
Notation World := (ByokWorld X).
Notation router := (llmKeysRouter randomBytes clock cipher kms showLarge deps).

(** ** What is relied on *)

(** An unwrapped key is the one that was wrapped. *)
Definition kmsUnwraps : Prop := forall key id x c x1 x2 k x3,
  encryptDataKey kms key id x = (Ok c, x1) -> decryptDataKey kms c id x2 = (Ok k, x3) -> k = key.
Definition randomLength : Prop := forall n x b x', (0 <= n)%Z -> randomBytes n x = (Ok b, x') -> Zlen b = n.
Definition cipherInverts : Prop := forall key iv_ s,
  Zlen (seal cipher key iv_ s).2 = TAG_BYTES /\
  unseal cipher key iv_ (seal cipher key iv_ s).1 (seal cipher key iv_ s).2 = Some s.
(** No outside error, and no printed number, carries the store's own words. *)
Definition ownWords : Prop :=
  (forall n x e x', randomBytes n x = (Throw e, x') -> isMissing e = false) /\
  (forall k id x e x', encryptDataKey kms k id x = (Throw e, x') -> isMissing e = false) /\
  (forall c id x e x', decryptDataKey kms c id x = (Throw e, x') -> isMissing e = false) /\
  (forall n, isMissing (notAnId (showLarge n)) = false).

(** ** The abstraction *)

(** The row opens to the secret, whenever the KMS unwraps its key. *)
Definition opens (row : SecretRow) (secret : str) : Prop := forall x k x',
  decryptDataKey kms (wrappedDataKey row) (sr_kmsKeyId row) x = (Ok k, x') ->
  decryptWithDataKey cipher (sr_payload row) k = Ok secret.

Definition represents (t : secretsTable) (a : secretMap) : Prop := forall k,
  match t !! k, a !! k with
  | Some row, Some secret => opens row secret /\ secret <> []
  | None, None => True
  | _, _ => False
  end.

(** The map after a request and its outcome. *)
Definition after (r : KeyRequest) (res : result thrown KeyResponse) (a : secretMap) : secretMap :=
  match r, res with
  | UpsertKey (Some v), Ok (Configured200 _ _ _) =>
      match upsertBodySchema v with Some (i, p, secret) => <[ (i, p) := secret ]> a | None => a end
  | DeleteKey (Some v), Ok (Configured200 _ _ _) =>
      match lookupBodySchema v with Some k => delete k a | None => a end
  | _, _ => a
  end.

(** The answers a request may have. *)
Definition answers (r : KeyRequest) (a : secretMap) (res : KeyResponse) : Prop :=
  match res with
  | Keys200 i keys => (exists q, r = ListKeys (Some q) /\ listQuerySchema (Some q) = Ok (Some i)) /\
      keys = map (fun p => (p, bool_decide (is_Some (a !! (i, p))))) BYOK_PROVIDERS
  | Configured200 i p c =>
      (exists v s, r = UpsertKey (Some v) /\ upsertBodySchema v = Some (i, p, s) /\ c = true) \/
      (exists v, r = RotateKey (Some v) /\ lookupBodySchema v = Some (i, p) /\ c = true /\ is_Some (a !! (i, p))) \/
      (exists v, r = DeleteKey (Some v) /\ lookupBodySchema v = Some (i, p) /\ c = false)
  | InvalidJson400 => r = UpsertKey None \/ r = RotateKey None \/ r = DeleteKey None
  | Validation422 =>
      match r with
      | ListKeys q => listQuerySchema q = Ok None
      | UpsertKey (Some v) => upsertBodySchema v = None
      | RotateKey (Some v) | DeleteKey (Some v) => lookupBodySchema v = None
      | _ => False
      end
  | KeyNotFound404 => exists v k, r = RotateKey (Some v) /\ lookupBodySchema v = Some k /\ a !! k = None
  | NotImplemented501 => lk_multiTenant deps = true
  | Unauthorized401 | NotConfigured503 => False
  end.

(** ** The store under a tenant *)

Context (Hkms : kmsUnwraps) (Hrand : randomLength) (Hcipher : cipherInverts) (Hown : ownWords).

(** What an operation on the table leaves alone. *)
Definition sameTenant (w w' : World) : Prop := bw_tenant w' = bw_tenant w.
Definition untouched (w w' : World) : Prop := bw_tenant w' = bw_tenant w /\ bw_secrets w' = bw_secrets w.

Lemma ext_untouched {A} (m : eff X thrown A) w r w' : ext m w = (r, w') ->
  untouched w w' /\ exists x, m (bw_ext w) = (r, x).
Proof. unfold ext. destruct (m (bw_ext w)) as [r0 x]. intros [= <- <-]. split; [by split|by exists x]. Qed.

Lemma encrypt_opens key id c x1 x p e x' secret :
  encryptDataKey kms key id x1 = (Ok c, x) -> Zlen key = KEY_BYTES ->
  encryptWithDataKey randomBytes cipher secret key p = (Ok e, x') ->
  forall row, wrappedDataKey row = c -> sr_kmsKeyId row = id -> sr_payload row = e -> opens row secret.
Proof.
  intros Hw Hk He row <- <- <- y k y' Hd. rewrite (Hkms _ _ _ _ _ _ _ _ Hw Hd).
  revert He. unfold encryptWithDataKey. rewrite Hk, Z.eqb_refl. cbn [negb].
  rewrite bind_Ok. intros (iv_ & x2 & Hiv & He). apply Hrand in Hiv; [|done].
  destruct (Hcipher key iv_ secret) as [Ht Hu]. destruct (seal cipher key iv_ secret) as [cc t]. cbn in *.
  injection He as <- _. unfold decryptWithDataKey. cbn. by rewrite Hk, Hiv, Ht, Hu.
Qed.

Lemma upsert_spec i p keyId secret w r w' : bw_tenant w = Some i ->
  upsertWithSecret randomBytes clock cipher kms
    {| br_installationId := i; br_provider := p; br_kmsKeyId := keyId |} secret w = (r, w') ->
  sameTenant w w' /\
  match r with
  | Ok _ => exists row, bw_secrets w' = <[ (i, p) := row ]> (bw_secrets w) /\ opens row secret
  | Throw e => isMissing e = false /\ bw_secrets w' = bw_secrets w
  end.
Proof.
  destruct Hown as (Hr & He & _ & _). intros Ht. unfold upsertWithSecret, mbind, eff_bind. cbn [br_kmsKeyId].
  destruct (ext (generateDataKey randomBytes) w) as [[key|e] w1] eqn:E1;
    apply ext_untouched in E1 as ([T1 S1] & x1 & E1).
  2: { intros [= <- <-]. split; [done|]. split; [by eapply Hr|done]. }
  destruct (ext (encryptDataKey _ _ _) w1) as [[c|e] w2] eqn:E2;
    apply ext_untouched in E2 as ([T2 S2] & x2 & E2).
  2: { intros [= <- <-]. split; [by unfold sameTenant; congruence|]. split; [by eapply He|congruence]. }
  apply Hrand in E1; [|done].
  destruct (ext (encryptWithDataKey _ _ _ _) w2) as [[pay|e] w3] eqn:E3;
    apply ext_untouched in E3 as ([T3 S3] & x3 & E3).
  - unfold upsertRow, mbind, eff_bind, get, visible. cbn [fst snd rowKey br_installationId br_provider].
    rewrite T3, T2, T1, Ht, Z.eqb_refl. unfold modify, setSecrets. intros [= <- <-].
    split; [by unfold sameTenant; cbn; congruence|]. cbn. eexists. rewrite S3, S2, S1. split; [done|].
    by eapply encrypt_opens.
  - intros [= <- <-]. split; [by unfold sameTenant; congruence|]. split; [|congruence].
    revert E3. unfold encryptWithDataKey. rewrite E1, Z.eqb_refl. cbn [negb].
    rewrite bind_Throw. intros [H|(iv_ & y & _ & H)]; [by eapply Hr|]. by destruct (seal _ _ _ _).
Qed.

Lemma read_spec i p a w r w' : bw_tenant w = Some i -> represents (bw_secrets w) a ->
  readSecret cipher kms (i, p) w = (r, w') ->
  untouched w w' /\
  match r with Ok o => o = a !! (i, p) | Throw e => isMissing e = false /\ is_Some (a !! (i, p)) end.
Proof.
  destruct Hown as (_ & _ & Hd & _). intros Ht Ha. specialize (Ha (i, p)).
  unfold readSecret, selectSecret, mbind, eff_bind, get, visible. cbn [fst]. rewrite Ht, Z.eqb_refl. cbn.
  destruct (bw_secrets w !! (i, p)) as [row|], (a !! (i, p)) as [secret|]; try done.
  2: { intros [= <- <-]. by split. }
  destruct Ha as [Ho _].
  destruct (ext _ w) as [[k|e] w1] eqn:E; apply ext_untouched in E as (Hu & x & E).
  - unfold lift. rewrite (Ho _ _ _ E). by intros [= <- <-].
  - intros [= <- <-]. split; [done|]. split; [by eapply Hd|done].
Qed.

(** ** Transactions *)

Lemma audited_untouched e k w r w' : audited deps e k w = (r, w') -> r = Ok tt /\ untouched w w'.
Proof.
  unfold audited, tryCatch. destruct (ext _ w) as [[[]|er] w1] eqn:E; apply ext_untouched in E as [Hu _];
    by intros [= <- <-].
Qed.

Definition scoped (i : Z) (w : World) : World := Build_ByokWorld (bw_secrets w) (Some i) (bw_ext w).

Lemma showZ_tenant i : (1 <= i)%Z -> bool_decide (showZ i <> []) && forallb is_digit (showZ i) = true.
Proof.
  intros H. destruct (showZ_digits i ltac:(lia)) as [Hd Hn]. rewrite Hd, andb_true_r. by apply bool_decide_eq_true.
Qed.

Lemma withTenant_cases {A} i (fn : eff World thrown A) w r w' : (1 <= i)%Z -> bw_tenant w = None ->
  withTenant showLarge i fn w = (r, w') ->
  bw_tenant w' = None /\
  ((exists w1, fn (scoped i w) = (r, w1) /\
      bw_secrets w' = match r with Ok _ => bw_secrets w1 | Throw _ => bw_secrets w end) \/
   (r = Throw (notAnId (showLarge i)) /\ bw_secrets w' = bw_secrets w)).
Proof.
  intros Hi Hn. unfold withTenant. fold (scoped i w).
  destruct (bool_decide _ && _) eqn:E.
  - destruct (fn (scoped i w)) as [[a|e] w1]; intros [= <- <-]; (split; [done|]); left; by exists w1.
  - intros [= <- <-]. split; [done|]. right. split; [|done]. f_equal. revert E. unfold tenantText.
    destruct (i <? 10 ^ 21)%Z; [|done]. by rewrite showZ_tenant.
Qed.

Lemma schemas_positive v i p : lookupBodySchema v = Some (i, p) -> (1 <= i)%Z.
Proof.
  unfold lookupBodySchema. destruct v; try done. cbn.
  destruct (at_ "installationId" _ _) as [j|] eqn:E; [|done]. cbn. destruct (at_ "provider" _ _); [|done].
  intros [= <- <-]. revert E. unfold at_, requiredR. destruct (mapGet _ _) as [x|]; [|done]. cbn.
  unfold installationIdSchema, asInt, checked. destruct (asNumber x) as [n|]; [|done]. cbn.
  unfold isInt. destruct (integerOf n) as [m|] eqn:En; [|done]. destruct (1 <=? m)%Z eqn:Em; [|done]. cbn.
  rewrite En. intros [= <-]. lia.
Qed.

Lemma upsert_lookup v i p s : upsertBodySchema v = Some (i, p, s) -> lookupBodySchema v = Some (i, p) /\ s <> [].
Proof.
  unfold upsertBodySchema, lookupBodySchema. destruct v; try done. cbn.
  destruct (at_ "installationId" _ _) as [j|]; [|done]. cbn. destruct (at_ "provider" _ _); [|done]. cbn.
  destruct (at_ "apiKey" _ _) as [k|] eqn:E; [|done]. cbn. intros [= <- <- <-]. split; [done|].
  revert E. unfold at_, requiredR. destruct (mapGet _ _) as [x|]; [|done]. cbn. unfold checked.
  destruct (asString x) as [t|]; [|done]. cbn. destruct ((1 <=? Zlen t)%Z && _)%bool eqn:Et; [|done].
  intros [= <-] ->. done.
Qed.

Lemma represents_insert t a k row s : represents t a -> opens row s -> s <> [] ->
  represents (<[ k := row ]> t) (<[ k := s ]> a).
Proof. intros H Ho Hs j. specialize (H j). destruct (decide (k = j)) as [->|]; by simplify_map_eq. Qed.

Lemma represents_delete t a k : represents t a -> represents (delete k t) (delete k a).
Proof. intros H j. specialize (H j). destruct (decide (k = j)) as [->|]; by simplify_map_eq. Qed.

(** ** The routes *)

Notation served r a w res w' :=
  (match res with Ok x => answers r a x | Throw _ => True end /\
   represents (bw_secrets w') (after r res a) /\ bw_tenant w' = None).

Lemma listProviders_spec a (w : World) i : represents (bw_secrets w) a ->
  listProviders i (scoped i w)
  = (Ok (map (fun p => (p, bool_decide (is_Some (a !! (i, p))))) BYOK_PROVIDERS), scoped i w).
Proof.
  intros Ha. unfold listProviders, mbind, eff_bind, get, mret, eff_ret. do 2 f_equal.
  apply map_ext_in. intros p _. f_equal. unfold visible. cbn. rewrite Z.eqb_refl. cbn.
  specialize (Ha (i, p)). apply bool_decide_ext.
  destruct (bw_secrets w !! (i, p)), (a !! (i, p)); try done.
Qed.

Lemma list_ok q a (w : World) res w' : represents (bw_secrets w) a -> bw_tenant w = None ->
  listRoute showLarge q w = (res, w') -> served (ListKeys q) a w res w'.
Proof.
  intros Ha Hn. unfold listRoute, mbind, eff_bind, lift.
  destruct (listQuerySchema q) as [[i|]|e] eqn:Eq; try (intros [= <- <-]; by split_and!).
  destruct (withTenant _ _ _ w) as [r0 w0] eqn:E.
  assert (1 <= i)%Z as Hi.
  { revert Eq. unfold listQuerySchema. destruct q as [v|]; [|done]. destruct (_ && _); [|done].
    destruct (integerOf _) as [n|]; [|done]. destruct (n <=? 0)%Z eqn:En; [done|]. intros [= <-]. lia. }
  apply withTenant_cases in E as [Ht [(w1 & E & Hs)|[-> Hs]]]; [| |done..].
  - rewrite (listProviders_spec a) in E by done. injection E as <- <-. intros [= <- <-].
    split_and!; [|by rewrite Hs|done]. split; [|done]. destruct q as [v|]; [|done]. by exists v.
  - intros [= <- <-]. split_and!; [done|by rewrite Hs|done].
Qed.

Lemma upsert_ok b a (w : World) res w' : represents (bw_secrets w) a -> bw_tenant w = None ->
  upsertRoute randomBytes clock cipher kms showLarge deps b w = (res, w') -> served (UpsertKey b) a w res w'.
Proof.
  intros Ha Hn. unfold upsertRoute. destruct b as [v|]; [|intros [= <- <-]; split_and!; [by left|done..]].
  destruct (upsertBodySchema v) as [[[i p] s]|] eqn:Ev; [|intros [= <- <-]; by split_and!].
  destruct (upsert_lookup _ _ _ _ Ev) as [Hl Hs]. apply schemas_positive in Hl.
  unfold mbind, eff_bind. destruct (withTenant _ _ _ w) as [r0 w0] eqn:E.
  apply withTenant_cases in E as [Ht [(w1 & E & Hw)|[-> Hw]]]; [| |done..].
  - destruct (upsertWithSecret _ _ _ _ _ _ _) as [[[]|e] w2] eqn:E2;
      apply upsert_spec in E2 as [Ht2 E2]; try done.
    + destruct E2 as (row & Hrow & Ho). apply audited_untouched in E as [-> [_ Hu]].
      intros [= <- <-]. split_and!; [left; by exists v, s| |done]. cbn. rewrite Ev, Hw, Hu, Hrow.
      by apply represents_insert.
    + injection E as <- <-. intros [= <- <-]. split_and!; [done|by rewrite Hw|done].
  - intros [= <- <-]. split_and!; [done|by rewrite Hw|done].
Qed.

Lemma rotate_ok b a (w : World) res w' : represents (bw_secrets w) a -> bw_tenant w = None ->
  rotateRoute randomBytes clock cipher kms showLarge deps b w = (res, w') -> served (RotateKey b) a w res w'.
Proof.
  intros Ha Hn. unfold rotateRoute. destruct b as [v|]; [|intros [= <- <-]; split_and!; [by right; left|done..]].
  destruct (lookupBodySchema v) as [[i p]|] eqn:Ev; [|intros [= <- <-]; by split_and!].
  pose proof (schemas_positive _ _ _ Ev) as Hi. unfold tryCatch, mbind, eff_bind. cbn [fst snd].
  destruct (withTenant _ _ _ w) as [r0 w0] eqn:E.
  apply withTenant_cases in E as [Ht [(w1 & E & Hw)|[-> Hw]]]; [| |done..].
  2: { destruct Hown as (_ & _ & _ & ->). intros [= <- <-]. split_and!; [done|by rewrite Hw|done]. }
  assert (match r0 with
          | Ok _ => is_Some (a !! (i, p)) /\ represents (bw_secrets w0) a
          | Throw e => bw_secrets w0 = bw_secrets w /\ (isMissing e = true -> a !! (i, p) = None)
          end) as H.
  2: { destruct r0 as [[]|e]; [|destruct H as [H1 H2]; destruct (isMissing e)]; intros [= <- <-].
       - destruct H as [H1 H2]. split_and!; [|done|done]. right; left. by exists v.
       - split_and!; [exists v, (i, p); auto|by rewrite H1|done].
       - split_and!; [done|by rewrite H1|done]. }
  revert E. unfold rotate, mbind, eff_bind, rowKey, recordFor. cbn [br_installationId br_provider fst snd].
  destruct (readSecret _ _ _ _) as [[o|e] w2] eqn:E2; (eapply read_spec in E2 as [[T2 S2] E2]; [|done..]).
  - subst o. specialize (Ha (i, p)) as Hk. cbn in S2.
    destruct (a !! (i, p)) as [s|] eqn:Eo; destruct (bw_secrets w !! (i, p)) as [row|]; try done.
    + destruct Hk as [_ Hs]. rewrite truthyStr_ne by done.
      destruct (upsertWithSecret _ _ _ _ _ _ _) as [[[]|e] w3] eqn:E3;
        apply upsert_spec in E3 as [Ht3 E3]; try (by rewrite T2).
      * destruct E3 as (row' & Hrow & Ho). intros [-> [_ Hu]]%audited_untouched. split; [done|].
        rewrite Hw, Hu, Hrow, S2. rewrite <- (insert_id a (i, p) s) by done. by apply represents_insert.
      * intros [= <- <-]. split; [done|]. destruct E3 as [-> _]. done.
    + intros [= <- <-]. split; [done|]. done.
  - intros [= <- <-]. split; [done|]. destruct E2 as [-> _]. done.
Qed.

Lemma delete_ok b a (w : World) res w' : represents (bw_secrets w) a -> bw_tenant w = None ->
  deleteRoute showLarge deps b w = (res, w') -> served (DeleteKey b) a w res w'.
Proof.
  intros Ha Hn. unfold deleteRoute. destruct b as [v|]; [|intros [= <- <-]; split_and!; [by right; right|done..]].
  destruct (lookupBodySchema v) as [[i p]|] eqn:Ev; [|intros [= <- <-]; by split_and!].
  pose proof (schemas_positive _ _ _ Ev) as Hi. unfold mbind, eff_bind. cbn [fst snd].
  destruct (withTenant _ _ _ w) as [r0 w0] eqn:E.
  apply withTenant_cases in E as [Ht [(w1 & E & Hw)|[-> Hw]]]; [| |done..].
  - unfold remove, mbind, eff_bind, get, visible in E. cbn [fst snd bw_tenant scoped] in E.
    rewrite Z.eqb_refl in E. cbn in E. apply audited_untouched in E as [-> [_ Hu]].
    intros [= <- <-]. split_and!; [right; right; by exists v| |done]. cbn. rewrite Ev, Hw, Hu. cbn.
    by apply represents_delete.
  - intros [= <- <-]. split_and!; [done|by rewrite Hw|done].
Qed.

Lemma router_ok r a (w : World) res w' : represents (bw_secrets w) a -> bw_tenant w = None ->
  router r w = (res, w') -> served r a w res w'.
Proof.
  intros Ha Hn. unfold llmKeysRouter. destruct (lk_multiTenant deps) eqn:Em.
  - intros [= <- <-]. split_and!; [done| |done]. by destruct r as [|[]|[]|[]].
  - destruct r; [by apply list_ok|by apply upsert_ok|by apply rotate_ok|by apply delete_ok].
Qed.

(** ** Sequences of requests *)

Fixpoint serve (rs : list KeyRequest) (w : World) : list (result thrown KeyResponse) * World :=
  match rs with
  | [] => ([], w)
  | r :: rs' =>
      let '(res, w1) := router r w in
      let '(out, w2) := serve rs' w1 in
      (res :: out, w2)
  end.

(** The answers of a sequence follow the map from request to request; a request that throws, which is
    answered 500, leaves it alone. *)
Fixpoint follows (a : secretMap) (rs : list KeyRequest) (out : list (result thrown KeyResponse)) : Prop :=
  match rs, out with
  | [], [] => True
  | r :: rs', res :: out' =>
      match res with Ok x => answers r a x | Throw _ => True end /\ follows (after r res a) rs' out'
  | _, _ => False
  end.

Fixpoint afterAll (a : secretMap) (rs : list KeyRequest) (out : list (result thrown KeyResponse)) : secretMap :=
  match rs, out with
  | r :: rs', res :: out' => afterAll (after r res a) rs' out'
  | _, _ => a
  end.
End contract.

(** C10. The key routes are a map from installation and provider to a secret, whatever fails around
    them: a request is answered as the map says, changes the entry it names and no other, only when
    it is answered 200, and what is stored after any sequence of requests opens to the last key that
    was put. *)
Theorem byok_is_a_secret_map {X} (randomBytes : Z -> eff X thrown bytes) (clock : X -> Z)
    (cipher : Cipher) (kms : KmsClient X) (showLarge : Z -> str) (deps : LlmKeysDeps (X := X))
    (Hkms : kmsUnwraps kms) (Hrand : randomLength randomBytes) (Hcipher : cipherInverts cipher)
    (Hown : ownWords randomBytes kms showLarge) (rs : list KeyRequest) (w : ByokWorld X) (a : secretMap)
    (Ha : represents cipher kms (bw_secrets w) a) (Hn : bw_tenant w = None) :
  let '(out, w') := serve randomBytes clock cipher kms showLarge deps rs w in
  follows deps a rs out /\
  forall i p r w2, readSecret cipher kms (i, p) (scoped i w') = (r, w2) ->
    match r with
    | Ok o => o = afterAll a rs out !! (i, p)
    | Throw _ => is_Some (afterAll a rs out !! (i, p))
    end.
Proof.
  revert w a Ha Hn. induction rs as [|r rs IH]; intros w a Ha Hn; cbn [serve].
  - split; [done|]. intros i p r w2 E. eapply read_spec in E as [_ E]; [|done..]. by destruct r; [|destruct E].
  - destruct (llmKeysRouter _ _ _ _ _ _ r w) as [res w1] eqn:E.
    eapply router_ok in E as (Hans & Hr & Ht); [|done..].
    specialize (IH w1 _ Hr Ht). destruct (serve _ _ _ _ _ _ rs w1) as [out w2]. cbn. by destruct IH.
Qed.

(** ** A concrete store for the witness *)

Definition demoKms : KmsClient nat :=
  {| encryptDataKey := fun key id n => if bool_decide (n = 3%nat) then (Throw (plainError "KMS is down"), S n)
                                       else (Ok (id ++ ":" ++ key), S n);
     decryptDataKey := fun c id n => (Ok (drop (S (length id)) c), S n) |}.
Definition demoRandom (n : Z) : eff nat thrown bytes := fun x => (Ok (replicate (Z.to_nat n) "r"%char), x).
Definition demoCipher : Cipher :=
  {| seal := fun key iv_ s => (rev s, replicate 16 "t"%char); unseal := fun key iv_ c t => Some (rev c) |}.
Definition demoKeyDeps : LlmKeysDeps (X := nat) :=
  {| auditAppender := fun _ n => (Throw (plainError "audit log is down"), n); lk_kmsKeyId := js "cmk";
     lk_multiTenant := false |}.

Definition keyBody (i : Z) (provider key : string) : option json :=
  Some (JObj [(js "installationId", JNum (num_of_Z i)); (js "provider", JStr (js provider));
              (js "apiKey", JStr (js key))]).
Definition demoRequests : list KeyRequest :=
  [UpsertKey (keyBody 7 "openai" "sk-1"); UpsertKey (keyBody 8 "openai" "sk-8"); RotateKey (keyBody 7 "openai" "");
   RotateKey (keyBody 7 "openai" ""); DeleteKey (keyBody 8 "openai" ""); RotateKey (keyBody 8 "openai" "");
   UpsertKey (keyBody 7 "nobody" "sk"); ListKeys (Some (js "0"))].

Lemma demoKms_unwraps : kmsUnwraps demoKms.
Proof.
  intros key id x c x1 x2 k x3. cbn. case_bool_decide; [done|]. intros [= <- _] [= <- _].
  rewrite cons_middle, app_assoc. by apply drop_app_length'; rewrite length_app, Nat.add_1_r.
Qed.

Lemma demoRandom_length : randomLength demoRandom.
Proof. intros n x b x' Hn [= <- _]. unfold Zlen. rewrite length_replicate. by apply Z2Nat.id. Qed.

Lemma demoCipher_inverts : cipherInverts demoCipher.
Proof. intros key iv_ s. cbn. by rewrite rev_involutive. Qed.

Lemma demo_words : ownWords demoRandom demoKms (fun _ => js "1e+21").
Proof. split_and!; [done| |done|done]. intros k id x e x'. cbn. case_bool_decide; [|done]. by intros [= <- _]. Qed.

Lemma demo_empty : represents demoCipher demoKms ∅ ∅.
Proof. intros k. by rewrite !lookup_empty. Qed.

Definition demoWorld : ByokWorld nat := {| bw_secrets := ∅; bw_tenant := None; bw_ext := 0%nat |}.

Lemma byok_is_a_secret_map_witness :
  match serve demoRandom Z.of_nat demoCipher demoKms (fun _ => js "1e+21") demoKeyDeps demoRequests demoWorld with
  | (out, w') =>
      out = [Ok (Configured200 7 p_openai true); Ok (Configured200 8 p_openai true);
             Throw (plainError "KMS is down"); Ok (Configured200 7 p_openai true);
             Ok (Configured200 8 p_openai false); Ok KeyNotFound404; Ok Validation422;
             Throw (plainError "installationId must be a positive integer")] /\
      follows demoKeyDeps ∅ demoRequests out
  end.
Proof.
  pose proof (byok_is_a_secret_map demoRandom Z.of_nat demoCipher demoKms (fun _ => js "1e+21") demoKeyDeps
    demoKms_unwraps demoRandom_length demoCipher_inverts demo_words demoRequests demoWorld ∅ demo_empty eq_refl) as H.
  assert ((serve demoRandom Z.of_nat demoCipher demoKms (fun _ => js "1e+21") demoKeyDeps demoRequests demoWorld).1
    = [Ok (Configured200 7 p_openai true); Ok (Configured200 8 p_openai true);
       Throw (plainError "KMS is down"); Ok (Configured200 7 p_openai true);
       Ok (Configured200 8 p_openai false); Ok KeyNotFound404; Ok Validation422;
       Throw (plainError "installationId must be a positive integer")]) as E by (vm_compute; reflexivity).
  destruct (serve _ _ _ _ _ _ _ _) as [out w']. destruct H as [H _]. exact (conj E H).
Defined.
