(* ===== verification/Vcs.v ===== *)
(** * The platform interface (core/src/vcs.ts, core/src/platforms.ts, path-guard.ts, platform.ts)

    What an adapter promises to the runner: the pull request, its diff and files, the posts and the
    state comment, as a [Record] of effects on a world [X]; the capabilities it declares; the
    registry the adapters enter and the descriptors they parse. A walk over a service's pages that
    is still going when its fuel is used up is [None]. *)

From S2P Require Import Prelude Regex NumberText Errors Review Queue AutoFetch.

(** ** References and data *)

Record PRRef := { ref_platform : VcsPlatform; ref_owner : str; ref_repo : str; ref_number : Z }.

Record CommitMessage := { cm_sha : str; cm_message : str }.

Record PR := {
  vp_title : str;
  vp_body : str;
  vp_author : str;
  vp_baseSha : str;
  vp_headSha : str;
  vp_baseRef : str;
  vp_headRef : str;
  vp_draft : bool;
  vp_labels : list str;
  vp_commitMessages : list CommitMessage;
  vp_createdAt : str;
  vp_updatedAt : str;
}.

Inductive DiffStatus := st_added | st_modified | st_removed | st_renamed.
Record DiffFile := {
  df_path : str;
  df_previousPath : option str;
  df_status : DiffStatus;
  df_additions : Z;
  df_deletions : Z;
  df_patch : option str;
}.
Record Diff := { diff_baseSha : str; diff_headSha : str; diff_files : list DiffFile }.

Inductive CloneFilter := blob_none | tree_0 | filter_none.
Record CloneOpts := {
  co_depth : option Z;
  co_filter : option CloneFilter;
  co_sparsePaths : option (list str);
  co_submodules : option bool;
  co_lfs : option bool;
}.

(** [string | number] *)
Inductive CommentId := IdText (s : str) | IdNumber (n : Z).

Record ExistingComment := {
  ec_id : CommentId;
  ec_path : option str;
  ec_line : option Z;
  ec_side : option Side;
  ec_body : str;
  ec_author : str;
  ec_createdAt : str;
  ec_inReplyTo : option str;
}.

Record ReviewPayload := {
  pl_comments : list InlineComment;
  pl_summary : str;
  pl_state : ReviewState;
  pl_event : option ReviewEvent;
}.

(** ** Capabilities *)

Inductive StateCommentMode := state_native | postgres_only.
Inductive ApprovalMode := approval_github | approval_codecommit | approval_none.
Record VcsCapabilities := {
  can_clone : bool;
  can_stateComment : StateCommentMode;
  can_approvalEvent : ApprovalMode;
  can_commitMessages : bool;
  can_conversationReply : bool;
}.

Record VCS (X : Type) := {
  platform : VcsPlatform;
  capabilities : VcsCapabilities;
  getPR : PRRef -> eff X thrown PR;
  getDiff : PRRef -> option str -> eff X thrown (option Diff);
  getFile : PRRef -> str -> str -> eff X thrown str;
  cloneRepo : PRRef -> str -> CloneOpts -> eff X thrown unit;
  getExistingComments : PRRef -> eff X thrown (option (list ExistingComment));
  postReview : PRRef -> ReviewPayload -> eff X thrown unit;
  postSummary : PRRef -> str -> eff X thrown str;
  postReply : PRRef -> CommentId -> str -> eff X thrown unit;
  getStateComment : PRRef -> eff X thrown (option ReviewState);
  upsertStateComment : PRRef -> ReviewState -> eff X thrown unit;
}.
Arguments platform {X}.
Arguments capabilities {X}.
Arguments getPR {X}.
Arguments getDiff {X}.
Arguments getFile {X}.
Arguments cloneRepo {X}.
Arguments getExistingComments {X}.
Arguments postReview {X}.
Arguments postSummary {X}.
Arguments postReply {X}.
Arguments getStateComment {X}.
Arguments upsertStateComment {X}.

(** [throw new Error(m)] *)
Definition errorOf (m : str) : thrown := Object (Some m) NoStatus None [].
Definition error {A} (m : str) : result thrown A := Throw (errorOf m).

(** ** Paths *)

(** [/(^|[/\\])\.\.([/\\]|$)/] *)
Definition is_slash (c : ascii) : bool := eqc c "/" || eqc c "\".
Definition TRAVERSAL_REGEX : re :=
  let sep := Cls is_slash in
  Cat (Alt Eps (Cat anything sep)) (Cat (lit "..") (Alt Eps (Cat sep anything))).

Definition assertSafeRelativePath (path : str) : result thrown unit :=
  if bool_decide (path = []) then error "Refusing empty path"
  else if startsWith path "/" then error ("Refusing absolute path: '" ++ path ++ "'")
  else if startsWith path "~" then error ("Refusing home-expanded path: '" ++ path ++ "'")
  else if matches TRAVERSAL_REGEX path then error ("Refusing traversal path: '" ++ path ++ "'")
  else if bool_decide ("000"%char ∈ path) then error "Refusing path with NUL byte"
  else Ok tt.

(** ** Descriptors *)

(** [input.lastIndexOf('#')], then the texts on its two sides; an index below 1 is refused. *)
Definition splitRef (input : str) : option (str * str) :=
  match lastIndexOf "#" input with
  | Some idx => if (1 <=? idx)%nat then Some (take idx input, drop (S idx) input) else None
  | None => None
  end.

(** [Number.parseInt(right, 10)] that is finite and positive. *)
Definition refNumber (text : str) : option Z :=
  match parseInt text with
  | Some n => if isFinite (JsNumber.num_of_Z n) && (0 <? n)%Z then Some n else None
  | None => None
  end.

Definition parseGithubRef (input : str) : result thrown PRRef :=
  match splitRef input with
  | None => error ("Invalid GitHub ref '" ++ input ++ "'; expected 'owner/repo#number'.")
  | Some (repoPart, numberPart) =>
      let badRepo := error ("Invalid GitHub repo segment in ref '" ++ input ++ "'.") in
      match indexOf repoPart "/" with
      | None => badRepo
      | Some slash =>
          if bool_decide (slash < 1) || bool_decide (slash = length repoPart - 1) then badRepo
          else match refNumber numberPart with
               | Some number => Ok {| ref_platform := github; ref_owner := take slash repoPart;
                                      ref_repo := drop (S slash) repoPart; ref_number := number |}
               | None => error ("Invalid GitHub PR number in ref '" ++ input ++ "'.")
               end
      end
  end.

Definition parseCodecommitRef (input : str) : result thrown PRRef :=
  match splitRef input with
  | None => error ("Invalid CodeCommit ref '" ++ input ++ "'; expected '<repo>#<number>'.")
  | Some (repoPart, numberPart) =>
      match refNumber numberPart with
      | None => error ("Invalid CodeCommit PR number in ref '" ++ input ++ "'.")
      | Some number =>
          let repo := if startsWith repoPart "arn:aws:codecommit:" then default [] (last (splitChar ":" repoPart)) else repoPart in
          if bool_decide (repo = [])
          then error ("Invalid CodeCommit repository name in ref '" ++ input ++ "'.")
          else Ok {| ref_platform := codecommit; ref_owner := []; ref_repo := repo; ref_number := number |}
      end
  end.

(** ** The registry

    A definition is an object: [obj] is its identity, and two of the same identity are one. *)
Section registry.
Context (D : Type) (obj : D -> nat) (idOf : D -> str).

Definition registry : Type := list (str * D).

Definition lookupPlatform (id : str) (r : registry) : option D :=
  snd <$> List.find (fun kv => bool_decide (kv.1 = id)) r.

Definition registerPlatform (def : D) (r : registry) : result thrown registry :=
  match lookupPlatform (idOf def) r with
  | Some existing =>
      if (obj existing =? obj def)%nat then Ok r
      else error ("Platform '" ++ idOf def ++ "' is already registered with a different definition; unregister it first.")
  | None => Ok (r ++ [(idOf def, def)])
  end.

Definition unregisterPlatform (id : str) (r : registry) : bool * registry :=
  (bool_decide (is_Some (lookupPlatform id r)), List.filter (fun kv => negb (bool_decide (kv.1 = id))) r).

Definition listPlatforms (r : registry) : list str := map fst r.

Definition getPlatform (id : str) (r : registry) : result thrown D :=
  match lookupPlatform id r with
  | Some def => Ok def
  | None =>
      let known := join ", " (listPlatforms r) in
      error ("Unknown platform '" ++ id ++ "'. Registered platforms: "
             ++ (if bool_decide (known = []) then js "(none)" else known) ++ ".")
  end.
End registry.

(** ** Properties *)

Lemma lastIndexOf_app c a b : c ∉ b -> lastIndexOf c (a ++ c :: b) = Some (length a).
Proof.
  intros Hb. assert (lastIndexOf c b = None) as Hn.
  { clear a. induction b as [|d b IH]; [done|]. apply not_elem_of_cons in Hb as [Hd Hb]. cbn.
    rewrite IH by done. unfold eqc. by rewrite (proj2 (Ascii.eqb_neq c d)). }
  induction a as [|d a IH]; cbn; [by rewrite Hn, eqc_refl|by rewrite IH].
Qed.

Lemma indexOf_first c a b : c ∉ a -> indexOf (a ++ c :: b) [c] = Some (length a).
Proof.
  induction a as [|d a IH]; intros Ha; cbn.
  { by rewrite eqc_refl. }
  apply not_elem_of_cons in Ha as [Hd Ha]. unfold eqc.
  rewrite (proj2 (Ascii.eqb_neq _ _)) by done. cbn [andb]. by rewrite IH.
Qed.

Lemma showZ_no_hash n : (0 <= n)%Z -> "#"%char ∉ showZ n.
Proof.
  intros Hn Hin. destruct (showZ_digits n Hn) as [Hd _]. rewrite forallb_forall in Hd.
  apply list_elem_of_In, Hd in Hin. done.
Qed.

Lemma drop_past (c : ascii) a b : drop (S (length a)) (a ++ c :: b) = b.
Proof. induction a as [|d a IH]; [done|]. apply IH. Qed.

Lemma splitRef_print left_ n : left_ <> [] -> (0 <= n)%Z ->
  splitRef (left_ ++ "#" ++ showZ n) = Some (left_, showZ n).
Proof.
  intros Hl Hn. unfold splitRef. change (js "#" ++ showZ n) with ("#"%char :: showZ n). rewrite lastIndexOf_app by by apply showZ_no_hash.
  destruct (Nat.leb_spec 1 (length left_)); [by rewrite take_app_length, drop_past|].
  destruct left_; cbn in *; [done|lia].
Qed.

(** A pull request's descriptor reads back as the reference it was printed from: [owner/repo#n] on
    GitHub, the repository or its ARN and the number on CodeCommit. *)
Theorem ref_descriptor_roundtrip owner repo region account n :
  owner <> [] -> "/"%char ∉ owner -> repo <> [] -> ":"%char ∉ repo -> ":"%char ∉ region -> ":"%char ∉ account ->
  (0 < n)%Z -> isFinite (JsNumber.num_of_Z n) = true ->
  parseGithubRef (owner ++ "/" ++ repo ++ "#" ++ showZ n) =
    Ok {| ref_platform := github; ref_owner := owner; ref_repo := repo; ref_number := n |} /\
  parseCodecommitRef (repo ++ "#" ++ showZ n) =
    Ok {| ref_platform := codecommit; ref_owner := []; ref_repo := repo; ref_number := n |} /\
  parseCodecommitRef ("arn:aws:codecommit:" ++ region ++ ":" ++ account ++ ":" ++ repo ++ "#" ++ showZ n) =
    Ok {| ref_platform := codecommit; ref_owner := []; ref_repo := repo; ref_number := n |}.
Proof.
  intros Ho Hos Hr Hrc Hreg Hacc Hn Hf.
  assert (refNumber (showZ n) = Some n) as Hnum.
  { unfold refNumber. rewrite parseInt_showZ, Hf by lia. by destruct (Z.ltb_spec 0 n); [|lia]. }
  split_and!.
  - unfold parseGithubRef. change (js "/") with ["/"%char]. rewrite !(assoc_L (++)), <- (assoc_L (++) _ (js "#")).
    rewrite splitRef_print by (lia || by destruct owner). cbv zeta beta. rewrite <- (assoc_L (++)), Hnum.
    change (["/"%char] ++ repo) with ("/"%char :: repo). rewrite indexOf_first by done.
    rewrite (bool_decide_eq_false_2 (length owner < 1)) by (destruct owner; cbn in *; [done|lia]).
    rewrite (bool_decide_eq_false_2 (length owner = _)).
    2: { rewrite length_app. destruct repo; cbn in *; [done|lia]. }
    cbn [orb]. by rewrite take_app_length, drop_past.
  - unfold parseCodecommitRef. rewrite splitRef_print by (done || lia). rewrite Hnum.
    assert (startsWith repo "arn:aws:codecommit:" = false) as ->.
    { destruct (startsWith repo _) eqn:E; [|done]. apply startsWith_spec in E as [t ->]. set_solver. }
    by rewrite bool_decide_eq_false_2.
  - unfold parseCodecommitRef. rewrite !(assoc_L (++)), <- (assoc_L (++) _ (js "#")).
    rewrite splitRef_print by (lia || done). rewrite Hnum.
    rewrite <- !(assoc_L (++)).
    rewrite startsWith_app.
    change (js "arn:aws:codecommit:" ++ region ++ js ":" ++ account ++ js ":" ++ repo)
      with (js "arn" ++ ":"%char :: js "aws" ++ ":"%char :: js "codecommit" ++ ":"%char :: region ++ ":"%char ::
            account ++ ":"%char :: repo).
    rewrite !splitChar_app, splitChar_no_sep by (done || set_solver). cbn [last default].
    by rewrite bool_decide_eq_false_2.
Qed.

Lemma ref_descriptor_roundtrip_witness :
  parseGithubRef "acme/shop#42" =
    Ok {| ref_platform := github; ref_owner := "acme"; ref_repo := "shop"; ref_number := 42 |} /\
  parseCodecommitRef "arn:aws:codecommit:eu-west-1:123456789012:shop#42" =
    Ok {| ref_platform := codecommit; ref_owner := []; ref_repo := "shop"; ref_number := 42 |}.
Proof.
  destruct (ref_descriptor_roundtrip "acme" "shop" "eu-west-1" "123456789012" 42) as (H1 & _ & H3);
    [done|set_solver|done|set_solver|set_solver|set_solver|lia|reflexivity|].
  split; [exact H1|exact H3].
Defined.
