(* ===== verification/CodecommitAdapter.v ===== *)
(** * The CodeCommit adapter (platform-codecommit/src/adapter.ts)

    The SDK's client is a record of effects on a world [X], one per command, with the members of
    the answers the adapter reads; an absent member is [None]. A paginated walk is a [do ... while]
    over tokens the service chooses, so it runs on fuel: [None] is a walk that is still going when
    the fuel is used up, and [walk_pages] says which fuel a finite chain of pages needs. [isoOf] is
    [toISOString] on a valid date. Log lines are left out. *)

From S2P Require Import Prelude JsNumber Regex Schema NumberText Errors Review Dedup Queue.
From S2P Require Import Vcs.

(** ** The SDK *)

(** A date is its milliseconds, [None] an invalid one. *)
Definition date : Type := option Z.

Record PullRequestTarget := {
  destinationCommit : option str;
  sourceCommit : option str;
  destinationReference : option str;
  sourceReference : option str;
}.
Record PullRequest := {
  sdk_title : option str;
  sdk_description : option str;
  sdk_authorArn : option str;
  revisionId : option str;
  pullRequestTargets : option (list PullRequestTarget);
  sdk_creationDate : option date;
  sdk_lastActivityDate : option date;
}.
Record Difference := { changeType : option str; beforePath : option str; afterPath : option str }.

(** What the service gives as a comment's date: a [Date], or a text. *)
Inductive SdkDate := ADate (d : date) | DateText (s : str).
Record SdkComment := {
  commentId : option str;
  sc_content : option str;
  sc_inReplyTo : option str;
  sc_creationDate : option SdkDate;
  sc_authorArn : option str;
}.
Record Location := { filePath : option str; filePosition : option Z; relativeFileVersion : option str }.
Record CommentGroup := { location : option Location; group_comments : option (list SdkComment) }.

(** A page: its items and the token of the next one. *)
Definition page (A : Type) : Type := option (list A) * option str.

(** [PostCommentForPullRequestCommand] *)
Record PostComment := {
  po_pullRequestId : str;
  po_repositoryName : str;
  po_before : str;
  po_after : str;
  po_location : option (str * Z * str);
  po_content : str;
}.

Inductive ApprovalState := sdk_APPROVE | sdk_REVOKE.

Record CodeCommitClient (X : Type) := {
  sdk_getPullRequest : str -> eff X thrown (option PullRequest);
  sdk_getDifferences : str -> str -> str -> option str -> eff X thrown (page Difference);
  sdk_getFile : str -> str -> str -> eff X thrown (option str);
  sdk_getComments : str -> option str -> option str -> eff X thrown (page CommentGroup);
  sdk_postComment : PostComment -> eff X thrown (option str);
  sdk_updateApproval : str -> str -> ApprovalState -> eff X thrown unit;
  sdk_listPullRequests : str -> str -> option str -> eff X thrown (page str);
}.
Arguments sdk_getPullRequest {X}.
Arguments sdk_getDifferences {X}.
Arguments sdk_getFile {X}.
Arguments sdk_getComments {X}.
Arguments sdk_postComment {X}.
Arguments sdk_updateApproval {X}.
Arguments sdk_listPullRequests {X}.

(** ** Pagination *)

(** [do { resp = await fetch(token); ...; await pause(next) } while (next)] from [token] on; [acc]
    is what the walk has collected. *)
Fixpoint walk {X A} (fetch : option str -> eff X thrown (page A)) (pause : eff X thrown unit)
    (fuel : nat) (token : option str) (acc : list A) : eff X thrown (option (list A)) :=
  match fuel with
  | O => mret None
  | S fuel =>
      '(items, next) ← fetch token;
      let acc := acc ++ default [] items in
      match truthyStr next with
      | Some t => pause;; walk fetch pause fuel (Some t) acc
      | None => mret (Some acc)
      end
  end.

(** ** The adapter *)

Definition ensureCodeCommit (ref : PRRef) : result thrown unit :=
  match ref_platform ref with
  | codecommit => Ok tt
  | github => error "CodeCommit VCS adapter received platform='github'"
  end.

Definition toPullRequestId (ref : PRRef) : str := showZ (ref_number ref).

Definition mapDiffStatus (changeType : option str) : DiffStatus :=
  match truthyStr changeType with
  | None => st_modified
  | Some t =>
      if bool_decide (t = js "A") then st_added
      else if bool_decide (t = js "M") then st_modified
      else if bool_decide (t = js "D") then st_removed
      else st_modified
  end.

Definition parseAuthor (arn : option str) : str :=
  match truthyStr arn with
  | None => "unknown"
  | Some a => default a (last (splitChar "/" a))
  end.

Definition toDiffFile (d : Difference) : DiffFile :=
  let path := match afterPath d with Some p => p | None => default [] (beforePath d) end in
  let status := mapDiffStatus (changeType d) in
  {| df_path := path;
     df_previousPath := match status with st_renamed => beforePath d | _ => None end;
     df_status := status; df_additions := 0; df_deletions := 0; df_patch := None |}.

Section adapter.
Context {X : Type} (client : CodeCommitClient X) (isoOf : Z -> str) (parseDate : str -> date) (fuel : nat).
(** [approvalState: 'managed'] *)
Context (managed : bool).

Definition fetchCodeCommitPR (ref : PRRef) : eff X thrown PullRequest :=
  pr ← sdk_getPullRequest client (toPullRequestId ref);
  match pr with
  | Some p => mret p
  | None => lift (error ("PR " ++ showZ (ref_number ref) ++ " not found in CodeCommit repo " ++ ref_repo ref))
  end.

(** [d?.toISOString() ?? new Date(0).toISOString()]: an invalid date throws. *)
Definition toISOString (d : date) : result thrown str :=
  match d with Some ms => Ok (isoOf ms) | None => error "Invalid time value" end.
Definition isoOrEpoch (d : option date) : result thrown str :=
  match d with Some d => toISOString d | None => Ok (isoOf 0) end.

Definition toPR (pr : PullRequest) : result thrown PR :=
  let target := ts ← pullRequestTargets pr; head ts in
  created ← isoOrEpoch (sdk_creationDate pr);
  updated ← isoOrEpoch (sdk_lastActivityDate pr);
  Ok {| vp_title := default [] (sdk_title pr); vp_body := default [] (sdk_description pr);
        vp_author := parseAuthor (sdk_authorArn pr);
        vp_baseSha := default [] (t ← target; destinationCommit t);
        vp_headSha := default [] (t ← target; sourceCommit t);
        vp_baseRef := default [] (t ← target; destinationReference t);
        vp_headRef := default [] (t ← target; sourceReference t);
        vp_draft := false; vp_labels := []; vp_commitMessages := [];
        vp_createdAt := created; vp_updatedAt := updated |}.

Definition getPR (ref : PRRef) : eff X thrown PR :=
  lift (ensureCodeCommit ref);;
  pr ← fetchCodeCommitPR ref;
  lift (toPR pr).

Definition getDiff (ref : PRRef) (sinceSha : option str) : eff X thrown (option Diff) :=
  lift (ensureCodeCommit ref);;
  pr ← getPR ref;
  let before := default (vp_baseSha pr) sinceSha in
  let after := vp_headSha pr in
  items ← walk (sdk_getDifferences client (ref_repo ref) before after) (mret tt) fuel None [];
  mret (items ← items; Some {| diff_baseSha := before; diff_headSha := after; diff_files := map toDiffFile items |}).

Definition getFile (ref : PRRef) (path sha : str) : eff X thrown str :=
  lift (ensureCodeCommit ref);;
  lift (assertSafeRelativePath path);;
  content ← sdk_getFile client (ref_repo ref) sha path;
  mret (default [] content).

Definition cloneRepo (ref : PRRef) (dir : str) (opts : CloneOpts) : eff X thrown unit :=
  lift (error "CodeCommit clone is not supported by this adapter; use getDiff() + getFile() instead.").

Definition commentOn (ref : PRRef) (pr : PR) (loc : option (str * Z * str)) (content : str) : PostComment :=
  {| po_pullRequestId := toPullRequestId ref; po_repositoryName := ref_repo ref;
     po_before := vp_baseSha pr; po_after := vp_headSha pr; po_location := loc; po_content := content |}.

Definition inlinePost (ref : PRRef) (pr : PR) (c : InlineComment) : PostComment :=
  commentOn ref pr (Some (path c, line c, match side c with LEFT => "BEFORE" | RIGHT => "AFTER" end : str))
    (appendFingerprintMarker (body c) (fingerprint_of c)).

(** [await client.send(new PostComment...)], its answer dropped. *)
Definition post (p : PostComment) : eff X thrown unit := sdk_postComment client p;; mret tt.

Fixpoint postAll (ps : list PostComment) : eff X thrown unit :=
  match ps with
  | [] => mret tt
  | p :: rest => post p;; postAll rest
  end.

Definition applyApprovalState (ref : PRRef) (rawPr : PullRequest) (event : option ReviewEvent) : eff X thrown unit :=
  if negb managed then mret tt
  else match event with
  | Some (APPROVE as e) | Some (REQUEST_CHANGES as e) =>
      match truthyStr (revisionId rawPr) with
      | None => mret tt
      | Some rev =>
          tryCatch
            (sdk_updateApproval client (toPullRequestId ref) rev
               (match e with APPROVE => sdk_APPROVE | _ => sdk_REVOKE end))
            (fun _ => mret tt)
      end
  | _ => mret tt
  end.

Definition postReview (ref : PRRef) (review : ReviewPayload) : eff X thrown unit :=
  lift (ensureCodeCommit ref);;
  rawPr ← fetchCodeCommitPR ref;
  pr ← lift (toPR rawPr);
  (match truthyStr (Some (pl_summary review)) with
   | Some s => post (commentOn ref pr None s)
   | None => mret tt
   end);;
  postAll (map (inlinePost ref pr) (pl_comments review));;
  applyApprovalState ref rawPr (pl_event review).

Definition postSummary (ref : PRRef) (text : str) : eff X thrown str :=
  lift (ensureCodeCommit ref);;
  pr ← getPR ref;
  id ← sdk_postComment client (commentOn ref pr None text);
  mret (default [] id).

(** [c.creationDate?.toISOString()]: a text has no such method. *)
Definition commentDate (d : option SdkDate) : result thrown str :=
  match d with
  | None => isoOrEpoch None
  | Some (ADate d) => isoOrEpoch (Some d)
  | Some (DateText _) => error "c.creationDate?.toISOString is not a function"
  end.

Definition toExistingComment (g : CommentGroup) (c : SdkComment) : result thrown ExistingComment :=
  created ← commentDate (sc_creationDate c);
  let version := l ← location g; relativeFileVersion l in
  Ok {| ec_id := IdText (default [] (commentId c)); ec_path := l ← location g; filePath l;
        ec_line := l ← location g; filePosition l;
        ec_side := if bool_decide (version = Some (js "BEFORE")) then Some LEFT
                   else if bool_decide (version = Some (js "AFTER")) then Some RIGHT else None;
        ec_body := default [] (sc_content c); ec_author := parseAuthor (sc_authorArn c);
        ec_createdAt := created; ec_inReplyTo := sc_inReplyTo c |}.

Definition groupPairs (gs : list CommentGroup) : list (CommentGroup * SdkComment) :=
  concat (map (fun g => map (pair g) (default [] (group_comments g))) gs).

Definition getExistingComments (ref : PRRef) : eff X thrown (option (list ExistingComment)) :=
  lift (ensureCodeCommit ref);;
  groups ← walk (sdk_getComments client (toPullRequestId ref) (Some (ref_repo ref))) (mret tt) fuel None [];
  match groups with
  | Some gs => cs ← lift (mapM (fun gc => toExistingComment gc.1 gc.2) (groupPairs gs)); mret (Some cs)
  | None => mret None
  end.

(** Inert: the state lives in Postgres, and there are no threaded replies. *)
Definition getStateComment (ref : PRRef) : eff X thrown (option ReviewState) := mret None.
Definition upsertStateComment (ref : PRRef) (state : ReviewState) : eff X thrown unit := mret tt.
Definition postReply (ref : PRRef) (commentId : CommentId) (body : str) : eff X thrown unit := mret tt.

Definition CODECOMMIT_CAPABILITIES : VcsCapabilities :=
  {| can_clone := false; can_stateComment := postgres_only; can_approvalEvent := approval_codecommit;
     can_commitMessages := false; can_conversationReply := false |}.

Definition createCodecommitVCS : VCS X :=
  {| platform := codecommit; capabilities := CODECOMMIT_CAPABILITIES; Vcs.getPR := getPR; Vcs.getDiff := getDiff;
     Vcs.getFile := getFile; Vcs.cloneRepo := cloneRepo; Vcs.getExistingComments := getExistingComments;
     Vcs.postReview := postReview; Vcs.postSummary := postSummary; Vcs.postReply := postReply;
     Vcs.getStateComment := getStateComment; Vcs.upsertStateComment := upsertStateComment |}.

(** ** The walks of the recovery *)

Record CodeCommitRawComment := {
  rc_commentId : str;
  rc_content : str;
  rc_inReplyTo : option str;
  rc_creationDate : option date;
  rc_authorArn : option str;
}.

Definition dateOf (d : SdkDate) : date := match d with ADate d => d | DateText s => parseDate s end.

Definition rawComment (c : SdkComment) : option CodeCommitRawComment :=
  id ← truthyStr (commentId c);
  Some {| rc_commentId := id; rc_content := default [] (sc_content c); rc_inReplyTo := sc_inReplyTo c;
          rc_creationDate := dateOf <$> sc_creationDate c; rc_authorArn := sc_authorArn c |}.

Definition listCodeCommitCommentsForPullRequest (sleep : number -> eff X thrown unit) (delayMs : number) (pullRequestId : str)
    : eff X thrown (option (list CodeCommitRawComment)) :=
  let pause := if nlt zero delayMs then sleep delayMs else mret tt in
  groups ← walk (sdk_getComments client pullRequestId None) pause fuel None [];
  mret (gs ← groups; Some (omap (fun gc => rawComment gc.2) (groupPairs gs))).

(** A pull request id: digits only, and finite as a number. *)
Definition pullRequestNumber (idStr : str) : option Z :=
  if bool_decide (idStr <> []) && forallb is_digit idStr then
    let n := toNumber idStr in
    if isFinite n then integerOf n else None
  else None.

(** [seen] keeps the first of equal ids. *)
Fixpoint addIds (seen : list Z) (ids : list str) : list Z :=
  match ids with
  | [] => seen
  | s :: rest =>
      match pullRequestNumber s with
      | Some n => if bool_decide (n ∈ seen) then addIds seen rest else addIds (seen ++ [n]) rest
      | None => addIds seen rest
      end
  end.

Inductive PrStatus := pr_OPEN | pr_CLOSED | pr_ALL.
Definition statuses (s : PrStatus) : list str :=
  match s with pr_OPEN => [js "OPEN"] | pr_CLOSED => [js "CLOSED"] | pr_ALL => [js "OPEN"; js "CLOSED"] end.

Fixpoint listIds (repositoryName : str) (ss : list str) (seen : list Z) : eff X thrown (option (list Z)) :=
  match ss with
  | [] => mret (Some seen)
  | s :: rest =>
      items ← walk (sdk_listPullRequests client repositoryName s) (mret tt) fuel None [];
      match items with
      | Some ids => listIds repositoryName rest (addIds seen ids)
      | None => mret None
      end
  end.

Definition listCodeCommitPullRequestIds (repositoryName : str) (status : option PrStatus) : eff X thrown (option (list Z)) :=
  listIds repositoryName (statuses (default pr_ALL status)) [].
End adapter.

(** ** Pagination: what a walk returns *)

Section pages.
Context {X A : Type} (fetch : option str -> eff X thrown (page A)) (pause : eff X thrown unit).

(** The service answers with a finite chain of pages: [pages tok s ls s'] is the chain from the
    token [tok] and the world [s], with the items of each page, to the world [s']. *)
Inductive pages : option str -> X -> list (list A) -> X -> Prop :=
| pages_last tok s items next s' :
    fetch tok s = (Ok (items, next), s') -> truthyStr next = None ->
    pages tok s [default [] items] s'
| pages_next tok s items next s1 t s2 ls s3 :
    fetch tok s = (Ok (items, next), s1) -> truthyStr next = Some t ->
    pause s1 = (Ok tt, s2) -> pages (Some t) s2 ls s3 ->
    pages tok s (default [] items :: ls) s3.

Lemma walk_chain tok s ls s' :
  pages tok s ls s' -> forall fuel acc, length ls <= fuel ->
  walk fetch pause fuel tok acc s = (Ok (Some (acc ++ concat ls)), s').
Proof.
  induction 1 as [tok s items next s' Hf Hn|tok s items next s1 t s2 ls s3 Hf Hn Hp Hps IH];
    intros [|fuel] acc Hl; cbn [length] in Hl; try lia.
  - cbn [walk]. unfold mbind at 1, eff_bind at 1. rewrite Hf. cbn. rewrite Hn. cbn.
    by rewrite app_nil_r.
  - cbn [walk]. unfold mbind at 1, eff_bind at 1. rewrite Hf. cbn. rewrite Hn.
    unfold mbind, eff_bind. rewrite Hp. rewrite IH by lia. by rewrite <- app_assoc.
Qed.

Lemma walk_inv fuel : forall tok acc s l s',
  walk fetch pause fuel tok acc s = (Ok (Some l), s') ->
  exists ls, pages tok s ls s' /\ l = acc ++ concat ls.
Proof.
  induction fuel as [|fuel IH]; intros tok acc s l s' H; [done|].
  cbn [walk] in H. apply bind_Ok in H as ([items next] & s1 & Hf & H).
  destruct (truthyStr next) as [t|] eqn:Hn.
  - apply bind_Ok in H as ([] & s2 & Hp & H). apply IH in H as (ls & Hps & ->).
    exists (default [] items :: ls). split; [by eapply pages_next|]. cbn. by rewrite app_assoc.
  - inv_eff. exists [default [] items]. split; [by eapply pages_last|]. cbn. by rewrite app_nil_r.
Qed.
End pages.

(** ** Pull request ids *)

Lemma addIds_spec ids : forall seen,
  NoDup seen -> NoDup (addIds seen ids) /\
  (forall n, n ∈ addIds seen ids <-> n ∈ seen \/ exists s, s ∈ ids /\ pullRequestNumber s = Some n).
Proof.
  induction ids as [|i ids IH]; intros seen Hs; cbn [addIds].
  { split; [done|]. set_solver. }
  destruct (pullRequestNumber i) as [m|] eqn:Ei; [case_bool_decide as Hm|].
  - destruct (IH seen Hs) as [Hd He]. split; [done|]. intros n. rewrite He. set_solver.
  - destruct (IH (seen ++ [m])) as [Hd He].
    { apply NoDup_app. split_and!; [done|set_solver|apply NoDup_singleton]. }
    split; [done|]. intros n. rewrite He. set_solver.
  - destruct (IH seen Hs) as [Hd He]. split; [done|]. intros n. rewrite He. set_solver.
Qed.

Section recovery_walk.
Context {X : Type} (client : CodeCommitClient X).

(** The chain of pages of each status, one after the other. *)
Inductive idPages (repo : str) : list str -> X -> list (list str) -> X -> Prop :=
| id_nil s : idPages repo [] s [] s
| id_cons st sts s ls s1 rest s2 :
    pages (sdk_listPullRequests client repo st) (mret tt) None s ls s1 ->
    idPages repo sts s1 rest s2 ->
    idPages repo (st :: sts) s (ls ++ rest) s2.

Lemma listIds_chain repo sts s ls s' :
  idPages repo sts s ls s' -> forall fuel seen, NoDup seen -> length ls <= fuel ->
  exists ids, listIds client fuel repo sts seen s = (Ok (Some ids), s') /\ NoDup ids /\
    forall n, n ∈ ids <-> n ∈ seen \/ exists t, t ∈ concat ls /\ pullRequestNumber t = Some n.
Proof.
  induction 1 as [|st sts s ls s1 rest s2 Hp Hr IH]; intros fuel seen Hs Hl.
  { exists seen. cbn. split_and!; [done..|]. set_solver. }
  rewrite length_app in Hl. destruct (addIds_spec (concat ls) seen Hs) as [Hd He].
  destruct (IH fuel (addIds seen (concat ls)) Hd ltac:(lia)) as (ids & Hrun & Hnd & Hin).
  exists ids. split_and!; [|done|].
  - cbn [listIds]. unfold mbind, eff_bind. rewrite (walk_chain _ _ _ _ _ _ Hp) by lia. apply Hrun.
  - intros n. rewrite Hin, He, concat_app. setoid_rewrite elem_of_app. set_solver.
Qed.
End recovery_walk.

(** ** The calls of a review *)

(** A call that changes the pull request, and the error it was refused with, if it was. *)
Inductive Call :=
  | Posted (p : PostComment) (refused : option thrown)
  | Approval (revision : str) (state : ApprovalState) (refused : option thrown).

Definition accepted (p : PostComment) : Call := Posted p None.

Definition refusal {A} (r : result thrown A) : option thrown :=
  match r with Ok _ => None | Throw e => Some e end.

(** The comments of a review, in order, and the approval call, if one is due, with its answer. *)
Definition plannedPosts (ref : PRRef) (pr : PR) (review : ReviewPayload) : list PostComment :=
  (if bool_decide (pl_summary review = []) then [] else [commentOn ref pr None (pl_summary review)]) ++
  map (inlinePost ref pr) (pl_comments review).
Definition plannedApproval (managed : bool) (raw : PullRequest) (event : option ReviewEvent)
    (refused : option thrown) : list Call :=
  match managed, event, truthyStr (revisionId raw) with
  | true, Some APPROVE, Some rev => [Approval rev sdk_APPROVE refused]
  | true, Some REQUEST_CHANGES, Some rev => [Approval rev sdk_REVOKE refused]
  | _, _, _ => []
  end.

Section review_calls.
Context {X : Type} (client : CodeCommitClient X) (isoOf : Z -> str) (managed : bool) (log : X -> list Call).

(** Each write of the client is one entry of the log, with how the call ended; a read is none. *)
Record logged : Prop := {
  log_get : forall id, keeps log (sdk_getPullRequest client id);
  log_post : forall p s, log (sdk_postComment client p s).2 =
    log s ++ [Posted p (refusal (sdk_postComment client p s).1)];
  log_approval : forall id rev st s, log (sdk_updateApproval client id rev st s).2 =
    log s ++ [Approval rev st (refusal (sdk_updateApproval client id rev st s).1)];
}.
Context (Hlog : logged).

(** What became of the posts [ps] of a run from [s]: every one was accepted, or the run stopped at
    the first refused one, with its error. *)
Inductive posted (ps : list PostComment) (s : X) : result thrown unit * X -> Prop :=
| posted_all s' : log s' = log s ++ map accepted ps -> posted ps s (Ok tt, s')
| posted_until before p after e s' :
    ps = before ++ p :: after -> log s' = log s ++ map accepted before ++ [Posted p (Some e)] ->
    posted ps s (Throw e, s').

Lemma posted_seq ps qs (m f : eff X thrown unit) s :
  posted ps s (m s) -> (forall s', posted qs s' (f s')) -> posted (ps ++ qs) s ((m;; f) s).
Proof.
  intros Hm Hf. unfold mbind, eff_bind. destruct Hm as [s1 Hl|before p after e s1 -> Hl].
  - destruct (Hf s1) as [s2 Hl'|before p after e s2 -> Hl'].
    + apply posted_all. by rewrite Hl', Hl, map_app, <- !app_assoc.
    + eapply (posted_until _ _ (ps ++ before)); [by rewrite <- app_assoc|].
      by rewrite Hl', Hl, map_app, <- !app_assoc.
  - eapply (posted_until _ _ before); [by rewrite <- app_assoc|done].
Qed.

Lemma posted_one p s : posted [p] s (post client p s).
Proof.
  unfold post, mbind, eff_bind. pose proof (log_post Hlog p s) as H.
  destruct (sdk_postComment client p s) as [[id|e] s']; cbn in *.
  - by apply posted_all.
  - by eapply (posted_until _ _ []).
Qed.

Lemma posted_none s : posted [] s (Ok tt, s).
Proof. apply posted_all. by rewrite app_nil_r. Qed.

Lemma posted_postAll ps : forall s, posted ps s (postAll client ps s).
Proof.
  induction ps as [|p ps IH]; intros s; cbn [postAll]; [apply posted_none|].
  apply (posted_seq [p] ps); [apply posted_one|apply IH].
Qed.

Lemma approval_logged ref raw event s :
  exists refused s', applyApprovalState client managed ref raw event s = (Ok tt, s') /\
    log s' = log s ++ plannedApproval managed raw event refused.
Proof.
  unfold applyApprovalState, plannedApproval, tryCatch.
  destruct managed; cbn [negb]; [|exists None, s; by rewrite app_nil_r].
  destruct event as [[]|]; try (exists None, s; by rewrite app_nil_r);
    (destruct (truthyStr (revisionId raw)) as [rev|]; [|exists None, s; by rewrite app_nil_r]);
    match goal with |- context [sdk_updateApproval client ?i ?r ?t s] =>
      pose proof (log_approval Hlog i r t s) as H;
      destruct (sdk_updateApproval client i r t s) as [[[]|e] s'] end; by eexists _, s'.
Qed.
End review_calls.

(** ** Properties *)

(** The walks of the adapter end and miss nothing: when the service answers with a finite chain of
    pages, a diff holds the differences of every page in order, and the ids of a repository are the
    numbers of the digits-only ids of every page of every status, each once. *)
Theorem every_page_is_read {X} (client : CodeCommitClient X) isoOf ref sinceSha raw pr repo status
    s s1 ls s2 idLs s3 fuel :
  ref_platform ref = codecommit ->
  sdk_getPullRequest client (toPullRequestId ref) s = (Ok (Some raw), s1) -> toPR isoOf raw = Ok pr ->
  pages (sdk_getDifferences client (ref_repo ref) (default (vp_baseSha pr) sinceSha) (vp_headSha pr))
    (mret tt) None s1 ls s2 ->
  idPages client repo (statuses (default pr_ALL status)) s2 idLs s3 ->
  length ls <= fuel -> length idLs <= fuel ->
  getDiff client isoOf fuel ref sinceSha s =
    (Ok (Some {| diff_baseSha := default (vp_baseSha pr) sinceSha; diff_headSha := vp_headSha pr;
                 diff_files := map toDiffFile (concat ls) |}), s2) /\
  exists ids, listCodeCommitPullRequestIds client fuel repo status s2 = (Ok (Some ids), s3) /\
    NoDup ids /\ forall n, n ∈ ids <-> exists t, t ∈ concat idLs /\ pullRequestNumber t = Some n.
Proof.
  intros Hp Hget Hpr Hls Hids Hf1 Hf2. split.
  - unfold getDiff, getPR, fetchCodeCommitPR, ensureCodeCommit. rewrite Hp.
    unfold mbind, eff_bind, lift. rewrite Hget. cbn. rewrite Hpr.
    by rewrite (walk_chain _ _ _ _ _ _ Hls fuel []).
  - destruct (listIds_chain client _ _ _ _ _ Hids fuel [] (NoDup_nil_2) Hf2) as (ids & Hrun & Hnd & Hin).
    exists ids. split_and!; [apply Hrun|done|]. intros n. rewrite Hin. set_solver.
Qed.

(** C24. The writes of a review are its plan and nothing else: the summary first, then each inline
    comment once and in order, then the approval call when the operator has opted in and the event
    asks for one. A review that ends well had every post accepted before the approval was asked
    for, and a failing approval does not fail it; otherwise the review throws the error of the
    first refused post, which is the last call it made. Each inline comment carries the marker its
    fingerprint is read back from. *)
Theorem review_is_posted_in_order {X} (client : CodeCommitClient X) isoOf managed log ref review raw pr s s1 :
  logged client log ->
  ref_platform ref = codecommit ->
  sdk_getPullRequest client (toPullRequestId ref) s = (Ok (Some raw), s1) -> toPR isoOf raw = Ok pr ->
  match postReview client isoOf managed ref review s with
  | (Ok _, s') => exists refused,
      log s' = log s ++ map accepted (plannedPosts ref pr review)
                     ++ plannedApproval managed raw (pl_event review) refused
  | (Throw e, s') => exists before p after,
      plannedPosts ref pr review = before ++ p :: after /\
      log s' = log s ++ map accepted before ++ [Posted p (Some e)]
  end /\
  (forall c, c ∈ pl_comments review -> fp_ok (fingerprint_of c) ->
    extractFingerprintFromComment (body c) = None ->
    extractFingerprintFromComment (po_content (inlinePost ref pr c)) = Some (fingerprint_of c)).
Proof.
  intros Hlog Hp Hget Hpr. split; [|intros c _ Hfp Hn; by apply fingerprint_marker_roundtrip].
  assert (log s1 = log s) as <-.
  { pose proof (log_get _ _ Hlog (toPullRequestId ref) s) as H. by rewrite Hget in H. }
  set (first := match truthyStr (Some (pl_summary review)) with
                | Some t => post client (commentOn ref pr None t)
                | None => mret tt
                end).
  set (posts := (first;; postAll client (map (inlinePost ref pr) (pl_comments review)))).
  assert (postReview client isoOf managed ref review s =
          (posts;; applyApprovalState client managed ref raw (pl_event review)) s1) as ->.
  { unfold postReview, fetchCodeCommitPR, ensureCodeCommit, posts. rewrite Hp.
    unfold mbind, eff_bind, lift. rewrite Hget. cbn -[truthyStr]. rewrite Hpr. fold first.
    by destruct (first s1) as [[]]. }
  assert (posted log (plannedPosts ref pr review) s1 (posts s1)) as Hposts.
  { apply posted_seq; [|intros s2; by apply posted_postAll].
    unfold first, truthyStr. destruct (pl_summary review); [apply posted_none|by apply posted_one]. }
  unfold mbind, eff_bind. destruct Hposts as [s2 Hl|before p after e s2 Hps Hl]; [|by exists before, p, after].
  destruct (approval_logged client managed log Hlog ref raw (pl_event review) s2) as (refused & s3 & -> & Ha).
  exists refused. by rewrite Ha, Hl, <- app_assoc.
Qed.

Definition demoRef : PRRef := {| ref_platform := codecommit; ref_owner := "acme"; ref_repo := "shop"; ref_number := 7 |}.
Definition demoPr : PullRequest :=
  {| sdk_title := Some (js "Fix"); sdk_description := None; sdk_authorArn := Some (js "arn:aws:iam::1:user/jane");
     revisionId := Some (js "r1");
     pullRequestTargets := Some [{| destinationCommit := Some (js "base"); sourceCommit := Some (js "head");
       destinationReference := Some (js "main"); sourceReference := Some (js "fix") |}];
     sdk_creationDate := None; sdk_lastActivityDate := None |}.
Definition demoIso (ms : Z) : str := "1970-01-01T00:00:00.000Z".

Definition demoRefusal : thrown := Object None NoStatus None [].

(** A service that keeps the calls made, whose listings have two pages, and which refuses the
    comment [bad]. *)
Definition demoPage {A} (x y : A) (token : option str) : eff (list Call) thrown (page A) :=
  mret match token with None => (Some [x], Some (js "t")) | Some _ => (Some [y], None) end.
Definition demoDiff (p : str) : Difference := {| changeType := Some (js "M"); beforePath := None; afterPath := Some p |}.
Definition demoClient : CodeCommitClient (list Call) :=
  {| sdk_getPullRequest _ := mret (Some demoPr);
     sdk_getDifferences _ _ _ := demoPage (demoDiff "a") (demoDiff "b");
     sdk_getFile _ _ _ := mret None;
     sdk_getComments _ _ _ := mret (None, None);
     sdk_postComment p := if bool_decide (po_content p = js "bad")
       then modify (fun l => l ++ [Posted p (Some demoRefusal)]);; throw demoRefusal
       else modify (fun l => l ++ [accepted p]);; mret (Some (js "c1"));
     sdk_updateApproval _ rev st := modify (fun l => l ++ [Approval rev st (Some demoRefusal)]);; throw demoRefusal;
     sdk_listPullRequests _ st := if bool_decide (st = js "OPEN") then demoPage (js "7") (js "42-archived")
                                  else demoPage (js "7") (js "12") |}.

Lemma demoPage_pages {A} (x y : A) l : pages (demoPage x y) (mret tt) None l [[x]; [y]] l.
Proof.
  apply (pages_next _ _ None l (Some [x]) (Some (js "t")) l (js "t") l [[y]]); [done..|].
  by apply (pages_last _ _ (Some (js "t")) l (Some [y]) None).
Qed.

Lemma every_page_is_read_witness :
  listCodeCommitPullRequestIds demoClient 9 (js "shop") None [] = (Ok (Some [7%Z; 12%Z]), []) /\
  diff_files <$> default None (match (getDiff demoClient demoIso 9 demoRef None []).1 with Ok d => Some d | _ => None end)
    = Some [toDiffFile (demoDiff "a"); toDiffFile (demoDiff "b")].
Proof.
  split; [vm_compute; reflexivity|].
  edestruct (every_page_is_read demoClient demoIso demoRef None demoPr) with (status := @None PrStatus)
    (repo := js "shop") (s := @nil Call) (s1 := @nil Call) (s2 := @nil Call) (s3 := @nil Call)
    (ls := [[demoDiff "a"]; [demoDiff "b"]]) (fuel := 9)
    (idLs := [[js "7"]; [js "42-archived"]] ++ [[js "7"]; [js "12"]] ++ []) as [H _];
    [reflexivity|reflexivity|reflexivity| | |cbn; lia|cbn; lia|by rewrite H].
  - apply demoPage_pages.
  - repeat (eapply id_cons; [apply demoPage_pages|]). apply id_nil.
Defined.

Definition demoVcsPr : PR := Eval vm_compute in match toPR demoIso demoPr with Ok p => p | Throw _ => {| vp_title := []; vp_body := []; vp_author := []; vp_baseSha := []; vp_headSha := []; vp_baseRef := []; vp_headRef := []; vp_draft := false; vp_labels := []; vp_commitMessages := []; vp_createdAt := []; vp_updatedAt := [] |} end.
Definition demoReviewState : ReviewState :=
  {| lastReviewedSha := []; baseSha := []; reviewedAt := []; modelUsed := []; totalTokens := 0;
     totalCostUsd := zero; commentFingerprints := [] |}.
Definition demoReview (summary : str) : ReviewPayload :=
  {| pl_comments := []; pl_summary := summary; pl_state := demoReviewState; pl_event := Some APPROVE |}.

Lemma review_is_posted_in_order_witness :
  (exists s' refused, postReview demoClient demoIso true demoRef (demoReview "Looks good") [] = (Ok tt, s') /\
    s' = [accepted (commentOn demoRef demoVcsPr None "Looks good"); Approval "r1" sdk_APPROVE refused]) /\
  (exists e s', postReview demoClient demoIso true demoRef (demoReview "bad") [] = (Throw e, s') /\
    s' = [Posted (commentOn demoRef demoVcsPr None "bad") (Some e)]).
Proof.
  assert (logged demoClient id) as Hlog.
  { split; [by intros ? ?| |by intros ? ? ? ?]. intros p s. cbn. by case_bool_decide. }
  split.
  - destruct (review_is_posted_in_order demoClient demoIso true id demoRef (demoReview "Looks good") demoPr
      demoVcsPr [] [] Hlog eq_refl eq_refl eq_refl) as [H _].
    destruct (postReview _ _ _ _ _ _) as [[[]|e] s'] eqn:E.
    + destruct H as [refused Hs]. by exists s', refused.
    + revert E. vm_compute. discriminate.
  - destruct (review_is_posted_in_order demoClient demoIso true id demoRef (demoReview "bad") demoPr
      demoVcsPr [] [] Hlog eq_refl eq_refl eq_refl) as [H _].
    destruct (postReview _ _ _ _ _ _) as [[[]|e] s'] eqn:E.
    + revert E. vm_compute. discriminate.
    + destruct H as ([|q before] & p & after & Hp & Hs); [|by destruct before].
      injection Hp as <- <-. by exists e, s'.
Defined.
