(* ===== verification/GithubAdapter.v ===== *)
(** * The GitHub adapter (platform-github/src/adapter.ts, clone.ts, feedback.ts, installation-repos.ts)

    Octokit is a record of effects on a world [X], one per call the adapter makes, with the members
    of the answers it reads; [paginate] is Octokit's and gives the whole list. git is a parameter:
    its arguments, and whether [GIT_LFS_SKIP_SMUDGE=1] is set. *)

From S2P Require Import Prelude JsNumber Regex NumberText JsonTree Errors Review Dedup Queue StateComment.
From S2P Require Import Vcs.

(** ** Octokit *)

Inductive Label := LabelText (s : str) | LabelObject (name : option str).
Record PullData := {
  gd_title : str;
  gd_body : option str;
  gd_user : option str;
  gd_baseSha : str;
  gd_headSha : str;
  gd_baseRef : str;
  gd_headRef : str;
  gd_draft : option bool;
  gd_labels : list Label;
  gd_commits : option Z;
  gd_created_at : str;
  gd_updated_at : str;
}.
Record CommitItem := { ci_sha : str; ci_message : option str }.
Record FileItem := {
  filename : str;
  previous_filename : option str;
  fi_status : option str;
  fi_additions : Z;
  fi_deletions : Z;
  fi_patch : option str;
}.
Record CompareData := {
  merge_base_sha : str;
  cd_commits : list str;
  cd_files : option (list FileItem);
}.
(** The content of a path: a directory, or an item with its type, its text and its encoding. *)
Inductive ContentData :=
  | Directory
  | ContentItem (type : str) (content : option str) (encoding : option str).
Record ReviewCommentItem := {
  rci_id : Z;
  rci_path : option str;
  rci_line : option Z;
  rci_original_line : option Z;
  rci_side : option Side;
  rci_body : option str;
  rci_user : option str;
  rci_created_at : str;
}.
Record DraftComment := { dc_path : str; dc_line : Z; dc_side : Side; dc_body : str }.
Record ReactionItem := { re_content : str; re_user : option str; re_created_at : str }.
Record InstallationRepo := { ir_id : Z; ir_fullName : str; ir_private : bool }.

Record Octokit (X : Type) := {
  pulls_get : str -> str -> Z -> eff X thrown PullData;
  pulls_listCommits : str -> str -> Z -> Z -> Z -> eff X thrown (list CommitItem);
  compareCommitsWithBasehead : str -> str -> str -> eff X thrown CompareData;
  pulls_listFiles : str -> str -> Z -> eff X thrown (list FileItem);
  repos_getContent : str -> str -> str -> str -> eff X thrown ContentData;
  pulls_createReview : str -> str -> Z -> ReviewEvent -> str -> list DraftComment -> eff X thrown unit;
  issues_createComment : str -> str -> Z -> str -> eff X thrown Z;
  pulls_createReply : str -> str -> Z -> number -> str -> eff X thrown unit;
  pulls_listReviewComments : str -> str -> Z -> eff X thrown (list ReviewCommentItem);
  issues_listComments : str -> str -> Z -> eff X thrown (list IssueComment);
  issues_updateComment : str -> str -> Z -> str -> eff X thrown unit;
  reactions_list : str -> str -> Z -> eff X thrown (list ReactionItem);
  pulls_getReview : str -> str -> Z -> Z -> eff X thrown str;
  apps_listRepos : number -> eff X thrown (list InstallationRepo);
}.
Arguments pulls_get {X}.
Arguments pulls_listCommits {X}.
Arguments compareCommitsWithBasehead {X}.
Arguments pulls_listFiles {X}.
Arguments repos_getContent {X}.
Arguments pulls_createReview {X}.
Arguments issues_createComment {X}.
Arguments pulls_createReply {X}.
Arguments pulls_listReviewComments {X}.
Arguments issues_listComments {X}.
Arguments issues_updateComment {X}.
Arguments reactions_list {X}.
Arguments pulls_getReview {X}.
Arguments apps_listRepos {X}.

(** ** Pure parts *)

Definition GITHUB_CAPABILITIES : VcsCapabilities :=
  {| can_clone := true; can_stateComment := state_native; can_approvalEvent := approval_github;
     can_commitMessages := true; can_conversationReply := true |}.

Definition mapStatus (status : option str) : DiffStatus :=
  match truthyStr status with
  | None => st_modified
  | Some s =>
      if bool_decide (s = js "added") then st_added
      else if bool_decide (s = js "removed") then st_removed
      else if bool_decide (s = js "renamed") then st_renamed
      else st_modified
  end.

Definition COMMIT_MESSAGES_CAP : nat := 20.
Definition COMMIT_MESSAGE_MAX_CHARS : nat := 5000.
Definition COMMIT_PAGE_SIZE : Z := 100.

Definition truncateMessage (message : str) : str :=
  if bool_decide (length message <= COMMIT_MESSAGE_MAX_CHARS) then message
  else take COMMIT_MESSAGE_MAX_CHARS message ++ nl ++ "[...truncated at " ++ showN COMMIT_MESSAGE_MAX_CHARS ++ " chars]".

(** [l.slice(-n)] for a positive [n]. *)
Definition lastOf {A} (n : nat) (l : list A) : list A := drop (length l - n) l.

Definition toCommitMessage (c : CommitItem) : CommitMessage :=
  {| cm_sha := ci_sha c; cm_message := truncateMessage (default [] (ci_message c)) |}.

Definition labelText (l : Label) : str :=
  match l with LabelText s => s | LabelObject name => default [] name end.

Definition toPR (data : PullData) (commitsRaw : list CommitItem) : PR :=
  {| vp_title := gd_title data; vp_body := default [] (gd_body data);
     vp_author := default (js "unknown") (gd_user data);
     vp_baseSha := gd_baseSha data; vp_headSha := gd_headSha data;
     vp_baseRef := gd_baseRef data; vp_headRef := gd_headRef data;
     vp_draft := default false (gd_draft data); vp_labels := map labelText (gd_labels data);
     vp_commitMessages := map toCommitMessage (lastOf COMMIT_MESSAGES_CAP commitsRaw);
     vp_createdAt := gd_created_at data; vp_updatedAt := gd_updated_at data |}.

Definition toDiffFile (f : FileItem) : DiffFile :=
  {| df_path := filename f; df_previousPath := previous_filename f; df_status := mapStatus (fi_status f);
     df_additions := fi_additions f; df_deletions := fi_deletions f; df_patch := fi_patch f |}.

Definition toExistingComment (c : ReviewCommentItem) : ExistingComment :=
  {| ec_id := IdNumber (rci_id c); ec_path := rci_path c;
     ec_line := match rci_line c with Some l => Some l | None => rci_original_line c end;
     ec_side := rci_side c; ec_body := default [] (rci_body c);
     ec_author := default (js "unknown") (rci_user c); ec_createdAt := rci_created_at c; ec_inReplyTo := None |}.

Definition ensureGithub (ref : PRRef) : result thrown unit :=
  match ref_platform ref with
  | github => Ok tt
  | codecommit => error "Github VCS adapter received platform='codecommit'"
  end.

Definition defaultCloneUrl (ref : PRRef) (token : str) : result thrown str :=
  if bool_decide (ref_owner ref = []) then
    error ("Refusing clone for github ref with empty owner: " ++ ref_repo ref ++ "#" ++ showZ (ref_number ref))
  else if bool_decide (ref_repo ref = []) then error "Refusing clone for github ref with empty repo"
  else Ok ("https://x-access-token:" ++ token ++ "@github.com/" ++ ref_owner ref ++ "/" ++ ref_repo ref ++ ".git").

(** ** clone.ts *)

(** [/^[A-Za-z0-9_./-]+$/] *)
Definition isRefChar (c : ascii) : bool :=
  let n := code c in
  ((48 <=? n) && (n <=? 57) || (65 <=? n) && (n <=? 90) || (97 <=? n) && (n <=? 122))%N
  || bool_decide (c ∈ js "_./-").
Definition SAFE_REF_REGEX (ref : str) : bool := bool_decide (ref <> []) && forallb isRefChar ref.
Definition DEFAULT_DEPTH : Z := 50.

Definition assertSafeRef (ref : str) : result thrown unit :=
  if SAFE_REF_REGEX ref then Ok tt else error ("Refusing potentially unsafe git ref: '" ++ ref ++ "'").

Definition filterText (f : CloneFilter) : str :=
  match f with blob_none => "blob:none" | tree_0 => "tree:0" | filter_none => "none" end.

Definition depthFlag (opts : CloneOpts) : str := "--depth=" ++ showZ (default DEFAULT_DEPTH (co_depth opts)).

Definition buildCloneArgs (url dest : str) (opts : CloneOpts) : list str :=
  [js "clone"; depthFlag opts; js "--no-checkout"; js "--no-tags"] ++
  match co_filter opts with
  | Some filter_none | None => []
  | Some f => ["--filter=" ++ filterText f]
  end ++
  match co_submodules opts with
  | Some true => [js "--recurse-submodules"; js "--shallow-submodules"]
  | _ => []
  end ++
  [js "--"; url; dest].

(** Whether the environment says [GIT_LFS_SKIP_SMUDGE=1]. *)
Definition lfsEnvFor (opts : CloneOpts) : bool :=
  match co_lfs opts with Some true => false | _ => true end.

Section adapter.
Context {X : Type} (octokit : Octokit X) (runGit : list str -> bool -> eff X thrown unit)
        (token : str) (optCloneUrl : option (PRRef -> str))
        (showNumber : number -> str) (parseJSON : str -> option json) (isDatetime : str -> bool)
        (onStateParseEvent : option (StateParseEvent -> eff X thrown unit))
        (** [Buffer.from(text, encoding)]: from base64, or the text's UTF-8. *)
        (bufferFrom : bool -> str -> str).

Definition cloneWithStrategy (url dest : str) (ref : PRRef) (headSha : str) (opts : CloneOpts) : eff X thrown unit :=
  lift (assertSafeRef headSha);;
  let env := lfsEnvFor opts in
  runGit (buildCloneArgs url dest opts) env;;
  match co_sparsePaths opts with
  | Some paths =>
      if (0 <? length paths)%nat && (length paths <=? 100)%nat then
        runGit [js "-C"; dest; js "sparse-checkout"; js "init"; js "--cone"] env;;
        runGit ([js "-C"; dest; js "sparse-checkout"; js "set"] ++ paths) env
      else mret tt
  | None => mret tt
  end;;
  runGit [js "-C"; dest; js "fetch"; js "origin"; headSha; depthFlag opts] env;;
  runGit [js "-C"; dest; js "checkout"; headSha] env.

(** ** adapter.ts *)

(** The commits [getPR] looks at: the last page, and the one before when it is short. *)
Definition tailCommits (ref : PRRef) (totalCommits : Z) : eff X thrown (list CommitItem) :=
  if (0 <? totalCommits)%Z then
    let lastPage := Z.max 1 ((totalCommits + COMMIT_PAGE_SIZE - 1) / COMMIT_PAGE_SIZE) in
    commitsRaw ← pulls_listCommits octokit (ref_owner ref) (ref_repo ref) (ref_number ref) COMMIT_PAGE_SIZE lastPage;
    if (1 <? lastPage)%Z && (length commitsRaw <? COMMIT_MESSAGES_CAP)%nat then
      prev ← pulls_listCommits octokit (ref_owner ref) (ref_repo ref) (ref_number ref) COMMIT_PAGE_SIZE (lastPage - 1);
      mret (prev ++ commitsRaw)
    else mret commitsRaw
  else mret [].

Definition getPR (ref : PRRef) : eff X thrown PR :=
  lift (ensureGithub ref);;
  data ← pulls_get octokit (ref_owner ref) (ref_repo ref) (ref_number ref);
  commitsRaw ← tailCommits ref (default 0%Z (gd_commits data));
  mret (toPR data commitsRaw).

Definition getDiff (ref : PRRef) (sinceSha : option str) : eff X thrown (option Diff) :=
  lift (ensureGithub ref);;
  match truthyStr sinceSha with
  | Some since =>
      data ← compareCommitsWithBasehead octokit (ref_owner ref) (ref_repo ref) (since ++ "...HEAD");
      mret (Some {| diff_baseSha := merge_base_sha data; diff_headSha := default since (last (cd_commits data));
                    diff_files := map toDiffFile (default [] (cd_files data)) |})
  | None =>
      pr ← getPR ref;
      files ← pulls_listFiles octokit (ref_owner ref) (ref_repo ref) (ref_number ref);
      mret (Some {| diff_baseSha := vp_baseSha pr; diff_headSha := vp_headSha pr; diff_files := map toDiffFile files |})
  end.

Definition getFile (ref : PRRef) (path sha : str) : eff X thrown str :=
  lift (ensureGithub ref);;
  lift (assertSafeRelativePath path);;
  data ← repos_getContent octokit (ref_owner ref) (ref_repo ref) path sha;
  match data with
  | ContentItem type (Some content) encoding =>
      if bool_decide (type = js "file")
      then mret (bufferFrom (bool_decide (encoding = Some (js "base64"))) content)
      else lift (error ("Cannot read non-file content at '" ++ path ++ "'"))
  | _ => lift (error ("Cannot read non-file content at '" ++ path ++ "'"))
  end.

Definition cloneUrl (ref : PRRef) : result thrown str :=
  match optCloneUrl with Some f => Ok (f ref) | None => defaultCloneUrl ref token end.

Definition cloneRepo (ref : PRRef) (dir : str) (opts : CloneOpts) : eff X thrown unit :=
  lift (ensureGithub ref);;
  url ← lift (cloneUrl ref);
  pr ← getPR ref;
  cloneWithStrategy url dir ref (vp_headSha pr) opts.

Definition draftOf (c : InlineComment) : DraftComment :=
  {| dc_path := path c; dc_line := line c; dc_side := side c;
     dc_body := appendFingerprintMarker (body c) (fingerprint_of c) |}.

Definition postReview (ref : PRRef) (review : ReviewPayload) : eff X thrown unit :=
  lift (ensureGithub ref);;
  pulls_createReview octokit (ref_owner ref) (ref_repo ref) (ref_number ref) (default COMMENT (pl_event review))
    (buildSummaryWithState showNumber (pl_summary review) (pl_state review)) (map draftOf (pl_comments review)).

Definition postSummary (ref : PRRef) (text : str) : eff X thrown str :=
  lift (ensureGithub ref);;
  id ← issues_createComment octokit (ref_owner ref) (ref_repo ref) (ref_number ref) text;
  mret (showZ id).

Definition postReply (ref : PRRef) (commentId : CommentId) (text : str) : eff X thrown unit :=
  lift (ensureGithub ref);;
  pulls_createReply octokit (ref_owner ref) (ref_repo ref) (ref_number ref)
    (match commentId with IdText s => toNumber s | IdNumber n => num_of_Z n end) text.

Definition getExistingComments (ref : PRRef) : eff X thrown (option (list ExistingComment)) :=
  lift (ensureGithub ref);;
  review ← pulls_listReviewComments octokit (ref_owner ref) (ref_repo ref) (ref_number ref);
  mret (Some (map toExistingComment review)).

Definition findState (ref : PRRef) : eff X thrown (option (Z * str)) :=
  items ← issues_listComments octokit (ref_owner ref) (ref_repo ref) (ref_number ref);
  mret (findStateComment items).

Definition getStateComment (ref : PRRef) : eff X thrown (option ReviewState) :=
  lift (ensureGithub ref);;
  found ← findState ref;
  match found with
  | None => mret None
  | Some (_, body) =>
      let '(state, event) := parseStateComment parseJSON isDatetime body in
      match event with Some e => callOpt onStateParseEvent e | None => mret tt end;;
      mret state
  end.

Definition upsertStateComment (ref : PRRef) (state : ReviewState) : eff X thrown unit :=
  lift (ensureGithub ref);;
  let body := formatStateComment showNumber state ++ nl in
  found ← findState ref;
  match found with
  | Some (id, _) => issues_updateComment octokit (ref_owner ref) (ref_repo ref) id body
  | None => issues_createComment octokit (ref_owner ref) (ref_repo ref) (ref_number ref) body;; mret tt
  end.

Definition createGithubVCS : result thrown (VCS X) :=
  if bool_decide (token = [])
  then error "createGithubVCS requires a token (Action: GITHUB_TOKEN; CLI: REVIEW_AGENT_GH_TOKEN)"
  else Ok {| platform := github; capabilities := GITHUB_CAPABILITIES; Vcs.getPR := getPR; Vcs.getDiff := getDiff;
     Vcs.getFile := getFile; Vcs.cloneRepo := cloneRepo; Vcs.getExistingComments := getExistingComments;
     Vcs.postReview := postReview; Vcs.postSummary := postSummary; Vcs.postReply := postReply;
     Vcs.getStateComment := getStateComment; Vcs.upsertStateComment := upsertStateComment |}.

(** ** feedback.ts, installation-repos.ts *)

Inductive ReactionKind := react_thumbs_up | react_thumbs_down.
Definition REACTION_KIND_MAP (content : str) : option ReactionKind :=
  if bool_decide (content = js "+1") then Some react_thumbs_up
  else if bool_decide (content = js "-1") then Some react_thumbs_down
  else None.

Record FeedbackSignalRow := { fs_kind : ReactionKind; fs_userLogin : str; fs_createdAt : str }.

Definition toSignal (r : ReactionItem) : option FeedbackSignalRow :=
  kind ← REACTION_KIND_MAP (re_content r);
  Some {| fs_kind := kind; fs_userLogin := default (js "unknown") (re_user r); fs_createdAt := re_created_at r |}.

Definition listReviewCommentReactions (owner repo : str) (commentId : Z) : eff X thrown (list FeedbackSignalRow) :=
  data ← reactions_list octokit owner repo commentId;
  mret (omap toSignal data).

Definition getReviewState (owner repo : str) (pullNumber reviewId : Z) : eff X thrown str :=
  pulls_getReview octokit owner repo pullNumber reviewId.

Definition listInstallationRepos (installationId : Z) : eff X thrown (list InstallationRepo) :=
  apps_listRepos octokit (num_of_Z installationId).
End adapter.

(** ** Commits and diffs *)

Section listing.
Context {X : Type} (octokit : Octokit X) (ref : PRRef) (commits : list CommitItem) (called : X -> X).

(** The documented listing: the commits oldest first, in pages; [called] counts the request. *)
Definition servesCommits : Prop := forall perPage page s,
  pulls_listCommits octokit (ref_owner ref) (ref_repo ref) (ref_number ref) perPage page s =
    (Ok (take (Z.to_nat perPage) (drop (Z.to_nat (perPage * (page - 1))) commits)), called s).
Context (Hserves : servesCommits).

Lemma lastOf_app {A} n (l l' : list A) : n <= length l' -> lastOf n (l ++ l') = lastOf n l'.
Proof.
  intros H. unfold lastOf. rewrite length_app, drop_app_ge by lia. f_equal. lia.
Qed.

Lemma lastOf_drop {A} n k (l : list A) : k <= length l -> n <= length l - k -> lastOf n (drop k l) = lastOf n l.
Proof. intros Hk H. unfold lastOf. rewrite length_drop, drop_drop. f_equal. lia. Qed.

(** One request, or two when the last page is short, give the last commits of the list. *)
Lemma tailCommits_window s :
  exists raw k, tailCommits octokit ref (Zlen commits) s = (Ok raw, Nat.iter k called s) /\ k <= 2 /\
    lastOf COMMIT_MESSAGES_CAP raw = lastOf COMMIT_MESSAGES_CAP commits.
Proof.
  unfold tailCommits, COMMIT_PAGE_SIZE, COMMIT_MESSAGES_CAP, Zlen. set (n := length commits).
  destruct (Z.ltb_spec 0 (Z.of_nat n)) as [Hn|Hn].
  2: { exists [], 0. split_and!; [done|lia|]. assert (commits = []) as -> by (apply length_zero_iff_nil; lia). done. }
  set (p := Z.max 1 _). assert (1 <= p /\ 100 * (p - 1) < Z.of_nat n <= 100 * p)%Z as Hp.
  { subst p. pose proof (Z.div_mod (Z.of_nat n + 100 - 1) 100 ltac:(lia)).
    pose proof (Z.mod_pos_bound (Z.of_nat n + 100 - 1) 100 ltac:(lia)).
    rewrite Z.max_r by lia. lia. }
  unfold mbind, eff_bind. rewrite Hserves.
  assert (take (Z.to_nat 100) (drop (Z.to_nat (100 * (p - 1))) commits) = drop (Z.to_nat (100 * (p - 1))) commits) as ->
    by (apply take_ge; rewrite length_drop; lia).
  rewrite length_drop. fold n.
  destruct (Z.ltb_spec 1 p) as [H1|H1], (Nat.ltb_spec (n - Z.to_nat (100 * (p - 1))) 20) as [H2|H2]; cbn [andb].
  - rewrite Hserves. eexists _, 2. split_and!; [done|lia|].
    assert (take (Z.to_nat 100) (drop (Z.to_nat (100 * (p - 1 - 1))) commits) ++ drop (Z.to_nat (100 * (p - 1))) commits
      = drop (Z.to_nat (100 * (p - 2))) commits) as ->.
    { rewrite <- (take_drop (Z.to_nat 100) (drop (Z.to_nat (100 * (p - 2))) commits)), drop_drop.
      f_equal; [do 2 f_equal; lia|f_equal; lia]. }
    apply lastOf_drop; fold n; lia.
  - eexists _, 1. split_and!; [done|lia|]. apply lastOf_drop; fold n; lia.
  - eexists _, 1. split_and!; [done|lia|]. replace (Z.to_nat (100 * (p - 1))) with 0 by lia. done.
  - eexists _, 1. split_and!; [done|lia|]. apply lastOf_drop; fold n; lia.
Qed.

Lemma tailCommits_runs total s :
  exists raw k, tailCommits octokit ref total s = (Ok raw, Nat.iter k called s) /\ k <= 2.
Proof.
  unfold tailCommits. case_match; [|exists [], 0; split; [done|lia]]. unfold mbind, eff_bind. rewrite Hserves.
  case_match; [rewrite Hserves; eexists _, 2|eexists _, 1]; (split; [reflexivity|lia]).
Qed.

(** A total whose last two pages lie beyond the list gives no commits. *)
Lemma tailCommits_beyond total s :
  (Zlen commits + 200 <= total)%Z ->
  tailCommits octokit ref total s = (Ok [], called (called s)).
Proof.
  unfold tailCommits, COMMIT_PAGE_SIZE, COMMIT_MESSAGES_CAP, Zlen. set (n := length commits). intros Ht.
  destruct (Z.ltb_spec 0 total) as [Hn|Hn]; [|lia].
  set (p := Z.max 1 _). assert (2 <= p /\ 100 * (p - 1) < total <= 100 * p)%Z as Hp.
  { subst p. pose proof (Z.div_mod (total + 100 - 1) 100 ltac:(lia)).
    pose proof (Z.mod_pos_bound (total + 100 - 1) 100 ltac:(lia)). rewrite Z.max_r by lia. lia. }
  assert (forall q, (Z.of_nat n <= 100 * (q - 1))%Z -> drop (Z.to_nat (100 * (q - 1))) commits = []) as Hbeyond.
  { intros q Hq. apply drop_ge. fold n. lia. }
  unfold mbind, eff_bind. rewrite Hserves, Hbeyond, take_nil by lia.
  destruct (Z.ltb_spec 1 p) as [_|]; [|lia]. cbn [length Nat.ltb Nat.leb andb].
  by rewrite Hserves, Hbeyond, take_nil by lia.
Qed.
End listing.

Lemma truncateMessage_length m : length (truncateMessage m) <= COMMIT_MESSAGE_MAX_CHARS + 31.
Proof.
  unfold truncateMessage. case_bool_decide; [lia|]. rewrite !length_app, length_take.
  pose proof (Nat.le_min_l COMMIT_MESSAGE_MAX_CHARS (length m)) as Hm.
  assert (length nl + (length "[...truncated at " + (length (showN COMMIT_MESSAGE_MAX_CHARS) + length " chars]")) = 29)
    as -> by (vm_compute; reflexivity). lia.
Qed.

(** ** Properties *)

(** The commit messages of a pull request are its last twenty, oldest first and each cut to its
    bound, for at most two requests beside the first - as long as the service lists all its
    commits. It lists at most 250: from 450 commits on, the two pages asked for lie beyond the
    list and the pull request shows no message at all. *)
Theorem github_commit_window {X} (octokit : Octokit X) ref data commits called s s1 :
  ref_platform ref = github ->
  pulls_get octokit (ref_owner ref) (ref_repo ref) (ref_number ref) s = (Ok data, s1) ->
  gd_commits data = Some (Zlen commits) ->
  servesCommits octokit ref (take 250 commits) called ->
  exists pr k, getPR octokit ref s = (Ok pr, Nat.iter k called s1) /\ k <= 2 /\
    length (vp_commitMessages pr) <= COMMIT_MESSAGES_CAP /\
    Forall (fun m => length (cm_message m) <= COMMIT_MESSAGE_MAX_CHARS + 31) (vp_commitMessages pr) /\
    (length commits <= 250 -> vp_commitMessages pr = map toCommitMessage (lastOf COMMIT_MESSAGES_CAP commits)) /\
    (450 <= length commits -> vp_commitMessages pr = []).
Proof.
  intros Hp Hget Hn Hserves.
  destruct (tailCommits_runs octokit ref _ called Hserves (Zlen commits) s1) as (raw & k & Hraw & Hk).
  exists (toPR data raw), k. unfold getPR, ensureGithub. rewrite Hp. unfold mbind, eff_bind, lift.
  rewrite Hget, Hn. change (default 0%Z (Some (Zlen commits))) with (Zlen commits). rewrite Hraw. unfold toPR. cbn [vp_commitMessages]. split_and!; [done|done| | | |].
  - rewrite length_map. unfold lastOf. rewrite length_drop. lia.
  - apply Forall_map, Forall_true. intros c. apply truncateMessage_length.
  - intros Hl. rewrite take_ge in Hserves by done.
    destruct (tailCommits_window octokit ref commits called Hserves s1) as (raw' & k' & H & _ & <-).
    by replace raw' with raw by congruence.
  - intros Hl. rewrite (tailCommits_beyond octokit ref _ called Hserves) in Hraw; [by injection Hraw as <-|].
    unfold Zlen. rewrite length_take. lia.
Qed.

Definition demoData (n : Z) : PullData :=
  {| gd_title := "t"; gd_body := None; gd_user := None; gd_baseSha := "b"; gd_headSha := "h"; gd_baseRef := "main";
     gd_headRef := "fix"; gd_draft := None; gd_labels := []; gd_commits := Some n; gd_created_at := []; gd_updated_at := [] |}.
Definition demoCommits (n : nat) : list CommitItem :=
  map (fun i => {| ci_sha := showN i; ci_message := None |}) (List.seq 1 n).
(** The documented service for a pull request of [n] commits; the world counts the listings. *)
Definition demoOctokit (n : nat) (compared : CompareData) : Octokit nat :=
  {| pulls_get _ _ _ := mret (demoData (Z.of_nat n));
     pulls_listCommits _ _ _ perPage page := fun s =>
       (Ok (take (Z.to_nat perPage) (drop (Z.to_nat (perPage * (page - 1))) (take 250 (demoCommits n)))), S s);
     compareCommitsWithBasehead _ _ _ := mret compared;
     pulls_listFiles _ _ _ := mret [];
     repos_getContent _ _ _ _ := mret Directory;
     pulls_createReview _ _ _ _ _ _ := mret tt;
     issues_createComment _ _ _ _ := mret 1%Z;
     pulls_createReply _ _ _ _ _ := mret tt;
     pulls_listReviewComments _ _ _ := mret [];
     issues_listComments _ _ _ := mret [];
     issues_updateComment _ _ _ _ := mret tt;
     reactions_list _ _ _ := mret [];
     pulls_getReview _ _ _ _ := mret [];
     apps_listRepos _ := mret [] |}.
Definition demoRef (number : Z) : PRRef :=
  {| ref_platform := github; ref_owner := "o"; ref_repo := "r"; ref_number := number |}.

(** 101 commits: the last page holds one, the one before fills the window. *)
Lemma github_commit_window_witness :
  let octokit := demoOctokit 101 {| merge_base_sha := []; cd_commits := []; cd_files := None |} in
  exists pr k, getPR octokit (demoRef 7) 0 = (Ok pr, Nat.iter k S 0) /\ k <= 2 /\
    map cm_sha (vp_commitMessages pr) = map showN (List.seq 82 20).
Proof.
  destruct (github_commit_window (demoOctokit 101 {| merge_base_sha := []; cd_commits := []; cd_files := None |})
    (demoRef 7) (demoData 101) (demoCommits 101) S 0 0) as (pr & k & Hrun & Hk & _ & _ & Hall & _);
    [reflexivity|reflexivity|reflexivity|intros ? ? ?; reflexivity|].
  exists pr, k. split_and!; [exact Hrun|exact Hk|].
  rewrite Hall by (vm_compute; lia). vm_compute. reflexivity.
Defined.
