(* ===== verification/Tenancy.v ===== *)
(** * Row policies (db/src/tenancy.ts, the [tenant_isolation] policies of core/src/db/schema)

    A connection of the application's role sees and writes the rows of its current tenant only;
    [withTenant] opens a transaction whose connection has the tenant set, and leaves the pool's own
    connections as they are. *)

From S2P Require Import Prelude Errors Schema Vcs.

(** What the policies look at on a connection: whether its role is the application's, and
    [app.current_tenant]. *)
Record Connection := { restricted : bool; current_tenant : option str }.

Definition allows (c : Connection) (installationId : Z) : bool :=
  negb (restricted c) || bool_decide (current_tenant c = Some (showZ installationId)).

Definition policyError (table : string) : thrown :=
  errorOf ("new row violates row-level security policy for table " ++ quote ++ table ++ quote).

(** The transaction's connection. *)
Definition tenantConnection (pool : Connection) (installationId : Z) : Connection :=
  {| restricted := restricted pool; current_tenant := Some (showZ installationId) |}.

(** [withTenant(db, id, fn)]. What [fn] does to the world through the transaction is undone when it
    throws; what it does through another connection is not, so the callers that write through the
    pool are given the world they leave. *)
Definition withTenant {W A} (pool : Connection) (installationId : Z) (fn : Connection -> eff W thrown A) : eff W thrown A :=
  let id := showZ installationId in
  if bool_decide (id <> []) && forallb is_digit id then fn (tenantConnection pool installationId)
  else throw (errorOf ("installationId must be a positive integer (got " ++ id ++ ").")).

Lemma allows_tenant pool id : allows (tenantConnection pool id) id = true.
Proof. unfold allows. cbn. rewrite bool_decide_eq_true_2 by done. apply orb_true_r. Qed.

(** The application's role on a pool: no tenant is set, and no row is allowed. *)
Definition appPool : Connection := {| restricted := true; current_tenant := None |}.
Lemma appPool_sees_nothing id : allows appPool id = false.
Proof. done. Qed.
