(* ===== verification/AppAuth.v ===== *)
(** * GitHub App authentication (platform-github/src/app-auth.ts, app-octokit.ts)

    The private key's single source; the installation tokens kept in [installation_tokens] and the
    retry of a request the platform answered with 401. The table is under the row policy of
    [Tenancy]. Minting a token, the secret stores and the key file
    are parameters; dates are milliseconds. *)

From S2P Require Import Prelude Errors Vcs Tenancy.

(** ** The private key *)

Inductive PrivateKeySource := src_PEM | src_PATH | src_ARN | src_RESOURCE.
#[export] Instance PrivateKeySource_eq : EqDecision PrivateKeySource.
Proof. solve_decision. Defined.
Definition SOURCES : list PrivateKeySource := [src_PEM; src_PATH; src_ARN; src_RESOURCE].
Definition source_str (s : PrivateKeySource) : str :=
  match s with src_PEM => "_PEM" | src_PATH => "_PATH" | src_ARN => "_ARN" | src_RESOURCE => "_RESOURCE" end.

Record AppAuthEnv := {
  GITHUB_APP_PRIVATE_KEY_PEM : option str;
  GITHUB_APP_PRIVATE_KEY_PATH : option str;
  GITHUB_APP_PRIVATE_KEY_ARN : option str;
  GITHUB_APP_PRIVATE_KEY_RESOURCE : option str;
  REVIEW_AGENT_ALLOW_INLINE_KEY : option str;
  NODE_ENV : option str;
}.

Record SecretFetchers (X : Type) := {
  fetchAwsSecret : str -> eff X thrown str;
  fetchGcpSecret : str -> eff X thrown str;
  readPemFile : str -> eff X thrown str;
}.
Arguments fetchAwsSecret {X}.
Arguments fetchGcpSecret {X}.
Arguments readPemFile {X}.

Definition readEnv (env : AppAuthEnv) (source : PrivateKeySource) : option str :=
  match source with
  | src_PEM => GITHUB_APP_PRIVATE_KEY_PEM env
  | src_PATH => GITHUB_APP_PRIVATE_KEY_PATH env
  | src_ARN => GITHUB_APP_PRIVATE_KEY_ARN env
  | src_RESOURCE => GITHUB_APP_PRIVATE_KEY_RESOURCE env
  end.

Definition presentSources (env : AppAuthEnv) : list PrivateKeySource :=
  List.filter (fun s => bool_decide (is_Some (truthyStr (readEnv env s)))) SOURCES.

Section key.
Context {X : Type} (fetchers : SecretFetchers X).

Definition loadPrivateKey (env : AppAuthEnv) : eff X thrown (PrivateKeySource * str) :=
  match presentSources env with
  | [] => lift (error "No GitHub App private key source set. Set exactly one of GITHUB_APP_PRIVATE_KEY_PEM, GITHUB_APP_PRIVATE_KEY_PATH, GITHUB_APP_PRIVATE_KEY_ARN, GITHUB_APP_PRIVATE_KEY_RESOURCE (Appendix B).")
  | [source] =>
      let value := default [] (readEnv env source) in
      match source with
      | src_PEM =>
          let isProd := bool_decide (default (js "development") (NODE_ENV env) = js "production") in
          let allowInline := bool_decide (REVIEW_AGENT_ALLOW_INLINE_KEY env = Some (js "1")) in
          if isProd && negb allowInline
          then lift (error "GITHUB_APP_PRIVATE_KEY_PEM is refused in production. Set REVIEW_AGENT_ALLOW_INLINE_KEY=1 to override (NOT recommended).")
          else mret (source, value)
      | src_PATH => pem ← readPemFile fetchers value; mret (source, pem)
      | src_ARN => pem ← fetchAwsSecret fetchers value; mret (source, pem)
      | src_RESOURCE => pem ← fetchGcpSecret fetchers value; mret (source, pem)
      end
  | present =>
      lift (error ("Multiple GitHub App private key sources set: " ++ join ", " (map source_str present)
                   ++ ". Set exactly one (Appendix B)."))
  end.
End key.

(** ** The tokens *)

Record InstallationToken := { token : str; expiresAt : Z }.
#[export] Instance InstallationToken_eq : EqDecision InstallationToken.
Proof. solve_decision. Defined.
Record TokenRow := { row_token : InstallationToken; row_updatedAt : Z }.

Record TokenWorld (X : Type) := { tw_rows : gmap Z TokenRow; tw_rest : X }.
Arguments Build_TokenWorld {X}.
Arguments tw_rows {X}.
Arguments tw_rest {X}.

Definition REFRESH_WINDOW_MS : Z := 5 * 60 * 1000.

Section tokens.
Context {X : Type} (db : Connection) (now : X -> Z) (skew : Z) (mint : Z -> eff X thrown InstallationToken).
Notation World := (TokenWorld X).

Definition readCached (installationId : Z) : eff World thrown (option InstallationToken) :=
  w ← get;
  mret (row ← (if allows db installationId then tw_rows w !! installationId else None);
        let ttlEnd := (expiresAt (row_token row) - REFRESH_WINDOW_MS)%Z in
        if (ttlEnd <=? now (tw_rest w) + skew)%Z then None else Some (row_token row)).

(** [INSERT ... ON CONFLICT DO UPDATE]. *)
Definition persist (installationId : Z) (t : InstallationToken) : eff World thrown unit :=
  w ← get;
  if allows db installationId
  then put (Build_TokenWorld (<[installationId := {| row_token := t; row_updatedAt := now (tw_rest w) |}]> (tw_rows w)) (tw_rest w))
  else throw (policyError "installation_tokens").

Definition mintToken (installationId : Z) : eff World thrown InstallationToken := fun w =>
  let '(r, x) := mint installationId (tw_rest w) in (r, Build_TokenWorld (tw_rows w) x).

Definition getInstallationToken (installationId : Z) : eff World thrown InstallationToken :=
  cached ← readCached installationId;
  match cached with
  | Some t => mret t
  | None =>
      fresh ← mintToken installationId;
      persist installationId fresh;;
      mret fresh
  end.

Definition invalidate (installationId : Z) : eff World thrown unit :=
  modify (fun w => if allows db installationId then Build_TokenWorld (delete installationId (tw_rows w)) (tw_rest w) else w).

(** ** app-octokit.ts *)

(** The error hook: [request authorization] is the request sent again with that header. *)
Definition build401RetryHandler {A} (installationId : Z) (request : str -> eff World thrown A) (err : thrown)
    : eff World thrown A :=
  match err with
  | Object _ (Status 401) _ _ =>
      invalidate installationId;;
      fresh ← getInstallationToken installationId;
      request ("token " ++ token fresh)
  | _ => throw err
  end.
End tokens.

(** [createAppOctokitFactory]'s throttling: whether a rate-limited request is tried again. *)
Definition onRateLimit (retryCount : Z) : bool := (retryCount <? 2)%Z.
Definition onSecondaryRateLimit (retryAfter : Z) : bool := (retryAfter <? 60)%Z.

(** ** What a token is worth *)

Section worth.
Context {X : Type} (db : Connection) (now : X -> Z) (skew : Z) (mint : Z -> eff X thrown InstallationToken)
        (issued : X -> list (Z * InstallationToken)).

(** [issued] is the history of what the platform has handed out. A token of the minting client was
    issued for the installation that asked, in this call or, when the client answers from its
    cache, in an earlier one. *)
Definition handsOutIssued : Prop := forall id x r x', mint id x = (r, x') ->
  (exists new, issued x' = issued x ++ new) /\ forall t, r = Ok t -> (id, t) ∈ issued x'.

(** Every row is a token issued for its own installation. *)
Definition rowsIssued (w : TokenWorld X) : Prop :=
  map_Forall (fun id row => (id, row_token row) ∈ issued (tw_rest w)) (tw_rows w).

Lemma rowsIssued_mint id (w : TokenWorld X) r x' :
  handsOutIssued -> mint id (tw_rest w) = (r, x') -> rowsIssued w -> rowsIssued (Build_TokenWorld (tw_rows w) x').
Proof.
  intros Hh Hm Hw i row Hi. destruct (proj1 (Hh _ _ _ _ Hm)) as [new Hnew]. cbn in *. rewrite Hnew.
  apply elem_of_app. left. by apply (Hw i).
Qed.

Definition usable (t : InstallationToken) (w : TokenWorld X) : Prop :=
  (now (tw_rest w) + skew < expiresAt t - REFRESH_WINDOW_MS)%Z.

Lemma readCached_spec id w :
  exists o, readCached db now skew id w = (Ok o, w) /\
    forall t, o = Some t -> allows db id = true /\ usable t w /\ exists u, tw_rows w !! id = Some {| row_token := t; row_updatedAt := u |}.
Proof.
  eexists. split; [reflexivity|]. intros t H. destruct (allows db id); [|done].
  destruct (tw_rows w !! id) as [[t' u]|] eqn:Er; [|done]. cbn in H.
  destruct (Z.leb_spec (expiresAt t' - REFRESH_WINDOW_MS) (now (tw_rest w) + skew)); [done|].
  injection H as ->. split_and!; [done|done|by eexists].
Qed.

(** A call that finds nothing usable: one minting, then the row. *)
Lemma getInstallationToken_fresh id w x' fresh :
  readCached db now skew id w = (Ok None, w) -> mint id (tw_rest w) = (Ok fresh, x') ->
  getInstallationToken db now skew mint id w =
    if allows db id
    then (Ok fresh, Build_TokenWorld (<[id := {| row_token := fresh; row_updatedAt := now x' |}]> (tw_rows w)) x')
    else (Throw (policyError "installation_tokens"), Build_TokenWorld (tw_rows w) x').
Proof.
  intros Hr Hm. unfold getInstallationToken, mbind, eff_bind. rewrite Hr. unfold mintToken. rewrite Hm.
  unfold persist, mbind, eff_bind, get. by destruct (allows db id).
Qed.

Lemma getInstallationToken_cases id w r w' :
  getInstallationToken db now skew mint id w = (r, w') ->
  (exists t u, r = Ok t /\ w' = w /\ allows db id = true /\ usable t w /\
     tw_rows w !! id = Some {| row_token := t; row_updatedAt := u |}) \/
  (readCached db now skew id w = (Ok None, w) /\
   ((exists e x', mint id (tw_rest w) = (Throw e, x') /\ r = Throw e /\ w' = Build_TokenWorld (tw_rows w) x') \/
    (exists t x', mint id (tw_rest w) = (Ok t, x') /\
       ((allows db id = true /\ r = Ok t /\
         w' = Build_TokenWorld (<[id := {| row_token := t; row_updatedAt := now x' |}]> (tw_rows w)) x') \/
        (allows db id = false /\ r = Throw (policyError "installation_tokens") /\
         w' = Build_TokenWorld (tw_rows w) x'))))).
Proof.
  intros H. destruct (readCached_spec id w) as ([t|] & Hc & Hspec).
  - left. destruct (Hspec t eq_refl) as (Ha & Hu & u & Hrow).
    unfold getInstallationToken, mbind, eff_bind in H. rewrite Hc in H. injection H as <- <-. by exists t, u.
  - right. split; [done|]. destruct (mint id (tw_rest w)) as [[t|e] x'] eqn:Em.
    + right. exists t, x'. split; [done|]. rewrite (getInstallationToken_fresh _ _ _ _ Hc Em) in H.
      destruct (allows db id); injection H as <- <-; [by left|by right].
    + left. exists e, x'. unfold getInstallationToken, mbind, eff_bind in H. rewrite Hc in H.
      unfold mintToken in H. rewrite Em in H. by injection H as <- <-.
Qed.
(** A 401: the row is deleted, and the request goes out again with what the minting client answers. *)
Lemma build401RetryHandler_401 {A} (request : str -> eff (TokenWorld X) thrown A) id m shown resp w :
  allows db id = true ->
  build401RetryHandler db now skew mint id request (Object m (Status 401) resp shown) w =
    match mint id (tw_rest w) with
    | (Ok t, x') => request ("token " ++ token t)
        (Build_TokenWorld (<[id := {| row_token := t; row_updatedAt := now x' |}]> (tw_rows w)) x')
    | (Throw e, x') => (Throw e, Build_TokenWorld (delete id (tw_rows w)) x')
    end.
Proof.
  intros Ha. unfold build401RetryHandler, invalidate, mbind, eff_bind, modify. rewrite Ha.
  set (w1 := Build_TokenWorld (delete id (tw_rows w)) (tw_rest w)).
  assert (readCached db now skew id w1 = (Ok None, w1)) as Hc.
  { unfold readCached, mbind, eff_bind, get. rewrite Ha. cbn. by rewrite lookup_delete_eq. }
  destruct (mint id (tw_rest w)) as [[t|e] x'] eqn:Em.
  - rewrite (getInstallationToken_fresh _ _ _ _ Hc Em), Ha. cbn. by rewrite insert_delete_eq.
  - unfold getInstallationToken, mbind, eff_bind. rewrite Hc. unfold mintToken. cbn. by rewrite Em.
Qed.
End worth.

(** ** Properties *)

(** C27. A token handed to a request was issued for its own installation: either it is the row's, at
    least five minutes from its expiry, and nothing was asked of the platform, or it is what the
    minting client answered to this very call. The rows stay of that kind, other installations'
    rows are untouched, and on a connection of the application's role outside the tenant's
    transaction no token is ever had. After a 401 the row is deleted and the request is sent again
    with what the minting client answers; any other error is thrown on. The code does not ask that
    client for a refresh: while it answers from its cache, as @octokit/auth-app documents, the
    retry carries the very token that was refused. *)
Theorem installation_tokens_are_fresh {X A} db now skew mint (issued : X -> list (Z * InstallationToken)) id w :
  handsOutIssued mint issued -> rowsIssued issued w ->
  (forall r w', getInstallationToken db now skew mint id w = (r, w') ->
     rowsIssued issued w' /\ (forall i, i <> id -> tw_rows w' !! i = tw_rows w !! i) /\
     (forall t, r = Ok t -> allows db id = true /\ (id, t) ∈ issued (tw_rest w') /\
        (usable now skew t w /\ w' = w \/ mint id (tw_rest w) = (Ok t, tw_rest w')))) /\
  (forall (request : str -> eff (TokenWorld X) thrown A) m shown resp,
     allows db id = true ->
     build401RetryHandler db now skew mint id request (Object m (Status 401) resp shown) w =
       match mint id (tw_rest w) with
       | (Ok t, x') => request ("token " ++ token t)
           (Build_TokenWorld (<[id := {| row_token := t; row_updatedAt := now x' |}]> (tw_rows w)) x')
       | (Throw e, x') => (Throw e, Build_TokenWorld (delete id (tw_rows w)) x')
       end) /\
  (forall (request : str -> eff (TokenWorld X) thrown A) err,
     (forall m resp shown, err <> Object m (Status 401) resp shown) ->
     build401RetryHandler db now skew mint id request err w = (Throw err, w)) /\
  (forall (request : str -> eff (TokenWorld X) thrown A) m shown resp t x',
     allows db id = true -> tw_rows w !! id = None ->
     mint id (tw_rest w) = (Ok t, x') -> mint id x' = (Ok t, x') ->
     exists w', getInstallationToken db now skew mint id w = (Ok t, w') /\
       build401RetryHandler db now skew mint id request (Object m (Status 401) resp shown) w' =
         request ("token " ++ token t) w').
Proof.
  intros Hh Hw. split_and!; [|intros; by apply build401RetryHandler_401| |].
  - intros r w' H.
    destruct (getInstallationToken_cases _ _ _ _ _ _ _ _ H)
      as [(t & u & -> & -> & Ha & Hu & Hrow)|(_ & [(e & x' & Hm & -> & ->)|(t & x' & Hm & Hcase)])].
    + split_and!; [done|done|]. intros t' [= <-]. split_and!; [done|by apply (Hw id _ Hrow)|by left].
    + split_and!; [by eapply rowsIssued_mint|done|done].
    + pose proof (rowsIssued_mint _ _ _ _ _ _ Hh Hm Hw) as Hold. pose proof (proj2 (Hh _ _ _ _ Hm) t eq_refl) as Ht.
      destruct Hcase as [(Ha & -> & ->)|(Ha & -> & ->)]; cbn.
      * split_and!; [by apply map_Forall_insert_2|intros i Hi; by rewrite lookup_insert_ne by done|].
        intros t' [= <-]. split_and!; [done|done|by right].
      * split_and!; [done|done|done].
  - intros request err Herr. unfold build401RetryHandler.
    destruct err as [| m [|n|] resp shown| |]; try done. destruct (decide (n = 401%Z)) as [->|Hne]; [by edestruct Herr|].
    destruct n as [|p|p]; try done. repeat (destruct p as [p|p|]; try done).
  - intros request m shown resp t x' Ha Hrow Hm Hcached. eexists. split.
    + rewrite (getInstallationToken_fresh db now skew mint id w x' t); [by rewrite Ha| |done].
      unfold readCached, mbind, eff_bind, get. by rewrite Ha, Hrow.
    + rewrite build401RetryHandler_401 by done. cbn [tw_rest tw_rows]. by rewrite Hcached, insert_insert_eq.
Qed.

(** A platform that issues one token an installation and answers from its cache afterwards. *)
Definition demoToken : InstallationToken := {| token := "ghs_1"; expiresAt := 3600000 |}.
Definition demoMint (id : Z) : eff (list (Z * InstallationToken)) thrown InstallationToken := fun l =>
  (Ok demoToken, if existsb (fun e => (e.1 =? id)%Z && bool_decide (e.2 = demoToken)) l then l else l ++ [(id, demoToken)]).
Definition demoTenant (id : Z) : Connection := {| restricted := true; current_tenant := Some (showZ id) |}.

Lemma demoMint_issued : handsOutIssued demoMint id.
Proof.
  intros i l r l' [= <- <-]. cbn. destruct (existsb _ l) eqn:E; cbn.
  - split; [exists []; by rewrite app_nil_r|]. intros t [= <-].
    apply existsb_elem in E as ([j t] & Hin & E). cbn in E. apply andb_true_iff in E as [->%Z.eqb_eq ->%bool_decide_eq_true].
    exact Hin.
  - split; [by eexists|]. intros t [= <-]. apply elem_of_app. right. by left.
Qed.

(** The refused token is sent again. *)
Lemma installation_tokens_are_fresh_witness :
  let w := Build_TokenWorld ∅ [] in
  exists w', getInstallationToken (demoTenant 7) (fun _ => 0%Z) 0 demoMint 7 w = (Ok demoToken, w') /\
    build401RetryHandler (demoTenant 7) (fun _ => 0%Z) 0 demoMint 7 mret (Object None (Status 401) None []) w' =
      (Ok (js "token ghs_1"), w').
Proof.
  refine (proj2 (proj2 (proj2 (installation_tokens_are_fresh (demoTenant 7) (fun _ => 0%Z) 0 demoMint id 7
    (Build_TokenWorld ∅ []) demoMint_issued (map_Forall_empty _)))) mret None [] None demoToken [(7%Z, demoToken)] _ _ _ _);
    vm_compute; reflexivity.
Defined.
