(* ===== verification/Action.v ===== *)
(** * The GitHub Action (action/src/inputs.ts, action/src/run.ts, runner/src/coordination.ts,
    config/src/known-bots.ts)

    One run of the Action: inputs, configuration, the reasons to skip, the deferral to another bot,
    the choice of the diff, the skills, the review of Agent.v, and the two writes with their
    retries. The platform is a record of operations over a world [W]; so are the clock, the log and
    the file reader. *)

From S2P Require Import Prelude JsNumber NumberText JsMap JsonTree Codec Config ConfigLoad.
From S2P Require Import Review Glob Errors Retry Schema Untrusted AutoFetch SystemPrompt Dedup SkillLoader.
From S2P Require Import Incremental Regex Runner Agent EvalRecorder AgentFrame AgentSpec.

(** ** Inputs *)

Record RawInputs := {
  raw_githubToken : option str;
  raw_anthropicApiKey : option str;
  raw_language : option str;
  raw_configPath : option str;
  raw_costCapUsd : option str;
  raw_stateWriteRetries : option str;
}.

Record ActionInputs := {
  in_githubToken : str;
  in_anthropicApiKey : option str;
  inputs_language : str;
  in_configPath : str;
  in_costCapUsd : number;
  in_stateWriteRetries : Z;
}.

Inductive InputError := NoToken | BadLanguage (value : str) | BadCostCap (value : str) | BadRetries (value : str).

(** [raw?.trim() || d] *)
Definition trimmedOr (raw : option str) (d : str) : str := default d (truthyStr (trim <$> raw)).

Definition parseInputs (raw : RawInputs) : result InputError ActionInputs :=
  match default [] (trim <$> raw_githubToken raw) with
  | [] => Throw NoToken
  | githubToken =>
      let language := trimmedOr (raw_language raw) "en-US" in
      if negb (isSupportedLanguage language) then Throw (BadLanguage language)
      else
        let costCapRaw := trimmedOr (raw_costCapUsd raw) "1.0" in
        let costCap := parseFloat costCapRaw in
        if negb (isFinite costCap) || nle costCap zero then Throw (BadCostCap costCapRaw)
        else
          let retriesRaw := trimmedOr (raw_stateWriteRetries raw) "3" in
          match parseInt retriesRaw with
          | None => Throw (BadRetries retriesRaw)
          | Some n =>
              if (n <? 0)%Z || (5 <? n)%Z || negb (forallb is_digit retriesRaw && bool_decide (retriesRaw <> []))
              then Throw (BadRetries retriesRaw)
              else Ok {| in_githubToken := githubToken;
                         in_anthropicApiKey := truthyStr (trim <$> raw_anthropicApiKey raw);
                         inputs_language := language;
                         in_configPath := trimmedOr (raw_configPath raw) ".review-agent.yml";
                         in_costCapUsd := costCap; in_stateWriteRetries := n |}
          end
  end.

(** ** Coordination *)

Definition KNOWN_REVIEW_BOT_LOGINS : list str :=
  [js "coderabbitai[bot]"; js "qodo-merge[bot]"; js "pr-agent-bot[bot]"; js "bedrock-pr-reviewer[bot]"].

Definition isKnownReviewBotLogin (login : str) : bool := bool_decide (login ∈ KNOWN_REVIEW_BOT_LOGINS).

Inductive CoordinationDecision := Proceed | Defer (bot : str).

Definition decideCoordination (mode : str) (botLogins existingCommentAuthors : list str)
    : CoordinationDecision :=
  if bool_decide (mode = js "ignore") then Proceed
  else match List.find (fun a => bool_decide (a ∈ botLogins)) existingCommentAuthors with
       | Some bot => Defer bot
       | None => Proceed
       end.

(** [emDash] stands for the dash, a character outside the model's range. *)
Definition renderDeferralSummary (emDash bot : str) : str :=
  join nl ["### review-agent " ++ emDash ++ " skipped"; [];
    "Detected an existing review by `" ++ bot ++ "`. `coordination.other_bots` is set to `defer_if_present`, so this run will not post additional comments.";
    [];
    "To override, set `coordination.other_bots: ignore` in `.review-agent.yml` (or remove the key entirely "
      ++ emDash ++ " `ignore` is the default)."].

(** ** The platform *)

Record PR := {
  pr_title : str;
  pr_body : str;
  pr_author : str;
  pr_draft : bool;
  pr_baseRef : str;
  pr_labels : list str;
  pr_commitMessages : list UntrustedCommit;
  pr_baseSha : str;
  pr_headSha : str;
}.

Record PatchFile := { pf_path : str; pf_patch : option str }.

Record ReviewPayload := {
  rp_comments : list InlineComment;
  rp_summary : str;
  rp_state : ReviewState;
  rp_event : ReviewEvent;
}.

Record VCS (W : Type) := {
  getPR : eff W thrown PR;
  getCommentAuthors : eff W thrown (list str);
  postSummary : str -> eff W thrown unit;
  vcs_getState : eff W thrown (option ReviewState);
  getDiff : option str -> eff W thrown (list PatchFile);
  postReview : ReviewPayload -> eff W thrown unit;
  vcs_upsertState : ReviewState -> eff W thrown unit;
}.
Arguments getPR {W} _.
Arguments getCommentAuthors {W} _.
Arguments postSummary {W} _ _.
Arguments vcs_getState {W} _.
Arguments getDiff {W} _ _.
Arguments postReview {W} _ _.
Arguments vcs_upsertState {W} _ _.

Record ActionDeps (W : Type) := {
  ad_vcs : VCS W;
  ad_readFile : str -> eff W thrown str;
  ad_provider : Config.Config -> LlmProvider W;
  ad_strategy : option ReviewState -> PrHeads -> eff W thrown DiffStrategy;
  ad_log : str -> eff W thrown unit;
  ad_sleep : Z -> eff W thrown unit;
  ad_clock : eff W thrown Z;
  ad_isoNow : eff W thrown str;
  ad_env : EnvOverrides;
  ad_serverUrl : option str;
  ad_cwd : str;
}.
Arguments ad_vcs {W} _.
Arguments ad_readFile {W} _ _.
Arguments ad_provider {W} _ _.
Arguments ad_strategy {W} _ _ _.
Arguments ad_log {W} _ _.
Arguments ad_sleep {W} _ _.
Arguments ad_clock {W} _.
Arguments ad_isoNow {W} _.
Arguments ad_env {W} _.
Arguments ad_serverUrl {W} _.
Arguments ad_cwd {W} _.

Record ActionResult := {
  skipped : bool;
  skipReason : option str;
  postedComments : nat;
  ar_costUsd : number;
}.

Definition noRun (reason : str) : ActionResult :=
  {| skipped := true; skipReason := Some reason; postedComments := 0; ar_costUsd := zero |}.

(** ** The run *)

Definition category_str (c : Category) : str :=
  match c with
  | bug => "bug" | security => "security" | performance => "performance"
  | maintainability => "maintainability" | style => "style" | docs => "docs" | test => "test"
  end.

Definition countOf (n : number) : Z := default 0%Z (integerOf n).

Definition jobInstruction (p : Config.PathInstruction) : AutoFetch.PathInstruction :=
  {| pi_pattern := pi_path p; pi_text := pi_instructions p;
     pi_autoFetch := (fun a => {| cfg_tests := Some (af_tests a); cfg_types := Some (af_types a);
                                  cfg_siblings := Some (af_siblings a) |}) <$> Config.auto_fetch p |}.

Definition jobRuleset (r : jsmap RulesetCategory) (c : Category) : option RulesetEntry :=
  (fun e => {| enabled := rc_enabled e; min_severity := rc_min_severity e |}) <$> mapGet (category_str c) r.

Section run.
Context {W : Type} (P : Platform) (emDash : str) (isUrl compiles : str -> bool)
  (parseYaml : str -> option json) (configThrown : LoadError -> thrown) (skillThrown : SkillError -> thrown)
  (isAbsolute : str -> bool) (pathResolve pathJoin : str -> str -> str)
  (owner repo : str) (number : Z) (inputs : ActionInputs) (deps : ActionDeps W).

Let vcs := ad_vcs deps.

(** [if (env.X) overrides.X = env.X] for each variable. *)
Definition envOverrides (env : EnvOverrides) : EnvOverrides :=
  {| REVIEW_AGENT_LANGUAGE := truthyStr (REVIEW_AGENT_LANGUAGE env);
     REVIEW_AGENT_PROVIDER := truthyStr (REVIEW_AGENT_PROVIDER env);
     REVIEW_AGENT_MODEL := truthyStr (REVIEW_AGENT_MODEL env);
     REVIEW_AGENT_MAX_USD_PER_PR := truthyStr (REVIEW_AGENT_MAX_USD_PER_PR env);
     REVIEW_AGENT_MAX_STEPS := truthyStr (REVIEW_AGENT_MAX_STEPS env) |}.

Definition loadConfigOrDefault : eff W thrown Config.Config :=
  repoYaml ← tryCatch (t ← ad_readFile deps (in_configPath inputs); mret (Some t)) (fun _ => mret None);
  match resolveEffectiveConfig isUrl compiles parseYaml repoYaml None (envOverrides (ad_env deps)) with
  | Ok (c, _) => mret c
  | Throw e => throw (configThrown e)
  end.

Definition decideSkip (pr : PR) (config : Config.Config) : option str :=
  if pr_draft pr && negb (drafts (auto_review (reviews config)))
  then Some (js "PR is in draft state and config.reviews.auto_review.drafts=false")
  else if bool_decide (pr_author pr ∈ ignore_authors (reviews config))
  then Some ("Author '" ++ pr_author pr ++ "' is in ignore_authors")
  else None.

Definition decideCoordinationForRun (config : Config.Config) : eff W thrown CoordinationDecision :=
  let c := Config.coordination config in
  if bool_decide (other_bots c = js "ignore") then mret Proceed
  else
    authors ← getCommentAuthors vcs;
    mret (decideCoordination (other_bots c)
            (KNOWN_REVIEW_BOT_LOGINS ++ other_bots_logins c) authors).

Definition inferGithubHost (serverUrl : option str) : str :=
  match truthyStr serverUrl with
  | None => js "github.com"
  | Some u => match parseURL P u with Some url => url_host url | None => js "github.com" end
  end.

Definition diffTextOf (files : list PatchFile) : str :=
  join nl (map (fun f => "--- " ++ pf_path f ++ nl ++ default [] (pf_patch f)) files).

Definition buildJob (config : Config.Config) (pr : PR) (previous : option ReviewState)
    (since : option str) (files : list PatchFile) (skillBlock : str) : ReviewJob :=
  {| jobId := owner ++ "/" ++ repo ++ "#" ++ showZ number;
     workspaceDir := ad_cwd deps;
     diffText := diffTextOf files;
     changedPaths := Some (map pf_path files);
     prMetadata := {| title := pr_title pr; um_body := pr_body pr; author := pr_author pr;
                      baseRef := Some (pr_baseRef pr); labels := Some (pr_labels pr);
                      commitMessages := Some (pr_commitMessages pr) |};
     previousState := previous;
     profile := Config.profile config;
     pathInstructions := map jobInstruction (Config.path_instructions (reviews config));
     skills := match skillBlock with [] => [] | _ => [skillBlock] end;
     language := Config.language config;
     costCapUsd := in_costCapUsd inputs;
     incrementalContext := bool_decide (is_Some since);
     incrementalSinceSha := since;
     minConfidence := Some (min_confidence (reviews config));
     requestChangesOn := Some (request_changes_on (reviews config));
     pathFilters := path_filters (reviews config);
     job_maxFiles := countOf (max_files (reviews config));
     job_maxDiffLines := countOf (max_diff_lines (reviews config));
     privacy := {| allowedUrlPrefixes := allowed_url_prefixes (Config.privacy config);
                   denyPaths := deny_paths (Config.privacy config);
                   redactPatterns := redact_patterns (Config.privacy config) |};
     job_prRepo := {| host := inferGithubHost (ad_serverUrl deps); Schema.owner := owner; Schema.repo := repo |};
     ruleset := Some (jobRuleset (Config.ruleset config));
     resolutionLog := None;
     maxSteps := Some (countOf (max_steps (reviews config))) |}.

(** [withRetry] of the Action's own module, with its log lines. *)
Definition retried {A} (fn : eff W thrown A) (label : str) : eff W thrown A :=
  actionWithRetry fn (ad_sleep deps) (Some (fun _ _ _ => ad_log deps "retry"))
    (in_stateWriteRetries inputs + 1) label None None.

Definition stateWriteError : str :=
  "State comment write failed after " ++ showZ (in_stateWriteRetries inputs)
  ++ " retries; next review will be a full re-review.".

Definition postOrUpdate (pr : PR) (result : RunnerResult) (previous : option ReviewState) : eff W thrown unit :=
  now ← ad_isoNow deps;
  let state := buildReviewState now
    {| bs_previousState := previous; bs_comments := rr_comments result; bs_headSha := pr_headSha pr;
       bs_baseSha := pr_baseSha pr; bs_modelUsed := rr_model result;
       bs_tokensUsed := tok_input (rr_tokensUsed result) + tok_output (rr_tokensUsed result);
       bs_costUsd := rr_costUsd result |} in
  retried (postReview vcs {| rp_comments := rr_comments result; rp_summary := rr_summary result;
                             rp_state := state; rp_event := reviewEvent result |}) "vcs.postReview";;
  tryCatch (retried (vcs_upsertState vcs state) "vcs.upsertStateComment")
    (fun err => ad_log deps stateWriteError;; throw (Object (Some stateWriteError) NoStatus None [])).

Definition liftSkills {A} (r : result SkillError A) : eff W thrown A :=
  match r with Ok a => mret a | Throw e => throw (skillThrown e) end.

Definition reviewRun (config : Config.Config) (pr : PR) : eff W thrown ActionResult :=
  let provider := ad_provider deps config in
  previous ← vcs_getState vcs;
  strategy ← ad_strategy deps previous {| cur_baseSha := pr_baseSha pr; cur_headSha := pr_headSha pr |};
  let since := match strategy with Since sha => Some sha | Full => None end in
  match previous, since with
  | Some _, None => ad_log deps "rebase detected"
  | _, Some _ => ad_log deps "incremental review"
  | None, None => mret tt
  end;;
  files ← getDiff vcs since;
  loaded ← loadSkills skillThrown isAbsolute pathResolve pathJoin (ad_readFile deps) "." (Config.skills config);
  skillBlock ← liftSkills (renderSkillsBlock loaded (map pf_path files));
  result ← runReview P (buildJob config pr previous since files skillBlock) provider
noDeps
             {| now := ad_clock deps; evalRecorder := None; onEvalRecordError := None |};
  postOrUpdate pr result previous;;
  mret {| skipped := false; skipReason := None; postedComments := length (rr_comments result);
          ar_costUsd := rr_costUsd result |}.

Definition runAction : eff W thrown ActionResult :=
  config ← loadConfigOrDefault;
  pr ← getPR vcs;
  match decideSkip pr config with
  | Some reason => mret (noRun reason)
  | None =>
      coordination ← decideCoordinationForRun config;
      match coordination with
      | Defer bot =>
          postSummary vcs (renderDeferralSummary emDash bot);;
          mret (noRun ("Deferred to '" ++ bot ++ "' (coordination policy)"))
      | Proceed => reviewRun config pr
      end
  end.
End run.

(** ** Inputs that are accepted *)

Lemma parseInputs_Ok raw i : parseInputs raw = Ok i ->
  in_githubToken i <> [] /\ inputs_language i ∈ map js SUPPORTED_LANGUAGES /\
  positive_wf (in_costCapUsd i) /\ (0 <= in_stateWriteRetries i <= 5)%Z.
Proof.
  unfold parseInputs. destruct (default [] _) as [|c token]; [done|]. cbv zeta.
  destruct (isSupportedLanguage _) eqn:El; [|done]. cbn [negb].
  generalize (parseFloat (trimmedOr (raw_costCapUsd raw) "1.0")) as cap. intros cap.
  destruct (isFinite cap) eqn:Ef; [|done]. cbn [negb orb].
  destruct (nle cap zero) eqn:Ec; [done|].
  destruct (parseInt _) as [n|]; [|done]. destruct (_ || _ || _) eqn:En; [done|]. intros [= <-].
  cbn [in_githubToken inputs_language in_costCapUsd in_stateWriteRetries].
  unfold isSupportedLanguage in El. to_prop. split_and!; [done|done| |done|done].
  assert (is_nan cap = false) as Hn by (by destruct cap). split; [done|].
  destruct (ngt cap zero) eqn:Eg; [done|]. by rewrite ngt_false_nle in Ec.
Qed.

(** ** What a run writes *)

Inductive Write := PostedSummary (text : str) | PostedReview (p : ReviewPayload) | WroteState (st : ReviewState).

(** A write either happens and is recorded or fails and leaves no trace. *)
Definition records {W} (trace : W -> list Write) (m : eff W thrown unit) (x : Write) : Prop :=
  forall w, match m w with
            | (Ok _, w') => trace w' = trace w ++ [x]
            | (Throw _, w') => trace w' = trace w
            end.

(** What the platform, the clock, the provider and the strategy promise: reads keep the trace. *)
Class Traced {W} (deps : ActionDeps W) (trace : W -> list Write) : Prop := {
  tr_getPR : keeps trace (getPR (ad_vcs deps));
  tr_authors : keeps trace (getCommentAuthors (ad_vcs deps));
  tr_state : keeps trace (vcs_getState (ad_vcs deps));
  tr_diff : forall since, keeps trace (getDiff (ad_vcs deps) since);
  tr_read : forall path, keeps trace (ad_readFile deps path);
  tr_strategy : forall st heads, keeps trace (ad_strategy deps st heads);
  tr_log : forall m, keeps trace (ad_log deps m);
  tr_sleep : forall ms, keeps trace (ad_sleep deps ms);
  tr_clock : keeps trace (ad_clock deps);
  tr_isoNow : keeps trace (ad_isoNow deps);
  tr_generate : forall c input w, trace (generateReview (ad_provider deps c) input w).2 = trace w;
  tr_estimate : forall c input, keeps trace (estimateCost (ad_provider deps c) input);
  tr_summary : forall text, records trace (postSummary (ad_vcs deps) text) (PostedSummary text);
  tr_review : forall p, records trace (postReview (ad_vcs deps) p) (PostedReview p);
  tr_upsert : forall st, records trace (vcs_upsertState (ad_vcs deps) st) (WroteState st);
}.
#[export] Hint Resolve tr_getPR tr_authors tr_state tr_diff tr_read tr_strategy tr_log tr_sleep tr_clock
  tr_isoNow tr_estimate : keeps.

Section writes.
Context {W : Type} (P : Platform) (emDash : str) (isUrl compiles : str -> bool)
  (parseYaml : str -> option json) (configThrown : LoadError -> thrown) (skillThrown : SkillError -> thrown)
  (isAbsolute : str -> bool) (pathResolve pathJoin : str -> str -> str)
  (owner repo : str) (number : Z) (inputs : ActionInputs) (deps : ActionDeps W).
Context (trace : W -> list Write) `{HT : !Traced deps trace}.

(** A retried write happens at most once. *)
Lemma retryFrom_records (fn : eff W thrown unit) x classify sleep later attempt :
  records trace fn x -> (forall e n, keeps trace (classify e n)) -> (forall d : Z, keeps trace (sleep d)) ->
  records trace (retryFrom fn classify sleep later attempt) x.
Proof.
  intros Hf Hc Hs. revert attempt. induction later as [|later IH]; intros attempt w; cbn [retryFrom];
    unfold tryCatch; specialize (Hf w); destruct (fn w) as [[a|e] w1]; try done;
    unfold mbind, eff_bind; specialize (Hc e attempt w1);
    destruct (classify e attempt w1) as [[[[e'|]|ms]|e'] w2]; cbn in Hc |- *; try congruence.
  specialize (Hs ms w2). destruct (sleep ms w2) as [[[]|e'] w3]; cbn in Hs |- *; [|congruence].
  specialize (IH (S attempt) w3).
  destruct (retryFrom _ _ _ _ _ w3) as [[a|e'] w4]; congruence.
Qed.

Lemma retried_records (fn : eff W thrown unit) x label :
  records trace fn x -> records trace (retried inputs deps fn label) x.
Proof.
  intros Hf. unfold retried, actionWithRetry. destruct (_ <=? 0)%Z; [by intros w|].
  unfold withRetry. apply retryFrom_records; [done| |intros d; apply tr_sleep].
  intros e n. unfold actionClassify. pose proof (tr_log (deps := deps) (trace := trace)). solve_keeps.
Qed.

Lemma loadSkills_keeps root refs :
  keeps trace (loadSkills skillThrown isAbsolute pathResolve pathJoin (ad_readFile deps) root refs).
Proof.
  induction refs as [|r refs IH]; cbn [loadSkills]; [apply keeps_ret|].
  unfold loadSkill, SkillLoader.liftSkill. pose proof (tr_read (deps := deps) (trace := trace)). solve_keeps.
Qed.

Lemma loadConfig_keeps :
  keeps trace (loadConfigOrDefault isUrl compiles parseYaml configThrown inputs deps).
Proof.
  unfold loadConfigOrDefault. pose proof (tr_read (deps := deps) (trace := trace)). solve_keeps.
Qed.

(** The two writes of a review: its post, then the state it carries. *)
Definition reviewWritten (pr : PR) (n : nat) (l : list Write) : Prop :=
  exists p, l = [PostedReview p; WroteState (rp_state p)] /\ n = length (rp_comments p) /\
    lastReviewedSha (rp_state p) = pr_headSha pr /\ baseSha (rp_state p) = pr_baseSha pr.

(** The post alone, before a state that could not be written. *)
Definition reviewPosted (pr : PR) (l : list Write) : Prop :=
  exists p, l = [PostedReview p] /\
    lastReviewedSha (rp_state p) = pr_headSha pr /\ baseSha (rp_state p) = pr_baseSha pr.

Lemma postOrUpdate_writes pr result previous w :
  match postOrUpdate inputs deps pr result previous w with
  | (Ok _, w') => exists l, trace w' = trace w ++ l /\ reviewWritten pr (length (rr_comments result)) l
  | (Throw _, w') => trace w' = trace w \/ exists l, trace w' = trace w ++ l /\ reviewPosted pr l
  end.
Proof.
  unfold postOrUpdate. unfold mbind at 1, eff_bind at 1.
  pose proof (tr_isoNow (deps := deps) (trace := trace) w) as Hn.
  destruct (ad_isoNow deps w) as [[iso|e] w1]; cbn in Hn; [|by left].
  set (st := buildReviewState _ _). cbv zeta.
  set (p := {| rp_comments := _ |}).
  unfold mbind at 1, eff_bind at 1.
  pose proof (retried_records _ _ "vcs.postReview" (tr_review (deps := deps) (trace := trace) p) w1) as Hp.
  destruct (retried _ _ (postReview _ p) _ w1) as [[[]|e] w2]; [|left; congruence].
  unfold tryCatch.
  pose proof (retried_records _ _ "vcs.upsertStateComment" (tr_upsert (deps := deps) (trace := trace) st) w2) as Hu.
  destruct (retried _ _ (vcs_upsertState _ st) _ w2) as [[[]|e] w3].
  - exists [PostedReview p; WroteState st]. split; [rewrite Hu, Hp, Hn, <- app_assoc; done|].
    by exists p.
  - unfold mbind, eff_bind. pose proof (tr_log (deps := deps) (trace := trace) (stateWriteError inputs) w3) as Hl.
    destruct (ad_log _ _ w3) as [[[]|e'] w4]; cbn in Hl |- *; right; exists [PostedReview p];
      (split; [congruence|by exists p]).
Qed.

Lemma reviewRun_writes config pr w :
  match reviewRun P skillThrown isAbsolute pathResolve pathJoin owner repo number inputs deps config pr w with
  | (Ok r, w') => skipped r = false /\
      exists l, trace w' = trace w ++ l /\ reviewWritten pr (postedComments r) l
  | (Throw _, w') => trace w' = trace w \/ exists l, trace w' = trace w ++ l /\ reviewPosted pr l
  end.
Proof.
  unfold reviewRun. cbv zeta.
  (* every step before the writes keeps the trace *)
  assert (forall A B (m : eff W thrown A) (k : A -> eff W thrown B) (Q : result thrown B * W -> Prop) w0,
    keeps trace m ->
    (forall a w1, trace w1 = trace w0 -> Q (k a w1)) ->
    (forall e w1, trace w1 = trace w0 -> Q (Throw e, w1)) -> Q ((m ≫= k) w0)) as step.
  { intros A B m k Q w0 Hm Hk He. unfold mbind, eff_bind. specialize (Hm w0).
    destruct (m w0) as [[a|e] w1]; auto. }
  refine (step _ _ _ _ (fun rw => match rw with (Ok r, w') => _ | (Throw _, w') => _ end) w tr_state _ _);
    [|by intros e w1 ->; left]. intros previous w1 <-.
  refine (step _ _ _ _ (fun rw => match rw with (Ok r, w') => _ | (Throw _, w') => _ end) w1 (tr_strategy _ _) _ _);
    [|by intros e w2 ->; left]. intros strategy w2 <-.
  refine (step _ _ _ _ (fun rw => match rw with (Ok r, w') => _ | (Throw _, w') => _ end) w2 _ _ _);
    [pose proof tr_log; destruct previous, strategy; solve_keeps| |by intros e w3 ->; left]. intros _ w3 <-.
  refine (step _ _ _ _ (fun rw => match rw with (Ok r, w') => _ | (Throw _, w') => _ end) w3 (tr_diff _) _ _);
    [|by intros e w4 ->; left]. intros files w4 <-.
  refine (step _ _ _ _ (fun rw => match rw with (Ok r, w') => _ | (Throw _, w') => _ end) w4 (loadSkills_keeps _ _) _ _);
    [|by intros e w5 ->; left]. intros loaded w5 <-.
  refine (step _ _ _ _ (fun rw => match rw with (Ok r, w') => _ | (Throw _, w') => _ end) w5 _ _ _);
    [unfold liftSkills; solve_keeps| |by intros e w6 ->; left]. intros block w6 <-.
  refine (step _ _ _ _ (fun rw => match rw with (Ok r, w') => _ | (Throw _, w') => _ end) w6
    (runReview_keeps trace P _ _ (tr_generate config) (tr_estimate config) _ tr_clock) _ _);
    [|by intros e w7 ->; left]. intros result w7 <-.
  pose proof (postOrUpdate_writes pr result previous w7) as Hp. unfold mbind, eff_bind.
  destruct (postOrUpdate _ _ _ _ _ w7) as [[[]|e] w8]; [|done]. cbn. by split.
Qed.
End writes.

Section aside.
Context {W : Type} (deps : ActionDeps W).

(** *** Why a run does not review *)

(** A draft when drafts are off, or an author on the list. *)
Definition setAside (config : Config.Config) (pr : PR) : Prop :=
  (pr_draft pr = true /\ drafts (auto_review (reviews config)) = false) \/
  pr_author pr ∈ ignore_authors (reviews config).

Definition isReviewBot (config : Config.Config) (login : str) : Prop :=
  login ∈ KNOWN_REVIEW_BOT_LOGINS \/ login ∈ other_bots_logins (Config.coordination config).

(** The bot the run makes way for: the first author of a comment that is one, when the
    configuration does not ignore other bots. *)
Definition makesWayFor (config : Config.Config) (w : W) (bot : str) : Prop :=
  other_bots (Config.coordination config) <> js "ignore" /\
  exists before after w', getCommentAuthors (ad_vcs deps) w = (Ok (before ++ bot :: after), w') /\
    isReviewBot config bot /\ Forall (fun a => ~ isReviewBot config a) before.

Lemma decideSkip_iff pr config : decideSkip pr config = None <-> ~ setAside config pr.
Proof.
  unfold decideSkip, setAside. destruct (pr_draft pr); cbn [andb].
  - destruct (drafts _) eqn:E; cbn [negb].
    + case_bool_decide; [|naive_solver]. split; [done|]. intros H'. destruct H'. by right.
    + split; [done|]. intros H. destruct H. by left.
  - case_bool_decide; [|naive_solver]. split; [done|]. intros H'. destruct H'. by right.
Qed.

Lemma decideSkip_Some pr config reason : decideSkip pr config = Some reason -> setAside config pr.
Proof.
  unfold decideSkip, setAside. destruct (pr_draft pr), (drafts _); cbn [andb negb];
    (case_bool_decide; [by right|]) || (by left); done.
Qed.

Lemma find_first {A} (f : A -> bool) l x :
  List.find f l = Some x <->
  exists before after, l = before ++ x :: after /\ f x = true /\ Forall (fun a => f a = false) before.
Proof.
  induction l as [|y l IH]; cbn; [split; [done|]; by intros ([] & ? & ? & _)|].
  destruct (f y) eqn:E.
  - split.
    + intros [= ->]. by exists [], l.
    + intros ([|z b] & a & [= -> ->] & Hx & Hb); [done|]. apply Forall_cons in Hb as [Hb _]. congruence.
  - rewrite IH. split.
    + intros (b & a & -> & Hx & Hb). exists (y :: b), a. split_and!; [done..|by constructor].
    + intros ([|z b] & a & [= -> ->] & Hx & Hb); [congruence|]. apply Forall_cons in Hb as [_ Hb]. eauto.
Qed.

(** The decision about other bots. *)
Lemma coordination_makesWay config w d w' :
  decideCoordinationForRun deps config w = (Ok d, w') ->
  match d with
  | Defer bot => makesWayFor config w bot
  | Proceed => forall bot, ~ makesWayFor config w bot
  end.
Proof.
  unfold decideCoordinationForRun, makesWayFor, isReviewBot. case_bool_decide as Hi.
  { intros [= <- <-] bot [? _]. done. }
  rewrite bind_Ok. intros (authors & w1 & Ha & [= <- <-]). unfold decideCoordination.
  rewrite bool_decide_false by done.
  destruct (List.find _ authors) as [bot|] eqn:E.
  - apply find_first in E as (b & a & -> & Hb & Hf). to_prop. split; [done|]. exists b, a, w1.
    split_and!; [done|by apply elem_of_app|]. eapply Forall_impl; [exact Hf|]. cbv beta.
    intros x Hx. to_prop. by rewrite <- elem_of_app.
  - intros bot (_ & b & a & w2 & Ha' & Hb & Hf). rewrite Ha in Ha'. injection Ha' as -> <-.
    assert (List.In bot (b ++ bot :: a)) as Hin by (apply list_elem_of_In; set_solver).
    pose proof (List.find_none _ _ E bot Hin) as Hn. cbv beta in Hn.
    apply bool_decide_eq_false in Hn. destruct Hn. by apply (elem_of_app KNOWN_REVIEW_BOT_LOGINS).
Qed.
End aside.

(** C3. One run of the Action writes, in this order and no more than once each: nothing when the pull
    request the platform returned is a draft the configuration leaves out or its author is on the
    ignore list; the deferral note, naming the bot, when the configuration minds other bots and
    one of them has commented; in every other case the review and then the state the review
    carries, whose head and base are those of that pull request. A run that fails has written
    nothing, or, when neither reason to stand aside held, the review without its state. *)
Theorem action_writes {W} (P : Platform) (emDash : str) (isUrl compiles : str -> bool)
    (parseYaml : str -> option json) (configThrown : LoadError -> thrown)
    (skillThrown : SkillError -> thrown) (isAbsolute : str -> bool) (pathResolve pathJoin : str -> str -> str)
    (owner repo : str) (number : Z) (inputs : ActionInputs) (deps : ActionDeps W)
    (trace : W -> list Write) (HT : Traced deps trace) (w : W) :
  let ran := runAction P emDash isUrl compiles parseYaml configThrown skillThrown isAbsolute pathResolve
               pathJoin owner repo number inputs deps w in
  (exists e, ran.1 = Throw e /\ trace ran.2 = trace w /\
     forall config w1 pr w2,
       loadConfigOrDefault isUrl compiles parseYaml configThrown inputs deps w = (Ok config, w1) ->
       getPR (ad_vcs deps) w1 = (Ok pr, w2) -> ~ setAside config pr) \/
  exists config w1 pr w2 l,
    loadConfigOrDefault isUrl compiles parseYaml configThrown inputs deps w = (Ok config, w1) /\
    getPR (ad_vcs deps) w1 = (Ok pr, w2) /\ trace ran.2 = trace w ++ l /\
    ((setAside config pr /\ l = [] /\ exists r, ran.1 = Ok r /\ skipped r = true) \/
     (~ setAside config pr /\ exists bot, makesWayFor deps config w2 bot /\
        l = [PostedSummary (renderDeferralSummary emDash bot)] /\
        exists r, ran.1 = Ok r /\ skipped r = true) \/
     (~ setAside config pr /\ (forall bot, ~ makesWayFor deps config w2 bot) /\
        match ran.1 with
        | Ok r => skipped r = false /\ reviewWritten pr (postedComments r) l
        | Throw _ => reviewPosted pr l
        end)).
Proof.
  cbv zeta. unfold runAction, mbind, eff_bind.
  pose proof (loadConfig_keeps isUrl compiles parseYaml configThrown inputs deps trace w) as H1.
  destruct (loadConfigOrDefault _ _ _ _ _ _ w) as [[config|e] w1] eqn:E1; cbn in H1; [|left; by exists e].
  pose proof (tr_getPR w1) as H2.
  destruct (getPR _ w1) as [[pr|e] w2] eqn:E2; cbn in H2.
  2: { left. exists e. split_and!; [done|cbn; congruence|]. intros ? ? ? ? [= <- <-]. by rewrite E2. }
  destruct (decideSkip pr config) as [reason|] eqn:Hs.
  { right. exists config, w1, pr, w2, []. cbn. rewrite app_nil_r. split_and!; [done..|congruence|].
    left. split_and!; [|done|by eexists].
    by apply decideSkip_Some in Hs. }
  apply decideSkip_iff in Hs.
  assert (forall c v p x, (Ok config, w1) = (Ok (E := thrown) c, v) ->
    getPR (ad_vcs deps) v = (Ok p, x) -> ~ setAside c p) as Hns.
  { intros ? ? ? ? [= <- <-]. rewrite E2. by intros [= <- <-]. }
  assert (keeps trace (decideCoordinationForRun deps config)) as H3.
  { unfold decideCoordinationForRun. pose proof tr_authors. solve_keeps. }
  specialize (H3 w2). destruct (decideCoordinationForRun _ _ w2) as [[d|e] w3] eqn:E3; cbn in H3;
    [|left; exists e; split_and!; [done|cbn; congruence|done]].
  apply coordination_makesWay in E3. destruct d as [|bot].
  - pose proof (reviewRun_writes P skillThrown isAbsolute pathResolve pathJoin owner repo number inputs deps
      trace config pr w3) as Hr.
    destruct (reviewRun _ _ _ _ _ _ _ _ _ _ _ _ w3) as [[r|e] w4]; cbn [fst snd].
    + destruct Hr as (Hf & l & Hl & Hw). right. exists config, w1, pr, w2, l.
      split_and!; [done..|congruence|]. right. right. by split_and!.
    + destruct Hr as [Hr|(l & Hl & Hp)]; [left; exists e; split_and!; [done|congruence|done]|].
      right. exists config, w1, pr, w2, l. split_and!; [done..|congruence|]. right. right. by split_and!.
  - pose proof (tr_summary (renderDeferralSummary emDash bot) w3) as Hp.
    destruct (postSummary _ _ w3) as [[[]|e] w4]; cbn [fst snd];
      [|left; exists e; split_and!; [done|congruence|done]].
    right. eexists config, w1, pr, w2, _. split_and!; [done..|cbn; by rewrite Hp, H3, H2, H1|].
    right. left. split; [done|]. exists bot. split_and!; [done..|by eexists].
Qed.

(** ** A run on paper *)

Definition paperProvider : LlmProvider (list Write) :=
  {| pv_name := "paper"; pv_model := "model-1";
     generateReview := fun _ w => (demoOutcome 1, w);
     estimateCost := fun _ w => (Ok zero, w) |}.

Definition paperVCS (authors : list str) (stateFails : bool) : VCS (list Write) :=
  {| getPR := mret {| pr_title := "fix"; pr_body := []; pr_author := "ann"; pr_draft := false;
                      pr_baseRef := "main"; pr_labels := []; pr_commitMessages := [];
                      pr_baseSha := "b"; pr_headSha := "h" |};
     getCommentAuthors := mret authors;
     postSummary := fun t w => (Ok tt, w ++ [PostedSummary t]);
     vcs_getState := mret None;
     getDiff := fun _ => mret [{| pf_path := "a.ts"; pf_patch := Some (js "+x") |}];
     postReview := fun p w => (Ok tt, w ++ [PostedReview p]);
     vcs_upsertState := fun st w =>
       if stateFails then (Throw (StringValue []), w) else (Ok tt, w ++ [WroteState st]) |}.

Definition paperDeps (authors : list str) (stateFails : bool) : ActionDeps (list Write) :=
  {| ad_vcs := paperVCS authors stateFails;
     ad_readFile := fun _ => throw (StringValue "ENOENT");
     ad_provider := fun _ => paperProvider;
     ad_strategy := fun _ _ => mret Full;
     ad_log := fun _ => mret tt; ad_sleep := fun _ => mret tt; ad_clock := mret 0%Z; ad_isoNow := mret [];
     ad_env := {| REVIEW_AGENT_LANGUAGE := None; REVIEW_AGENT_PROVIDER := None; REVIEW_AGENT_MODEL := None;
                  REVIEW_AGENT_MAX_USD_PER_PR := None; REVIEW_AGENT_MAX_STEPS := None |};
     ad_serverUrl := None; ad_cwd := "/w" |}.

#[export] Instance paper_traced authors fails : Traced (paperDeps authors fails) (fun w => w).
Proof. split; try done. intros st w. cbn. by destruct fails. Qed.

Definition paperInputs : ActionInputs :=
  {| in_githubToken := "t"; in_anthropicApiKey := None; inputs_language := "en-US";
     in_configPath := ".review-agent.yml"; in_costCapUsd := lit_1_0; in_stateWriteRetries := 3 |}.

Definition paperRun (authors : list str) (stateFails : bool) : result thrown ActionResult * list Write :=
  runAction demoPlatform "--" (fun _ => true) (fun _ => true) (fun _ => None)
    (fun _ => StringValue "config") (fun _ => StringValue "skill") (fun _ => false)
    (fun a b => b) (fun a b => b) "o" "r" 7 paperInputs (paperDeps authors stateFails) [].

Lemma action_writes_witness : exists r w',
  paperRun [] false = (Ok r, w') /\ skipped r = false /\ length w' = 2 /\
  exists config pr l, getPR (paperVCS [] false) [] = (Ok pr, []) /\ w' = [] ++ l /\
    ~ setAside config pr /\ reviewWritten pr (postedComments r) l.
Proof.
  pose proof (action_writes demoPlatform "--" (fun _ => true) (fun _ => true) (fun _ => None)
    (fun _ => StringValue "config") (fun _ => StringValue "skill") (fun _ => false)
    (fun a b => b) (fun a b => b) "o" "r" 7 paperInputs (paperDeps [] false) (fun w => w)
    (paper_traced [] false) []) as H.
  cbv zeta in H.
  assert (exists r w', paperRun [] false = (Ok r, w') /\ skipped r = false /\ length w' = 2)
    as (r & w' & E & Hs & Hl) by (clear H; vm_compute; do 2 eexists; repeat split).
  exists r, w'. split; [exact E|]. split; [exact Hs|]. split; [exact Hl|].
  unfold paperRun in E. rewrite E in H.
  cbn [fst snd] in H. destruct H as [(e & [=] & _)|(config & w1 & pr & w2 & l & Hc & Hp & Ht & H)].
  exists config, pr, l.
  assert (w1 = []) as -> by (refine (eq_trans (eq_sym (f_equal snd Hc)) _); vm_compute; reflexivity).
  assert (w2 = []) as -> by (refine (eq_trans (eq_sym (f_equal snd Hp)) _); vm_compute; reflexivity).
  split; [exact Hp|]. split; [exact Ht|].
  destruct H as [(_ & _ & r' & [= <-] & Hr)|[(_ & bot & _ & _ & r' & [= <-] & Hr)|(Hn & _ & _ & Hw)]];
    [congruence..|by split].
Defined.

(** A state that cannot be written: the review was posted, the run fails. *)
Example paper_state_fails : exists e p, paperRun [] true = (Throw e, [PostedReview p]).
Proof. vm_compute. eauto. Qed.
