(* ===== verification/Codecommit.v ===== *)
(** * The CodeCommit receiver (server/src/handlers/codecommit-webhook.ts, server/src/app.ts,
    platform-codecommit/src/authz.ts, server/src/utils/namespace-delivery-id.ts)

    [handleCodecommitWebhook] on a verified SNS message, and the route that puts the signature
    check and the delivery table in front of it. The event inside the message is read like a
    GitHub payload: a member that is missing or of another type than the handler expects is
    [None]. *)

From Stdlib Require Import SpecFloat.
From S2P Require Import Prelude JsNumber NumberText JsonTree Errors Schema Commands Queue Webhook Sns.

(** ** Comma-separated lists *)

(** [raw.split(',').map(trim).filter(nonempty)], [] when unset or empty. *)
Definition parseAllowlist (raw : option str) : list str :=
  match truthyStr raw with
  | None => []
  | Some s => List.filter (fun x => bool_decide (x <> [])) (map trim (splitChar ","%char s))
  end.

(** [env] is the variable REVIEW_AGENT_FEEDBACK_ALLOWLIST of the process. *)
Definition checkCodeCommitFeedbackAuthz (env : option str) (principalId : str) (allowlistEnv : option str)
    : FeedbackAuthzResult :=
  let raw := match allowlistEnv with Some s => Some s | None => env end in
  let allowlist := parseAllowlist raw in
  match allowlist with
  | [] => Denied "REVIEW_AGENT_FEEDBACK_ALLOWLIST is unset; CodeCommit /feedback fail-closed"
  | _ =>
      match principalId with
      | [] => Denied "missing principalId on CodeCommit feedback event"
      | _ =>
          if bool_decide (principalId ∈ allowlist) then Allowed
          else Denied ("principal '" ++ principalId ++ "' is not on REVIEW_AGENT_FEEDBACK_ALLOWLIST")
      end
  end.

(** ** Numbers *)

Definition MAX_SAFE_INTEGER : Z := 9007199254740991.
Definition isSafe (n : Z) : bool := (Z.abs n <=? MAX_SAFE_INTEGER)%Z.

(** ** The event *)

Inductive PrId := PrNumber (n : number) | PrText (s : str).

Record CodecommitEvent := {
  ce_event : option str;
  pullRequestId : option PrId;
  repositoryName : option str;
  repositoryNames : list json;
  sourceCommit : option str;
  commentContent : option str;
  notificationBody : option str;
  principalIdOf : option str;
}.

Definition PR_OPEN_EVENTS : list str := [js "pullRequestCreated"].
Definition PR_SYNC_EVENTS : list str :=
  [js "pullRequestSourceBranchUpdated"; js "pullRequestSourceReferenceUpdated"].

Section receiver.
Context (ToString : json -> str) (parseJSON : str -> option json).

Definition eventOfJson (v : json) : CodecommitEvent :=
  {| ce_event := stringMember "event" v;
     pullRequestId :=
       match field "pullRequestId" v with
       | None => None
       | Some (JNum n) => Some (PrNumber n)
       | Some x => Some (PrText (StringOf ToString x))
       end;
     repositoryName := stringMember "repositoryName" v;
     repositoryNames := match member "repositoryNames" v with Some (JArr l) => l | _ => [] end;
     sourceCommit := stringMember "sourceCommit" v;
     commentContent := stringMember "commentContent" v;
     notificationBody := stringMember "notificationBody" v;
     principalIdOf := u ← field "userIdentity" v; stringMember "principalId" u |}.

(** [JSON.parse], then the EventBridge envelope or the flat event. *)
Definition extractCodecommitEvent (snsMessage : str) : option (CodecommitEvent * option str) :=
  match parseJSON snsMessage with
  | None => None
  | Some parsed =>
      match member "detail" parsed with
      | Some ((JArr _ | JObj _) as detail) => Some (eventOfJson detail, stringMember "account" parsed)
      | _ => match parsed with
             | JArr _ | JObj _ => Some (eventOfJson parsed, None)
             | _ => None
             end
      end
  end.

Definition pickRepositoryName (ev : CodecommitEvent) : option str :=
  match truthyStr (repositoryName ev) with
  | Some name => Some name
  | None => match repositoryNames ev with
            | JStr ((_ :: _) as first) :: _ => Some first
            | _ => None
            end
  end.

Definition pickPrNumber (ev : CodecommitEvent) : option Z :=
  n ← match pullRequestId ev with
      | None => None
      | Some (PrNumber x) => integerOf x
      | Some (PrText s) => parseInt s
      end;
  if isSafe n && (0 <? n)%Z then Some n else None.

(** ** The handler *)

Inductive CodecommitWebhookResult :=
  | SubscriptionConfirmed
  | SubscriptionFailed (status : Z)
  | CcEnqueued (messageId : str)
  | CcNoop (reason : str)
  | CcIgnored (reason : str)
  | CcForbidden (reason : str)
  | CcFeedback (signal : FeedbackKind) (outcome : FeedbackCommandOutcome) (fpPrefix : option str)
      (prNumber : Z).

Context {X : Type}.

(** [confirmFetch] answers [ok] and the status. *)
Record CodecommitWebhookDeps := {
  cc_enqueue : JobMessage -> eff X thrown str;
  cc_now : Z;
  cc_toISOString : Z -> str;
  confirmFetch : str -> eff X thrown (bool * Z);
  feedbackAllowlistEnv : option str;
  allowedTopicArns : option (list str);
}.

(** The process environment. *)
Record CcEnv := { env_feedbackAllowlist : option str; env_topicArns : option str }.

Section handler.
Context (env : CcEnv) (deps : CodecommitWebhookDeps).

Definition buildCodecommitJobMessage (ev : CodecommitEvent) (trigger : str) (installationId : str)
    : option JobMessage :=
  repo ← pickRepositoryName ev;
  number ← pickPrNumber ev;
  Some {| jm_jobId := "codecommit:" ++ repo ++ "#" ++ showZ number ++ "@" ++ showZ (cc_now deps);
          jm_installationId := installationId; jm_platform := codecommit; jm_owner := [];
          jm_repo := repo; jm_number := number; jm_headSha := truthyStr (sourceCommit ev);
          triggeredBy := trigger; enqueuedAt := cc_toISOString deps (cc_now deps);
          pathScope := None |}.

Definition isAllowedTopic (envelope : SnsMessage) (allowlist : list str) : bool :=
  match allowlist with [] => false | _ => bool_decide (TopicArn envelope ∈ allowlist) end.

Definition forbiddenReason (envelope : SnsMessage) (allowlist : list str) : str :=
  match allowlist with
  | [] => "REVIEW_AGENT_SNS_TOPIC_ARNS is unset; the receiver is fail-closed by design"
  | _ => "TopicArn '" ++ TopicArn envelope ++ "' is not in the configured allowlist"
  end.

(** [!v] on an optional member. *)
Definition isFalsy (v : option json) : bool :=
  match v with
  | None | Some JNull | Some (JBool false) | Some (JStr []) | Some (JNum (S754_zero _))
  | Some (JNum S754_nan) => true
  | _ => false
  end.

Definition enqueueCc (m : option JobMessage) : eff (World X) thrown CodecommitWebhookResult :=
  match m with
  | None => mret (CcIgnored "missing repositoryName/pullRequestId")
  | Some msg => id ← onExt (cc_enqueue deps msg); mret (CcEnqueued id)
  end.

Definition handleCodecommitFeedbackCommand (fb : FeedbackCommand) (ev : CodecommitEvent)
    : eff (World X) thrown CodecommitWebhookResult :=
  let answer o n :=
    modify (addFeedback codecommit (fb_kind fb) o);;
    mret (CcFeedback (fb_kind fb) o (fpPrefix fb) n) in
  match pickPrNumber ev, pickRepositoryName ev with
  | Some prNumber, Some _ =>
      match checkCodeCommitFeedbackAuthz (env_feedbackAllowlist env) (default [] (principalIdOf ev))
              (feedbackAllowlistEnv deps) with
      | Denied _ => answer unauthorized prNumber
      | Allowed => answer recorded prNumber
      end
  | n, _ => answer unresolved (default 0%Z n)
  end.

Definition handleCcComment (ev : CodecommitEvent) (installationId : str)
    : eff (World X) thrown CodecommitWebhookResult :=
  let text := match commentContent ev with Some t => t | None => default [] (notificationBody ev) end in
  match parseFeedbackCommand text with
  | Some fb => handleCodecommitFeedbackCommand fb ev
  | None =>
      match truthyStr (parseCommand text) with
      | None => mret (CcIgnored "no agent command")
      | Some command =>
          if bool_decide (command = "review")
          then enqueueCc (buildCodecommitJobMessage ev "comment.command" installationId)
          else mret (CcNoop ("command '" ++ command ++ "' not yet implemented"))
      end
  end.

(** [/^\d+$/] *)
Definition isNumeric (s : str) : bool := bool_decide (s <> []) && forallb is_digit s.

Definition handleNotification (envelope : SnsMessage) : eff (World X) thrown CodecommitWebhookResult :=
  match Message envelope with
  | Some message =>
      if isFalsy (Some message) then mret (CcIgnored "missing SNS Message")
      else match extractCodecommitEvent (StringOf ToString message) with
      | None => mret (CcIgnored "malformed codecommit event")
      | Some (ev, account) =>
          match ce_event ev with
          | None => mret (CcIgnored "malformed codecommit event")
          | Some event =>
              match account with
              | Some installationId =>
                  if negb (isNumeric installationId) then
                    mret (CcIgnored "missing or non-numeric EventBridge account (required for installationId)")
                  else if bool_decide (event ∈ PR_OPEN_EVENTS) then
                    enqueueCc (buildCodecommitJobMessage ev "pull_request.opened" installationId)
                  else if bool_decide (event ∈ PR_SYNC_EVENTS) then
                    enqueueCc (buildCodecommitJobMessage ev "pull_request.synchronize" installationId)
                  else if bool_decide (event = "commentOnPullRequest") then
                    handleCcComment ev installationId
                  else mret (CcIgnored ("unhandled codecommit event '" ++ event ++ "'"))
              | None =>
                  mret (CcIgnored "missing or non-numeric EventBridge account (required for installationId)")
              end
          end
      end
  | None => mret (CcIgnored "missing SNS Message")
  end.

(** A subscription is confirmed by fetching its URL. *)
Definition handleSubscription (envelope : SnsMessage) : eff (World X) thrown CodecommitWebhookResult :=
  match SubscribeURL envelope with
  | Some url =>
      if isFalsy (Some url) then mret (CcIgnored "missing SubscribeURL")
      else
        res ← onExt (confirmFetch deps (StringOf ToString url));
        mret (if res.1 : bool then SubscriptionConfirmed else SubscriptionFailed res.2)
  | None => mret (CcIgnored "missing SubscribeURL")
  end.

Definition handleCodecommitWebhook (envelope : SnsMessage) : eff (World X) thrown CodecommitWebhookResult :=
  let allowlist := default [] (allowedTopicArns deps) in
  if negb (isAllowedTopic envelope allowlist) then
    mret (CcForbidden (forbiddenReason envelope allowlist))
  else match sns_Type envelope with
  | Notification => handleNotification envelope
  | SubscriptionConfirmation | UnsubscribeConfirmation => handleSubscription envelope
  end.
End handler.
End receiver.
Arguments CodecommitWebhookDeps : clear implicits.

(** ** The route *)

Definition namespaceDeliveryId (platform : VcsPlatform) (id : str) : str :=
  match platform with github => "gh:" | codecommit => "sns:" end ++ id.

Section route.
Context (ToString : json -> str) (parseJSON : str -> option json).
Context {X : Type} (clock : X -> Z) (parseURL : str -> option CertURL).

(** [AppDeps], as far as the route uses it; [queue], [now] and the fetch act on the world. *)
Record AppDeps := {
  app_sns : VerifySnsSignatureOpts (X := X);
  app_enqueue : JobMessage -> eff (SnsWorld X) thrown str;
  app_now : Z;
  app_toISOString : Z -> str;
  app_fetch : str -> eff (SnsWorld X) thrown (bool * Z);
  allowedSnsTopicArns : option (list str);
  codecommitFeedbackAllowlistEnv : option str;
}.

Context (env : CcEnv) (deps : AppDeps).

Definition resolveAllowedSnsTopicArns : list str :=
  match allowedSnsTopicArns deps with
  | Some l => l
  | None => parseAllowlist (env_topicArns env)
  end.

Definition isSubscriptionControl (t : SnsMessageType) : bool :=
  bool_decide (t = SubscriptionConfirmation) || bool_decide (t = UnsubscribeConfirmation).

(** What the route hands to the handler: the allowlist override only for control messages. *)
Definition ccDeps (feedback : option str) : CodecommitWebhookDeps (SnsWorld X) :=
  {| cc_enqueue := app_enqueue deps; cc_now := app_now deps; cc_toISOString := app_toISOString deps;
     confirmFetch := app_fetch deps; feedbackAllowlistEnv := feedback;
     allowedTopicArns := Some resolveAllowedSnsTopicArns |}.

Definition answerOf (r : CodecommitWebhookResult) : Response CodecommitWebhookResult :=
  match r with CcForbidden reason => Forbidden403 reason | _ => Result200 r end.

(** [POST /webhook/codecommit] of [createApp]. *)
Definition postCodecommit (raw : str) : eff (World (SnsWorld X)) thrown (Response CodecommitWebhookResult) :=
  checked ← onExt (verifySnsSignature ToString clock parseURL (app_sns deps) parseJSON raw);
  match checked with
  | inl SnsBadRequest400 => mret (BadRequest400 "bad request")
  | inl SnsUnauthorized401 => mret Unauthorized401
  | inr m =>
      if isSubscriptionControl (sns_Type m) then
        r ← handleCodecommitWebhook ToString parseJSON env
              (ccDeps (codecommitFeedbackAllowlistEnv deps)) m;
        mret (answerOf r)
      else
        idempotency (Some (namespaceDeliveryId codecommit (MessageId m)))
          (r ← handleCodecommitWebhook ToString parseJSON env (ccDeps None) m; mret (answerOf r))
  end.
End route.
