(* ===== verification/CodecommitSpec.v ===== *)
(** * What the CodeCommit receiver guarantees

    Jobs and feedback come only from verified messages of an allowed topic; the feedback commands
    need a principal of the operator's list. *)

From S2P Require Import Prelude JsNumber NumberText JsonTree Errors Schema Commands Queue Webhook WebhookSpec.
From S2P Require Import Sns SnsSpec Codecommit.

(** ** Helpers *)

Lemma pickPrNumber_range ev n :
  pickPrNumber ev = Some n -> (0 < n <= MAX_SAFE_INTEGER)%Z.
Proof.
  unfold pickPrNumber, isSafe.
  destruct (match pullRequestId ev with Some _ => _ | None => _ end) as [k|]; cbn; [|done].
  destruct (_ && _) eqn:E; [|done]. intros [= ->]. to_prop. lia.
Qed.

Lemma pickRepositoryName_ne ev name : pickRepositoryName ev = Some name -> name <> [].
Proof.
  unfold pickRepositoryName. destruct (truthyStr (repositoryName ev)) eqn:E.
  - intros [= <-]. by apply truthyStr_Some in E as [_ ?].
  - destruct (repositoryNames ev) as [|[| | |[|]| |] ?]; try done. by intros [= <-].
Qed.

(** An allowlist holds trimmed, non-empty entries; an unset or blank variable holds none. *)
Lemma elem_of_parseAllowlist raw x :
  x ∈ parseAllowlist raw <->
  x <> [] /\ exists s piece, raw = Some s /\ piece ∈ splitChar ","%char s /\ x = trim piece.
Proof.
  unfold parseAllowlist. destruct (truthyStr raw) as [s|] eqn:E.
  - apply truthyStr_Some in E as [-> Hs]. rewrite list_elem_of_In, filter_In, <- list_elem_of_In.
    rewrite bool_decide_eq_true, list_elem_of_fmap. split.
    + intros [(piece & -> & Hp) Hx]. split; [done|]. by exists s, piece.
    + intros [Hx (s' & piece & [= <-] & Hp & ->)]. split; [by exists piece|done].
  - split; [by intros ?%elem_of_nil|]. intros [Hx (s & piece & -> & Hp & ->)].
    destruct s as [|c s]; [|by cbn in E].
    apply list_elem_of_singleton in Hp. by subst.
Qed.

Lemma checkCodeCommitFeedbackAuthz_Allowed env p override :
  checkCodeCommitFeedbackAuthz env p override = Allowed <->
  p <> [] /\ p ∈ parseAllowlist (match override with Some s => Some s | None => env end).
Proof.
  unfold checkCodeCommitFeedbackAuthz. destruct (parseAllowlist _) as [|y l] eqn:E.
  { split; [done|]. by intros [_ ?%elem_of_nil]. }
  destruct p as [|c p]; [naive_solver|]. case_bool_decide; naive_solver.
Qed.

Lemma isAllowedTopic_spec m l : isAllowedTopic m l = true <-> TopicArn m ∈ l.
Proof.
  unfold isAllowedTopic. destruct l; [|apply bool_decide_eq_true].
  split; [done|]. by intros ?%elem_of_nil.
Qed.

(** A topic that is not on the list: nothing happens, whatever the message says. *)
Lemma forbidden_topic ToString parseJSON {X} env (deps : CodecommitWebhookDeps X) m w :
  TopicArn m ∉ default [] (allowedTopicArns deps) ->
  handleCodecommitWebhook ToString parseJSON env deps m w
  = (Ok (CcForbidden (forbiddenReason m (default [] (allowedTopicArns deps)))), w).
Proof.
  intros H. unfold handleCodecommitWebhook.
  assert (isAllowedTopic m (default [] (allowedTopicArns deps)) = false) as ->; [|done].
  apply not_true_iff_false. by rewrite isAllowedTopic_spec.
Qed.

(** ** Jobs *)

Section route.
Context (ToString : json -> str) (parseJSON : str -> option json).
Context {X : Type} (clock : X -> Z) (parseURL : str -> option CertURL).
Context (env : CcEnv) (deps : AppDeps (X := X)) (queue : X -> list JobMessage).
Implicit Types (w : World (SnsWorld X)) (m : SnsMessage).

Notation verify := (verifySnsSignature ToString clock parseURL (app_sns deps) parseJSON).
Notation post := (postCodecommit ToString parseJSON clock parseURL env deps).
Notation handle := (handleCodecommitWebhook ToString parseJSON env).

(** Only the queue's own client puts jobs on it. *)
Record CcQueueContract : Prop := {
  ccq_enqueue : forall job x, exists jobs,
    queue (sns_ext (app_enqueue deps job x).2) = queue (sns_ext x) ++ jobs /\ Forall (eq job) jobs;
  ccq_fetch : forall url x, queue (sns_ext (app_fetch deps url x).2) = queue (sns_ext x);
  ccq_cert : forall url x, queue (fetchCert (app_sns deps) url x).2 = queue x;
}.
Context (HQ : CcQueueContract).

(** What the event of a message names: the account of the envelope, a repository, and a pull request
    by a number or the text of one. *)
Definition namesRepository (detail : json) (name : str) : Prop :=
  name <> [] /\
  (stringMember "repositoryName" detail = Some name \/
   default [] (stringMember "repositoryName" detail) = [] /\
   exists rest, member "repositoryNames" detail = Some (JArr (JStr name :: rest))).

Definition namesPullRequest (detail : json) (n : Z) : Prop :=
  (0 < n <= 9007199254740991)%Z /\
  exists v, field "pullRequestId" detail = Some v /\
    match v with JNum x => integerOf x = Some n | _ => parseInt (StringOf ToString v) = Some n end.

(** A job for the pull request of the message's own event, in the account of its own envelope. *)
Definition ccJob m (j : JobMessage) : Prop :=
  exists text event detail account,
    Message m = Some text /\ parseJSON (StringOf ToString text) = Some event /\
    member "detail" event = Some detail /\ stringMember "account" event = Some account /\
    account <> [] /\ forallb is_digit account = true /\
    jm_installationId j = account /\ jm_platform j = codecommit /\ jm_owner j = [] /\
    namesRepository detail (jm_repo j) /\ namesPullRequest detail (jm_number j) /\
    triggeredBy j ∈ TRIGGERS.

Lemma pickRepositoryName_names detail name :
  pickRepositoryName (eventOfJson ToString detail) = Some name -> namesRepository detail name.
Proof.
  unfold pickRepositoryName, namesRepository. cbn [repositoryName repositoryNames eventOfJson].
  destruct (stringMember "repositoryName" detail) as [[|c s]|]; cbn [truthyStr].
  2: { intros [= <-]. split; [done|by left]. }
  all: destruct (member "repositoryNames" detail) as [[| | | |[|[| | |[|]| |] rest]|]|]; try done;
    intros [= <-]; (split; [done|right]); (split; [done|by eexists]).
Qed.

Lemma pickPrNumber_names detail n :
  pickPrNumber (eventOfJson ToString detail) = Some n -> namesPullRequest detail n.
Proof.
  intros H. split; [by apply pickPrNumber_range in H|]. revert H. unfold pickPrNumber. cbn [pullRequestId eventOfJson].
  destruct (field "pullRequestId" detail) as [v|]; [|done]. intros H. exists v. split; [done|].
  destruct v; cbn in H |- *.
  all: try (apply bind_Some in H as (k & Hk & H)).
  all: repeat match type of H with context [if ?c then _ else _] => destruct c end; simplify_eq; done.
Qed.

Lemma buildCodecommitJobMessage_ok (d : CodecommitWebhookDeps (SnsWorld X)) m text ev t installation j :
  t ∈ TRIGGERS -> isNumeric installation = true -> Message m = Some text ->
  extractCodecommitEvent ToString parseJSON (StringOf ToString text) = Some (ev, Some installation) ->
  buildCodecommitJobMessage d ev t installation = Some j -> ccJob m j.
Proof.
  unfold buildCodecommitJobMessage, extractCodecommitEvent. intros Ht [Hi Hdig]%andb_true_iff Hm Hx.
  apply bool_decide_eq_true in Hi.
  destruct (parseJSON _) as [event|] eqn:Ej; [|done].
  assert (exists detail, member "detail" event = Some detail /\ ev = eventOfJson ToString detail /\
    stringMember "account" event = Some installation) as (detail & Hd & -> & Ha).
  { destruct (member "detail" event) as [[]|]; try (by destruct event); by injection Hx as <- ?; eexists. }
  destruct (pickRepositoryName _) as [name|] eqn:En; [|done].
  destruct (pickPrNumber _) as [n|] eqn:Ep; [|done]. intros [= <-].
  exists text, event, detail, installation. cbn.
  split_and!; try done; [by apply pickRepositoryName_names|by apply pickPrNumber_names].
Qed.

Lemma verify_queue raw x : queue (sns_ext (verify raw x).2) = queue (sns_ext x).
Proof.
  unfold verifySnsSignature. destruct (parseEnvelope parseJSON raw) as [m|]; [|done].
  unfold tryCatch, mbind, eff_bind.
  assert (queue (sns_ext (verifySnsMessage ToString clock parseURL (app_sns deps) m x).2)
          = queue (sns_ext x)) as Hq.
  { rewrite verifySnsMessage_steps. destruct (snsStep _ _ _ _ _) as [[r|] c]; [done|].
    pose proof (ccq_cert HQ (SigningCertURL m) (sns_ext x)) as Hc.
    destruct (fetchCert (app_sns deps) (SigningCertURL m) (sns_ext x)) as [[cert|e] x1]; [|done].
    by destruct (snsStep _ _ _ _ _). }
  by destruct (verifySnsMessage _ _ _ _ m x) as [[[]|e] x1].
Qed.

Notation addsJobs P := (adds (fun s : SnsWorld X => queue (sns_ext s)) P).

Lemma adds_enqueueCc P f ev t installation :
  (forall j, buildCodecommitJobMessage (ccDeps env deps f) ev t installation = Some j -> P j) ->
  within (addsJobs P) (enqueueCc (ccDeps env deps f)
    (buildCodecommitJobMessage (ccDeps env deps f) ev t installation)).
Proof.
  intros HP. unfold enqueueCc.
  destruct (buildCodecommitJobMessage _ _ _ _) as [j|]; [|apply within_ret, adds_preorder].
  apply within_bind; [apply adds_preorder| |intros ?; apply within_ret, adds_preorder].
  eapply adds_enqueue; [|by apply HP]. intros x. apply (ccq_enqueue HQ).
Qed.

Ltac cc_step :=
  match goal with
  | |- within _ (_ ≫= _) => apply within_bind; [| |intros ?]
  | |- within _ (mret _) => apply within_ret
  | |- within _ (modify _) => intros w; exists []; by rewrite app_nil_r
  | |- within _ (onExt (confirmFetch _ _)) => apply adds_onExt; intros x; apply (ccq_fetch HQ)
  | |- within _ (enqueueCc _ _) =>
      let Hb := fresh in apply adds_enqueueCc; intros ? Hb; split; [done|split; [done|]]; subst;
      eapply buildCodecommitJobMessage_ok; [|eassumption|eassumption|eassumption|exact Hb];
      apply (bool_decide_eq_true_1 (_ ∈ TRIGGERS)); vm_compute; reflexivity
  | H : negb _ = false |- _ => apply negb_false_iff in H
  | |- within _ (if ?x then _ else _) => destruct x eqn:?
  | |- within _ (match ?x with _ => _ end) => destruct x eqn:?
  | |- PreOrder _ => apply adds_preorder
  end.

Lemma adds_handle f m :
  within (addsJobs (fun j => TopicArn m ∈ resolveAllowedSnsTopicArns env deps /\
                             sns_Type m = Notification /\ ccJob m j))
    (handle (ccDeps env deps f) m).
Proof.
  unfold handleCodecommitWebhook. cbn [allowedTopicArns ccDeps default].
  destruct (isAllowedTopic m _) eqn:Ht; cbn [negb]; [|apply within_ret, adds_preorder].
  apply isAllowedTopic_spec in Ht. cbn [default] in Ht.
  unfold handleNotification, handleSubscription, handleCcComment, handleCodecommitFeedbackCommand.
  cbv zeta. repeat cc_step.
Qed.

(** C19. The receiver queues a job only for a signed notification of a topic on the operator's list.
    Every job is a CodeCommit job in the AWS account that the message's own envelope names, a
    number, and for the repository and the pull request that its own event names, whatever else
    the message holds. *)
Theorem codecommit_jobs_are_verified raw w :
  exists jobs, queue (sns_ext (ext (post raw w).2)) = queue (sns_ext (ext w)) ++ jobs /\
  Forall (fun j => exists m, (verify raw (ext w)).1 = Ok (inr m) /\
    TopicArn m ∈ resolveAllowedSnsTopicArns env deps /\ sns_Type m = Notification /\ ccJob m j) jobs.
Proof.
  unfold postCodecommit. unfold mbind at 1, eff_bind at 1, onExt at 1.
  pose proof (verify_queue raw (ext w)) as Hv.
  destruct (verify raw (ext w)) as [[[[]|m]|e] x1] eqn:Ev; cbn -[idempotency] in Hv |- *;
    try (exists []; by rewrite Hv, app_nil_r).
  rewrite <- Hv. set (P := fun j : JobMessage => _).
  assert (forall f, within (addsJobs P) (r ← handle (ccDeps env deps f) m; mret (answerOf r))) as Hh.
  { intros f. apply within_bind; [apply adds_preorder| |intros ?; apply within_ret, adds_preorder].
    intros w2. destruct (adds_handle f m w2) as (jobs & E & Hj). exists jobs. split; [done|].
    eapply Forall_impl; [exact Hj|]. intros j Hp. by exists m. }
  set (w1 := Build_World _ _ _ _ _ x1).
  destruct (isSubscriptionControl (sns_Type m)); [apply (Hh _ w1)|].
  by apply (adds_idempotency (fun s => queue (sns_ext s)) P _ _ (Hh None) w1).
Qed.

(** ** Feedback *)

Lemma enqueueCc_answer (d : CodecommitWebhookDeps (SnsWorld X)) o w k out p n w' :
  enqueueCc d o w <> (Ok (CcFeedback k out p n), w').
Proof.
  unfold enqueueCc. destruct o as [j|]; [|done]. unfold mbind, eff_bind.
  by destruct (onExt (cc_enqueue d j) w) as [[id|e] w1].
Qed.

(** The answer [recorded]: the principal of the event is on the list in force. *)
Lemma handle_recorded (d : CodecommitWebhookDeps (SnsWorld X)) m w k p n w' :
  handle d m w = (Ok (CcFeedback k recorded p n), w') ->
  sns_Type m = Notification /\ TopicArn m ∈ default [] (allowedTopicArns d) /\
  exists text ev account, Message m = Some text /\
    extractCodecommitEvent ToString parseJSON (StringOf ToString text) = Some (ev, account) /\
    checkCodeCommitFeedbackAuthz (env_feedbackAllowlist env) (default [] (principalIdOf ev))
      (feedbackAllowlistEnv d) = Allowed.
Proof.
  unfold handleCodecommitWebhook. destruct (isAllowedTopic m _) eqn:Ht; [|done].
  apply isAllowedTopic_spec in Ht. cbn [negb].
  assert (handleSubscription ToString d m w <> (Ok (CcFeedback k recorded p n), w')) as Hsub.
  { unfold handleSubscription. destruct (SubscribeURL m) as [u|]; [|done].
    destruct (isFalsy _); [done|]. unfold mbind, eff_bind.
    destruct (onExt _ w) as [[[[] st]|e] w1]; cbn; done. }
  destruct (sns_Type m); [|done..]. clear Hsub. intros H. split; [done|]. split; [done|].
  revert H. unfold handleNotification, handleCcComment.
  destruct (Message m) as [text|]; [|done]. destruct (isFalsy (Some text)); [done|].
  destruct (extractCodecommitEvent _ _ _) as [[ev account]|] eqn:Ex; [|done].
  destruct (ce_event ev); [|done]. destruct account as [i|]; [|done].
  destruct (negb (isNumeric i)); [done|].
  case_bool_decide; [by intros ?%enqueueCc_answer|].
  case_bool_decide; [by intros ?%enqueueCc_answer|]. case_bool_decide; [|done].
  destruct (parseFeedbackCommand _) as [fb|].
  2: { destruct (truthyStr _); [|done]. case_bool_decide; [by intros ?%enqueueCc_answer|done]. }
  unfold handleCodecommitFeedbackCommand. cbv zeta.
  destruct (pickPrNumber ev), (pickRepositoryName ev); try done.
  destruct (checkCodeCommitFeedbackAuthz _ _ _) eqn:Ea; [|done].
  intros _. exists text, ev, (Some i). by split_and!.
Qed.

(** A feedback command of a CodeCommit comment is answered [recorded] only when the event's
    principal is named in the process's own REVIEW_AGENT_FEEDBACK_ALLOWLIST and the signed message
    came from an allowed topic. The override of [createApp]'s caller has no part in it: the route
    does not pass it on to the handler of notifications. *)
Theorem codecommit_feedback_needs_allowlist raw w k p n w' :
  post raw w = (Ok (Result200 (CcFeedback k recorded p n)), w') ->
  exists m text ev account principal,
    (verify raw (ext w)).1 = Ok (inr m) /\ TopicArn m ∈ resolveAllowedSnsTopicArns env deps /\
    Message m = Some text /\
    extractCodecommitEvent ToString parseJSON (StringOf ToString text) = Some (ev, account) /\
    principalIdOf ev = Some principal /\ principal <> [] /\
    principal ∈ parseAllowlist (env_feedbackAllowlist env).
Proof.
  unfold postCodecommit. unfold mbind at 1, eff_bind at 1, onExt at 1.
  destruct (verify raw (ext w)) as [[[[]|m]|e] x1] eqn:Ev; cbn -[idempotency]; try done.
  set (w1 := Build_World _ _ _ _ _ x1). intros H.
  assert (exists f w2, handle (ccDeps env deps f) m w2 = (Ok (CcFeedback k recorded p n), w') /\
            (sns_Type m = Notification -> f = None)) as (f & w2 & Hh & Hf).
  { assert (forall f w2, (r ← handle (ccDeps env deps f) m; mret (answerOf r)) w2
      = (Ok (Result200 (CcFeedback k recorded p n)), w') ->
      handle (ccDeps env deps f) m w2 = (Ok (CcFeedback k recorded p n), w')) as Hb.
    { intros f w2. unfold mbind, eff_bind. destruct (handle _ m w2) as [[r|e] w3]; [|done].
      destruct r; cbn; by intros [= -> -> -> -> ->]. }
    destruct (isSubscriptionControl (sns_Type m)) eqn:Ec.
    - eexists _, w1. split; [by apply Hb|]. by intros Ht; rewrite Ht in Ec.
    - unfold idempotency in H. destruct (truthyStr _); [|done].
      unfold mbind at 1, eff_bind at 1 in H. cbn [get] in H. destruct (dbFault w1); [done|].
      case_bool_decide; [done|]. unfold mbind at 1, eff_bind at 1 in H. cbn [modify] in H.
      exists None. eexists. split; [by apply Hb|done]. }
  apply handle_recorded in Hh as (Ht & Htop & text & ev & account & Hm & Hx & Ha).
  rewrite (Hf Ht) in Ha. apply checkCodeCommitFeedbackAuthz_Allowed in Ha as [Hp Hin].
  destruct (principalIdOf ev) as [principal|] eqn:Ep; [|done].
  by exists m, text, ev, account, principal.
Qed.
End route.

(** ** A receiver with one topic and one principal *)

Definition ccEnvelope (message : str) : json :=
  JObj [(js "Type", JStr (js "Notification")); (js "MessageId", JStr (js "id-1"));
        (js "TopicArn", JStr (js "arn:pr")); (js "Timestamp", JStr (js "t"));
        (js "Signature", JStr (js "good")); (js "SignatureVersion", JStr (js "2"));
        (js "SigningCertURL", JStr (js "https://sns.us-east-1.amazonaws.com/c.pem"));
        (js "Message", JStr message)].
Definition ccEvent (fields : list (str * json)) : json :=
  JObj [(js "account", JStr (js "123456789012"));
        (js "detail", JObj ((js "repositoryName", JStr (js "app")) :: (js "pullRequestId", JStr (js "42")) :: fields))].
Definition ccJSON (raw : str) : option json :=
  if bool_decide (raw = "envelope-push") then Some (ccEnvelope "push")
  else if bool_decide (raw = "envelope-reject") then Some (ccEnvelope "reject")
  else if bool_decide (raw = "push") then
    Some (ccEvent [(js "event", JStr (js "pullRequestSourceBranchUpdated"))])
  else if bool_decide (raw = "reject") then
    Some (ccEvent [(js "event", JStr (js "commentOnPullRequest"));
                   (js "commentContent", JStr (js "/feedback reject"));
                   (js "userIdentity", JObj [(js "principalId", JStr (js "AIDA1"))])])
  else None.
Definition ccApp : AppDeps (X := list JobMessage) :=
  {| app_sns := {| fetchCert u q := (Ok (js "PEM"), q);
                   verifySignature p := Ok (bool_decide (signatureBase64 p = "good"));
                   allowedCertHostPattern := None |};
     app_enqueue m s := (Ok (js "m1"), Build_SnsWorld (certCache s) (sns_ext s ++ [m]));
     app_now := 0; app_toISOString _ := js "1970-01-01T00:00:00.000Z";
     app_fetch u s := (Ok (true, 200%Z), s);
     allowedSnsTopicArns := None; codecommitFeedbackAllowlistEnv := Some (js "OTHER") |}.
Definition ccProcess : CcEnv :=
  {| env_feedbackAllowlist := Some (js " AIDA1 ,AIDA2"); env_topicArns := Some (js "arn:pr") |}.
Definition ccWorld : World (SnsWorld (list JobMessage)) :=
  {| reviewStates := ∅; installations := ∅; deliveries := ∅; feedbackCommandTotal := [];
     dbFault := None; ext := {| certCache := []; sns_ext := [] |} |}.
Definition ccPost (raw : str) :=
  postCodecommit (fun _ => []) ccJSON (fun _ => 0%Z) demoCertURL ccProcess ccApp raw ccWorld.

Lemma cc_contract : CcQueueContract ccApp (fun q : list JobMessage => q).
Proof. split; cbn; [intros job x; exists [job]; by repeat constructor|done..]. Qed.

Lemma codecommit_jobs_are_verified_witness :
  exists jobs, sns_ext (ext (ccPost "envelope-push").2) = [] ++ jobs /\ length jobs = 1 /\
    Forall (fun j => jm_number j = 42%Z /\ jm_platform j = codecommit) jobs.
Proof.
  destruct (codecommit_jobs_are_verified (fun _ => []) ccJSON (fun _ => 0%Z) demoCertURL ccProcess ccApp
              (fun q => q) cc_contract "envelope-push" ccWorld) as (jobs & E & _).
  exists jobs. split; [exact E|].
  assert (map jm_number jobs = [42%Z] /\ map jm_platform jobs = [codecommit]) as [En Ep].
  { assert (jobs = sns_ext (ext (ccPost "envelope-push").2)) as -> by (symmetry; exact E).
    split; vm_compute; reflexivity. }
  destruct jobs as [|j [|? ?]]; try discriminate En.
  split; [reflexivity|]. injection En as En. injection Ep as Ep. repeat constructor; done.
Defined.

Lemma codecommit_feedback_needs_allowlist_witness :
  (ccPost "envelope-reject").1 = Ok (Result200 (CcFeedback thumbs_down recorded None 42)) /\
  exists principal, principal ∈ parseAllowlist (env_feedbackAllowlist ccProcess).
Proof.
  assert ((ccPost "envelope-reject").1 = Ok (Result200 (CcFeedback thumbs_down recorded None 42))) as H
    by (vm_compute; reflexivity).
  split; [exact H|].
  destruct (codecommit_feedback_needs_allowlist (fun _ => []) ccJSON (fun _ => 0%Z) demoCertURL ccProcess
              ccApp "envelope-reject" ccWorld thumbs_down None 42 (ccPost "envelope-reject").2)
    as (m & text & ev & account & principal & _ & _ & _ & _ & _ & _ & Hin).
  { rewrite <- H. unfold ccPost. by destruct (postCodecommit _ _ _ _ _ _ _ _). }
  by exists principal.
Defined.
