(* ===== verification/Worker.v ===== *)
(** * The worker (server/src/worker.ts)

    The job consumer with its debounce, and the two periodic clean-ups that elect a leader with
    PostgreSQL advisory locks. A lock belongs to a database session; every statement runs on the
    session the connection pool gives it, which is an argument here. *)

From S2P Require Import Prelude JsNumber Errors Review History Queue ReviewStateStore.

(** ** Timers *)

(** [armed]: a timeout is pending. *)
Record CleanupState := { stopped : bool; armed : bool }.

Definition schedule (s : CleanupState) : CleanupState :=
  if stopped s then s else {| stopped := false; armed := true |}.
Definition stop (s : CleanupState) : CleanupState := {| stopped := true; armed := false |}.
(** The timeout goes off; when its tick is over, [schedule] runs. *)
Definition fire (s : CleanupState) : CleanupState := {| stopped := stopped s; armed := false |}.

(** ** The world *)

(** [wk_locks]: the session that holds an advisory lock, and how often. *)
Record WorkerWorld (X : Type) := {
  wk_states : stateTable;
  wk_deliveries : gmap str Z;
  wk_history : HistoryDb;
  wk_locks : gmap Z (nat * nat);
  wk_cleanup : CleanupState;
  wk_ext : X;
}.
Arguments Build_WorkerWorld {X}.
Arguments wk_states {X}.
Arguments wk_deliveries {X}.
Arguments wk_history {X}.
Arguments wk_locks {X}.
Arguments wk_cleanup {X}.
Arguments wk_ext {X}.

Definition DEFAULT_DEBOUNCE_MS : Z := 5000.
Definition DEFAULT_RETENTION_DAYS : Z := 7.
Definition CLEANUP_LOCK_KEY : Z := 2881093633.
Definition REVIEW_HISTORY_CLEANUP_LOCK_KEY : Z := 2881093634.

Section worker.
Context {X : Type}.
Implicit Types w : WorkerWorld X.

Definition setLocks (l : gmap Z (nat * nat)) w : WorkerWorld X :=
  Build_WorkerWorld (wk_states w) (wk_deliveries w) (wk_history w) l (wk_cleanup w) (wk_ext w).
Definition setDeliveries (d : gmap str Z) w : WorkerWorld X :=
  Build_WorkerWorld (wk_states w) d (wk_history w) (wk_locks w) (wk_cleanup w) (wk_ext w).
Definition setHistory (h : HistoryDb) w : WorkerWorld X :=
  Build_WorkerWorld (wk_states w) (wk_deliveries w) h (wk_locks w) (wk_cleanup w) (wk_ext w).
Definition setCleanup (c : CleanupState) w : WorkerWorld X :=
  Build_WorkerWorld (wk_states w) (wk_deliveries w) (wk_history w) (wk_locks w) c (wk_ext w).

(** [clock] is [now()]; [fault] the error a database statement meets, if any. *)
Context (clock : X -> Z) (fault : X -> option thrown).

(** A database statement. *)
Definition statement {A} (f : WorkerWorld X -> A * WorkerWorld X) : eff (WorkerWorld X) thrown A := fun w =>
  match fault (wk_ext w) with
  | Some e => (Throw e, w)
  | None => let '(a, w') := f w in (Ok a, w')
  end.

(** [try { m } finally { f }] *)
Definition finally {A} (m : eff (WorkerWorld X) thrown A) (f : eff (WorkerWorld X) thrown unit)
    : eff (WorkerWorld X) thrown A := fun w =>
  let '(r, w1) := m w in
  match f w1 with
  | (Ok _, w2) => (r, w2)
  | (Throw e, w2) => (Throw e, w2)
  end.

(** ** The debounce *)

Definition stateId (m : JobMessage) : str := jm_owner m ++ "/" ++ jm_repo m ++ "#" ++ showZ (jm_number m).

Definition shouldDebounce (debounceWindowMs : option Z) (m : JobMessage) : eff (WorkerWorld X) thrown bool :=
  if negb (bool_decide (triggeredBy m = "pull_request.synchronize")) then mret false
  else match truthyStr (jm_headSha m) with
  | None => mret false
  | Some headSha =>
      let window := default DEFAULT_DEBOUNCE_MS debounceWindowMs in
      latest ← statement (fun w => (wk_states w !! stateId m, w));
      match latest with
      | None => mret false
      | Some row =>
          w ← get;
          let ageMs := (clock (wk_ext w) - sr_updatedAt row)%Z in
          mret (negb (bool_decide (sr_headSha row = headSha)) && (ageMs <? window)%Z)
      end
  end.

(** The consumer passed to [dequeue]. *)
Definition workerHandler (debounceWindowMs : option Z)
    (handler : JobMessage -> eff (WorkerWorld X) thrown unit) (m : JobMessage)
    : eff (WorkerWorld X) thrown unit :=
  debounced ← shouldDebounce debounceWindowMs m;
  if debounced : bool then mret tt else handler m.

(** [startWorker] for at most [polls] long polls. *)
Definition startWorker (isDatetime : str -> bool) (parseJSON : str -> option JobMessage)
    (client : SqsClient (WorkerWorld X)) (debounceWindowMs : option Z)
    (handler : JobMessage -> eff (WorkerWorld X) thrown unit) (polls : nat)
    : eff (WorkerWorld X) thrown bool :=
  modify (fun w => setCleanup (schedule {| stopped := false; armed := false |}) w);;
  finally (dequeue isDatetime parseJSON (workerHandler debounceWindowMs handler) client polls)
    (modify (fun w => setCleanup (stop (wk_cleanup w)) w)).

(** ** Advisory locks *)

(** [pg_try_advisory_lock] of session [c]: a session may take its own lock again. *)
Definition tryAcquireLock (c : nat) (key : Z) : eff (WorkerWorld X) thrown bool :=
  statement (fun w =>
    match wk_locks w !! key with
    | None => (true, setLocks (<[ key := (c, 1) ]> (wk_locks w)) w)
    | Some (owner, n) =>
        if decide (owner = c) then (true, setLocks (<[ key := (c, S n) ]> (wk_locks w)) w)
        else (false, w)
    end).

(** [pg_advisory_unlock] of session [c]: another session's lock stays as it is. *)
Definition releaseLock (c : nat) (key : Z) : eff (WorkerWorld X) thrown unit :=
  statement (fun w =>
    match wk_locks w !! key with
    | Some (owner, S n) =>
        if decide (owner = c) then
          (tt, setLocks (match n with O => delete key (wk_locks w)
                                    | _ => <[ key := (c, n) ]> (wk_locks w) end) w)
        else (tt, w)
    | _ => (tt, w)
    end).

(** ** The ticks *)

(** The sessions of a tick's lock and unlock statements. *)
Record TickSessions := { lockOn : nat; unlockOn : nat }.

(** A tick of [startIdempotencyCleanup]. *)
Definition deliveriesTick (retentionDays : option Z) (s : TickSessions) : eff (WorkerWorld X) thrown unit :=
  held ← tryAcquireLock (lockOn s) CLEANUP_LOCK_KEY;
  if held : bool then
    finally
      (w ← get;
       let cutoff := (clock (wk_ext w) - default DEFAULT_RETENTION_DAYS retentionDays * 24 * 3600 * 1000)%Z in
       statement (fun w => (tt, setDeliveries (filter (fun r => (cutoff <= r.2)%Z) (wk_deliveries w)) w)))
      (releaseLock (unlockOn s) CLEANUP_LOCK_KEY)
  else mret tt.

(** A tick of [startReviewHistoryCleanup]. *)
Definition historyTick (answer : nat -> DriverResult)
    (onPruned : option (Z -> eff (WorkerWorld X) thrown unit)) (s : TickSessions)
    : eff (WorkerWorld X) thrown unit :=
  held ← tryAcquireLock (lockOn s) REVIEW_HISTORY_CLEANUP_LOCK_KEY;
  if held : bool then
    finally
      (w ← get;
       let now := clock (wk_ext w) in
       n ← statement (fun w => let '(n, h) := deleteExpired now (wk_history w) in
                               (n, setHistory h w));
       let deleted := affected (answer n) in
       if (0 <? deleted)%Z then callOpt onPruned deleted else mret tt)
      (releaseLock (unlockOn s) REVIEW_HISTORY_CLEANUP_LOCK_KEY)
  else mret tt.
End worker.

(** ** The debounce never finds a row *)

(** The mirror stores its rows under [installation:owner/repo#number]; the worker looks for
    [owner/repo#number]. *)
Lemma stateId_not_idFor m q : ":"%char ∉ jm_owner m -> stateId m <> idFor q.
Proof.
  unfold stateId, idFor. intros Hm E.
  assert ("/"%char ∉ showZ (lk_installationId q)) as Hs by by apply showZ_free.
  apply app_eq_app in E as (l & [[Eo E]|[Ei E]]).
  - destruct l as [|c l]; [done|]. cbn in E. injection E as <- _. apply Hm. rewrite Eo. set_solver.
  - destruct l as [|c l]; [done|]. cbn in E. injection E as <- _. apply Hs. rewrite Ei. set_solver.
Qed.

Lemma bind_statement {X A B} fault (f : WorkerWorld X -> A * WorkerWorld X)
    (k : A -> eff (WorkerWorld X) thrown B) w :
  fault (wk_ext w) = None ->
  (statement fault f ≫= k) w = k (f w).1 (f w).2.
Proof. intros H. unfold mbind, eff_bind, statement. rewrite H. by destruct (f w). Qed.

(** The debounce is dead code: as long as the rows of [review_state] are the mirror's own, the
    worker hands every job whose owner has no colon (GitHub forbids it, CodeCommit's owner is
    empty) straight to the handler, however recently another head was reviewed. *)
Theorem debounce_never_fires {X} (clock : X -> Z) fault window handler m (w : WorkerWorld X) :
  mirrored (wk_states w) -> ":"%char ∉ jm_owner m -> fault (wk_ext w) = None ->
  workerHandler clock fault window handler m w = handler m w.
Proof.
  intros Hm Ho Hf. unfold workerHandler, mbind at 1, eff_bind at 1, shouldDebounce.
  destruct (negb _); [done|]. destruct (truthyStr (jm_headSha m)) as [sha|]; [|done].
  rewrite bind_statement by done. cbn [fst snd].
  destruct (wk_states w !! stateId m) as [row|] eqn:E; [|done].
  apply Hm in E. by apply stateId_not_idFor in E.
Qed.

Definition demoWorkerWorld : WorkerWorld Z :=
  {| wk_states := upsertMirror 1000 demoLookup "oldhead" (demoState "t0" "oldhead") ∅;
     wk_deliveries := {[ js "d1" := 0%Z; js "d2" := 700000000%Z ]}; wk_history := {| rows := []; nextId := 1 |};
     wk_locks := ∅; wk_cleanup := {| stopped := false; armed := false |}; wk_ext := 1001%Z |}.

Lemma debounce_never_fires_witness :
  workerHandler (fun now => now) (fun _ => None) None (fun _ => throw (StringValue "reviewed"))
    (demoJob "newhead") demoWorkerWorld = (Throw (StringValue "reviewed"), demoWorkerWorld).
Proof.
  apply (debounce_never_fires (fun now : Z => now) (fun _ => None) None
           (fun _ => throw (StringValue "reviewed"))); [|not_in|reflexivity].
  apply mirrored_upsert, mirrored_empty.
Defined.

(** ** The clean-up and its lock *)

Section ticks.
Context {X : Type} (clock : X -> Z) (fault : X -> option thrown) (retentionDays : option Z).
Implicit Types w : WorkerWorld X.

(** The deliveries a tick keeps. *)
Definition retained w : gmap str Z :=
  filter (fun r => (clock (wk_ext w) - default DEFAULT_RETENTION_DAYS retentionDays * 24 * 3600 * 1000 <= r.2)%Z)
    (wk_deliveries w).

Definition runTicks (ticks : list TickSessions) w : WorkerWorld X :=
  fold_left (fun w s => (deliveriesTick clock fault retentionDays s w).2) ticks w.

Lemma tick_free s w :
  fault (wk_ext w) = None -> wk_locks w !! CLEANUP_LOCK_KEY = None ->
  deliveriesTick clock fault retentionDays s w =
  (Ok tt, setLocks (if decide (lockOn s = unlockOn s) then wk_locks w
                    else <[ CLEANUP_LOCK_KEY := (lockOn s, 1) ]> (wk_locks w))
            (setDeliveries (retained w) w)).
Proof.
  intros Hf Hl. unfold deliveriesTick, tryAcquireLock. rewrite bind_statement by done. rewrite Hl.
  cbn [fst snd]. unfold finally, releaseLock, mbind, eff_bind, get, statement.
  cbn [setLocks setDeliveries wk_ext wk_deliveries wk_locks]. rewrite !Hf. cbn.
  rewrite lookup_insert_eq. case_decide as E; rewrite Hf; [|done].
  unfold setLocks. cbn. by rewrite delete_insert_id.
Qed.

Lemma tick_held s w owner n :
  fault (wk_ext w) = None -> wk_locks w !! CLEANUP_LOCK_KEY = Some (owner, n) -> owner <> lockOn s ->
  deliveriesTick clock fault retentionDays s w = (Ok tt, w).
Proof.
  intros Hf Hl Hne. unfold deliveriesTick, tryAcquireLock. rewrite bind_statement by done. rewrite Hl.
  by rewrite decide_False.
Qed.

(** A tick whose lock and unlock run on one session deletes exactly the deliveries older than the
    retention and leaves the lock free for the next one; when another session holds the lock, the
    tick does nothing. But when the pool runs the unlock on another session than the lock, the
    lock stays with the first session, and from then on no tick that is given a lock session other
    than that one deletes anything, however many run. *)
Theorem cleanup_lock_outcomes s w :
  fault (wk_ext w) = None -> wk_locks w !! CLEANUP_LOCK_KEY = None ->
  let w1 := (deliveriesTick clock fault retentionDays s w).2 in
  wk_deliveries w1 = retained w /\
  (lockOn s = unlockOn s -> wk_locks w1 = wk_locks w) /\
  (lockOn s <> unlockOn s -> forall ticks,
    Forall (fun s' => lockOn s' <> lockOn s) ticks -> runTicks ticks w1 = w1).
Proof.
  intros Hf Hl. cbv zeta. rewrite tick_free by done. cbn [snd setLocks setDeliveries wk_deliveries wk_locks].
  split; [done|]. split; [intros H; by rewrite decide_True|].
  intros H. rewrite decide_False by done. intros ticks Ht.
  set (w1 := setLocks _ _). unfold runTicks. induction Ht as [|s' ticks Hs' _ IH]; [done|].
  cbn [fold_left]. rewrite (tick_held s' w1 (lockOn s) 1); [exact IH|done| |congruence].
  apply lookup_insert_eq.
Qed.
End ticks.

(** The pool runs the first tick's unlock on session 1; sessions 1 and 2 then find the lock taken. *)
Lemma cleanup_lock_outcomes_witness :
  let w1 := (deliveriesTick (fun now => now) (fun _ => None) (Some 0%Z)
               {| lockOn := 0; unlockOn := 1 |} demoWorkerWorld).2 in
  wk_deliveries w1 = {[ js "d2" := 700000000%Z ]} /\
  runTicks (fun now => now) (fun _ => None) (Some 0%Z)
    [{| lockOn := 1; unlockOn := 1 |}; {| lockOn := 2; unlockOn := 2 |}] w1 = w1.
Proof.
  intros w1.
  destruct (cleanup_lock_outcomes (fun now : Z => now) (fun _ => None) (Some 0%Z)
              {| lockOn := 0; unlockOn := 1 |} demoWorkerWorld eq_refl eq_refl) as (Hd & _ & Hl).
  split; [refine (eq_trans Hd _); vm_compute; reflexivity|].
  apply Hl; [discriminate|]. repeat constructor; discriminate.
Defined.

(** ** Stopping *)

Inductive timerEvent := TimerFires | TickEnds | StopCalled.

Definition timerStep (s : CleanupState) (e : timerEvent) : CleanupState :=
  match e with TimerFires => fire s | TickEnds => schedule s | StopCalled => stop s end.

(** After [stop], no timeout is ever pending again, also when it was called while a tick was
    running. *)
Lemma stop_is_final before after :
  let s := fold_left timerStep (before ++ StopCalled :: after) (schedule {| stopped := false; armed := false |}) in
  stopped s = true /\ armed s = false.
Proof.
  cbv zeta. rewrite fold_left_app. cbn [fold_left timerStep stop].
  generalize (fold_left timerStep before (schedule {| stopped := false; armed := false |})). intros s0.
  assert (forall s, stopped s = true -> armed s = false ->
    stopped (fold_left timerStep after s) = true /\ armed (fold_left timerStep after s) = false) as H.
  { clear. induction after as [|e after IH]; intros s H1 H2; [done|]. cbn [fold_left].
    apply IH; destruct e; cbn; unfold schedule; by rewrite ?H1. }
  by apply H.
Qed.
