(* ===== verification/SeverityGate.v ===== *)
(** * The severity-consistency gate (eval/scripts/severity-consistency-core.ts,
    eval/scripts/severity-consistency.ts)

    The scoring of the severities a model gives over repeated runs of fixtures with a known one, the
    share of fixtures that pass, and the gate that compares it with a baseline. Files are read
    through a parameter, and so is [JSON.parse]. *)

From S2P Require Import Prelude JsNumber NumberText JsMap JsonTree Codec Errors Schema Vcs Config Review.

Definition SEVERITY_ORDER : list Severity := [info; minor; major; critical].

Definition severityRank (s : Severity) : nat :=
  match s with info => 0 | minor => 1 | major => 2 | critical => 3 end.

(** ** Schemas

    Objects that are not strict: other keys are dropped. *)

Definition asFields (v : json) : option (jsmap json) := match v with JObj fields => Some fields | _ => None end.
Definition asAny (v : json) : option json := Some v.

Record FixtureExpected := {
  fe_bugClass : str;
  fe_language : str;
  severity_min : Severity;
  severity_max : Severity;
  severity_modal : Severity;
  fe_rationale : str;
  fe_mustContainAny : option (list str);
}.

Definition FixtureExpectedSchema (v : json) : option FixtureExpected :=
  o ← asFields v;
  _ ← at_ "category" (requiredR (asEnum (texts ["severity-calibration"]%string))) o;
  bug ← at_ "bug_class" (requiredR asName) o;
  lang ← at_ "language" (requiredR asName) o;
  lo ← at_ "severity_min" (requiredR asSeverity) o;
  hi ← at_ "severity_max" (requiredR asSeverity) o;
  mode ← at_ "severity_modal" (requiredR asSeverity) o;
  why ← at_ "rationale" (requiredR asName) o;
  must ← at_ "must_contain_any" (optionalR (asArray asString)) o;
  if (severityRank lo <=? severityRank hi)%nat
     && ((severityRank lo <=? severityRank mode)%nat && (severityRank mode <=? severityRank hi)%nat)
  then Some {| fe_bugClass := bug; fe_language := lang; severity_min := lo; severity_max := hi; severity_modal := mode;
               fe_rationale := why; fe_mustContainAny := must |}
  else None.

(** [/^\d{2}-[a-z0-9-]+$/] *)
Definition isFixtureId (s : str) : bool :=
  match s with
  | a :: b :: c :: (_ :: _) as rest =>
      is_digit a && is_digit b && eqc c "-"
      && forallb (fun x => is_digit x || eqc x "-" || ((97 <=? code x) && (code x <=? 122))%N) (drop 3 s)
  | _ => false
  end.

Record ManifestEntry := { me_id : str; me_category : str; expected_severity_modal : Severity }.
Record Manifest := {
  mf_version : number;
  mf_description : str;
  n_runs_per_fixture : number;
  stability_threshold : number;
  mf_fixtures : list ManifestEntry;
}.

Definition ManifestEntrySchema (v : json) : option ManifestEntry :=
  o ← asFields v;
  id ← at_ "id" (requiredR (checked isFixtureId asString)) o;
  cat ← at_ "category" (requiredR asString) o;
  mode ← at_ "expected_severity_modal" (requiredR asSeverity) o;
  Some {| me_id := id; me_category := cat; expected_severity_modal := mode |}.

Definition between (lo hi : number) (x : number) : bool := nle lo x && nle x hi.
Definition lengthBetween {A} (lo hi : nat) (l : list A) : bool := (lo <=? length l)%nat && (length l <=? hi)%nat.

Definition ManifestSchema (v : json) : option Manifest :=
  o ← asFields v;
  version ← at_ "version" (requiredR (asInt 1 None)) o;
  descr ← at_ "description" (requiredR asString) o;
  n ← at_ "n_runs_per_fixture" (requiredR (asInt 2 (Some 10%Z))) o;
  th ← at_ "stability_threshold" (requiredR (checked (between zero lit_1_0) asNumber)) o;
  fs ← at_ "fixtures" (requiredR (checked (lengthBetween 5 10) (asArray ManifestEntrySchema))) o;
  Some {| mf_version := version; mf_description := descr; n_runs_per_fixture := n; stability_threshold := th;
          mf_fixtures := fs |}.

(** A run's comments, by their severities. *)
Record RunResults := { rs_fixtureId : str; rs_runs : list (list Severity) }.

Definition commentSeverity (v : json) : option Severity := o ← asFields v; at_ "severity" (requiredR asSeverity) o.
Definition runSchema (v : json) : option (list Severity) := o ← asFields v; at_ "comments" (requiredR (asArray commentSeverity)) o.
Definition resultSchema (v : json) : option RunResults :=
  o ← asFields v;
  id ← at_ "fixtureId" (requiredR asString) o;
  runs ← at_ "runs" (requiredR (asArray runSchema)) o;
  Some {| rs_fixtureId := id; rs_runs := runs |}.
Definition ResultsSchema (v : json) : option (list RunResults) :=
  o ← asFields v; at_ "results" (requiredR (asArray resultSchema)) o.

(** [z.number().nullable().optional()] *)
Definition nullableNumber (v : json) : option (option number) := match v with JNull => Some None | _ => Some <$> asNumber v end.
Definition BaselineSchema (v : json) : option (option number) :=
  o ← asFields v;
  rates ← at_ "current_pass_rates" (requiredR asFields) o;
  score ← at_ "severity_consistency_score" (optionalR nullableNumber) rates;
  Some (default None score).

(** ** Scoring *)

(** The highest severity of a run; [None] when it has no comment. *)
Definition primarySeverity (comments : list Severity) : option Severity :=
  match comments with
  | [] => None
  | first :: _ =>
      Some (foldl (fun best c => if (severityRank best <? severityRank c)%nat then c else best) first comments)
  end.

Definition countOf (s : Severity) (runs : list (option Severity)) : nat :=
  length (List.filter (fun r => bool_decide (r = Some s)) runs).

(** The loop over the order; the count starts below every other one. *)
Definition modalStep (runs : list (option Severity)) (acc : Severity * Z) (sev : Severity) : Severity * Z :=
  let c := Z.of_nat (countOf sev runs) in
  if (acc.2 <? c)%Z then (sev, c) else acc.

Definition modalSeverity (runs : list (option Severity)) : option Severity :=
  if forallb (fun r => bool_decide (r = None)) runs then None
  else Some (foldl (modalStep runs) (info, -1)%Z SEVERITY_ORDER).1.

Record FixtureScore := {
  fs_fixtureId : str;
  fs_modal : option Severity;
  fs_modalCount : nat;
  fs_totalRuns : nat;
  fs_stable : bool;
  fs_withinRange : bool;
  fs_passed : bool;
  fs_reason : option str;
}.

Definition failedScore (id : str) (modal : option Severity) (total : nat) (reason : str) : FixtureScore :=
  {| fs_fixtureId := id; fs_modal := modal; fs_modalCount := 0; fs_totalRuns := total; fs_stable := false;
     fs_withinRange := false; fs_passed := false; fs_reason := Some reason |}.

Definition inSeverityRange (e : FixtureExpected) (r : Severity) : bool :=
  (severityRank (severity_min e) <=? severityRank r)%nat && (severityRank r <=? severityRank (severity_max e))%nat.

Section gate.
Context (showNumber : number -> str) (emDash : str).

Definition scoreFixture (expected : FixtureExpected) (id : str) (results : list (option Severity))
    (stabilityThreshold : number) : FixtureScore :=
  match results with
  | [] => failedScore id None 0 "no runs"
  | _ =>
      if existsb (fun r => bool_decide (r = None)) results
      then failedScore id (modalSeverity results) (length results) "one or more runs produced zero comments"
      else
        let runs := omap (fun r => r) results in
        let modal := default info (modalSeverity results) in
        let modalCount := countOf modal results in
        let stable := nge (ndiv (num_of_Z (Z.of_nat modalCount)) (num_of_Z (Zlen runs))) stabilityThreshold in
        let withinRange := forallb (inSeverityRange expected) runs in
        let reasons :=
          (if negb stable
           then ["modal '" ++ severity_str modal ++ "' produced in " ++ showN modalCount ++ "/" ++ showN (length runs)
                   ++ " runs (below " ++ showNumber stabilityThreshold ++ " threshold)"] else [])
          ++ (if negb withinRange
              then ["runs outside [" ++ severity_str (severity_min expected) ++ ", " ++ severity_str (severity_max expected)
                      ++ "]: " ++ join ", " (map severity_str (List.filter (fun r => negb (inSeverityRange expected r)) runs))]
              else []) in
        {| fs_fixtureId := id; fs_modal := Some modal; fs_modalCount := modalCount; fs_totalRuns := length runs;
           fs_stable := stable; fs_withinRange := withinRange; fs_passed := stable && withinRange;
           fs_reason := match reasons with [] => None | _ => Some (join "; " reasons) end |}
  end.

Record AggregateScore := {
  fixturesEvaluated : nat;
  fixturesPassed : nat;
  ag_score : number;
  ag_perFixture : list FixtureScore;
}.

Definition aggregateScore (perFixture : list FixtureScore) : AggregateScore :=
  let passed := length (List.filter fs_passed perFixture) in
  let total := length perFixture in
  let score := if (total =? 0)%nat then zero else ndiv (num_of_Z (Z.of_nat passed)) (num_of_Z (Z.of_nat total)) in
  {| fixturesEvaluated := total; fixturesPassed := passed; ag_score := roundFixed showNumber 4 score;
     ag_perFixture := perFixture |}.

Definition percent (x : number) : str := toFixed showNumber 2 (nmul x (num_of_Z 100)).

(** The reason of a regression; [None] lets the change through. *)
Definition checkGate (currentScore : number) (baselineScore : option number) (maxDropPp : number) : option str :=
  match baselineScore with
  | None => None
  | Some b =>
      let dropPp := nmul (nsub b currentScore) (num_of_Z 100) in
      if ngt dropPp maxDropPp
      then Some ("severity_consistency_score dropped " ++ toFixed showNumber 2 dropPp ++ "pp (baseline " ++ percent b
                   ++ "%, current " ++ percent currentScore ++ "%) " ++ emDash ++ " exceeds " ++ showNumber maxDropPp ++ "pp ceiling")
      else None
  end.

(** ** The script *)

Record ScriptArgs := { sa_resultsPath : str; sa_fixturesDir : str; sa_baselinePath : str; sa_maxDropPp : number }.

(** The loop of [parseArgs]: a known option takes the next argument, whatever it is. *)
Fixpoint parseArgsFrom (FIXTURES_DIR BASELINE_PATH : str) (fuel : nat) (argv : list str) (a : ScriptArgs) : ScriptArgs :=
  match fuel, argv with
  | S fuel, x :: rest =>
      let next := head rest in
      let go := parseArgsFrom FIXTURES_DIR BASELINE_PATH fuel in
      if bool_decide (x = js "--results")
      then go (tail rest) {| sa_resultsPath := default [] next; sa_fixturesDir := sa_fixturesDir a;
                             sa_baselinePath := sa_baselinePath a; sa_maxDropPp := sa_maxDropPp a |}
      else if bool_decide (x = js "--fixtures-dir")
      then go (tail rest) {| sa_resultsPath := sa_resultsPath a; sa_fixturesDir := default FIXTURES_DIR next;
                             sa_baselinePath := sa_baselinePath a; sa_maxDropPp := sa_maxDropPp a |}
      else if bool_decide (x = js "--baseline")
      then go (tail rest) {| sa_resultsPath := sa_resultsPath a; sa_fixturesDir := sa_fixturesDir a;
                             sa_baselinePath := default BASELINE_PATH next; sa_maxDropPp := sa_maxDropPp a |}
      else if bool_decide (x = js "--max-drop-pp")
      then go (tail rest) {| sa_resultsPath := sa_resultsPath a; sa_fixturesDir := sa_fixturesDir a;
                             sa_baselinePath := sa_baselinePath a; sa_maxDropPp := parseFloat (default (js "5") next) |}
      else go rest a
  | _, _ => a
  end.

Definition parseArgs (FIXTURES_DIR BASELINE_PATH : str) (argv : list str) : result thrown ScriptArgs :=
  let a := parseArgsFrom FIXTURES_DIR BASELINE_PATH (length argv) argv
             {| sa_resultsPath := []; sa_fixturesDir := FIXTURES_DIR; sa_baselinePath := BASELINE_PATH;
                sa_maxDropPp := num_of_Z 5 |} in
  if bool_decide (sa_resultsPath a = [])
  then error "Usage: severity-consistency --results <results.json> [--fixtures-dir <dir>] [--baseline <path>] [--max-drop-pp <n>]"
  else Ok a.

Context {W : Type} (readFile : str -> eff W thrown str) (parseJSON : str -> option json) (joinPath : list str -> str).

Definition readJson {A} (path : str) (parser : json -> option A) : eff W thrown A :=
  raw ← readFile path;
  match parseJSON raw with
  | None => throw (errorOf "Unexpected token in JSON")
  | Some v => match parser v with Some a => mret a | None => throw (errorOf "Invalid input") end
  end.

Definition loadExpected (fixturesDir id : str) : eff W thrown FixtureExpected :=
  readJson (joinPath [fixturesDir; id; js "expected.json"]) FixtureExpectedSchema.

Fixpoint loadAll (fixturesDir : str) (entries : list ManifestEntry) (m : jsmap FixtureExpected) : eff W thrown (jsmap FixtureExpected) :=
  match entries with
  | [] => mret m
  | e :: rest => x ← loadExpected fixturesDir (me_id e); loadAll fixturesDir rest (mapSet (me_id e) x m)
  end.

Definition scoreEntry (expectedById : jsmap FixtureExpected) (results : list RunResults) (threshold : number) (entry : ManifestEntry)
    : FixtureScore :=
  match mapGet (me_id entry) expectedById with
  | None => failedScore (me_id entry) None 0 "expected.json missing"
  | Some expected =>
      match List.find (fun r => bool_decide (rs_fixtureId r = me_id entry)) results with
      | None => failedScore (me_id entry) None 0 "no runs in results file"
      | Some r => scoreFixture expected (me_id entry) (map primarySeverity (rs_runs r)) threshold
      end
  end.

Definition fixtureLine (f : FixtureScore) : str :=
  "  [" ++ (if fs_passed f then js "PASS" else js "FAIL") ++ "] " ++ fs_fixtureId f ++ " (modal="
    ++ default (js "null") (severity_str <$> fs_modal f) ++ ", " ++ showN (fs_modalCount f) ++ "/" ++ showN (fs_totalRuns f) ++ ")"
    ++ match truthyStr (fs_reason f) with Some r => " " ++ emDash ++ " " ++ r | None => [] end.

Record ScoringResult := { sc_ok : bool; sc_score : number; sc_baseline : option number; sc_report : str }.

Definition runScoring (opts : ScriptArgs) : eff W thrown ScoringResult :=
  manifest ← readJson (joinPath [sa_fixturesDir opts; js "manifest.json"]) ManifestSchema;
  results ← readJson (sa_resultsPath opts) ResultsSchema;
  baselineScore ← readJson (sa_baselinePath opts) BaselineSchema;
  expectedById ← loadAll (sa_fixturesDir opts) (mf_fixtures manifest) [];
  let agg := aggregateScore (map (scoreEntry expectedById results (stability_threshold manifest)) (mf_fixtures manifest)) in
  let gate := checkGate (ag_score agg) baselineScore (sa_maxDropPp opts) in
  mret {| sc_ok := bool_decide (gate = None); sc_score := ag_score agg; sc_baseline := baselineScore;
          sc_report := join nl
            (["severity_consistency_score: " ++ percent (ag_score agg) ++ "%  (" ++ showN (fixturesPassed agg) ++ "/"
                ++ showN (fixturesEvaluated agg) ++ ")";
              "baseline: " ++ match baselineScore with None => js "<unmeasured>" | Some b => percent b ++ "%" end
                ++ "  gate: max drop " ++ showNumber (sa_maxDropPp opts) ++ "pp";
              []]
             ++ map fixtureLine (ag_perFixture agg)
             ++ [[]; match gate with None => js "GATE: ok" | Some r => "GATE: REGRESSED " ++ emDash ++ " " ++ r end]) |}.
End gate.

(** ** The modal severity *)

Lemma severityRank_inj a b : severityRank a = severityRank b -> a = b.
Proof. by destruct a, b. Qed.

(** The most frequent severity, the lowest of several. *)
Definition mostFrequent (m : Severity) (runs : list (option Severity)) : Prop :=
  forall s, countOf s runs <= countOf m runs /\ (countOf s runs = countOf m runs -> severityRank m <= severityRank s).

Lemma modalFold_spec runs : mostFrequent (foldl (modalStep runs) (info, -1)%Z SEVERITY_ORDER).1 runs.
Proof.
  intros s. cbn [foldl SEVERITY_ORDER]. unfold modalStep. cbn [fst snd].
  repeat (case_match; cbn [fst snd] in *; to_prop); destruct s; cbn [severityRank]; lia.
Qed.

Lemma mostFrequent_unique m m' runs : mostFrequent m runs -> mostFrequent m' runs -> m = m'.
Proof.
  intros H H'. apply severityRank_inj. destruct (H m') as [H1 H2], (H' m) as [H3 H4].
  assert (countOf m' runs = countOf m runs) as E by lia. specialize (H2 E). symmetry in E. specialize (H4 E). lia.
Qed.

Lemma modalSeverity_spec runs m : modalSeverity runs = Some m -> mostFrequent m runs.
Proof. unfold modalSeverity. case_match; [done|]. intros [= <-]. apply modalFold_spec. Qed.

Lemma modalSeverity_None runs : modalSeverity runs = None <-> Forall (fun r => r = None) runs.
Proof.
  unfold modalSeverity. rewrite Forall_forall. destruct (forallb _ runs) eqn:E.
  - rewrite forallb_elem in E. split; [|done]. intros _ r Hr. by apply E, bool_decide_eq_true in Hr.
  - split; [done|]. intros H. exfalso. apply not_true_iff_false in E. apply E, forallb_elem.
    intros r Hr. by apply bool_decide_eq_true, H.
Qed.

(** The primary severity is the highest of the run. *)
Lemma primarySeverity_max cs : match primarySeverity cs with
  | None => cs = []
  | Some s => s ∈ cs /\ forall c, c ∈ cs -> severityRank c <= severityRank s
  end.
Proof.
  destruct cs as [|first rest]; [done|]. unfold primarySeverity. set (l := first :: rest).
  assert (forall l' best, best ∈ l -> (forall c, c ∈ l' -> c ∈ l) ->
    let r := foldl (fun best c => if (severityRank best <? severityRank c)%nat then c else best) best l' in
    r ∈ l /\ severityRank best <= severityRank r /\ forall c, c ∈ l' -> severityRank c <= severityRank r) as H.
  { induction l' as [|x l' IH]; intros best Hb Hl; cbn [foldl].
    - split_and!; [done|lia|]. intros c Hc. by apply elem_of_nil in Hc.
    - destruct (Nat.ltb_spec (severityRank best) (severityRank x)) as [Hlt|Hge].
      + destruct (IH x) as (H1 & H2 & H3); [apply Hl; left|intros c Hc; apply Hl; by right|].
        split_and!; [done|lia|]. intros c [->|Hc]%elem_of_cons; [done|by apply H3].
      + destruct (IH best) as (H1 & H2 & H3); [done|intros c Hc; apply Hl; by right|].
        split_and!; [done|done|]. intros c [->|Hc]%elem_of_cons; [lia|by apply H3]. }
  destruct (H l first) as (H1 & _ & H3); [left|done|]. done.
Qed.

(** What a fixture whose runs all have comments asks of them. *)
Definition runInRange (expected : FixtureExpected) (cs : list Severity) : Prop :=
  exists s, s ∈ cs /\ (forall c, c ∈ cs -> severityRank c <= severityRank s) /\
    severityRank (severity_min expected) <= severityRank s <= severityRank (severity_max expected).

Lemma runs_in_range expected runs :
  (forall cs, cs ∈ runs -> exists s, primarySeverity cs = Some s) ->
  (forall s, s ∈ omap (fun r => r) (map primarySeverity runs) -> inSeverityRange expected s = true) <->
  (forall cs, cs ∈ runs -> runInRange expected cs).
Proof.
  intros Hsome. unfold inSeverityRange, runInRange. split.
  - intros H cs Hin. destruct (Hsome cs Hin) as [s Es]. pose proof (primarySeverity_max cs) as Hm. rewrite Es in Hm.
    exists s. destruct Hm as [Hs Hmax]. split_and!; try done; specialize (H s);
      rewrite andb_true_iff, !Nat.leb_le in H; apply H; apply list_elem_of_omap; exists (Some s); (split; [|done]);
      apply elem_of_bmap; by exists cs.
  - intros H s Hs. apply list_elem_of_omap in Hs as (r & Hr & ->). apply elem_of_bmap in Hr as (cs & Ecs & Hin).
    destruct (H cs Hin) as (s' & Hs' & Hmax & Hrange). pose proof (primarySeverity_max cs) as Hm. rewrite <- Ecs in Hm.
    destruct Hm as [Hs Hm]. assert (s = s') as ->; [|by rewrite andb_true_iff, !Nat.leb_le].
    apply severityRank_inj. specialize (Hm _ Hs'). specialize (Hmax _ Hs). lia.
Qed.

(** A ceiling that is not a number lets every score through. *)
Lemma nan_ceiling showNumber emDash current baseline : checkGate showNumber emDash current baseline nan = None.
Proof.
  unfold checkGate. destruct baseline as [b|]; [|done]. unfold ngt, SpecFloat.SFltb.
  by destruct (nmul _ _) as [[]|[]| |[]].
Qed.

(** The drop is not rounded before it is compared: 70% after 80% is refused under a ceiling of ten
    points, 80% after 90% is not. *)
Example unrounded_drop : forall showNumber emDash,
  checkGate showNumber emDash (parseFloat "0.7") (Some (parseFloat "0.8")) (num_of_Z 10) <> None /\
  checkGate showNumber emDash (parseFloat "0.8") (Some (parseFloat "0.9")) (num_of_Z 10) = None.
Proof. intros showNumber emDash. split; [|vm_compute; reflexivity]. vm_compute. discriminate. Qed.

(** ** Property *)

(** A fixture passes exactly when it was run, every run gave a comment, every run's severity is
    within the expected range, and the most frequent severity - the lowest of several - reaches the
    threshold's share of the runs. A run's severity is the highest of its comments. *)
Theorem fixture_passes_exactly_when showNumber expected id runs threshold :
  let results := map primarySeverity runs in
  fs_passed (scoreFixture showNumber expected id results threshold) = true <->
  runs <> [] /\
  (forall cs, cs ∈ runs -> runInRange expected cs) /\
  exists m, mostFrequent m results /\
    nge (ndiv (num_of_Z (Z.of_nat (countOf m results))) (num_of_Z (Zlen runs))) threshold = true.
Proof.
  intros results. unfold scoreFixture. destruct runs as [|run0 runs']; [by split; [|intros []]|].
  assert (results = primarySeverity run0 :: map primarySeverity runs') as E by done. rewrite E, <- E.
  set (runs := run0 :: runs') in *. destruct (existsb _ results) eqn:Hnull.
  { cbn [fs_passed failedScore]. split; [done|]. intros (_ & Hall & _). exfalso. apply existsb_elem in Hnull as (r & Hr & Hn).
    apply bool_decide_eq_true in Hn as ->. apply elem_of_bmap in Hr as (cs & Hcs & Hin).
    destruct (Hall cs Hin) as (s & Hs & _). pose proof (primarySeverity_max cs) as Hm. rewrite <- Hcs in Hm. subst cs.
    by apply elem_of_nil in Hs. }
  assert (forall cs, cs ∈ runs -> exists s, primarySeverity cs = Some s) as Hsome.
  { intros cs Hin. destruct (primarySeverity cs) as [s|] eqn:Es; [by exists s|]. apply not_true_iff_false in Hnull.
    exfalso. apply Hnull, existsb_elem. exists None. split; [|by apply bool_decide_eq_true]. apply elem_of_bmap. by exists cs. }
  assert (length (omap (fun r => r) results) = length runs) as Hlen.
  { unfold results. clear E Hnull. clearbody runs. induction runs as [|cs rs IH]; [done|].
    destruct (Hsome cs) as [s Es]; [left|]. cbn. rewrite Es. cbn. f_equal. apply IH. intros c Hc. apply Hsome. by right. }
  assert (exists m, modalSeverity results = Some m) as [m Em].
  { destruct (modalSeverity results) as [m|] eqn:Em; [by exists m|]. apply modalSeverity_None in Em. rewrite E in Em.
    inversion Em as [|? ? H0 _]; subst. destruct (Hsome run0) as [s Es]; [left|]. congruence. }
  cbn [fs_passed]. rewrite Em. cbn [default]. unfold Zlen. rewrite Hlen, andb_true_iff, forallb_elem.
  pose proof (runs_in_range expected runs Hsome) as HR. change (map primarySeverity runs) with results in HR. rewrite HR.
  split.
  - intros [Hst Hr]. split; [done|]. split; [done|]. exists m. split; [by apply modalSeverity_spec|done].
  - intros (_ & Hr & m' & Hm' & Hst). split; [|done].
    rewrite (mostFrequent_unique m m' results); [done|by apply modalSeverity_spec|done].
Qed.
