(* ===== verification/CategoryGate.v ===== *)
(** * The category gate (eval/scripts/review-category-gate-core.ts, eval/scripts/review-category-gate.ts,
    eval/scripts/review-category-baseline.ts)

    Precision and recall of the findings a candidate reviewer emits, per category of fixtures, the
    gate that compares them with a baseline, and the script that records one. Regular expressions,
    [JSON.parse], [JSON.stringify] and the clock are parameters, and so are the files. The expected
    findings of the fixtures are asked for together; they are read here in the order of the manifest.
    The results: true positives and misses add up, and the gate passes on the run that recorded its
    baseline. *)

From S2P Require Import Prelude JsNumber NumberText JsMap JsonTree Codec Errors Schema Vcs Config Review SeverityGate.

Inductive ReviewCategory := cat_security | cat_performance | cat_style | cat_tests | cat_correctness.
#[export] Instance ReviewCategory_eq_dec : EqDecision ReviewCategory.
Proof. solve_decision. Defined.

Definition REVIEW_CATEGORIES : list ReviewCategory := [cat_security; cat_performance; cat_style; cat_tests; cat_correctness].
Definition category_str (c : ReviewCategory) : str :=
  match c with
  | cat_security => js "security" | cat_performance => js "performance" | cat_style => js "style"
  | cat_tests => js "tests" | cat_correctness => js "correctness"
  end.

(** ** Schemas *)

Definition asReviewCategory : json -> option ReviewCategory := asEnum (map (fun c => (category_str c, c)) REVIEW_CATEGORIES).
(** [.min(1)] of an array *)
Definition notEmpty {A} (l : list A) : bool := negb (bool_decide (length l = 0)).
(** [z.number().min(0).max(1)] *)
Definition asShare : json -> option number := checked (between zero lit_1_0) asNumber.
Definition asNullable {A} (f : json -> option A) (v : json) : option (option A) :=
  match v with JNull => Some None | _ => Some <$> f v end.

Record ExpectedFinding := { ef_id : str; ef_mustContainAny : list str; ef_severity : option Severity }.
Definition ExpectedFindingSchema (v : json) : option ExpectedFinding :=
  o ← asFields v;
  id ← at_ "id" (requiredR asName) o;
  must ← at_ "must_contain_any" (requiredR (checked notEmpty (asArray asName))) o;
  sev ← at_ "severity" (optionalR asSeverity) o;
  Some {| ef_id := id; ef_mustContainAny := must; ef_severity := sev |}.

Record CategoryExpected := {
  ce_category : ReviewCategory;
  ce_bugClass : str;
  ce_language : str;
  expected_findings : list ExpectedFinding;
  ce_rationale : str;
}.
Definition CategoryExpectedSchema (v : json) : option CategoryExpected :=
  o ← asFields v;
  cat ← at_ "review_category" (requiredR asReviewCategory) o;
  bug ← at_ "bug_class" (requiredR asName) o;
  lang ← at_ "language" (requiredR asName) o;
  fs ← at_ "expected_findings" (requiredR (asArray ExpectedFindingSchema)) o;
  why ← at_ "rationale" (requiredR asName) o;
  Some {| ce_category := cat; ce_bugClass := bug; ce_language := lang; expected_findings := fs; ce_rationale := why |}.

Record ManifestEntry := { me_id : str; me_category : ReviewCategory }.
Definition ManifestEntrySchema (v : json) : option ManifestEntry :=
  o ← asFields v;
  id ← at_ "id" (requiredR asName) o;
  cat ← at_ "review_category" (requiredR asReviewCategory) o;
  Some {| me_id := id; me_category := cat |}.

Record CategoryManifest := { cm_version : number; cm_description : str; cm_fixtures : list ManifestEntry }.
Definition CategoryManifestSchema (v : json) : option CategoryManifest :=
  o ← asFields v;
  version ← at_ "version" (requiredR (asInt 1 None)) o;
  descr ← at_ "description" (requiredR asString) o;
  fs ← at_ "fixtures" (requiredR (checked notEmpty (asArray ManifestEntrySchema))) o;
  Some {| cm_version := version; cm_description := descr; cm_fixtures := fs |}.

Record ActualFinding := { af_id : option str; af_body : str; af_severity : option Severity; af_ruleId : option str }.
Definition ActualFindingSchema (v : json) : option ActualFinding :=
  o ← asFields v;
  id ← at_ "id" (optionalR asString) o;
  body ← at_ "body" (requiredR asString) o;
  sev ← at_ "severity" (optionalR asSeverity) o;
  rule ← at_ "ruleId" (optionalR asString) o;
  Some {| af_id := id; af_body := body; af_severity := sev; af_ruleId := rule |}.

Record FixtureRun := { fr_fixtureId : str; fr_findings : list ActualFinding }.
Definition FixtureRunSchema (v : json) : option FixtureRun :=
  o ← asFields v;
  id ← at_ "fixtureId" (requiredR asString) o;
  fs ← at_ "findings" (requiredR (asArray ActualFindingSchema)) o;
  Some {| fr_fixtureId := id; fr_findings := fs |}.
Definition CandidateRunsSchema (v : json) : option (list FixtureRun) :=
  o ← asFields v; at_ "results" (requiredR (asArray FixtureRunSchema)) o.

Record CategoryMetrics := { mt_precision : option number; mt_recall : option number }.
Definition CategoryMetricsSchema (v : json) : option CategoryMetrics :=
  o ← asFields v;
  p ← at_ "precision" (requiredR (asNullable asShare)) o;
  r ← at_ "recall" (requiredR (asNullable asShare)) o;
  Some {| mt_precision := p; mt_recall := r |}.

Record CategoryThreshold := { precision_drop_max : number; recall_drop_max : number }.
Definition CategoryThresholdSchema (v : json) : option CategoryThreshold :=
  o ← asFields v;
  p ← at_ "precision_drop_max" (requiredR asShare) o;
  r ← at_ "recall_drop_max" (requiredR asShare) o;
  Some {| precision_drop_max := p; recall_drop_max := r |}.

Definition isReviewCategory (k : str) : bool := bool_decide (k ∈ map category_str REVIEW_CATEGORIES).

Record BaselineCurrent := { bc_pending : option bool; bc_perCategory : jsmap CategoryMetrics }.
Definition BaselineCurrentSchema (v : json) : option BaselineCurrent :=
  o ← asFields v;
  pending ← at_ "pending_measurement" (optionalR asBool) o;
  per ← at_ "per_category" (requiredR (asRecord isReviewCategory CategoryMetricsSchema)) o;
  Some {| bc_pending := pending; bc_perCategory := per |}.

Record BaselineThresholds := {
  default_precision_drop_max : number;
  default_recall_drop_max : number;
  bt_perCategory : jsmap CategoryThreshold;
}.
Definition BaselineThresholdsSchema (v : json) : option BaselineThresholds :=
  o ← asFields v;
  p ← at_ "default_precision_drop_max" (requiredR asShare) o;
  r ← at_ "default_recall_drop_max" (requiredR asShare) o;
  per ← at_ "per_category" (requiredR (asRecord isReviewCategory CategoryThresholdSchema)) o;
  Some {| default_precision_drop_max := p; default_recall_drop_max := r; bt_perCategory := per |}.

Record CategoryBaseline := {
  cb_version : number;
  cb_thresholds : BaselineThresholds;
  cb_current : BaselineCurrent;
  cb_history : list json;
}.
Definition CategoryBaselineSchema (v : json) : option CategoryBaseline :=
  o ← asFields v;
  version ← at_ "version" (requiredR (asInt 1 None)) o;
  th ← at_ "thresholds" (requiredR BaselineThresholdsSchema) o;
  cur ← at_ "current" (requiredR BaselineCurrentSchema) o;
  hist ← at_ "history" (requiredR (asArray asAny)) o;
  Some {| cb_version := version; cb_thresholds := th; cb_current := cur; cb_history := hist |}.

(** ** Scoring *)

Record FixtureScore := {
  fs_fixtureId : str;
  fs_category : ReviewCategory;
  truePositives : nat;
  expectedCount : nat;
  actualCount : nat;
  matched : list str;
  missed : list str;
}.

Record CategoryScore := {
  cs_category : ReviewCategory;
  cs_precision : number;
  cs_recall : number;
  cs_fixtureCount : nat;
  totalExpected : nat;
  totalActual : nat;
  totalTruePositives : nat;
}.

Record AggregateResult := { perCategory : ReviewCategory -> option CategoryScore; ar_perFixture : list FixtureScore }.

(** The counts of a category. *)
Record Tally := { ta_tp : nat; ta_expected : nat; ta_actual : nat; ta_fixtures : nat }.

Definition countInto (byCategory : ReviewCategory -> Tally) (fx : FixtureScore) : ReviewCategory -> Tally := fun c =>
  let acc := byCategory c in
  if bool_decide (c = fs_category fx)
  then {| ta_tp := ta_tp acc + truePositives fx; ta_expected := ta_expected acc + expectedCount fx;
          ta_actual := ta_actual acc + actualCount fx; ta_fixtures := S (ta_fixtures acc) |}
  else acc.

Definition ratio (n d : nat) : number :=
  if (d =? 0)%nat then zero else ndiv (num_of_Z (Z.of_nat n)) (num_of_Z (Z.of_nat d)).

Inductive Metric := m_precision | m_recall.
Definition metric_str (m : Metric) : str := match m with m_precision => js "precision" | m_recall => js "recall" end.

Record GateFinding := {
  gf_category : ReviewCategory;
  gf_metric : Metric;
  gf_current : number;
  gf_baseline : number;
  gf_dropPp : number;
  gf_maxDropPp : number;
}.

Record GateResult := { gr_ok : bool; regressions : list GateFinding; unmeasured : list ReviewCategory }.

Record GateOptions := { go_resultsPath : str; go_fixturesDir : str; go_baselinePath : str }.
Record MeasureOptions := { mo_gate : GateOptions; mo_modelId : str; mo_gitSha : str; mo_notes : str; mo_apply : bool }.

Section gate.
Context (newRegExp : str -> option (str -> bool)) (showNumber : number -> str) (emDash : str).

(** A pattern that is no regular expression is looked for as it stands. *)
Definition findingMatches (e : ExpectedFinding) (candidateBody : str) : bool :=
  existsb (fun pattern => match newRegExp pattern with
                          | Some re => re candidateBody
                          | None => includes (toLowerCase candidateBody) (toLowerCase pattern)
                          end) (ef_mustContainAny e).

Definition scoreFixture (expected : CategoryExpected) (actual : list ActualFinding) (fixtureId : str) : FixtureScore :=
  let '(hits, misses) :=
    foldl (fun '(hits, misses) e => if existsb (fun af => findingMatches e (af_body af)) actual
                                    then (hits ++ [ef_id e], misses) else (hits, misses ++ [ef_id e]))
      ([], []) (expected_findings expected) in
  {| fs_fixtureId := fixtureId; fs_category := ce_category expected; truePositives := length hits;
     expectedCount := length (expected_findings expected); actualCount := length actual;
     matched := hits; missed := misses |}.

Definition categoryScore (cat : ReviewCategory) (acc : Tally) : CategoryScore :=
  {| cs_category := cat; cs_precision := roundFixed showNumber 4 (ratio (ta_tp acc) (ta_actual acc));
     cs_recall := roundFixed showNumber 4 (ratio (ta_tp acc) (ta_expected acc)); cs_fixtureCount := ta_fixtures acc;
     totalExpected := ta_expected acc; totalActual := ta_actual acc; totalTruePositives := ta_tp acc |}.

Definition aggregateCategoryScores (perFixture : list FixtureScore) : AggregateResult :=
  let byCategory := foldl countInto (fun _ => {| ta_tp := 0; ta_expected := 0; ta_actual := 0; ta_fixtures := 0 |}) perFixture in
  {| perCategory := fun cat => if bool_decide (cat ∈ REVIEW_CATEGORIES) then Some (categoryScore cat (byCategory cat)) else None;
     ar_perFixture := perFixture |}.

(** The regression of one metric, if there is one. *)
Definition dropOf (cat : ReviewCategory) (metric : Metric) (current baseline maxDrop : number) : list GateFinding :=
  let drop := roundFixed showNumber 6 (nsub baseline current) in
  if ngt drop maxDrop
  then [{| gf_category := cat; gf_metric := metric; gf_current := current; gf_baseline := baseline;
           gf_dropPp := roundFixed showNumber 2 (nmul drop (num_of_Z 100));
           gf_maxDropPp := roundFixed showNumber 2 (nmul maxDrop (num_of_Z 100)) |}]
  else [].

Definition checkCategory (current : ReviewCategory -> option CategoryScore) (baseline : CategoryBaseline)
    (acc : list GateFinding * list ReviewCategory) (cat : ReviewCategory) : list GateFinding * list ReviewCategory :=
  match current cat with
  | None => acc
  | Some score =>
      let th := cb_thresholds baseline in
      let thresholdCat := mapGet (category_str cat) (bt_perCategory th) in
      let precisionDropMax := default (default_precision_drop_max th) (precision_drop_max <$> thresholdCat) in
      let recallDropMax := default (default_recall_drop_max th) (recall_drop_max <$> thresholdCat) in
      match mapGet (category_str cat) (bc_perCategory (cb_current baseline)) with
      | Some {| mt_precision := Some p; mt_recall := Some r |} =>
          (acc.1 ++ dropOf cat m_precision (cs_precision score) p precisionDropMax
                 ++ dropOf cat m_recall (cs_recall score) r recallDropMax, acc.2)
      | _ => (acc.1, acc.2 ++ [cat])
      end
  end.

Definition checkCategoryGate (current : ReviewCategory -> option CategoryScore) (baseline : CategoryBaseline) : GateResult :=
  let '(found, unknown) := foldl (checkCategory current baseline) ([], []) REVIEW_CATEGORIES in
  {| gr_ok := (length found =? 0)%nat; regressions := found; unmeasured := unknown |}.

Definition percentWith (f : nat) (x : number) : str := toFixed showNumber f (nmul x (num_of_Z 100)) ++ "%".

Definition scoreLine (cs : CategoryScore) : str :=
  "  [" ++ category_str (cs_category cs) ++ "]  precision=" ++ percentWith 1 (cs_precision cs) ++ "  recall="
    ++ percentWith 1 (cs_recall cs) ++ "  fixtures=" ++ showN (cs_fixtureCount cs) ++ "  tp="
    ++ showN (totalTruePositives cs) ++ "/" ++ showN (totalExpected cs).

Definition regressionLine (r : GateFinding) : str :=
  "  [" ++ category_str (gf_category r) ++ "] " ++ metric_str (gf_metric r) ++ ": " ++ percentWith 1 (gf_current r) ++ " (was "
    ++ percentWith 1 (gf_baseline r) ++ ") " ++ emDash ++ " drop " ++ showNumber (gf_dropPp r) ++ "pp exceeds max "
    ++ showNumber (gf_maxDropPp r) ++ "pp".

Definition renderGateReport (res : AggregateResult) (gate : GateResult) : str :=
  join nl
    ([js "=== review-category precision/recall gate ==="; []; js "Per-category scores:"]
     ++ map scoreLine (omap (perCategory res) REVIEW_CATEGORIES) ++ [[]]
     ++ (match unmeasured gate with
         | [] => []
         | cats => ["Unmeasured categories (informational): " ++ join ", " (map category_str cats);
                    js "  Run `pnpm eval:baseline --apply` to record the initial baseline."; []]
         end)
     ++ match regressions gate with
        | [] => [js "GATE: ok"]
        | rs => js "GATE: REGRESSED" :: map regressionLine rs
        end).

(** ** The scripts *)

Context {W : Type} (readFile : str -> eff W thrown str) (writeFile : str -> str -> eff W thrown unit)
  (parseJSON : str -> option json) (stringify : json -> str) (joinPath : list str -> str)
  (nowIso : eff W thrown str).

Definition readSchema {A} : str -> (json -> option A) -> eff W thrown A := readJson readFile parseJSON.

Definition scoreEntryOf (fixturesDir : str) (runsByFixture : jsmap (list ActualFinding)) (entry : ManifestEntry) : eff W thrown FixtureScore :=
  expected ← readSchema (joinPath [fixturesDir; me_id entry; js "expected.json"]) CategoryExpectedSchema;
  mret (scoreFixture expected (default [] (mapGet (me_id entry) runsByFixture)) (me_id entry)).

(** What both scripts begin with: the scores of the results file, and the baseline as it stands. *)
Definition measure (opts : GateOptions) : eff W thrown (AggregateResult * CategoryBaseline) :=
  manifest ← readSchema (joinPath [go_fixturesDir opts; js "manifest.json"]) CategoryManifestSchema;
  candidateRuns ← readSchema (go_resultsPath opts) CandidateRunsSchema;
  baseline ← readSchema (go_baselinePath opts) CategoryBaselineSchema;
  let runsByFixture := foldl (fun m r => mapSet (fr_fixtureId r) (fr_findings r) m) [] candidateRuns in
  perFixture ← mapM (scoreEntryOf (go_fixturesDir opts) runsByFixture) (cm_fixtures manifest);
  mret (aggregateCategoryScores perFixture, baseline).

Definition runGate (opts : GateOptions) : eff W thrown (bool * str) :=
  ab ← measure opts;
  let gate := checkCategoryGate (perCategory ab.1) ab.2 in
  mret (gr_ok gate, renderGateReport ab.1 gate).

Definition scorePair (cs : option CategoryScore) : number * number :=
  (default zero (cs_precision <$> cs), default zero (cs_recall <$> cs)).

(** [newPerCategory] *)
Definition perCategoryJson (agg : AggregateResult) : json :=
  JObj (map (fun cat => let '(p, r) := scorePair (perCategory agg cat) in
                        (category_str cat, obj [("precision"%string, Some (JNum p)); ("recall"%string, Some (JNum r))]))
          REVIEW_CATEGORIES).

Definition orNull (s : str) : json := match s with [] => JNull | _ => JStr s end.

Definition historyEntry (opts : MeasureOptions) (recordedAt : str) (agg : AggregateResult) : json :=
  obj [("recorded_at"%string, Some (JStr recordedAt)); ("model_id"%string, Some (JStr (mo_modelId opts)));
       ("git_sha"%string, Some (orNull (mo_gitSha opts))); ("notes"%string, Some (orNull (mo_notes opts)));
       ("per_category"%string, Some (perCategoryJson agg))].

(** The writes to [current]: on an array they are lost when it is printed. *)
Definition patchCurrent (agg : AggregateResult) (v : option json) : option json :=
  match v with
  | Some (JObj cur) =>
      Some (JObj (mapSet (js "per_category") (perCategoryJson agg) (mapSet (js "pending_measurement") (JBool false) cur)))
  | Some (JArr l) => Some (JArr l)
  | _ => None
  end.

(** The baseline file with the measurement; [None] when an assignment throws. *)
Definition patchBaseline (opts : MeasureOptions) (recordedAt : str) (agg : AggregateResult) (v : json) : option json :=
  o ← asFields v;
  let o := mapSet (js "recorded_at") (JStr recordedAt) o in
  let o := mapSet (js "model") (JStr (mo_modelId opts)) o in
  let o := mapSet (js "git_sha") (orNull (mo_gitSha opts)) o in
  cur ← patchCurrent agg (mapGet (js "current") o);
  let o := mapSet (js "current") cur o in
  let hist := match mapGet (js "history") o with Some (JArr l) => l | _ => [] end in
  Some (JObj (mapSet (js "history") (JArr (hist ++ [historyEntry opts recordedAt agg])) o)).

Definition captureLine (cs : CategoryScore) : str :=
  "  [" ++ category_str (cs_category cs) ++ "]  precision=" ++ percentWith 2 (cs_precision cs) ++ "  recall="
    ++ percentWith 2 (cs_recall cs).

Definition captureReport (opts : MeasureOptions) (agg : AggregateResult) : list str :=
  [js "=== review-category baseline capture ==="; []] ++ map captureLine (omap (perCategory agg) REVIEW_CATEGORIES)
  ++ [[]; "model: " ++ mo_modelId opts;
      "git_sha: " ++ match mo_gitSha opts with [] => js "<unspecified>" | s => s end;
      "apply: " ++ (if mo_apply opts then "YES " ++ emDash ++ " category-baseline.json will be rewritten" else js "NO (dry-run)")].

(** [--apply]: the file is read again and its other members are kept. *)
Definition applyBaseline (opts : MeasureOptions) (agg : AggregateResult) : eff W thrown (list str) :=
  now ← nowIso;
  let recordedAt := take 10 now in
  raw ← readFile (go_baselinePath (mo_gate opts));
  match parseJSON raw with
  | None => throw (errorOf "Unexpected token in JSON")
  | Some v =>
      match patchBaseline opts recordedAt agg v with
      | None => throw (errorOf "Cannot set properties of undefined")
      | Some v' =>
          writeFile (go_baselinePath (mo_gate opts)) (stringify v' ++ nl);;
          mret ["category-baseline.json updated (" ++ recordedAt ++ ")."]
      end
  end.

(** The scores recorded, per category, and the report. The last check is of the baseline read at the
    start, which has passed it. *)
Definition measureCategoryBaseline (opts : MeasureOptions) : eff W thrown ((ReviewCategory -> number * number) * str) :=
  ab ← measure (mo_gate opts);
  let agg := ab.1 in
  applied ← (if mo_apply opts then applyBaseline opts agg else mret []);
  mret (fun cat => scorePair (perCategory agg cat), join nl (captureReport opts agg ++ applied)).

End gate.

(** ** The arguments *)

(** The loop of [parseArgs] in review-category-baseline.ts: an option takes the next argument, whatever
    it is; one without a next argument has its default. *)
Fixpoint parseMeasureFrom (FIXTURES BASELINE : str) (fuel : nat) (argv : list str) (o : MeasureOptions) : MeasureOptions :=
  match fuel, argv with
  | S fuel, x :: rest =>
      let next := head rest in
      let go := parseMeasureFrom FIXTURES BASELINE fuel in
      let g := mo_gate o in
      let withGate g' := {| mo_gate := g'; mo_modelId := mo_modelId o; mo_gitSha := mo_gitSha o; mo_notes := mo_notes o;
                            mo_apply := mo_apply o |} in
      if bool_decide (x = js "--results")
      then go (tail rest) (withGate {| go_resultsPath := default [] next; go_fixturesDir := go_fixturesDir g;
                                       go_baselinePath := go_baselinePath g |})
      else if bool_decide (x = js "--fixtures-dir")
      then go (tail rest) (withGate {| go_resultsPath := go_resultsPath g; go_fixturesDir := default FIXTURES next;
                                       go_baselinePath := go_baselinePath g |})
      else if bool_decide (x = js "--baseline")
      then go (tail rest) (withGate {| go_resultsPath := go_resultsPath g; go_fixturesDir := go_fixturesDir g;
                                       go_baselinePath := default BASELINE next |})
      else if bool_decide (x = js "--model-id")
      then go (tail rest) {| mo_gate := g; mo_modelId := default (mo_modelId o) next; mo_gitSha := mo_gitSha o;
                             mo_notes := mo_notes o; mo_apply := mo_apply o |}
      else if bool_decide (x = js "--git-sha")
      then go (tail rest) {| mo_gate := g; mo_modelId := mo_modelId o; mo_gitSha := default [] next;
                             mo_notes := mo_notes o; mo_apply := mo_apply o |}
      else if bool_decide (x = js "--notes")
      then go (tail rest) {| mo_gate := g; mo_modelId := mo_modelId o; mo_gitSha := mo_gitSha o;
                             mo_notes := default [] next; mo_apply := mo_apply o |}
      else if bool_decide (x = js "--apply")
      then go rest {| mo_gate := g; mo_modelId := mo_modelId o; mo_gitSha := mo_gitSha o; mo_notes := mo_notes o; mo_apply := true |}
      else go rest o
  | _, _ => o
  end.

Definition parseMeasureArgs (FIXTURES BASELINE : str) (argv : list str) : result thrown MeasureOptions :=
  let o := parseMeasureFrom FIXTURES BASELINE (length argv) argv
             {| mo_gate := {| go_resultsPath := []; go_fixturesDir := FIXTURES; go_baselinePath := BASELINE |};
                mo_modelId := "claude-sonnet-4-6"; mo_gitSha := []; mo_notes := []; mo_apply := false |} in
  if bool_decide (go_resultsPath (mo_gate o) = [])
  then error "Usage: eval:baseline -- --results <candidate-results.json> [--model-id <id>] [--git-sha <sha>] [--notes <text>] [--apply]"
  else Ok o.

(** [parseArgs] of review-category-gate.ts *)
Fixpoint parseGateFrom (FIXTURES BASELINE : str) (fuel : nat) (argv : list str) (g : GateOptions) : GateOptions :=
  match fuel, argv with
  | S fuel, x :: rest =>
      let next := head rest in
      let go := parseGateFrom FIXTURES BASELINE fuel in
      if bool_decide (x = js "--results")
      then go (tail rest) {| go_resultsPath := default [] next; go_fixturesDir := go_fixturesDir g; go_baselinePath := go_baselinePath g |}
      else if bool_decide (x = js "--fixtures-dir")
      then go (tail rest) {| go_resultsPath := go_resultsPath g; go_fixturesDir := default FIXTURES next; go_baselinePath := go_baselinePath g |}
      else if bool_decide (x = js "--baseline")
      then go (tail rest) {| go_resultsPath := go_resultsPath g; go_fixturesDir := go_fixturesDir g; go_baselinePath := default BASELINE next |}
      else go rest g
  | _, _ => g
  end.

Definition parseGateArgs (FIXTURES BASELINE : str) (argv : list str) : result thrown GateOptions :=
  let g := parseGateFrom FIXTURES BASELINE (length argv) argv
             {| go_resultsPath := []; go_fixturesDir := FIXTURES; go_baselinePath := BASELINE |} in
  if bool_decide (go_resultsPath g = [])
  then error "Usage: eval:gate -- --results <candidate-results.json> [--fixtures-dir <dir>] [--baseline <path>]"
  else Ok g.

(** The fuel of both loops, the number of arguments, is enough. *)
Lemma parseMeasureFrom_enough F B : forall n m argv a, length argv <= n -> length argv <= m ->
  parseMeasureFrom F B n argv a = parseMeasureFrom F B m argv a.
Proof. enough_fuel. Qed.

Lemma parseGateFrom_enough F B : forall n m argv a, length argv <= n -> length argv <= m ->
  parseGateFrom F B n argv a = parseGateFrom F B m argv a.
Proof. enough_fuel. Qed.

(** ** The files *)

Abbreviation files := (gmap str str).

Definition readF (path : str) : eff files thrown str := fun fs =>
  (match fs !! path with Some t => Ok t | None => Throw (errorOf "ENOENT") end, fs).
Definition writeF (path text : str) : eff files thrown unit := fun fs => (Ok tt, <[path := text]> fs).

(** ** Counting *)

Definition hitsOf (newRegExp : str -> option (str -> bool)) (actual : list ActualFinding) (e : ExpectedFinding) : bool :=
  existsb (fun af => findingMatches newRegExp e (af_body af)) actual.

(** The expected findings are told apart, in their order, by whether some finding matches them. *)
Lemma scoreFixture_split newRegExp expected actual id :
  let s := CategoryGate.scoreFixture newRegExp expected actual id in
  matched s = map ef_id (List.filter (hitsOf newRegExp actual) (expected_findings expected)) /\
  missed s = map ef_id (List.filter (fun e => negb (hitsOf newRegExp actual e)) (expected_findings expected)).
Proof.
  intros s. subst s. unfold CategoryGate.scoreFixture.
  assert (forall l h m, foldl (fun '(hits, misses) e => if existsb (fun af => findingMatches newRegExp e (af_body af)) actual
              then (hits ++ [ef_id e], misses) else (hits, misses ++ [ef_id e])) (h, m) l
            = (h ++ map ef_id (List.filter (hitsOf newRegExp actual) l),
               m ++ map ef_id (List.filter (fun e => negb (hitsOf newRegExp actual e)) l))) as E.
  { induction l as [|e l IH]; intros h m; [by rewrite !app_nil_r|]. cbn [foldl List.filter].
    destruct (hitsOf newRegExp actual e) eqn:Eh; unfold hitsOf in Eh; rewrite Eh, IH; cbn [negb map];
      by rewrite <- app_assoc. }
  rewrite E. by cbn.
Qed.

Lemma filter_parts {A} (f : A -> bool) l : length (List.filter f l) + length (List.filter (fun x => negb (f x)) l) = length l.
Proof. induction l as [|x l IH]; [done|]. cbn. destruct (f x); cbn; lia. Qed.

Lemma scoreFixture_counts newRegExp expected actual id :
  let s := CategoryGate.scoreFixture newRegExp expected actual id in
  truePositives s = length (matched s) /\ expectedCount s = length (matched s) + length (missed s) /\ actualCount s = length actual.
Proof.
  intros s. destruct (scoreFixture_split newRegExp expected actual id) as [Hm Hs]. fold s in Hm, Hs.
  assert (truePositives s = length (matched s) /\ expectedCount s = length (expected_findings expected) /\ actualCount s = length actual) as (H1 & H2 & H3).
  { subst s. unfold CategoryGate.scoreFixture. by destruct (foldl _ _ _). }
  split_and!; [done| |done]. rewrite H2, Hm, Hs, !length_map. by rewrite filter_parts.
Qed.

(** The fixtures of a category. *)
Definition ofCategory (c : ReviewCategory) (l : list FixtureScore) : list FixtureScore :=
  List.filter (fun f => bool_decide (c = fs_category f)) l.
Definition total (f : FixtureScore -> nat) (l : list FixtureScore) : nat := list_sum (map f l).

Lemma tally_sums c l acc :
  let t := foldl countInto acc l c in
  ta_tp t = ta_tp (acc c) + total truePositives (ofCategory c l) /\
  ta_expected t = ta_expected (acc c) + total expectedCount (ofCategory c l) /\
  ta_actual t = ta_actual (acc c) + total actualCount (ofCategory c l) /\
  ta_fixtures t = ta_fixtures (acc c) + length (ofCategory c l).
Proof.
  revert acc. induction l as [|f l IH]; intros acc; [cbn; lia|]. cbn [foldl]. specialize (IH (countInto acc f)).
  cbn zeta in *. unfold ofCategory, total in *. cbn [List.filter].
  destruct IH as (H1 & H2 & H3 & H4). rewrite H1, H2, H3, H4. unfold countInto.
  case_bool_decide as Hc; simpl; lia.
Qed.

(** A category's counts are the sums over its fixtures, in whatever order they come. *)
Lemma category_counts showNumber c l :
  exists s, perCategory (aggregateCategoryScores showNumber l) c = Some s /\
    totalTruePositives s = total truePositives (ofCategory c l) /\ totalExpected s = total expectedCount (ofCategory c l) /\
    totalActual s = total actualCount (ofCategory c l) /\ cs_fixtureCount s = length (ofCategory c l).
Proof.
  cbn. rewrite bool_decide_eq_true_2 by (destruct c; set_solver). eexists. split; [done|]. cbn.
  pose proof (tally_sums c l (fun _ => {| ta_tp := 0; ta_expected := 0; ta_actual := 0; ta_fixtures := 0 |})) as H. by cbn in H.
Qed.

(** Precision divides the expected findings that were met by the findings emitted: one finding that
    meets two expectations scores two. *)
Example precision_two : forall showNumber,
  let e id := {| ef_id := js id; ef_mustContainAny := [js "secret"]; ef_severity := None |} in
  let expected := {| ce_category := cat_security; ce_bugClass := "x"; ce_language := "ts"; expected_findings := [e "a"; e "b"]%string; ce_rationale := "r" |} in
  let found := {| af_id := None; af_body := "a secret"; af_severity := None; af_ruleId := None |} in
  cs_precision <$> perCategory (aggregateCategoryScores showNumber [CategoryGate.scoreFixture (fun _ => None) expected [found] "f"]) cat_security
  = Some (num_of_Z 2).
Proof. by vm_compute. Qed.

(** ** Metrics written and read back *)

Definition share_wf (x : number) : Prop := is_nan x = false /\ between zero lit_1_0 x = true.
Definition metrics_wf (m : CategoryMetrics) : Prop :=
  from_option share_wf True (mt_precision m) /\ from_option share_wf True (mt_recall m).
Definition numberOrNull (x : option number) : json := match x with Some x => JNum x | None => JNull end.
Definition metricsJson (m : CategoryMetrics) : json :=
  obj [("precision"%string, Some (numberOrNull (mt_precision m))); ("recall"%string, Some (numberOrNull (mt_recall m)))].

#[export] Instance asShare_codec : Codec asShare JNum share_wf.
Proof. apply checked_codec, asNumber_codec. Qed.

#[export] Instance asNullableShare_codec : Codec (asNullable asShare) numberOrNull (from_option share_wf True).
Proof.
  split.
  - unfold asNullable. intros v a. destruct v; [by intros [= <-]|..]; intros (x & H & ->)%fmap_Some;
      exact (decode_wf (f := asShare) _ x H).
  - intros [x|] H; [|done]. cbn -[asShare]. by rewrite (decode_encode (f := asShare) x H).
Qed.
#[global] Typeclasses Opaque asShare asNullable.

#[export] Instance CategoryMetricsSchema_codec : Codec CategoryMetricsSchema metricsJson metrics_wf.
Proof.
  split.
  - intros v a H. unfold CategoryMetricsSchema in H. object_wf. by split.
  - intros [p r] [Hp Hr]. unfold CategoryMetricsSchema, metricsJson. cbn [asFields obj mbind option_bind].
    members_back. done.
Qed.

(** The measured metrics, as [newPerCategory] has them. *)
Definition measured (agg : AggregateResult) : jsmap CategoryMetrics :=
  map (fun cat => (category_str cat, {| mt_precision := Some (scorePair (perCategory agg cat)).1;
                                        mt_recall := Some (scorePair (perCategory agg cat)).2 |})) REVIEW_CATEGORIES.

Definition inUnit (x : number) : Prop := between zero lit_1_0 x = true.
Lemma inUnit_share x : inUnit x -> share_wf x.
Proof. intros H. split; [|done]. by destruct x as [[]|[]| |[]]. Qed.

Lemma perCategory_read agg :
  (forall cat, inUnit (scorePair (perCategory agg cat)).1 /\ inUnit (scorePair (perCategory agg cat)).2) ->
  asRecord isReviewCategory CategoryMetricsSchema (perCategoryJson agg) = Some (measured agg).
Proof.
  intros H. pose proof (asRecord_codec isReviewCategory _ _ _ CategoryMetricsSchema_codec) as [_ Hback].
  etrans; [|apply (Hback (measured agg))]; [done|]. split.
  - refine (bool_decide_eq_true_1 _ _). vm_compute. reflexivity.
  - apply Forall_forall. intros [k m] (cat & E & Hin)%elem_of_bmap. injection E as -> ->. split; [by destruct cat|].
    destruct (H cat). split; by apply inUnit_share.
Qed.

Lemma measured_get agg cat :
  mapGet (category_str cat) (measured agg)
  = Some {| mt_precision := Some (scorePair (perCategory agg cat)).1; mt_recall := Some (scorePair (perCategory agg cat)).2 |}.
Proof. by destruct cat. Qed.

(** A baseline whose measurements are those of the run itself shows no drop. *)
Lemma no_drop showNumber cat metric x t : inUnit x -> share_wf t -> dropOf showNumber cat metric x x t = [].
Proof.
  intros Hx [_ Ht]. unfold dropOf. assert (nsub x x = zero) as ->.
  { unfold inUnit, between in Hx. apply andb_true_iff in Hx as [H1 H2].
    destruct x as [[]|[]| |s m e]; try done. unfold nsub, SpecFloat.SFsub. cbn -[Z.sub SpecFloat.binary_normalize].
    by rewrite Z.sub_diag. }
  assert (roundFixed showNumber 6 zero = zero) as -> by by vm_compute.
  unfold between in Ht. apply andb_true_iff in Ht as [Ht _]. by destruct t as [[]|[]| |[]].
Qed.

Definition threshold_wf (t : CategoryThreshold) : Prop := share_wf (precision_drop_max t) /\ share_wf (recall_drop_max t).
Definition thresholdJson (t : CategoryThreshold) : json :=
  obj [("precision_drop_max"%string, Some (JNum (precision_drop_max t))); ("recall_drop_max"%string, Some (JNum (recall_drop_max t)))].

#[export] Instance CategoryThresholdSchema_codec : Codec CategoryThresholdSchema thresholdJson threshold_wf.
Proof.
  split.
  - intros v a H. unfold CategoryThresholdSchema in H. object_wf. by split.
  - intros [p r] [Hp Hr]. unfold CategoryThresholdSchema, thresholdJson. cbn [asFields obj mbind option_bind].
    members_back. done.
Qed.

Definition thresholds_wf (th : BaselineThresholds) : Prop :=
  share_wf (default_precision_drop_max th) /\ share_wf (default_recall_drop_max th) /\
  forall k t, mapGet k (bt_perCategory th) = Some t -> threshold_wf t.

Lemma thresholds_read v b : CategoryBaselineSchema v = Some b -> thresholds_wf (cb_thresholds b).
Proof.
  unfold CategoryBaselineSchema. intros H. repeat apply bind_Some in H as (? & ? & H). injection H as <-. cbn.
  match goal with Hth : at_ _ (requiredR BaselineThresholdsSchema) _ = _ |- _ =>
    apply bind_Some in Hth as (w & _ & Hth); unfold BaselineThresholdsSchema in Hth;
    repeat apply bind_Some in Hth as (? & ? & Hth); injection Hth as <- end.
  repeat match goal with E : at_ _ _ _ = Some _ |- _ => apply bind_Some in E as (? & _ & E) end.
  split; [|split]; cbn.
  - by eapply (decode_wf (f := asShare)).
  - by eapply (decode_wf (f := asShare)).
  - intros k t Hk. pose proof (asRecord_codec isReviewCategory _ _ _ CategoryThresholdSchema_codec) as [Hwf _].
    match goal with E : asRecord _ _ _ = Some _ |- _ => apply Hwf in E as [Hn Hall] end.
    apply (mapGet_Some _ _ _ Hn) in Hk. rewrite Forall_forall in Hall. by apply (Hall (k, t)).
Qed.

(** A baseline that holds the measurements of the run refuses nothing of it. *)
Lemma own_measurements_pass showNumber perFixture b :
  let agg := aggregateCategoryScores showNumber perFixture in
  (forall cat, inUnit (scorePair (perCategory agg cat)).1 /\ inUnit (scorePair (perCategory agg cat)).2) ->
  bc_perCategory (cb_current b) = measured agg -> thresholds_wf (cb_thresholds b) ->
  checkCategoryGate showNumber (perCategory agg) b = {| gr_ok := true; regressions := []; unmeasured := [] |}.
Proof.
  intros agg Hunit Hper (Hp & Hr & Hth). unfold checkCategoryGate.
  assert (forall cat acc, checkCategory showNumber (perCategory agg) b acc cat = acc) as Hcat.
  { intros cat acc. unfold checkCategory. rewrite Hper, measured_get. specialize (Hunit cat).
    destruct (perCategory agg cat) as [s|] eqn:Es; [|done]. cbn in Hunit. destruct Hunit as [H1 H2]. cbn.
    rewrite !no_drop; [by destruct acc; rewrite !app_nil_r|done| |done|];
      destruct (mapGet (category_str cat) (bt_perCategory (cb_thresholds b))) as [t|] eqn:Et; cbn; try done;
      by apply Hth in Et as []. }
  unfold REVIEW_CATEGORIES. cbn [foldl]. by rewrite !Hcat.
Qed.

Lemma mapM_asAny l : mapM asAny l = Some l.
Proof. induction l as [|x l IH]; [done|]. cbn. by rewrite IH. Qed.

Lemma patched_baseline opts now agg v0 v b :
  CategoryBaselineSchema v0 = Some b -> patchBaseline opts now agg v0 = Some v ->
  (forall cat, inUnit (scorePair (perCategory agg cat)).1 /\ inUnit (scorePair (perCategory agg cat)).2) ->
  exists hist, CategoryBaselineSchema v = Some
    {| cb_version := cb_version b; cb_thresholds := cb_thresholds b;
       cb_current := {| bc_pending := Some false; bc_perCategory := measured agg |}; cb_history := hist |}.
Proof.
  unfold CategoryBaselineSchema, patchBaseline. intros Hb Hp Hunit.
  destruct v0 as [| | | | |o]; try done. cbn [asFields mbind option_bind] in *.
  repeat apply bind_Some in Hb as (? & ? & Hb). injection Hb as <-. cbn.
  apply bind_Some in Hp as (cur & Hcur & Hp). injection Hp as <-. cbn [asFields mbind option_bind].
  rewrite !mapGet_mapSet in Hcur. rewrite !bool_decide_eq_false_2 in Hcur by done.
  unfold at_ in *. rewrite !mapGet_mapSet. repeat first [rewrite bool_decide_eq_false_2 by done|rewrite bool_decide_eq_true_2 by done].
  match goal with E : requiredR BaselineCurrentSchema _ = _ |- _ => apply bind_Some in E as (w & Hw & E) end.
  rewrite Hw in Hcur. destruct w as [| | | |l|c]; try done. injection Hcur as <-.
  match goal with E : requiredR (asInt _ _) _ = _ |- _ => rewrite E end.
  match goal with E : requiredR BaselineThresholdsSchema _ = _ |- _ => rewrite E end.
  cbn [mbind option_bind requiredR BaselineCurrentSchema asFields at_]. unfold at_.
  rewrite !mapGet_mapSet. repeat first [rewrite bool_decide_eq_false_2 by done|rewrite bool_decide_eq_true_2 by done].
  cbn [optionalR asBool fmap option_fmap option_map requiredR mbind option_bind]. rewrite perCategory_read by done.
  cbn [mbind option_bind asArray]. rewrite mapM_asAny. eauto.
Qed.

(** ** Reading the files *)

(** Two states of the disk that differ at one file. *)
Definition same_but (p : str) (fs fs' : files) : Prop := forall path, path <> p -> fs' !! path = fs !! path.

Section reading.
Context (newRegExp : str -> option (str -> bool)) (showNumber : number -> str) (parseJSON : str -> option json)
  (joinPath : list str -> str).

Lemma readSchema_Ok {A} path (schema : json -> option A) fs a s :
  readSchema readF parseJSON path schema fs = (Ok a, s) <->
  s = fs /\ exists t v, fs !! path = Some t /\ parseJSON t = Some v /\ schema v = Some a.
Proof.
  unfold readSchema, readJson, readF, mbind, eff_bind. destruct (fs !! path) as [t|] eqn:Et; [|split; [done|naive_solver]].
  destruct (parseJSON t) as [v|] eqn:Ev; [|split; [done|naive_solver]].
  destruct (schema v) as [x|] eqn:Ex; [|split; [done|naive_solver]]. unfold mret, eff_ret. naive_solver.
Qed.

Lemma readSchema_other {A} p path (schema : json -> option A) fs fs' a s :
  same_but p fs fs' -> path <> p -> readSchema readF parseJSON path schema fs = (Ok a, s) ->
  readSchema readF parseJSON path schema fs' = (Ok a, fs').
Proof. intros Hs Hp H. apply readSchema_Ok in H as (_ & t & v & Ht & H). apply readSchema_Ok. rewrite Hs by done. eauto. Qed.

Lemma scoreEntries_other p dir runs entries fs fs' r s :
  same_but p fs fs' -> (forall parts, joinPath (dir :: parts) <> p) ->
  mapM (scoreEntryOf newRegExp readF parseJSON joinPath dir runs) entries fs = (Ok r, s) ->
  s = fs /\ mapM (scoreEntryOf newRegExp readF parseJSON joinPath dir runs) entries fs' = (Ok r, fs').
Proof.
  intros Hs Hdir. revert r s. induction entries as [|e l IH]; intros r s H; [by cbn in *; inv_eff|].
  cbn [mapM] in H. inv_eff. unfold scoreEntryOf in Hm. inv_eff.
  pose proof (proj1 (readSchema_Ok _ _ _ _ _) Hm1) as (-> & _). apply IH in Hm0 as [-> H2]. split; [done|].
  cbn [mapM]. apply bind_Ok. do 2 eexists. split.
  { unfold scoreEntryOf. apply bind_Ok. do 2 eexists. split; [|done].
    by eapply readSchema_other; [exact Hs|apply Hdir|]. }
  apply bind_Ok. do 2 eexists. by split.
Qed.

(** Measuring changes no file, and its baseline is the one of the file. *)
Lemma measure_reads opts fs agg b s :
  measure newRegExp showNumber readF parseJSON joinPath opts fs = (Ok (agg, b), s) ->
  (forall parts, joinPath (go_fixturesDir opts :: parts) <> go_baselinePath opts) ->
  s = fs /\ exists perFixture t v, agg = aggregateCategoryScores showNumber perFixture /\
    fs !! go_baselinePath opts = Some t /\ parseJSON t = Some v /\ CategoryBaselineSchema v = Some b.
Proof.
  intros H Hdir. unfold measure in H. inv_eff.
  pose proof (proj1 (readSchema_Ok _ _ _ _ _) Hm) as (-> & _). pose proof (proj1 (readSchema_Ok _ _ _ _ _) Hm0) as (-> & _).
  pose proof (proj1 (readSchema_Ok _ _ _ _ _) Hm1) as (-> & t & v & Ht & Hv & Hb).
  eapply (scoreEntries_other (go_baselinePath opts)) in Hm2 as [-> _]; [|by intros path|apply Hdir]. split; [done|]. by do 3 eexists.
Qed.

(** What was measured is measured again when only the baseline has changed since. *)
Lemma measure_again opts fs fs' agg b v t b' s :
  same_but (go_baselinePath opts) fs fs' -> go_resultsPath opts <> go_baselinePath opts ->
  (forall parts, joinPath (go_fixturesDir opts :: parts) <> go_baselinePath opts) ->
  measure newRegExp showNumber readF parseJSON joinPath opts fs = (Ok (agg, b), s) ->
  fs' !! go_baselinePath opts = Some t -> parseJSON t = Some v -> CategoryBaselineSchema v = Some b' ->
  s = fs /\ measure newRegExp showNumber readF parseJSON joinPath opts fs' = (Ok (agg, b'), fs').
Proof.
  intros Hs Hres Hdir H Ht Hv Hb'. unfold measure in H. inv_eff.
  pose proof (proj1 (readSchema_Ok _ _ _ _ _) Hm) as (-> & _). pose proof (proj1 (readSchema_Ok _ _ _ _ _) Hm0) as (-> & _).
  pose proof (proj1 (readSchema_Ok _ _ _ _ _) Hm1) as (-> & _). cbn zeta in Hm2.
  eapply scoreEntries_other in Hm2 as [-> Hagain]; [|done|apply Hdir]. split; [done|].
  unfold measure. apply bind_Ok. do 2 eexists. split; [by eapply readSchema_other; [exact Hs|apply Hdir|]|].
  apply bind_Ok. do 2 eexists. split; [by eapply readSchema_other; [exact Hs|exact Hres|]|].
  apply bind_Ok. do 2 eexists. split; [apply readSchema_Ok; split; [done|by exists t, v]|].
  apply bind_Ok. do 2 eexists. by split; [exact Hagain|].
Qed.
End reading.

(** ** Property *)

(** C38. A baseline recorded with [--apply] lets the results it was recorded from through. On the files
    as the script leaves them every category is measured with the scores the script answered, and
    the baseline read there holds exactly these scores for it; so, whatever the thresholds, the gate
    passes with no regression and no category left unmeasured, which is what it prints - provided
    the scores are shares, since the file written is otherwise no baseline. The expected findings
    and the results are in other files, and what was written is read back as it was printed. *)
Theorem recorded_baseline_passes newRegExp showNumber emDash parseJSON stringify joinPath now opts fs fs' scores report :
  mo_apply opts = true ->
  go_resultsPath (mo_gate opts) <> go_baselinePath (mo_gate opts) ->
  (forall parts, joinPath (go_fixturesDir (mo_gate opts) :: parts) <> go_baselinePath (mo_gate opts)) ->
  (forall agg b text v0 v,
     (measure newRegExp showNumber readF parseJSON joinPath (mo_gate opts) fs).1 = Ok (agg, b) ->
     fs !! go_baselinePath (mo_gate opts) = Some text -> parseJSON text = Some v0 ->
     patchBaseline opts (take 10 now) agg v0 = Some v -> parseJSON (stringify v ++ nl) = Some v) ->
  measureCategoryBaseline newRegExp showNumber emDash readF writeF parseJSON stringify joinPath (mret now) opts fs
    = (Ok (scores, report), fs') ->
  (forall cat, inUnit (scores cat).1 /\ inUnit (scores cat).2) ->
  exists agg b,
    measure newRegExp showNumber readF parseJSON joinPath (mo_gate opts) fs' = (Ok (agg, b), fs') /\
    (forall cat, exists s, perCategory agg cat = Some s /\ scores cat = (cs_precision s, cs_recall s) /\
       mapGet (category_str cat) (bc_perCategory (cb_current b))
         = Some {| mt_precision := Some (cs_precision s); mt_recall := Some (cs_recall s) |}) /\
    runGate newRegExp showNumber emDash readF parseJSON joinPath (mo_gate opts) fs'
      = (Ok (true, renderGateReport showNumber emDash agg {| gr_ok := true; regressions := []; unmeasured := [] |}), fs').
Proof.
  intros Happly Hres Hdir Hprint H Hunit. unfold measureCategoryBaseline in H. inv_eff. destruct a as [agg b]. cbn [fst] in *.
  rewrite Happly in Hm0. unfold applyBaseline in Hm0. apply bind_Ok in Hm0 as (now' & s1 & Hnow & Hm0).
  injection Hnow as <- <-. apply bind_Ok in Hm0 as (text & s2 & Htext & Hm0). unfold readF in Htext.
  destruct (s !! go_baselinePath (mo_gate opts)) as [text'|] eqn:Et; [|done]. injection Htext as -> <-.
  destruct (parseJSON text) as [v0|] eqn:Ev0; [|done].
  destruct (patchBaseline opts (take 10 now) agg v0) as [v|] eqn:Ev; [|done].
  apply bind_Ok in Hm0 as ([] & s3 & Hw & Hm0). injection Hw as <-. inv_eff.
  destruct (measure_reads newRegExp showNumber parseJSON joinPath _ _ _ _ _ Hm Hdir) as (-> & perFixture & t & w & Hagg & Ht & Hw & Hb).
  assert (w = v0) as -> by congruence.
  destruct (patched_baseline opts (take 10 now) agg v0 v b Hb Ev Hunit) as (hist & Hv).
  assert (same_but (go_baselinePath (mo_gate opts)) fs (<[go_baselinePath (mo_gate opts) := stringify v ++ nl]> fs)) as Hsame.
  { intros path Hp. by rewrite lookup_insert_ne. }
  assert (parseJSON (stringify v ++ nl) = Some v) as Hback by (eapply Hprint; eauto; by rewrite Hm).
  destruct (measure_again newRegExp showNumber parseJSON joinPath _ _ _ _ _ _ _ _ _ Hsame Hres Hdir Hm
              ltac:(by rewrite lookup_insert_eq) Hback Hv) as [_ Hagain].
  do 2 eexists. split_and!; [exact Hagain| |].
  - intros cat. cbn [cb_current bc_perCategory]. rewrite measured_get.
    assert (exists s, perCategory agg cat = Some s) as [sc Hsc] by (rewrite Hagg; destruct cat; by eexists).
    exists sc. rewrite Hsc. by split_and!.
  - unfold runGate. apply bind_Ok. do 2 eexists. split; [exact Hagain|]. cbn [fst snd]. unfold mret, eff_ret.
    rewrite Hagg, own_measurements_pass; [done|by rewrite <- Hagg|by rewrite <- Hagg|exact (thresholds_read _ _ Hb)].
Qed.

(** One fixture, one finding that meets its expectation; a baseline without measurements. *)
Definition oneManifest : json :=
  obj [("version", Some (JNum lit_1_0)); ("description", Some (JStr "d"));
       ("fixtures", Some (JArr [obj [("id", Some (JStr "f")); ("review_category", Some (JStr "security"))]]))]%string.
Definition oneExpected : json :=
  obj [("review_category", Some (JStr "security")); ("bug_class", Some (JStr "secret")); ("language", Some (JStr "ts"));
       ("expected_findings", Some (JArr [obj [("id", Some (JStr "e")); ("must_contain_any", Some (JArr [JStr "secret"]))]]));
       ("rationale", Some (JStr "r"))]%string.
Definition oneCandidate : json :=
  obj [("results", Some (JArr [obj [("fixtureId", Some (JStr "f")); ("findings", Some (JArr [obj [("body", Some (JStr "A secret"))]]))]]))]%string.
Definition emptyBaseline : json :=
  obj [("version", Some (JNum lit_1_0));
       ("thresholds", Some (obj [("default_precision_drop_max", Some (JNum zero)); ("default_recall_drop_max", Some (JNum zero));
                                 ("per_category", Some (JObj []))]));
       ("current", Some (obj [("per_category", Some (JObj []))])); ("history", Some (JArr []))]%string.

Definition oneOpts : MeasureOptions :=
  {| mo_gate := {| go_resultsPath := "results"; go_fixturesDir := "fixtures"; go_baselinePath := "baseline" |};
     mo_modelId := "m"; mo_gitSha := []; mo_notes := []; mo_apply := true |}.
Definition oneDisk : files :=
  <[js "fixtures/manifest.json" := js "manifest"]> (<[js "fixtures/f/expected.json" := js "expected"]>
    (<[js "results" := js "candidate"]> {[js "baseline" := js "empty"]})).
Definition slashed (parts : list str) : str := join "/" parts.
(** The file written. *)
Definition oneRecorded : json :=
  let expected := {| ce_category := cat_security; ce_bugClass := "secret"; ce_language := "ts"; ce_rationale := "r";
                     expected_findings := [{| ef_id := "e"; ef_mustContainAny := [js "secret"]; ef_severity := None |}] |} in
  let found := {| af_id := None; af_body := "A secret"; af_severity := None; af_ruleId := None |} in
  default JNull (patchBaseline oneOpts "2026-01-02"
    (aggregateCategoryScores (fun _ => []) [CategoryGate.scoreFixture (fun _ => None) expected [found] "f"]) emptyBaseline).
Definition oneParse (t : str) : option json :=
  if bool_decide (t = js "manifest") then Some oneManifest
  else if bool_decide (t = js "expected") then Some oneExpected
  else if bool_decide (t = js "candidate") then Some oneCandidate
  else if bool_decide (t = js "empty") then Some emptyBaseline
  else if bool_decide (t = "recorded" ++ nl) then Some oneRecorded
  else None.

(** The scores the script answers with, checked one by one. *)
Definition oneRun : result thrown ((ReviewCategory -> number * number) * str) * files :=
  measureCategoryBaseline (fun _ => None) (fun _ => []) "-" readF writeF oneParse (fun _ => js "recorded") slashed
    (eff_ret _ (js "2026-01-02T03:04:05Z")) oneOpts oneDisk.
Definition inUnitB (x : number) : bool := between zero lit_1_0 x.
Definition runInUnit (r : result thrown ((ReviewCategory -> number * number) * str)) : bool :=
  match r with Ok (scores, _) => forallb (fun cat => inUnitB (scores cat).1 && inUnitB (scores cat).2) REVIEW_CATEGORIES | Throw _ => false end.

Definition recordedOf (r : result thrown (AggregateResult * CategoryBaseline)) : option json :=
  match r with Ok (agg, _) => patchBaseline oneOpts "2026-01-02" agg emptyBaseline | Throw _ => None end.

Lemma recorded_baseline_passes_witness :
  exists scores report fs' agg b s, oneRun = (Ok (scores, report), fs') /\
    fs' !! js "baseline" = Some ("recorded" ++ nl) /\
    scores cat_security = (cs_precision s, cs_recall s) /\
    mapGet (js "security") (bc_perCategory (cb_current b))
      = Some {| mt_precision := Some (cs_precision s); mt_recall := Some (cs_recall s) |} /\
    runGate (fun _ => None) (fun _ => []) "-" readF oneParse slashed (mo_gate oneOpts) fs' =
      (Ok (true, renderGateReport (fun _ => []) "-" agg {| gr_ok := true; regressions := []; unmeasured := [] |}), fs').
Proof.
  assert (runInUnit oneRun.1 = true) as Hu by (vm_compute; reflexivity).
  assert (oneRun.2 !! js "baseline" = Some ("recorded" ++ nl)) as Hf by (vm_compute; reflexivity).
  destruct oneRun as [[[scores report]|e] fs'] eqn:E; cbn [fst snd runInUnit] in *; [|discriminate].
  assert (forall cat, inUnit (scores cat).1 /\ inUnit (scores cat).2) as Hunit.
  { rewrite forallb_elem in Hu. intros cat. apply andb_true_iff, Hu. destruct cat; set_solver. }
  destruct (recorded_baseline_passes (fun _ => None) (fun _ => []) "-" oneParse (fun _ => js "recorded") slashed
              (js "2026-01-02T03:04:05Z") oneOpts oneDisk fs' scores report) as (agg & b & _ & Hscores & Hr); [done|done| | |exact E|exact Hunit|].
  - by intros [|? ?].
  - intros agg b text v0 v Hm Ht Hp Hv. vm_compute in Ht. injection Ht as <-. vm_compute in Hp. injection Hp as <-.
    assert (recordedOf (measure (fun _ => None) (fun _ => []) readF oneParse slashed (mo_gate oneOpts) oneDisk).1 = Some oneRecorded)
      as Hrec by (vm_compute; reflexivity).
    rewrite Hm in Hrec. cbn [recordedOf] in Hrec. assert (v = oneRecorded) as -> by (apply (inj Some); by rewrite <- Hv, <- Hrec).
    vm_compute. reflexivity.
  - destruct (Hscores cat_security) as (s & _ & Hs & Hb). exists scores, report, fs', agg, b, s.
    split; [reflexivity|]. split; [exact Hf|]. split; [exact Hs|]. split; [exact Hb|exact Hr].
Defined.
