(* ===== verification/Judge.v ===== *)
(** * Grading comments with a model (eval/scripts/llm-as-judge.ts)

    The prompt of a run's comments, the reading of the judge's answer and its one retry, the scores
    per axis, and the whole of a run over a results file. The judge, the files, the clock and the
    JSON functions are parameters. The results: an accepted answer holds scores of the scale, and every
    comment of every run is graded or counted as a failure. The score may be recorded in two files. *)

From S2P Require Import Prelude JsNumber NumberText JsMap JsonTree Codec Errors Schema Vcs Config Review AutoFetch Llm SeverityGate.

(** ** Schemas *)

Record CandidateComment := { cc_severity : Severity; cc_id : option str; cc_body : option str; cc_ruleId : option str }.
Definition CandidateCommentSchema (v : json) : option CandidateComment :=
  o ← asFields v;
  sev ← at_ "severity" (requiredR asSeverity) o;
  id ← at_ "id" (optionalR asString) o;
  body ← at_ "body" (optionalR asString) o;
  rule ← at_ "ruleId" (optionalR asString) o;
  Some {| cc_severity := sev; cc_id := id; cc_body := body; cc_ruleId := rule |}.

Record CandidateRun := { cr_comments : list CandidateComment; cr_summary : option str }.
Definition CandidateRunSchema (v : json) : option CandidateRun :=
  o ← asFields v;
  comments ← at_ "comments" (requiredR (asArray CandidateCommentSchema)) o;
  summary ← at_ "summary" (optionalR asString) o;
  Some {| cr_comments := comments; cr_summary := summary |}.

Record CandidateFixture := { cf_fixtureId : str; cf_runs : list CandidateRun }.
Definition candidateFixtureSchema (v : json) : option CandidateFixture :=
  o ← asFields v;
  id ← at_ "fixtureId" (requiredR asString) o;
  runs ← at_ "runs" (requiredR (asArray CandidateRunSchema)) o;
  Some {| cf_fixtureId := id; cf_runs := runs |}.
Definition CandidateResultsSchema (v : json) : option (list CandidateFixture) :=
  o ← asFields v; at_ "results" (requiredR (asArray candidateFixtureSchema)) o.

Definition ScoreAxis : json -> option number := asInt 1 (Some 5%Z).

Record JudgeScores := { accuracy : number; specificity : number; actionability : number; severity_calibration : number }.
Definition JudgeScoresSchema (v : json) : option JudgeScores :=
  o ← asFields v;
  a ← at_ "accuracy" (requiredR ScoreAxis) o;
  s ← at_ "specificity" (requiredR ScoreAxis) o;
  t ← at_ "actionability" (requiredR ScoreAxis) o;
  c ← at_ "severity_calibration" (requiredR ScoreAxis) o;
  Some {| accuracy := a; specificity := s; actionability := t; severity_calibration := c |}.

Record JudgeCommentResult := { jc_id : str; jc_scores : JudgeScores; jc_reasoning : str }.
Definition JudgeCommentResultSchema (v : json) : option JudgeCommentResult :=
  o ← asFields v;
  id ← at_ "id" (requiredR asString) o;
  scores ← at_ "scores" (requiredR JudgeScoresSchema) o;
  why ← at_ "reasoning" (requiredR asString) o;
  Some {| jc_id := id; jc_scores := scores; jc_reasoning := why |}.
Definition JudgeRawResponseSchema (v : json) : option (list JudgeCommentResult) :=
  o ← asFields v; at_ "comments" (requiredR (asArray JudgeCommentResultSchema)) o.

Inductive ScoreAxisName := ax_accuracy | ax_specificity | ax_actionability | ax_severity_calibration.
Definition SCORE_AXES : list ScoreAxisName := [ax_accuracy; ax_specificity; ax_actionability; ax_severity_calibration].
Definition axisScore (x : ScoreAxisName) (s : JudgeScores) : number :=
  match x with
  | ax_accuracy => accuracy s | ax_specificity => specificity s
  | ax_actionability => actionability s | ax_severity_calibration => severity_calibration s
  end.

(** ** The prompt *)

Record CommentToJudge := { cj_id : str; cj_severity : str; cj_body : str; cj_ruleId : option str }.
Record JudgeFixtureInput := {
  jf_fixtureId : str;
  expectedSeverityModal : option str;
  jf_diff : option str;
  jf_comments : list CommentToJudge;
  jf_summary : str;
}.

(** The replacement text of [String.prototype.replace]: a dollar before another one, or before [&],
    [`] or ['], stands for itself, the match, or the text before or after it. *)
Fixpoint expandDollar (matched before after repl : str) : str :=
  match repl with
  | c :: rest =>
      match rest with
      | d :: rest' =>
          if eqc c "$" then
            if eqc d "$" then "$"%char :: expandDollar matched before after rest'
            else if eqc d "&" then matched ++ expandDollar matched before after rest'
            else if eqc d "`" then before ++ expandDollar matched before after rest'
            else if eqc d "'" then after ++ expandDollar matched before after rest'
            else c :: expandDollar matched before after rest
          else c :: expandDollar matched before after rest
      | [] => [c]
      end
  | [] => []
  end.

(** [s.replace(/p/g, repl)] for a literal [p]; [before] is what stands in front of [s]. *)
Fixpoint replaceGlobal (fuel : nat) (p repl before s : str) : str :=
  match fuel with
  | O => s
  | S fuel =>
      match indexOf s p with
      | None => s
      | Some i =>
          let rest := drop (i + length p) s in
          take i s ++ expandDollar p (before ++ take i s) rest repl
            ++ replaceGlobal fuel p repl (before ++ take (i + length p) s) rest
      end
  end.
Definition replaceEvery (p repl s : str) : str := replaceGlobal (S (length s)) p repl [] s.

Definition eachOpen : str := "{{#each candidate.comments}}".
Definition eachClose : str := "{{/each}}".
(** The block is replaced once; its end is the first one after it. *)
Definition replaceEach (repl s : str) : str :=
  match indexOf s eachOpen with
  | None => s
  | Some i =>
      let inner := drop (i + length eachOpen) s in
      match indexOf inner eachClose with
      | None => s
      | Some j =>
          let len := length eachOpen + j + length eachClose in
          take i s ++ expandDollar (take len (drop i s)) (take i s) (drop (i + len) s) repl ++ drop (i + len) s
      end
  end.

Definition dquote : str := ["034"%char].
Definition commentBlock (c : CommentToJudge) : str :=
  "  <comment id=" ++ dquote ++ cj_id c ++ dquote ++ " severity=" ++ dquote ++ cj_severity c ++ dquote ++ " ruleId=" ++ dquote
    ++ default [] (cj_ruleId c) ++ dquote ++ ">" ++ nl ++ "    " ++ cj_body c ++ nl ++ "  </comment>".

Definition renderPrompt (template : str) (fixture : JudgeFixtureInput) : str :=
  let commentsBlock := join nl (map commentBlock (jf_comments fixture)) in
  let t := replaceEvery "{{fixture.expected_severity_modal}}" (default [] (expectedSeverityModal fixture)) template in
  let t := replaceEvery "{{fixture.diff}}" (default [] (jf_diff fixture)) t in
  let t := replaceEvery "{{candidate.summary}}" (jf_summary fixture) t in
  replaceEach commentsBlock t.

(** ** The answer *)

Definition fenceMark : str := "```".
(** The text of the first fence that is closed, a language of json and white space dropped. *)
Definition fencedText (s : str) : option str :=
  i ← indexOf s fenceMark;
  let rest := drop (i + 3) s in
  let rest := if startsWithI rest "json" then drop 4 rest else rest in
  let rest := trimStart rest in
  j ← indexOf rest fenceMark;
  Some (take j rest).

Record JudgePerCommentOutcome := {
  oc_id : str;
  oc_scores : option JudgeScores;
  oc_reasoning : option str;
  oc_skipped : bool;
  oc_skipReason : option str;
  rawAttempts : list str;
}.

Record FixtureOutcomes := { fo_fixtureId : str; fo_outcomes : list JudgePerCommentOutcome }.

Record AxisAggregate := {
  ag_accuracy : option number;
  ag_specificity : option number;
  ag_actionability : option number;
  ag_severity_calibration : option number;
}.
Record FixtureAggregate := { fa_fixtureId : str; fa_perAxis : AxisAggregate; fa_overall : option number; fa_judged : nat; fa_skipped : nat }.
Record OverallAggregate := {
  oa_perAxis : AxisAggregate;
  oa_overall : option number;
  oa_fixtures : list FixtureAggregate;
  totalJudged : nat;
  totalSkipped : nat;
}.

Record LoadedPrompt := { lp_id : str; lp_version : number; lp_body : str }.

Record RunJudgeArgs := {
  candidateResultsPath : str;
  rj_provider : ProviderType;
  rj_model : str;
  promptPath : str;
  rj_outPath : option str;
  rawDir : str;
  rj_fixturesDir : option str;
}.

Record RunJudgeResult := {
  rr_aggregate : OverallAggregate;
  rr_report : str;
  judgePromptVersion : number;
  rawArtifactPath : str;
  rr_outPath : option str;
}.

Section judge.
Context (parseJSON : str -> option json) (showNumber : number -> str).

Definition parseJudgeResponse (raw : str) : option (list JudgeCommentResult) :=
  let trimmed := trim raw in
  let candidate := match fencedText trimmed with Some t => trim t | None => trimmed end in
  parsed ← match parseJSON candidate with
           | Some v => Some v
           | None =>
               (* the outermost braces *)
               first ← indexOf candidate "{";
               last ← lastIndexOf "}"%char candidate;
               if (last <? first)%nat then None else parseJSON (take (S last - first) (drop first candidate))
           end;
  JudgeRawResponseSchema parsed.

Definition judgedAs (c : CommentToJudge) (hit : JudgeCommentResult) (attempts : list str) : JudgePerCommentOutcome :=
  {| oc_id := cj_id c; oc_scores := Some (jc_scores hit); oc_reasoning := Some (jc_reasoning hit); oc_skipped := false;
     oc_skipReason := None; rawAttempts := attempts |}.
Definition skippedFor (reason : str) (c : CommentToJudge) (attempts : list str) : JudgePerCommentOutcome :=
  {| oc_id := cj_id c; oc_scores := None; oc_reasoning := None; oc_skipped := true;
     oc_skipReason := Some reason; rawAttempts := attempts |}.

Definition outcomeOf (parsed : option (list JudgeCommentResult)) (attempts : list str) (c : CommentToJudge) : JudgePerCommentOutcome :=
  let byId := foldl (fun m r => mapSet (jc_id r) r m) [] (default [] parsed) in
  match mapGet (cj_id c) byId with
  | Some hit => judgedAs c hit attempts
  | None =>
      match parsed with
      | None => skippedFor "judge response failed schema validation after 1 retry" c attempts
      | Some _ => skippedFor "comment id missing from judge response" c attempts
      end
  end.

(** ** Aggregation *)

Definition sumOf (l : list number) : number := foldl nadd zero l.
Definition mean (values : list number) : option number :=
  match values with
  | [] => None
  | _ => Some (roundFixed showNumber 2 (ndiv (sumOf values) (num_of_Z (Zlen values))))
  end.

(** The scores of one axis of the comments that were judged. *)
Definition judgedScores (os : list JudgePerCommentOutcome) : list JudgeScores :=
  omap (fun o => if oc_skipped o then None else oc_scores o) os.
Definition axisMeans (os : list JudgePerCommentOutcome) : AxisAggregate :=
  let mean_ x := mean (map (axisScore x) (judgedScores os)) in
  {| ag_accuracy := mean_ ax_accuracy; ag_specificity := mean_ ax_specificity; ag_actionability := mean_ ax_actionability;
     ag_severity_calibration := mean_ ax_severity_calibration |}.
Definition overallOf (a : AxisAggregate) : option number :=
  mean (omap (fun v => v) [ag_accuracy a; ag_specificity a; ag_actionability a; ag_severity_calibration a]).

Definition aggregateFixture (f : FixtureOutcomes) : FixtureAggregate :=
  let axes := axisMeans (fo_outcomes f) in
  {| fa_fixtureId := fo_fixtureId f; fa_perAxis := axes; fa_overall := overallOf axes;
     fa_judged := length (judgedScores (fo_outcomes f));
     fa_skipped := length (List.filter (fun o => oc_skipped o || match oc_scores o with None => true | Some _ => false end) (fo_outcomes f)) |}.

Definition aggregate (perFixture : list FixtureOutcomes) : OverallAggregate :=
  let fixtures := map aggregateFixture perFixture in
  let axes := axisMeans (flat_map fo_outcomes perFixture) in
  {| oa_perAxis := axes; oa_overall := overallOf axes; oa_fixtures := fixtures;
     totalJudged := list_sum (map fa_judged fixtures); totalSkipped := list_sum (map fa_skipped fixtures) |}.

(** ** The prompt file *)

Definition isIdentStart (c : ascii) : bool :=
  let n := code c in ((65 <=? n) && (n <=? 90) || (97 <=? n) && (n <=? 122))%N || eqc c "_".
Definition isIdent (c : ascii) : bool := isIdentStart c || is_digit c.
Definition isQuote (c : ascii) : bool := eqc c "'" || eqc c "034".

(** [.replace(/^['"]|['"]$/g, '')] *)
Definition unquote (s : str) : str :=
  let s := match s with c :: rest => if isQuote c then rest else s | [] => [] end in
  match rev s with c :: rest => if isQuote c then rev rest else s | [] => [] end.

(** The key and the value of a line of the front matter. *)
Definition metaLine (line : str) : option (str * str) :=
  let line := trim line in
  match line with
  | c :: _ =>
      let key := takeWhile isIdent line in
      match drop (length key) line with
      | d :: rest =>
          let value := trimStart rest in
          if isIdentStart c && eqc d ":" && negb (bool_decide (value = []))
             && negb (existsb (fun x => bool_decide (code x = 10%N) || bool_decide (code x = 13%N)) value)
          then Some (key, unquote value) else None
      | [] => None
      end
  | [] => None
  end.

Definition metaStep (acc : str * number) (line : str) : str * number :=
  match metaLine line with
  | Some (key, value) =>
      if bool_decide (key = js "id") then (value, acc.2)
      else if bool_decide (key = js "version")
      then (acc.1, match parseInt value with Some n => num_of_Z n | None => nan end)
      else acc
  | None => acc
  end.

Definition parsePromptFile (raw : str) : result thrown LoadedPrompt :=
  let opening := "---" ++ nl in
  let closing := nl ++ "---" ++ nl in
  let inner := drop (length opening) raw in
  match (if startsWith raw opening then indexOf inner closing else None) with
  | None => error "judge prompt missing YAML frontmatter (--- ... ---)"
  | Some i =>
      let body := trim (drop (i + length closing) inner) in
      let '(id, version) := foldl metaStep ([], zero) (splitChar newline (take i inner)) in
      if bool_decide (id = []) then error "judge prompt frontmatter missing `id`"
      else if negb (isFinite version) || nle version zero then error "judge prompt frontmatter missing valid `version`"
      else Ok {| lp_id := id; lp_version := version; lp_body := body |}
  end.

(** ** A run *)

Definition orNone (x : option number) : str := match x with Some n => showNumber n | None => js "<none>" end.

Definition renderReport (agg : OverallAggregate) (promptVersion : number) (provider : ProviderType) (model : str) : str :=
  let axes := oa_perAxis agg in
  join nl
    (["llm_judge prompt_version=" ++ showNumber promptVersion ++ " provider=" ++ providerType_str provider ++ " model=" ++ model;
      "overall=" ++ orNone (oa_overall agg) ++ "  judged=" ++ showN (totalJudged agg) ++ "  skipped=" ++ showN (totalSkipped agg);
      "per-axis: accuracy=" ++ orNone (ag_accuracy axes) ++ " specificity=" ++ orNone (ag_specificity axes) ++ " actionability="
        ++ orNone (ag_actionability axes) ++ " severity_calibration=" ++ orNone (ag_severity_calibration axes)]
     ++ map (fun f => "  [" ++ fa_fixtureId f ++ "] overall=" ++ orNone (fa_overall f) ++ "  judged=" ++ showN (fa_judged f)
                        ++ "  skipped=" ++ showN (fa_skipped f)) (oa_fixtures agg)).

Definition numberOrNull (x : option number) : json := match x with Some n => JNum n | None => JNull end.
Definition count (n : nat) : json := JNum (num_of_Z (Z.of_nat n)).
Definition axesJson (a : AxisAggregate) : json :=
  obj [("accuracy", Some (numberOrNull (ag_accuracy a))); ("specificity", Some (numberOrNull (ag_specificity a)));
       ("actionability", Some (numberOrNull (ag_actionability a)));
       ("severity_calibration", Some (numberOrNull (ag_severity_calibration a)))]%string.
Definition aggregateJson (agg : OverallAggregate) : json :=
  obj [("perAxis", Some (axesJson (oa_perAxis agg))); ("overall", Some (numberOrNull (oa_overall agg)));
       ("fixtures", Some (JArr (map (fun f => obj [("fixtureId", Some (JStr (fa_fixtureId f))); ("perAxis", Some (axesJson (fa_perAxis f)));
                                                   ("overall", Some (numberOrNull (fa_overall f))); ("judged", Some (count (fa_judged f)));
                                                   ("skipped", Some (count (fa_skipped f)))]%string) (oa_fixtures agg))));
       ("totalJudged", Some (count (totalJudged agg))); ("totalSkipped", Some (count (totalSkipped agg)))]%string.

Context {W : Type} (readFile : str -> eff W thrown str) (writeFile : str -> str -> eff W thrown unit) (ensureDir : str -> eff W thrown unit)
  (call : ProviderType -> str -> str -> eff W thrown str) (nowIso : eff W thrown str)
  (stringify : json -> str) (joinPath : list str -> str).

(** [judgeRun]: the judge is asked once more when its first answer cannot be read. *)
Definition judgeRun (fixture : JudgeFixtureInput) (provider : ProviderType) (model promptTemplate : str)
    : eff W thrown (list JudgePerCommentOutcome) :=
  let prompt := renderPrompt promptTemplate fixture in
  raw ← call provider model prompt;
  pa ← match parseJudgeResponse raw with
       | Some parsed => mret (Some parsed, [raw])
       | None => again ← call provider model prompt; mret (parseJudgeResponse again, [raw; again])
       end;
  mret (map (outcomeOf pa.1 pa.2) (jf_comments fixture)).

Definition loadExpectedSeverityModal (fixturesDir : option str) (fixtureId : str) : eff W thrown (option str) :=
  match truthyStr fixturesDir with
  | None => mret None
  | Some dir =>
      tryCatch (raw ← readFile (joinPath [dir; fixtureId; js "expected.json"]);
                mret (v ← parseJSON raw; stringMember (js "severity_modal") v))
        (fun _ => mret None)
  end.

Definition commentToJudge (fixtureId : str) (runIndex idx : nat) (c : CandidateComment) : CommentToJudge :=
  {| cj_id := default (fixtureId ++ "#" ++ showN runIndex ++ "-" ++ showN idx) (cc_id c); cj_severity := severity_str (cc_severity c);
     cj_body := default [] (cc_body c); cj_ruleId := cc_ruleId c |}.

Definition recordJson (fixtureId : str) (runIndex : nat) (prompt : str) (attempts : list str) : json :=
  obj [("fixtureId", Some (JStr fixtureId)); ("runIndex", Some (count runIndex)); ("prompt", Some (JStr prompt));
       ("rawAttempts", Some (JArr (map JStr attempts)))]%string.

Section fixture.
Context (args : RunJudgeArgs) (prompt : LoadedPrompt).

(** The runs of a fixture from [runIndex] on: their outcomes, and the records of the raw artifact. *)
Fixpoint judgeRuns (fixtureId : str) (expected : option str) (runIndex : nat) (runs : list CandidateRun)
    : eff W thrown (list JudgePerCommentOutcome * list json) :=
  match runs with
  | [] => mret ([], [])
  | run :: rest =>
      let comments := imap (commentToJudge fixtureId runIndex) (cr_comments run) in
      if (length comments =? 0)%nat then judgeRuns fixtureId expected (S runIndex) rest
      else
        let input := {| jf_fixtureId := fixtureId; expectedSeverityModal := expected; jf_diff := None; jf_comments := comments;
                        jf_summary := default [] (cr_summary run) |} in
        outcomes ← judgeRun input (rj_provider args) (rj_model args) (lp_body prompt);
        let record := recordJson fixtureId runIndex (renderPrompt (lp_body prompt) input)
                        (default [] (rawAttempts <$> head outcomes)) in
        more ← judgeRuns fixtureId expected (S runIndex) rest;
        mret (outcomes ++ more.1, record :: more.2)
  end.

Fixpoint judgeFixtures (fixtures : list CandidateFixture) : eff W thrown (list FixtureOutcomes * list json) :=
  match fixtures with
  | [] => mret ([], [])
  | fx :: rest =>
      expected ← loadExpectedSeverityModal (rj_fixturesDir args) (cf_fixtureId fx);
      out ← judgeRuns (cf_fixtureId fx) expected 0 (cf_runs fx);
      more ← judgeFixtures rest;
      mret ({| fo_fixtureId := cf_fixtureId fx; fo_outcomes := out.1 |} :: more.1, out.2 ++ more.2)
  end.
End fixture.

Definition artifactName (iso : str) : str := map (fun c => if eqc c ":" || eqc c "." then "-"%char else c) iso ++ ".json".

Definition runJudge (args : RunJudgeArgs) : eff W thrown RunJudgeResult :=
  promptRaw ← readFile (promptPath args);
  prompt ← lift (parsePromptFile promptRaw);
  candidate ← readJson readFile parseJSON (candidateResultsPath args) CandidateResultsSchema;
  out ← judgeFixtures args prompt candidate;
  let agg := aggregate out.1 in
  ts ← nowIso;
  let path := joinPath [rawDir args; artifactName ts] in
  ensureDir (rawDir args);;
  generated ← nowIso;
  let head := [("judge_prompt_version", Some (JNum (lp_version prompt))); ("judge_provider", Some (JStr (providerType_str (rj_provider args))));
               ("judge_model", Some (JStr (rj_model args)))]%string in
  writeFile path (stringify (obj (head ++ [("generated_at", Some (JStr generated)); ("records", Some (JArr out.2))]%string)) ++ nl);;
  (match truthyStr (rj_outPath args) with
   | Some outPath => writeFile outPath (stringify (obj (head ++ [("aggregate"%string, Some (aggregateJson agg))])) ++ nl)
   | None => mret tt
   end);;
  mret {| rr_aggregate := agg; rr_report := renderReport agg (lp_version prompt) (rj_provider args) (rj_model args);
          judgePromptVersion := lp_version prompt; rawArtifactPath := path; rr_outPath := rj_outPath args |}.
End judge.

(** ** The arguments *)

Record CliArgs := {
  ca_candidateResultsPath : str;
  ca_provider : ProviderType;
  ca_model : str;
  ca_promptPath : str;
  ca_outPath : option str;
  ca_rawDir : str;
  baselineApply : bool;
  parityApply : option str;
}.

Definition withResults (p : str) (a : CliArgs) : CliArgs :=
  {| ca_candidateResultsPath := p; ca_provider := ca_provider a; ca_model := ca_model a; ca_promptPath := ca_promptPath a;
     ca_outPath := ca_outPath a; ca_rawDir := ca_rawDir a; baselineApply := baselineApply a; parityApply := parityApply a |}.
Definition withProvider (p : ProviderType) (a : CliArgs) : CliArgs :=
  {| ca_candidateResultsPath := ca_candidateResultsPath a; ca_provider := p; ca_model := ca_model a; ca_promptPath := ca_promptPath a;
     ca_outPath := ca_outPath a; ca_rawDir := ca_rawDir a; baselineApply := baselineApply a; parityApply := parityApply a |}.
Definition withModelAndPrompt (m p : str) (a : CliArgs) : CliArgs :=
  {| ca_candidateResultsPath := ca_candidateResultsPath a; ca_provider := ca_provider a; ca_model := m; ca_promptPath := p;
     ca_outPath := ca_outPath a; ca_rawDir := ca_rawDir a; baselineApply := baselineApply a; parityApply := parityApply a |}.
Definition withOutputs (o : option str) (d : str) (a : CliArgs) : CliArgs :=
  {| ca_candidateResultsPath := ca_candidateResultsPath a; ca_provider := ca_provider a; ca_model := ca_model a;
     ca_promptPath := ca_promptPath a; ca_outPath := o; ca_rawDir := d; baselineApply := baselineApply a; parityApply := parityApply a |}.
Definition withApply (b : bool) (p : option str) (a : CliArgs) : CliArgs :=
  {| ca_candidateResultsPath := ca_candidateResultsPath a; ca_provider := ca_provider a; ca_model := ca_model a;
     ca_promptPath := ca_promptPath a; ca_outPath := ca_outPath a; ca_rawDir := ca_rawDir a; baselineApply := b; parityApply := p |}.

Definition providerNamed (s : str) : option ProviderType :=
  List.find (fun p => bool_decide (providerType_str p = s)) PROVIDER_TYPES.

(** The loop of [parseArgs]; a provider that is not known throws at once. *)
Fixpoint parseArgsFrom (fuel : nat) (argv : list str) (a : CliArgs) : result thrown CliArgs :=
  match fuel, argv with
  | S fuel, x :: rest =>
      let next := head rest in
      let go := parseArgsFrom fuel in
      if bool_decide (x = js "--candidate-results") then go (tail rest) (withResults (default [] next) a)
      else if bool_decide (x = js "--judge-provider") then
        match providerNamed (default [] next) with
        | None => error ("--judge-provider must be one of " ++ join ", " (map providerType_str PROVIDER_TYPES) ++ ", got '" ++ default [] next ++ "'")
        | Some p => go (tail rest) (withProvider p a)
        end
      else if bool_decide (x = js "--judge-model") then go (tail rest) (withModelAndPrompt (default (ca_model a) next) (ca_promptPath a) a)
      else if bool_decide (x = js "--prompt") then go (tail rest) (withModelAndPrompt (ca_model a) (default (ca_promptPath a) next) a)
      else if bool_decide (x = js "--out") then go (tail rest) (withOutputs next (ca_rawDir a) a)
      else if bool_decide (x = js "--raw-dir") then go (tail rest) (withOutputs (ca_outPath a) (default (ca_rawDir a) next) a)
      else if bool_decide (x = js "--baseline-apply") then go rest (withApply true (parityApply a) a)
      else if bool_decide (x = js "--parity-apply") then go (tail rest) (withApply (baselineApply a) next a)
      else go rest a
  | _, _ => Ok a
  end.

Definition parseArgs (PROMPT RAW_DIR : str) (argv : list str) : result thrown CliArgs :=
  a ← parseArgsFrom (length argv) argv
        {| ca_candidateResultsPath := []; ca_provider := p_anthropic; ca_model := "claude-opus-4-7"; ca_promptPath := PROMPT;
           ca_outPath := None; ca_rawDir := RAW_DIR; baselineApply := false; parityApply := None |};
  if bool_decide (ca_candidateResultsPath a = [])
  then error "Usage: llm-as-judge --candidate-results <path> --judge-provider <id> [--judge-model <model>] [--out <path>] [--baseline-apply] [--parity-apply <provider-id>]"
  else Ok a.

(** The fuel of [parseArgs], the number of arguments, is enough. *)
Lemma parseArgsFrom_enough : forall n m argv a, length argv <= n -> length argv <= m -> parseArgsFrom n argv a = parseArgsFrom m argv a.
Proof. enough_fuel. Qed.

(** So is that of [replaceEvery]: every step behind a match is shorter. *)
Lemma replaceGlobal_enough p repl : p <> [] -> forall n m before s, length s < n -> length s < m ->
  replaceGlobal n p repl before s = replaceGlobal m p repl before s.
Proof.
  intros Hp. destruct p as [|d p]; [done|]. clear Hp. intros n. induction n as [|n IH]; intros [|m] before s Hn Hm; try lia.
  cbn [replaceGlobal]. destruct (indexOf s (d :: p)) as [i|]; [|done].
  do 2 f_equal. destruct s as [|c s]; [rewrite drop_nil; by destruct n, m|].
  apply IH; rewrite length_drop; simpl in *; lia.
Qed.

(** ** The persisted scores *)

Section persist.
(** The order in which the schema library prints the members of an object is its own. *)
Context (parseJSON : str -> option json) (stringify : json -> str) (shaped : list string -> jsmap json -> jsmap json)
  {W : Type} (readFile : str -> eff W thrown str) (writeFile : str -> str -> eff W thrown unit).

Definition BaselineFileSchema (v : json) : option (jsmap json * jsmap json) :=
  o ← asFields v;
  current ← at_ "current_pass_rates" (requiredR asFields) o;
  Some (shaped ["current_pass_rates"%string] o, shaped [] current).

Definition judgeMetadata (recordedAt : str) (provider : ProviderType) (model : str) (promptVersion : number) : json :=
  obj [("recorded_at", Some (JStr recordedAt)); ("judge_provider", Some (JStr (providerType_str provider)));
       ("judge_model", Some (JStr model)); ("judge_prompt_version", Some (JNum promptVersion))]%string.

Definition withJudgeScore (overall : option number) (metadata : json) (data : jsmap json * jsmap json) : json :=
  let current := mapSet (js "llm_judge_metadata") metadata (mapSet (js "llm_judge_score") (numberOrNull overall) data.2) in
  JObj (mapSet (js "current_pass_rates") (JObj current) data.1).

Definition applyBaselineUpdate (baselinePath : str) (overall : option number) (promptVersion : number) (provider : ProviderType)
    (model nowIso : str) : eff W thrown unit :=
  data ← readJson readFile parseJSON baselinePath BaselineFileSchema;
  writeFile baselinePath (stringify (withJudgeScore overall (judgeMetadata (take 10 nowIso) provider model promptVersion) data) ++ nl).

(** A provider of parity.json: its id, its other members and those of its evaluation. *)
Definition parityProvider (v : json) : option (str * jsmap json * jsmap json) :=
  p ← asFields v;
  id ← at_ "id" (requiredR asString) p;
  ev ← at_ "eval" (requiredR asFields) p;
  Some (id, shaped ["id"; "eval"]%string p, shaped [] ev).
Definition ParityFileSchema (v : json) : option (jsmap json * list (str * jsmap json * jsmap json)) :=
  o ← asFields v;
  ps ← at_ "providers" (requiredR (asArray parityProvider)) o;
  Some (shaped ["providers"%string] o, ps).

Definition withParityScore (providerId : str) (overall : option number) (p : str * jsmap json * jsmap json) : json :=
  let ev := if bool_decide (p.1.1 = providerId) then mapSet (js "llm_judge_score") (numberOrNull overall) p.2 else p.2 in
  JObj (mapSet (js "eval") (JObj ev) p.1.2).

Definition applyParityUpdate (parityPath providerId : str) (overall : option number) : eff W thrown unit :=
  data ← readJson readFile parseJSON parityPath ParityFileSchema;
  if existsb (fun p => bool_decide (p.1.1 = providerId)) data.2 then
    writeFile parityPath
      (stringify (JObj (mapSet (js "providers") (JArr (map (withParityScore providerId overall) data.2)) data.1)) ++ nl)
  else throw (errorOf ("parity.json: provider id '" ++ providerId ++ "' not found")).

(** ** The client, and the program *)

Definition PROVIDER_PACKAGES (t : ProviderType) : str :=
  match t with
  | p_anthropic => "@ai-sdk/anthropic" | p_openai => "@ai-sdk/openai" | p_azure_openai => "@ai-sdk/azure" | p_google => "@ai-sdk/google"
  | p_vertex => "@ai-sdk/google-vertex" | p_bedrock => "@ai-sdk/amazon-bedrock" | p_openai_compatible => "@ai-sdk/openai-compatible"
  end.
Definition PROVIDER_FACTORIES (t : ProviderType) : str :=
  match t with
  | p_anthropic => "createAnthropic" | p_openai => "createOpenAI" | p_azure_openai => "createAzure" | p_google => "createGoogleGenerativeAI"
  | p_vertex => "createVertex" | p_bedrock => "createAmazonBedrock" | p_openai_compatible => "createOpenAICompatible"
  end.

(** A package is what it exports: a factory takes its options and the name of a model. *)
Context {LanguageModel : Type} (dynamicImport : str -> eff W thrown (str -> option (jsmap str -> str -> LanguageModel)))
  (importGenerateText : eff W thrown (LanguageModel -> str -> eff W thrown str)) (OPENAI_COMPATIBLE_BASE_URL : option str).

Definition buildLanguageModel (provider : ProviderType) (model : str) : eff W thrown LanguageModel :=
  mod_ ← dynamicImport (PROVIDER_PACKAGES provider);
  match mod_ (PROVIDER_FACTORIES provider) with
  | None => throw (errorOf ("judge provider '" ++ providerType_str provider ++ "': expected '" ++ PROVIDER_FACTORIES provider
                              ++ "' export in '" ++ PROVIDER_PACKAGES provider ++ "'"))
  | Some factory =>
      mret (match provider with
            | p_openai_compatible =>
                factory [(js "name", js "openai-compatible"); (js "baseURL", default [] OPENAI_COMPATIBLE_BASE_URL)] model
            | _ => factory [] model
            end)
  end.

Definition createDefaultJudgeClient (provider : ProviderType) (model prompt : str) : eff W thrown str :=
  generateText ← importGenerateText;
  languageModel ← buildLanguageModel provider model;
  generateText languageModel prompt.

Context (showNumber : number -> str) (ensureDir : str -> eff W thrown unit) (nowIso : eff W thrown str) (joinPath : list str -> str)
  (stdout : str -> eff W thrown unit) (DEFAULT_PROMPT_PATH DEFAULT_JUDGE_RAW_DIR DEFAULT_BASELINE_PATH DEFAULT_PARITY_PATH : str).

Definition runArgsOf (a : CliArgs) : RunJudgeArgs :=
  {| candidateResultsPath := ca_candidateResultsPath a; rj_provider := ca_provider a; rj_model := ca_model a; promptPath := ca_promptPath a;
     rj_outPath := ca_outPath a; rawDir := ca_rawDir a; rj_fixturesDir := None |}.

Definition overallText (r : RunJudgeResult) : str :=
  match oa_overall (rr_aggregate r) with Some x => showNumber x | None => "null" end.

Definition judgeMain (argv : list str) : eff W thrown unit :=
  args ← lift (parseArgs DEFAULT_PROMPT_PATH DEFAULT_JUDGE_RAW_DIR argv);
  result ← runJudge parseJSON showNumber readFile writeFile ensureDir createDefaultJudgeClient nowIso stringify joinPath (runArgsOf args);
  stdout (rr_report result ++ nl);;
  stdout ("raw artifact: " ++ rawArtifactPath result ++ nl);;
  (if baselineApply args then
     now ← nowIso;
     applyBaselineUpdate DEFAULT_BASELINE_PATH (oa_overall (rr_aggregate result)) (judgePromptVersion result) (ca_provider args) (ca_model args) now;;
     stdout ("baseline.json: llm_judge_score updated to " ++ overallText result ++ nl)
   else mret tt);;
  match truthyStr (parityApply args) with
  | Some providerId =>
      applyParityUpdate DEFAULT_PARITY_PATH providerId (oa_overall (rr_aggregate result));;
      stdout ("parity.json: " ++ providerId ++ ".eval.llm_judge_score updated to " ++ overallText result ++ nl)
  | None => mret tt
  end.
End persist.

(** ** What the judge's answer holds *)

Definition isScore (x : number) : Prop := isInt 1 (Some 5%Z) x = true.
Definition scores_wf (s : JudgeScores) : Prop := forall axis, isScore (axisScore axis s).

Lemma ScoreAxis_bounds (o : option json) x : requiredR ScoreAxis o = Some x -> isScore x.
Proof. intros (v & _ & H)%bind_Some. by apply (decode_wf (f := asInt 1 (Some 5%Z))) in H as [_ H]. Qed.

Lemma JudgeScoresSchema_wf v s : JudgeScoresSchema v = Some s -> scores_wf s.
Proof.
  unfold JudgeScoresSchema. intros H. repeat apply bind_Some in H as (? & ? & H). injection H as <-.
  intros []; by eapply ScoreAxis_bounds.
Qed.

Lemma parseJudgeResponse_wf parseJSON raw l r :
  parseJudgeResponse parseJSON raw = Some l -> r ∈ l -> scores_wf (jc_scores r).
Proof.
  unfold parseJudgeResponse. intros (v & _ & H)%bind_Some Hr. unfold JudgeRawResponseSchema in H.
  apply bind_Some in H as (o & _ & H). apply bind_Some in H as (w & _ & H). destruct w as [| | | |ws|]; try done.
  apply mapM_Some in H. apply list_elem_of_lookup in Hr as [i Hi].
  destruct (Forall2_lookup_r _ _ _ _ _ H Hi) as (x & _ & Hx). unfold JudgeCommentResultSchema in Hx.
  repeat apply bind_Some in Hx as (? & ? & Hx). injection Hx as <-. cbn.
  match goal with E : at_ _ (requiredR JudgeScoresSchema) _ = _ |- _ => apply bind_Some in E as (? & _ & E); by eapply JudgeScoresSchema_wf end.
Qed.

(** The last result of an id is one of the answer. *)
Lemma byId_elem (l : list JudgeCommentResult) acc k r :
  mapGet k (foldl (fun m x => mapSet (jc_id x) x m) acc l) = Some r -> r ∈ l \/ mapGet k acc = Some r.
Proof.
  revert acc. induction l as [|x l IH]; intros acc H; [by right|]. apply IH in H as [H|H]; [left; by right|].
  rewrite mapGet_mapSet in H. case_bool_decide; [|by right]. injection H as <-. left. left.
Qed.

(** A comment is judged, with scores from one to five, or skipped, with none. *)
Definition graded (o : JudgePerCommentOutcome) : Prop :=
  match oc_scores o with
  | Some s => oc_skipped o = false /\ scores_wf s
  | None => oc_skipped o = true
  end.

Lemma outcomeOf_id parsed attempts c : oc_id (outcomeOf parsed attempts c) = cj_id c.
Proof. unfold outcomeOf. destruct (mapGet _ _); [done|]. by destruct parsed. Qed.

Lemma outcomeOf_graded parseJSON raw attempts c : graded (outcomeOf (parseJudgeResponse parseJSON raw) attempts c).
Proof.
  unfold outcomeOf. destruct (mapGet _ _) as [hit|] eqn:E; [|by destruct (parseJudgeResponse parseJSON raw)].
  cbn. split; [done|]. apply byId_elem in E as [E|E]; [|done].
  destruct (parseJudgeResponse parseJSON raw) as [l|] eqn:Ep; [by eapply parseJudgeResponse_wf|]. by apply elem_of_nil in E.
Qed.

(** ** Counting *)

Lemma graded_split os : Forall graded os ->
  length (judgedScores os)
  + length (List.filter (fun o => oc_skipped o || match oc_scores o with None => true | Some _ => false end) os) = length os.
Proof.
  induction 1 as [|o os Ho _ IH]; [done|]. unfold judgedScores in *. cbn. unfold graded in Ho.
  destruct (oc_scores o) as [s|]; [destruct Ho as [-> _]|rewrite Ho]; cbn; lia.
Qed.

(** ** A run, and a fixture *)

Section judge.
Context (parseJSON : str -> option json) {W : Type} (readFile : str -> eff W thrown str)
  (call : ProviderType -> str -> str -> eff W thrown str) (joinPath : list str -> str) (calls : W -> nat).
Context (Hcall : forall p m t s, calls (call p m t s).2 = S (calls s)) (Hread : forall path, keeps calls (readFile path)).

Lemma judgeRun_outcomes fixture provider model template os s s' :
  judgeRun parseJSON call fixture provider model template s = (Ok os, s') ->
  map oc_id os = map cj_id (jf_comments fixture) /\ Forall graded os /\ S (calls s) <= calls s' <= 2 + calls s.
Proof.
  unfold judgeRun. intros H. inv_eff.
  assert (calls s0 = S (calls s)) as H0 by (rewrite <- (Hcall provider model (renderPrompt template fixture) s); by rewrite Hm).
  assert ((exists raw, a0.1 = parseJudgeResponse parseJSON raw) /\ calls s0 <= calls s' <= S (calls s0)) as [[raw Hraw] Hc].
  { destruct (parseJudgeResponse parseJSON a) as [l|] eqn:Ep.
    - inv_eff. cbn. split; [by exists a|lia].
    - inv_eff. cbn. split; [by eexists|]. pose proof (Hcall provider model (renderPrompt template fixture) s0) as Hc.
      rewrite Hm1 in Hc. cbn in Hc. lia. }
  split_and!; [|rewrite Hraw|lia|lia].
  - rewrite map_map. apply map_ext. intros c. apply outcomeOf_id.
  - apply Forall_map, Forall_forall. intros c _. apply outcomeOf_graded.
Qed.

(** The runs that have comments, and the ids of their comments. *)
Definition commentedRuns (runs : list CandidateRun) : list CandidateRun :=
  List.filter (fun r => negb (length (cr_comments r) =? 0)%nat) runs.
Definition runIds (fixtureId : str) (n : nat) (runs : list CandidateRun) : list str :=
  concat (imap (fun i r => map cj_id (imap (commentToJudge fixtureId (n + i)) (cr_comments r))) runs).

Lemma runIds_cons fixtureId n r rs :
  runIds fixtureId n (r :: rs) = map cj_id (imap (commentToJudge fixtureId n) (cr_comments r)) ++ runIds fixtureId (S n) rs.
Proof.
  unfold runIds. rewrite imap_cons. cbn [concat]. rewrite Nat.add_0_r. f_equal. f_equal. apply imap_ext.
  intros i x _. cbn. by rewrite Nat.add_succ_r.
Qed.

Lemma judgeRuns_outcomes args prompt fixtureId expected runs n os rs s s' :
  judgeRuns parseJSON call args prompt fixtureId expected n runs s = (Ok (os, rs), s') ->
  map oc_id os = runIds fixtureId n runs /\ Forall graded os /\ length rs = length (commentedRuns runs) /\
  calls s + length (commentedRuns runs) <= calls s' <= calls s + 2 * length (commentedRuns runs).
Proof.
  revert n os rs s s'. induction runs as [|r runs IH]; intros n os rs s s' H.
  { cbn in H. inv_eff. split_and!; try done; cbn; lia. }
  cbn [judgeRuns] in H. rewrite runIds_cons. cbn zeta in H. rewrite length_imap in H. unfold commentedRuns in *. cbn [List.filter].
  destruct (Nat.eqb_spec (length (cr_comments r)) 0) as [E|E]; cbn [negb].
  - apply IH in H as (H1 & H2 & H3 & H4). apply nil_length_inv in E. rewrite E. split_and!; try done; lia.
  - inv_eff. destruct a0 as [os' rs']. apply judgeRun_outcomes in Hm as (H1 & H2 & H3). apply IH in Hm0 as (H4 & H5 & H6 & H7).
    cbn [fst snd length] in *. split_and!; [by rewrite map_app, H1, H4|by apply Forall_app|by rewrite H6|lia|lia].
Qed.

Lemma loadExpected_keeps dir id : keeps calls (loadExpectedSeverityModal parseJSON readFile joinPath dir id).
Proof. unfold loadExpectedSeverityModal. solve_keeps. Qed.

(** What a fixture's outcomes are. *)
Definition accounted (fx : CandidateFixture) (f : FixtureOutcomes) : Prop :=
  fo_fixtureId f = cf_fixtureId fx /\ map oc_id (fo_outcomes f) = runIds (cf_fixtureId fx) 0 (cf_runs fx) /\
  Forall graded (fo_outcomes f).

Lemma judgeFixtures_outcomes args prompt fixtures outs rs s s' :
  judgeFixtures parseJSON readFile call joinPath args prompt fixtures s = (Ok (outs, rs), s') ->
  Forall2 accounted fixtures outs /\ length rs = length (commentedRuns (flat_map cf_runs fixtures)) /\
  calls s + length rs <= calls s' <= calls s + 2 * length rs.
Proof.
  revert outs rs s s'. induction fixtures as [|fx l IH]; intros outs rs s s' H.
  { cbn in H. inv_eff. split_and!; [constructor|done|cbn; lia|cbn; lia]. }
  cbn [judgeFixtures] in H. inv_eff. destruct a0 as [os rs0], a1 as [outs' rs']. cbn [fst snd] in *.
  pose proof (loadExpected_keeps (rj_fixturesDir args) (cf_fixtureId fx) s) as Hk. rewrite Hm in Hk. cbn in Hk.
  apply judgeRuns_outcomes in Hm0 as (H1 & H2 & H3 & H4). apply IH in Hm1 as (H5 & H6 & H7).
  split; [by constructor|]. rewrite length_app. cbn [flat_map]. unfold commentedRuns in *. rewrite List.filter_app, length_app. lia.
Qed.
End judge.

Lemma totals_split showNumber fixtures outs : Forall2 accounted fixtures outs ->
  totalJudged (aggregate showNumber outs) + totalSkipped (aggregate showNumber outs) = length (flat_map fo_outcomes outs).
Proof.
  cbn. induction 1 as [|fx f fxs fs (_ & _ & Hg) _ IH]; [done|]. cbn [map flat_map]. rewrite length_app, <- (graded_split _ Hg), <- IH.
  simpl. lia.
Qed.

(** ** Property *)

(** C39. A judged results file accounts for every comment: each fixture of the file has the outcomes of
    its comments in their order, each judged with four whole scores from one to five or skipped with
    none, and the totals of the report add up to the comments. Each run with comments costs one call
    to the judge or two, runs without comments cost none, and nothing else calls it. *)
Theorem every_comment_is_accounted_for parseJSON showNumber {W} (readFile : str -> eff W thrown str)
    (writeFile : str -> str -> eff W thrown unit) (ensureDir : str -> eff W thrown unit)
    (call : ProviderType -> str -> str -> eff W thrown str) (nowIso : eff W thrown str) stringify joinPath (calls : W -> nat) args r s s' :
  (forall p m t s, calls (call p m t s).2 = S (calls s)) ->
  (forall path, keeps calls (readFile path)) -> (forall path text, keeps calls (writeFile path text)) ->
  (forall dir, keeps calls (ensureDir dir)) -> keeps calls nowIso ->
  runJudge parseJSON showNumber readFile writeFile ensureDir call nowIso stringify joinPath args s = (Ok r, s') ->
  exists candidate outs,
    (exists s1 s2, readJson readFile parseJSON (candidateResultsPath args) CandidateResultsSchema s1 = (Ok candidate, s2)) /\
    rr_aggregate r = aggregate showNumber outs /\ Forall2 accounted candidate outs /\
    totalJudged (rr_aggregate r) + totalSkipped (rr_aggregate r) = length (flat_map fo_outcomes outs) /\
    let runs := commentedRuns (flat_map cf_runs candidate) in
    calls s + length runs <= calls s' <= calls s + 2 * length runs.
Proof.
  intros Hcall Hread Hwrite Hdir Hnow H. unfold runJudge in H.
  apply bind_Ok in H as (promptRaw & s1 & H1 & H). pose proof (Hread (promptPath args) s) as K1. rewrite H1 in K1.
  apply bind_Ok in H as (prompt & s2 & H2 & H). unfold lift in H2. injection H2 as _ <-.
  apply bind_Ok in H as (candidate & s3 & H3 & H).
  assert (keeps calls (readJson readFile parseJSON (candidateResultsPath args) CandidateResultsSchema)) as K3.
  { unfold readJson. solve_keeps. }
  specialize (K3 s1). rewrite H3 in K3.
  apply bind_Ok in H as ([outs records] & s4 & H4 & H).
  destruct (judgeFixtures_outcomes parseJSON readFile call joinPath calls Hcall Hread args prompt candidate outs records s3 s4 H4)
    as (Hacc & Hrec & Hc). cbn [fst snd] in *.
  match type of H with ?m s4 = _ => assert (calls s' = calls s4 /\ rr_aggregate r = aggregate showNumber outs) as [K5 Hr] end.
  { split.
    - match type of H with ?m s4 = _ => assert (keeps calls m) as K by solve_keeps end. specialize (K s4). by rewrite H in K.
    - clear -H. inv_eff. done. }
  exists candidate, outs. split; [by exists s1, s3|]. split; [done|]. split; [done|].
  rewrite Hr. split; [by eapply totals_split|]. rewrite <- Hrec. lia.
Qed.

(** A fixture with one run of two comments; the judge's first answer cannot be read. *)
Definition sampleResults : json :=
  obj [("results", Some (JArr [obj [("fixtureId", Some (JStr "f"));
         ("runs", Some (JArr [obj [("comments", Some (JArr [obj [("severity", Some (JStr "major")); ("id", Some (JStr "a"))];
                                                            obj [("severity", Some (JStr "minor"))]]))];
                              obj [("comments", Some (JArr []))]]))]]))]%string.
Definition sampleAnswer : json :=
  let four := Some (JNum (num_of_Z 4)) in
  obj [("comments", Some (JArr [obj [("id", Some (JStr "a"));
         ("scores", Some (obj [("accuracy", four); ("specificity", four); ("actionability", four); ("severity_calibration", four)]));
         ("reasoning", Some (JStr "ok"))]]))]%string.
Definition sampleParse (t : str) : option json :=
  if bool_decide (t = js "results") then Some sampleResults else if bool_decide (t = js "answer") then Some sampleAnswer else None.
Definition sampleRead (path : str) : eff nat thrown str :=
  mret (if bool_decide (path = js "prompt.md") then "---" ++ nl ++ "id: judge" ++ nl ++ "version: 1" ++ nl ++ "---" ++ nl ++ "Grade." else js "results").
Definition sampleCall (_ : ProviderType) (_ _ : str) : eff nat thrown str := fun n => (Ok (if (n =? 0)%nat then js "no" else js "answer"), S n).
Definition sampleArgs : RunJudgeArgs :=
  {| candidateResultsPath := "r.json"; rj_provider := p_anthropic; rj_model := "m"; promptPath := "prompt.md"; rj_outPath := None;
     rawDir := "raw"; rj_fixturesDir := None |}.
Definition sampleRun : result thrown RunJudgeResult * nat :=
  runJudge sampleParse (fun _ => []) sampleRead (fun _ _ => mret tt) (fun _ => mret tt) sampleCall (mret (js "now")) (fun _ => [])
    (fun parts => join "/" parts) sampleArgs 0.

Lemma every_comment_is_accounted_for_witness :
  exists r candidate outs, sampleRun = (Ok r, 2) /\ rr_aggregate r = aggregate (fun _ => []) outs /\ Forall2 accounted candidate outs /\
    totalJudged (rr_aggregate r) = 1 /\ totalSkipped (rr_aggregate r) = 1 /\ length (flat_map fo_outcomes outs) = 2.
Proof.
  destruct sampleRun as [[r|e] n] eqn:E; [|exfalso; vm_compute in E; discriminate].
  destruct (every_comment_is_accounted_for sampleParse (fun _ => []) sampleRead (fun _ _ => mret tt) (fun _ => mret tt) sampleCall
              (mret (js "now")) (fun _ => []) (fun parts => join "/" parts) (fun n : nat => n) sampleArgs r 0 n)
    as (candidate & outs & _ & Hr & Hacc & Htot & _); try done.
  assert (n = 2 /\ totalJudged (rr_aggregate r) = 1 /\ totalSkipped (rr_aggregate r) = 1) as (-> & Hj & Hs).
  { vm_compute in E. injection E as <- <-. by vm_compute. }
  exists r, candidate, outs. split_and!; try done. lia.
Defined.

(** ** What is recorded *)

Section recorded.
Context (parseJSON : str -> option json) {W : Type} (readFile : str -> eff W thrown str).

Lemma readJson_value {A} path (schema : json -> option A) w a w' :
  readJson readFile parseJSON path schema w = (Ok a, w') ->
  exists raw v, readFile path w = (Ok raw, w') /\ parseJSON raw = Some v /\ schema v = Some a.
Proof using.
  unfold readJson. unfold mbind, eff_bind. destruct (readFile path w) as [[raw|e] w1]; [|done].
  destruct (parseJSON raw) as [v|] eqn:Ev; [|done]. destruct (schema v) as [x|] eqn:Es; [|done]. intros [= <- <-]. by exists raw, v.
Qed.

Lemma required_fields key (o : jsmap json) f : at_ key (requiredR asFields) o = Some f -> mapGet (js key) o = Some (JObj f).
Proof using.
  unfold at_, requiredR. destruct (mapGet (js key) o) as [[]|]; try done. cbn. by intros [= ->].
Qed.
End recorded.

(** The update of the baseline prints what the file held, with the score and its metadata in the
    current rates: every other member of the file and of the rates is the one it was - given that the
    schema library keeps the members it passes through. *)
Theorem judge_score_is_recorded parseJSON stringify shaped {W} (readFile : str -> eff W thrown str)
    (writeFile : str -> str -> eff W thrown unit) path overall version provider model now w w' :
  (forall ks o k, mapGet k (shaped ks o) = mapGet k o) ->
  applyBaselineUpdate parseJSON stringify shaped readFile writeFile path overall version provider model now w = (Ok tt, w') ->
  exists raw w1 o current o' current',
    (readFile path w = (Ok raw, w1) /\ parseJSON raw = Some (JObj o) /\ mapGet (js "current_pass_rates") o = Some (JObj current)) /\
    (writeFile path (stringify (JObj o') ++ nl) w1 = (Ok tt, w') /\ mapGet (js "current_pass_rates") o' = Some (JObj current')) /\
    (forall k, k <> js "current_pass_rates" -> mapGet k o' = mapGet k o) /\
    mapGet (js "llm_judge_score") current' = Some (numberOrNull overall) /\
    mapGet (js "llm_judge_metadata") current' = Some (judgeMetadata (take 10 now) provider model version) /\
    (forall k, k <> js "llm_judge_score" -> k <> js "llm_judge_metadata" -> mapGet k current' = mapGet k current).
Proof.
  intros Hshaped H. unfold applyBaselineUpdate in H. apply bind_Ok in H as (data & w1 & Hread & Hwrite).
  apply readJson_value in Hread as (raw & v & Hraw & Hv & Hs). unfold BaselineFileSchema in Hs.
  destruct v as [| | | | |o]; try done. cbn [asFields mbind option_bind] in Hs.
  destruct (at_ "current_pass_rates" (requiredR asFields) o) as [current|] eqn:Ec; [|done]. apply required_fields in Ec.
  cbn [mbind option_bind] in Hs. injection Hs as <-. cbn [withJudgeScore] in Hwrite. unfold withJudgeScore in Hwrite. cbn [fst snd] in Hwrite.
  eexists raw, w1, o, current, _, _. split; [done|]. split; [split; [exact Hwrite|]|].
  { by rewrite mapGet_mapSet, bool_decide_eq_true_2. }
  split_and!.
  - intros k Hk. by rewrite mapGet_mapSet, bool_decide_eq_false_2, Hshaped.
  - rewrite mapGet_mapSet, bool_decide_eq_false_2 by done. by rewrite mapGet_mapSet, bool_decide_eq_true_2.
  - by rewrite mapGet_mapSet, bool_decide_eq_true_2.
  - intros k Hk1 Hk2. by rewrite !mapGet_mapSet, !bool_decide_eq_false_2, Hshaped.
Qed.

(** A world of one file; the texts of the witness are the first letters of what they stand for. *)
Definition oldBaseline : json := obj [("version", Some (JNum (num_of_Z 1))); ("current_pass_rates", Some (obj [("severity", Some (JNum zero))]))]%string.
Definition lettered (v : json) : str :=
  match member (js "version") v, member (js "current_pass_rates") v with
  | Some (JNum _), Some rates => "v" ++ match member (js "llm_judge_score") rates with Some (JNum _) => js "s" | _ => [] end
  | _, _ => []
  end.

Lemma judge_score_is_recorded_witness :
  exists w', applyBaselineUpdate (fun _ => Some oldBaseline) lettered (fun _ o => o) (fun _ w => (Ok w, w)) (fun _ t _ => (Ok tt, t)) "b.json"
      (Some (num_of_Z 4)) (num_of_Z 1) p_anthropic "m" "2026-05-28T09:14:00.000Z" [] = (Ok tt, w') /\ w' = "vs" ++ nl /\
    exists o', w' = lettered (JObj o') ++ nl /\ mapGet (js "version") o' = Some (JNum (num_of_Z 1)).
Proof.
  eexists. split; [vm_compute; reflexivity|]. split; [reflexivity|].
  destruct (judge_score_is_recorded (fun _ => Some oldBaseline) lettered (fun _ o => o) (fun _ w => (Ok w, w)) (fun _ t _ => (Ok tt, t)) "b.json"
              (Some (num_of_Z 4)) (num_of_Z 1) p_anthropic "m" "2026-05-28T09:14:00.000Z" [] ("vs" ++ nl))
    as (raw & w1 & o & current & o' & current' & (Hread & Ho & _) & (Hwrite & _) & Hkeep & _); [done|vm_compute; reflexivity|].
  exists o'. injection Hwrite as Hw. split; [by rewrite Hw|]. rewrite Hkeep by done. injection Ho as <-. reflexivity.
Defined.

(** An id that no provider has writes nothing. *)
Lemma unknown_provider_is_refused parseJSON stringify shaped {W} (readFile : str -> eff W thrown str) writeFile path id overall w data w1 :
  readJson readFile parseJSON path (ParityFileSchema shaped) w = (Ok data, w1) -> id ∉ map (fun p => p.1.1) data.2 ->
  applyParityUpdate parseJSON stringify shaped readFile writeFile path id overall w =
    (Throw (errorOf ("parity.json: provider id '" ++ id ++ "' not found")), w1).
Proof.
  intros Hread Hid. unfold applyParityUpdate, mbind, eff_bind. rewrite Hread.
  assert (existsb (fun p : str * jsmap json * jsmap json => bool_decide (p.1.1 = id)) data.2 = false) as ->; [|done].
  apply not_true_iff_false. intros (p & Hp & E)%existsb_exists. to_prop. apply Hid. apply list_elem_of_fmap. exists p.
  split; [done|]. by apply list_elem_of_In.
Qed.
