(* ===== verification/EvalScripts.v ===== *)
(** * The scripts around the evaluation (eval/scripts/promptfoo-to-severity-input.ts,
    eval/scripts/eval-matrix.ts, eval/scripts/baseline-measure.ts)

    The grouping of a flat list of test rows into the runs of fixtures, the table of providers with
    the block of the document it replaces, and the measurement of a baseline and its recording. The
    results: the gate reads what the shim prints, and a recording keeps what it does not measure. *)

From S2P Require Import Prelude JsNumber NumberText JsMap JsonTree Codec Errors Schema Vcs Config Review SeverityGate.

(** ** From test rows to runs *)

Definition fixturePath : str := "severity-calibration/".

(** [/severity-calibration\/([^/]+)\//]: the first match's segment. *)
Fixpoint fixtureSegment (s : str) : option str :=
  let here :=
    if startsWith s fixturePath then
      let rest := drop (length fixturePath) s in
      let seg := takeWhile (fun c => negb (eqc c "/")) rest in
      if bool_decide (seg <> []) && (length seg <? length rest)%nat then Some seg else None
    else None in
  match here with
  | Some seg => Some seg
  | None => match s with [] => None | _ :: s' => fixtureSegment s' end
  end.

Definition fixtureIdFromDiff (diff : option str) : option str := d ← truthyStr diff; fixtureSegment d.

Record PromptfooRow := { pf_diff : option str; pf_response : option json; pf_output : option json }.

(** The rows' schemas carry unknown members along; the library prints an object's members in an order
    of its own, [shaped]. *)
Section schemas.
Context (shaped : list string -> jsmap json -> jsmap json).

Definition PromptfooCommentSchema (v : json) : option json :=
  o ← asFields v;
  _ ← at_ "severity" (requiredR asSeverity) o;
  Some (JObj (shaped ["severity"%string] o)).

(** An output with its comments, and the value it is carried along as. *)
Definition PromptfooResponseShape (v : json) : option (option (list json) * json) :=
  o ← asFields v;
  comments ← at_ "comments" (optionalR (asArray PromptfooCommentSchema)) o;
  Some (comments, JObj (shaped ["comments"%string] (match comments with Some cs => mapSet (js "comments") (JArr cs) o | None => o end))).

(** [z.union([PromptfooResponseShape, z.string(), z.unknown()])] *)
Definition outputSchema (v : json) : json := match PromptfooResponseShape v with Some r => r.2 | None => v end.

Definition varsSchema (v : json) : option (option str) := o ← asFields v; at_ "diff" (optionalR asString) o.
Definition responseSchema (v : json) : option (option json) := o ← asFields v; Some (outputSchema <$> mapGet (js "output") o).
Definition PromptfooResultRowSchema (v : json) : option PromptfooRow :=
  o ← asFields v;
  vars ← at_ "vars" (optionalR varsSchema) o;
  response ← at_ "response" (optionalR responseSchema) o;
  Some {| pf_diff := d ← vars; d; pf_response := r ← response; r; pf_output := outputSchema <$> mapGet (js "output") o |}.

Definition rowsSchema (v : json) : option (list PromptfooRow) :=
  o ← asFields v; at_ "results" (requiredR (asArray PromptfooResultRowSchema)) o.
(** The rows of either form of the file. *)
Definition PromptfooResultsSchema (v : json) : option (list PromptfooRow) :=
  o ← asFields v;
  results ← at_ "results" (optionalR rowsSchema) o;
  flat ← at_ "flatResults" (optionalR (asArray PromptfooResultRowSchema)) o;
  Some (match results with Some rows => rows | None => default [] flat end).
End schemas.

(** [a ?? b] *)
Definition nullish (a b : option json) : option json := match a with Some JNull | None => b | _ => a end.

Section rows.
Context (shaped : list string -> jsmap json -> jsmap json) (parseJSON : str -> option json).

Definition coerceOutput (raw : option json) : list json :=
  match (match raw with Some (JStr s) => parseJSON s | _ => raw end) with
  | Some v => match PromptfooResponseShape shaped v with Some (Some comments, _) => comments | _ => [] end
  | None => []
  end.

Abbreviation groups := (jsmap (list (list json))).

Definition groupRow (byFixture : groups) (row : PromptfooRow) : groups :=
  match fixtureIdFromDiff (pf_diff row) with
  | None => byFixture
  | Some id =>
      let comments := coerceOutput (nullish (pf_response row) (pf_output row)) in
      mapSet id (default [] (mapGet id byFixture) ++ [comments]) byFixture
  end.

Definition buildScoringInput (raw : json) : option groups :=
  rows ← PromptfooResultsSchema shaped raw;
  Some (foldl groupRow [] rows).

(** The file the gate reads. *)
Definition scoringJson (gs : groups) : json :=
  obj [("results"%string, Some (JArr (map (fun g =>
         obj [("fixtureId", Some (JStr g.1)); ("runs", Some (JArr (map (fun cs => obj [("comments", Some (JArr cs))]) g.2)))]%string) gs)))].

Record ShimArgs := { sa_in : str; sa_out : str }.

Fixpoint parseShimFrom (fuel : nat) (argv : list str) (a : ShimArgs) : ShimArgs :=
  match fuel, argv with
  | S fuel, x :: rest =>
      let next := default [] (head rest) in
      if bool_decide (x = js "--in") then parseShimFrom fuel (tail rest) {| sa_in := next; sa_out := sa_out a |}
      else if bool_decide (x = js "--out") then parseShimFrom fuel (tail rest) {| sa_in := sa_in a; sa_out := next |}
      else parseShimFrom fuel rest a
  | _, _ => a
  end.

Definition parseShimArgs (argv : list str) : result thrown ShimArgs :=
  let a := parseShimFrom (length argv) argv {| sa_in := []; sa_out := [] |} in
  if bool_decide (sa_in a = []) || bool_decide (sa_out a = [])
  then error "Usage: promptfoo-to-severity-input --in <promptfoo.json> --out <input.json>"
  else Ok a.

Context {W : Type} (stringify : json -> str) (readFile : str -> eff W thrown str) (writeFile : str -> str -> eff W thrown unit)
  (stdout : str -> eff W thrown unit).

Definition shimMain (argv : list str) : eff W thrown unit :=
  args ← lift (parseShimArgs argv);
  out ← readJson readFile parseJSON (sa_in args) buildScoringInput;
  writeFile (sa_out args) (stringify (scoringJson out) ++ nl);;
  let totalRuns := foldl (fun acc g => acc + length g.2) 0 out in
  stdout ("wrote " ++ showN (length out) ++ " fixture groups (" ++ showN totalRuns ++ " runs total) to " ++ sa_out args ++ nl).
End rows.

(** The fuel of [parseShimArgs], the number of arguments, is enough. *)
Lemma parseShimFrom_enough : forall n m argv a, length argv <= n -> length argv <= m -> parseShimFrom n argv a = parseShimFrom m argv a.
Proof. enough_fuel. Qed.

(** ** The table of providers *)

Definition FEATURES : list string := ["yes"; "no"; "json-schema"; "tool-fallback"; "endpoint-dependent"].

Record Provider := {
  pv_id : str;
  pv_label : str;
  pv_defaultModel : str;
  prompt_caching : str;
  structured_output : str;
  tool_calling : str;
  known_bug_precision : option number;
  no_issue_false_positive_rate : option number;
  noise_rate_delta_vs_baseline : option number;
  pv_llmJudgeScore : option number;
  median_pr_usd : option number;
  p95_latency_seconds : option number;
  data_retention : str;
}.

Definition asFeature : json -> option str := asEnum (texts FEATURES).
Definition ProviderSchema (v : json) : option Provider :=
  o ← asFields v;
  id ← at_ "id" (requiredR asName) o;
  label ← at_ "label" (requiredR asName) o;
  model ← at_ "default_model" (requiredR asName) o;
  feats ← at_ "features" (requiredR asFields) o;
  caching ← at_ "prompt_caching" (requiredR asFeature) feats;
  structured ← at_ "structured_output" (requiredR asFeature) feats;
  tools ← at_ "tool_calling" (requiredR asFeature) feats;
  ev ← at_ "eval" (requiredR asFields) o;
  precision ← at_ "known_bug_precision" (requiredR nullableNumber) ev;
  fpRate ← at_ "no_issue_false_positive_rate" (requiredR nullableNumber) ev;
  noise ← at_ "noise_rate_delta_vs_baseline" (requiredR nullableNumber) ev;
  judge ← at_ "llm_judge_score" (optionalR nullableNumber) ev;
  cost ← at_ "cost" (requiredR asFields) o;
  median ← at_ "median_pr_usd" (requiredR nullableNumber) cost;
  p95 ← at_ "p95_latency_seconds" (requiredR nullableNumber) cost;
  retention ← at_ "data_retention" (requiredR asName) o;
  Some {| pv_id := id; pv_label := label; pv_defaultModel := model; prompt_caching := caching; structured_output := structured;
          tool_calling := tools; known_bug_precision := precision; no_issue_false_positive_rate := fpRate;
          noise_rate_delta_vs_baseline := noise; pv_llmJudgeScore := j ← judge; j; median_pr_usd := median;
          p95_latency_seconds := p95; data_retention := retention |}.

Record Parity := { measured_at : option str; anthropic_baseline_model : str; pa_providers : list Provider; pa_footnote : str }.

Definition nullableString (v : json) : option (option str) := match v with JNull => Some None | _ => Some <$> asString v end.
Definition ParitySchema (v : json) : option Parity :=
  o ← asFields v;
  _ ← at_ "version" (requiredR (checked (fun x => nle x lit_1_0 && nge x lit_1_0) asNumber)) o;
  at' ← at_ "measured_at" (requiredR nullableString) o;
  model ← at_ "anthropic_baseline_model" (requiredR asName) o;
  ps ← at_ "providers" (requiredR (asArray ProviderSchema)) o;
  foot ← at_ "footnote" (requiredR asName) o;
  Some {| measured_at := at'; anthropic_baseline_model := model; pa_providers := ps; pa_footnote := foot |}.

Definition BEGIN_MARKER : str := "<!-- BEGIN matrix -->".
Definition END_MARKER : str := "<!-- END matrix -->".

(** The block between the markers, which are kept. *)
Definition replaceMatrixBlock (DOC_PATH doc matrix : str) : result thrown str :=
  match indexOf doc BEGIN_MARKER, indexOf doc END_MARKER with
  | Some begin, Some end_ =>
      if (end_ <? begin)%nat
      then error ("Markers " ++ BEGIN_MARKER ++ " / " ++ END_MARKER ++ " not found (or out of order) in " ++ DOC_PATH ++ ".")
      else Ok (take (begin + length BEGIN_MARKER) doc ++ nl ++ matrix ++ nl ++ drop end_ doc)
  | _, _ => error ("Markers " ++ BEGIN_MARKER ++ " / " ++ END_MARKER ++ " not found (or out of order) in " ++ DOC_PATH ++ ".")
  end.

Section matrix.
(** The em dash and the capital delta. *)
Context (showNumber : number -> str) (emDash delta : str).

Definition fmt (value : option number) (suffix : str) : str :=
  match value with None => emDash | Some x => showNumber x ++ suffix end.

Definition fmtDelta (value : option number) : str :=
  match value with
  | None => emDash
  | Some x =>
      if nle x zero && nge x zero then js "baseline"
      else (if ngt x zero then js "+" else []) ++ showNumber x
  end.

Definition providerRow (p : Provider) : str :=
  "| " ++ join " | "
    [pv_label p; "`" ++ pv_defaultModel p ++ "`"; prompt_caching p; structured_output p; tool_calling p;
     fmt (known_bug_precision p) []; fmt (no_issue_false_positive_rate p) []; fmtDelta (noise_rate_delta_vs_baseline p);
     fmt (median_pr_usd p) []; fmt (p95_latency_seconds p) []; data_retention p] ++ " |".

Definition renderMatrix (parity : Parity) : str :=
  join nl
    (["_Numbers measured: **" ++ default (js "not yet measured") (measured_at parity) ++ "**. Baseline: `"
        ++ anthropic_baseline_model parity
        ++ "`. See [packages/eval/parity.json](../../packages/eval/parity.json) for source data._";
      [];
      "| Provider | Default model | Prompt caching | Structured output | Tool calling | Precision | FP rate | Noise " ++ delta
        ++ " vs baseline | Median PR cost (USD) | p95 latency (s) | Data retention |";
      js "|---|---|---|---|---|---|---|---|---|---|---|"]
     ++ map providerRow (pa_providers parity) ++ [[]; pa_footnote parity]).

Context {W : Type} (readFile : str -> eff W thrown str) (writeFile : str -> str -> eff W thrown unit)
  (parseJSON : str -> option json) (stdout : str -> eff W thrown unit) (PARITY_PATH DOC_PATH : str).

Definition matrixMain (args : list str) : eff W thrown unit :=
  parity ← readJson readFile parseJSON PARITY_PATH ParitySchema;
  let matrix := renderMatrix parity in
  if bool_decide (js "--write" ∈ args) then
    doc ← readFile DOC_PATH;
    updated ← lift (replaceMatrixBlock DOC_PATH doc matrix);
    writeFile DOC_PATH updated;;
    stdout ("Wrote " ++ DOC_PATH ++ nl)
  else stdout (matrix ++ nl).
End matrix.

(** ** The measurement of a baseline *)

Record BaselineArgs := { ba_resultsPath : str; ba_modelId : str; ba_gitSha : str; ba_notes : str; ba_apply : bool }.

Fixpoint parseBaselineFrom (fuel : nat) (argv : list str) (a : BaselineArgs) : BaselineArgs :=
  match fuel, argv with
  | S fuel, x :: rest =>
      let next := head rest in
      let go := parseBaselineFrom fuel in
      if bool_decide (x = js "--results")
      then go (tail rest) {| ba_resultsPath := default [] next; ba_modelId := ba_modelId a; ba_gitSha := ba_gitSha a; ba_notes := ba_notes a; ba_apply := ba_apply a |}
      else if bool_decide (x = js "--model-id")
      then go (tail rest) {| ba_resultsPath := ba_resultsPath a; ba_modelId := default (ba_modelId a) next; ba_gitSha := ba_gitSha a; ba_notes := ba_notes a; ba_apply := ba_apply a |}
      else if bool_decide (x = js "--git-sha")
      then go (tail rest) {| ba_resultsPath := ba_resultsPath a; ba_modelId := ba_modelId a; ba_gitSha := default [] next; ba_notes := ba_notes a; ba_apply := ba_apply a |}
      else if bool_decide (x = js "--notes")
      then go (tail rest) {| ba_resultsPath := ba_resultsPath a; ba_modelId := ba_modelId a; ba_gitSha := ba_gitSha a; ba_notes := default [] next; ba_apply := ba_apply a |}
      else if bool_decide (x = js "--apply")
      then go rest {| ba_resultsPath := ba_resultsPath a; ba_modelId := ba_modelId a; ba_gitSha := ba_gitSha a; ba_notes := ba_notes a; ba_apply := true |}
      else go rest a
  | _, _ => a
  end.

Definition parseBaselineArgs (argv : list str) : result thrown BaselineArgs :=
  let a := parseBaselineFrom (length argv) argv
             {| ba_resultsPath := []; ba_modelId := "claude-sonnet-4-6"; ba_gitSha := []; ba_notes := []; ba_apply := false |} in
  if bool_decide (ba_resultsPath a = [])
  then error "Usage: baseline-measure --results <input.json> [--model-id <id>] [--git-sha <sha>] [--notes <text>] [--apply]"
  else Ok a.

(** The fuel of [parseBaselineArgs], the number of arguments, is enough. *)
Lemma parseBaselineFrom_enough : forall n m argv a, length argv <= n -> length argv <= m ->
  parseBaselineFrom n argv a = parseBaselineFrom m argv a.
Proof. enough_fuel. Qed.

Record Measurement := { ms_score : number; ms_fixturesPassed : nat; ms_fixturesEvaluated : nat; ms_report : str }.

Section measure.
Context (showNumber : number -> str) (emDash : str) {W : Type} (readFile : str -> eff W thrown str)
  (parseJSON : str -> option json) (joinPath : list str -> str) (FIXTURES_DIR : str).

(** The scores of [runScoring], against the fixtures of the repository. *)
Definition measureBaseline (args : BaselineArgs) : eff W thrown Measurement :=
  manifest ← readJson readFile parseJSON (joinPath [FIXTURES_DIR; js "manifest.json"]) ManifestSchema;
  results ← readJson readFile parseJSON (ba_resultsPath args) ResultsSchema;
  expectedById ← loadAll readFile parseJSON joinPath FIXTURES_DIR (mf_fixtures manifest) [];
  let agg := aggregateScore showNumber (map (scoreEntry showNumber expectedById results (stability_threshold manifest)) (mf_fixtures manifest)) in
  mret {| ms_score := ag_score agg; ms_fixturesPassed := fixturesPassed agg; ms_fixturesEvaluated := fixturesEvaluated agg;
          ms_report := join nl
            ["severity_consistency_score: " ++ percent showNumber (ag_score agg) ++ "%  (" ++ showN (fixturesPassed agg) ++ "/"
               ++ showN (fixturesEvaluated agg) ++ ")";
             "model: " ++ ba_modelId args;
             "git_sha: " ++ match ba_gitSha args with [] => js "<unspecified>" | s => s end;
             "apply: " ++ (if ba_apply args then js "YES (baseline.json will be rewritten)" else js "no (dry-run)")] |}.
End measure.

(** ** Recording it *)

Section record.
Context (showNumber : number -> str) {W : Type} (readFile : str -> eff W thrown str) (writeFile : str -> str -> eff W thrown unit)
  (parseJSON : str -> option json) (stringify : json -> str) (shaped : list string -> jsmap json -> jsmap json)
  (joinPath : list str -> str) (FIXTURES_DIR BASELINE_PATH : str) (nowIso : eff W thrown str) (stdout : str -> eff W thrown unit)
  (emDash : str).

Record BaselineFile := { bf_members : jsmap json; bf_current : jsmap json; bf_history : list json }.

(** A file without a history gets an empty one. *)
Definition BaselineSchema (v : json) : option BaselineFile :=
  o ← asFields v;
  current ← at_ "current_pass_rates" (requiredR asFields) o;
  history ← at_ "history" (optionalR (asArray (fun v => Some v))) o;
  Some {| bf_members := shaped ["current_pass_rates"; "history"]%string (mapSet (js "history") (JArr (default [] history)) o);
          bf_current := shaped [] current; bf_history := default [] history |}.

Definition orElseNull (s : str) : json := match s with [] => JNull | _ => JStr s end.

Definition recordedScore (m : Measurement) : json := JNum (roundFixed showNumber 4 (ms_score m)).

Definition measurementMetadata (args : BaselineArgs) (recordedAt : str) : json :=
  obj [("recorded_at", Some (JStr recordedAt)); ("model_id", Some (JStr (ba_modelId args))); ("git_sha", Some (orElseNull (ba_gitSha args)));
       ("notes", Some (JStr (match ba_notes args with [] => js "Recorded via baseline-measure --apply" | s => s end)))]%string.

Definition snapshot (args : BaselineArgs) (recordedAt : str) (m : Measurement) : json :=
  let count n := JNum (num_of_Z (Z.of_nat n)) in
  obj [("recorded_at", Some (JStr recordedAt)); ("model_id", Some (JStr (ba_modelId args))); ("git_sha", Some (orElseNull (ba_gitSha args)));
       ("severity_consistency_score", Some (recordedScore m)); ("fixtures_passed", Some (count (ms_fixturesPassed m)));
       ("fixtures_evaluated", Some (count (ms_fixturesEvaluated m))); ("notes", Some (orElseNull (ba_notes args)))]%string.

Definition withMeasurement (args : BaselineArgs) (recordedAt : str) (m : Measurement) (b : BaselineFile) : jsmap json :=
  let current := mapSet (js "measurement_metadata") (measurementMetadata args recordedAt)
                   (mapSet (js "pending_measurement") (JBool false) (mapSet (js "severity_consistency_score") (recordedScore m) (bf_current b))) in
  mapSet (js "history") (JArr (bf_history b ++ [snapshot args recordedAt m])) (mapSet (js "current_pass_rates") (JObj current) (bf_members b)).

Definition baselineMain (argv : list str) : eff W thrown unit :=
  args ← lift (parseBaselineArgs argv);
  measurement ← measureBaseline showNumber readFile parseJSON joinPath FIXTURES_DIR args;
  stdout (ms_report measurement ++ nl);;
  if negb (ba_apply args) then stdout ("Dry run " ++ emDash ++ " re-invoke with --apply to update baseline.json." ++ nl)
  else
    baseline ← readJson readFile parseJSON BASELINE_PATH BaselineSchema;
    now ← nowIso;
    let recordedAt := take 10 now in
    writeFile BASELINE_PATH (stringify (JObj (withMeasurement args recordedAt measurement baseline)) ++ nl);;
    stdout ("baseline.json updated (" ++ recordedAt ++ ", " ++ ba_modelId args ++ ")." ++ nl).

End record.

(** The history only grows, and what is not measured is kept. *)
Lemma measurement_keeps showNumber shaped v b args recordedAt m :
  (forall ks o k, mapGet k (shaped ks o) = mapGet k o) -> BaselineSchema shaped v = Some b ->
  exists o current, v = JObj o /\ mapGet (js "current_pass_rates") o = Some (JObj current) /\
    let o' := withMeasurement showNumber args recordedAt m b in
    mapGet (js "history") o' = Some (JArr (match mapGet (js "history") o with Some (JArr l) => l | _ => [] end ++ [snapshot showNumber args recordedAt m])) /\
    (forall k, k <> js "history" -> k <> js "current_pass_rates" -> mapGet k o' = mapGet k o) /\
    exists current', mapGet (js "current_pass_rates") o' = Some (JObj current') /\
      mapGet (js "severity_consistency_score") current' = Some (recordedScore showNumber m) /\
      forall k, k ∉ map js ["measurement_metadata"; "pending_measurement"; "severity_consistency_score"] -> mapGet k current' = mapGet k current.
Proof.
  intros Hshaped Hb. unfold BaselineSchema in Hb. destruct v as [| | | | |o]; try done. cbn [asFields mbind option_bind] in Hb.
  destruct (at_ "current_pass_rates" (requiredR asFields) o) as [current|] eqn:Ec; [|done]. cbn [mbind option_bind] in Hb.
  destruct (at_ "history" _ o) as [history|] eqn:Eh; [|done]. cbn [mbind option_bind] in Hb. injection Hb as <-.
  assert (mapGet (js "current_pass_rates") o = Some (JObj current)) as Hcur.
  { unfold at_, requiredR in Ec. destruct (mapGet (js "current_pass_rates") o) as [[]|]; try done. cbn in Ec. by injection Ec as ->. }
  assert (default [] history = match mapGet (js "history") o with Some (JArr l) => l | _ => [] end) as Hh.
  { unfold at_, optionalR in Eh. destruct (mapGet (js "history") o) as [[]|]; try done; cbn in Eh; [|by injection Eh as <-].
    assert (forall l : list json, mapM (fun v => Some v) l = Some l) as Hall by (induction l0; cbn; [done|by rewrite IHl0]).
    rewrite Hall in Eh. by injection Eh as <-. }
  exists o, current. split; [done|]. split; [done|]. cbv zeta. unfold withMeasurement. cbn [bf_members bf_current bf_history]. split_and!.
  - by rewrite mapGet_mapSet, bool_decide_eq_true_2, Hh.
  - intros k H1 H2. by rewrite !mapGet_mapSet, !bool_decide_eq_false_2, Hshaped, mapGet_mapSet, bool_decide_eq_false_2.
  - eexists. split; [by rewrite mapGet_mapSet, bool_decide_eq_false_2, mapGet_mapSet, bool_decide_eq_true_2|]. split.
    + by rewrite mapGet_mapSet, bool_decide_eq_false_2, mapGet_mapSet, bool_decide_eq_false_2, mapGet_mapSet, bool_decide_eq_true_2.
    + intros k Hk. cbn in Hk. rewrite !mapGet_mapSet, !bool_decide_eq_false_2, Hshaped; set_solver.
Qed.

(** ** The grouping *)

Section grouping.
Context (shaped : list string -> jsmap json -> jsmap json) (parseJSON : str -> option json).

Definition rowId (row : PromptfooRow) : option str := fixtureIdFromDiff (pf_diff row).
Definition rowRun (row : PromptfooRow) : list json := coerceOutput shaped parseJSON (nullish (pf_response row) (pf_output row)).
(** The runs of a fixture, by the definition of the format. *)
Definition runsOf (id : str) (rows : list PromptfooRow) : list (list json) :=
  map rowRun (List.filter (fun r => bool_decide (rowId r = Some id)) rows).

Lemma runsOf_app id l l' : runsOf id (l ++ l') = runsOf id l ++ runsOf id l'.
Proof. unfold runsOf. by rewrite List.filter_app, map_app. Qed.

Lemma omap_app_one {A B} (f : A -> option B) l x :
  omap f (l ++ [x]) = omap f l ++ match f x with Some y => [y] | None => [] end.
Proof. induction l as [|y l IH]; cbn; [by destruct (f x)|]. rewrite IH. by destruct (f y). Qed.

Lemma uniqGo_app_one `{EqDecision A} seen (l : list A) x :
  uniqGo seen (l ++ [x]) = uniqGo seen l ++ if bool_decide (x ∈ seen \/ x ∈ l) then [] else [x].
Proof.
  revert seen. induction l as [|y l IH]; intros seen; cbn.
  - rewrite (bool_decide_ext (x ∈ seen) (x ∈ seen \/ x ∈ []) ltac:(set_solver)). by case_bool_decide.
  - destruct (decide (y ∈ seen)) as [Hy|Hy].
    + rewrite bool_decide_eq_true_2 by done. rewrite IH. f_equal.
      rewrite (bool_decide_ext (x ∈ seen \/ x ∈ l) (x ∈ seen \/ x ∈ y :: l)); [done|set_solver].
    + rewrite bool_decide_eq_false_2 by done. rewrite IH. cbn. f_equal. f_equal.
      rewrite (bool_decide_ext (x ∈ y :: seen \/ x ∈ l) (x ∈ seen \/ x ∈ y :: l)); [done|set_solver].
Qed.

Lemma mapGet_of_keys {V} (f : str -> V) ids k :
  mapGet k (map (fun i => (i, f i)) ids) = if bool_decide (k ∈ ids) then Some (f k) else None.
Proof.
  induction ids as [|i ids IH]; [done|]. cbn [map]. rewrite mapGet_cons, IH. repeat case_bool_decide; set_solver.
Qed.

Lemma runsOf_none id rows : id ∉ omap rowId rows -> runsOf id rows = [].
Proof.
  intros H. unfold runsOf. replace (List.filter _ rows) with (@nil PromptfooRow); [done|]. symmetry.
  induction rows as [|r rows IH]; [done|]. cbn in H |- *.
  destruct (rowId r) as [i|] eqn:E; cbn in H; case_bool_decide as Hb; simplify_eq; [set_solver| |]; apply IH; set_solver.
Qed.

Lemma group_rows rows :
  foldl (groupRow shaped parseJSON) [] rows = map (fun id => (id, runsOf id rows)) (uniq (omap rowId rows)).
Proof.
  induction rows as [|r rows IH] using rev_ind; [done|]. rewrite foldl_app, IH. cbn [foldl]. unfold groupRow at 1.
  rewrite omap_app_one. fold (rowId r). destruct (rowId r) as [id|] eqn:Eid.
  2: { rewrite app_nil_r. apply map_ext_in. intros i _. f_equal. rewrite runsOf_app. unfold runsOf at 3. cbn. rewrite Eid.
       rewrite bool_decide_eq_false_2 by done. cbn. by rewrite app_nil_r. }
  assert (forall i, runsOf i (rows ++ [r]) = runsOf i rows ++ if bool_decide (i = id) then [rowRun r] else []) as Happ.
  { intros i. rewrite runsOf_app. f_equal. unfold runsOf. cbn. rewrite Eid.
    rewrite (bool_decide_ext (Some id = Some i) (i = id)) by naive_solver. by case_bool_decide. }
  fold (rowRun r). unfold uniq. rewrite uniqGo_app_one. fold (uniq (omap rowId rows)).
  rewrite mapGet_of_keys. rewrite (bool_decide_ext (id ∈ uniq (omap rowId rows)) (id ∈ omap rowId rows)) by apply elem_of_uniq.
  rewrite (bool_decide_ext (id ∈ [] \/ id ∈ omap rowId rows) (id ∈ omap rowId rows)) by set_solver.
  case_bool_decide as Hin.
  - rewrite app_nil_r. unfold mapSet. rewrite mapGet_of_keys, bool_decide_eq_true_2 by by apply elem_of_uniq.
    cbn [default]. rewrite map_map. apply map_ext_in. intros i _. cbn. rewrite Happ. repeat case_bool_decide; simplify_eq; [done|].
    by rewrite app_nil_r.
  - rewrite mapSet_new. 2: { intros Hk. unfold keys in Hk. rewrite map_map, map_id, elem_of_uniq in Hk. done. }
    rewrite map_app. cbn. rewrite Happ, bool_decide_eq_true_2, runsOf_none by done. f_equal.
    apply map_ext_in. intros i Hi. rewrite Happ, bool_decide_eq_false_2, app_nil_r; [done|].
    intros Heq. apply Hin. rewrite <- Heq. by apply elem_of_uniq, list_elem_of_In.
Qed.
(** A comment the shim lets through is one the gate reads. *)
Definition severityOf (c : json) : Severity := default info (commentSeverity c).

Context (Hshaped : forall ks o k, mapGet k (shaped ks o) = mapGet k o).

Lemma comment_severity v c : PromptfooCommentSchema shaped v = Some c -> commentSeverity c = Some (severityOf c).
Proof using Hshaped.
  unfold PromptfooCommentSchema. destruct v as [| | | | |o]; try done. cbn [asFields mbind option_bind].
  destruct (at_ "severity" (requiredR asSeverity) o) as [sev|] eqn:E; [|done]. cbn [mbind option_bind]. intros [= <-].
  assert (commentSeverity (JObj (shaped ["severity"%string] o)) = Some sev) as Hs.
  { unfold commentSeverity. cbn [asFields mbind option_bind]. unfold at_ in *. by rewrite Hshaped. }
  unfold severityOf. by rewrite Hs.
Qed.

Lemma mapM_shaped l cs : mapM (PromptfooCommentSchema shaped) l = Some cs -> Forall (fun c => commentSeverity c = Some (severityOf c)) cs.
Proof using Hshaped. intros H%mapM_Some. induction H as [|v c l cs H _ IH]; constructor; [by eapply comment_severity|done]. Qed.

Lemma coerceOutput_read raw : Forall (fun c => commentSeverity c = Some (severityOf c)) (coerceOutput shaped parseJSON raw).
Proof using Hshaped.
  unfold coerceOutput. destruct (match raw with Some (JStr s) => parseJSON s | _ => raw end) as [v|]; [|constructor].
  destruct (PromptfooResponseShape shaped v) as [[[cs|] w]|] eqn:E; try constructor.
  unfold PromptfooResponseShape in E. destruct v as [| | | | |o]; try done. cbn [asFields mbind option_bind] in E.
  destruct (at_ "comments" _ o) as [[cs'|]|] eqn:Ec; try done. cbn [mbind option_bind] in E. injection E as -> _.
  unfold at_, optionalR in Ec. destruct (mapGet (js "comments") o) as [x|]; [|done]. cbn in Ec.
  destruct x; try done. cbn in Ec. destruct (mapM _ l) as [ys|] eqn:Em; [|done]. cbn in Ec. injection Ec as ->. by eapply mapM_shaped.
Qed.

Lemma mapM_all {A B} (f : A -> option B) (g : A -> B) l : Forall (fun x => f x = Some (g x)) l -> mapM f l = Some (map g l).
Proof using. intros H. apply mapM_Some. induction H; cbn; by constructor. Qed.

Lemma run_read cs : Forall (fun c => commentSeverity c = Some (severityOf c)) cs ->
  runSchema (obj [("comments"%string, Some (JArr cs))]) = Some (map severityOf cs).
Proof using. intros H. unfold runSchema. cbn. unfold at_, requiredR. cbn. by apply mapM_all. Qed.

Lemma group_read g : Forall (Forall (fun c => commentSeverity c = Some (severityOf c))) g.2 ->
  resultSchema (obj [("fixtureId", Some (JStr g.1)); ("runs", Some (JArr (map (fun cs => obj [("comments", Some (JArr cs))]) g.2)))]%string)
  = Some {| rs_fixtureId := g.1; rs_runs := map (map severityOf) g.2 |}.
Proof using.
  intros H.
  transitivity (runs ← mapM runSchema (map (fun cs => obj [("comments"%string, Some (JArr cs))]) g.2);
                Some {| rs_fixtureId := g.1; rs_runs := runs |}); [reflexivity|].
  assert (mapM runSchema (map (fun cs => obj [("comments"%string, Some (JArr cs))]) g.2) = Some (map (map severityOf) g.2)) as ->; [|done].
  apply mapM_Some. induction H as [|cs rest Hcs _ IH]; constructor; [by apply run_read|done].
Qed.
End grouping.

(** ** Property *)

(** The shim hands the gate what the rows say. The file it prints is one the gate's schema accepts; its
    fixtures are those the rows name, each once, in the order in which they are first named; and the
    runs of a fixture are the severities of its rows' comments, row by row in their order - no run is
    lost and none is mixed with another fixture's. *)
Theorem shim_feeds_the_gate shaped parseJSON raw rows :
  (forall ks o k, mapGet k (shaped ks o) = mapGet k o) -> PromptfooResultsSchema shaped raw = Some rows ->
  exists gs, buildScoringInput shaped parseJSON raw = Some gs /\
    ResultsSchema (scoringJson gs) = Some (map (fun id =>
      {| rs_fixtureId := id;
         rs_runs := map (fun r => map severityOf (rowRun shaped parseJSON r)) (List.filter (fun r => bool_decide (rowId r = Some id)) rows) |})
      (uniq (omap rowId rows))).
Proof.
  intros Hshaped H. unfold buildScoringInput. rewrite H. eexists. split; [reflexivity|]. rewrite group_rows.
  match goal with |- ResultsSchema (scoringJson ?gs) = _ => transitivity (mapM resultSchema (map (fun g =>
    obj [("fixtureId", Some (JStr g.1)); ("runs", Some (JArr (map (fun cs => obj [("comments", Some (JArr cs))]) g.2)))]%string) gs)) end;
    [reflexivity|].
  apply mapM_Some. rewrite map_map. induction (uniq (omap rowId rows)) as [|id ids IH]; [constructor|]. cbn [map]. constructor; [|exact IH].
  rewrite (group_read (id, runsOf shaped parseJSON id rows)); cbn [fst snd]; [unfold runsOf; by rewrite map_map|].
  unfold runsOf. apply Forall_forall. intros cs (r & -> & _)%list_elem_of_fmap. by apply coerceOutput_read.
Qed.

Definition twoFixtures : json :=
  let row d sev := obj [("vars", Some (obj [("diff", Some (JStr d))]));
                        ("output", Some (obj [("comments", Some (JArr [obj [("id", Some (JStr "c")); ("severity", Some (JStr sev))]]))]))]%string in
  obj [("flatResults"%string, Some (JArr [row "fixtures/severity-calibration/02-b/diff.txt" "major"; row "fixtures/severity-calibration/01-a/diff.txt" "info";
                                          row "other" "critical"; row "fixtures/severity-calibration/02-b/diff.txt" "minor"]))].

Lemma shim_feeds_the_gate_witness :
  exists gs, buildScoringInput (fun _ o => o) (fun _ => None) twoFixtures = Some gs /\
    ResultsSchema (scoringJson gs) =
      Some [{| rs_fixtureId := "02-b"; rs_runs := [[major]; [minor]] |}; {| rs_fixtureId := "01-a"; rs_runs := [[info]] |}].
Proof.
  destruct (PromptfooResultsSchema (fun _ o => o) twoFixtures) as [rows|] eqn:E; [|vm_compute in E; discriminate].
  destruct (shim_feeds_the_gate (fun _ o => o) (fun _ => None) twoFixtures rows (fun _ _ _ => eq_refl) E) as (gs & Hb & Hread).
  exists gs. split; [exact Hb|]. rewrite Hread. vm_compute in E. injection E as <-. by vm_compute.
Defined.
