(* ===== verification/Dates.v ===== *)
(** * Calendar days (the UTC parts of [Date] that the program prints and compares)

    A [Date] is the number of its milliseconds since 1970; days are counted from there. The civil
    date is computed in eras of 400 years, whose days repeat. *)

From S2P Require Import Prelude.

Local Open Scope Z_scope.

Local Ltac Zify.zify_post_hook ::= Z.to_euclidean_division_equations.

Definition MS_PER_DAY : Z := 86400000.
Definition dayOf (ms : Z) : Z := ms / MS_PER_DAY.

(** A day of the year that begins in March: its month and day. *)
Definition marchDate (doy : Z) : Z * Z :=
  let mp := (5 * doy + 2) / 153 in
  (if mp <? 10 then mp + 3 else mp - 9, doy - (153 * mp + 2) / 5 + 1).

(** A day of an era: the year within it, by centuries, leap cycles and years, and the day of that
    year. *)
Definition eraYear (doe : Z) : Z * Z :=
  let century := Z.min 3 (doe / 36524) in
  let inCentury := doe - century * 36524 in
  let cycle := inCentury / 1461 in
  let inCycle := inCentury - cycle * 1461 in
  let year := Z.min 3 (inCycle / 365) in
  (century * 100 + cycle * 4 + year, inCycle - year * 365).

(** The civil date of a day. *)
Definition civil (day : Z) : Z * Z * Z :=
  let z := day + 719468 in
  let '(yoe, doy) := eraYear (z mod 146097) in
  let '(m, d) := marchDate doy in
  (z / 146097 * 400 + yoe + (if m <=? 2 then 1 else 0), m, d).

Definition marchDay (m d : Z) : Z := (153 * ((m + 9) mod 12) + 2) / 5 + d - 1.

(** [Date.UTC(y, m - 1, d)], in days. *)
Definition dayOfCivil (y m d : Z) : Z :=
  let y' := if m <=? 2 then y - 1 else y in
  let yoe := y' mod 400 in
  y' / 400 * 146097 + (365 * yoe + yoe / 4 - yoe / 100) + marchDay m d - 719468.

(** The parts of a [Date]; a month is counted from 0. *)
Definition getUTCFullYear (ms : Z) : Z := (civil (dayOf ms)).1.1.
Definition getUTCMonth (ms : Z) : Z := (civil (dayOf ms)).1.2 - 1.
Definition getUTCDate (ms : Z) : Z := (civil (dayOf ms)).2.
Definition dateUTC (y month d : Z) : Z := dayOfCivil y (month + 1) d * MS_PER_DAY.

(** ** The civil date determines the day *)

Definition marchOk (doy : nat) : bool :=
  let '(m, d) := marchDate (Z.of_nat doy) in
  (marchDay m d =? Z.of_nat doy) && (1 <=? m) && (m <=? 12) && (1 <=? d) && (d <=? 31).

Lemma marchDate_spec doy m d : 0 <= doy < 366 -> marchDate doy = (m, d) ->
  marchDay m d = doy /\ 1 <= m <= 12 /\ 1 <= d <= 31.
Proof.
  intros Hr E. assert (forallb marchOk (seq 0 366) = true) as H by (vm_compute; reflexivity).
  rewrite forallb_forall in H. specialize (H (Z.to_nat doy) ltac:(apply in_seq; lia)).
  unfold marchOk in H. rewrite Z2Nat.id, E in H by lia. to_prop.
  repeat match goal with H : _ && _ = true |- _ => apply andb_true_iff in H as [? ?] end. to_prop. lia.
Qed.

Lemma eraYear_spec doe yoe doy : 0 <= doe < 146097 -> eraYear doe = (yoe, doy) ->
  0 <= yoe < 400 /\ 0 <= doy < 366 /\ 365 * yoe + yoe / 4 - yoe / 100 + doy = doe.
Proof.
  intros Hr E. unfold eraYear in E. cbv zeta in E.
  remember (Z.min 3 (doe / 36524)) as century eqn:Ec.
  assert (0 <= century <= 3 /\ 0 <= doe - century * 36524 < 36525
          /\ (century < 3 -> doe - century * 36524 < 36524)) as (Hc & Hd & Hl) by lia. clear Ec.
  remember (doe - century * 36524) as inCentury eqn:Ei. remember (inCentury / 1461) as cycle eqn:Eq.
  assert (0 <= cycle <= 24 /\ 0 <= inCentury - cycle * 1461 < 1461
          /\ (century < 3 -> cycle = 24 -> inCentury - cycle * 1461 < 1460)) as (Hq & Hi & Hll) by lia. clear Eq.
  remember (inCentury - cycle * 1461) as inCycle eqn:Ej. remember (Z.min 3 (inCycle / 365)) as year eqn:Ey.
  assert (0 <= year <= 3 /\ 0 <= inCycle - year * 365 < 366) as (Hy & Hdd) by lia. clear Ey.
  injection E as <- <-.
  replace ((century * 100 + cycle * 4 + year) / 4) with (century * 25 + cycle) by lia.
  replace ((century * 100 + cycle * 4 + year) / 100) with century by lia. lia.
Qed.

Lemma dayOfCivil_civil day : let '(y, m, d) := civil day in dayOfCivil y m d = day.
Proof.
  unfold civil. pose proof (Z.mod_pos_bound (day + 719468) 146097 ltac:(lia)) as Hb.
  pose proof (Z.div_mod (day + 719468) 146097 ltac:(lia)) as Hdm.
  set (era := (day + 719468) / 146097) in *. set (doe := (day + 719468) mod 146097) in *.
  destruct (eraYear doe) as [yoe doy] eqn:E1. destruct (eraYear_spec _ _ _ Hb E1) as (Hy & Hd & Hs).
  destruct (marchDate doy) as [m d] eqn:E2. destruct (marchDate_spec _ _ _ Hd E2) as (Hm & _).
  unfold dayOfCivil.
  replace (if m <=? 2 then era * 400 + yoe + (if m <=? 2 then 1 else 0) - 1
           else era * 400 + yoe + (if m <=? 2 then 1 else 0)) with (yoe + era * 400) by (case_match; lia).
  rewrite Z.div_add, Z.mod_add, Z.div_small, Z.mod_small by lia. lia.
Qed.

Lemma civil_inj a b : civil a = civil b -> a = b.
Proof.
  intros H. pose proof (dayOfCivil_civil a) as Ha. pose proof (dayOfCivil_civil b) as Hb.
  rewrite H in Ha. destruct (civil b) as [[y m] d]. lia.
Qed.

(** The dates shown are dates, and none before 1970 for a [Date] that is not negative. *)
Lemma civil_bounds day y m d : civil day = (y, m, d) ->
  1 <= m <= 12 /\ 1 <= d <= 31 /\ (0 <= day -> 1970 <= y).
Proof.
  unfold civil. intros E. pose proof (Z.mod_pos_bound (day + 719468) 146097 ltac:(lia)) as Hb.
  pose proof (Z.div_mod (day + 719468) 146097 ltac:(lia)) as Hdm.
  set (era := (day + 719468) / 146097) in *. set (doe := (day + 719468) mod 146097) in *.
  destruct (eraYear doe) as [yoe doy] eqn:E1. destruct (eraYear_spec _ _ _ Hb E1) as (Hy & Hd & Hs).
  destruct (marchDate doy) as [m' d'] eqn:E2. destruct (marchDate_spec _ _ _ Hd E2) as (Hm & Hm1 & Hd1).
  injection E as <- <- <-. split; [done|]. split; [done|]. intros Hday.
  destruct (Z_lt_le_dec era 4); [lia|]. destruct (Z_lt_le_dec 4 era); [case_match; lia|].
  assert (era = 4) by lia. assert (135080 <= doe) by lia.
  destruct (Z_lt_le_dec yoe 369); [lia|]. destruct (Z_lt_le_dec 369 yoe); [case_match; lia|].
  assert (yoe = 369) by lia. subst yoe. assert (306 <= doy) by (revert Hs; cbn; lia).
  unfold marchDate in E2. injection E2 as <- <-.
  assert (10 <= (5 * doy + 2) / 153 <= 11) by (split; [apply Z.div_le_lower_bound|apply Z.lt_succ_r, Z.div_lt_upper_bound]; lia).
  repeat case_match; to_prop; lia.
Qed.
