(* ===== verification/CostLedger.v ===== *)
(** * The cost ledger (db/src/cost-ledger.ts)

    A recorded call appends a row to [cost_ledger] and adds its cost to the installation's total of
    the UTC day, in one transaction; the reader answers with the sums the cost guard decides on. *)

From S2P Require Import Prelude JsNumber Errors Schema Cost Vcs Tenancy NumberText Dates.

Record CostLedgerRow := {
  cl_installationId : Z;
  cl_jobId : str;
  cl_provider : str;
  cl_model : str;
  cl_callPhase : CostLedgerPhase;
  cl_inputTokens : Z;
  cl_outputTokens : Z;
  cl_cacheReadTokens : Z;
  cl_cacheCreationTokens : Z;
  cl_costUsd : number;
  cl_latencyMs : Z;
  cl_status : CostLedgerStatus;
  cl_createdAt : Z;
}.

(** A row of [installation_cost_daily]. *)
Record DailyRow := { dr_costUsd : number; dr_updatedAt : Z }.

Record CostDb := { cd_ledger : list CostLedgerRow; cd_daily : gmap (Z * str) DailyRow }.

(** [String(n).padStart(2, '0')] *)
Definition padStart2 (s : str) : str := repeat "0"%char (2 - length s) ++ s.

Definition isoDate (ms : Z) : str :=
  showZ (getUTCFullYear ms) ++ "-" ++ padStart2 (showZ (getUTCMonth ms + 1)) ++ "-" ++ padStart2 (showZ (getUTCDate ms)).

(** The optional members of a recorded call, which no caller fills. *)
Record PhaseExtras := { cacheReadTokens : option Z; cacheCreationTokens : option Z; latencyMs : option Z }.
Definition noExtras : PhaseExtras := {| cacheReadTokens := None; cacheCreationTokens := None; latencyMs := None |}.

Definition ledgerRowOf (dbNow : Z) (input : RecordPhaseInput) (x : PhaseExtras) : CostLedgerRow :=
  {| cl_installationId := rp_installationId input; cl_jobId := rp_jobId input; cl_provider := rp_provider input;
     cl_model := rp_model input; cl_callPhase := rp_callPhase input; cl_inputTokens := rp_inputTokens input;
     cl_outputTokens := rp_outputTokens input; cl_cacheReadTokens := default 0%Z (cacheReadTokens x);
     cl_cacheCreationTokens := default 0%Z (cacheCreationTokens x); cl_costUsd := rp_costUsd input;
     cl_latencyMs := default 0%Z (latencyMs x); cl_status := rp_status input; cl_createdAt := dbNow |}.

(** The columns: [bigint] of the installation, [integer] of the counts. *)
Definition fitsBits (bits n : Z) : bool := (- 2 ^ (bits - 1) <=? n)%Z && (n <? 2 ^ (bits - 1))%Z.
Definition rowFits (r : CostLedgerRow) : bool :=
  fitsBits 64 (cl_installationId r)
  && forallb (fitsBits 32) [cl_inputTokens r; cl_outputTokens r; cl_cacheReadTokens r; cl_cacheCreationTokens r; cl_latencyMs r].

(** [INSERT ... ON CONFLICT DO UPDATE SET cost_usd = cost_usd + n] *)
Definition addDaily (dbNow now : Z) (cost : number) (row : option DailyRow) : option DailyRow :=
  Some match row with
       | Some d => {| dr_costUsd := nadd (dr_costUsd d) cost; dr_updatedAt := now |}
       | None => {| dr_costUsd := cost; dr_updatedAt := dbNow |}
       end.

(** The recorder on a connection, at a time of the database's clock and of the program's. The
    transaction fails whole when a value does not fit its column. *)
Definition createCostLedgerRecorder (db : Connection) (dbNow now : Z) (input : RecordPhaseInput) (x : PhaseExtras)
    : eff CostDb thrown unit :=
  let row := ledgerRowOf dbNow input x in
  if negb (rowFits row) then throw (Object (Some (js "integer out of range")) NoStatus None [])
  else if allows db (rp_installationId input)
  then modify (fun d =>
         {| cd_ledger := cd_ledger d ++ [row];
            cd_daily := partial_alter (addDaily dbNow now (rp_costUsd input)) (rp_installationId input, isoDate now) (cd_daily d) |})
  else throw (policyError "cost_ledger").

(** [coalesce(sum(cost_usd), 0)] over rows in the table's order. *)
Definition sumCost (costs : list number) : number :=
  match costs with
  | [] => zero
  | c :: rest => foldl nadd c rest
  end.

Definition isRunning (installationId : Z) (jobId : str) (r : CostLedgerRow) : bool :=
  (cl_installationId r =? installationId)%Z && bool_decide (cl_jobId r = jobId).

Definition createCostTotalsReader (db : Connection) (installationId : Z) (jobId date : str) : eff CostDb thrown CostTotals :=
  d ← get;
  mret {| running := sumCost (map cl_costUsd (List.filter (fun r => allows db (cl_installationId r) && isRunning installationId jobId r) (cd_ledger d)));
          daily := if allows db installationId
                   then match cd_daily d !! (installationId, date) with Some r => dr_costUsd r | None => zero end
                   else zero |}.

(** ** Dates as text *)

Lemma padStart2_value n : (0 <= n)%Z -> digitsValue (padStart2 (showZ n)) = n.
Proof.
  intros H. rewrite <- (showZ_value n H) at 2. unfold padStart2.
  induction (2 - length (showZ n)) as [|k IH]; [done|]. cbn [repeat app]. rewrite digitsValue_cons, IH.
  change (Z.of_N (code "0")) with 48%Z. lia.
Qed.

Lemma no_dash n : (0 <= n)%Z -> "-"%char ∉ showZ n.
Proof.
  intros H Hin. destruct (showZ_digits n H) as [Hd _]. rewrite forallb_forall in Hd.
  by apply list_elem_of_In, Hd in Hin.
Qed.

Lemma padStart2_no_dash n : (0 <= n)%Z -> "-"%char ∉ padStart2 (showZ n).
Proof.
  intros H. unfold padStart2. rewrite elem_of_app. intros [Hin|Hin]; [|by eapply no_dash].
  apply list_elem_of_In, repeat_spec in Hin. done.
Qed.

(** Two instants share a date when they share a UTC day. *)
Lemma isoDate_inj a b : (0 <= a)%Z -> (0 <= b)%Z -> isoDate a = isoDate b <-> dayOf a = dayOf b.
Proof.
  intros Ha Hb. unfold isoDate, getUTCFullYear, getUTCMonth, getUTCDate. split; [|by intros ->].
  assert (0 <= dayOf a /\ 0 <= dayOf b)%Z as [Hda Hdb] by (split; apply Z.div_pos; done).
  destruct (civil (dayOf a)) as [[y m] d] eqn:E1. destruct (civil (dayOf b)) as [[y' m'] d'] eqn:E2.
  destruct (civil_bounds _ _ _ _ E1) as (? & ? & ?). destruct (civil_bounds _ _ _ _ E2) as (? & ? & ?). cbn [fst snd].
  intros E. cbn in E. apply app_sep_inj in E as [->%showZ_inj E]; [|apply no_dash; lia..].
  apply app_sep_inj in E as [Em Ed]; [|apply padStart2_no_dash; lia..].
  apply (f_equal digitsValue) in Em, Ed. rewrite !padStart2_value in Em, Ed by lia.
  apply civil_inj. rewrite E1, E2. repeat f_equal; lia.
Qed.

(** ** A run of recordings *)

(** A recorded call: the two clocks, what is recorded, the optional members. *)
Record Recording := { rec_dbNow : Z; rec_now : Z; rec_input : RecordPhaseInput; rec_extras : PhaseExtras }.
Definition recCost (c : Recording) : number := rp_costUsd (rec_input c).

Fixpoint recordAll (db : Connection) (calls : list Recording) : eff CostDb thrown unit :=
  match calls with
  | [] => mret tt
  | c :: rest => createCostLedgerRecorder db (rec_dbNow c) (rec_now c) (rec_input c) (rec_extras c);; recordAll db rest
  end.

(** What is recorded fits the columns. *)
Definition fits (c : Recording) : bool := rowFits (ledgerRowOf (rec_dbNow c) (rec_input c) (rec_extras c)).

Definition sameJob (i : Z) (jobId : str) (c : Recording) : bool :=
  (rp_installationId (rec_input c) =? i)%Z && bool_decide (rp_jobId (rec_input c) = jobId).
Definition sameDay (i t : Z) (c : Recording) : bool :=
  (rp_installationId (rec_input c) =? i)%Z && (dayOf (rec_now c) =? dayOf t)%Z.

(** What a recording does to a daily row. *)
Definition dailyAfter (key : Z * str) (o : option DailyRow) (c : Recording) : option DailyRow :=
  if bool_decide ((rp_installationId (rec_input c), isoDate (rec_now c)) = key)
  then addDaily (rec_dbNow c) (rec_now c) (recCost c) o else o.

Lemma recordAll_spec db calls d :
  Forall (fun c => allows db (rp_installationId (rec_input c)) = true) calls -> Forall (fun c => fits c = true) calls ->
  exists d', recordAll db calls d = (Ok tt, d') /\
    cd_ledger d' = cd_ledger d ++ map (fun c => ledgerRowOf (rec_dbNow c) (rec_input c) (rec_extras c)) calls /\
    forall key, cd_daily d' !! key = foldl (dailyAfter key) (cd_daily d !! key) calls.
Proof.
  intros Hall Hfit. revert d Hfit. induction Hall as [|c calls Hc _ IH]; intros d Hfit.
  - exists d. by rewrite app_nil_r.
  - apply Forall_cons in Hfit as [Hf Hfit]. specialize (fun d => IH d Hfit).
    cbn [recordAll]. unfold mbind, eff_bind, createCostLedgerRecorder at 1.
    change (rowFits _) with (fits c). rewrite Hf, Hc. cbn -[ledgerRowOf].
    edestruct IH as (d' & -> & Hl & Hd). exists d'. split; [done|]. rewrite Hl. cbn. rewrite <- app_assoc. split; [done|].
    intros key. rewrite Hd. cbn [foldl]. f_equal. unfold dailyAfter. cbn.
    case_bool_decide as E; [by rewrite E, lookup_partial_alter_eq|]. by rewrite lookup_partial_alter_ne.
Qed.

Definition costOf (o : option DailyRow) : option number := dr_costUsd <$> o.

Lemma foldl_daily key o calls :
  costOf (foldl (dailyAfter key) o calls)
  = match costOf o, map recCost (List.filter (fun c => bool_decide ((rp_installationId (rec_input c), isoDate (rec_now c)) = key)) calls) with
    | Some x, l => Some (foldl nadd x l)
    | None, [] => None
    | None, c :: l => Some (foldl nadd c l)
    end.
Proof.
  revert o. induction calls as [|c calls IH]; intros o; [by destruct o|].
  cbn [foldl List.filter]. rewrite IH. unfold dailyAfter at 1. by case_bool_decide; [destruct o|].
Qed.

Lemma default_daily o : match o with Some r => dr_costUsd r | None => zero end = default zero (costOf o).
Proof. by destruct o. Qed.

(** ** Property *)

(** C32. What the guard reads is what was recorded: on a connection that may write them, calls recorded
    one after another from empty tables, with counts that fit their 32-bit columns, all succeed, and
    a reader is then told the sum of the costs of the job's calls, and of the installation's calls
    of the same UTC day, added in the order in which they were recorded. A call with a count that
    does not fit is refused and leaves both tables as they were. *)
Theorem cost_totals_are_the_recorded_calls db calls i jobId t :
  allows db i = true -> (0 <= t)%Z ->
  Forall (fun c => allows db (rp_installationId (rec_input c)) = true /\ (0 <= rec_now c)%Z /\ fits c = true) calls ->
  (exists d, recordAll db calls {| cd_ledger := []; cd_daily := ∅ |} = (Ok tt, d) /\
    createCostTotalsReader db i jobId (isoDate t) d =
      (Ok {| running := sumCost (map recCost (List.filter (sameJob i jobId) calls));
             daily := sumCost (map recCost (List.filter (sameDay i t) calls)) |}, d)) /\
  (forall c d, fits c = false ->
     exists e, createCostLedgerRecorder db (rec_dbNow c) (rec_now c) (rec_input c) (rec_extras c) d = (Throw e, d)).
Proof.
  intros Hi Ht [Hall [Hnow Hfit]%Forall_and]%Forall_and. split.
  2: { intros c d Hf. eexists. unfold createCostLedgerRecorder. change (rowFits _) with (fits c). by rewrite Hf. }
  edestruct recordAll_spec as (d & -> & Hl & Hd); [done|done|]. clear Hfit. exists d. split; [done|].
  unfold createCostTotalsReader, mbind, eff_bind, get. cbn [mret eff_ret]. unfold mret, eff_ret. rewrite Hi, Hl. cbn [app cd_ledger].
  do 3 f_equal.
  - f_equal. clear Hd Hl Hnow d. induction Hall as [|c calls Hc _ IH]; [done|].
    cbn [map List.filter]. cbn [cl_installationId ledgerRowOf]. rewrite Hc. cbn [andb].
    change (isRunning i jobId (ledgerRowOf (rec_dbNow c) (rec_input c) (rec_extras c))) with (sameJob i jobId c).
    destruct (sameJob i jobId c); cbn [map]; [by f_equal|done].
  - rewrite default_daily, Hd, foldl_daily. cbn [cd_daily]. rewrite lookup_empty. cbn [costOf fmap option_fmap option_map].
    replace (List.filter (fun c => bool_decide (_ = (i, isoDate t))) calls) with (List.filter (sameDay i t) calls).
    { by destruct (map recCost _). }
    clear Hall Hl Hd. induction Hnow as [|c calls Hc _ IH]; [done|]. cbn [List.filter]. rewrite IH.
    replace (bool_decide ((rp_installationId (rec_input c), isoDate (rec_now c)) = (i, isoDate t))) with (sameDay i t c); [done|].
    unfold sameDay. apply eq_true_iff_eq. rewrite andb_true_iff, Z.eqb_eq, Z.eqb_eq, bool_decide_eq_true, <- isoDate_inj by done.
    split; [by intros [-> ->]|by intros [= -> ->]].
Qed.

(** Three calls of one installation: two on the last instants of a year, one on the first of the next. *)
Definition demoCall (jobId : str) (now : Z) (cost : number) : Recording :=
  {| rec_dbNow := now; rec_now := now; rec_extras := noExtras;
     rec_input := {| rp_installationId := 7; rp_jobId := jobId; rp_provider := "anthropic"; rp_model := "m";
                     rp_callPhase := review_main; rp_inputTokens := 10; rp_outputTokens := 2; rp_costUsd := cost;
                     rp_status := success |} |}.
Definition demoCalls : list Recording :=
  [demoCall "a" 1735689598000 (num_of_Z 1); demoCall "b" 1735689599999 (num_of_Z 2); demoCall "a" 1735689600000 (num_of_Z 4)].

Lemma cost_totals_are_the_recorded_calls_witness :
  exists d, recordAll (tenantConnection appPool 7) demoCalls {| cd_ledger := []; cd_daily := ∅ |} = (Ok tt, d) /\
    createCostTotalsReader (tenantConnection appPool 7) 7 "a" "2024-12-31" d
      = (Ok {| running := num_of_Z 5; daily := num_of_Z 3 |}, d).
Proof.
  destruct (cost_totals_are_the_recorded_calls (tenantConnection appPool 7) demoCalls 7 "a" 1735689598000) as [(d & Hrun & Hread) _].
  - reflexivity.
  - lia.
  - repeat (apply Forall_cons; split; [split_and!; [reflexivity|cbn; lia|reflexivity]|]). apply Forall_nil; exact I.
  - exists d. split; [exact Hrun|exact Hread].
Defined.
