(* ===== verification/Cursor.v ===== *)
(** * Cursors and search patterns (server/src/api/cursor.ts)

    The opaque cursor of the paginated lists, and the escaping of a search text in a LIKE pattern.
    Base64url is written out on the bits of a character; JSON and dates are parsed by the engine. *)

From S2P Require Import Prelude JsNumber JsMap JsonTree Schema NumberText Json.

(** ** Base64url *)

Definition sextet : Type := bool * bool * bool * bool * bool * bool.

Definition sextetN (x : sextet) : N :=
  let '(a, b, c, d, e, f) := x in
  (N.b2n f + 2 * N.b2n e + 4 * N.b2n d + 8 * N.b2n c + 16 * N.b2n b + 32 * N.b2n a)%N.

(** A-Z, a-z, 0-9, [-], [_] *)
Definition base64Char (x : sextet) : ascii :=
  let n := sextetN x in
  ascii_of_N (if n <? 26 then n + 65 else if n <? 52 then n + 71 else if n <? 62 then n - 4
              else if n =? 62 then 45 else 95)%N.

Definition sextetOfN (n : N) : sextet :=
  (N.testbit n 5, N.testbit n 4, N.testbit n 3, N.testbit n 2, N.testbit n 1, N.testbit n 0).

(** The digit of a character; the decoder also takes the standard alphabet's [+] and [/]. *)
Definition base64Digit (c : ascii) : option sextet :=
  let n := code c in
  if ((65 <=? n) && (n <=? 90))%N then Some (sextetOfN (n - 65))
  else if ((97 <=? n) && (n <=? 122))%N then Some (sextetOfN (n - 71))
  else if ((48 <=? n) && (n <=? 57))%N then Some (sextetOfN (n + 4))
  else if ((n =? 45) || (n =? 43))%N then Some (sextetOfN 62)
  else if ((n =? 95) || (n =? 47))%N then Some (sextetOfN 63)
  else None.

(** [Buffer.from(s).toString('base64url')]: no padding. *)
Fixpoint base64url (s : str) : str :=
  match s with
  | Ascii a0 a1 a2 a3 a4 a5 a6 a7 :: Ascii b0 b1 b2 b3 b4 b5 b6 b7 :: Ascii c0 c1 c2 c3 c4 c5 c6 c7 :: rest =>
      base64Char (a7, a6, a5, a4, a3, a2) :: base64Char (a1, a0, b7, b6, b5, b4)
      :: base64Char (b3, b2, b1, b0, c7, c6) :: base64Char (c5, c4, c3, c2, c1, c0) :: base64url rest
  | [Ascii a0 a1 a2 a3 a4 a5 a6 a7; Ascii b0 b1 b2 b3 b4 b5 b6 b7] =>
      [base64Char (a7, a6, a5, a4, a3, a2); base64Char (a1, a0, b7, b6, b5, b4);
       base64Char (b3, b2, b1, b0, false, false)]
  | [Ascii a0 a1 a2 a3 a4 a5 a6 a7] =>
      [base64Char (a7, a6, a5, a4, a3, a2); base64Char (a1, a0, false, false, false, false)]
  | [] => []
  end.

Fixpoint bytesOf (l : list sextet) : str :=
  match l with
  | (a7, a6, a5, a4, a3, a2) :: (a1, a0, b7, b6, b5, b4) :: (b3, b2, b1, b0, c7, c6) :: (c5, c4, c3, c2, c1, c0) :: rest =>
      Ascii a0 a1 a2 a3 a4 a5 a6 a7 :: Ascii b0 b1 b2 b3 b4 b5 b6 b7 :: Ascii c0 c1 c2 c3 c4 c5 c6 c7 :: bytesOf rest
  | [(a7, a6, a5, a4, a3, a2); (a1, a0, b7, b6, b5, b4); (b3, b2, b1, b0, _, _)] =>
      [Ascii a0 a1 a2 a3 a4 a5 a6 a7; Ascii b0 b1 b2 b3 b4 b5 b6 b7]
  | [(a7, a6, a5, a4, a3, a2); (a1, a0, _, _, _, _)] => [Ascii a0 a1 a2 a3 a4 a5 a6 a7]
  | _ => []
  end.

(** [Buffer.from(s, 'base64url')]: characters of neither alphabet are skipped. *)
Definition fromBase64url (s : str) : str := bytesOf (omap base64Digit s).

Lemma base64Digit_char x : base64Digit (base64Char x) = Some x.
Proof. by destruct x as [[[[[[] []] []] []] []] []]. Qed.

Lemma fromBase64url_base64url s : fromBase64url (base64url s) = s.
Proof.
  unfold fromBase64url. revert s. fix IH 1. intros [|[] [|[] [|[] rest]]].
  all: cbn [base64url omap list_omap]; rewrite ?base64Digit_char; cbn [bytesOf]; try done.
  do 3 f_equal. apply IH.
Qed.

(** ** The cursor *)

(** [BigInt(s)] of a string; [None] is a SyntaxError. *)
Definition bigIntBased (base : Z) (ds : str) : option Z :=
  if bool_decide (ds = []) then None else baseValue base ds.
Definition BigIntOf (s : str) : option Z :=
  let t := trim s in
  if bool_decide (t = []) then Some 0%Z
  else if startsWithI t "0x" then bigIntBased 16 (drop 2 t)
  else if startsWithI t "0o" then bigIntBased 8 (drop 2 t)
  else if startsWithI t "0b" then bigIntBased 2 (drop 2 t)
  else
    let '(negative, u) := signOf t in
    if bool_decide (u <> []) && forallb is_digit u
    then Some (if negative : bool then - digitsValue u else digitsValue u)%Z else None.

Definition asciiText (s : str) : Prop := Forall (fun c => (code c < 128)%N) s.
(** Printable ASCII without the characters JSON escapes. *)
Definition isPlain (c : ascii) : bool :=
  ((32 <=? code c) && (code c <? 127))%N && negb (eqc c quoteChar) && negb (eqc c "\").

Section cursor.
Context (parseJSON : str -> option json) (utf8Text : str -> str) (isoOf : Z -> str).

Definition encodeCursor (createdAt id : Z) : str :=
  base64url (stringifyObject [(js "t", Json.JStr (isoOf createdAt)); (js "id", Json.JStr (showZ id))]).

(** The two members, when both are strings. *)
Definition decodeCursor (cursor : str) : option (str * str) :=
  match parseJSON (utf8Text (fromBase64url cursor)) with
  | Some parsed => t ← stringMember "t" parsed; id ← stringMember "id" parsed; Some (t, id)
  | None => None
  end.

(** What the cursor relies on: the bytes of an ASCII text are its text, parsing the text of an
    object of plain strings gives its members, and a printed date is plain. *)
Record CursorEngine : Prop := {
  ce_utf8 : forall s, asciiText s -> utf8Text s = s;
  ce_json : forall a b, forallb isPlain a = true -> forallb isPlain b = true ->
    parseJSON (stringifyObject [(js "t", Json.JStr a); (js "id", Json.JStr b)])
    = Some (JsonTree.JObj [(js "t", JsonTree.JStr a); (js "id", JsonTree.JStr b)]);
  ce_iso : forall ms, forallb isPlain (isoOf ms) = true;
}.

Lemma isPlain_spec c : isPlain c = true -> jsonEscape c = [c] /\ (code c < 128)%N.
Proof.
  assert (all_ascii (fun c => implb (isPlain c) (bool_decide (jsonEscape c = [c]) && (code c <? 128)%N)) = true) as Ha
    by (by vm_compute).
  apply (all_ascii_spec _ c) in Ha. cbv beta in Ha. intros H. rewrite H in Ha. cbn in Ha.
  apply andb_true_iff in Ha as [H1 H2]. by apply bool_decide_eq_true in H1; apply N.ltb_lt in H2.
Qed.

Lemma jsonQuote_plain s : forallb isPlain s = true -> jsonQuote s = quoteChar :: s ++ [quoteChar] /\ asciiText (jsonQuote s).
Proof.
  intros H. assert (flat_map jsonEscape s = s /\ asciiText s) as [E Ha].
  { unfold asciiText. induction s as [|c s IH]; [by split|]. cbn in *. apply andb_true_iff in H as [Hc Hs].
    destruct (isPlain_spec c Hc) as [-> Hl]. destruct (IH Hs) as [-> Ha]. by split; [|constructor]. }
  unfold jsonQuote. rewrite E. split; [done|]. constructor; [done|]. apply Forall_app. split; [done|by repeat constructor].
Qed.

Lemma showZ_plain z : forallb isPlain (showZ z) = true.
Proof.
  pose proof (showZ_chars z) as H. rewrite forallb_forall in *. intros c Hc. specialize (H c Hc).
  assert (all_ascii (fun c => implb (isIntChar c) (isPlain c)) = true) as Ha by (by vm_compute).
  apply (all_ascii_spec _ c) in Ha. cbv beta in Ha. by rewrite H in Ha.
Qed.

(** A cursor carries its two members back. *)
Lemma decodeCursor_encodeCursor createdAt id : CursorEngine ->
  decodeCursor (encodeCursor createdAt id) = Some (isoOf createdAt, showZ id).
Proof.
  intros [Hu Hj Hi]. unfold decodeCursor, encodeCursor. rewrite fromBase64url_base64url, Hu.
  - rewrite Hj by (apply Hi || apply showZ_plain). done.
  - unfold stringifyObject, stringifyField. cbn [map join fst snd stringifyValue].
    repeat (apply Forall_app; split); try apply jsonQuote_plain; try apply Hi; try apply showZ_plain; try done; by repeat constructor.
Qed.
End cursor.

Lemma digit_eqc c d : is_digit c = true -> is_digit d = false -> eqc c d = false.
Proof. intros Hc Hd. apply not_true_iff_false. intros ->%Ascii.eqb_eq. congruence. Qed.

Lemma BigIntOf_showZ n : (0 <= n)%Z -> BigIntOf (showZ n) = Some n.
Proof.
  intros H. destruct (showZ_digits n H) as [Hd Hne]. unfold BigIntOf. rewrite (trim_digits _ Hd).
  rewrite bool_decide_eq_false_2 by done. pose proof (showZ_value n H) as Hv. revert Hd Hne Hv.
  generalize (showZ n). intros t Hd Hne <-.
  assert (startsWithI t "0x" = false /\ startsWithI t "0o" = false /\ startsWithI t "0b" = false) as (-> & -> & ->).
  { destruct t as [|c [|d t]]; [done|by cbn; rewrite !andb_false_r|].
    cbn in Hd. apply andb_true_iff in Hd as [_ [Hd _]%andb_true_iff].
    unfold startsWithI. cbn [map startsWith js String.list_ascii_of_string].
    assert (eqc (fold_char "x") (fold_char d) || eqc (fold_char "o") (fold_char d) || eqc (fold_char "b") (fold_char d) = false) as Hx.
    { assert (all_ascii (fun d => implb (is_digit d) (negb (eqc (fold_char "x") (fold_char d) || eqc (fold_char "o") (fold_char d)
        || eqc (fold_char "b") (fold_char d)))) = true) as Ha by (by vm_compute).
      apply (all_ascii_spec _ d) in Ha. cbv beta in Ha. rewrite Hd in Ha. by apply negb_true_iff in Ha. }
    apply orb_false_iff in Hx as [[H1 H2]%orb_false_iff H3]. rewrite H1, H2, H3. by rewrite !andb_false_r. }
  assert (signOf t = (false, t)) as ->.
  { destruct t as [|c t]; [done|]. cbn in Hd. apply andb_true_iff in Hd as [Hd _]. unfold signOf.
    by rewrite !digit_eqc. }
  by rewrite bool_decide_eq_true_2, Hd.
Qed.

(** ** Search patterns *)

Definition isWildcard (c : ascii) : bool := eqc c "\" || eqc c "%" || eqc c "_".

Definition escapeLikePattern (s : str) : str := flat_map (fun c => if isWildcard c then ["\"%char; c] else [c]) s.

(** SQL's LIKE: [%] is any text, [_] any character, a backslash quotes the next character; a pattern that ends
    with one is refused. *)
Fixpoint like (p s : str) {struct p} : option bool :=
  match p with
  | [] => Some (bool_decide (s = []))
  | c :: p' =>
      if eqc c "%" then
        (fix go (s : str) : option bool :=
           b ← like p' s;
           if b : bool then Some true else match s with [] => Some false | _ :: s' => go s' end) s
      else if eqc c "_" then match s with [] => Some false | _ :: s' => like p' s' end
      else if eqc c "\" then
        match p' with
        | [] => None
        | d :: p'' => match s with [] => Some false | e :: s' => if eqc d e then like p'' s' else Some false end
        end
      else match s with [] => Some false | e :: s' => if eqc c e then like p' s' else Some false end
  end.

Section search.
(** The database's case folding. *)
Context (fold : ascii -> ascii).

Definition ilike (s p : str) : option bool := like (map fold p) (map fold s).

Definition containsPattern (q : str) : str := "%" ++ escapeLikePattern q ++ "%".

Lemma like_any p s :
  like ("%"%char :: p) s
  = (b ← like p s; if b : bool then Some true else match s with [] => Some false | _ :: s' => like ("%"%char :: p) s' end).
Proof. by destruct s. Qed.

Lemma like_percent s : like ["%"%char] s = Some true.
Proof. induction s as [|c s IH]; rewrite like_any; [done|]. cbn [like mbind option_bind]. by case_bool_decide. Qed.

Lemma like_escaped q s : like (escapeLikePattern q ++ ["%"%char]) s = Some (startsWith s q).
Proof.
  revert s. induction q as [|c q IH]; intros s; [by rewrite like_percent; destruct s|].
  cbn [escapeLikePattern flat_map]. fold (escapeLikePattern q). destruct (isWildcard c) eqn:E.
  - cbn [app like]. change (eqc "\" "%") with false. change (eqc "\" "_") with false. change (eqc "\" "\") with true.
    cbv iota. destruct s as [|d s]; [done|]. rewrite IH. cbn [startsWith].
    unfold eqc. rewrite Ascii.eqb_sym. by destruct (Ascii.eqb d c).
  - unfold isWildcard in E. to_prop. repeat match goal with H : _ || _ = false |- _ => apply orb_false_iff in H as [? ?] end.
    cbn [app like]. repeat match goal with H : eqc _ _ = false |- _ => rewrite H; clear H end.
    destruct s as [|d s]; [done|]. rewrite IH. cbn [startsWith]. unfold eqc. rewrite Ascii.eqb_sym. by destruct (Ascii.eqb d c).
Qed.

Lemma like_contains q s : like (containsPattern q) s = Some (includes s q).
Proof.
  unfold containsPattern. change (js "%") with ["%"%char]. cbn [app].
  induction s as [|c s IH]; rewrite like_any, like_escaped; cbn [mbind option_bind includes].
  - by destruct (startsWith [] q).
  - destruct (startsWith (c :: s) q); [done|apply IH].
Qed.

(** A search text matches the texts that contain it, whatever wildcards it holds, letters folded. *)
Lemma search_is_substring s q :
  (forall c, isWildcard (fold c) = isWildcard c) -> (forall c, isWildcard c = true -> fold c = c) ->
  ilike s (containsPattern q) = Some (includes (map fold s) (map fold q)).
Proof.
  intros Hw Hf. unfold ilike. replace (map fold (containsPattern q)) with (containsPattern (map fold q)); [apply like_contains|].
  unfold containsPattern. rewrite !map_app. cbn [map js String.list_ascii_of_string]. rewrite (Hf "%"%char eq_refl).
  do 2 f_equal. unfold escapeLikePattern. induction q as [|c q IH]; [done|].
  cbn [map flat_map]. rewrite Hw, map_app, <- IH. f_equal.
  destruct (isWildcard c); cbn; [|done]. by rewrite (Hf "\"%char eq_refl).
Qed.
End search.

(** ** An engine for concrete runs

    Times print as their digits; the parser reads the one object a cursor holds. *)

Definition demoParse (text : str) : option json :=
  match splitChar quoteChar text with
  | [_; _; _; a; _; _; _; b; _] => Some (JsonTree.JObj [(js "t", JsonTree.JStr a); (js "id", JsonTree.JStr b)])
  | _ => None
  end.

Lemma plain_no_quote s : forallb isPlain s = true -> quoteChar ∉ s.
Proof. intros H Hin. rewrite forallb_elem in H. by specialize (H _ Hin). Qed.

Lemma demo_engine : CursorEngine demoParse (fun s => s) showZ.
Proof.
  constructor; [done| |apply showZ_plain]. intros a b Ha Hb. unfold demoParse, stringifyObject, stringifyField.
  cbn [map join fst snd stringifyValue]. destruct (jsonQuote_plain a Ha) as [-> _]. destruct (jsonQuote_plain b Hb) as [-> _].
  apply plain_no_quote in Ha, Hb.
  match goal with |- context [splitChar quoteChar ?x] =>
    replace x with (join [quoteChar] [js "{"; js "t"; js ":"; a; js ","; js "id"; js ":"; b; js "}"])
  end.
  2:{ change (jsonQuote "t") with [quoteChar; "t"%char; quoteChar]. change (jsonQuote "id") with [quoteChar; "i"%char; "d"%char; quoteChar]. by repeat (cbn; rewrite <- app_assoc). }
  rewrite splitChar_join; [done|done|]. repeat constructor; first [done|not_in].
Qed.
