(* ===== verification/Dashboard.v ===== *)
(** * The dashboard's tables and routes (server/src/api/{repos,reviews,dashboard,integrations,schemas}.ts)

    The repository registry with its soft deletes, the review events and the routes that read and
    change them. A row's times are the database's, in microseconds; a [Date] is in milliseconds. The
    routes use the server's own connection, so the events they see are those its row policy allows;
    the registry has no policy. *)

From S2P Require Import Prelude JsNumber JsMap JsonTree Errors Schema NumberText Codec Queue Vcs Tenancy Cost.
From S2P Require Import Dates CostLedger Cursor.
From stdpp Require Import sorting.

(** ** Tables *)

Record RepoRow := {
  repo_id : str;
  repo_platform : VcsPlatform;
  repo_name : str;
  repo_enabled : bool;
  repo_systemPrompt : option str;
  repo_systemPromptUpdatedAt : option Z;
  repo_createdAt : Z;
  repo_updatedAt : Z;
  repo_deletedAt : option Z;
  repo_installationId : option Z;
}.

(** A row of [review_eval_event], as far as the routes read it. *)
Record EventRow := {
  ev_id : Z;
  ev_installationId : Z;
  ev_repo : str;
  ev_prNumber : Z;
  ev_jobId : str;
  ev_abortReason : option str;
  ev_costUsd : number;
  ev_latencyMs : Z;
  ev_provider : str;
  ev_model : str;
  ev_tokensInput : Z;
  ev_tokensOutput : Z;
  ev_createdAt : Z;
}.

(** A row of [github_installations]. *)
Record InstallationRow := {
  in_installationId : Z;
  in_accountLogin : str;
  in_accountType : str;
  in_appId : Z;
  in_setupAction : str;
  in_suspendedAt : option Z;
  in_createdAt : Z;
  in_updatedAt : Z;
}.

Record ApiWorld (X : Type) := {
  aw_repos : list RepoRow;
  aw_events : list EventRow;
  aw_ledger : list CostLedgerRow;
  aw_installations : gmap Z InstallationRow;
  aw_ext : X;
}.
Arguments Build_ApiWorld {X}.
Arguments aw_repos {X}.
Arguments aw_events {X}.
Arguments aw_ledger {X}.
Arguments aw_installations {X}.
Arguments aw_ext {X}.

Definition setRepos {X} (rs : list RepoRow) (w : ApiWorld X) : ApiWorld X :=
  Build_ApiWorld rs (aw_events w) (aw_ledger w) (aw_installations w) (aw_ext w).

(** A [Date] of the database's time, and the time a [Date] is stored as. *)
Definition readDate (t : Z) : Z := (t / 1000)%Z.
Definition storeDate (ms : Z) : Z := (ms * 1000)%Z.

(** An answer: a body with its status, or an error with its own. *)
Inductive Response (A : Type) :=
  | Reply (status : Z) (body : A)
  | Fail (status : Z) (error : string).
Arguments Reply {A}.
Arguments Fail {A}.

(** ** Schemas *)

Inductive Outcome := oc_approved | oc_changes_requested | oc_commented | oc_failed.
#[export] Instance Outcome_eq : EqDecision Outcome.
Proof. solve_decision. Defined.

Definition deriveOutcome (abortReason : option str) : Outcome :=
  match abortReason with Some _ => oc_failed | None => oc_commented end.

Definition platformSchema : json -> option VcsPlatform := asEnum [(js "github", github); (js "codecommit", codecommit)].
Definition outcomeSchema : json -> option Outcome :=
  asEnum [(js "approved", oc_approved); (js "changes_requested", oc_changes_requested);
          (js "commented", oc_commented); (js "failed", oc_failed)].

Definition boundedText (lo hi : Z) : json -> option str :=
  checked (fun s => (lo <=? Zlen s)%Z && (Zlen s <=? hi)%Z) asString.

Definition createRepoBodySchema (body : json) : option (VcsPlatform * str) :=
  match body with
  | JObj fields =>
      p ← at_ "platform" (requiredR platformSchema) fields;
      n ← at_ "name" (requiredR (boundedText 1 200)) fields;
      Some (p, n)
  | _ => None
  end.

Definition patchRepoBodySchema (body : json) : option (option bool) :=
  match body with
  | JObj fields => at_ "enabled" (optionalR asBool) fields
  | _ => None
  end.

(** A prompt of white space alone is stored as none. *)
Definition storedPrompt (systemPrompt : str) : option str :=
  if bool_decide (trim systemPrompt <> []) then Some systemPrompt else None.

Definition putPromptBodySchema (body : json) : option str :=
  match body with
  | JObj fields => at_ "systemPrompt" (requiredR (boundedText 0 50000)) fields
  | _ => None
  end.

(** [Math.floor] of a finite double. *)
Definition floorZ (x : number) : Z :=
  match x with
  | SpecFloat.S754_finite s m e =>
      let v := if s : bool then Z.neg m else Z.pos m in
      if (0 <=? e)%Z then (v * 2 ^ e)%Z else (v / 2 ^ (- e))%Z
  | _ => 0%Z
  end.

(** The page size: 50 by default and for what is no number from 1, at most 200. *)
Definition limitSchema (v : option str) : number :=
  let n := match v with Some s => toNumber s | None => num_of_Z 50 end in
  if isFinite n && nge n (num_of_Z 1) then (if ngt n (num_of_Z 200) then num_of_Z 200 else n) else num_of_Z 50.

Record ReviewsQuery := {
  q_limit : option str;
  q_cursor : option str;
  q_platform : option str;
  q_outcome : option str;
  q_repoQuery : option str;
  q_since : option str;
}.

Record ParsedQuery := {
  pq_limit : number;
  pq_cursor : option str;
  pq_platform : option VcsPlatform;
  pq_outcome : option Outcome;
  pq_repoQuery : option str;
  pq_since : option str;
}.

Definition optionalText {A} (f : json -> option A) (v : option str) : option (option A) :=
  match v with Some s => Some <$> f (JStr s) | None => Some None end.

Definition reviewsQuerySchema (isDatetime : str -> bool) (q : ReviewsQuery) : option ParsedQuery :=
  p ← optionalText platformSchema (q_platform q);
  o ← optionalText outcomeSchema (q_outcome q);
  s ← optionalText (checked (fun s => bool_decide (s ∈ map js ["24h"; "7d"; "30d"]) || isDatetime s) asString) (q_since q);
  Some {| pq_limit := limitSchema (q_limit q); pq_cursor := q_cursor q; pq_platform := p; pq_outcome := o;
          pq_repoQuery := q_repoQuery q; pq_since := s |}.

Definition resolveSince (parseDate : str -> option Z) (since : str) (now : Z) : option Z :=
  if bool_decide (since = js "24h") then Some (now - MS_PER_DAY)%Z
  else if bool_decide (since = js "7d") then Some (now - 7 * MS_PER_DAY)%Z
  else if bool_decide (since = js "30d") then Some (now - 30 * MS_PER_DAY)%Z
  else parseDate since.

(** ** Response bodies *)

Record RepoSummary := {
  sm_id : str;
  sm_platform : VcsPlatform;
  sm_name : str;
  sm_enabled : bool;
  sm_lastReviewAt : option str;
  sm_lastOutcome : option Outcome;
}.

Record RepoDetail := {
  dt_summary : RepoSummary;
  dt_createdAt : str;
  dt_updatedAt : str;
  dt_systemPromptPresent : bool;
}.

Record PromptResponse := { pr_systemPrompt : str; pr_updatedAt : option str }.

Record RepoMetrics := { mt_totalReviews : Z; mt_reviewsLast30d : Z; mt_avgDurationMs : Z; mt_totalCostUsd : number }.

Record ReviewEvent := {
  re_id : str;
  re_repoId : str;
  re_repoName : str;
  re_platform : VcsPlatform;
  re_prNumber : Z;
  re_title : str;
  re_outcome : Outcome;
  re_costUsd : number;
  re_durationMs : Z;
  re_createdAt : str;
}.

Record ReviewsPage := { pg_items : list ReviewEvent; pg_nextCursor : option str; pg_total : option Z }.

Record ReviewEventDetail := {
  rd_event : ReviewEvent;
  rd_summary : option str;
  rd_tokens : Z * Z * Z;
  rd_provider : str;
  rd_model : str;
  rd_systemPromptAtReview : option str;
  rd_externalUrl : str;
}.

(** ** Queries *)

Definition isActive (r : RepoRow) : bool := bool_decide (repo_deletedAt r = None).

(** [WHERE id = ... AND deleted_at IS NULL LIMIT 1] *)
Definition activeRepo (id : str) (rs : list RepoRow) : option RepoRow :=
  List.find (fun r => bool_decide (repo_id r = id) && isActive r) rs.

(** [UPDATE ... WHERE id = ...] *)
Definition updateRepo (id : str) (f : RepoRow -> RepoRow) (rs : list RepoRow) : list RepoRow :=
  map (fun r => if bool_decide (repo_id r = id) then f r else r) rs.

Definition duplicateKey : thrown := errorOf "duplicate key value violates unique constraint repos_pkey".

(** The latest event first, and with equal times the larger id. *)
Definition latestFirst (a b : EventRow) : Prop := (ev_createdAt b <= ev_createdAt a)%Z.
Definition newestFirst (a b : EventRow) : Prop :=
  (ev_createdAt b < ev_createdAt a \/ ev_createdAt b = ev_createdAt a /\ ev_id b <= ev_id a)%Z.
#[export] Instance latestFirst_dec a b : Decision (latestFirst a b).
Proof. unfold latestFirst. apply _. Defined.
#[export] Instance newestFirst_dec a b : Decision (newestFirst a b).
Proof. unfold newestFirst. apply _. Defined.

(** [ORDER BY name], in the database's collation. *)
Definition orderByName (collate : relation str) (a b : RepoRow) : Prop := collate (repo_name a) (repo_name b).
#[export] Instance orderByName_dec collate `{!RelDecision collate} a b : Decision (orderByName collate a b).
Proof. unfold orderByName. apply _. Defined.

(** [LIMIT n]: the parameter is an integer, or the query fails. *)
Definition limitRows {A} (n : number) (l : list A) : result thrown (list A) :=
  match integerOf n with
  | Some k => Ok (take (Z.to_nat k) l)
  | None => Throw (errorOf "invalid input syntax for type bigint")
  end.

Section routes.
Context {X : Type} (db : Connection) (now : X -> Z) (generateId : X -> str * X)
        (collate : relation str) `{!RelDecision collate}
        (parseJSON : str -> option json) (utf8Text : str -> str) (isoOf : Z -> str)
        (parseDate : str -> option Z) (isDatetime : str -> bool) (fold : ascii -> ascii) (awsRegion : str).
Notation World := (ApiWorld X).

Definition setRepoRows (f : list RepoRow -> list RepoRow) : eff World thrown unit :=
  modify (fun w => setRepos (f (aw_repos w)) w).

(** [new Date()] *)
Definition clock : eff World thrown Z := w ← get; mret (now (aw_ext w)).
Definition freshId : eff World thrown str := fun w =>
  let '(i, x) := generateId (aw_ext w) in
  (Ok i, Build_ApiWorld (aw_repos w) (aw_events w) (aw_ledger w) (aw_installations w) x).

Definition shownAt (t : Z) : str := isoOf (readDate t).

(** The events of the connection that satisfy a condition. *)
Definition events (p : EventRow -> bool) (w : World) : list EventRow :=
  List.filter (fun e => allows db (ev_installationId e) && p e) (aw_events w).

(** [ORDER BY created_at DESC LIMIT 1] of a repository. *)
Definition lastEvent (name : str) (w : World) : option EventRow :=
  head (merge_sort latestFirst (events (fun e => bool_decide (ev_repo e = name)) w)).

Definition summaryOf (r : RepoRow) (last : option EventRow) : RepoSummary :=
  {| sm_id := repo_id r; sm_platform := repo_platform r; sm_name := repo_name r; sm_enabled := repo_enabled r;
     sm_lastReviewAt := (fun e => shownAt (ev_createdAt e)) <$> last;
     sm_lastOutcome := (fun e => deriveOutcome (ev_abortReason e)) <$> last |}.

(** ** The registry *)

(** The first event of each repository, in a Map. *)
Definition latestByRepo (es : list EventRow) : jsmap EventRow :=
  foldl (fun m e => match mapGet (ev_repo e) m with Some _ => m | None => mapSet (ev_repo e) e m end) [] es.

Definition listRepos : eff World thrown (Response (list RepoSummary)) :=
  w ← get;
  let activeRepos := merge_sort (orderByName collate) (List.filter isActive (aw_repos w)) in
  let repoNames := map repo_name activeRepos in
  let recentEvents :=
    if bool_decide (repoNames = []) then []
    else merge_sort latestFirst (events (fun e => bool_decide (ev_repo e ∈ repoNames)) w) in
  let latest := latestByRepo recentEvents in
  mret (Reply 200 (map (fun r => summaryOf r (mapGet (repo_name r) latest)) activeRepos)).

Definition isPromptPresent (v : option str) : bool :=
  match v with Some s => bool_decide (trim s <> []) | None => false end.

Definition detailOf (row : RepoRow) (last : option EventRow) : RepoDetail :=
  {| dt_summary := summaryOf row last;
     dt_createdAt := shownAt (repo_createdAt row); dt_updatedAt := shownAt (repo_updatedAt row);
     dt_systemPromptPresent := isPromptPresent (repo_systemPrompt row) |}.

Definition getRepo (id : str) : eff World thrown (Response RepoDetail) :=
  w ← get;
  match activeRepo id (aw_repos w) with
  | None => mret (Fail 404 "not_found")
  | Some row => mret (Reply 200 (detailOf row (lastEvent (repo_name row) w)))
  end.

Definition newRepo (id : str) (platform : VcsPlatform) (name : str) (installationId : option Z) (at_ : Z) : RepoRow :=
  {| repo_id := id; repo_platform := platform; repo_name := name; repo_enabled := true; repo_systemPrompt := None;
     repo_systemPromptUpdatedAt := None; repo_createdAt := storeDate at_; repo_updatedAt := storeDate at_;
     repo_deletedAt := None; repo_installationId := installationId |}.

(** [INSERT INTO repos]; the id is the primary key. *)
Definition insertRepo (row : RepoRow) : eff World thrown unit :=
  w ← get;
  if bool_decide (repo_id row ∈ map repo_id (aw_repos w)) then throw duplicateKey
  else setRepoRows (fun rs => rs ++ [row]).

Definition createRepo (body : option json) : eff World thrown (Response RepoSummary) :=
  match body with
  | None => mret (Fail 400 "invalid JSON body")
  | Some v =>
      match createRepoBodySchema v with
      | None => mret (Fail 422 "validation_error")
      | Some (platform, name) =>
          at_ ← clock;
          id ← freshId;
          insertRepo (newRepo id platform name None at_);;
          mret (Reply 201 {| sm_id := id; sm_platform := platform; sm_name := name; sm_enabled := true;
                             sm_lastReviewAt := None; sm_lastOutcome := None |})
      end
  end.

Definition setEnabled (enabled : bool) (at_ : Z) (r : RepoRow) : RepoRow :=
  {| repo_id := repo_id r; repo_platform := repo_platform r; repo_name := repo_name r; repo_enabled := enabled;
     repo_systemPrompt := repo_systemPrompt r; repo_systemPromptUpdatedAt := repo_systemPromptUpdatedAt r;
     repo_createdAt := repo_createdAt r; repo_updatedAt := storeDate at_; repo_deletedAt := repo_deletedAt r;
     repo_installationId := repo_installationId r |}.

Definition patchRepo (id : str) (body : option json) : eff World thrown (Response RepoSummary) :=
  match body with
  | None => mret (Fail 400 "invalid JSON body")
  | Some v =>
      match patchRepoBodySchema v with
      | None => mret (Fail 422 "validation_error")
      | Some enabled =>
          w ← get;
          match activeRepo id (aw_repos w) with
          | None => mret (Fail 404 "not_found")
          | Some _ =>
              at_ ← clock;
              match enabled with
              | Some b => setRepoRows (updateRepo id (setEnabled b at_))
              | None => mret tt
              end;;
              w ← get;
              match activeRepo id (aw_repos w) with
              | None => mret (Fail 404 "not_found")
              | Some row => mret (Reply 200 (summaryOf row (lastEvent (repo_name row) w)))
              end
          end
      end
  end.

Definition markDeleted (at_ : Z) (r : RepoRow) : RepoRow :=
  {| repo_id := repo_id r; repo_platform := repo_platform r; repo_name := repo_name r; repo_enabled := repo_enabled r;
     repo_systemPrompt := repo_systemPrompt r; repo_systemPromptUpdatedAt := repo_systemPromptUpdatedAt r;
     repo_createdAt := repo_createdAt r; repo_updatedAt := storeDate at_; repo_deletedAt := Some (storeDate at_);
     repo_installationId := repo_installationId r |}.

Definition deleteRepo (id : str) : eff World thrown (Response unit) :=
  w ← get;
  match activeRepo id (aw_repos w) with
  | None => mret (Fail 404 "not_found")
  | Some _ => at_ ← clock; setRepoRows (updateRepo id (markDeleted at_));; mret (Reply 204 tt)
  end.

Definition promptOf (row : RepoRow) : PromptResponse :=
  {| pr_systemPrompt := default [] (repo_systemPrompt row); pr_updatedAt := shownAt <$> repo_systemPromptUpdatedAt row |}.

Definition getPrompt (id : str) : eff World thrown (Response PromptResponse) :=
  w ← get;
  match activeRepo id (aw_repos w) with
  | None => mret (Fail 404 "not_found")
  | Some row => mret (Reply 200 (promptOf row))
  end.

Definition setPrompt (stored : option str) (at_ : Z) (r : RepoRow) : RepoRow :=
  {| repo_id := repo_id r; repo_platform := repo_platform r; repo_name := repo_name r; repo_enabled := repo_enabled r;
     repo_systemPrompt := stored; repo_systemPromptUpdatedAt := Some (storeDate at_);
     repo_createdAt := repo_createdAt r; repo_updatedAt := storeDate at_; repo_deletedAt := repo_deletedAt r;
     repo_installationId := repo_installationId r |}.

Definition putPrompt (id : str) (body : option json) : eff World thrown (Response PromptResponse) :=
  w ← get;
  match activeRepo id (aw_repos w) with
  | None => mret (Fail 404 "not_found")
  | Some _ =>
      match body with
      | None => mret (Fail 400 "invalid JSON body")
      | Some v =>
          match putPromptBodySchema v with
          | None => mret (Fail 422 "validation_error")
          | Some systemPrompt =>
              at_ ← clock;
              setRepoRows (updateRepo id (setPrompt (storedPrompt systemPrompt) at_));;
              mret (Reply 200 {| pr_systemPrompt := default [] (storedPrompt systemPrompt); pr_updatedAt := Some (isoOf at_) |})
          end
      end
  end.

(** [Math.round(avg)] of integers. *)
Definition roundedAverage (l : list Z) : Z :=
  match l with
  | [] => 0%Z
  | _ => let s := foldl Z.add 0%Z l in let n := Zlen l in ((2 * s + n) / (2 * n))%Z
  end.

Definition repoMetrics (id : str) : eff World thrown (Response RepoMetrics) :=
  at_ ← clock;
  w ← get;
  match activeRepo id (aw_repos w) with
  | None => mret (Fail 404 "not_found")
  | Some row =>
      let all := events (fun e => bool_decide (ev_repo e = repo_name row)) w in
      let recent := List.filter (fun e => (storeDate (at_ - 30 * MS_PER_DAY) <=? ev_createdAt e)%Z) all in
      mret (Reply 200
        {| mt_totalReviews := Zlen all; mt_reviewsLast30d := Zlen recent;
           mt_avgDurationMs := roundedAverage (map ev_latencyMs all); mt_totalCostUsd := sumCost (map ev_costUsd all) |})
  end.

(** The routes on a repository and its prompt. *)
Inductive RegistryRequest :=
  | GetRepo (id : str)
  | CreateRepo (body : option json)
  | PatchRepo (id : str) (body : option json)
  | DeleteRepo (id : str)
  | GetPrompt (id : str)
  | PutPrompt (id : str) (body : option json).

Inductive RegistryAnswer :=
  | AnsDetail (r : Response RepoDetail)
  | AnsSummary (r : Response RepoSummary)
  | AnsDone (r : Response unit)
  | AnsPrompt (r : Response PromptResponse).

Definition reposRouter (req : RegistryRequest) : eff World thrown RegistryAnswer :=
  match req with
  | GetRepo id => r ← getRepo id; mret (AnsDetail r)
  | CreateRepo body => r ← createRepo body; mret (AnsSummary r)
  | PatchRepo id body => r ← patchRepo id body; mret (AnsSummary r)
  | DeleteRepo id => r ← deleteRepo id; mret (AnsDone r)
  | GetPrompt id => r ← getPrompt id; mret (AnsPrompt r)
  | PutPrompt id body => r ← putPrompt id body; mret (AnsPrompt r)
  end.

(** ** Review events *)

(** The cursor of a request: no cursor, a position, or the refusal; digits that are no integer throw. *)
Definition cursorPosition (cursor : option str) : result thrown (result string (option (Z * Z))) :=
  match cursor with
  | None => Ok (Ok None)
  | Some c =>
      match decodeCursor parseJSON utf8Text c with
      | None => Ok (Throw "invalid_cursor"%string)
      | Some (t, id) =>
          match parseDate t with
          | None => Ok (Throw "invalid_cursor"%string)
          | Some ms =>
              match BigIntOf id with
              | Some n => Ok (Ok (Some (ms, n)))
              | None => Throw (errorOf ("Cannot convert " ++ id ++ " to a BigInt"))
              end
          end
      end
  end.

(** Before the cursor: an earlier time, or the same time and a smaller id. *)
Definition beforeCursor (c : option (Z * Z)) (e : EventRow) : bool :=
  match c with
  | Some (ms, id) =>
      (ev_createdAt e <? storeDate ms)%Z || ((ev_createdAt e =? storeDate ms)%Z && (ev_id e <? id)%Z)
  | None => true
  end.

(** A bound parameter must fit the column's type. *)
Definition bindId (c : option (Z * Z)) : result thrown unit :=
  match c with
  | Some (_, id) => if (- 2 ^ 63 <=? id)%Z && (id <? 2 ^ 63)%Z then Ok tt
                    else Throw (errorOf "value is out of range for type bigint")
  | None => Ok tt
  end.

(** A page: one row more than asked for tells whether there is a next one. *)
Definition hasMore {A} (limit : number) (rows : list A) : bool := (floorZ limit <? Zlen rows)%Z.
Definition pageRows {A} (limit : number) (rows : list A) : list A :=
  if hasMore limit rows then take (Z.to_nat (floorZ limit)) rows else rows.
Definition nextCursorOf {A} (limit : number) (rows : list A) (event : A -> EventRow) : option str :=
  if hasMore limit rows
  then (fun r => encodeCursor isoOf (readDate (ev_createdAt (event r))) (ev_id (event r))) <$> last (pageRows limit rows)
  else None.

Definition reviewEventOf (repoId : str) (platform : VcsPlatform) (e : EventRow) : ReviewEvent :=
  {| re_id := showZ (ev_id e); re_repoId := repoId; re_repoName := ev_repo e; re_platform := platform;
     re_prNumber := ev_prNumber e; re_title := ev_jobId e; re_outcome := deriveOutcome (ev_abortReason e);
     re_costUsd := ev_costUsd e; re_durationMs := ev_latencyMs e; re_createdAt := shownAt (ev_createdAt e) |}.

(** [GET /repos/:id/reviews] *)
Definition repoReviews (id : str) (limitQ cursorQ : option str) : eff World thrown (Response ReviewsPage) :=
  w ← get;
  match activeRepo id (aw_repos w) with
  | None => mret (Fail 404 "not_found")
  | Some repo =>
      match reviewsQuerySchema isDatetime {| q_limit := limitQ; q_cursor := cursorQ; q_platform := None; q_outcome := None;
                                             q_repoQuery := None; q_since := None |} with
      | None => mret (Fail 422 "validation_error")
      | Some q =>
          position ← lift (cursorPosition (pq_cursor q));
          match position with
          | Throw e => mret (Fail 400 e)
          | Ok c =>
              lift (bindId c);;
              rows ← lift (limitRows (nadd (pq_limit q) (num_of_Z 1))
                        (merge_sort newestFirst
                           (events (fun e => bool_decide (ev_repo e = repo_name repo) && beforeCursor c e) w)));
              mret (Reply 200
                {| pg_items := map (reviewEventOf id (repo_platform repo)) (pageRows (pq_limit q) rows);
                   pg_nextCursor := nextCursorOf (pq_limit q) rows (fun e => e); pg_total := None |})
          end
      end
  end.

(** The registered repositories by name, a later row in place of an earlier one. *)
Definition repoByName (rs : list RepoRow) : jsmap (str * VcsPlatform) :=
  foldl (fun m r => mapSet (repo_name r) (repo_id r, repo_platform r) m) [] (List.filter isActive rs).

(** An event with its repository. *)
Definition RichRow : Type := EventRow * (str * VcsPlatform).

Definition richRows (byName : jsmap (str * VcsPlatform)) (rows : list EventRow) : list RichRow :=
  omap (fun e => pair e <$> mapGet (ev_repo e) byName) rows.

Definition keepsRow (platform : option VcsPlatform) (outcome : option Outcome) (r : RichRow) : bool :=
  match platform with Some p => bool_decide (r.2.2 = p) | None => true end
  && match outcome with Some o => bool_decide (deriveOutcome (ev_abortReason r.1) = o) | None => true end.

(** The start time; a date that is none is refused when it is bound. *)
Definition sinceDate (since : option str) (at_ : Z) : result thrown (option Z) :=
  match since with
  | Some s => match resolveSince parseDate s at_ with
              | Some ms => Ok (Some ms)
              | None => Throw (errorOf "Invalid time value")
              end
  | None => Ok None
  end.

(** What the search text and the start time ask of an event. *)
Definition matchesSince (since : option Z) (e : EventRow) : bool :=
  match since with Some ms => (storeDate ms <=? ev_createdAt e)%Z | None => true end.
Definition matchesRepoQuery (q : option str) (e : EventRow) : bool :=
  match q with
  | Some s => if bool_decide (trim s <> []) then bool_decide (ilike fold (ev_repo e) (containsPattern (trim s)) = Some true) else true
  | None => true
  end.
Definition matching (since : option Z) (q : option str) (e : EventRow) : bool := matchesSince since e && matchesRepoQuery q e.
Definition countedOutcome (outcome : option Outcome) (e : EventRow) : bool :=
  match outcome with
  | Some oc_failed => bool_decide (is_Some (ev_abortReason e))
  | Some _ => bool_decide (ev_abortReason e = None)
  | None => true
  end.

(** [GET /reviews] *)
Definition listReviews (query : ReviewsQuery) : eff World thrown (Response ReviewsPage) :=
  at_ ← clock;
  match reviewsQuerySchema isDatetime query with
  | None => mret (Fail 422 "validation_error")
  | Some q =>
      position ← lift (cursorPosition (pq_cursor q));
      match position with
      | Throw e => mret (Fail 400 e)
      | Ok c =>
          since ← lift (sinceDate (pq_since q) at_);
          lift (bindId c);;
          w ← get;
          rows ← lift (limitRows (nadd (pq_limit q) (num_of_Z 1))
                    (merge_sort newestFirst (events (fun e => beforeCursor c e && matching since (pq_repoQuery q) e) w)));
          let byName := if bool_decide (rows = []) then [] else repoByName (aw_repos w) in
          let filtered := List.filter (keepsRow (pq_platform q) (pq_outcome q)) (richRows byName rows) in
          let total := Zlen (events (fun e => matching since (pq_repoQuery q) e && countedOutcome (pq_outcome q) e) w) in
          mret (Reply 200
            {| pg_items := map (fun r => reviewEventOf r.2.1 r.2.2 r.1) (pageRows (pq_limit q) filtered);
               pg_nextCursor := nextCursorOf (pq_limit q) filtered fst; pg_total := Some total |})
      end
  end.

Definition buildExternalUrl (platform : VcsPlatform) (repoName : str) (prNumber : Z) : str :=
  match platform with
  | github => "https://github.com/" ++ repoName ++ "/pull/" ++ showZ prNumber
  | codecommit => "https://console.aws.amazon.com/codesuite/codecommit/repositories/" ++ repoName ++ "/pull-requests/"
                    ++ showZ prNumber ++ "?region=" ++ awsRegion
  end.

(** [GET /reviews/:id]; the repository is looked up by name, deleted ones too. *)
Definition getReview (idParam : str) : eff World thrown (Response ReviewEventDetail) :=
  match BigIntOf idParam with
  | None => mret (Fail 404 "not_found")
  | Some rowId =>
      lift (bindId (Some (0%Z, rowId)));;
      w ← get;
      match head (events (fun e => (ev_id e =? rowId)%Z) w) with
      | None => mret (Fail 404 "not_found")
      | Some row =>
          let repo := List.find (fun r => bool_decide (repo_name r = ev_repo row)) (aw_repos w) in
          let platform := default github (repo_platform <$> repo) in
          mret (Reply 200
            {| rd_event := reviewEventOf (default (ev_repo row) (repo_id <$> repo)) platform row;
               rd_summary := ev_abortReason row;
               rd_tokens := (ev_tokensInput row, ev_tokensOutput row, ev_tokensInput row + ev_tokensOutput row)%Z;
               rd_provider := ev_provider row; rd_model := ev_model row;
               rd_systemPromptAtReview := repo ≫= repo_systemPrompt;
               rd_externalUrl := buildExternalUrl platform (ev_repo row) (ev_prNumber row) |})
      end
  end.

(** ** The overview *)

Record DashboardOverview := { ov_totalRepos : Z; ov_reviewsMonth : Z; ov_queueDepth : Z; ov_costMtd : number }.

Definition startOfMonth (ms : Z) : Z := dateUTC (getUTCFullYear ms) (getUTCMonth ms) 1.

Definition overview : eff World thrown (Response DashboardOverview) :=
  at_ ← clock;
  w ← get;
  let start := storeDate (startOfMonth at_) in
  mret (Reply 200
    {| ov_totalRepos := Zlen (List.filter isActive (aw_repos w));
       ov_reviewsMonth := Zlen (events (fun e => (start <=? ev_createdAt e)%Z) w);
       ov_queueDepth := 0;
       ov_costMtd := sumCost (map cl_costUsd (List.filter (fun r => allows db (cl_installationId r) && (start <=? cl_createdAt r)%Z)
                                                (aw_ledger w))) |}).
End routes.

(** ** Integrations *)

Record IntegrationsEnv := {
  GITHUB_APP_ID : option str;
  GITHUB_APP_SLUG : option str;
  AWS_REGION : option str;
  REVIEW_AGENT_SNS_TOPIC_ARNS : option str;
  REVIEW_AGENT_FEEDBACK_ALLOWLIST : option str;
  ANTHROPIC_API_KEY : option str;
  OPENAI_API_KEY : option str;
  REVIEW_AGENT_PROVIDER : option str;
  REVIEW_AGENT_MODEL : option str;
  ANTHROPIC_MODEL : option str;
}.

Definition isPresent (v : option str) : bool :=
  match v with Some s => bool_decide (trim s <> []) | None => false end.

Definition maskId (v : str) : str := if (Zlen v <=? 4)%Z then "****" else take 4 v ++ "****".

Record GithubIntegration := { gi_configured : bool; gi_appId : option str; gi_appSlug : option str; gi_installationCount : Z }.
Record CodeCommitIntegration := { ci_configured : bool; ci_region : option str }.
Record LlmIntegration := { li_configured : bool; li_provider : option str; li_model : option str }.

(** The count of the installations a connection sees; an absent table or a failed query counts as
    none. *)
Definition installationCount (db : option Connection) (table : option (gmap Z InstallationRow)) : Z :=
  match db, table with
  | Some conn, Some t =>
      Zlen (List.filter (fun kv : Z * InstallationRow => allows conn kv.1 && bool_decide (in_suspendedAt kv.2 = None)) (map_to_list t))
  | _, _ => 0%Z
  end.

Definition buildGithubStatus (env : IntegrationsEnv) (db : option Connection) (table : option (gmap Z InstallationRow))
    : GithubIntegration :=
  let configured := isPresent (GITHUB_APP_ID env) in
  {| gi_configured := configured;
     gi_appId := if configured then maskId <$> GITHUB_APP_ID env else None;
     gi_appSlug := if isPresent (GITHUB_APP_SLUG env) then GITHUB_APP_SLUG env else None;
     gi_installationCount := installationCount db table |}.

Definition buildCodecommitStatus (env : IntegrationsEnv) : CodeCommitIntegration :=
  {| ci_configured := isPresent (AWS_REGION env) && isPresent (REVIEW_AGENT_SNS_TOPIC_ARNS env);
     ci_region := AWS_REGION env |}.

Definition buildLlmStatus (env : IntegrationsEnv) : LlmIntegration :=
  let hasAnthropic := isPresent (ANTHROPIC_API_KEY env) in
  let hasOpenAi := isPresent (OPENAI_API_KEY env) in
  let provider :=
    if isPresent (REVIEW_AGENT_PROVIDER env) then REVIEW_AGENT_PROVIDER env
    else if hasAnthropic then Some (js "anthropic")
    else if hasOpenAi then Some (js "openai") else None in
  let isAnthropic := bool_decide (provider = Some (js "anthropic")) in
  {| li_configured := hasAnthropic || hasOpenAi;
     li_provider := provider;
     li_model := if isPresent (REVIEW_AGENT_MODEL env) then REVIEW_AGENT_MODEL env
                 else if isAnthropic && isPresent (ANTHROPIC_MODEL env) then ANTHROPIC_MODEL env
                 else if isAnthropic then Some (js "claude-sonnet-4-5") else None |}.
