(* ===== verification/DashboardSpec.v ===== *)
(** * What the dashboard's routes guarantee

    The pages of a list put together, the registry as a map, and the two ways to a repository's last
    review. *)

From S2P Require Import Prelude JsNumber JsMap JsonTree Json Errors Schema NumberText Codec Queue Vcs Tenancy Cost.
From S2P Require Import CostLedger Cursor Dashboard.
From stdpp Require Import sorting.

(** ** The order of the events *)

#[export] Instance newestFirst_trans : Transitive newestFirst.
Proof. intros a b c. unfold newestFirst. lia. Qed.
#[export] Instance newestFirst_total : Total newestFirst.
Proof. intros a b. unfold newestFirst. lia. Qed.
#[export] Instance latestFirst_trans : Transitive latestFirst.
Proof. intros a b c. unfold latestFirst. lia. Qed.
#[export] Instance latestFirst_total : Total latestFirst.
Proof. intros a b. unfold latestFirst. lia. Qed.

Lemma StronglySorted_bfilter {A} (R : relation A) (f : A -> bool) l : StronglySorted R l -> StronglySorted R (List.filter f l).
Proof.
  induction 1 as [|x l _ IH Hx]; [constructor|]. cbn. destruct (f x); [|done]. constructor; [done|].
  rewrite Forall_forall in *. intros y [Hy _]%elem_of_bfilter. by apply Hx.
Qed.

Lemma bfilter_Permutation {A} (f : A -> bool) (l l' : list A) : l ≡ₚ l' -> List.filter f l ≡ₚ List.filter f l'.
Proof.
  induction 1 as [|x l l' _ IH|x y l|l1 l2 l3 _ IH1 _ IH2]; cbn; [done| | |by etrans].
  - destruct (f x); [by constructor|done].
  - destruct (f x), (f y); try done. by constructor.
Qed.

Lemma bfilter_true {A} (f : A -> bool) (l : list A) : (forall x, x ∈ l -> f x = true) -> List.filter f l = l.
Proof.
  induction l as [|x l IH]; intros H; [done|]. cbn. rewrite H by apply list_elem_of_here.
  f_equal. apply IH. intros y Hy. by apply H, list_elem_of_further.
Qed.

Lemma bfilter_false {A} (f : A -> bool) (l : list A) : (forall x, x ∈ l -> f x = false) -> List.filter f l = [].
Proof.
  induction l as [|x l IH]; intros H; [done|]. cbn. rewrite H by apply list_elem_of_here.
  apply IH. intros y Hy. by apply H, list_elem_of_further.
Qed.

(** Filtering and sorting commute where the order tells the elements apart. *)
Lemma merge_sort_bfilter {A} (R : relation A) `{!Transitive R, !Total R, forall x y, Decision (R x y)} (f : A -> bool) l :
  (forall x y, x ∈ l -> y ∈ l -> f x = true -> f y = true -> R x y -> R y x -> x = y) ->
  merge_sort R (List.filter f l) = List.filter f (merge_sort R l).
Proof.
  intros Hasym. apply (StronglySorted_unique_strong R).
  - intros x y Hx Hy. rewrite (merge_sort_Permutation R) in Hx. apply elem_of_bfilter in Hx as [Hx Hfx].
    apply elem_of_bfilter in Hy as [Hy Hfy]. rewrite (merge_sort_Permutation R) in Hy. by apply Hasym.
  - apply StronglySorted_merge_sort; apply _.
  - apply StronglySorted_bfilter, StronglySorted_merge_sort; apply _.
  - rewrite (merge_sort_Permutation R). apply bfilter_Permutation. by rewrite (merge_sort_Permutation R).
Qed.

Lemma bfilter_bfilter {A} (f g : A -> bool) (l : list A) :
  List.filter (fun x => g x && f x) l = List.filter f (List.filter g l).
Proof. induction l as [|x l IH]; [done|]. cbn. destruct (g x); cbn; [destruct (f x); by rewrite IH|done]. Qed.

Lemma NoDup_map_inj {A B} (f : A -> B) l x y : NoDup (map f l) -> x ∈ l -> y ∈ l -> f x = f y -> x = y.
Proof.
  induction l as [|z l IH]; cbn; [by intros _ ?%elem_of_nil|]. intros [Hz Hn]%NoDup_cons.
  assert (forall u, u ∈ l -> f u ∈ map f l) as Hin by (intros u ?; apply elem_of_bmap; by exists u).
  intros [->|Hx]%elem_of_cons [->|Hy]%elem_of_cons E; [done| | |by apply IH].
  - exfalso. apply Hz. rewrite E. by apply Hin.
  - exfalso. apply Hz. rewrite <- E. by apply Hin.
Qed.

Lemma newestFirst_bfilter (f : EventRow -> bool) es : NoDup (map ev_id es) ->
  merge_sort newestFirst (List.filter f es) = List.filter f (merge_sort newestFirst es).
Proof.
  intros Hn. apply merge_sort_bfilter; [apply _..|]. intros x y Hx Hy _ _ H1 H2.
  apply (NoDup_map_inj ev_id es); [done..|]. unfold newestFirst in *. lia.
Qed.

(** ** Positions *)

(** The position a cursor made at an event stands for. *)
Definition positionOf (e : EventRow) : Z * Z := (readDate (ev_createdAt e), ev_id e).

(** A time of a whole number of milliseconds. *)
Definition wholeMs (e : EventRow) : Prop := storeDate (readDate (ev_createdAt e)) = ev_createdAt e.

Lemma storeDate_readDate t : (storeDate (readDate t) <= t < storeDate (readDate t) + 1000)%Z.
Proof. unfold storeDate, readDate. pose proof (Z.div_mod t 1000 ltac:(lia)). pose proof (Z.mod_pos_bound t 1000 ltac:(lia)). lia. Qed.

(** What comes after an event's position comes after every position before it. *)
Lemma beforeCursor_trans c r e : beforeCursor c r = true -> beforeCursor (Some (positionOf r)) e = true ->
  beforeCursor c e = true.
Proof.
  destruct c as [[ms id]|]; [|done]. cbn. pose proof (storeDate_readDate (ev_createdAt r)).
  rewrite !orb_true_iff, !andb_true_iff, !Z.ltb_lt, !Z.eqb_eq. unfold storeDate, readDate in *. 
  intros [?|[? ?]] [?|[? ?]]; try lia.
Qed.

(** In a list of the newest first, the events after a position are the rest of the list. *)
Lemma filter_before l1 r l2 : StronglySorted newestFirst (l1 ++ r :: l2) -> NoDup (map ev_id (l1 ++ r :: l2)) -> wholeMs r ->
  List.filter (beforeCursor (Some (positionOf r))) (l1 ++ r :: l2) = l2.
Proof.
  intros Hs Hn Hw. rewrite List.filter_app. cbn [List.filter].
  assert (forall e, newestFirst e r -> beforeCursor (Some (positionOf r)) e = false) as Hold.
  { intros e He. cbn. rewrite Hw. apply orb_false_iff. rewrite andb_false_iff, !Z.ltb_ge, Z.eqb_neq.
    unfold newestFirst in He. lia. }
  assert (newestFirst r r) as Hr by (unfold newestFirst; lia). rewrite (Hold r Hr).
  rewrite (bfilter_false _ l1), bfilter_true; [done| |].
  - apply StronglySorted_app_1_r, StronglySorted_cons in Hs as [Hle _]. rewrite Forall_forall in Hle.
    rewrite map_app in Hn. apply NoDup_app in Hn as (_ & _ & Hn). cbn in Hn. apply NoDup_cons in Hn as [Hid _].
    intros e He. specialize (Hle e He). cbn. rewrite Hw.
    assert (ev_id e <> ev_id r) by (intros E; apply Hid; rewrite <- E; apply elem_of_bmap; by exists e).
    apply orb_true_iff. rewrite andb_true_iff, !Z.ltb_lt, Z.eqb_eq. unfold newestFirst in Hle. lia.
  - intros e He. apply Hold. eapply StronglySorted_app_1_elem_of; [exact Hs|done|apply list_elem_of_here].
Qed.

(** ** Following the cursors *)

(** A client that asks for pages until no cursor is left. *)
Fixpoint followPages {W} (fetch : option str -> eff W thrown (Response ReviewsPage)) (fuel : nat) (cursor : option str)
    : eff W thrown (option (list ReviewEvent)) :=
  match fuel with
  | O => mret None
  | S fuel =>
      r ← fetch cursor;
      match r with
      | Fail _ _ => mret None
      | Reply _ p =>
          match pg_nextCursor p with
          | None => mret (Some (pg_items p))
          | Some c => rest ← followPages fetch fuel (Some c); mret (app (pg_items p) <$> rest)
          end
      end
  end.

Definition smallLimit (n : nat) : bool :=
  let limit := num_of_Z (Z.of_nat n) in
  (floorZ limit =? Z.of_nat n)%Z && bool_decide (integerOf (nadd limit (num_of_Z 1)) = Some (Z.of_nat (S n))).

Lemma smallLimit_spec n : n <= 200 -> smallLimit n = true.
Proof.
  intros H. assert (forallb smallLimit (seq 0 201) = true) as Ha by (vm_compute; reflexivity).
  rewrite forallb_elem in Ha. apply Ha, elem_of_seq. lia.
Qed.

Lemma limit_of n : n <= 200 ->
  floorZ (num_of_Z (Z.of_nat n)) = Z.of_nat n /\
  forall A (l : list A), limitRows (nadd (num_of_Z (Z.of_nat n)) (num_of_Z 1)) l = Ok (take (S n) l).
Proof.
  intros H. pose proof (smallLimit_spec n H) as Hs. unfold smallLimit in Hs. apply andb_true_iff in Hs as [H1 H2]. to_prop.
  split; [done|]. intros A l. unfold limitRows. rewrite H2. by rewrite Nat2Z.id.
Qed.

(** A page cut from what is left: all of it, or its first rows and a cursor at the last of them. *)
Lemma pageRows_small {A} n (rest : list A) : n <= 200 -> length rest <= n ->
  hasMore (num_of_Z (Z.of_nat n)) (take (S n) rest) = false /\ pageRows (num_of_Z (Z.of_nat n)) (take (S n) rest) = rest.
Proof.
  intros H Hl. destruct (limit_of n H) as [Hf _]. unfold pageRows, hasMore. rewrite Hf, take_ge by lia. unfold Zlen.
  assert ((Z.of_nat n <? Z.of_nat (length rest))%Z = false) as -> by (apply Z.ltb_ge; lia). done.
Qed.

Lemma pageRows_full {A} n (rest : list A) : n <= 200 -> n < length rest ->
  hasMore (num_of_Z (Z.of_nat n)) (take (S n) rest) = true /\
  pageRows (num_of_Z (Z.of_nat n)) (take (S n) rest) = take n rest.
Proof.
  intros H Hl. destruct (limit_of n H) as [Hf _]. unfold pageRows, hasMore. rewrite Hf. unfold Zlen. rewrite length_take.
  assert ((Z.of_nat n <? Z.of_nat (S n `min` length rest))%Z = true) as -> by (apply Z.ltb_lt; lia).
  by rewrite Nat2Z.id, take_take, Nat.min_l by lia.
Qed.

Lemma take_last {A} n (l : list A) : 1 <= n -> n <= length l -> exists l1 x, take n l = l1 ++ [x] /\ last (take n l) = Some x.
Proof.
  intros H1 H2. assert (take n l <> []) as Hne by (intros E; apply (f_equal length) in E; rewrite length_take in E; cbn in E; lia).
  destruct (exists_last Hne) as (l1 & x & E). exists l1, x. by rewrite E, last_snoc.
Qed.

Lemma elem_of_take_in {A} n (l : list A) x : x ∈ take n l -> x ∈ l.
Proof. intros H. rewrite <- (take_drop n l). apply elem_of_app. by left. Qed.

(** A serial number, and a time since 1970. *)
Definition storable (e : EventRow) : Prop := (0 <= ev_id e < 2 ^ 63)%Z /\ (0 <= ev_createdAt e)%Z.

Section pages.
Context {X : Type} (db : Connection) (parseJSON : str -> option json) (utf8Text : str -> str) (isoOf : Z -> str)
        (parseDate : str -> option Z) (isDatetime : str -> bool).
Context (engine : CursorEngine parseJSON utf8Text isoOf) (dates : forall ms, (0 <= ms)%Z -> parseDate (isoOf ms) = Some ms).
Notation World := (ApiWorld X).
Notation cursorAt r := (encodeCursor isoOf (readDate (ev_createdAt r)) (ev_id r)).
Implicit Types (w : World) (repo : RepoRow).

Lemma events_and p q w : events db (fun e => p e && q e) w = List.filter q (events db p w).
Proof. unfold events. rewrite <- bfilter_bfilter. apply List.filter_ext. intros e. apply andb_assoc. Qed.

Lemma events_and_swap p q w : events db (fun e => p e && q e) w = List.filter p (events db q w).
Proof. rewrite <- events_and. unfold events. apply List.filter_ext. intros e. by rewrite (andb_comm (p e)). Qed.

Lemma NoDup_events p w : NoDup (map ev_id (aw_events w)) -> NoDup (map ev_id (events db p w)).
Proof. intros H. eapply sublist_NoDup; [exact H|]. apply (fmap_sublist ev_id), sublist_bfilter. Qed.

(** A cursor at an event is read back as its position. *)
Lemma cursorPosition_at r : storable r ->
  cursorPosition parseJSON utf8Text parseDate (Some (cursorAt r)) = Ok (Ok (Some (positionOf r))) /\
  bindId (Some (positionOf r)) = Ok tt.
Proof.
  intros [Hr Ht]. split.
  - unfold cursorPosition. rewrite (decodeCursor_encodeCursor _ _ _ _ _ engine), dates, BigIntOf_showZ; [done|lia|].
    by apply Z.div_pos.
  - cbn. assert ((- 2 ^ 63 <=? ev_id r)%Z = true) as -> by (apply Z.leb_le; lia).
    by assert ((ev_id r <? 2 ^ 63)%Z = true) as -> by (apply Z.ltb_lt; lia).
Qed.

(** The events of a repository, in the order of its pages. *)
Definition historyOf repo w : list EventRow :=
  merge_sort newestFirst (events db (fun e => bool_decide (ev_repo e = repo_name repo)) w).

(** A page of a repository's reviews after a position. *)
Definition repoPage (id : str) repo (n : nat) (c : option (Z * Z)) w : ReviewsPage :=
  let rows := take (S n) (List.filter (beforeCursor c) (historyOf repo w)) in
  {| pg_items := map (reviewEventOf isoOf id (repo_platform repo)) (pageRows (num_of_Z (Z.of_nat n)) rows);
     pg_nextCursor := nextCursorOf isoOf (num_of_Z (Z.of_nat n)) rows (fun e => e); pg_total := None |}.

Lemma repoReviews_page id limitQ cursorQ repo n c w :
  activeRepo id (aw_repos w) = Some repo -> NoDup (map ev_id (aw_events w)) ->
  limitSchema limitQ = num_of_Z (Z.of_nat n) -> n <= 200 ->
  cursorPosition parseJSON utf8Text parseDate cursorQ = Ok (Ok c) -> bindId c = Ok tt ->
  repoReviews db parseJSON utf8Text isoOf parseDate isDatetime id limitQ cursorQ w = (Ok (Reply 200 (repoPage id repo n c w)), w).
Proof.
  intros Ha Hn Hl Hn200 Hc Hb. unfold repoReviews, mbind, eff_bind, get, lift. rewrite Ha. cbn [reviewsQuerySchema optionalText q_platform q_outcome q_since mbind option_bind pq_cursor q_cursor].
  rewrite Hc, Hb. cbn [pq_limit q_limit]. rewrite Hl, events_and, newestFirst_bfilter by by apply NoDup_events.
  destruct (limit_of n Hn200) as [_ ->]. done.
Qed.

Notation fetchRepo id limitQ := (fun cursor => repoReviews db parseJSON utf8Text isoOf parseDate isDatetime id limitQ cursor).

(** From the position after [l1], the walk lists what is left. *)
Lemma follow_rest id limitQ repo n w fuel :
  activeRepo id (aw_repos w) = Some repo -> NoDup (map ev_id (aw_events w)) ->
  Forall (fun e => storable e /\ wholeMs e) (historyOf repo w) ->
  limitSchema limitQ = num_of_Z (Z.of_nat n) -> 1 <= n <= 200 ->
  forall c cursorQ l1 rest,
  cursorPosition parseJSON utf8Text parseDate cursorQ = Ok (Ok c) -> bindId c = Ok tt ->
  historyOf repo w = l1 ++ rest -> List.filter (beforeCursor c) (historyOf repo w) = rest ->
  length rest < fuel ->
  followPages (fetchRepo id limitQ) fuel cursorQ w = (Ok (Some (map (reviewEventOf isoOf id (repo_platform repo)) rest)), w).
Proof.
  intros Ha Hn Hall Hl [Hn1 Hn2]. assert (NoDup (map ev_id (historyOf repo w))) as HnL.
  { unfold historyOf. rewrite (Permutation_map ev_id (merge_sort_Permutation newestFirst _)). by apply NoDup_events. }
  assert (StronglySorted newestFirst (historyOf repo w)) as Hs by (apply StronglySorted_merge_sort; apply _).
  induction fuel as [|fuel IH]; intros c cursorQ l1 rest Hc Hb HL Hrest Hf; [lia|].
  cbn [followPages]. unfold mbind at 1, eff_bind at 1.
  rewrite (repoReviews_page id limitQ cursorQ repo n c w) by done. unfold repoPage. rewrite Hrest. cbn [pg_nextCursor pg_items].
  unfold nextCursorOf. destruct (decide (length rest <= n)) as [Hsm|Hbig].
  - destruct (pageRows_small n rest) as [-> ->]; [done|done|]. done.
  - destruct (pageRows_full n rest) as [-> ->]; [done|lia|].
    destruct (take_last n rest) as (l2 & r & Et & ->); [done|lia|]. cbn [fmap option_fmap option_map].
    assert (rest = l2 ++ r :: drop n rest) as Er by (rewrite <- (take_drop n rest) at 1; by rewrite Et, <- app_assoc).
    assert (historyOf repo w = (l1 ++ l2) ++ r :: drop n rest) as HL' by (by rewrite HL, Er, <- app_assoc at 1).
    assert (storable r /\ wholeMs r) as [Hid Hw].
    { rewrite Forall_forall in Hall. apply Hall. rewrite HL'. set_solver. }
    destruct (cursorPosition_at r Hid) as [Hcr Hbr].
    unfold mbind at 1, eff_bind at 1. rewrite (IH _ _ ((l1 ++ l2) ++ [r]) (drop n rest) Hcr Hbr).
    + unfold mret, eff_ret. cbn. by rewrite <- map_app, take_drop.
    + by rewrite <- app_assoc.
    + rewrite HL'. rewrite HL' in Hs, HnL. by apply filter_before.
    + rewrite length_drop. lia.
Qed.

(** What a walk from a position lists comes after the position. *)
Lemma follow_before id limitQ repo n w fuel :
  activeRepo id (aw_repos w) = Some repo -> NoDup (map ev_id (aw_events w)) ->
  Forall storable (historyOf repo w) ->
  limitSchema limitQ = num_of_Z (Z.of_nat n) -> 1 <= n <= 200 ->
  forall c cursorQ items w', cursorPosition parseJSON utf8Text parseDate cursorQ = Ok (Ok c) -> bindId c = Ok tt ->
  followPages (fetchRepo id limitQ) fuel cursorQ w = (Ok (Some items), w') ->
  exists es, items = map (reviewEventOf isoOf id (repo_platform repo)) es /\
    Forall (fun e => e ∈ historyOf repo w /\ beforeCursor c e = true) es.
Proof.
  intros Ha Hn Hall Hl [Hn1 Hn2]. induction fuel as [|fuel IH]; intros c cursorQ items w' Hc Hb H; [done|].
  cbn [followPages] in H. unfold mbind at 1, eff_bind at 1 in H.
  rewrite (repoReviews_page id limitQ cursorQ repo n c w) in H by done. cbn [repoPage pg_nextCursor pg_items] in H.
  set (rest := List.filter (beforeCursor c) (historyOf repo w)) in *.
  assert (forall e, e ∈ rest -> e ∈ historyOf repo w /\ beforeCursor c e = true) as Hrest by (intros e; apply elem_of_bfilter).
  clearbody rest. unfold nextCursorOf in H. destruct (decide (length rest <= n)) as [Hsm|Hbig].
  - destruct (pageRows_small n rest) as [E1 E2]; [done|done|]. rewrite E1, E2 in H. injection H as <- <-.
    exists rest. split; [done|]. by apply Forall_forall.
  - destruct (pageRows_full n rest) as [E1 E2]; [done|lia|]. rewrite E1, E2 in H.
    destruct (take_last n rest) as (l2 & r & Et & El); [done|lia|]. rewrite El in H. cbn [fmap option_fmap option_map] in H.
    assert (r ∈ rest) as Hr by (apply elem_of_take_in with n; rewrite Et; set_solver).
    destruct (Hrest r Hr) as [HrL Hrc]. rewrite Forall_forall in Hall. destruct (cursorPosition_at r (Hall r HrL)) as [Hcr Hbr].
    unfold mbind at 1, eff_bind at 1 in H.
    destruct (followPages _ fuel _ w) as [[[more|]|] w1] eqn:E; [|done|done]. injection H as <- <-.
    destruct (IH _ _ _ _ Hcr Hbr E) as (es & -> & Hes). exists (take n rest ++ es). rewrite map_app. split; [done|].
    apply Forall_app. split.
    + apply Forall_forall. intros e He. apply Hrest. by eapply elem_of_take_in.
    + eapply Forall_impl; [exact Hes|]. intros e [He Hb']. split; [done|]. by eapply beforeCursor_trans.
Qed.
End pages.

(** ** The filtered history *)

(** Whether an event passes: its repository is registered, and its platform and outcome are the
    ones asked for. *)
Definition shown (byName : jsmap (str * VcsPlatform)) (platform : option VcsPlatform) (outcome : option Outcome) (e : EventRow) : bool :=
  match mapGet (ev_repo e) byName with
  | Some rp => keepsRow platform outcome (e, rp)
  | None => false
  end.

Lemma richRows_shown byName platform outcome rows :
  map fst (List.filter (keepsRow platform outcome) (richRows byName rows)) = List.filter (shown byName platform outcome) rows.
Proof.
  unfold richRows. induction rows as [|e rows IH]; [done|]. cbn [omap list_omap List.filter]. unfold shown at 1.
  destruct (mapGet (ev_repo e) byName) as [rp|]; cbn [fmap option_fmap option_map]; [|done].
  cbn [List.filter]. destruct (keepsRow platform outcome (e, rp)); cbn [map fst]; by rewrite IH.
Qed.

Lemma pageRows_map {A B} (f : A -> B) limit rows : map f (pageRows limit rows) = pageRows limit (map f rows).
Proof. unfold pageRows, hasMore, Zlen. rewrite length_map. case_match; [symmetry; apply firstn_map|done]. Qed.

Lemma last_map {A B} (f : A -> B) (l : list A) : last (map f l) = f <$> last l.
Proof. induction l as [|x [|y l] IH]; done. Qed.

Lemma nextCursorOf_map {A} isoOf limit (rows : list A) (event : A -> EventRow) :
  nextCursorOf isoOf limit rows event = nextCursorOf isoOf limit (map event rows) (fun e => e).
Proof.
  unfold nextCursorOf. rewrite <- pageRows_map, last_map. unfold hasMore, Zlen. rewrite length_map.
  case_match; [|done]. by destruct (last _).
Qed.

Lemma bfilter_lt {A} (f : A -> bool) l x : x ∈ l -> f x = false -> length (List.filter f l) < length l.
Proof.
  induction l as [|y l IH]; [by intros ?%elem_of_nil|]. intros [->|Hx]%elem_of_cons Hf; cbn.
  - rewrite Hf. pose proof (length_filter_le f l). lia.
  - specialize (IH Hx Hf). destruct (f y); cbn; lia.
Qed.

(** ** The registry as a map

    What the routes promise: a map from ids to the repositories that are not deleted, and the set of
    the ids that were ever given. *)

Record Registry := { rg_active : gmap str RepoRow; rg_used : gset str }.

Section registry.
Context (isoOf : Z -> str) (lastOf : str -> option EventRow) (at_ : Z) (newId : str).

Definition withActive {A} (g : Registry) (id : str) (f : RepoRow -> Response A * Registry) : Response A * Registry :=
  match rg_active g !! id with Some row => f row | None => (Fail 404 "not_found", g) end.
Definition setActive (g : Registry) (m : gmap str RepoRow) : Registry := {| rg_active := m; rg_used := rg_used g |}.

Definition withBody {A B} (g : Registry) (schema : json -> option B) (body : option json) (f : B -> Response A * Registry)
    : Response A * Registry :=
  match body with
  | None => (Fail 400 "invalid JSON body", g)
  | Some v => match schema v with Some b => f b | None => (Fail 422 "validation_error", g) end
  end.

Definition answer {A} (c : Response A -> RegistryAnswer) (p : Response A * Registry) : result thrown RegistryAnswer * Registry :=
  (Ok (c p.1), p.2).

Definition specCreate (g : Registry) (body : option json) : result thrown RegistryAnswer * Registry :=
  match body with
  | None => (Ok (AnsSummary (Fail 400 "invalid JSON body")), g)
  | Some v =>
      match createRepoBodySchema v with
      | None => (Ok (AnsSummary (Fail 422 "validation_error")), g)
      | Some (platform, name) =>
          if bool_decide (newId ∈ rg_used g) then (Throw duplicateKey, g)
          else (Ok (AnsSummary (Reply 201 (summaryOf isoOf (newRepo newId platform name None at_) None))),
                {| rg_active := <[newId := newRepo newId platform name None at_]> (rg_active g);
                   rg_used := {[newId]} ∪ rg_used g |})
      end
  end.

Definition registryStep (req : RegistryRequest) (g : Registry) : result thrown RegistryAnswer * Registry :=
  match req with
  | GetRepo id => answer AnsDetail (withActive g id (fun row => (Reply 200 (detailOf isoOf row (lastOf (repo_name row))), g)))
  | CreateRepo body => specCreate g body
  | PatchRepo id body =>
      answer AnsSummary (withBody g patchRepoBodySchema body (fun enabled => withActive g id (fun row =>
        let row' := match enabled with Some b => setEnabled b at_ row | None => row end in
        (Reply 200 (summaryOf isoOf row' (lastOf (repo_name row'))), setActive g (<[id := row']> (rg_active g))))))
  | DeleteRepo id => answer AnsDone (withActive g id (fun _ => (Reply 204 tt, setActive g (delete id (rg_active g)))))
  | GetPrompt id => answer AnsPrompt (withActive g id (fun row => (Reply 200 (promptOf isoOf row), g)))
  | PutPrompt id body =>
      answer AnsPrompt (withActive g id (fun row => withBody g putPromptBodySchema body (fun text =>
        (Reply 200 {| pr_systemPrompt := default [] (storedPrompt text); pr_updatedAt := Some (isoOf at_) |},
         setActive g (<[id := setPrompt (storedPrompt text) at_ row]> (rg_active g))))))
  end.
End registry.

(** The rows of a registry; a row keeps the id it is found under. *)
Definition represents (rs : list RepoRow) (g : Registry) : Prop :=
  (forall id, rg_active g !! id = activeRepo id rs) /\ (forall id, id ∈ rg_used g <-> id ∈ map repo_id rs) /\
  NoDup (map repo_id rs).

Lemma activeRepo_spec id rs row : activeRepo id rs = Some row -> repo_id row = id /\ isActive row = true /\ row ∈ rs.
Proof. intros [Hin [H%bool_decide_eq_true Ha]%andb_true_iff]%List.find_some. apply list_elem_of_In in Hin. done. Qed.

Lemma activeRepo_app id rs row :
  activeRepo id (rs ++ [row]) = match activeRepo id rs with Some r => Some r | None => activeRepo id [row] end.
Proof. unfold activeRepo. induction rs as [|r rs IH]; [done|]. cbn [app List.find].
  destruct (_ && _); [done|exact IH]. Qed.

(** An update that keeps the id and leaves the row active changes that row and no other. *)
Lemma activeRepo_update id f rs id' :
  (forall r, repo_id (f r) = repo_id r /\ repo_deletedAt (f r) = repo_deletedAt r) ->
  activeRepo id' (updateRepo id f rs) = (if bool_decide (id = id') then f else fun r => r) <$> activeRepo id' rs.
Proof.
  intros Hf. unfold activeRepo, updateRepo. induction rs as [|r rs IH]; [done|]. cbn [map List.find].
  assert (isActive (f r) = isActive r) as Ha by (unfold isActive; by rewrite (proj2 (Hf r))).
  destruct (decide (repo_id r = id)) as [E|E].
  - rewrite (bool_decide_eq_true_2 _ E), (proj1 (Hf r)), Ha. destruct (_ && isActive r) eqn:E'; [|exact IH].
    apply andb_true_iff in E' as [E'%bool_decide_eq_true _]. by rewrite bool_decide_eq_true_2 by congruence.
  - rewrite (bool_decide_eq_false_2 _ E). destruct (_ && isActive r) eqn:E'; [|exact IH].
    apply andb_true_iff in E' as [E'%bool_decide_eq_true _]. by rewrite bool_decide_eq_false_2 by congruence.
Qed.

Lemma activeRepo_markDeleted id at_ rs id' :
  activeRepo id' (updateRepo id (markDeleted at_) rs) = if bool_decide (id = id') then None else activeRepo id' rs.
Proof.
  unfold activeRepo, updateRepo. induction rs as [|r rs IH]; [by case_bool_decide|]. cbn [map List.find].
  destruct (decide (repo_id r = id)) as [E|E].
  - rewrite (bool_decide_eq_true_2 _ E). change (isActive (markDeleted at_ r)) with false. rewrite andb_false_r, IH.
    case_bool_decide; [done|]. by rewrite bool_decide_eq_false_2 by congruence.
  - rewrite (bool_decide_eq_false_2 _ E). destruct (_ && isActive r) eqn:E'; [|exact IH].
    apply andb_true_iff in E' as [E'%bool_decide_eq_true _]. by rewrite bool_decide_eq_false_2 by congruence.
Qed.

Lemma map_id_update id f rs : (forall r, repo_id (f r) = repo_id r) -> map repo_id (updateRepo id f rs) = map repo_id rs.
Proof. intros Hf. unfold updateRepo. rewrite map_map. apply map_ext. intros r. case_bool_decide; [apply Hf|done]. Qed.

Lemma registry_update rs g id f row :
  represents rs g -> rg_active g !! id = Some row ->
  (forall r, repo_id (f r) = repo_id r /\ repo_deletedAt (f r) = repo_deletedAt r) ->
  represents (updateRepo id f rs) (setActive g (<[id := f row]> (rg_active g))).
Proof.
  intros (Ha & Hu & Hn) Hrow Hf. split_and!; cbn [rg_active rg_used setActive].
  - intros id'. rewrite activeRepo_update by done. destruct (decide (id = id')) as [<-|Hne].
    + rewrite lookup_insert_eq, bool_decide_eq_true_2 by done. by rewrite <- Ha, Hrow.
    + rewrite lookup_insert_ne, bool_decide_eq_false_2, Ha by done. by destruct (activeRepo id' rs).
  - intros id'. rewrite map_id_update by (intros; apply Hf). apply Hu.
  - by rewrite map_id_update by (intros; apply Hf).
Qed.

Lemma registry_delete rs g id at_ :
  represents rs g -> represents (updateRepo id (markDeleted at_) rs) (setActive g (delete id (rg_active g))).
Proof.
  intros (Ha & Hu & Hn). split_and!; cbn [rg_active rg_used setActive].
  - intros id'. rewrite activeRepo_markDeleted. case_bool_decide as E; [subst; apply lookup_delete_eq|].
    by rewrite lookup_delete_ne.
  - intros id'. rewrite map_id_update by done. apply Hu.
  - by rewrite map_id_update by done.
Qed.

Lemma registry_insert rs g row :
  represents rs g -> repo_id row ∉ rg_used g -> isActive row = true ->
  represents (rs ++ [row]) {| rg_active := <[repo_id row := row]> (rg_active g); rg_used := {[repo_id row]} ∪ rg_used g |}.
Proof.
  intros (Ha & Hu & Hn) Hnew Hact. split_and!; cbn [rg_active rg_used].
  - intros id. rewrite activeRepo_app. destruct (decide (repo_id row = id)) as [<-|Hne].
    + rewrite lookup_insert_eq. destruct (activeRepo (repo_id row) rs) eqn:E.
      * apply activeRepo_spec in E as (E & _ & Hin). exfalso. apply Hnew, Hu. rewrite <- E. apply elem_of_bmap. by exists r.
      * unfold activeRepo. cbn. by rewrite bool_decide_eq_true_2, Hact.
    + rewrite lookup_insert_ne, Ha by done. destruct (activeRepo id rs); [done|]. unfold activeRepo. cbn.
      by rewrite bool_decide_eq_false_2.
  - intros id. rewrite map_app, elem_of_app. cbn. rewrite elem_of_union, elem_of_singleton, Hu, elem_of_cons. set_solver.
  - rewrite map_app. apply NoDup_app. split_and!; [done| |apply NoDup_singleton].
    intros id Hin ->%list_elem_of_singleton. by apply Hnew, Hu.
Qed.

(** ** The last reviews *)

Lemma activeRepo_self rs r : NoDup (map repo_id rs) -> r ∈ rs -> isActive r = true -> activeRepo (repo_id r) rs = Some r.
Proof.
  intros Hn Hin Ha. destruct (activeRepo (repo_id r) rs) as [r'|] eqn:E.
  - apply activeRepo_spec in E as (Hid & _ & Hin'). f_equal. by apply (NoDup_map_inj repo_id rs).
  - unfold activeRepo in E. apply list_elem_of_In in Hin. pose proof (List.find_none _ _ E r Hin) as Hf. cbn in Hf.
    by rewrite bool_decide_eq_true_2, Ha in Hf.
Qed.

Lemma Forall2_map_self {A B} (P : A -> B -> Prop) (f : A -> B) l : (forall x, x ∈ l -> P x (f x)) -> Forall2 P l (map f l).
Proof.
  induction l as [|x l IH]; intros H; [constructor|]. constructor; [apply H, list_elem_of_here|].
  apply IH. intros y Hy. by apply H, list_elem_of_further.
Qed.

(** The Map of the first events answers with the first event of a repository. *)
Lemma latestByRepo_get es m name :
  mapGet name (foldl (fun m e => match mapGet (ev_repo e) m with Some _ => m | None => mapSet (ev_repo e) e m end) m es)
  = match mapGet name m with Some e => Some e | None => head (List.filter (fun e => bool_decide (ev_repo e = name)) es) end.
Proof.
  revert m. induction es as [|e es IH]; intros m; cbn [foldl List.filter]; [by destruct (mapGet name m)|]. rewrite IH.
  destruct (decide (ev_repo e = name)) as [<-|Hne].
  - rewrite bool_decide_eq_true_2 by done. destruct (mapGet (ev_repo e) m) eqn:E; [by rewrite E|].
    by rewrite mapGet_mapSet, bool_decide_eq_true_2.
  - rewrite bool_decide_eq_false_2 by done. destruct (mapGet (ev_repo e) m); [done|].
    by rewrite mapGet_mapSet, bool_decide_eq_false_2.
Qed.

(** One query over all repositories finds what a query for each would, where the instants tell a
    repository's events apart. *)
Lemma latest_is_lastEvent {X} db (names : list str) name (w : ApiWorld X) :
  name ∈ names ->
  (forall e e', e ∈ aw_events w -> e' ∈ aw_events w -> ev_repo e = ev_repo e' -> ev_createdAt e = ev_createdAt e' -> e = e') ->
  mapGet name (latestByRepo (merge_sort latestFirst (events db (fun e => bool_decide (ev_repo e ∈ names)) w))) = lastEvent db name w.
Proof.
  intros Hname Hinj. unfold latestByRepo, lastEvent. rewrite latestByRepo_get. cbn [mapGet List.find fmap option_fmap option_map].
  rewrite <- merge_sort_bfilter; try apply _.
  - do 2 f_equal. unfold events. rewrite <- bfilter_bfilter. apply List.filter_ext. intros e. rewrite <- andb_assoc. f_equal.
    apply eq_true_iff_eq. rewrite andb_true_iff, !bool_decide_eq_true. split; [tauto|]. intros ->. by split.
  - intros x y Hx Hy E1%bool_decide_eq_true E2%bool_decide_eq_true H1 H2. apply elem_of_bfilter in Hx as [Hx _].
    apply elem_of_bfilter in Hy as [Hy _]. apply Hinj; [done..|congruence|]. unfold latestFirst in *. lia.
Qed.

(** ** Properties *)

(** C29. Following the cursors of a repository's reviews ends and misses nothing: where every time is a
    whole number of milliseconds, the pages put together are the repository's events, each once,
    the newest first, whatever the page size and however many share an instant. *)
Theorem every_review_is_on_one_page {X} db parseJSON utf8Text isoOf parseDate isDatetime (w : ApiWorld X) id limitQ repo n fuel :
  CursorEngine parseJSON utf8Text isoOf -> (forall ms, (0 <= ms)%Z -> parseDate (isoOf ms) = Some ms) ->
  activeRepo id (aw_repos w) = Some repo -> NoDup (map ev_id (aw_events w)) ->
  Forall (fun e => storable e /\ wholeMs e) (aw_events w) ->
  limitSchema limitQ = num_of_Z (Z.of_nat n) -> 1 <= n <= 200 -> length (aw_events w) < fuel ->
  exists es,
    followPages (fun cursor => repoReviews db parseJSON utf8Text isoOf parseDate isDatetime id limitQ cursor) fuel None w
      = (Ok (Some (map (reviewEventOf isoOf id (repo_platform repo)) es)), w) /\
    es ≡ₚ events db (fun e => bool_decide (ev_repo e = repo_name repo)) w /\ StronglySorted newestFirst es.
Proof.
  intros He Hd Ha Hn Hall Hl Hn200 Hf. exists (historyOf db repo w). split_and!.
  - eapply follow_rest with (l1 := []); try done.
    + apply Forall_forall. intros e Hin. rewrite Forall_forall in Hall. apply Hall. unfold historyOf in Hin.
      rewrite (merge_sort_Permutation newestFirst) in Hin. by apply elem_of_bfilter in Hin as [? _].
    + by rewrite bfilter_true.
    + unfold historyOf. rewrite (Permutation_length (merge_sort_Permutation newestFirst _)).
      pose proof (length_filter_le (fun e => allows db (ev_installationId e) && bool_decide (ev_repo e = repo_name repo)) (aw_events w)).
      unfold events. lia.
  - apply merge_sort_Permutation.
  - apply StronglySorted_merge_sort; apply _.
Qed.

(** Times are stored to the microsecond and cursors cut them to the millisecond: once a page ends at
    an event, no later page shows another event of the same millisecond, unless that one falls on
    the millisecond's first instant. *)
Theorem reviews_of_the_cursor_millisecond_are_lost {X} db parseJSON utf8Text isoOf parseDate isDatetime (w : ApiWorld X) id limitQ repo n fuel
    r e items w' :
  CursorEngine parseJSON utf8Text isoOf -> (forall ms, (0 <= ms)%Z -> parseDate (isoOf ms) = Some ms) ->
  activeRepo id (aw_repos w) = Some repo -> NoDup (map ev_id (aw_events w)) -> Forall storable (aw_events w) ->
  limitSchema limitQ = num_of_Z (Z.of_nat n) -> 1 <= n <= 200 ->
  r ∈ aw_events w -> e ∈ aw_events w -> readDate (ev_createdAt e) = readDate (ev_createdAt r) -> ~ wholeMs e ->
  followPages (fun cursor => repoReviews db parseJSON utf8Text isoOf parseDate isDatetime id limitQ cursor) fuel
    (Some (encodeCursor isoOf (readDate (ev_createdAt r)) (ev_id r))) w = (Ok (Some items), w') ->
  showZ (ev_id e) ∉ map re_id items.
Proof.
  intros He Hd Ha Hn Hall Hl Hn200 Hr Hin Hms Hw Hrun. rewrite Forall_forall in Hall.
  destruct (cursorPosition_at _ _ _ _ He Hd r (Hall r Hr)) as [Hc Hb].
  eapply follow_before in Hrun as (es & -> & Hes); try done.
  - intros (i & Ei & Hi)%elem_of_bmap. apply elem_of_bmap in Hi as (e' & -> & He'). cbn in Ei. apply showZ_inj in Ei.
    rewrite Forall_forall in Hes. destruct (Hes e' He') as [HL Hbefore]. unfold historyOf in HL.
    rewrite (merge_sort_Permutation newestFirst) in HL. apply elem_of_bfilter in HL as [HL _].
    assert (e' = e) as -> by (by apply (NoDup_map_inj ev_id (aw_events w))).
    cbn in Hbefore. rewrite <- Hms in Hbefore. unfold wholeMs in Hw. pose proof (storeDate_readDate (ev_createdAt e)).
    apply orb_true_iff in Hbefore as [Hlt%Z.ltb_lt|[Heq%Z.eqb_eq _]%andb_true_iff]; lia.
  - apply Forall_forall. intros e' Hin'. apply Hall. unfold historyOf in Hin'.
    rewrite (merge_sort_Permutation newestFirst) in Hin'. by apply elem_of_bfilter in Hin' as [? _].
Qed.

(** A repository with four reviews, two of one instant; the third has a time of no whole number of
    milliseconds. *)
Definition demoRepo : RepoRow := newRepo "r1" github "acme/app" (Some 7%Z) 0.
Definition demoEvent (id createdAt : Z) (repo : str) : EventRow :=
  {| ev_id := id; ev_installationId := 7; ev_repo := repo; ev_prNumber := 1; ev_jobId := "job"; ev_abortReason := None;
     ev_costUsd := zero; ev_latencyMs := 5; ev_provider := "anthropic"; ev_model := "m"; ev_tokensInput := 1;
     ev_tokensOutput := 1; ev_createdAt := createdAt |}.
Definition demoWorld (es : list EventRow) : ApiWorld unit := Build_ApiWorld [demoRepo] es [] ∅ tt.
Definition demoAdmin : Connection := {| restricted := false; current_tenant := None |}.
Definition demoPages (es : list EventRow) (cursor : option str) :=
  followPages (fun cursor => repoReviews demoAdmin demoParse (fun s => s) showZ BigIntOf (fun _ => false) "r1" (Some (js "1")) cursor)
    9 cursor (demoWorld es).

Lemma demo_dates ms : (0 <= ms)%Z -> BigIntOf (showZ ms) = Some ms.
Proof. apply BigIntOf_showZ. Qed.

Definition tiedEvents : list EventRow :=
  [demoEvent 1 2000 "acme/app"; demoEvent 2 3000 "acme/app"; demoEvent 3 2000 "acme/app"; demoEvent 4 1000 "other"].

Lemma every_review_is_on_one_page_witness : exists es,
  demoPages tiedEvents None = (Ok (Some (map (reviewEventOf showZ "r1" github) es)), demoWorld tiedEvents) /\
  es ≡ₚ events demoAdmin (fun e => bool_decide (ev_repo e = "acme/app")) (demoWorld tiedEvents) /\ StronglySorted newestFirst es.
Proof.
  apply (every_review_is_on_one_page demoAdmin demoParse (fun s => s) showZ BigIntOf (fun _ => false) (demoWorld tiedEvents)
           "r1" (Some (js "1")) demoRepo 1 9).
  - exact demo_engine.
  - exact demo_dates.
  - reflexivity.
  - apply (bool_decide_unpack _). vm_compute. exact I.
  - repeat constructor; vm_compute; discriminate.
  - vm_compute. reflexivity.
  - lia.
  - cbn. lia.
Defined.

(** Two reviews of one millisecond: the second page is empty. *)
Definition closeEvents : list EventRow := [demoEvent 1 1000300 "acme/app"; demoEvent 2 1000700 "acme/app"].
Definition cursorAfter (e : EventRow) : str := encodeCursor showZ (readDate (ev_createdAt e)) (ev_id e).

Lemma reviews_of_the_cursor_millisecond_are_lost_witness :
  let r := demoEvent 2 1000700 "acme/app" in let e := demoEvent 1 1000300 "acme/app" in
  newestFirst r e /\ showZ (ev_id e) ∉ map re_id [].
Proof.
  intros r e. split; [left; vm_compute; reflexivity|].
  refine (reviews_of_the_cursor_millisecond_are_lost demoAdmin demoParse (fun s => s) showZ BigIntOf (fun _ => false) (demoWorld closeEvents)
           "r1" (Some (js "1")) demoRepo 1 9 r e [] (demoWorld closeEvents) demo_engine demo_dates _ _ _ _ _ _ _ _ _ _).
  - reflexivity.
  - apply (bool_decide_unpack _). vm_compute. exact I.
  - repeat constructor; vm_compute; discriminate.
  - vm_compute. reflexivity.
  - lia.
  - apply list_elem_of_further, list_elem_of_here.
  - apply list_elem_of_here.
  - reflexivity.
  - vm_compute. discriminate.
  - vm_compute. reflexivity.
Defined.

(** A page of the whole history is cut before it is filtered: the rows that are fetched are the next
    ones that match, one more than the page holds, and those of unregistered repositories, of other
    platforms and of other outcomes are dropped afterwards. When one of them is dropped the answer
    has no next cursor, however many reviews follow; otherwise the pages go on as they should. *)
Theorem one_hidden_review_ends_the_history {X} db now parseJSON utf8Text isoOf parseDate isDatetime fold (w : ApiWorld X) query q c since n :
  reviewsQuerySchema isDatetime query = Some q -> pq_limit q = num_of_Z (Z.of_nat n) -> 1 <= n <= 200 ->
  cursorPosition parseJSON utf8Text parseDate (pq_cursor q) = Ok (Ok c) -> bindId c = Ok tt ->
  sinceDate parseDate (pq_since q) (now (aw_ext w)) = Ok since -> NoDup (map ev_id (aw_events w)) ->
  let rest := List.filter (beforeCursor c) (merge_sort newestFirst (events db (matching fold since (pq_repoQuery q)) w)) in
  let passes := shown (repoByName (aw_repos w)) (pq_platform q) (pq_outcome q) in
  exists page,
    listReviews db now parseJSON utf8Text isoOf parseDate isDatetime fold query w = (Ok (Reply 200 page), w) /\
    map re_id (pg_items page) = map (fun e => showZ (ev_id e)) (take n (List.filter passes (take (S n) rest))) /\
    ((exists e, e ∈ take (S n) rest /\ passes e = false) -> pg_nextCursor page = None) /\
    ((forall e, e ∈ take (S n) rest -> passes e = true) ->
     pg_nextCursor page = if (n <? length rest)%nat
                          then (fun e => encodeCursor isoOf (readDate (ev_createdAt e)) (ev_id e)) <$> last (take n rest)
                          else None).
Proof.
  intros Hq Hl [Hn1 Hn2] Hc Hb Hs Hnd rest passes.
  set (byName := if bool_decide (take (S n) rest = []) then [] else repoByName (aw_repos w)).
  set (filtered := List.filter (keepsRow (pq_platform q) (pq_outcome q)) (richRows byName (take (S n) rest))).
  assert (map fst filtered = List.filter passes (take (S n) rest)) as Hf.
  { unfold filtered, byName. case_bool_decide as E; [by rewrite E|apply richRows_shown]. }
  assert (length filtered = length (List.filter passes (take (S n) rest))) as Hlen by (by rewrite <- Hf, length_map).
  destruct (limit_of n Hn2) as [Hfl Htake].
  eexists. split.
  { unfold listReviews, clock, mbind, eff_bind, get, lift, mret, eff_ret. rewrite Hq, Hc, Hs, Hb, Hl, Htake.
    rewrite (events_and_swap db (beforeCursor c)), newestFirst_bfilter by by apply NoDup_events. reflexivity. }
  cbn [pg_items pg_nextCursor]. fold rest byName filtered. split_and!.
  - transitivity (map (fun e => showZ (ev_id e)) (map fst (pageRows (num_of_Z (Z.of_nat n)) filtered))); [by rewrite !map_map|].
    rewrite pageRows_map, Hf. unfold pageRows, hasMore. rewrite Hfl. unfold Zlen.
    rewrite Nat2Z.id. case_match eqn:E; [done|]. apply Z.ltb_ge in E.
    by rewrite (take_ge (List.filter passes _)) by lia.
  - intros (e & He & Hp). unfold nextCursorOf, hasMore. rewrite Hfl. unfold Zlen.
    pose proof (bfilter_lt _ _ _ He Hp) as Hlt. rewrite length_take in Hlt.
    assert ((Z.of_nat n <? Z.of_nat (length filtered))%Z = false) as -> by (apply Z.ltb_ge; lia). done.
  - intros Hall. rewrite nextCursorOf_map.
    etransitivity; [exact (f_equal (fun l => nextCursorOf isoOf _ l (fun e => e)) Hf)|].
    cbn beta. rewrite (bfilter_true passes) by done. unfold nextCursorOf.
    destruct (decide (length rest <= n)) as [Hsm|Hbig].
    + destruct (pageRows_small n rest) as [-> _]; [done|done|].
      by assert ((n <? length rest)%nat = false) as -> by (apply Nat.ltb_ge; lia).
    + destruct (pageRows_full n rest) as [-> ->]; [done|lia|].
      by assert ((n <? length rest)%nat = true) as -> by (apply Nat.ltb_lt; lia).
Qed.

(** Three reviews, the newest of a repository that is no longer registered: a page of one shows the
    second review, and no cursor leads to the third. *)
Definition orphanEvents : list EventRow := [demoEvent 1 1000 "acme/app"; demoEvent 2 2000 "acme/app"; demoEvent 3 3000 "gone"].
Definition demoQuery : ReviewsQuery :=
  {| q_limit := Some (js "1"); q_cursor := None; q_platform := None; q_outcome := None; q_repoQuery := None; q_since := None |}.
Definition demoParsed : ParsedQuery :=
  {| pq_limit := num_of_Z 1; pq_cursor := None; pq_platform := None; pq_outcome := None; pq_repoQuery := None; pq_since := None |}.

Lemma one_hidden_review_ends_the_history_witness : exists page,
  listReviews demoAdmin (fun _ => 0%Z) demoParse (fun s => s) showZ BigIntOf (fun _ => false) lower_char demoQuery (demoWorld orphanEvents)
    = (Ok (Reply 200 page), demoWorld orphanEvents) /\
  map re_id (pg_items page) = [js "2"] /\ pg_nextCursor page = None.
Proof.
  destruct (one_hidden_review_ends_the_history demoAdmin (fun _ => 0%Z) demoParse (fun s => s) showZ BigIntOf (fun _ => false) lower_char
              (demoWorld orphanEvents) demoQuery demoParsed None None 1) as (page & Hrun & Hitems & Hend & _).
  - reflexivity.
  - reflexivity.
  - lia.
  - reflexivity.
  - reflexivity.
  - reflexivity.
  - apply (bool_decide_unpack _). vm_compute. exact I.
  - exists page. split; [exact Hrun|]. split; [exact Hitems|]. apply Hend.
    exists (demoEvent 3 3000 "gone"). split; [apply list_elem_of_here|vm_compute; reflexivity].
Defined.

(** C28. The registry's routes refine a map: on rows that represent a registry, each request is answered
    as the specification says - refused for an id that is not there or was deleted, or for a
    malformed body - and leaves rows that represent the specification's next registry. The other
    tables are untouched. *)
Theorem registry_is_a_map {X} db now generateId isoOf (w : ApiWorld X) g req :
  represents (aw_repos w) g ->
  let '(r, g') := registryStep isoOf (fun name => lastEvent db name w) (now (aw_ext w)) (generateId (aw_ext w)).1 req g in
  exists w', reposRouter db now generateId isoOf req w = (r, w') /\ represents (aw_repos w') g' /\
    aw_events w' = aw_events w /\ aw_ledger w' = aw_ledger w /\ aw_installations w' = aw_installations w.
Proof.
  intros Hrep. pose proof Hrep as (Ha & Hu & Hn).
  assert (forall id, activeRepo id (aw_repos w) = rg_active g !! id) as Ha' by done.
  destruct req as [id|body|id body|id|id|id body]; cbn [registryStep]; unfold answer, withActive, withBody, specCreate.
  - unfold reposRouter, getRepo, mbind, eff_bind, get. rewrite Ha'. destruct (rg_active g !! id); eexists; by split_and!.
  - unfold reposRouter, createRepo. destruct body as [v|]; [|by eexists]. destruct (createRepoBodySchema v) as [[p n]|]; [|by eexists].
    unfold clock, freshId, insertRepo. unfold mbind, eff_bind, get, mret, eff_ret.
    destruct (generateId (aw_ext w)) as [i x]. cbn [fst aw_repos newRepo repo_id]. destruct (decide (i ∈ rg_used g)) as [Hi|Hi].
    + rewrite !bool_decide_eq_true_2 by (done || by apply Hu). eexists. by split_and!.
    + rewrite !bool_decide_eq_false_2 by (done || by rewrite <- Hu). eexists. split; [reflexivity|].
      split_and!; [|done..]. cbn. by apply registry_insert.
  - unfold reposRouter, patchRepo. destruct body as [v|]; [|by eexists]. destruct (patchRepoBodySchema v) as [enabled|]; [|by eexists].
    unfold clock, setRepoRows, modify. unfold mbind, eff_bind, get, mret, eff_ret. rewrite Ha'.
    destruct (rg_active g !! id) as [row|] eqn:Er; [|by eexists]. destruct enabled as [b|].
    + cbn [aw_repos setRepos]. rewrite activeRepo_update, bool_decide_eq_true_2, Ha', Er by done. eexists. split; [reflexivity|].
      split_and!; [|done..]. by apply registry_update.
    + rewrite Ha', Er. eexists. split; [reflexivity|]. split_and!; [|done..]. cbn.
      rewrite insert_id by done. by destruct g.
  - unfold reposRouter, deleteRepo, clock, setRepoRows. unfold mbind, eff_bind, get, mret, eff_ret. rewrite Ha'.
    destruct (rg_active g !! id) as [row|] eqn:Er; [|by eexists]. eexists. split; [reflexivity|].
    split_and!; [|done..]. by apply registry_delete.
  - unfold reposRouter, getPrompt, mbind, eff_bind, get. rewrite Ha'. destruct (rg_active g !! id); eexists; by split_and!.
  - unfold reposRouter, putPrompt, clock, setRepoRows. unfold mbind, eff_bind, get, mret, eff_ret. rewrite Ha'.
    destruct (rg_active g !! id) as [row|] eqn:Er; [|by eexists].
    destruct body as [v|]; [|by eexists]. destruct (putPromptBodySchema v) as [text|]; [|by eexists].
    eexists. split; [reflexivity|]. split_and!; [|done..]. by apply registry_update.
Qed.

(** A prompt is set on the one repository of a registry. *)
Definition demoRegistry : Registry := {| rg_active := {[js "r1" := demoRepo]}; rg_used := {[js "r1"]} |}.
Definition promptBody : json := JsonTree.JObj [(js "systemPrompt", JsonTree.JStr "Be brief.")].

Lemma demo_represents : represents [demoRepo] demoRegistry.
Proof.
  split_and!.
  - intros id. cbn [rg_active demoRegistry]. unfold activeRepo. cbn [List.find]. destruct (decide (js "r1" = id)) as [<-|Hne].
    + by rewrite lookup_singleton_eq.
    + rewrite lookup_singleton_ne by done. by rewrite bool_decide_eq_false_2.
  - intros id. cbn [rg_used demoRegistry map]. rewrite elem_of_singleton, list_elem_of_singleton. done.
  - apply NoDup_singleton.
Qed.

Lemma registry_is_a_map_witness : exists w',
  reposRouter demoAdmin (fun _ => 5%Z) (fun x => (js "r2", x)) showZ (PutPrompt "r1" (Some promptBody)) (demoWorld [])
    = (Ok (AnsPrompt (Reply 200 {| pr_systemPrompt := "Be brief."; pr_updatedAt := Some (js "5") |})), w') /\
  represents (aw_repos w') {| rg_active := <[js "r1" := setPrompt (Some (js "Be brief.")) 5 demoRepo]> {[js "r1" := demoRepo]};
                              rg_used := {[js "r1"]} |}.
Proof.
  destruct (registry_is_a_map demoAdmin (fun _ => 5%Z) (fun x : unit => (js "r2", x)) showZ (demoWorld []) demoRegistry
              (PutPrompt "r1" (Some promptBody)) demo_represents) as (w' & Hrun & Hrep & _).
  exists w'. split; [exact Hrun|exact Hrep].
Defined.

(** The list of the repositories shows what the page of each shows: the two queries behind it give
    every active repository the summary of its own page, each once and by name. *)
Theorem the_list_agrees_with_the_pages {X} db isoOf (collate : relation str) `{!RelDecision collate, !Transitive collate, !Total collate}
    (w : ApiWorld X) :
  (forall e e', e ∈ aw_events w -> e' ∈ aw_events w -> ev_repo e = ev_repo e' -> ev_createdAt e = ev_createdAt e' -> e = e') ->
  NoDup (map repo_id (aw_repos w)) ->
  exists rs, rs ≡ₚ List.filter isActive (aw_repos w) /\ Sorted (orderByName collate) rs /\
    exists summaries, listRepos db collate isoOf w = (Ok (Reply 200 summaries), w) /\
      Forall2 (fun r s => exists d, getRepo db isoOf (repo_id r) w = (Ok (Reply 200 d), w) /\ dt_summary d = s) rs summaries.
Proof.
  intros Hinj Hn. set (rs := merge_sort (orderByName collate) (List.filter isActive (aw_repos w))).
  assert (rs ≡ₚ List.filter isActive (aw_repos w)) as Hp by apply merge_sort_Permutation. exists rs. split; [done|].
  assert (Total (orderByName collate)) as Ht by (intros a b; unfold orderByName; apply total; apply _).
  split; [apply Sorted_merge_sort; apply _|]. eexists. split; [reflexivity|]. fold rs.
  apply Forall2_map_self. intros r Hr. assert (repo_name r ∈ map repo_name rs) as Hname by (apply elem_of_bmap; by exists r).
  rewrite bool_decide_eq_false_2 by (intros E; rewrite E in Hname; by apply elem_of_nil in Hname).
  rewrite latest_is_lastEvent by done. rewrite Hp in Hr. apply elem_of_bfilter in Hr as [Hr Hact].
  exists (detailOf isoOf r (lastEvent db (repo_name r) w)). split; [|done].
  unfold getRepo, mbind, eff_bind, get. by rewrite activeRepo_self.
Qed.

(** Two repositories, by the order of their names' lengths; the second has no review. *)
Definition shorter (a b : str) : Prop := length a <= length b.
#[export] Instance shorter_dec : RelDecision shorter.
Proof. intros a b. unfold shorter. apply _. Defined.
#[export] Instance shorter_trans : Transitive shorter.
Proof. intros a b c. unfold shorter. lia. Qed.
#[export] Instance shorter_total : Total shorter.
Proof. intros a b. unfold shorter. lia. Qed.

Definition twoRepos : ApiWorld unit :=
  Build_ApiWorld [newRepo "r1" github "acme/app" None 0; newRepo "r2" codecommit "lib" None 0] closeEvents [] ∅ tt.
Lemma close_times e e' : e ∈ closeEvents -> e' ∈ closeEvents -> ev_createdAt e = ev_createdAt e' -> e = e'.
Proof.
  unfold closeEvents. rewrite !elem_of_cons, !elem_of_nil. intros [->|[->|[]]] [->|[->|[]]]; (done || by intros []).
Qed.

Lemma the_list_agrees_with_the_pages_witness : exists summaries,
  listRepos demoAdmin shorter showZ twoRepos = (Ok (Reply 200 summaries), twoRepos) /\ length summaries = 2.
Proof.
  destruct (the_list_agrees_with_the_pages demoAdmin showZ shorter twoRepos) as (rs & Hp & _ & ss & Hrun & Hall).
  - intros e e' He He' _. by apply close_times.
  - apply (bool_decide_unpack _). vm_compute. exact I.
  - exists ss. split; [exact Hrun|]. apply Forall2_length in Hall. rewrite <- Hall, Hp. vm_compute. reflexivity.
Defined.
