(* ===== verification/GithubSetup.v ===== *)
(** * Onboarding installations (server/src/api/github-repos.ts, api/middleware/multi-tenant-guard.ts,
    server/src/github-setup.ts)

    The list of an installation's repositories, their registration in bulk, and the two redirects of
    the App's installation, over the dashboard's tables. *)

From S2P Require Import Prelude JsNumber JsMap JsonTree Byok Errors Schema NumberText Codec Queue Vcs GithubAdapter Tenancy Dashboard.

(** ** The guard of the routes that take an installation id *)

Definition multiTenantGuard {W A} (multiTenant : bool) (next : eff W thrown (Response A)) : eff W thrown (Response A) :=
  if multiTenant then mret (Fail 501 "per_installation_authz_not_implemented") else next.

(** ** Registration in bulk *)

Record BulkRepoResult := { bk_created : list str; bk_alreadyExists : list str; bk_errors : list (str * str) }.

Definition MAX_BULK_NAMES : Z := 100.

(** The installation id, a positive safe integer, and the names. *)
Definition bulkRepoBodySchema (body : json) : option (Z * list str) :=
  match body with
  | JObj fields =>
      i ← at_ "installationId" (requiredR installationIdSchema) fields;
      names ← at_ "names" (requiredR (checked (fun l => (1 <=? Zlen l)%Z && (Zlen l <=? MAX_BULK_NAMES)%Z) (asArray (boundedText 1 200)))) fields;
      Some (i, names)
  | _ => None
  end.

(** [/^\d+$/] *)
Definition installationIdParamSchema (text : str) : option Z :=
  if bool_decide (text <> []) && forallb is_digit text then Some (digitsValue text) else None.

Definition unknownInstallation : thrown :=
  errorOf "insert or update on table repos violates foreign key constraint repos_installation_id_fkey".

Record InstallationRepoItem := { ri_id : Z; ri_fullName : str; ri_private : bool; ri_registered : bool }.

(** What [github-setup] asks of an installation. *)
Record InstallationInfo := { ii_accountLogin : str; ii_accountType : str; ii_appId : Z }.

Section routes.
Context {X : Type} (db : Connection) (now dbNow : X -> Z) (generateId : X -> str * X) (messageOf : thrown -> str).
Notation World := (ApiWorld X).

Definition onExt {A} (m : eff X thrown A) : eff World thrown A := fun w =>
  let '(r, x) := m (aw_ext w) in (r, Build_ApiWorld (aw_repos w) (aw_events w) (aw_ledger w) (aw_installations w) x).

(** [INSERT INTO repos] with an installation: its row must exist. *)
Definition insertInstallationRepo (installationId : Z) (row : RepoRow) : eff World thrown unit :=
  w ← get;
  match aw_installations w !! installationId with
  | Some _ => insertRepo row
  | None => throw unknownInstallation
  end.

(** One name after another; the names that exist were read before the loop. *)
Fixpoint bulkLoop (installationId at_ : Z) (existing : list str) (names : list str) : eff World thrown BulkRepoResult :=
  match names with
  | [] => mret {| bk_created := []; bk_alreadyExists := []; bk_errors := [] |}
  | name :: rest =>
      if bool_decide (name ∈ existing) then
        r ← bulkLoop installationId at_ existing rest;
        mret {| bk_created := bk_created r; bk_alreadyExists := name :: bk_alreadyExists r; bk_errors := bk_errors r |}
      else
        o ← tryCatch
              (id ← freshId generateId;
               withTenant db installationId (fun _ =>
                 insertInstallationRepo installationId (newRepo id github name (Some installationId) at_));;
               mret None)
              (fun err => mret (Some (messageOf err)));
        r ← bulkLoop installationId at_ existing rest;
        mret match o with
             | None => {| bk_created := name :: bk_created r; bk_alreadyExists := bk_alreadyExists r; bk_errors := bk_errors r |}
             | Some m => {| bk_created := bk_created r; bk_alreadyExists := bk_alreadyExists r; bk_errors := (name, m) :: bk_errors r |}
             end
  end.

Definition bulkStatus (r : BulkRepoResult) : Z :=
  if bool_decide (bk_errors r = []) && bool_decide (bk_alreadyExists r = []) && bool_decide (bk_created r <> []) then 201%Z
  else if bool_decide (bk_errors r = []) && bool_decide (bk_created r = []) then 200%Z
  else 207%Z.

Definition existingNames (names : list str) (w : World) : list str :=
  map repo_name (List.filter (fun r => bool_decide (repo_name r ∈ names) && isActive r) (aw_repos w)).

(** [POST /repos/bulk] *)
Definition bulkRepos (body : option json) : eff World thrown (Response BulkRepoResult) :=
  match body with
  | None => mret (Fail 400 "invalid JSON body")
  | Some v =>
      match bulkRepoBodySchema v with
      | None => mret (Fail 422 "validation_error")
      | Some (installationId, names) =>
          at_ ← clock now;
          w ← get;
          r ← bulkLoop installationId at_ (existingNames names w) names;
          mret (Reply (bulkStatus r) r)
      end
  end.

(** ** The repositories of an installation *)

(** The App's client: a token, and the listing with it. *)
Record AppAuthDeps := { ad_token : Z -> eff X thrown str; ad_octokit : str -> Octokit X }.

(** [SELECT ... WHERE installation_id = ...] in the tenant's transaction; a failure counts as no row. *)
Definition selectInstallation (installationId : Z) : eff World thrown (option InstallationRow) :=
  tryCatch
    (withTenant db installationId (fun tx =>
       w ← get; mret (if allows tx installationId then aw_installations w !! installationId else None)))
    (fun _ => mret None).

Definition accessibleRepos (appAuth : option AppAuthDeps) (param : str) : eff World thrown (Response (list InstallationRepoItem)) :=
  match appAuth with
  | None => mret (Fail 503 "github_app_not_configured")
  | Some deps =>
      match installationIdParamSchema param with
      | None => mret (Fail 422 "validation_error")
      | Some installationId =>
          installation ← selectInstallation installationId;
          match installation with
          | Some {| in_suspendedAt := None |} =>
              listed ← tryCatch
                (token ← onExt (ad_token deps installationId);
                 l ← onExt (listInstallationRepos (ad_octokit deps token) installationId);
                 mret (Some l))
                (fun _ => mret None);
              match listed with
              | None => mret (Fail 502 "github_api_error")
              | Some githubRepos =>
                  w ← get;
                  let registered := existingNames (map ir_fullName githubRepos) w in
                  mret (Reply 200 (map (fun r => {| ri_id := ir_id r; ri_fullName := ir_fullName r; ri_private := ir_private r;
                                                    ri_registered := bool_decide (ir_fullName r ∈ registered) |}) githubRepos))
              end
          | _ => mret (Fail 404 "not_found")
          end
      end
  end.

(** ** The installation redirects *)

Inductive CookieAction := CookieKept | CookieSet (value : str) | CookieDeleted.

Inductive SetupAnswer :=
  | Redirect (cookie : CookieAction) (location : str)
  | SetupFail (status : Z) (error : string).

Definition installRedirect (randomUUID : X -> str * X) (githubAppSlug dashboardOrigin : option str) : eff World thrown SetupAnswer :=
  match truthyStr githubAppSlug, truthyStr dashboardOrigin with
  | Some slug, Some _ =>
      state ← freshId randomUUID;
      mret (Redirect (CookieSet state) ("https://github.com/apps/" ++ slug ++ "/installations/new?state=" ++ state))
  | _, _ => mret (SetupFail 503 "github_app_not_configured")
  end.

Inductive SetupAction := sa_install | sa_update | sa_request.
#[export] Instance SetupAction_eq : EqDecision SetupAction.
Proof. solve_decision. Defined.
Definition setupAction_str (a : SetupAction) : str :=
  match a with sa_install => "install" | sa_update => "update" | sa_request => "request" end.

Record SetupQuery := { sq_installation_id : option str; sq_setup_action : option str; sq_state : option str }.

Definition setupQuerySchema (q : SetupQuery) : option (option str * SetupAction * str) :=
  i ← match sq_installation_id q with
      | None => Some None
      | Some t => if bool_decide (t <> []) && forallb is_digit t then Some (Some t) else None
      end;
  a ← (t ← sq_setup_action q; mapGet t (map (fun a => (setupAction_str a, a)) [sa_install; sa_update; sa_request]));
  s ← (t ← sq_state q; if bool_decide (t <> []) then Some t else None);
  Some (i, a, s).

(** [INSERT ... ON CONFLICT (installation_id) DO UPDATE], on the tenant's connection. *)
Definition upsertInstallation (tx : Connection) (installationId : Z) (info : InstallationInfo) (action : SetupAction)
    : eff World thrown unit :=
  w ← get;
  if (2 ^ 63 <=? installationId)%Z then throw (errorOf "value is out of range for type bigint")
  else if allows tx installationId then
    let old := aw_installations w !! installationId in
    modify (fun w =>
      Build_ApiWorld (aw_repos w) (aw_events w) (aw_ledger w)
        (<[installationId :=
            {| in_installationId := installationId; in_accountLogin := ii_accountLogin info; in_accountType := ii_accountType info;
               in_appId := ii_appId info; in_setupAction := setupAction_str action; in_suspendedAt := old ≫= in_suspendedAt;
               in_createdAt := match old with Some r => in_createdAt r | None => dbNow (aw_ext w) end;
               in_updatedAt := storeDate (now (aw_ext w)) |}]> (aw_installations w)) (aw_ext w))
  else throw (policyError "github_installations").

Definition noInfo : InstallationInfo := {| ii_accountLogin := []; ii_accountType := []; ii_appId := 0 |}.

Record GithubRouterDeps := {
  gr_dashboardOrigin : option str;
  gr_fetchInstallation : option (Z -> eff X thrown InstallationInfo);
}.

Definition toDashboard (deps : GithubRouterDeps) (path : string) : str := default [] (gr_dashboardOrigin deps) ++ path.

(** The App's API, when its client is there. *)
Definition fetchInfo (deps : GithubRouterDeps) (installationId : Z) : eff World thrown InstallationInfo :=
  match gr_fetchInstallation deps with Some fetch => onExt (fetch installationId) | None => mret noInfo end.

(** [GET /github/setup], with the state cookie of the request. *)
Definition setup (deps : GithubRouterDeps) (q : SetupQuery) (cookieState : option str) : eff World thrown SetupAnswer :=
  match setupQuerySchema q with
  | None => mret (Redirect CookieKept (toDashboard deps "/integrations?error=validation_error"))
  | Some (installation_id, action, state) =>
      match truthyStr cookieState with
      | None => mret (Redirect CookieDeleted (toDashboard deps "/integrations?error=missing_state_cookie"))
      | Some expected =>
          if negb (bool_decide (state = expected))
          then mret (Redirect CookieDeleted (toDashboard deps "/integrations?error=state_mismatch"))
          else if bool_decide (action = sa_request)
          then mret (Redirect CookieDeleted (toDashboard deps "/integrations/github?error=pending_admin_approval"))
          else
              match installation_id with
              | None => mret (Redirect CookieDeleted (toDashboard deps "/integrations?error=setup_failed"))
              | Some text =>
                  let id := digitsValue text in
                  tryCatch
                    (info ← fetchInfo deps id;
                     withTenant db id (fun tx => upsertInstallation tx id info action);;
                     mret (Redirect CookieDeleted (toDashboard deps "/integrations/github/repos?installation_id=" ++ text)))
                    (fun _ => mret (Redirect CookieDeleted (toDashboard deps "/integrations?error=setup_failed")))
              end
      end
  end.
End routes.

(** ** Lemmas *)

Section lemmas.
Context {X : Type} (db : Connection) (now dbNow : X -> Z) (generateId : X -> str * X) (messageOf : thrown -> str).
Notation World := (ApiWorld X).

(** What registration leaves alone. *)
Definition sameOthers (w w' : World) : Prop :=
  aw_events w' = aw_events w /\ aw_ledger w' = aw_ledger w /\ aw_installations w' = aw_installations w.

(** A row written by a registration. *)
Definition registeredRow (installationId : Z) (r : RepoRow) : Prop :=
  repo_installationId r = Some installationId /\ repo_platform r = github /\ repo_enabled r = true /\ isActive r = true.

Definition unknown (existing : list str) (name : str) : bool := negb (bool_decide (name ∈ existing)).
Definition known (existing : list str) (name : str) : bool := bool_decide (name ∈ existing).

(** One insertion adds its row or fails and adds nothing. *)
Lemma tryInsert_spec i at_ name (w : World) : exists o w',
  tryCatch
    (id ← freshId generateId;
     withTenant db i (fun _ => insertInstallationRepo i (newRepo id github name (Some i) at_));;
     mret None)
    (fun err => mret (Some (messageOf err))) w = (Ok o, w') /\ sameOthers w w' /\
  match o with
  | None => exists row, aw_repos w' = aw_repos w ++ [row] /\ repo_name row = name /\ registeredRow i row
  | Some _ => aw_repos w' = aw_repos w
  end.
Proof.
  unfold tryCatch, freshId, withTenant, insertInstallationRepo, insertRepo, setRepoRows, modify, throw.
  unfold mbind, eff_bind, get, mret, eff_ret.
  destruct (generateId (aw_ext w)) as [id x].
  destruct (bool_decide (showZ i <> []) && forallb is_digit (showZ i)); [|eexists _, _; by split_and!].
  cbn [aw_installations]. destruct (aw_installations w !! i); [|eexists _, _; by split_and!].
  case_bool_decide; eexists _, _; (split; [reflexivity|]); [by split_and!|].
  split; [by split_and!|]. eexists. split; [reflexivity|]. by split_and!.
Qed.

Lemma bulkLoop_spec i at_ existing names (w : World) : exists r w',
  bulkLoop db generateId messageOf i at_ existing names w = (Ok r, w') /\ sameOthers w w' /\
  bk_alreadyExists r = List.filter (known existing) names /\
  bk_created r ++ map fst (bk_errors r) ≡ₚ List.filter (unknown existing) names /\
  exists new, aw_repos w' = aw_repos w ++ new /\ map repo_name new = bk_created r /\ Forall (registeredRow i) new.
Proof.
  revert w. induction names as [|name names IH]; intros w.
  { eexists _, w. split; [reflexivity|]. split_and!; try done. exists []. by rewrite app_nil_r. }
  cbn [bulkLoop List.filter]. unfold known at 1, unknown at 1. case_bool_decide as E; cbn [negb].
  - destruct (IH w) as (r & w' & Hrun & Ho & Ha & Hc & new & Hn). unfold mbind, eff_bind. rewrite Hrun.
    eexists _, w'. split; [reflexivity|]. split_and!; cbn; [apply Ho..|by rewrite Ha|done|]. by exists new.
  - destruct (tryInsert_spec i at_ name w) as (o & w1 & Hrun1 & (Ho1 & Ho2 & Ho3) & Hins).
    unfold mbind at 1, eff_bind at 1. rewrite Hrun1.
    destruct (IH w1) as (r & w' & Hrun & (Hp1 & Hp2 & Hp3) & Ha & Hc & new & Hn & Hnames & Hnew).
    unfold mbind at 1, eff_bind at 1. rewrite Hrun. eexists _, w'. split; [reflexivity|].
    split; [split_and!; congruence|]. destruct o as [m|]; cbn [bk_alreadyExists bk_created bk_errors map fst app].
    + split_and!; [done| |]. { rewrite <- Permutation_middle. by rewrite Hc. }
      exists new. by rewrite Hn, Hins.
    + destruct Hins as (row & Hrow & Hname & Hreg). split_and!; [done|by rewrite Hc|].
      exists (row :: new). rewrite Hn, Hrow, <- app_assoc. cbn. split_and!; [done|by rewrite Hname, Hnames|by constructor].
Qed.

(** When every name exists, a registration only says so. *)
Lemma bulkLoop_known i at_ existing names (w : World) : Forall (fun n => n ∈ existing) names ->
  bulkLoop db generateId messageOf i at_ existing names w
  = (Ok {| bk_created := []; bk_alreadyExists := names; bk_errors := [] |}, w).
Proof.
  induction 1 as [|name names Hin _ IH]; [done|]. cbn [bulkLoop]. rewrite bool_decide_eq_true_2 by done.
  unfold mbind, eff_bind. by rewrite IH.
Qed.

Lemma filter_split {A} (f : A -> bool) l : List.filter f l = [] <-> List.filter (fun x => negb (f x)) l = l.
Proof.
  split.
  - intros H. apply bfilter_all. pose proof (filter_negb_length f l). rewrite H in *. cbn in *. lia.
  - intros H. pose proof (filter_negb_length f l) as Hl. rewrite H in Hl. destruct (List.filter f l); [done|cbn in Hl; lia].
Qed.

Lemma elem_of_existingNames names name (w : World) :
  name ∈ existingNames names w <-> name ∈ names /\ exists r, r ∈ aw_repos w /\ repo_name r = name /\ isActive r = true.
Proof.
  unfold existingNames. rewrite elem_of_bmap. setoid_rewrite elem_of_bfilter. setoid_rewrite andb_true_iff.
  setoid_rewrite bool_decide_eq_true. naive_solver.
Qed.
End lemmas.

Lemma bulkRepoBodySchema_names body i names : bulkRepoBodySchema body = Some (i, names) -> names <> [].
Proof.
  unfold bulkRepoBodySchema. destruct body; try done. unfold mbind, option_bind.
  destruct (at_ "installationId" _ fields) as [i'|]; [|done].
  destruct (at_ "names" _ fields) as [l|] eqn:E; [|done]. intros [= <- <-] ->.
  unfold at_, requiredR in E. destruct (mapGet "names" fields) as [v|]; [|done]. cbn in E. unfold checked, mbind, option_bind in E.
  destruct (asArray _ v) as [l|]; [|done]. destruct (_ && _) eqn:Et; [|done]. injection E as ->. done.
Qed.

(** The status by what there is to report. *)
Lemma bulkStatus_cases r :
  bulkStatus r = match bk_errors r, bk_alreadyExists r, bk_created r with
                 | [], [], _ :: _ => 201%Z
                 | [], _, [] => 200%Z
                 | _, _, _ => 207%Z
                 end.
Proof. unfold bulkStatus. by destruct (bk_errors r), (bk_alreadyExists r), (bk_created r). Qed.

(** ** Properties *)

(** A registration in bulk accounts for every name of its request: those that were registered are
    reported so, in order, and each of the others is created or reported with its error - a name
    given twice is created twice. One row per created name is appended, of the request's
    installation, and nothing else changes. The status tells the outcomes apart, and after a run
    without errors the same request writes nothing and reports every name as registered. *)
Theorem bulk_accounts_for_every_name {X} db now generateId messageOf body i names (w : ApiWorld X) :
  bulkRepoBodySchema body = Some (i, names) ->
  let old := existingNames names w in
  exists st r w', bulkRepos db now generateId messageOf (Some body) w = (Ok (Reply st r), w') /\
    bk_alreadyExists r = List.filter (known old) names /\
    bk_created r ++ map fst (bk_errors r) ≡ₚ List.filter (unknown old) names /\
    (exists new, aw_repos w' = aw_repos w ++ new /\ map repo_name new = bk_created r /\ Forall (registeredRow i) new) /\
    sameOthers w w' /\
    (st = 201%Z <-> bk_created r ≡ₚ names) /\ (st = 200%Z <-> bk_alreadyExists r = names) /\
    (bk_errors r = [] -> bulkRepos db now generateId messageOf (Some body) w'
       = (Ok (Reply 200 {| bk_created := []; bk_alreadyExists := names; bk_errors := [] |}), w')).
Proof.
  intros Hb old. pose proof (bulkRepoBodySchema_names _ _ _ Hb) as Hne.
  destruct (bulkLoop_spec db generateId messageOf i (now (aw_ext w)) old names w) as (r & w' & Hrun & Ho & Ha & Hc & Hnew).
  assert (length (bk_alreadyExists r) + (length (bk_created r) + length (bk_errors r)) = length names) as Hlen.
  { rewrite Ha, <- (filter_negb_length (known old) names). f_equal.
    rewrite <- (length_map fst (bk_errors r)), <- length_app. by rewrite Hc. }
  exists (bulkStatus r), r, w'. split_and!; try done.
  - unfold bulkRepos, clock. unfold mbind, eff_bind, get, mret, eff_ret. rewrite Hb. fold old. by rewrite Hrun.
  - rewrite bulkStatus_cases. split.
    + destruct (bk_errors r) eqn:E1; [|done]. destruct (bk_alreadyExists r) eqn:E2; [|by destruct (bk_created r)].
      intros _. rewrite app_nil_r in Hc. rewrite Hc. symmetry in Ha. apply filter_split in Ha.
      change (fun x => negb (known old x)) with (unknown old) in Ha. by rewrite Ha.
    + intros Hp%Permutation_length. destruct (bk_errors r); [|cbn in *; lia]. destruct (bk_alreadyExists r); [|cbn in *; lia].
      destruct (bk_created r); [by destruct names|done].
  - rewrite bulkStatus_cases. split.
    + destruct (bk_errors r) eqn:E1; [|done]. destruct (bk_created r) eqn:E3; [|by destruct (bk_alreadyExists r)].
      intros _. rewrite Ha. apply bfilter_all. rewrite <- Ha. cbn in Hlen. lia.
    + intros E. rewrite E in *. destruct (bk_errors r); [|cbn in Hlen; lia]. destruct (bk_created r); [|cbn in Hlen; lia].
      by destruct names.
  - intros He. unfold bulkRepos, clock. unfold mbind, eff_bind, get, mret, eff_ret. rewrite Hb.
    rewrite (bulkLoop_known db generateId messageOf).
    + rewrite bulkStatus_cases. cbn. by destruct names.
    + apply Forall_forall. intros n Hin. apply elem_of_existingNames. split; [done|].
      destruct Hnew as (new & -> & Hnames & Hreg). destruct (decide (n ∈ old)) as [Hold|Hold].
      * apply elem_of_existingNames in Hold as (_ & row & Hrow & ? & ?). exists row. set_solver.
      * assert (n ∈ bk_created r) as Hcr.
        { rewrite He, app_nil_r in Hc. rewrite Hc. apply elem_of_bfilter. split; [done|]. unfold unknown. by rewrite bool_decide_eq_false_2. }
        rewrite <- Hnames in Hcr. apply elem_of_bmap in Hcr as (row & -> & Hrow). exists row.
        rewrite Forall_forall in Hreg. destruct (Hreg row Hrow) as (_ & _ & _ & ?). set_solver.
Qed.

(** Two new names and one that exists, for a stored installation. *)
Definition bulkBody : json :=
  JObj [(js "installationId", JNum (num_of_Z 7)); (js "names", JArr [JStr "acme/app"; JStr "acme/lib"; JStr "acme/web"])].
Definition demoInstallation : InstallationRow :=
  {| in_installationId := 7; in_accountLogin := "acme"; in_accountType := "Organization"; in_appId := 1; in_setupAction := "install";
     in_suspendedAt := None; in_createdAt := 0; in_updatedAt := 0 |}.
Definition bulkWorld : ApiWorld nat :=
  Build_ApiWorld [newRepo "r1" github "acme/app" None 0] [] [] {[7%Z := demoInstallation]} 2.
Definition bulkNames : list str := map js ["acme/app"; "acme/lib"; "acme/web"].

Lemma bulk_accounts_for_every_name_witness : exists st r w',
  bulkRepos appPool (fun _ => 0%Z) (fun n => (showN n, S n)) (fun _ => []) (Some bulkBody) bulkWorld = (Ok (Reply st r), w') /\
  bk_alreadyExists r = [js "acme/app"] /\ bk_created r ++ map fst (bk_errors r) ≡ₚ map js ["acme/lib"; "acme/web"].
Proof.
  destruct (bulk_accounts_for_every_name appPool (fun _ => 0%Z) (fun n => (showN n, S n)) (fun _ => []) bulkBody 7 bulkNames bulkWorld)
    as (st & r & w' & Hrun & Ha & Hc & _).
  - vm_compute. reflexivity.
  - exists st, r, w'. split_and!; [exact Hrun|exact Ha|exact Hc].
Defined.

Lemma onDashboard {X} (deps : GithubRouterDeps (X := X)) path rest : startsWith (js path) (js "/integrations") = true ->
  startsWith (toDashboard deps path ++ rest) (default [] (gr_dashboardOrigin deps) ++ "/integrations") = true.
Proof.
  intros (t & E)%startsWith_spec. apply startsWith_spec. exists (t ++ rest). unfold toDashboard. by rewrite E, <- !app_assoc.
Qed.
Lemma onDashboard_nil {X} (deps : GithubRouterDeps (X := X)) path : startsWith (js path) (js "/integrations") = true ->
  startsWith (toDashboard deps path) (default [] (gr_dashboardOrigin deps) ++ "/integrations") = true.
Proof. intros H. rewrite <- (app_nil_r (toDashboard deps path)). by apply onDashboard. Qed.

Lemma fetchInfo_spec {X} (deps : GithubRouterDeps (X := X)) id (w : ApiWorld X) : exists r x,
  fetchInfo deps id w = (r, Build_ApiWorld (aw_repos w) (aw_events w) (aw_ledger w) (aw_installations w) x) /\
  forall info, r = Ok info -> match gr_fetchInstallation deps with
                             | Some fetch => fetch id (aw_ext w) = (Ok info, x)
                             | None => info = noInfo
                             end.
Proof.
  unfold fetchInfo, onExt. destruct (gr_fetchInstallation deps) as [fetch|].
  - destruct (fetch id (aw_ext w)) as [r x]. exists r, x. split; [done|]. by intros info ->.
  - exists (Ok noInfo), (aw_ext w). split; [by destruct w|]. by intros info [= <-].
Qed.

(** A redirect that leaves the world as it is. *)
Local Ltac stays :=
  eexists _, _, _; split; [reflexivity|]; split; [apply onDashboard_nil; reflexivity|]; split_and!; try done; by left.

(** C31. An installation is recorded only for a request that brings its state back: the one of its
    cookie, in a query for an installation or an update with an id. Then the one row of that id
    holds what the App's API said of it, a suspension and the time of creation kept. Every answer
    is a redirect to the dashboard, the cookie is cleared but for a malformed query, and anything
    else leaves the tables as they were. *)
Theorem setup_needs_its_state {X} db now dbNow deps q cookieState (w : ApiWorld X) :
  exists cookie location w', setup db now dbNow deps q cookieState w = (Ok (Redirect cookie location), w') /\
    startsWith location (default [] (gr_dashboardOrigin deps) ++ "/integrations") = true /\
    (cookie <> CookieDeleted -> setupQuerySchema q = None /\ w' = w) /\
    aw_repos w' = aw_repos w /\ aw_events w' = aw_events w /\ aw_ledger w' = aw_ledger w /\
    (aw_installations w' = aw_installations w \/
     exists text action state info x,
       setupQuerySchema q = Some (Some text, action, state) /\ cookieState = Some state /\ action <> sa_request /\
       match gr_fetchInstallation deps with
       | Some fetch => fetch (digitsValue text) (aw_ext w) = (Ok info, x)
       | None => info = noInfo
       end /\
       let id := digitsValue text in
       let old := aw_installations w !! id in
       exists row, aw_installations w' = <[id := row]> (aw_installations w) /\
         in_installationId row = id /\ in_accountLogin row = ii_accountLogin info /\ in_accountType row = ii_accountType info /\
         in_appId row = ii_appId info /\ in_setupAction row = setupAction_str action /\
         in_suspendedAt row = old ≫= in_suspendedAt /\ (forall r, old = Some r -> in_createdAt row = in_createdAt r)).
Proof.
  unfold setup. destruct (setupQuerySchema q) as [[[i action] state]|] eqn:Eq; [|stays].
  destruct (truthyStr cookieState) as [expected|] eqn:Ec; [|stays]. apply truthyStr_Some in Ec as [Ec _].
  case_bool_decide as Es; cbn [negb]; [|stays]. subst expected.
  case_bool_decide as Ha; [stays|]. destruct i as [text|]; [|stays].
  unfold tryCatch, withTenant, upsertInstallation, modify, throw. unfold mbind, eff_bind, get, mret, eff_ret.
  destruct (fetchInfo_spec deps (digitsValue text) w) as (r & x & E & Hinfo).
  rewrite E. destruct r as [info|e]; [|stays].
  destruct (bool_decide (showZ (digitsValue text) <> []) && forallb is_digit (showZ (digitsValue text))); [|stays].
  destruct (2 ^ 63 <=? digitsValue text)%Z; [stays|]. rewrite allows_tenant.
  eexists _, _, _. split; [reflexivity|]. split; [by apply onDashboard|]. split_and!; try done. right.
  exists text, action, state, info, x. split_and!; try done; [by apply Hinfo|]. eexists. split; [reflexivity|]. cbn.
  split_and!; try done. by intros r' ->.
Qed.
