(* ===== verification/Recover.v ===== *)
(** * Recovery (cli/src/commands/recover.ts, recover-codecommit-feedback.ts, db/src/recover-*.ts)

    What an operator runs after losing the database: the [/feedback] replies read back from
    CodeCommit or from a file, the evaluation events rebuilt from the cost ledger, the review states
    read back from the hidden comments. The tables are lists; a query sees the rows its connection's
    policy allows. A walk that outruns its fuel is [None]; lines for the operator are left out. *)

From S2P Require Import Prelude JsNumber NumberText JsonTree Schema Errors Review SystemPrompt Queue Commands Dedup.
From S2P Require Import History Vcs Tenancy CodecommitAdapter Codecommit.

(** ** recover-codecommit-feedback.ts *)

Definition FEEDBACK_PREFIX : str := "/feedback".

Definition parseFeedbackKind (commentBody : str) : option FeedbackKind :=
  let lower := toLowerCase commentBody in
  match indexOf lower FEEDBACK_PREFIX with
  | None => None
  | Some idx =>
      if match idx with
         | O => false
         | S i => match lower !! i with Some c => isLowWord c | None => false end
         end
      then None
      else
        let after := trim (drop (idx + length FEEDBACK_PREFIX) lower) in
        let sub := default [] (head (splitWs after)) in
        if bool_decide (sub = js "accept") then Some thumbs_up
        else if bool_decide (sub = js "reject") then Some thumbs_down
        else if bool_decide (sub = js "dismiss") then Some dismissed
        else None
  end.

Record Candidate := { factType_of : factType; factText_of : str }.

Record ScrapeStats := {
  prsWalked : nat;
  commentsSeen : nat;
  feedbackCommandsSeen : nat;
  unresolved_count : nat;
  unauthorized_count : nat;
  resolved_count : nat;
}.

(** What becomes of one comment. *)
Inductive ReplyOutcome :=
  | NoCommand
  | OutsideWindow
  | Unresolved
  | Unauthorized
  | Resolved (c : Candidate).

Definition feedbackKind_str (k : FeedbackKind) : str :=
  match k with thumbs_up => "thumbs_up" | thumbs_down => "thumbs_down" | dismissed => "dismissed" end.

Section scrape.
Context (isoOf : Z -> str) (botArn : str) (feedbackAllowlist : list str) (sinceDate : option Z).

(** [commentsById.get(id)]: the map keeps the last comment of an id. *)
Definition commentById (all : list CodeCommitRawComment) (id : str) : option CodeCommitRawComment :=
  List.find (fun c => bool_decide (rc_commentId c = id)) (rev all).

(** [opts.sinceDate && (!c.creationDate || c.creationDate < opts.sinceDate)]; no order holds of an
    invalid date. *)
Definition beforeSince (c : CodeCommitRawComment) : bool :=
  match sinceDate with
  | None => false
  | Some since =>
      match rc_creationDate c with
      | None => true
      | Some None => false
      | Some (Some ms) => (ms <? since)%Z
      end
  end.

Definition candidateText (fp : str) (kind : FeedbackKind) (iso : str) : str :=
  "[fp:" ++ fp ++ "] codecommit-recover " ++ feedbackKind_str kind ++ " at " ++ iso.

Definition replyOutcome (all : list CodeCommitRawComment) (c : CodeCommitRawComment) : result thrown ReplyOutcome :=
  match parseFeedbackKind (rc_content c) with
  | None => Ok NoCommand
  | Some kind =>
      if beforeSince c then Ok OutsideWindow
      else match rc_inReplyTo c ≫= commentById all with
           | None => Ok Unresolved
           | Some parent =>
               if negb (bool_decide (rc_authorArn parent = Some botArn)) then Ok Unresolved
               else match checkCodeCommitFeedbackAuthz None (default [] (rc_authorArn c))
                            (Some (join "," feedbackAllowlist)) with
                    | Denied _ => Ok Unauthorized
                    | Allowed =>
                        match truthyStr (extractFingerprintFromComment (rc_content parent)) with
                        | None => Ok Unresolved
                        | Some fp =>
                            iso ← match rc_creationDate c with
                                  | Some d => toISOString isoOf d
                                  | None => Ok (js "unknown")
                                  end;
                            Ok (Resolved {| factType_of := feedbackKindToFactType kind;
                                            factText_of := candidateText fp kind iso |})
                        end
                    end
           end
  end.

Definition outcomesOf (all : list CodeCommitRawComment) : result thrown (list ReplyOutcome) :=
  mapM (replyOutcome all) all.

Definition candidatesOf (os : list ReplyOutcome) : list Candidate :=
  omap (fun o => match o with Resolved c => Some c | _ => None end) os.
Definition countOutcomes (f : ReplyOutcome -> bool) (os : list ReplyOutcome) : nat := length (List.filter f os).
Definition isUnresolved (o : ReplyOutcome) : bool := match o with Unresolved => true | _ => false end.
Definition isUnauthorized (o : ReplyOutcome) : bool := match o with Unauthorized => true | _ => false end.
Definition isCommand (o : ReplyOutcome) : bool := match o with NoCommand => false | _ => true end.

Context {X : Type} (client : CodeCommitClient X) (parseDate : str -> date) (fuel : nat) (sleep : number -> eff X thrown unit)
        (delayMs : number).

(** The loop over the pull requests: what was seen so far is [acc]. *)
Fixpoint walkPrs (pause : bool) (prIds : list Z) (acc : list ReplyOutcome) : eff X thrown (option (list ReplyOutcome)) :=
  match prIds with
  | [] => mret (Some acc)
  | prId :: rest =>
      all ← listCodeCommitCommentsForPullRequest client parseDate fuel sleep delayMs (showZ prId);
      match all with
      | None => mret None
      | Some all =>
          os ← lift (outcomesOf all);
          (if pause then sleep delayMs else mret tt);;
          walkPrs pause rest (acc ++ os)
      end
  end.

Definition scrapeCodeCommitFeedback (repositoryName : str) (status : option PrStatus) (onlyPr : option Z)
    : eff X thrown (option (list Candidate * ScrapeStats)) :=
  ids ← match onlyPr with
        | Some n => mret (Some [n])
        | None => listCodeCommitPullRequestIds client fuel repositoryName status
        end;
  match ids with
  | None => mret None
  | Some prIds =>
      os ← walkPrs (1 <? length prIds)%nat prIds [];
      mret (os ← os;
            Some (candidatesOf os,
                  {| prsWalked := length prIds; commentsSeen := length os;
                     feedbackCommandsSeen := countOutcomes isCommand os;
                     unresolved_count := countOutcomes isUnresolved os;
                     unauthorized_count := countOutcomes isUnauthorized os;
                     resolved_count := length (candidatesOf os) |}))
  end.
End scrape.

(** ** The tables *)

Record LedgerRow := {
  lr_installationId : Z;
  lr_jobId : str;
  lr_provider : str;
  lr_model : str;
  lr_inputTokens : Z;
  lr_outputTokens : Z;
  lr_costUsd : number;
  lr_latencyMs : Z;
  lr_createdAt : Z;
}.

(** A row of [review_eval_event], as far as the recovery fills it; the other columns are zero or
    empty. *)
Record EvalRow := {
  er_installationId : Z;
  er_jobId : str;
  er_repo : str;
  er_prNumber : Z;
  er_headSha : str;
  er_provider : str;
  er_model : str;
  er_latencyMs : Z;
  er_costUsd : number;
  er_tokensInput : Z;
  er_tokensOutput : Z;
}.

Record RecoverDb := { rd_history : HistoryDb; rd_ledger : list LedgerRow; rd_events : list EvalRow }.

Definition setHistory (h : HistoryDb) (d : RecoverDb) : RecoverDb :=
  {| rd_history := h; rd_ledger := rd_ledger d; rd_events := rd_events d |}.
Definition setEvents (e : list EvalRow) (d : RecoverDb) : RecoverDb :=
  {| rd_history := rd_history d; rd_ledger := rd_ledger d; rd_events := e |}.

Record RecoverResult := { rr_partial : bool; rr_candidates : nat; rr_recovered : nat; rr_skippedExisting : nat }.
Definition nothingRecovered : RecoverResult :=
  {| rr_partial := false; rr_candidates := 0; rr_recovered := 0; rr_skippedExisting := 0 |}.

(** ** db/src/recover-feedback-history.ts *)

Section tables.
Context (now : Z).

(** [SELECT fact_text] of the installation and the repository, as the connection may see it. *)
Definition knownTexts (conn : Connection) (installationId : Z) (repo : str) (db : HistoryDb) : list str :=
  map row_factText
    (List.filter (fun r => allows conn (row_installationId r) && (row_installationId r =? installationId)%Z
                           && bool_decide (row_repo r = repo)) (rows db)).

Definition insertCandidates (installationId : Z) (repo : str) (cs : list Candidate) (db : HistoryDb) : HistoryDb :=
  foldl (fun db c => insertRow now installationId repo (factType_of c) (factText_of c) db) db cs.

Definition recoverFeedbackHistory (conn : Connection) (installationId : Z) (repo : str) (candidates : list Candidate)
    (dryRun : bool) : eff RecoverDb thrown RecoverResult :=
  match candidates with
  | [] => mret nothingRecovered
  | _ =>
      d ← get;
      let existing := knownTexts conn installationId repo (rd_history d) in
      let fresh := List.filter (fun c => negb (bool_decide (factText_of c ∈ existing))) candidates in
      let answer recovered :=
        {| rr_partial := false; rr_candidates := length candidates; rr_recovered := recovered;
           rr_skippedExisting := length candidates - length fresh |} in
      if dryRun || bool_decide (fresh = []) then mret (answer 0)
      else if allows conn installationId
      then put (setHistory (insertCandidates installationId repo fresh (rd_history d)) d);; mret (answer (length fresh))
      else throw (policyError "review_history")
  end.

(** ** db/src/recover-eval-events.ts *)

(** [MAX] on texts, in the order of the database's collation. *)
Context (textMax : str -> str -> str).

(** [SUM(x)::int]: the cast is refused beyond 32 bits. *)
Definition sumInt (l : list Z) : result thrown Z :=
  let n := foldl Z.add 0%Z l in
  if (-2147483648 <=? n)%Z && (n <=? 2147483647)%Z then Ok n else error "integer out of range".

Definition maxText (l : list str) : str :=
  match l with [] => [] | x :: rest => foldl textMax x rest end.

(** One group of [GROUP BY job_id]. *)
Definition aggregate (installationId : Z) (repo : str) (rs : list LedgerRow) (jobId : str) : result thrown EvalRow :=
  let g := List.filter (fun r => bool_decide (lr_jobId r = jobId)) rs in
  latency ← sumInt (map lr_latencyMs g);
  input ← sumInt (map lr_inputTokens g);
  output ← sumInt (map lr_outputTokens g);
  Ok {| er_installationId := installationId; er_jobId := jobId; er_repo := repo; er_prNumber := 0; er_headSha := [];
        er_provider := maxText (map lr_provider g); er_model := maxText (map lr_model g);
        er_latencyMs := latency; er_costUsd := foldl nadd zero (map lr_costUsd g);
        er_tokensInput := input; er_tokensOutput := output |}.

Definition ledgerRows (conn : Connection) (installationId : Z) (since : option Z) (l : list LedgerRow) : list LedgerRow :=
  List.filter (fun r => allows conn (lr_installationId r) && (lr_installationId r =? installationId)%Z
                        && match since with Some s => (s <=? lr_createdAt r)%Z | None => true end) l.

Definition recoverReviewEvalEvents (conn : Connection) (installationId : Z) (repo : str) (since : option Z)
    (dryRun : bool) : eff RecoverDb thrown RecoverResult :=
  d ← get;
  let rs := ledgerRows conn installationId since (rd_ledger d) in
  candidateRows ← lift (mapM (aggregate installationId repo rs) (uniq (map lr_jobId rs)));
  match candidateRows with
  | [] => mret nothingRecovered
  | _ =>
      let existing :=
        uniq (map er_jobId (List.filter (fun e => allows conn (er_installationId e) && (er_installationId e =? installationId)%Z
                && bool_decide (er_jobId e ∈ map er_jobId candidateRows)) (rd_events d))) in
      let fresh := List.filter (fun r => negb (bool_decide (er_jobId r ∈ existing))) candidateRows in
      let answer recovered :=
        {| rr_partial := false; rr_candidates := length candidateRows; rr_recovered := recovered;
           rr_skippedExisting := length existing |} in
      if dryRun || bool_decide (fresh = []) then mret (answer 0)
      else if allows conn installationId
      then put (setEvents (rd_events d ++ fresh) d);; mret (answer (length fresh))
      else throw (policyError "review_eval_event")
  end.
End tables.

(** ** The commands of cli/src/commands/recover.ts *)

Record RecoverWorld (X : Type) := { rw_db : RecoverDb; rw_ext : X }.
Arguments Build_RecoverWorld {X}.
Arguments rw_db {X}.
Arguments rw_ext {X}.

Definition onDb {X A} (m : eff RecoverDb thrown A) : eff (RecoverWorld X) thrown A := fun w =>
  let '(r, d) := m (rw_db w) in (r, Build_RecoverWorld d (rw_ext w)).
Definition onExternal {X A} (m : eff X thrown A) : eff (RecoverWorld X) thrown A := fun w =>
  let '(r, x) := m (rw_ext w) in (r, Build_RecoverWorld (rw_db w) x).

(** [/^\d{4}-\d{2}-\d{2}(T.+)?$/] *)
Definition isIsoDate (v : str) : bool :=
  let digits n s := (length s =? n)%nat && forallb is_digit s in
  digits 4 (take 4 v) && startsWith (drop 4 v) "-" && digits 2 (take 2 (drop 5 v))
  && startsWith (drop 7 v) "-" && digits 2 (take 2 (drop 8 v))
  && match drop 10 v with
     | [] => true
     | c :: rest => eqc c "T" && bool_decide (rest <> [])
                    && forallb (fun d => negb (eqc d "010" || eqc d "013")) rest
     end.

(** [/^[^/\s]+(?:\/[^/\s]+)?$/] *)
Definition CODECOMMIT_REPO_RE (repo : str) : bool :=
  let segs := splitChar "/" repo in
  (length segs <=? 2)%nat && forallb (fun s => bool_decide (s <> []) && forallb (fun c => negb (is_ws c)) s) segs.

(** [Math.floor] *)
Definition nfloor (x : number) : number :=
  match x with
  | SpecFloat.S754_finite s m e =>
      let v := if s then Z.neg m else Z.pos m in
      num_of_Z (if (0 <=? e)%Z then v * 2 ^ e else v / 2 ^ (- e))%Z
  | _ => x
  end.

Definition DEFAULT_DELAY_MS : number := num_of_Z 500.
Definition delayFor (rate : option number) : number :=
  match rate with
  | Some r => if isFinite r && ngt r zero then nfloor (ndiv (num_of_Z 1000) r) else DEFAULT_DELAY_MS
  | None => DEFAULT_DELAY_MS
  end.

Section commands.
Context {X : Type} (parseJSON : str -> option json) (ToString : option json -> str) (parseDate : str -> date)
        (isoOf : Z -> str) (now : Z) (textMax : str -> str -> str) (pool : Connection).

Definition parseIsoDate (value : str) : option Z :=
  if isIsoDate value
  then (if bool_decide ("T"%char ∈ value) then parseDate value else parseDate (value ++ "T00:00:00Z"))
  else None.

(** One line of a candidates file; [None] for a blank one and for a comment. *)
Definition parseCandidateLine (line : str) : result thrown (option Candidate) :=
  let trimmed := trim line in
  if bool_decide (trimmed = []) || startsWith trimmed "//" then Ok None
  else match parseJSON trimmed with
       | None => error "Unexpected token in JSON"
       | Some JNull => error "Cannot read properties of null (reading 'factType')"
       | Some parsed =>
           t ← match member "factType" parsed with
               | Some (JStr s) =>
                   if bool_decide (s = js "accepted_pattern") then Ok accepted_pattern
                   else if bool_decide (s = js "rejected_finding") then Ok rejected_finding
                   else if bool_decide (s = js "arch_decision") then Ok arch_decision
                   else error ("Invalid factType in candidates file: " ++ s)
               | v => error ("Invalid factType in candidates file: " ++ ToString v)
               end;
           match member "factText" parsed with
           | Some (JStr (c :: s)) => Ok (Some {| factType_of := t; factText_of := c :: s |})
           | _ => error "Invalid factText in candidates file (must be a non-empty string)."
           end
       end.

Definition parseCandidatesFile (raw : str) : result thrown (list Candidate) :=
  os ← mapM parseCandidateLine (splitChar newline raw);
  Ok (omap id os).

Record RecoverReviewEvalEventsOpts := {
  re_repo : str;
  re_installationId : Z;
  re_databaseUrl : option str;
  re_since : option str;
  re_dryRun : bool;
}.

(** The two helpers are called on the pool: [withTenant]'s own connection is not used. *)
Definition recoverReviewEvalEventsCommand (opts : RecoverReviewEvalEventsOpts) : eff (RecoverWorld X) thrown RecoverResult :=
  match truthyStr (re_databaseUrl opts) with
  | None => mret nothingRecovered
  | Some _ =>
      since ← match truthyStr (re_since opts) with
              | Some s => match parseDate s with
                          | Some ms => mret (Some ms)
                          | None => lift (error "Invalid time value")
                          end
              | None => mret None
              end;
      onDb (withTenant pool (re_installationId opts) (fun _ =>
        recoverReviewEvalEvents textMax pool (re_installationId opts) (re_repo opts) since (re_dryRun opts)))
  end.

Record RecoverFeedbackHistoryOpts := {
  rf_repo : str;
  rf_installationId : Z;
  rf_databaseUrl : option str;
  rf_allowlistEnv : option str;
  rf_platform : VcsPlatform;
  rf_candidatesFile : option str;
  rf_dryRun : bool;
  rf_since : option str;
  rf_onlyPr : option Z;
  rf_rate : option number;
  rf_botArn : option str;
}.

Definition repoNameOf (repo : str) : str :=
  match indexOf repo "/" with
  | Some i => match drop (S i) repo with [] => repo | n => n end
  | None => repo
  end.

(** The candidates, the key of the rows and whether the run is partial; [None] stops the command. *)
Definition codecommitCandidates (client : CodeCommitClient X) (fuel : nat) (sleep : number -> eff X thrown unit)
    (opts : RecoverFeedbackHistoryOpts) (since : option Z) (bot : str)
    : eff (RecoverWorld X) thrown (option (list Candidate * str * bool)) :=
  let repoName := repoNameOf (rf_repo opts) in
  let allowlist := parseAllowlist (rf_allowlistEnv opts) in
  scraped ← onExternal (scrapeCodeCommitFeedback isoOf bot allowlist since client parseDate fuel sleep
              (delayFor (rf_rate opts)) repoName None (rf_onlyPr opts));
  mret ('(candidates, stats) ← scraped;
        let partial := (0 <? unauthorized_count stats)%nat
                       || bool_decide (allowlist = []) && (0 <? feedbackCommandsSeen stats)%nat in
        Some (candidates, showZ (rf_installationId opts) ++ "/" ++ repoName, partial)).

Definition recoverInto (opts : RecoverFeedbackHistoryOpts) (candidates : list Candidate) (repoKey : str) (partial : bool)
    : eff (RecoverWorld X) thrown RecoverResult :=
  r ← onDb (withTenant pool (rf_installationId opts) (fun _ =>
        recoverFeedbackHistory now pool (rf_installationId opts) repoKey candidates (rf_dryRun opts)));
  mret {| rr_partial := partial || rr_partial r; rr_candidates := rr_candidates r;
          rr_recovered := rr_recovered r; rr_skippedExisting := rr_skippedExisting r |}.

Definition recoverFeedbackHistoryCommand (client : CodeCommitClient X) (fuel : nat)
    (sleep : number -> eff X thrown unit) (readFile : str -> eff X thrown str) (opts : RecoverFeedbackHistoryOpts)
    : eff (RecoverWorld X) thrown (option RecoverResult) :=
  match truthyStr (rf_databaseUrl opts) with
  | None => mret (Some nothingRecovered)
  | Some _ =>
      let since := s ← rf_since opts; parseIsoDate s in
      if bool_decide (is_Some (rf_since opts)) && negb (bool_decide (is_Some since)) then mret (Some nothingRecovered)
      else match rf_platform opts with
      | codecommit =>
          match truthyStr (rf_botArn opts) with
          | None => mret (Some nothingRecovered)
          | Some bot =>
              if negb (CODECOMMIT_REPO_RE (rf_repo opts)) then mret (Some nothingRecovered)
              else
                found ← codecommitCandidates client fuel sleep opts since bot;
                match found with
                | None => mret None
                | Some (candidates, repoKey, partial) => r ← recoverInto opts candidates repoKey partial; mret (Some r)
                end
          end
      | github =>
          match truthyStr (rf_candidatesFile opts) with
          | None => mret (Some nothingRecovered)
          | Some path =>
              raw ← onExternal (readFile path);
              candidates ← lift (parseCandidatesFile raw);
              r ← recoverInto opts candidates (rf_repo opts) false;
              mret (Some r)
          end
      end
  end.

(** *** recover sync-state *)

Inductive SyncStatus := sync_ok | auth_failed | sync_partial.
Record SyncResult := { sy_status : SyncStatus; sy_recovered : nat; sy_missing : list Z }.
Definition noSync (s : SyncStatus) : SyncResult := {| sy_status := s; sy_recovered := 0; sy_missing := [] |}.

Record StateUpsert := { su_installationId : Z; su_prId : str; su_headSha : str; su_state : ReviewState }.

(** [/^([^/\s]+)\/([^/\s]+)$/] *)
Definition parseRepo (repo : str) : result thrown (str * str) :=
  match splitChar "/" repo with
  | [owner; name] =>
      if forallb (fun s => bool_decide (s <> []) && forallb (fun c => negb (is_ws c)) s) [owner; name]
      then Ok (owner, name)
      else error ("--repo must be in 'owner/repo' format (got '" ++ repo ++ "').")
  | _ => error ("--repo must be in 'owner/repo' format (got '" ++ repo ++ "').")
  end.

Section sync.
Context (vcs : VCS X) (upsertState : StateUpsert -> eff X thrown unit) (installationId : Z) (owner repo : str).

Fixpoint syncAll (prs : list Z) (recovered : nat) (missing : list Z) : eff X thrown (nat * list Z) :=
  match prs with
  | [] => mret (recovered, missing)
  | n :: rest =>
      state ← Vcs.getStateComment vcs {| ref_platform := github; ref_owner := owner; ref_repo := repo; ref_number := n |};
      match state with
      | None => syncAll rest recovered (missing ++ [n])
      | Some st =>
          match truthyStr (Some (lastReviewedSha st)) with
          | None => syncAll rest recovered (missing ++ [n])
          | Some sha =>
              upsertState {| su_installationId := installationId; su_prId := owner ++ "/" ++ repo ++ "#" ++ showZ n;
                             su_headSha := sha; su_state := st |};;
              syncAll rest (S recovered) missing
          end
      end
  end.
End sync.

Definition recoverSyncStateCommand (createVCS : str -> result thrown (VCS X))
    (listOpenPRs : str -> str -> str -> eff X thrown (list Z)) (upsertState : StateUpsert -> eff X thrown unit)
    (platform : VcsPlatform) (ghToken actionToken : option str) (repo : str) (installationId : Z)
    : eff X thrown SyncResult :=
  match platform with
  | codecommit => mret (noSync sync_ok)
  | github =>
      match truthyStr (match ghToken with Some t => Some t | None => actionToken end) with
      | None => mret (noSync auth_failed)
      | Some token =>
          ref ← lift (parseRepo repo);
          vcs ← lift (createVCS token);
          prs ← listOpenPRs token ref.1 ref.2;
          '(recovered, missing) ← syncAll vcs upsertState installationId ref.1 ref.2 prs 0 [];
          mret {| sy_status := if bool_decide (missing = []) then sync_ok else sync_partial;
                  sy_recovered := recovered; sy_missing := missing |}
      end
  end.
End commands.

(** ** The two parsers of [/feedback] *)

(** The text behind the command's word. *)
Definition feedbackTokens (commentBody : str) : list str :=
  let lower := toLowerCase commentBody in
  match indexOf lower FEEDBACK_PREFIX with
  | Some idx => splitWs (trim (drop (idx + length FEEDBACK_PREFIX) lower))
  | None => []
  end.

(** ** What a scrape returns *)

Lemma dropWhile_head f s c : head (dropWhile f s) = Some c -> f c = false.
Proof.
  induction s as [|d s IH]; cbn; [done|]. destruct (f d) eqn:E; [done|]. cbn. by intros [= <-].
Qed.

Lemma dropWhile_stays f s : (forall c, head s = Some c -> f c = false) -> dropWhile f s = s.
Proof. destruct s as [|d s]; [done|]. intros H. cbn. by rewrite (H d eq_refl). Qed.

Lemma trim_trim s : trim (trim s) = trim s.
Proof.
  unfold trim at 1. set (t := trim s).
  assert (forall c, head t = Some c -> is_ws c = false) as Hhead.
  { intros c Hc. subst t. unfold trim in Hc. destruct (trimEnd_prefix (trimStart s)) as (w & Hw & _).
    apply (dropWhile_head is_ws s). change (dropWhile is_ws s) with (trimStart s). rewrite Hw.
    by destruct (trimEnd (trimStart s)). }
  assert (trimStart t = t) as -> by by apply dropWhile_stays.
  subst t. unfold trim. generalize (trimStart s). intros u. unfold trimEnd.
  rewrite rev_involutive. f_equal. apply dropWhile_stays, dropWhile_head.
Qed.

Lemma trim_sublist s c : c ∈ trim s -> c ∈ s.
Proof.
  intros H. unfold trim in H. destruct (trimEnd_prefix (trimStart s)) as (w & Hw & _).
  destruct (dropWhile_suffix is_ws s) as (v & Hv & _). change (dropWhile is_ws s) with (trimStart s) in Hv.
  rewrite Hv, Hw, !elem_of_app. auto.
Qed.

Lemma map_trim_filter (f : str -> bool) l :
  map trim (List.filter f (map trim l)) = List.filter f (map trim l).
Proof. induction l as [|x l IH]; [done|]. cbn. destruct (f (trim x)); [|done]. cbn. rewrite trim_trim. by f_equal. Qed.

Lemma filter_filter_id (f : str -> bool) l : List.filter f (List.filter f l) = List.filter f l.
Proof. induction l as [|x l IH]; [done|]. cbn. destruct (f x) eqn:E; [|done]. cbn. rewrite E. by f_equal. Qed.

(** Joining the entries of a list with commas and parsing it again gives the entries. *)
Lemma parseAllowlist_join raw :
  parseAllowlist (Some (join "," (parseAllowlist raw))) = parseAllowlist raw.
Proof.
  unfold parseAllowlist at 2 3. destruct (truthyStr raw) as [s|]; [|done].
  set (keep := fun x : str => bool_decide (x <> [])). set (l := List.filter keep (map trim (splitChar "," s))).
  assert (map trim l = l /\ List.filter keep l = l) as [Ht Hk].
  { subst l. split; [apply map_trim_filter|apply filter_filter_id]. }
  assert (Forall (fun x => ","%char ∉ x) l) as Hc.
  { apply Forall_forall. intros x Hx Hin. subst l. apply list_elem_of_In, filter_In in Hx as [Hx _].
    apply in_map_iff in Hx as (y & <- & Hy%list_elem_of_In). apply trim_sublist in Hin.
    by apply (proj1 (Forall_forall _ _) (splitChar_pieces "," s) y). }
  clearbody l. destruct (decide (l = [])) as [->|Hne]; [done|].
  pose proof (splitChar_join "," l Hne Hc) as Hsplit. change [","%char] with (js ",") in Hsplit.
  unfold parseAllowlist, truthyStr. destruct (join "," l) as [|c j] eqn:Ej.
  { rewrite splitChar_nil in Hsplit. by rewrite <- Hsplit in Hk. }
  by rewrite Hsplit, Ht.
Qed.

Lemma mapM_result_elem {E A B} (f : A -> result E B) l l' :
  mapM f l = Ok l' -> Forall2 (fun x y => f x = Ok y) l l'.
Proof.
  revert l'. induction l as [|x l IH]; intros l' H; [by injection H as <-|].
  cbn in H. destruct (f x) as [y|] eqn:Ey; [|done]. cbn in H.
  destruct (mapM f l) as [ys|]; [|done]. injection H as <-. constructor; [done|by apply IH].
Qed.

Section scraped.
Context (isoOf : Z -> str) (botArn : str) (feedbackAllowlist : list str) (sinceDate : option Z).

(** The reply [c] of the thread [all] is a command of [kind] that may be recovered, and [fp] is the
    fingerprint it is about. *)
Record recoverable (all : list CodeCommitRawComment) (c : CodeCommitRawComment) (kind : FeedbackKind) (fp : str) : Prop := {
  rec_kind : parseFeedbackKind (rc_content c) = Some kind;
  rec_window : beforeSince sinceDate c = false;
  rec_parent : exists parent, parent ∈ all /\ rc_inReplyTo c = Some (rc_commentId parent) /\
    rc_authorArn parent = Some botArn /\ extractFingerprintFromComment (rc_content parent) = Some fp;
  rec_author : exists a, rc_authorArn c = Some a /\ a ∈ parseAllowlist (Some (join "," feedbackAllowlist));
}.

Lemma commentById_spec all id p : commentById all id = Some p -> p ∈ all /\ rc_commentId p = id.
Proof.
  unfold commentById. intros [Hin Hid]%find_some. apply bool_decide_eq_true in Hid.
  by rewrite <- in_rev, <- list_elem_of_In in Hin.
Qed.

Lemma authz_Allowed principal l :
  checkCodeCommitFeedbackAuthz None principal (Some l) = Allowed -> principal <> [] /\ principal ∈ parseAllowlist (Some l).
Proof.
  unfold checkCodeCommitFeedbackAuthz. destruct (parseAllowlist (Some l)) as [|x xs]; [done|].
  destruct principal as [|c s]; [done|]. case_bool_decide; [done|done].
Qed.

Lemma replyOutcome_resolved all c cand :
  replyOutcome isoOf botArn feedbackAllowlist sinceDate all c = Ok (Resolved cand) ->
  exists kind fp iso, recoverable all c kind fp /\
    (iso = js "unknown" /\ rc_creationDate c = None \/ exists ms, rc_creationDate c = Some (Some ms) /\ iso = isoOf ms) /\
    cand = {| factType_of := feedbackKindToFactType kind; factText_of := candidateText fp kind iso |}.
Proof.
  unfold replyOutcome. destruct (parseFeedbackKind _) as [kind|] eqn:Ek; [|done].
  destruct (beforeSince _ c) eqn:Es; [done|].
  destruct (rc_inReplyTo c) as [pid|] eqn:Ei; [|done]. cbn [mbind option_bind].
  destruct (commentById all pid) as [parent|] eqn:Ep; [|done].
  case_bool_decide as Hbot; cbn [negb]; [|done].
  destruct (checkCodeCommitFeedbackAuthz _ _ _) eqn:Ea; [|done].
  destruct (truthyStr _) as [fp|] eqn:Ef; [|done]. intros H.
  apply commentById_spec in Ep as [Hin Hid]. apply authz_Allowed in Ea as [Hne Hal].
  assert (extractFingerprintFromComment (rc_content parent) = Some fp) as Hfp.
  { unfold truthyStr in Ef. destruct (extractFingerprintFromComment _) as [[|]|]; [done| |done]. by injection Ef as <-. }
  exists kind, fp.
  assert (recoverable all c kind fp) as Hr.
  { split; [done|done| |].
    - exists parent. rewrite Hid. done.
    - destruct (rc_authorArn c) as [a|]; [by exists a|done]. }
  destruct (rc_creationDate c) as [[ms|]|]; cbn in H; [| |].
  - injection H as <-. exists (isoOf ms). split_and!; [done| |done]. right. by exists ms.
  - done.
  - injection H as <-. exists (js "unknown"). split_and!; [done| |done]. by left.
Qed.

Lemma count_split (f g : ReplyOutcome -> bool) os :
  countOutcomes f os = countOutcomes (fun o => f o && g o) os + countOutcomes (fun o => f o && negb (g o)) os.
Proof.
  unfold countOutcomes. induction os as [|o os IH]; [done|]. cbn.
  destruct (f o), (g o); cbn; lia.
Qed.

Lemma countOutcomes_commands os :
  countOutcomes isCommand os = length (candidatesOf os) + countOutcomes isUnresolved os +
    countOutcomes isUnauthorized os + countOutcomes (fun o => match o with OutsideWindow => true | _ => false end) os.
Proof.
  unfold countOutcomes, candidatesOf. induction os as [|o os IH]; [done|]. destruct o; cbn in *; lia.
Qed.

Context {X : Type} (client : CodeCommitClient X) (parseDate : str -> date) (fuel : nat) (sleep : number -> eff X thrown unit)
        (delayMs : number).

(** The comments a pull request's listing gives, at some point of the run. *)
Definition listed (prId : Z) (all : list CodeCommitRawComment) : Prop := exists x x',
  listCodeCommitCommentsForPullRequest client parseDate fuel sleep delayMs (showZ prId) x = (Ok (Some all), x').

Lemma walkPrs_outcomes pause prIds : forall acc x os x',
  walkPrs isoOf botArn feedbackAllowlist sinceDate client parseDate fuel sleep delayMs pause prIds acc x = (Ok (Some os), x') ->
  forall o, o ∈ os -> o ∈ acc \/ exists prId all c, prId ∈ prIds /\ listed prId all /\ c ∈ all /\
    replyOutcome isoOf botArn feedbackAllowlist sinceDate all c = Ok o.
Proof.
  induction prIds as [|prId rest IH]; intros acc x os x' H o Ho; cbn [walkPrs] in H.
  { inv_eff. by left. }
  apply bind_Ok in H as ([all|] & x1 & Hl & H); [|inv_eff].
  apply bind_Ok in H as (new & x2 & Hos & H). unfold lift in Hos. injection Hos as Hos <-.
  apply bind_Ok in H as ([] & x3 & _ & H).
  destruct (IH _ _ _ _ H o Ho) as [Hacc|(p & all' & c & Hp & Hrest)].
  - apply elem_of_app in Hacc as [|Hnew]; [by left|right].
    apply mapM_result_elem in Hos. apply list_elem_of_lookup in Hnew as [i Hi].
    destruct (Forall2_lookup_r _ _ _ _ _ Hos Hi) as (c & Hc & Hout).
    exists prId, all, c. split_and!; [set_solver|by eexists _, _|by eapply list_elem_of_lookup_2|done].
  - right. exists p, all', c. split; [set_solver|done].
Qed.
End scraped.

(** ** Idempotence *)

(** The history of an installation and a repository holds a text. *)
Definition inHistory (i : Z) (repo text : str) (d : RecoverDb) : bool :=
  existsb (fun row => (row_installationId row =? i)%Z && bool_decide (row_repo row = repo)
                      && bool_decide (row_factText row = text)) (rows (rd_history d)).

Lemma knownTexts_inHistory conn i repo text d :
  allows conn i = true -> text ∈ knownTexts conn i repo (rd_history d) <-> inHistory i repo text d = true.
Proof.
  intros Ha. unfold knownTexts, inHistory. rewrite existsb_elem. split.
  - intros (row & -> & [Hin Hr]%elem_of_bfilter)%elem_of_bmap. exists row. split; [done|].
    rewrite (bool_decide_true (row_factText row = _)), andb_true_r by done.
    rewrite <- andb_assoc in Hr. by apply andb_true_iff in Hr as [_ ?].
  - intros (row & Hin & Hr). apply elem_of_bmap. exists row. apply andb_true_iff in Hr as [Hr Ht].
    apply bool_decide_eq_true in Ht. split; [done|]. apply elem_of_bfilter. split; [done|].
    rewrite <- andb_assoc, andb_true_iff. split; [|done]. by apply andb_true_iff in Hr as [->%Z.eqb_eq _].
Qed.

Lemma fresh_history conn i repo cs d :
  allows conn i = true ->
  List.filter (fun c => negb (bool_decide (factText_of c ∈ knownTexts conn i repo (rd_history d)))) cs =
  List.filter (fun c => negb (inHistory i repo (factText_of c) d)) cs.
Proof.
  intros Ha. apply List.filter_ext. intros c. f_equal. apply eq_true_iff_eq.
  rewrite bool_decide_eq_true. by apply knownTexts_inHistory.
Qed.

Lemma insertCandidates_rows now i repo cs db :
  exists new, rows (insertCandidates now i repo cs db) = rows db ++ new /\
    map (fun row => (row_factType row, row_factText row)) new = map (fun c => (factType_of c, factText_of c)) cs /\
    Forall (fun r => row_installationId r = i /\ row_repo r = repo) new.
Proof.
  unfold insertCandidates. revert db. induction cs as [|c cs IH]; intros db; cbn.
  { exists []. by rewrite app_nil_r. }
  destruct (IH (insertRow now i repo (factType_of c) (factText_of c) db)) as (new & -> & Ht & Hn).
  eexists (_ :: new). unfold insertRow. cbn [rows]. rewrite <- app_assoc. split_and!; [done| |by constructor].
  cbn. by rewrite Ht.
Qed.

Lemma knownTexts_insert conn now i repo cs db :
  allows conn i = true ->
  knownTexts conn i repo (insertCandidates now i repo cs db) = knownTexts conn i repo db ++ map factText_of cs.
Proof.
  intros Ha. destruct (insertCandidates_rows now i repo cs db) as (new & Hr & Ht & Hn).
  assert (map row_factText new = map factText_of cs) as Ht'.
  { apply (f_equal (map snd)) in Ht. by rewrite !map_map in Ht. }
  unfold knownTexts. rewrite Hr, List.filter_app, map_app, <- Ht'. do 2 f_equal.
  clear Hr Ht Ht'. induction Hn as [|r new [<- <-] Hn IH]; [done|]. cbn.
  rewrite Ha, Z.eqb_refl, bool_decide_eq_true_2 by done. cbn. by rewrite IH.
Qed.

Section fresh.
Context {A : Type} (key : A -> str) (known : list str).

Lemma filter_known_nil l :
  (forall x, x ∈ l -> key x ∈ known) -> List.filter (fun x => negb (bool_decide (key x ∈ known))) l = [].
Proof.
  intros H. induction l as [|x l IH]; [done|]. cbn.
  rewrite bool_decide_eq_true_2 by (apply H; set_solver). apply IH. set_solver.
Qed.

Lemma fresh_elem l x :
  x ∈ l -> key x ∉ known -> x ∈ List.filter (fun x => negb (bool_decide (key x ∈ known))) l.
Proof.
  intros Hx Hn. apply list_elem_of_In, filter_In. split; [by apply list_elem_of_In|].
  by rewrite bool_decide_eq_false_2.
Qed.
End fresh.

(** Every candidate is known once a run is over. *)
Lemma recoverFeedbackHistory_known conn now i repo cs d r d' c :
  allows conn i = true -> recoverFeedbackHistory now conn i repo cs false d = (Ok r, d') -> c ∈ cs ->
  factText_of c ∈ knownTexts conn i repo (rd_history d').
Proof.
  intros Ha. unfold recoverFeedbackHistory. destruct cs as [|c0 cs0]; [by intros _ ?%elem_of_nil|].
  set (cs := c0 :: cs0). unfold mbind, eff_bind, get. cbn [orb]. intros H Hc. case_bool_decide as Hf.
  - injection H as _ <-. destruct (decide (factText_of c ∈ knownTexts conn i repo (rd_history d))) as [|Hn]; [done|].
    pose proof (fresh_elem factText_of _ _ _ Hc Hn) as Hin. rewrite Hf in Hin. by apply elem_of_nil in Hin.
  - rewrite Ha in H. injection H as _ <-. cbn. rewrite knownTexts_insert by done.
    apply elem_of_app. destruct (decide (factText_of c ∈ knownTexts conn i repo (rd_history d))) as [|Hn]; [by left|right].
    apply list_elem_of_In, in_map, list_elem_of_In, (fresh_elem factText_of _ _ _ Hc Hn).
Qed.

Lemma recoverFeedbackHistory_twice conn now i repo cs d r d' :
  allows conn i = true -> recoverFeedbackHistory now conn i repo cs false d = (Ok r, d') ->
  recoverFeedbackHistory now conn i repo cs false d' =
    (Ok {| rr_partial := false; rr_candidates := length cs; rr_recovered := 0; rr_skippedExisting := length cs |}, d').
Proof.
  intros Ha H. pose proof (fun c => recoverFeedbackHistory_known _ _ _ _ _ _ _ _ c Ha H) as Hk. revert H.
  unfold recoverFeedbackHistory. destruct cs as [|c0 cs0]; [intros H; by injection H as <- <-|]. intros _.
  unfold mbind, eff_bind, get. rewrite (filter_known_nil factText_of) by done. by rewrite bool_decide_eq_true_2.
Qed.

Section eval_events.
Context (textMax : str -> str -> str) (conn : Connection) (i : Z) (repo : str).

Lemma aggregate_fields rs j e : aggregate textMax i repo rs j = Ok e ->
  er_jobId e = j /\ er_installationId e = i /\ er_repo e = repo.
Proof.
  unfold aggregate, mbind, result_bind. intros H. repeat (destruct (sumInt _); [|discriminate H]). by injection H as <-.
Qed.

Lemma aggregates_fields rs js cands : mapM (aggregate textMax i repo rs) js = Ok cands ->
  map er_jobId cands = js /\ Forall (fun e => er_installationId e = i /\ er_repo e = repo) cands.
Proof.
  intros H%mapM_result_elem. induction H as [|j e js cands He H IH]; [done|].
  apply aggregate_fields in He as (<- & Hi & Hr). destruct IH as [<- IH]. split; [done|by constructor].
Qed.

(** The jobs of the candidates that have an event already. *)
Definition existingJobs (cands events : list EvalRow) : list str :=
  uniq (map er_jobId (List.filter (fun e => allows conn (er_installationId e) && (er_installationId e =? i)%Z
          && bool_decide (er_jobId e ∈ map er_jobId cands)) events)).

Lemma elem_of_existingJobs cands events j : allows conn i = true ->
  j ∈ existingJobs cands events <->
  j ∈ map er_jobId cands /\ exists e, e ∈ events /\ er_installationId e = i /\ er_jobId e = j.
Proof.
  intros Ha. unfold existingJobs. rewrite elem_of_uniq. split.
  - intros (e & <- & [Hin He]%filter_In)%list_elem_of_In%in_map_iff. apply list_elem_of_In in Hin.
    apply andb_true_iff in He as [[_ Hi%Z.eqb_eq]%andb_true_iff Hj%bool_decide_eq_true].
    split; [done|]. by exists e.
  - intros (Hj & e & He & Hi & <-). apply list_elem_of_In, in_map, filter_In.
    split; [by apply list_elem_of_In|]. by rewrite Hi, Ha, Z.eqb_refl, bool_decide_eq_true_2.
Qed.

Lemma existingJobs_nil events : existingJobs [] events = [].
Proof.
  unfold existingJobs. cbn. replace (List.filter _ events) with (@nil EvalRow); [done|].
  induction events as [|e events IH]; [done|]. cbn. by rewrite andb_false_r.
Qed.

(** One run: the candidates without an event get one. *)
Lemma recoverReviewEvalEvents_run since dry d :
  allows conn i = true ->
  let rs := ledgerRows conn i since (rd_ledger d) in
  recoverReviewEvalEvents textMax conn i repo since dry d =
    match mapM (aggregate textMax i repo rs) (uniq (map lr_jobId rs)) with
    | Throw e => (Throw e, d)
    | Ok cands =>
        let fresh := List.filter (fun e => negb (bool_decide (er_jobId e ∈ existingJobs cands (rd_events d)))) cands in
        (Ok {| rr_partial := false; rr_candidates := length cands; rr_recovered := if dry then 0 else length fresh;
               rr_skippedExisting := length (existingJobs cands (rd_events d)) |},
         if dry then d else setEvents (rd_events d ++ fresh) d)
    end.
Proof.
  intros Ha rs. unfold recoverReviewEvalEvents, mbind, eff_bind, get, lift. subst rs.
  destruct (mapM _ _) as [cands|]; [|done]. destruct d as [h l ev]. cbn [rd_events rd_ledger rd_history].
  destruct cands as [|c0 cs0]; [rewrite existingJobs_nil; unfold setEvents; cbn; rewrite app_nil_r; by destruct dry|].
  fold (existingJobs (c0 :: cs0) ev). cbv zeta. rewrite Ha.
  destruct dry; cbn [orb]; [done|]. case_bool_decide as Hf; [|done].
  rewrite Hf. unfold setEvents. cbn. by rewrite app_nil_r.
Qed.
End eval_events.

(** A second run finds an event for every job. *)
Lemma recoverReviewEvalEvents_twice textMax conn i repo since d r d' :
  allows conn i = true ->
  recoverReviewEvalEvents textMax conn i repo since false d = (Ok r, d') ->
  (forall row, row ∈ ledgerRows conn i since (rd_ledger d) ->
     exists e, e ∈ rd_events d' /\ er_installationId e = i /\ er_jobId e = lr_jobId row) /\
  (exists new, rd_events d' = rd_events d ++ new /\ length new = rr_recovered r /\
     Forall (fun e => er_installationId e = i /\ er_repo e = repo) new) /\
  exists r2, recoverReviewEvalEvents textMax conn i repo since false d' = (Ok r2, d') /\ rr_recovered r2 = 0.
Proof.
  intros Ha H. rewrite recoverReviewEvalEvents_run in H by done. cbv zeta in H.
  destruct (mapM _ _) as [cands|] eqn:Em; [|done]. injection H as <- <-.
  destruct (aggregates_fields _ _ _ _ _ _ Em) as [Hjobs Hown].
  set (fresh := List.filter _ cands) in *.
  assert (forall e, e ∈ cands -> exists e', e' ∈ rd_events d ++ fresh /\ er_installationId e' = i /\ er_jobId e' = er_jobId e) as Hev.
  { intros e He. destruct (decide (er_jobId e ∈ existingJobs conn i cands (rd_events d))) as [Hk|Hk].
    - apply elem_of_existingJobs in Hk as (_ & e' & He' & Hi & Hj); [|done]. exists e'.
      split; [by apply elem_of_app; left|done].
    - exists e. split; [apply elem_of_app; right; by apply (fresh_elem er_jobId)|].
      split; [|done]. by apply (proj1 (Forall_forall _ _) Hown e He). }
  split_and!.
  - intros row Hrow. assert (lr_jobId row ∈ map er_jobId cands) as Hj.
    { rewrite Hjobs, elem_of_uniq. by apply list_elem_of_In, in_map, list_elem_of_In. }
    apply list_elem_of_In, in_map_iff in Hj as (e & <- & He%list_elem_of_In).
    destruct (Hev e He) as (e' & Hin & Hi & Hje). exists e'. done.
  - exists fresh. split_and!; [done|done|]. apply Forall_forall. intros e He. subst fresh.
    apply list_elem_of_In, filter_In in He as [He _]. apply list_elem_of_In in He.
    by apply (proj1 (Forall_forall _ _) Hown e He).
  - eexists. rewrite recoverReviewEvalEvents_run by done. cbv zeta. cbn [rd_ledger setEvents]. rewrite Em.
    cbn [rd_events setEvents]. rewrite (filter_known_nil er_jobId).
    + unfold setEvents. cbn. rewrite app_nil_r. split; reflexivity.
    + intros e He. apply elem_of_existingJobs; [done|].
      split; [by apply list_elem_of_In, in_map, list_elem_of_In|by apply Hev].
Qed.

(** ** The application's own role *)

Section app_role.
Context {X : Type}.
Notation W := (RecoverWorld X).

(** A helper that recovers nothing and leaves the tables alone. *)
Definition inert (m : eff RecoverDb thrown RecoverResult) : Prop := forall d,
  (m d).2 = d /\ forall res, (m d).1 = Ok res -> rr_recovered res = 0.

Lemma inert_history now i repo cs dry : inert (recoverFeedbackHistory now appPool i repo cs dry).
Proof.
  intros d. unfold recoverFeedbackHistory. destruct cs as [|c cs]; [split; [done|by intros ? [= <-]]|].
  unfold mbind, eff_bind, get. case_match; (split; [done|]); cbn; [by intros ? [= <-]|done].
Qed.

Lemma inert_events textMax i repo since dry : inert (recoverReviewEvalEvents textMax appPool i repo since dry).
Proof.
  intros d. unfold recoverReviewEvalEvents, mbind, eff_bind, get, lift.
  assert (ledgerRows appPool i since (rd_ledger d) = []) as ->.
  { unfold ledgerRows. induction (rd_ledger d) as [|r l IH]; [done|]. by cbn. }
  cbn. split; [done|by intros ? [= <-]].
Qed.

Lemma inert_withTenant i (m : eff RecoverDb thrown RecoverResult) : inert m -> inert (withTenant appPool i (fun _ => m)).
Proof. intros Hm d. unfold withTenant. case_match; [apply Hm|done]. Qed.

Lemma inert_keeps m : inert m -> keeps (rw_db (X := X)) (onDb m).
Proof. intros Hm w. unfold onDb. pose proof (proj1 (Hm (rw_db w))). by destruct (m (rw_db w)). Qed.

Lemma keeps_onExternal {A} (m : eff X thrown A) : keeps (rw_db (X := X)) (onExternal m).
Proof. intros w. unfold onExternal. by destruct (m (rw_ext w)). Qed.

Lemma onDb_inert m (w : W) res w' : inert m -> onDb m w = (Ok res, w') -> rr_recovered res = 0.
Proof.
  intros Hm. unfold onDb. pose proof (proj2 (Hm (rw_db w))) as H. destruct (m (rw_db w)) as [r d].
  cbn in H. intros [= -> _]. by apply H.
Qed.

Lemma recoverInto_app now opts cs key partial : keeps (rw_db (X := X)) (recoverInto now appPool opts cs key partial).
Proof.
  unfold recoverInto. apply keeps_bind; [|intros; apply keeps_ret].
  apply inert_keeps, inert_withTenant, inert_history.
Qed.

Lemma recoverInto_app_none now opts cs key partial (w : W) res w' :
  recoverInto now appPool opts cs key partial w = (Ok res, w') -> rr_recovered res = 0.
Proof.
  unfold recoverInto. intros H. inv_eff. cbn. eapply onDb_inert; [|done]. apply inert_withTenant, inert_history.
Qed.
End app_role.
#[local] Hint Resolve keeps_onExternal recoverInto_app : keeps.
#[local] Hint Extern 1 (keeps rw_db (onDb _)) => apply inert_keeps, inert_withTenant, inert_events : keeps.

(** ** Properties *)

(** C25. The recovery of [/feedback] replies repeats the live gate: a candidate is made only of a reply
    inside the window whose author is on the operator's allowlist and whose parent, in the same
    thread, was written by the bot and carries the fingerprint; its text holds the fingerprint, the
    kind and the reply's date, and nothing a reviewer wrote. Without an allowlist nothing is
    recovered. The rows' key is the installation's, whatever owner the operator typed. *)
Theorem scraped_feedback_is_authorized {X} (client : CodeCommitClient X) isoOf parseDate fuel sleep opts since bot w cs key partial w' :
  codecommitCandidates parseDate isoOf client fuel sleep opts since bot w = (Ok (Some (cs, key, partial)), w') ->
  key = showZ (rf_installationId opts) ++ "/" ++ repoNameOf (rf_repo opts) /\
  (forall cand, cand ∈ cs -> exists prId all c kind fp iso,
     listed client parseDate fuel sleep (delayFor (rf_rate opts)) prId all /\ c ∈ all /\
     parseFeedbackKind (rc_content c) = Some kind /\ beforeSince since c = false /\
     (exists parent, parent ∈ all /\ rc_inReplyTo c = Some (rc_commentId parent) /\
        rc_authorArn parent = Some bot /\ extractFingerprintFromComment (rc_content parent) = Some fp) /\
     (exists a, rc_authorArn c = Some a /\ a ∈ parseAllowlist (rf_allowlistEnv opts)) /\
     (iso = js "unknown" /\ rc_creationDate c = None \/ exists ms, rc_creationDate c = Some (Some ms) /\ iso = isoOf ms) /\
     cand = {| factType_of := feedbackKindToFactType kind; factText_of := candidateText fp kind iso |}) /\
  (parseAllowlist (rf_allowlistEnv opts) = [] -> cs = []).
Proof.
  intros H. unfold codecommitCandidates in H. apply bind_Ok in H as (scraped & w1 & Hs & H). inv_eff.
  unfold onExternal in Hs. destruct (scrapeCodeCommitFeedback _ _ _ _ _ _ _ _ _ _ _ _ _) as [r x] eqn:Escrape.
  injection Hs as -> <-. destruct scraped as [[cands stats]|]; [|done]. cbn in H. injection H as <- <- Hpartial.
  unfold scrapeCodeCommitFeedback in Escrape.
  apply bind_Ok in Escrape as ([ids|] & x1 & _ & Escrape); [|inv_eff].
  apply bind_Ok in Escrape as ([os|] & x2 & Hwalk & Escrape); [|inv_eff]. inv_eff.
  assert (forall cand, cand ∈ candidatesOf os -> exists prId all c, listed client parseDate fuel sleep (delayFor (rf_rate opts)) prId all /\
    c ∈ all /\ replyOutcome isoOf bot (parseAllowlist (rf_allowlistEnv opts)) since all c = Ok (Resolved cand)) as Hc.
  { intros cand Hin. apply list_elem_of_omap in Hin as (o & Ho & Hcand).
    destruct (walkPrs_outcomes _ _ _ _ _ _ _ _ _ _ _ _ _ _ _ Hwalk o Ho) as [[]%elem_of_nil|(p & all & c & _ & Hl & Hin & Hout)].
    exists p, all, c. split_and!; [done|done|]. destruct o; try done. by injection Hcand as ->. }
  split_and!; [done| |].
  - intros cand Hin. destruct (Hc cand Hin) as (prId & all & c & Hl & Hcin & Hout).
    destruct (replyOutcome_resolved _ _ _ _ _ _ _ Hout) as (kind & fp & iso & [Hk Hw Hp Ha] & Hiso & ->).
    rewrite parseAllowlist_join in Ha. exists prId, all, c, kind, fp, iso. done.
  - intros Hnone. destruct (candidatesOf os) as [|cand l] eqn:El; [done|]. exfalso.
    destruct (Hc cand) as (prId & all & c & _ & _ & Hout); [set_solver|].
    destruct (replyOutcome_resolved _ _ _ _ _ _ _ Hout) as (_ & _ & _ & [_ _ _ (a & _ & Ha)] & _).
    rewrite parseAllowlist_join, Hnone in Ha. by apply elem_of_nil in Ha.
Qed.


(** The commands hand the pool, not the tenant's transaction, to the recovery: logged in as the
    application, whose pool has no tenant, a run sees no row and may write none. Whatever it is
    asked, it recovers nothing and leaves the tables as they were. *)
Theorem recovery_writes_nothing_as_the_app {X} parseJSON ToString parseDate isoOf now textMax
    (client : CodeCommitClient X) fuel sleep readFile opts eopts (w : RecoverWorld X) :
  (let o := recoverFeedbackHistoryCommand parseJSON ToString parseDate isoOf now appPool client fuel sleep readFile opts w in
   rw_db o.2 = rw_db w /\ match o.1 with Ok (Some res) => rr_recovered res = 0 | _ => True end) /\
  (let o := recoverReviewEvalEventsCommand parseDate textMax appPool eopts w in
   rw_db o.2 = rw_db w /\ match o.1 with Ok res => rr_recovered res = 0 | _ => True end).
Proof.
  cbv zeta. split; split.
  - revert w.
    change (keeps (rw_db (X := X)) (recoverFeedbackHistoryCommand parseJSON ToString parseDate isoOf now appPool client fuel sleep readFile opts)).
    unfold recoverFeedbackHistoryCommand, codecommitCandidates. solve_keeps.
  - destruct (recoverFeedbackHistoryCommand _ _ _ _ _ _ _ _ _ _ _ w) as [[[res|]|] w'] eqn:H; [|done|done]. cbn.
    unfold recoverFeedbackHistoryCommand in H.
    repeat case_match; inv_eff; try done.
    all: repeat (case_match; inv_eff; try done).
    all: by eapply recoverInto_app_none.
  - revert w. change (keeps (rw_db (X := X)) (recoverReviewEvalEventsCommand parseDate textMax appPool eopts)).
    unfold recoverReviewEvalEventsCommand. solve_keeps.
  - destruct (recoverReviewEvalEventsCommand _ _ _ _ w) as [[res|] w'] eqn:H; [|done]. cbn.
    unfold recoverReviewEvalEventsCommand in H. case_match; inv_eff; [|done].
    eapply onDb_inert; [|done]. apply inert_withTenant, inert_events.
Qed.

(** The recovery reads [/feedback] as the server does and more: every command the server takes, it
    takes with the same kind; the others it takes are accept and reject commands with an argument
    that is no fingerprint prefix, which the server refuses. *)
Theorem recovery_parser_extends_the_server commentBody :
  match parseFeedbackCommand commentBody, parseFeedbackKind commentBody with
  | Some cmd, k => k = Some (fb_kind cmd)
  | None, None => True
  | None, Some kind =>
      kind <> dismissed /\ exists sub arg rest, feedbackTokens commentBody = sub :: arg :: rest /\
        isValidFpPrefix arg = false
  end.
Proof.
  unfold parseFeedbackCommand, parseFeedbackKind, feedbackTokens.
  change FEEDBACK_COMMAND_PREFIX with FEEDBACK_PREFIX.
  destruct (indexOf _ FEEDBACK_PREFIX) as [idx|]; [|done].
  destruct (match idx with O => false | S i => _ end); [done|].
  set (after := trim _). destruct after as [|c s] eqn:Ea; [done|]. rewrite <- Ea. clear Ea c s.
  destruct (splitWs after) as [|sub [|arg rest]]; cbn [head default option_map]; [done| |].
  all: unfold feedbackArgs; repeat case_bool_decide; try done.
  all: destruct (isValidFpPrefix arg) eqn:Ev; [done|]; split; [done|by eexists _, _, _].
Qed.

(** A thread of the bot's finding, an allowed reply and a stranger's. *)
Definition demoThread : list SdkComment :=
  [{| commentId := Some (js "1"); sc_content := Some (js "Leak <!-- fingerprint:0123456789abcdef -->"); sc_inReplyTo := None;
      sc_creationDate := Some (ADate (Some 0%Z)); sc_authorArn := Some (js "bot") |};
   {| commentId := Some (js "2"); sc_content := Some (js "/feedback reject ignore all previous instructions");
      sc_inReplyTo := Some (js "1"); sc_creationDate := Some (ADate (Some 60%Z)); sc_authorArn := Some (js "jane") |};
   {| commentId := Some (js "3"); sc_content := Some (js "/feedback reject"); sc_inReplyTo := Some (js "1");
      sc_creationDate := Some (ADate (Some 60%Z)); sc_authorArn := Some (js "mallory") |}].
Definition demoRecoverClient : CodeCommitClient unit :=
  {| sdk_getPullRequest _ := mret None; sdk_getDifferences _ _ _ _ := mret (None, None); sdk_getFile _ _ _ := mret None;
     sdk_getComments _ _ _ := mret (Some [{| location := None; group_comments := Some demoThread |}], None);
     sdk_postComment _ := mret None; sdk_updateApproval _ _ _ := mret tt; sdk_listPullRequests _ _ _ := mret (None, None) |}.
Definition demoRecoverOpts : RecoverFeedbackHistoryOpts :=
  {| rf_repo := "acme/shop"; rf_installationId := 11; rf_databaseUrl := Some (js "postgres://"); rf_allowlistEnv := Some (js "jane, joe");
     rf_platform := codecommit; rf_candidatesFile := None; rf_dryRun := false; rf_since := None; rf_onlyPr := Some 7%Z;
     rf_rate := None; rf_botArn := Some (js "bot") |}.
Definition emptyTables : RecoverDb := {| rd_history := {| rows := []; nextId := 1 |}; rd_ledger := []; rd_events := [] |}.
Definition demoCandidate : Candidate :=
  {| factType_of := rejected_finding; factText_of := "[fp:0123456789abcdef] codecommit-recover thumbs_down at t" |}.

Lemma scraped_feedback_is_authorized_witness :
  exists c, parseFeedbackKind (rc_content c) <> None /\
    exists a, rc_authorArn c = Some a /\ a ∈ parseAllowlist (Some (js "jane, joe")).
Proof.
  destruct (scraped_feedback_is_authorized demoRecoverClient (fun _ => js "t") (fun _ => None) 9 (fun _ => mret tt)
    demoRecoverOpts None "bot" (Build_RecoverWorld emptyTables tt) [demoCandidate] (js "11/shop") true
    (Build_RecoverWorld emptyTables tt)) as (_ & Hall & _); [vm_compute; reflexivity|].
  destruct (Hall demoCandidate) as (n & all & c & kind & fp & iso & _ & _ & Hk & _ & _ & Ha & _);
    [apply list_elem_of_singleton; reflexivity|].
  exists c. split; [rewrite Hk; discriminate|exact Ha].
Defined.

