(* ===== verification/Backfill.v ===== *)
(** * The reaction backfill (cli/src/commands/feedback-backfill.ts)

    The command walks a repository's pull requests, the bot's review comments and their reactions,
    and records the thumbs. Octokit, the writer, the clock and the state file are effects on a
    world [W]; JSON's text and the view of a parsed value as a state are parameters with their
    round trip as a law. Pagination runs on fuel ([None] is a walk still going), and [backfill_ends]
    says which fuel is enough; the lines printed for the operator are left out. The two thumbs of a fact's text, outside the model's characters,
    are parameters. *)

From S2P Require Import Prelude JsNumber NumberText JsonTree JsMap Errors Schema Review Queue Commands Dedup Feedback.
From S2P Require Import Vcs Recover.

(** ** Data *)

Record BackfillPr := { bp_number : Z; bp_updated_at : option str }.
Record BackfillReviewComment := {
  bc_id : Z;
  bc_path : option str;
  bc_line : option Z;
  bc_original_line : option Z;
  bc_body : option str;
  bc_login : option str;
  bc_type : option str;
}.
Record BackfillReaction := { br_id : Z; br_content : str; br_login : option str; br_created_at : str }.

Record BackfillPrState := {
  ps_lastCommentId : Z;
  ps_lastReactionId : Z;
  ps_processed : Z;
  ps_recorded : Z;
  ps_unresolved : Z;
  ps_skipped : Z;
  ps_completed : bool;
}.
Record BackfillStateFile := { sf_repo : str; sf_installationId : str; sf_prs : jsmap BackfillPrState }.

Record BackfillOctokit (W : Type) := {
  bo_listPrs : Z -> eff W thrown (list BackfillPr);
  bo_listComments : Z -> Z -> eff W thrown (list BackfillReviewComment);
  bo_listReactions : Z -> Z -> eff W thrown (list BackfillReaction);
}.
Arguments bo_listPrs {W}.
Arguments bo_listComments {W}.
Arguments bo_listReactions {W}.

Inductive BackfillStatus := bf_ok | bf_dry_run | bf_auth_failed | bf_config_error | bf_invalid_args | bf_platform_unsupported.
Record Totals := { t_processed : Z; t_recorded : Z; t_unresolved : Z; t_skipped : Z }.
Definition zeroTotals : Totals := {| t_processed := 0; t_recorded := 0; t_unresolved := 0; t_skipped := 0 |}.

(** [PrRunTotals] *)
Record PrRun := { run_totals : Totals; run_lastCommentId : Z; run_lastReactionId : Z }.

Definition PAGE_SIZE : nat := 100.
Definition BACKFILL_FALLBACK_RULE_ID : str := "backfill-unknown".

(** ** Comments *)

Definition isBotComment (comment : BackfillReviewComment) (botLogin : option str) : bool :=
  match truthyStr botLogin with
  | Some login => bool_decide (bc_login comment = Some login)
  | None => bool_decide (bc_type comment = Some (js "Bot"))
  end.

Definition mapReactionContent (content : str) : option FeedbackKind :=
  if bool_decide (content = js "+1") then Some thumbs_up
  else if bool_decide (content = js "-1") then Some thumbs_down
  else None.

(** A comment [<!-- name:group -->] at the head of a text, its group matched by [group]. *)
Definition commentAt (name : str) (group : str -> option str) (s : str) : option str :=
  if startsWith s "<!--" then
    let t := trimStart (drop 4 s) in
    if startsWith t name then group (drop (length name) t) else None
  else None.

(** [exec]: the first place where the expression matches. *)
Fixpoint firstMatch (at_ : str -> option str) (s : str) : option str :=
  match at_ s with
  | Some g => Some g
  | None => match s with [] => None | _ :: s' => firstMatch at_ s' end
  end.

Definition closes (s : str) : bool := startsWith (trimStart s) "-->".

(** [([0-9a-f]+)\s*-->] *)
Definition hexGroup (s : str) : option str :=
  let hex := takeWhile is_hex s in
  if bool_decide (hex <> []) && closes (drop (length hex) s) then Some hex else None.

(** The longest group of at most [n] characters behind which the comment closes. *)
Fixpoint longestGroup (n : nat) (s : str) : option str :=
  match n with
  | O | S O => None
  | S m => if closes (drop n s) then Some (take n s) else longestGroup m s
  end.

Definition isRuleChar (c : ascii) : bool := is_lower c || is_digit c || eqc c "-".

(** [([a-z][a-z0-9-]+)\s*-->] *)
Definition ruleGroup (s : str) : option str :=
  match s with
  | c :: _ => if is_lower c then longestGroup (length (takeWhile isRuleChar s)) s else None
  | [] => None
  end.

Definition embeddedFingerprint (body : str) : option str := firstMatch (commentAt "fingerprint:" hexGroup) body.
Definition parseRuleIdFromBody (body : str) : option str := firstMatch (commentAt "rule:" ruleGroup) body.

Section backfill.
Context (sha256hex : str -> str) (parseDate : str -> option Z) (thumbsUpSign thumbsDownSign : str).

(** What the fallback hashes. *)
Definition fallbackInput (body path : str) (line : Z) : FingerprintInput :=
  {| fi_path := path; fi_line := line; fi_ruleId := default BACKFILL_FALLBACK_RULE_ID (parseRuleIdFromBody body);
     fi_suggestionType := "comment" |}.

Definition resolveCommentFingerprint (comment : BackfillReviewComment) : option str :=
  let body := default [] (bc_body comment) in
  match truthyStr (embeddedFingerprint body) with
  | Some fp => Some fp
  | None =>
      path ← truthyStr (bc_path comment);
      line ← (match bc_line comment with Some l => Some l | None => bc_original_line comment end);
      if (line =? 0)%Z then None else Some (fingerprint sha256hex (fallbackInput body path line))
  end.

Record RepoRef := { rr_owner : str; rr_repo : str; rr_repoFull : str }.
Definition parseRepoRef (repo : str) : option RepoRef :=
  match parseRepo repo with
  | Ok (owner, name) => Some {| rr_owner := owner; rr_repo := name; rr_repoFull := owner ++ "/" ++ name |}
  | Throw _ => None
  end.

Definition prKey (n : Z) : str := "pr#" ++ showZ n.

Definition addTotals (a b : Totals) : Totals :=
  {| t_processed := t_processed a + t_processed b; t_recorded := t_recorded a + t_recorded b;
     t_unresolved := t_unresolved a + t_unresolved b; t_skipped := t_skipped a + t_skipped b |}%Z.
Definition totalsOf (s : BackfillPrState) : Totals :=
  {| t_processed := ps_processed s; t_recorded := ps_recorded s; t_unresolved := ps_unresolved s; t_skipped := ps_skipped s |}.

(** ** One pull request *)

Context {W : Type} (octokit : BackfillOctokit W) (fuel : nat) (sleep : number -> eff W thrown unit) (delayMs : number)
        (recordFeedback : FeedbackEvent -> eff W thrown bool) (dryRun : bool)
        (installationId : Z) (repoFull : str) (botLogin : option str).

Definition pace (always : bool) (page : Z) : eff W thrown unit :=
  if ngt delayMs zero && (always || (1 <? page)%Z) then sleep delayMs else mret tt.

Definition countUnresolved (r : PrRun) : PrRun :=
  {| run_totals := addTotals (run_totals r) {| t_processed := 0; t_recorded := 0; t_unresolved := 1; t_skipped := 0 |};
     run_lastCommentId := run_lastCommentId r; run_lastReactionId := run_lastReactionId r |}.
Definition countReaction (dropped : bool) (reactionId : Z) (r : PrRun) : PrRun :=
  {| run_totals := addTotals (run_totals r)
       {| t_processed := 1; t_recorded := if dropped then 0 else 1; t_unresolved := 0; t_skipped := if dropped then 1 else 0 |};
     run_lastCommentId := run_lastCommentId r; run_lastReactionId := reactionId |}.
Definition seenComment (commentId : Z) (r : PrRun) : PrRun :=
  {| run_totals := run_totals r; run_lastCommentId := commentId; run_lastReactionId := run_lastReactionId r |}.

Definition eventOf (pr : Z) (fp : str) (kind : FeedbackKind) (reaction : BackfillReaction) : FeedbackEvent :=
  {| fe_installationId := installationId; fe_repo := repoFull; fe_prNumber := pr; fe_fingerprint := fp; fe_kind := kind;
     fe_factText := (match kind with thumbs_up => thumbsUpSign | _ => thumbsDownSign end)
                    ++ " reaction by " ++ default (js "unknown") (br_login reaction) ++ " (backfill)";
     fe_occurredAt := default 0%Z (parseDate (br_created_at reaction)) |}.

(** [start] is the comment and the reaction the prior run stopped at. *)
Fixpoint reactionsOf (pr commentId : Z) (fp : str) (start : Z * Z) (reactions : list BackfillReaction) (r : PrRun)
    : eff W thrown PrRun :=
  match reactions with
  | [] => mret r
  | reaction :: rest =>
      if (commentId =? start.1)%Z && (0 <? start.2)%Z && (br_id reaction <=? start.2)%Z
      then reactionsOf pr commentId fp start rest r
      else match mapReactionContent (br_content reaction) with
           | None => reactionsOf pr commentId fp start rest r
           | Some kind =>
               dropped ← (if dryRun then mret false else recordFeedback (eventOf pr fp kind reaction));
               reactionsOf pr commentId fp start rest (countReaction dropped (br_id reaction) r)
           end
  end.

Fixpoint reactionPages (n : nat) (pr commentId : Z) (fp : str) (start : Z * Z) (page : Z) (r : PrRun)
    : eff W thrown (option PrRun) :=
  match n with
  | O => mret None
  | S n =>
      pace true page;;
      reactions ← bo_listReactions octokit commentId page;
      match reactions with
      | [] => mret (Some r)
      | _ =>
          r' ← reactionsOf pr commentId fp start reactions r;
          if (length reactions <? PAGE_SIZE)%nat then mret (Some r')
          else reactionPages n pr commentId fp start (page + 1)%Z r'
      end
  end.

Fixpoint commentsOf (pr : Z) (start : Z * Z) (comments : list BackfillReviewComment) (r : PrRun) : eff W thrown (option PrRun) :=
  match comments with
  | [] => mret (Some r)
  | comment :: rest =>
      if negb (isBotComment comment botLogin) || (bc_id comment <? start.1)%Z then commentsOf pr start rest r
      else match truthyStr (resolveCommentFingerprint comment) with
           | None => commentsOf pr start rest (countUnresolved r)
           | Some fp =>
               o ← reactionPages fuel pr (bc_id comment) fp start 1 r;
               match o with
               | None => mret None
               | Some r' => commentsOf pr start rest (seenComment (bc_id comment) r')
               end
           end
  end.

Fixpoint commentPages (n : nat) (pr : Z) (start : Z * Z) (page : Z) (r : PrRun) : eff W thrown (option PrRun) :=
  match n with
  | O => mret None
  | S n =>
      pace false page;;
      comments ← bo_listComments octokit pr page;
      match comments with
      | [] => mret (Some r)
      | _ =>
          o ← commentsOf pr start comments r;
          match o with
          | None => mret None
          | Some r' => if (length comments <? PAGE_SIZE)%nat then mret (Some r') else commentPages n pr start (page + 1)%Z r'
          end
      end
  end.

Definition startOf (prior : option BackfillPrState) : Z * Z :=
  match prior with Some s => (ps_lastCommentId s, ps_lastReactionId s) | None => (0, 0)%Z end.

Definition processPr (pr : Z) (prior : option BackfillPrState) : eff W thrown (option PrRun) :=
  let start := startOf prior in
  commentPages fuel pr start 1
    {| run_totals := match prior with Some s => totalsOf s | None => zeroTotals end;
       run_lastCommentId := start.1; run_lastReactionId := start.2 |}.

(** ** The walk *)

Context (writeState : BackfillStateFile -> eff W thrown unit) (hasStateFile : bool) (since : option Z).

(** The order of a date before [since]; an invalid date is not before. *)
Definition crossesSince (pr : BackfillPr) : bool :=
  match since, truthyStr (bp_updated_at pr) with
  | Some s, Some text => match parseDate text with Some u => (u <? s)%Z | None => false end
  | _, _ => false
  end.

Definition completedState (run : PrRun) : BackfillPrState :=
  {| ps_lastCommentId := run_lastCommentId run; ps_lastReactionId := run_lastReactionId run;
     ps_processed := t_processed (run_totals run); ps_recorded := t_recorded (run_totals run);
     ps_unresolved := t_unresolved (run_totals run); ps_skipped := t_skipped (run_totals run); ps_completed := true |}.

Definition setPr (n : Z) (s : BackfillPrState) (st : BackfillStateFile) : BackfillStateFile :=
  {| sf_repo := sf_repo st; sf_installationId := sf_installationId st; sf_prs := mapSet (prKey n) s (sf_prs st) |}.

(** What the loop carries: the totals and the state in memory. *)
Definition progress : Type := Totals * BackfillStateFile.

(** The body of the loop for one pull request. *)
Definition backfillPr (pr : BackfillPr) (p : progress) : eff W thrown (option progress) :=
  let '(totals, st) := p in
  let prior := mapGet (prKey (bp_number pr)) (sf_prs st) in
  match prior with
  | Some {| ps_completed := true |} => mret (Some (addTotals totals (match prior with Some s => totalsOf s | None => zeroTotals end), st))
  | _ =>
      o ← processPr (bp_number pr) prior;
      match o with
      | None => mret None
      | Some run =>
          let st' := setPr (bp_number pr) (completedState run) st in
          (if hasStateFile then writeState st' else mret tt);;
          mret (Some (addTotals totals (run_totals run), st'))
      end
  end.

(** The pull requests of a page up to the first that crosses [since]; [true] when one did. *)
Fixpoint backfillPage (prs : list BackfillPr) (p : progress) : eff W thrown (option (progress * bool)) :=
  match prs with
  | [] => mret (Some (p, false))
  | pr :: rest =>
      if crossesSince pr then mret (Some (p, true))
      else
        o ← backfillPr pr p;
        match o with
        | None => mret None
        | Some p' => backfillPage rest p'
        end
  end.

Fixpoint backfillPages (n : nat) (page : Z) (p : progress) : eff W thrown (option progress) :=
  match n with
  | O => mret None
  | S n =>
      pace false page;;
      prs ← bo_listPrs octokit page;
      match prs with
      | [] => mret (Some p)
      | _ =>
          o ← backfillPage prs p;
          match o with
          | None => mret None
          | Some (p', crossed) =>
              if (crossed : bool) || (length prs <? PAGE_SIZE)%nat then mret (Some p')
              else backfillPages n (page + 1)%Z p'
          end
      end
  end.
End backfill.

(** ** The command *)

Definition isBackfillStateFile (v : json) : bool :=
  match v with
  | JObj _ =>
      match member "version" v, member "repo" v, member "installationId" v, member "prs" v with
      | Some (JNum n), Some (JStr _), Some (JStr _), Some (JObj _ | JArr _) => bool_decide (integerOf n = Some 1%Z)
      | _, _, _, _ => false
      end
  | _ => false
  end.

Definition emptyState (repoFull : str) (installationId : Z) : BackfillStateFile :=
  {| sf_repo := repoFull; sf_installationId := showZ installationId; sf_prs := [] |}.

(** [Math.round] of a positive finite number: half a unit up, then down to an integer. *)
Definition nround (x : number) : number :=
  match x with
  | SpecFloat.S754_finite s m e =>
      let v := if s then Z.neg m else Z.pos m in
      num_of_Z (if (0 <=? e)%Z then v * 2 ^ e else (2 * v + 2 ^ (- e)) / (2 * 2 ^ (- e)))%Z
  | _ => x
  end.

Record FeedbackBackfillOpts := {
  fo_installationId : Z;
  fo_repo : str;
  fo_platform : option VcsPlatform;
  fo_since : option str;
  fo_stateFile : option str;
  fo_dryRun : bool;
  fo_rate : option number;
  fo_botLogin : option str;
}.
Record BackfillEnv := {
  env_ghToken : option str;
  env_githubToken : option str;
  env_databaseUrl : option str;
  env_agentDatabaseUrl : option str;
  env_botLogin : option str;
}.

Definition orElse {A} (a b : option A) : option A := match a with Some _ => a | None => b end.

(** What the command reaches outside: GitHub, the state file, the database's writer, and the text of
    a JSON value. [viewAs] is the cast of a parsed value to the state's type. *)
Record BackfillDeps (W : Type) := {
  bd_octokit : str -> BackfillOctokit W;
  bd_record : str -> FeedbackEvent -> eff W thrown bool;
  bd_readState : str -> eff W thrown (option str);
  bd_writeState : str -> str -> eff W thrown unit;
  bd_sleep : number -> eff W thrown unit;
  bd_parseJSON : str -> result str json;
  bd_stringify : BackfillStateFile -> str;
  bd_viewAs : json -> BackfillStateFile;
  bd_parseDate : str -> option Z;
  bd_sha256 : str -> str;
  bd_thumbs : str * str;
}.
Arguments bd_octokit {W}.
Arguments bd_record {W}.
Arguments bd_readState {W}.
Arguments bd_writeState {W}.
Arguments bd_sleep {W}.
Arguments bd_parseJSON {W}.
Arguments bd_stringify {W}.
Arguments bd_viewAs {W}.
Arguments bd_parseDate {W}.
Arguments bd_sha256 {W}.
Arguments bd_thumbs {W}.

Section command.
Context {W : Type} (deps : BackfillDeps W) (env : BackfillEnv) (fuel : nat).

Definition loadStateFile (path repoFull : str) (installationId : Z) : eff W thrown BackfillStateFile :=
  raw ← bd_readState deps path;
  match raw with
  | None => mret (emptyState repoFull installationId)
  | Some text =>
      match bd_parseJSON deps text with
      | Throw m => lift (error ("state-file " ++ path ++ " is not valid JSON: " ++ m))
      | Ok parsed =>
          if isBackfillStateFile parsed then mret (bd_viewAs deps parsed)
          else lift (error ("state-file " ++ path ++ " schema does not match BackfillStateFile"))
      end
  end.

Definition persistStateFile (path : str) (st : BackfillStateFile) : eff W thrown unit :=
  bd_writeState deps path (bd_stringify deps st).

(** The walk with the state the file gave. *)
Definition runBackfill (opts : FeedbackBackfillOpts) (token dbUrl : str) (repoFull : str) (since : option Z)
    (delayMs : number) : eff W thrown (option (BackfillStatus * Totals)) :=
  let stateFile := truthyStr (fo_stateFile opts) in
  st ← match stateFile with
       | Some path => loadStateFile path repoFull (fo_installationId opts)
       | None => mret (emptyState repoFull (fo_installationId opts))
       end;
  o ← backfillPages (bd_sha256 deps) (bd_parseDate deps) (bd_thumbs deps).1 (bd_thumbs deps).2
        (bd_octokit deps token) fuel (bd_sleep deps) delayMs (bd_record deps dbUrl) (fo_dryRun opts)
        (fo_installationId opts) repoFull (orElse (fo_botLogin opts) (env_botLogin env))
        (match stateFile with Some path => persistStateFile path | None => fun _ => mret tt end)
        (bool_decide (is_Some stateFile)) since fuel 1 (zeroTotals, st);
  mret ('(totals, _) ← o; Some (if fo_dryRun opts then bf_dry_run else bf_ok, totals)).

Definition feedbackBackfillCommand (opts : FeedbackBackfillOpts) : eff W thrown (option (BackfillStatus * Totals)) :=
  let stop s := mret (Some (s, zeroTotals)) in
  match default github (fo_platform opts) with
  | codecommit => stop bf_platform_unsupported
  | github =>
      match parseRepoRef (fo_repo opts) with
      | None => stop bf_invalid_args
      | Some ref =>
          let since := s ← fo_since opts; parseIsoDate (bd_parseDate deps) s in
          if bool_decide (is_Some (fo_since opts)) && negb (bool_decide (is_Some since)) then stop bf_invalid_args
          else
            let rate := default (num_of_Z 2) (fo_rate opts) in
            if negb (isFinite rate) || nle rate zero then stop bf_invalid_args
            else match truthyStr (orElse (env_ghToken env) (env_githubToken env)) with
                 | None => stop bf_auth_failed
                 | Some token =>
                     let dbUrl := orElse (env_databaseUrl env) (env_agentDatabaseUrl env) in
                     if negb (fo_dryRun opts) && negb (bool_decide (is_Some (truthyStr dbUrl))) then stop bf_config_error
                     else runBackfill opts token (default [] dbUrl) (rr_repoFull ref) since (nround (ndiv (num_of_Z 1000) rate))
                 end
      end
  end.
End command.

(** ** Runs over one state *)

Definition completedIn (st : BackfillStateFile) (n : Z) (s : BackfillPrState) : Prop :=
  mapGet (prKey n) (sf_prs st) = Some s /\ ps_completed s = true.

(** Every entry completed in [st] is in [st']. *)
Definition extends (st st' : BackfillStateFile) : Prop := forall n s, completedIn st n s -> completedIn st' n s.

#[export] Instance extends_preorder : PreOrder extends.
Proof. split; [by intros st n s|]. intros a b c Hab Hbc n s H. by apply Hbc, Hab. Qed.

Lemma prKey_inj n m : prKey n = prKey m -> n = m.
Proof. unfold prKey. intros H%app_inv_head. by apply showZ_inj. Qed.

Lemma completedIn_setPr n run st : completedIn (setPr n (completedState run) st) n (completedState run).
Proof. split; [|done]. unfold setPr. cbn [sf_prs]. by rewrite mapGet_mapSet, bool_decide_eq_true_2. Qed.

Lemma setPr_extends n run st : (forall s, ~ completedIn st n s) -> extends st (setPr n (completedState run) st).
Proof.
  intros Hn m s Hs. destruct (decide (m = n)) as [->|Hm]; [by apply Hn in Hs|].
  destruct Hs as [Hget Hc]. split; [|done]. unfold setPr. cbn [sf_prs]. rewrite mapGet_mapSet.
  rewrite bool_decide_eq_false_2; [done|]. by intros ?%prKey_inj.
Qed.

Section again.
Context (sha256hex : str -> str) (parseDate : str -> option Z) (up down : str) {W : Type} (octokit : BackfillOctokit W)
        (fuel : nat) (sleep : number -> eff W thrown unit) (delayMs : number) (installationId : Z) (repoFull : str)
        (botLogin : option str) (since : option Z).

(** The loop's steps in a rehearsal, and the same steps in a later run that records. *)
Context (record1 record2 : FeedbackEvent -> eff W thrown bool) (dry1 dry2 : bool) (write1 write2 : BackfillStateFile -> eff W thrown unit)
        (has1 has2 : bool).
Notation pr1 := (backfillPr sha256hex parseDate up down octokit fuel sleep delayMs record1 dry1 installationId repoFull botLogin write1 has1).
Notation pr2 := (backfillPr sha256hex parseDate up down octokit fuel sleep delayMs record2 dry2 installationId repoFull botLogin write2 has2).
Notation page1 := (backfillPage sha256hex parseDate up down octokit fuel sleep delayMs record1 dry1 installationId repoFull botLogin write1 has1 since).
Notation page2 := (backfillPage sha256hex parseDate up down octokit fuel sleep delayMs record2 dry2 installationId repoFull botLogin write2 has2 since).

Lemma backfillPr_completed (pr : BackfillPr) tot st s w : completedIn st (bp_number pr) s ->
  pr2 pr (tot, st) w = (Ok (Some (addTotals tot (totalsOf s), st)), w).
Proof. intros [Hget Hc]. unfold backfillPr. rewrite Hget. destruct s as [? ? ? ? ? ? []]; done. Qed.

Lemma backfillPr_again pr tot st w tot' st' w' :
  pr1 pr (tot, st) w = (Ok (Some (tot', st')), w') ->
  extends st st' /\ forall st2 w2, extends st' st2 -> pr2 pr (tot, st2) w2 = (Ok (Some (tot', st2)), w2).
Proof.
  intros H. assert (forall o, mapGet (prKey (bp_number pr)) (sf_prs st) = o ->
      (forall s, o = Some s -> ps_completed s = false) -> forall s, ~ completedIn st (bp_number pr) s) as Hopen.
  { intros o Ho Hs s [Hget Hc]. rewrite Ho in Hget. apply Hs in Hget. congruence. }
  unfold backfillPr in H.
  destruct (mapGet _ _) as [[a b c d e f []]|] eqn:Hget.
  - injection H as <- <- <-. split; [done|]. intros st2 w2 Hext.
    erewrite (backfillPr_completed pr tot st2); [reflexivity|]. by apply Hext.
  - apply bind_Ok in H as ([run|] & w1 & _ & H); [|inv_eff].
    apply bind_Ok in H as ([] & w2 & _ & H). inv_eff. split.
    + apply setPr_extends, (Hopen _ eq_refl). by intros s [= <-].
    + intros st2 w3 Hext. erewrite (backfillPr_completed pr tot st2); [|apply Hext, completedIn_setPr]. done.
  - apply bind_Ok in H as ([run|] & w1 & _ & H); [|inv_eff].
    apply bind_Ok in H as ([] & w2 & _ & H). inv_eff. split.
    + by apply setPr_extends, (Hopen _ eq_refl).
    + intros st2 w3 Hext. erewrite (backfillPr_completed pr tot st2); [|apply Hext, completedIn_setPr]. done.
Qed.

Lemma backfillPage_again prs : forall tot st w tot' st' crossed w',
  page1 prs (tot, st) w = (Ok (Some ((tot', st'), crossed)), w') ->
  extends st st' /\ forall st2 w2, extends st' st2 -> page2 prs (tot, st2) w2 = (Ok (Some ((tot', st2), crossed)), w2).
Proof.
  induction prs as [|pr prs IH]; intros tot st w tot' st' crossed w' H; cbn [backfillPage] in *.
  { inv_eff. done. }
  destruct (crossesSince parseDate since pr) eqn:Ec; [inv_eff; done|].
  apply bind_Ok in H as ([[tot1 st1]|] & w1 & H1 & H); [|inv_eff].
  apply backfillPr_again in H1 as [He1 Hr1]. apply IH in H as [He2 Hr2].
  split; [by trans st1|]. intros st2 w2 Hext.
  unfold mbind, eff_bind. rewrite (Hr1 st2 w2) by (by trans st'). by apply Hr2.
Qed.
End again.

(** ** The world of a run *)

Section world.
Context {W H : Type} (deps : BackfillDeps W) (env : BackfillEnv) (fuel : nat).
(** The state file's text, the review history, and the pull requests of each page. *)
Context (file : W -> option str) (history : W -> H) (listing : Z -> list BackfillPr).

(** GitHub lists the same pull requests throughout and is only read; the state file is a file; JSON
    reads back what it wrote. *)
Record Service : Prop := {
  sv_list : forall token page w, bo_listPrs (bd_octokit deps token) page w = (Ok (listing page), w);
  sv_comments : forall token n page, keeps file (bo_listComments (bd_octokit deps token) n page) /\
                                     keeps history (bo_listComments (bd_octokit deps token) n page);
  sv_reactions : forall token n page, keeps file (bo_listReactions (bd_octokit deps token) n page) /\
                                      keeps history (bo_listReactions (bd_octokit deps token) n page);
  sv_sleep : forall d w, exists w', bd_sleep deps d w = (Ok tt, w') /\ file w' = file w /\ history w' = history w;
  sv_record : forall url ev, keeps file (bd_record deps url ev);
  sv_read : forall path w, bd_readState deps path w = (Ok (file w), w);
  sv_write : forall path t w, exists w', bd_writeState deps path t w = (Ok tt, w') /\ file w' = Some t /\ history w' = history w;
  sv_json : forall st, exists v, bd_parseJSON deps (bd_stringify deps st) = Ok v /\ isBackfillStateFile v = true /\ bd_viewAs deps v = st;
}.
Context (Hsv : Service).

Lemma sleep_keeps d : keeps file (bd_sleep deps d).
Proof. intros w. by destruct (sv_sleep Hsv d w) as (w' & -> & Hf & _). Qed.

Lemma persist_loads path repoFull i st w : exists w', persistStateFile deps path st w = (Ok tt, w') /\
  history w' = history w /\ loadStateFile deps path repoFull i w' = (Ok st, w').
Proof.
  unfold persistStateFile. destruct (sv_write Hsv path (bd_stringify deps st) w) as (w' & -> & Hf & Hh).
  exists w'. split_and!; [done|done|]. unfold loadStateFile, mbind, eff_bind. rewrite (sv_read Hsv), Hf.
  destruct (sv_json Hsv st) as (v & -> & -> & ->). done.
Qed.

(** What the file loads as depends on the file only. *)
Lemma loads_by_file path repoFull i st w w' : file w' = file w ->
  loadStateFile deps path repoFull i w = (Ok st, w) -> loadStateFile deps path repoFull i w' = (Ok st, w').
Proof.
  intros Hf. unfold loadStateFile, mbind, eff_bind. rewrite !(sv_read Hsv), Hf.
  destruct (file w) as [text|]; [|by intros [= ->]].
  destruct (bd_parseJSON deps text) as [v|]; [|done]. destruct (isBackfillStateFile v); [|done]. by intros [= ->].
Qed.

Section parts.
Context (token url repoFull path : str) (dry : bool) (i : Z) (bot : option str) (delayMs : number) (since : option Z).
Lemma processPr_keeps n prior : keeps file (processPr (bd_sha256 deps) (bd_parseDate deps) (bd_thumbs deps).1 (bd_thumbs deps).2
  (bd_octokit deps token) fuel (bd_sleep deps) delayMs (bd_record deps url) dry i repoFull bot n prior).
Proof.
  assert (forall always page, keeps file (pace (bd_sleep deps) delayMs always page)) as Hpace.
  { intros. unfold pace. case_match; [|apply keeps_ret]. by apply sleep_keeps. }
  assert (forall pr c fp start rs r, keeps file (reactionsOf (bd_parseDate deps) (bd_thumbs deps).1 (bd_thumbs deps).2
    (bd_record deps url) dry i repoFull pr c fp start rs r)) as Hreact.
  { intros pr c fp start rs. induction rs as [|x rs IH]; intros r; cbn [reactionsOf]; [apply keeps_ret|].
    case_match; [done|]. case_match; [|done]. apply keeps_bind; [|done].
    case_match; [apply keeps_ret|apply (sv_record Hsv)]. }
  assert (forall k pr c fp start page r, keeps file (reactionPages (bd_parseDate deps) (bd_thumbs deps).1 (bd_thumbs deps).2
    (bd_octokit deps token) (bd_sleep deps) delayMs (bd_record deps url) dry i repoFull k pr c fp start page r)) as Hrp.
  { intros k pr c fp start. induction k as [|k IH]; intros page r; cbn [reactionPages]; [apply keeps_ret|].
    apply keeps_bind; [apply Hpace|]. intros _. apply keeps_bind; [apply (sv_reactions Hsv)|]. intros rs.
    destruct rs; [apply keeps_ret|]. apply keeps_bind; [apply Hreact|]. intros r'. case_match; [apply keeps_ret|apply IH]. }
  assert (forall pr start cs r, keeps file (commentsOf (bd_sha256 deps) (bd_parseDate deps) (bd_thumbs deps).1 (bd_thumbs deps).2
    (bd_octokit deps token) fuel (bd_sleep deps) delayMs (bd_record deps url) dry i repoFull bot pr start cs r)) as Hcs.
  { intros pr start cs. induction cs as [|c cs IH]; intros r; cbn [commentsOf]; [apply keeps_ret|].
    case_match; [done|]. case_match; [|done]. apply keeps_bind; [apply Hrp|]. intros [r'|]; [apply IH|apply keeps_ret]. }
  unfold processPr. generalize (startOf prior) as start. intros start.
  generalize ({| run_totals := match prior with Some s => totalsOf s | None => zeroTotals end;
       run_lastCommentId := start.1; run_lastReactionId := start.2 |}) as r.
  generalize 1%Z as page. generalize fuel at 2 as k. intros k.
  induction k as [|k IH]; intros page r; cbn [commentPages]; [apply keeps_ret|].
  apply keeps_bind; [apply Hpace|]. intros _. apply keeps_bind; [apply (sv_comments Hsv)|]. intros cs.
  destruct cs; [apply keeps_ret|]. apply keeps_bind; [apply Hcs|]. intros [r'|]; [|apply keeps_ret].
  case_match; [apply keeps_ret|apply IH].
Qed.

Notation pr_step := (backfillPr (bd_sha256 deps) (bd_parseDate deps) (bd_thumbs deps).1 (bd_thumbs deps).2 (bd_octokit deps token) fuel
  (bd_sleep deps) delayMs (bd_record deps url) dry i repoFull bot (persistStateFile deps path) true).
Notation page_step := (backfillPage (bd_sha256 deps) (bd_parseDate deps) (bd_thumbs deps).1 (bd_thumbs deps).2 (bd_octokit deps token) fuel
  (bd_sleep deps) delayMs (bd_record deps url) dry i repoFull bot (persistStateFile deps path) true since).
Notation pages_step := (backfillPages (bd_sha256 deps) (bd_parseDate deps) (bd_thumbs deps).1 (bd_thumbs deps).2 (bd_octokit deps token) fuel
  (bd_sleep deps) delayMs (bd_record deps url) dry i repoFull bot (persistStateFile deps path) true since).

(** The file always loads as the state in memory. *)
Definition synced (st : BackfillStateFile) (w : W) : Prop := loadStateFile deps path repoFull i w = (Ok st, w).

Lemma backfillPr_synced pr p w p' w' : synced p.2 w -> pr_step pr p w = (Ok (Some p'), w') -> synced p'.2 w'.
Proof.
  intros Hs Hrun. unfold backfillPr in Hrun. destruct p as [tot st]. cbn in Hs.
  destruct (mapGet _ _) as [[? ? ? ? ? ? []]|]; [by injection Hrun as <- <-| |].
  all: apply bind_Ok in Hrun as ([run|] & w1 & Hp & Hrun); [|inv_eff].
  all: destruct (persist_loads path repoFull i (setPr (bp_number pr) (completedState run) st) w1) as (w2 & Hw & _ & Hl).
  all: unfold mbind, eff_bind in Hrun; rewrite Hw in Hrun; by injection Hrun as <- <-.
Qed.

Lemma backfillPage_synced prs : forall p w p' crossed w', synced p.2 w ->
  page_step prs p w = (Ok (Some (p', crossed)), w') -> synced p'.2 w'.
Proof.
  induction prs as [|pr prs IH]; intros p w p' crossed w' Hs Hrun; cbn [backfillPage] in Hrun; [by inv_eff|].
  destruct (crossesSince _ _ pr); [by inv_eff|].
  apply bind_Ok in Hrun as ([p1|] & w1 & H1 & Hrun); [|inv_eff].
  eapply IH; [|done]. by eapply backfillPr_synced.
Qed.

Lemma pace_runs page w : exists w', pace (bd_sleep deps) delayMs false page w = (Ok tt, w') /\
  file w' = file w /\ history w' = history w.
Proof. unfold pace. case_match; [apply (sv_sleep Hsv)|by exists w]. Qed.

Lemma backfillPages_synced n : forall page p w p' w', synced p.2 w ->
  pages_step n page p w = (Ok (Some p'), w') -> synced p'.2 w'.
Proof.
  induction n as [|n IH]; intros page p w p' w' Hs Hrun; cbn [backfillPages] in Hrun; [inv_eff|].
  destruct (pace_runs page w) as (w1 & Hp & Hf & _).
  unfold mbind at 1, eff_bind at 1 in Hrun. rewrite Hp in Hrun.
  unfold mbind at 1, eff_bind at 1 in Hrun. rewrite (sv_list Hsv) in Hrun.
  assert (synced p.2 w1) as Hs1 by (by eapply loads_by_file).
  destruct (listing page) as [|pr prs]; [by inv_eff|].
  apply bind_Ok in Hrun as ([[p1 crossed]|] & w2 & Hpg & Hrun); [|inv_eff].
  eapply backfillPage_synced in Hpg; [|done]. destruct (crossed || _); [by inv_eff|]. exact (IH _ _ _ _ _ Hpg Hrun).
Qed.
End parts.

Section second_run.
Context (token url1 url2 repoFull path : str) (i : Z) (bot : option str) (delayMs : number) (since : option Z).
Notation pages_of url dry := (backfillPages (bd_sha256 deps) (bd_parseDate deps) (bd_thumbs deps).1 (bd_thumbs deps).2 (bd_octokit deps token) fuel
  (bd_sleep deps) delayMs (bd_record deps url) dry i repoFull bot (persistStateFile deps path) true since).

Lemma backfillPages_again n : forall page tot st w tot' st' w',
  pages_of url1 true n page (tot, st) w = (Ok (Some (tot', st')), w') ->
  extends st st' /\ forall st2 w2, extends st' st2 ->
    exists w3, pages_of url2 false n page (tot, st2) w2 = (Ok (Some (tot', st2)), w3) /\ history w3 = history w2.
Proof.
  induction n as [|n IH]; intros page tot st w tot' st' w' Hrun; cbn [backfillPages] in *; [inv_eff|].
  destruct (pace_runs delayMs page w) as (w1 & Hp & _ & _).
  unfold mbind at 1, eff_bind at 1 in Hrun. rewrite Hp in Hrun.
  unfold mbind at 1, eff_bind at 1 in Hrun. rewrite (sv_list Hsv) in Hrun.
  assert (forall w2 (k : list BackfillPr -> eff W thrown (option progress)),
    exists w3, history w3 = history w2 /\
      (pace (bd_sleep deps) delayMs false page;; prs ← bo_listPrs (bd_octokit deps token) page; k prs) w2 = k (listing page) w3) as Hhead.
  { intros w2 k. destruct (pace_runs delayMs page w2) as (w3 & Hp2 & _ & Hh). exists w3. split; [done|].
    unfold mbind at 1, eff_bind at 1. rewrite Hp2. unfold mbind at 1, eff_bind at 1. by rewrite (sv_list Hsv). }
  destruct (listing page) as [|pr prs] eqn:El.
  - inv_eff. split; [done|]. intros st2 w2 _. edestruct (Hhead w2) as (w3 & Hh & ->). by exists w3.
  - apply bind_Ok in Hrun as ([[[tot1 st1] crossed]|] & w2 & Hpg & Hrun); [|inv_eff].
    eapply (backfillPage_again _ _ _ _ _ _ _ _ _ _ _ _ _ (bd_record deps url2) _ false _ (persistStateFile deps path) _ true)
      in Hpg as [He1 Hr1].
    destruct (crossed || (length (pr :: prs) <? PAGE_SIZE)) eqn:Estop.
    + inv_eff. split; [done|]. intros st2 w3 Hext. edestruct (Hhead w3) as (w4 & Hh & ->).
      exists w4. split; [|done]. unfold mbind, eff_bind. rewrite (Hr1 st2 w4) by done. by rewrite Estop.
    + apply IH in Hrun as [He2 Hr2]. split; [by trans st1|]. intros st2 w3 Hext.
      edestruct (Hhead w3) as (w4 & Hh & ->). destruct (Hr2 st2 w4 Hext) as (w5 & Hrun2 & Hh2).
      exists w5. split; [|congruence]. unfold mbind, eff_bind. rewrite (Hr1 st2 w4) by (by trans st').
      by rewrite Estop.
Qed.
End second_run.
End world.

(** The fallback's rule is its own: a finding of the dedup middleware hashes to the same input only
    when the model named its rule [backfill-unknown]. *)
Lemma fallback_is_no_finding body path0 line0 c :
  parseRuleIdFromBody body = None ->
  {| fi_path := path c; fi_line := line c; fi_ruleId := ruleIdFor c; fi_suggestionType := defaultSuggestionType c |}
    = fallbackInput body path0 line0 ->
  ruleId c = Some BACKFILL_FALLBACK_RULE_ID.
Proof.
  intros Hn [= _ _ Hr _]. rewrite Hn in Hr. unfold ruleIdFor in Hr.
  destruct (ruleId c); [by rewrite Hr|]. by destruct (severity c).
Qed.

(** The same options without [--dry-run]. *)
Definition forReal (o : FeedbackBackfillOpts) : FeedbackBackfillOpts :=
  {| fo_installationId := fo_installationId o; fo_repo := fo_repo o; fo_platform := fo_platform o; fo_since := fo_since o;
     fo_stateFile := fo_stateFile o; fo_dryRun := false; fo_rate := fo_rate o; fo_botLogin := fo_botLogin o |}.

Lemma runBackfill_again {W H} (deps : BackfillDeps W) env fuel file (history : W -> H) listing opts path token url1 url2 repoFull since
    delayMs w totals w1 :
  Service deps file history listing ->
  fo_dryRun opts = true -> truthyStr (fo_stateFile opts) = Some path ->
  runBackfill deps env fuel opts token url1 repoFull since delayMs w = (Ok (Some (bf_dry_run, totals)), w1) ->
  exists w2, runBackfill deps env fuel (forReal opts) token url2 repoFull since delayMs w1 = (Ok (Some (bf_ok, totals)), w2) /\
    history w2 = history w1.
Proof.
  intros Hsv Hdry Hpath Hrun. unfold runBackfill in *. cbn [fo_stateFile forReal fo_installationId fo_botLogin fo_dryRun] in *.
  rewrite Hpath in *. rewrite Hdry in Hrun.
  rewrite bool_decide_eq_true_2 in * by done.
  apply bind_Ok in Hrun as (st & w0 & Hload & Hrun).
  assert (w0 = w) as ->.
  { unfold loadStateFile, mbind, eff_bind in Hload. rewrite (sv_read _ _ _ _ Hsv) in Hload.
    destruct (file w) as [text|]; [|by injection Hload].
    destruct (bd_parseJSON deps text) as [v|]; [|done]. destruct (isBackfillStateFile v); [|done]. by injection Hload. }
  apply bind_Ok in Hrun as ([[tot' st']|] & w2 & Hwalk & Hrun); [|inv_eff]. inv_eff.
  assert (loadStateFile deps path repoFull (fo_installationId opts) w1 = (Ok st', w1)) as Hsync.
  { eapply (backfillPages_synced deps fuel file history listing Hsv) in Hwalk; [exact Hwalk|exact Hload]. }
  eapply (backfillPages_again deps fuel file history listing Hsv _ _ url2) in Hwalk as [_ Hagain].
  destruct (Hagain st' w1 ltac:(done)) as (w3 & Hrun2 & Hh). exists w3. split; [|done].
  unfold mbind at 1, eff_bind at 1. rewrite Hsync.
  unfold mbind at 1, eff_bind at 1. by rewrite Hrun2.
Qed.

(** ** Properties *)

(** C23. The rehearsal eats the run it rehearses. With a state file, a dry run marks every pull request it
    walks as completed; the same command without [--dry-run] then skips them all: it reports the
    rehearsal's totals as recorded and records nothing. *)
Theorem rehearsal_eats_the_backfill {W H} (deps : BackfillDeps W) env fuel file (history : W -> H) listing opts path w totals w1 :
  Service deps file history listing ->
  fo_dryRun opts = true -> truthyStr (fo_stateFile opts) = Some path ->
  truthyStr (orElse (env_databaseUrl env) (env_agentDatabaseUrl env)) <> None ->
  feedbackBackfillCommand deps env fuel opts w = (Ok (Some (bf_dry_run, totals)), w1) ->
  exists w2, feedbackBackfillCommand deps env fuel (forReal opts) w1 = (Ok (Some (bf_ok, totals)), w2) /\
    history w2 = history w1.
Proof.
  intros Hsv Hdry Hpath Hdb Hrun. unfold feedbackBackfillCommand in *. cbv zeta in *.
  cbn [forReal fo_platform fo_repo fo_since fo_rate fo_dryRun] in *. rewrite Hdry in Hrun.
  destruct (default github (fo_platform opts)); [|by inv_eff].
  destruct (parseRepoRef (fo_repo opts)) as [ref|]; [|by inv_eff].
  destruct (bool_decide (is_Some (fo_since opts)) && _); [by inv_eff|].
  destruct (negb (isFinite _) || _); [by inv_eff|].
  destruct (truthyStr (orElse (env_ghToken env) _)) as [token|]; [|by inv_eff]. cbn [negb andb] in *.
  destruct (truthyStr (orElse (env_databaseUrl env) _)) as [url|]; [|done].
  rewrite bool_decide_eq_true_2 by done. cbn [negb].
  by eapply runBackfill_again.
Qed.

(** ** The walk ends

    A service with finitely many pages: past page [N] a list is empty whenever it is answered. *)

Record FinitePages {W} (octokit : BackfillOctokit W) (N : Z) : Prop := {
  fin_prs page w l w' : (N < page)%Z -> bo_listPrs octokit page w = (Ok l, w') -> l = [];
  fin_comments pr page w l w' : (N < page)%Z -> bo_listComments octokit pr page w = (Ok l, w') -> l = [];
  fin_reactions c page w l w' : (N < page)%Z -> bo_listReactions octokit c page w = (Ok l, w') -> l = [];
}.

(** A computation that never runs out of fuel: it answers or throws. *)
Definition ends {W A} (m : eff W thrown (option A)) : Prop := forall w w', m w <> (Ok None, w').

Lemma ends_ret {W A} (a : A) : ends (W := W) (mret (Some a)).
Proof. by intros w w' [=]. Qed.

Lemma ends_bind {W A B} (m : eff W thrown A) (k : A -> eff W thrown (option B)) :
  (forall w a w1, m w = (Ok a, w1) -> forall w2, k a w1 <> (Ok None, w2)) -> ends (a ← m; k a).
Proof. intros Hk w w'. unfold mbind, eff_bind. destruct (m w) as [[a|e] w1] eqn:E; [by eapply Hk|done]. Qed.

Lemma ends_seq {W A B} (m : eff W thrown A) (k : A -> eff W thrown (option B)) : (forall a, ends (k a)) -> ends (a ← m; k a).
Proof. intros Hk. apply ends_bind. intros w a w1 _. apply Hk. Qed.

Lemma ends_opt {W A B} (m : eff W thrown (option A)) (k : option A -> eff W thrown (option B)) :
  ends m -> (forall a, ends (k (Some a))) -> ends (o ← m; k o).
Proof. intros Hm Hk. apply ends_bind. intros w [a|] w1 E; [apply Hk|by apply Hm in E]. Qed.

(** A page and the pages after it, given what one page does. *)
Lemma ends_page {W A B} (fetch : Z -> eff W thrown (list A)) (k : list A -> eff W thrown (option B)) (N page : Z) :
  (forall w l w', (N < page)%Z -> fetch page w = (Ok l, w') -> l = []) ->
  ends (k []) -> ((page <= N)%Z -> forall l, ends (k l)) -> ends (l ← fetch page; k l).
Proof.
  intros Hfin Hnil Hk. destruct (decide (page <= N)%Z) as [Hle|Hgt].
  - apply ends_seq. by apply Hk.
  - apply ends_bind. intros w l w1 E. rewrite (Hfin w l w1) by (done || lia). apply Hnil.
Qed.

Section ending.
Context (sha256hex : str -> str) (parseDate : str -> option Z) (up down : str) {W : Type} (octokit : BackfillOctokit W)
        (fuel : nat) (sleep : number -> eff W thrown unit) (delayMs : number) (record : FeedbackEvent -> eff W thrown bool)
        (dryRun : bool) (installationId : Z) (repoFull : str) (botLogin : option str)
        (write : BackfillStateFile -> eff W thrown unit) (hasStateFile : bool) (since : option Z)
        (N : Z) (Hpages : FinitePages octokit N) (Hfuel : (N < Z.of_nat fuel)%Z).

Lemma reactionPages_ends pr c fp start n : forall page r, (page <= N + 1)%Z -> (N + 1 < page + Z.of_nat n)%Z ->
  ends (reactionPages parseDate up down octokit sleep delayMs record dryRun installationId repoFull n pr c fp start page r).
Proof using Hpages Hfuel.
  induction n as [|n IH]; intros page r Hp Hn; [lia|]. cbn [reactionPages]. apply ends_seq. intros _.
  apply ends_page with N; [intros w l w' ?; by apply (fin_reactions _ _ Hpages)|apply ends_ret|].
  intros Hle [|x l]; [apply ends_ret|]. apply ends_seq. intros r'. destruct (_ <? _)%nat; [apply ends_ret|]. apply IH; lia.
Qed.

Lemma commentsOf_ends pr start cs : forall r, (0 <= N)%Z ->
  ends (commentsOf sha256hex parseDate up down octokit fuel sleep delayMs record dryRun installationId repoFull botLogin pr start cs r).
Proof using Hpages Hfuel.
  induction cs as [|c cs IH]; intros r HN; [apply ends_ret|]. cbn [commentsOf]. destruct (_ || _); [by apply IH|].
  destruct (truthyStr _) as [fp|]; [|by apply IH].
  apply ends_opt; [apply reactionPages_ends; lia|]. intros r'. by apply IH.
Qed.

Lemma commentPages_ends pr start n : forall page r, (1 <= page <= N + 1)%Z -> (N + 1 < page + Z.of_nat n)%Z ->
  ends (commentPages sha256hex parseDate up down octokit fuel sleep delayMs record dryRun installationId repoFull botLogin n pr start page r).
Proof using Hpages Hfuel.
  induction n as [|n IH]; intros page r Hp Hn; [lia|]. cbn [commentPages]. apply ends_seq. intros _.
  apply ends_page with N; [intros w l w' ?; by apply (fin_comments _ _ Hpages)|apply ends_ret|].
  intros Hle [|x l]; [apply ends_ret|]. apply ends_opt; [apply commentsOf_ends; lia|].
  intros r'. destruct (_ <? _)%nat; [apply ends_ret|]. apply IH; lia.
Qed.

Notation page_of := (backfillPage sha256hex parseDate up down octokit fuel sleep delayMs record dryRun installationId repoFull botLogin write hasStateFile since).

Lemma backfillPage_ends prs : forall p, (0 <= N)%Z -> ends (page_of prs p).
Proof using Hpages Hfuel.
  induction prs as [|pr prs IH]; intros [totals st] HN; [apply ends_ret|]. cbn [backfillPage].
  destruct (crossesSince _ _ _); [apply ends_ret|]. apply ends_opt; [|intros p'; by apply IH].
  unfold backfillPr. destruct (mapGet _ _) as [[? ? ? ? ? ? []]|]; try apply ends_ret;
    (apply ends_opt; [apply commentPages_ends; lia|]; intros run; apply ends_seq; intros _; apply ends_ret).
Qed.

Lemma backfillPages_ends n : forall page p, (1 <= page <= N + 1)%Z -> (N + 1 < page + Z.of_nat n)%Z ->
  ends (backfillPages sha256hex parseDate up down octokit fuel sleep delayMs record dryRun installationId repoFull botLogin write hasStateFile since n page p).
Proof using Hpages Hfuel.
  induction n as [|n IH]; intros page p Hp Hn; [lia|]. cbn [backfillPages]. apply ends_seq. intros _.
  apply ends_page with N; [intros w l w' ?; by apply (fin_prs _ _ Hpages)|apply ends_ret|].
  intros Hle [|x l]; [apply ends_ret|]. apply ends_opt; [apply backfillPage_ends; lia|].
  intros [p' crossed]. destruct (_ || _); [apply ends_ret|]. apply IH; lia.
Qed.
End ending.

(** The command ends: over a service whose lists have finitely many pages, fuel beyond the last page
    is enough for every walk - the command answers a result, or throws what a call threw. *)
Theorem backfill_ends {W} (deps : BackfillDeps W) env fuel opts (N : Z) w :
  (0 <= N < Z.of_nat fuel)%Z -> (forall token, FinitePages (bd_octokit deps token) N) ->
  match (feedbackBackfillCommand deps env fuel opts w).1 with Ok o => is_Some o | Throw _ => True end.
Proof.
  intros HN Hpages. assert (ends (feedbackBackfillCommand deps env fuel opts)) as Hends.
  { unfold feedbackBackfillCommand. cbv zeta. repeat (case_match; try apply ends_ret).
    unfold runBackfill. cbv zeta. apply ends_seq. intros st.
    apply ends_opt; [apply backfillPages_ends with N; (done || lia)|]. intros [totals st']. apply ends_ret. }
  specialize (Hends w). destruct (feedbackBackfillCommand deps env fuel opts w) as [[[r|]|e] w1]; cbn; [by eexists|by edestruct Hends|done].
Qed.

(** A service for the witness: one pull request with one of the bot's comments and one thumb; the
    world is the state file's text and the recorded events. A state's text is its code's digits. *)
Definition stateTuple (s : BackfillPrState) : Z * Z * Z * Z * Z * Z * bool :=
  (ps_lastCommentId s, ps_lastReactionId s, ps_processed s, ps_recorded s, ps_unresolved s, ps_skipped s, ps_completed s).
Definition tupleState (t : Z * Z * Z * Z * Z * Z * bool) : BackfillPrState :=
  let '(a, b, c, d, e, f, g) := t in
  {| ps_lastCommentId := a; ps_lastReactionId := b; ps_processed := c; ps_recorded := d; ps_unresolved := e; ps_skipped := f; ps_completed := g |}.
Definition fileTuple (st : BackfillStateFile) : str * str * list (str * (Z * Z * Z * Z * Z * Z * bool)) :=
  (sf_repo st, sf_installationId st, map (fun kv => (kv.1, stateTuple kv.2)) (sf_prs st)).
Definition tupleFile (t : str * str * list (str * (Z * Z * Z * Z * Z * Z * bool))) : BackfillStateFile :=
  {| sf_repo := t.1.1; sf_installationId := t.1.2; sf_prs := map (fun kv => (kv.1, tupleState kv.2)) t.2 |}.

Lemma tupleFile_fileTuple st : tupleFile (fileTuple st) = st.
Proof.
  destruct st as [r i prs]. unfold tupleFile, fileTuple. cbn. f_equal.
  induction prs as [|[k s] prs IH]; [done|]. cbn. rewrite IH. by destruct s.
Qed.

Fixpoint digitsOf (p : positive) : str :=
  match p with xH => [] | xO p => "0"%char :: digitsOf p | xI p => "1"%char :: digitsOf p end.
Fixpoint ofDigits (s : str) : positive :=
  match s with [] => xH | c :: s => if eqc c "1" then xI (ofDigits s) else xO (ofDigits s) end.
Lemma ofDigits_digitsOf p : ofDigits (digitsOf p) = p.
Proof. induction p as [p IH|p IH|]; cbn; [by f_equal..|done]. Qed.

Definition demoView (v : json) : BackfillStateFile :=
  match member "repo" v with
  | Some (JStr s) => match decode (ofDigits s) with Some t => tupleFile t | None => emptyState [] 0 end
  | _ => emptyState [] 0
  end.
Definition demoWorld : Type := option str * list FeedbackEvent.
Definition demoListing (page : Z) : list BackfillPr :=
  if (page =? 1)%Z then [{| bp_number := 7; bp_updated_at := None |}] else [].
Definition demoDeps : BackfillDeps demoWorld :=
  {| bd_octokit _ := {| bo_listPrs page := fun w => (Ok (demoListing page), w);
       bo_listComments _ _ := mret [{| bc_id := 1; bc_path := None; bc_line := None; bc_original_line := None;
         bc_body := Some (js "<!-- fingerprint:0123456789abcdef -->"); bc_login := None; bc_type := Some (js "Bot") |}];
       bo_listReactions _ _ := mret [{| br_id := 5; br_content := js "-1"; br_login := Some (js "jane"); br_created_at := [] |}] |};
     bd_record _ ev := fun w => (Ok false, (w.1, w.2 ++ [ev]));
     bd_readState _ := fun w => (Ok w.1, w);
     bd_writeState _ t := fun w => (Ok tt, (Some t, w.2));
     bd_sleep _ := mret tt;
     bd_parseJSON s := Ok (JObj [(js "version", JNum (num_of_Z 1)); (js "repo", JStr s); (js "installationId", JStr []); (js "prs", JObj [])]);
     bd_stringify st := digitsOf (encode (fileTuple st));
     bd_viewAs := demoView; bd_parseDate _ := None; bd_sha256 s := s; bd_thumbs := (js "+1", js "-1") |}.
Definition demoEnv : BackfillEnv :=
  {| env_ghToken := Some (js "t"); env_githubToken := None; env_databaseUrl := Some (js "postgres://"); env_agentDatabaseUrl := None;
     env_botLogin := None |}.
Definition demoRehearsal : FeedbackBackfillOpts :=
  {| fo_installationId := 11; fo_repo := "acme/shop"; fo_platform := None; fo_since := None; fo_stateFile := Some (js "state.json");
     fo_dryRun := true; fo_rate := None; fo_botLogin := None |}.

Lemma demoService : Service demoDeps fst snd demoListing.
Proof.
  split; try done.
  - intros d w. by exists w.
  - intros path t w. by eexists.
  - intros st. eexists. split; [reflexivity|]. split; [by vm_compute|].
    change (demoView (JObj [(js "version", JNum (num_of_Z 1)); (js "repo", JStr (digitsOf (encode (fileTuple st))));
      (js "installationId", JStr []); (js "prs", JObj [])]) = st).
    unfold demoView. cbn [member mapGet]. change (mapGet (js "repo") _) with (Some (JStr (digitsOf (encode (fileTuple st))))).
    cbv iota. rewrite ofDigits_digitsOf, decode_encode. apply tupleFile_fileTuple.
Qed.

Lemma rehearsal_eats_the_backfill_witness :
  let w1 := (feedbackBackfillCommand demoDeps demoEnv 3 demoRehearsal (None, [])).2 in
  exists w2, feedbackBackfillCommand demoDeps demoEnv 3 (forReal demoRehearsal) w1 =
      (Ok (Some (bf_ok, {| t_processed := 1; t_recorded := 1; t_unresolved := 0; t_skipped := 0 |})), w2) /\
    w2.2 = [].
Proof.
  cbv zeta.
  destruct (rehearsal_eats_the_backfill demoDeps demoEnv 3 fst snd demoListing demoRehearsal (js "state.json") (None, [])
    {| t_processed := 1; t_recorded := 1; t_unresolved := 0; t_skipped := 0 |}
    (feedbackBackfillCommand demoDeps demoEnv 3 demoRehearsal (None, [])).2 demoService eq_refl eq_refl) as (w2 & Hrun & Hh).
  - discriminate.
  - vm_compute. reflexivity.
  - exists w2. split; [exact Hrun|]. rewrite Hh. vm_compute. reflexivity.
Defined.

(** The service of the rehearsal has one page of each list. *)
Definition onePage (deps : BackfillDeps demoWorld) : BackfillDeps demoWorld :=
  {| bd_octokit t := {| bo_listPrs := bo_listPrs (bd_octokit deps t);
       bo_listComments pr page := if (page =? 1)%Z then bo_listComments (bd_octokit deps t) pr page else mret [];
       bo_listReactions c page := if (page =? 1)%Z then bo_listReactions (bd_octokit deps t) c page else mret [] |};
     bd_record := bd_record deps; bd_readState := bd_readState deps; bd_writeState := bd_writeState deps; bd_sleep := bd_sleep deps;
     bd_parseJSON := bd_parseJSON deps; bd_stringify := bd_stringify deps; bd_viewAs := bd_viewAs deps;
     bd_parseDate := bd_parseDate deps; bd_sha256 := bd_sha256 deps; bd_thumbs := bd_thumbs deps |}.

Lemma backfill_ends_witness :
  (0 <= 1 < Z.of_nat 2)%Z /\
  match (feedbackBackfillCommand (onePage demoDeps) demoEnv 2 (forReal demoRehearsal) (None, [])).1 with Ok o => is_Some o | Throw _ => True end /\
  length (feedbackBackfillCommand (onePage demoDeps) demoEnv 2 (forReal demoRehearsal) (None, [])).2.2 = 1.
Proof.
  split; [done|]. split; [|by vm_compute]. apply backfill_ends with 1%Z; [done|]. intros t.
  split; cbn; unfold demoListing; [intros page w l w' Hp|intros ? page w l w' Hp|intros ? page w l w' Hp];
    (assert (page =? 1 = false)%Z as -> by (apply Z.eqb_neq; lia)); by intros [= <- _].
Defined.
