(* ===== verification/Cli.v ===== *)
(** * The review commands of the command line (cli/src/commands/review.ts, dry-run.ts,
    cli/src/program.ts, cli/src/io.ts)

    [review] reads a pull request, runs the review of Agent.v and, when it is asked to, posts it;
    [dry-run] prints the configuration in force and, given a pull request, what its review would
    find. The terminal is a pair of transformations of the world; the platforms, the model, the
    file reader, the clock and the prompt for a confirmation are parameters. *)

From S2P Require Import Prelude JsNumber NumberText JsMap JsonTree Codec Config ConfigLoad.
From S2P Require Import Review Glob Errors Schema Untrusted AutoFetch SystemPrompt Dedup SkillLoader.
From S2P Require Import Queue Runner Agent EvalRecorder AgentFrame Action.

(** ** The terminal *)

Record ProgramIo (W : Type) := { stdout : str -> W -> W; stderr : str -> W -> W }.
Arguments stdout {W} _ _ _.
Arguments stderr {W} _ _ _.

(** One call per chunk, in order. *)
Definition printed {W} (print : str -> W -> W) (chunks : list str) (w : W) : W :=
  foldl (fun w s => print s w) w chunks.
Definition say {W} (io : ProgramIo W) (chunks : list str) : eff W thrown unit := modify (printed (stdout io) chunks).
Definition complain {W} (io : ProgramIo W) (chunks : list str) : eff W thrown unit := modify (printed (stderr io) chunks).

(** ** References *)

(** A reference of the command line: its number is whatever the parser of the option made of it. *)
Record CliRef := { cr_platform : VcsPlatform; cr_owner : str; cr_repo : str; cr_number : number }.

Definition wordOf (separator : ascii) (s : str) : bool :=
  bool_decide (s <> []) && negb (existsb (fun c => is_ws c || eqc c separator) s).

(** [/^([^/\s]+)\/([^/\s]+)$/], and for CodeCommit a name without white space and slashes. *)
Definition parseRef (platform : VcsPlatform) (repo : str) (prNumber : number) : result thrown CliRef :=
  match platform with
  | codecommit =>
      if wordOf "/" repo
      then Ok {| cr_platform := codecommit; cr_owner := []; cr_repo := repo; cr_number := prNumber |}
      else Throw (Object (Some ("--repo for --platform codecommit must be a repository name (got '" ++ repo ++ "').")) NoStatus None [])
  | github =>
      match splitChar "/" repo with
      | [owner; name] =>
          if wordOf "/" owner && wordOf "/" name
          then Ok {| cr_platform := github; cr_owner := owner; cr_repo := name; cr_number := prNumber |}
          else Throw (Object (Some ("--repo must be in 'owner/repo' format (got '" ++ repo ++ "').")) NoStatus None [])
      | _ => Throw (Object (Some ("--repo must be in 'owner/repo' format (got '" ++ repo ++ "').")) NoStatus None [])
      end
  end.

Definition digits (s : str) : bool := bool_decide (s <> []) && forallb is_digit s.

(** [/^([^/\s]+)\/([^#\s]+)#(\d+)$/], and [/^([^#\s]+)#(\d+)$/] for CodeCommit: here the name may hold
    slashes. [Number] of a run of digits. *)
Definition parsePrArg (platform : VcsPlatform) (prArg : str) : result str CliRef :=
  match platform with
  | codecommit =>
      match splitChar "#" prArg with
      | [name; n] =>
          if wordOf "#" name && digits n
          then Ok {| cr_platform := codecommit; cr_owner := []; cr_repo := name; cr_number := parseFloat n |}
          else Throw ("--pr for --platform codecommit must be '<repo>#<number>' (got '" ++ prArg ++ "').")
      | _ => Throw ("--pr for --platform codecommit must be '<repo>#<number>' (got '" ++ prArg ++ "').")
      end
  | github =>
      let owner := takeWhile (fun c => negb (eqc c "/")) prArg in
      match drop (length owner) prArg with
      | [] => Throw ("--pr must be in 'owner/repo#<number>' format (got '" ++ prArg ++ "').")
      | _ :: rest =>
          match splitChar "#" rest with
          | [name; n] =>
              if wordOf "/" owner && wordOf "#" name && digits n
              then Ok {| cr_platform := github; cr_owner := owner; cr_repo := name; cr_number := parseFloat n |}
              else Throw ("--pr must be in 'owner/repo#<number>' format (got '" ++ prArg ++ "').")
          | _ => Throw ("--pr must be in 'owner/repo#<number>' format (got '" ++ prArg ++ "').")
          end
      end
  end.

(** ** Options and results *)

Record CliEnv := {
  REVIEW_AGENT_GH_TOKEN : option str;
  GITHUB_TOKEN : option str;
  ANTHROPIC_API_KEY : option str;
  GITHUB_SERVER_URL : option str;
  env_overrides : EnvOverrides;
}.

Record AnthropicConfig := { ac_model : str; ac_apiKey : str; ac_cacheControl : bool }.

Section options.
Context (W : Type).

Record RunReviewOpts := {
  ro_repo : str;
  ro_pr : number;
  ro_configPath : str;
  ro_post : bool;
  ro_platform : option VcsPlatform;
  ro_language : option str;
  ro_profile : option str;
  ro_costCapUsd : option number;
  ro_env : CliEnv;
  ro_readFile : option (str -> eff W thrown str);
  ro_createVCS : option (option str -> Config.Config -> result thrown (CliRef -> VCS W));
  ro_createProvider : option (str -> Config.Config -> LlmProvider W);
  ro_confirm : option (eff W thrown bool);
}.

Record DryRunOpts := {
  do_configPath : str;
  do_pr : option str;
  do_platform : option VcsPlatform;
  do_language : option str;
  do_profile : option str;
  do_env : CliEnv;
  do_readFile : option (str -> eff W thrown str);
  do_createVCS : option (option str -> Config.Config -> result thrown (CliRef -> VCS W));
  do_createProvider : option (str -> Config.Config -> LlmProvider W);
}.
End options.
Arguments ro_repo {W} _. Arguments ro_pr {W} _. Arguments ro_configPath {W} _. Arguments ro_post {W} _.
Arguments ro_platform {W} _. Arguments ro_language {W} _. Arguments ro_profile {W} _.
Arguments ro_costCapUsd {W} _. Arguments ro_env {W} _. Arguments ro_readFile {W} _.
Arguments ro_createVCS {W} _. Arguments ro_createProvider {W} _. Arguments ro_confirm {W} _.
Arguments do_configPath {W} _. Arguments do_pr {W} _. Arguments do_platform {W} _. Arguments do_language {W} _.
Arguments do_profile {W} _. Arguments do_env {W} _. Arguments do_readFile {W} _. Arguments do_createVCS {W} _.
Arguments do_createProvider {W} _.

Inductive RunReviewStatus := rs_reviewed | rs_skipped | rs_auth_failed | rs_cancelled.
Inductive DryRunStatus := ds_config_only | ds_reviewed | ds_auth_failed | ds_parse_error.

#[export] Instance RunReviewStatus_eq : EqDecision RunReviewStatus.
Proof. solve_decision. Defined.
#[export] Instance DryRunStatus_eq : EqDecision DryRunStatus.
Proof. solve_decision. Defined.

Record RunReviewResult := {
  rv_status : RunReviewStatus;
  rv_reason : option str;
  rv_postedComments : nat;
  rv_costUsd : number;
}.

Record DryRunResult := { dr_status : DryRunStatus; dr_reason : option str }.

Definition notReviewed (status : RunReviewStatus) (reason : option str) : RunReviewResult :=
  {| rv_status := status; rv_reason := reason; rv_postedComments := 0; rv_costUsd := zero |}.

(** ** Texts *)

Definition ConfigResolutionSource_str (s : ConfigLoad.ConfigResolutionSource) : str :=
  match s with
  | ConfigLoad.repo_yaml => "repo-yaml" | ConfigLoad.org_yaml => "org-yaml"
  | ConfigLoad.from_env => "env" | ConfigLoad.from_default => "default"
  end.
Definition bool_str (b : bool) : str := if b then "true" else "false".
Definition padEnd (n : nat) (s : str) : str := s ++ repeat " "%char (n - length s).

(** The runner declares the log's type again; the two are one structure. *)
Definition runnerSource (s : ConfigLoad.ConfigResolutionSource) : Runner.ConfigResolutionSource :=
  match s with
  | ConfigLoad.repo_yaml => Runner.repo_yaml | ConfigLoad.org_yaml => Runner.org_yaml
  | ConfigLoad.from_env => Runner.from_env | ConfigLoad.from_default => Runner.from_default
  end.
Definition runnerLog (l : ConfigLoad.ConfigResolutionLog) : Runner.ConfigResolutionLog :=
  {| Runner.primarySource := runnerSource (ConfigLoad.primarySource l);
     Runner.orgYamlLoaded := ConfigLoad.orgYamlLoaded l; Runner.envApplied := ConfigLoad.envApplied l;
     Runner.sections := map (fun kv => (kv.1, runnerSource kv.2)) (ConfigLoad.sections l) |}.
Definition runnerSource_str (s : Runner.ConfigResolutionSource) : str :=
  match s with
  | Runner.repo_yaml => "repo-yaml" | Runner.org_yaml => "org-yaml"
  | Runner.from_env => "env" | Runner.from_default => "default"
  end.

(** review.ts *)
Definition formatResolutionLine (log : Runner.ConfigResolutionLog) : str :=
  let sectionSummary := join " " (map (fun kv => kv.1 ++ ":" ++ runnerSource_str kv.2) (Runner.sections log)) in
  "config resolved: primary=" ++ runnerSource_str (Runner.primarySource log) ++ " org="
    ++ bool_str (Runner.orgYamlLoaded log) ++ " env=" ++ bool_str (Runner.envApplied log)
    ++ " [" ++ sectionSummary ++ "]" ++ nl.

Definition exclusionReason_str (r : exclusionReason) : str :=
  match r with path_filter => "path_filter" | max_files_cap => "max_files_cap" | max_diff_lines_cap => "max_diff_lines_cap" end.
Definition capName_str (c : capName) : str :=
  match c with cap_max_files => "max_files" | cap_max_diff_lines => "max_diff_lines" end.
Definition abortReason_str (r : ReviewAbortReason) : str :=
  match r with
  | url_allowlist => "url_allowlist" | schema_violation => "schema_violation"
  | max_files_exceeded => "max_files_exceeded" | max_diff_lines_exceeded => "max_diff_lines_exceeded"
  end.

Section texts.
(** [emDash] and [rule] stand for a dash and a line, characters outside the model's range;
    [showNumber] and [toFixed4] for the language's printing of doubles. *)
Context (emDash rule : str) (showNumber toFixed4 : number -> str).

(** dry-run.ts *)
Definition formatResolutionLog (log : ConfigLoad.ConfigResolutionLog) (config : Config.Config) : str :=
  let filters := Config.path_filters (reviews config) in
  join nl
    ([js "=== Effective Config (dry-run) ===";
      "primary source : " ++ ConfigResolutionSource_str (ConfigLoad.primarySource log);
      "org yaml loaded: " ++ bool_str (ConfigLoad.orgYamlLoaded log);
      "env applied    : " ++ bool_str (ConfigLoad.envApplied log);
      [];
      js "Section               Source";
      concat (repeat rule 20) ++ " " ++ concat (repeat rule 12)]
     ++ map (fun kv => padEnd 20 kv.1 ++ " " ++ ConfigResolutionSource_str kv.2) (ConfigLoad.sections log)
     ++ [[];
         js "--- Resolved values ---";
         "language         : " ++ Config.language config;
         "profile          : " ++ Config.profile config;
         "cost.max_usd_per_pr: " ++ showNumber (max_usd_per_pr (cost config));
         "reviews.max_files  : " ++ showNumber (max_files (reviews config));
         "reviews.max_diff_lines: " ++ showNumber (max_diff_lines (reviews config));
         "reviews.max_steps  : " ++ showNumber (max_steps (reviews config));
         "reviews.path_filters: " ++ (if bool_decide (length filters = 0) then js "(none)" else join ", " filters);
         []]).

Definition firstLine (s : str) : str := default [] (head (split s nl)).

Definition findingLine (c : InlineComment) : str :=
  "  [" ++ severity_str (severity c) ++ "] " ++ path c ++ ":" ++ showZ (line c) ++ " " ++ emDash ++ " " ++ firstLine (body c) ++ nl.

Definition refText (ref : CliRef) : str := cr_owner ref ++ "/" ++ cr_repo ref ++ "#" ++ showNumber (cr_number ref).

(** What both commands print of a result before its findings. *)
Definition resultHead (ref : CliRef) (title : str) (r : RunnerResult) : list str :=
  ["PR " ++ refText ref ++ ": " ++ title ++ nl;
   "Model: " ++ rr_model r ++ nl;
   "Tokens: " ++ showZ (tok_input (rr_tokensUsed r)) ++ " in / " ++ showZ (tok_output (rr_tokensUsed r))
     ++ " out " ++ emDash ++ " $" ++ toFixed4 (rr_costUsd r) ++ nl].

Definition summaryChunk (r : RunnerResult) : list str :=
  match rr_summary r with [] => [] | s => [nl ++ "Summary:" ++ nl ++ s ++ nl] end.

Definition printResultSummary (ref : CliRef) (pr : PR) (r : RunnerResult) : list str :=
  resultHead ref (pr_title pr) r
  ++ ["Comments: " ++ showN (length (rr_comments r)) ++ nl]
  ++ map findingLine (rr_comments r)
  ++ summaryChunk r.

Definition exclusionChunks (report : option ExclusionReport) : list str :=
  match report with
  | Some x =>
      match excludedFiles x with
      | [] => [nl ++ "--- Exclusion Report ---" ++ nl; "No files excluded." ++ nl]
      | fs =>
          [nl ++ "--- Exclusion Report ---" ++ nl]
          ++ match capsApplied x with
             | [] => []
             | caps => ["Caps triggered: " ++ join ", " (map capName_str caps) ++ nl]
             end
          ++ ["Excluded files (" ++ showN (length fs) ++ "):" ++ nl]
          ++ map (fun f => "  [" ++ exclusionReason_str (ex_reason f) ++ "] " ++ ex_path f ++ nl) fs
      end
  | None => [nl ++ "--- Exclusion Report ---" ++ nl; "No files excluded." ++ nl]
  end.

Definition printDryRunResult (ref : CliRef) (title : str) (r : RunnerResult) : list str :=
  [nl ++ "=== Dry-Run Results ===" ++ nl] ++ resultHead ref title r ++ exclusionChunks (exclusionReport r)
  ++ match aborted r with
     | Some a => [nl ++ "--- Review Aborted ---" ++ nl; "Reason: " ++ abortReason_str (ab_reason a) ++ nl; rr_summary r ++ nl]
     | None =>
         [nl ++ "--- Would-Be Findings (" ++ showN (length (rr_comments r)) ++ ") ---" ++ nl]
         ++ map findingLine (rr_comments r)
         ++ (if (0 <? droppedDuplicates r)%nat then ["Dropped duplicates: " ++ showN (droppedDuplicates r) ++ nl] else [])
         ++ (if (0 <? droppedByRuleset r)%nat then ["Dropped by ruleset: " ++ showN (droppedByRuleset r) ++ nl] else [])
         ++ summaryChunk r
         ++ [nl ++ "(dry-run: no comments posted to PR)" ++ nl]
     end.
End texts.

(** ** The commands *)

Section commands.
Context {W : Type} (P : Platform) (emDash rule : str) (showNumber toFixed4 : number -> str)
  (isUrl compiles : str -> bool) (parseYaml : str -> option json) (configThrown : LoadError -> thrown)
  (skillThrown : SkillError -> thrown) (isAbsolute : str -> bool) (pathResolve pathJoin : str -> str -> str)
  (fsReadFile : str -> eff W thrown str)
  (createGithubVCS : str -> CliRef -> VCS W) (createCodecommitVCS : str -> CliRef -> VCS W)
  (createAnthropicProvider : AnthropicConfig -> LlmProvider W)
  (clock : eff W thrown Z) (isoNow : eff W thrown str) (cwd : str) (io : ProgramIo W).

(** The two tokens; an empty first one hides the second. *)
Definition githubToken (env : CliEnv) : option str :=
  truthyStr (match REVIEW_AGENT_GH_TOKEN env with Some t => Some t | None => GITHUB_TOKEN env end).

Definition readYamlText (readFile : str -> eff W thrown str) (configPath : str) : eff W thrown (option str) :=
  tryCatch (t ← readFile configPath; mret (Some t)) (fun _ => mret None).

Definition resolveConfig (repoYaml : option str) (env : CliEnv)
    : eff W thrown (Config.Config * ConfigLoad.ConfigResolutionLog) :=
  match resolveEffectiveConfig isUrl compiles parseYaml repoYaml None (envOverrides (env_overrides env)) with
  | Ok x => mret x
  | Throw e => throw (configThrown e)
  end.

Definition setProfile (p : str) (c : Config.Config) : Config.Config :=
  {| Config.extends := Config.extends c; Config.language := Config.language c; Config.profile := p;
     Config.provider := Config.provider c; Config.reviews := Config.reviews c; Config.cost := Config.cost c;
     Config.privacy := Config.privacy c; Config.repo := Config.repo c; Config.skills := Config.skills c;
     Config.incremental := Config.incremental c; Config.coordination := Config.coordination c;
     Config.server := Config.server c; Config.codecommit := Config.codecommit c; Config.ruleset := Config.ruleset c;
     Config.feedback := Config.feedback c |}.

Definition applyCliOverrides (config : Config.Config) (language profile : option str) : eff W thrown Config.Config :=
  next ← match truthyStr language with
         | Some l =>
             match mergeWithEnv isUrl config {| REVIEW_AGENT_LANGUAGE := Some l; REVIEW_AGENT_PROVIDER := None;
                                          REVIEW_AGENT_MODEL := None; REVIEW_AGENT_MAX_USD_PER_PR := None;
                                          REVIEW_AGENT_MAX_STEPS := None |} with
             | Ok c => mret c
             | Throw e => throw (configThrown e)
             end
         | None => mret config
         end;
  mret match profile with
       | Some p => if bool_decide (p = js "chill") || bool_decide (p = js "assertive") then setProfile p next else next
       | None => next
       end.

Definition noGithubToken : thrown := Object (Some (js "GitHub token is required for --platform github.")) NoStatus None [].

(** review.ts *)
Definition defaultCreateVCS (platform : VcsPlatform) (token : option str) (config : Config.Config)
    : result thrown (CliRef -> VCS W) :=
  match platform with
  | codecommit => Ok (createCodecommitVCS (approvalState (Config.codecommit config)))
  | github => match truthyStr token with Some t => Ok (createGithubVCS t) | None => Throw noGithubToken end
  end.

(** dry-run.ts *)
Definition dryRunCreateVCS (platform : VcsPlatform) (token : option str) : result thrown (CliRef -> VCS W) :=
  match platform with
  | codecommit => Throw (Object (Some (js "CodeCommit dry-run requires an explicit createVCS factory.")) NoStatus None [])
  | github => match truthyStr token with Some t => Ok (createGithubVCS t) | None => Throw noGithubToken end
  end.

Definition buildAnthropicProvider (apiKey : str) (config : Config.Config) : LlmProvider W :=
  createAnthropicProvider
    {| ac_model := default (js "claude-sonnet-4-6") (pr_modelName <$> provider config); ac_apiKey := apiKey;
       ac_cacheControl := default true (anthropic_cache_control <$> provider config) |}.

Definition resolvePrRepo (platform : VcsPlatform) (ref : CliRef) (env : CliEnv) : prRepo :=
  {| host := match platform with codecommit => js "codecommit.invalid" | github => inferGithubHost P (GITHUB_SERVER_URL env) end;
     owner := cr_owner ref; repo := cr_repo ref |}.

(** review.ts; the reasons are the Action's in other words. *)
Definition cliSkip (pr : PR) (config : Config.Config) : option str :=
  if pr_draft pr && negb (drafts (auto_review (reviews config)))
  then Some (js "PR is in draft state and auto_review.drafts=false")
  else if bool_decide (pr_author pr ∈ ignore_authors (reviews config))
  then Some ("Author '" ++ pr_author pr ++ "' is in ignore_authors")
  else None.

(** The job of [review] (review.ts). *)
Definition cliJob (ref : CliRef) (cap : number) (platform : VcsPlatform) (env : CliEnv)
    (config : Config.Config) (log : ConfigLoad.ConfigResolutionLog) (pr : PR) (previous : option ReviewState)
    (files : list PatchFile) (skillBlock : str) : ReviewJob :=
  {| jobId := refText showNumber ref;
     workspaceDir := cwd;
     diffText := diffTextOf files;
     changedPaths := Some (map pf_path files);
     prMetadata := {| title := pr_title pr; um_body := pr_body pr; author := pr_author pr;
                      baseRef := Some (pr_baseRef pr); labels := Some (pr_labels pr);
                      commitMessages := Some (pr_commitMessages pr) |};
     previousState := previous;
     profile := Config.profile config;
     pathInstructions := map jobInstruction (Config.path_instructions (reviews config));
     skills := match skillBlock with [] => [] | _ => [skillBlock] end;
     language := Config.language config;
     costCapUsd := cap;
     incrementalContext := false;
     incrementalSinceSha := None;
     minConfidence := Some (min_confidence (reviews config));
     requestChangesOn := Some (request_changes_on (reviews config));
     pathFilters := path_filters (reviews config);
     job_maxFiles := countOf (max_files (reviews config));
     job_maxDiffLines := countOf (max_diff_lines (reviews config));
     privacy := {| allowedUrlPrefixes := allowed_url_prefixes (Config.privacy config);
                   denyPaths := deny_paths (Config.privacy config);
                   redactPatterns := redact_patterns (Config.privacy config) |};
     job_prRepo := resolvePrRepo platform ref env;
     ruleset := Some (jobRuleset (Config.ruleset config));
     resolutionLog := Some (runnerLog log);
     maxSteps := Some (countOf (max_steps (reviews config))) |}.

(** The job of [dry-run] (dry-run.ts). *)
Definition dryRunJob (ref : CliRef) (platform : VcsPlatform) (env : CliEnv)
    (config : Config.Config) (log : ConfigLoad.ConfigResolutionLog) (pr : PR) (previous : option ReviewState)
    (files : list PatchFile) (skillBlock : str) : ReviewJob :=
  {| jobId := "dry-run:" ++ refText showNumber ref;
     workspaceDir := cwd;
     diffText := diffTextOf files;
     changedPaths := Some (map pf_path files);
     prMetadata := {| title := pr_title pr; um_body := pr_body pr; author := pr_author pr;
                      baseRef := Some (pr_baseRef pr); labels := Some (pr_labels pr);
                      commitMessages := Some (pr_commitMessages pr) |};
     previousState := previous;
     profile := Config.profile config;
     pathInstructions := map jobInstruction (Config.path_instructions (reviews config));
     skills := match skillBlock with [] => [] | _ => [skillBlock] end;
     language := Config.language config;
     costCapUsd := max_usd_per_pr (cost config);
     incrementalContext := false;
     incrementalSinceSha := None;
     minConfidence := Some (min_confidence (reviews config));
     requestChangesOn := Some (request_changes_on (reviews config));
     pathFilters := path_filters (reviews config);
     job_maxFiles := countOf (max_files (reviews config));
     job_maxDiffLines := countOf (max_diff_lines (reviews config));
     privacy := {| allowedUrlPrefixes := allowed_url_prefixes (Config.privacy config);
                   denyPaths := deny_paths (Config.privacy config);
                   redactPatterns := redact_patterns (Config.privacy config) |};
     job_prRepo := resolvePrRepo platform ref env;
     ruleset := Some (jobRuleset (Config.ruleset config));
     resolutionLog := Some (runnerLog log);
     maxSteps := Some (countOf (max_steps (reviews config))) |}.

(** The hook of [review]: the log of the configuration goes to the standard error. *)
Definition reviewHooks : RunReviewDeps W :=
  {| onConfigResolution := Some (fun log => complain io [formatResolutionLine log]);
     fileReader := None; scanContent := None; historyReader := None;
     onHistoryReaderError := None; suppressionLoader := None; evalContext := None |}.

Definition clockOnly : EvalDeps W := {| now := clock; evalRecorder := None; onEvalRecordError := None |}.

(** From the diff to the result, in [review] and, in a copy of its own, in [dry-run]. *)
Definition reviewWith (cap : number) (platform : VcsPlatform) (env : CliEnv)
    (readFile : str -> eff W thrown str) (vcs : VCS W) (provider : LlmProvider W) (ref : CliRef)
    (config : Config.Config) (log : ConfigLoad.ConfigResolutionLog) (pr : PR)
    : eff W thrown (option ReviewState * RunnerResult) :=
  files ← getDiff vcs None;
  previous ← vcs_getState vcs;
  loaded ← loadSkills skillThrown isAbsolute pathResolve pathJoin readFile "." (Config.skills config);
  skillBlock ← liftSkills skillThrown (renderSkillsBlock loaded (map pf_path files));
  r ← runReview P (cliJob ref cap platform env config log pr previous files skillBlock) provider reviewHooks clockOnly;
  mret (previous, r).

Definition dryRunReview (platform : VcsPlatform) (env : CliEnv) (readFile : str -> eff W thrown str) (vcs : VCS W)
    (provider : LlmProvider W) (ref : CliRef) (config : Config.Config) (log : ConfigLoad.ConfigResolutionLog) (pr : PR)
    : eff W thrown RunnerResult :=
  files ← getDiff vcs None;
  previous ← vcs_getState vcs;
  loaded ← loadSkills skillThrown isAbsolute pathResolve pathJoin readFile "." (Config.skills config);
  skillBlock ← liftSkills skillThrown (renderSkillsBlock loaded (map pf_path files));
  runReview P (dryRunJob ref platform env config log pr previous files skillBlock) provider noDeps clockOnly.

Definition cliPostOrUpdate (vcs : VCS W) (pr : PR) (r : RunnerResult) (previous : option ReviewState) : eff W thrown unit :=
  at_ ← isoNow;
  let state := buildReviewState at_
    {| bs_previousState := previous; bs_comments := rr_comments r; bs_headSha := pr_headSha pr;
       bs_baseSha := pr_baseSha pr; bs_modelUsed := rr_model r;
       bs_tokensUsed := tok_input (rr_tokensUsed r) + tok_output (rr_tokensUsed r);
       bs_costUsd := rr_costUsd r |} in
  postReview vcs {| rp_comments := rr_comments r; rp_summary := rr_summary r; rp_state := state; rp_event := reviewEvent r |};;
  vcs_upsertState vcs state.

(** The rest of [review] after its result is printed. *)
Definition publish (opts : RunReviewOpts W) (vcs : VCS W) (pr : PR) (previous : option ReviewState) (r : RunnerResult)
    : eff W thrown RunReviewResult :=
  if negb (ro_post opts) then
    say io ["Run with --post to publish these comments to the PR." ++ nl];;
    mret {| rv_status := rs_reviewed; rv_reason := None; rv_postedComments := 0; rv_costUsd := rr_costUsd r |}
  else
    confirmed ← match ro_confirm opts with Some ask => ask | None => mret true end;
    if negb confirmed then
      say io ["Cancelled " ++ emDash ++ " no comments were posted." ++ nl];;
      mret {| rv_status := rs_cancelled; rv_reason := None; rv_postedComments := 0; rv_costUsd := rr_costUsd r |}
    else
      cliPostOrUpdate vcs pr r previous;;
      say io ["Posted " ++ showN (length (rr_comments r)) ++ " comments." ++ nl];;
      mret {| rv_status := rs_reviewed; rv_reason := None; rv_postedComments := length (rr_comments r);
              rv_costUsd := rr_costUsd r |}.

(** The token and the key of [review], or what is missing. *)
Definition reviewCredentials (opts : RunReviewOpts W) : result str (option str * str) :=
  token ← match default github (ro_platform opts) with
          | github =>
              match githubToken (ro_env opts) with
              | Some t => Ok (Some t)
              | None => Throw ("REVIEW_AGENT_GH_TOKEN (or GITHUB_TOKEN) is required." ++ nl)
              end
          | codecommit =>
              if bool_decide (ro_repo opts = []) then Throw ("Missing required --repo for --platform codecommit" ++ nl)
              else Ok None
          end;
  match truthyStr (ANTHROPIC_API_KEY (ro_env opts)) with
  | Some key => Ok (token, key)
  | None => Throw ("ANTHROPIC_API_KEY is required for the default Anthropic provider." ++ nl)
  end.

Definition runReviewCommand (opts : RunReviewOpts W) : eff W thrown RunReviewResult :=
  let platform := default github (ro_platform opts) in
  match reviewCredentials opts with
  | Throw missing => complain io [missing];; mret (notReviewed rs_auth_failed None)
  | Ok (token, apiKey) =>
      ref ← lift (parseRef platform (ro_repo opts) (ro_pr opts));
      let readFile := default fsReadFile (ro_readFile opts) in
      repoYaml ← readYamlText readFile (ro_configPath opts);
      '(baseConfig, log) ← resolveConfig repoYaml (ro_env opts);
      config ← applyCliOverrides baseConfig (ro_language opts) (ro_profile opts);
      makeVCS ← lift (default (defaultCreateVCS platform) (ro_createVCS opts) token config);
      let vcs := makeVCS ref in
      pr ← getPR vcs;
      match cliSkip pr config with
      | Some reason =>
          say io ["Skipped: " ++ reason ++ nl];;
          mret (notReviewed rs_skipped (Some reason))
      | None =>
          let provider := default buildAnthropicProvider (ro_createProvider opts) apiKey config in
          '(previous, r) ← reviewWith
            (default (max_usd_per_pr (cost config)) (ro_costCapUsd opts)) platform (ro_env opts) readFile vcs provider ref config log pr;
          say io (printResultSummary emDash showNumber toFixed4 ref pr r);;
          publish opts vcs pr previous r
      end
  end.

(** The token and the key of [dry-run]. *)
Definition dryRunCredentials (opts : DryRunOpts W) : result str (option str * str) :=
  token ← match default github (do_platform opts) with
          | github =>
              match githubToken (do_env opts) with
              | Some t => Ok (Some t)
              | None => Throw ("REVIEW_AGENT_GH_TOKEN (or GITHUB_TOKEN) is required for --pr mode." ++ nl)
              end
          | codecommit => Ok None
          end;
  match truthyStr (ANTHROPIC_API_KEY (do_env opts)) with
  | Some key => Ok (token, key)
  | None => Throw ("ANTHROPIC_API_KEY is required for the default Anthropic provider." ++ nl)
  end.

Definition dryRunFailed (status : DryRunStatus) (reason : option str) : DryRunResult :=
  {| dr_status := status; dr_reason := reason |}.

Definition runDryRunCommand (opts : DryRunOpts W) : eff W thrown DryRunResult :=
  let readFile := default fsReadFile (do_readFile opts) in
  repoYaml ← readYamlText readFile (do_configPath opts);
  '(baseConfig, log) ← resolveConfig repoYaml (do_env opts);
  config ← applyCliOverrides baseConfig (do_language opts) (do_profile opts);
  say io [formatResolutionLog rule showNumber log config];;
  match do_pr opts with
  | None => mret (dryRunFailed ds_config_only None)
  | Some prArg =>
      let platform := default github (do_platform opts) in
      match dryRunCredentials opts with
      | Throw missing => complain io [missing];; mret (dryRunFailed ds_auth_failed None)
      | Ok (token, apiKey) =>
          match parsePrArg platform prArg with
          | Throw msg => complain io [msg ++ nl];; mret (dryRunFailed ds_parse_error (Some msg))
          | Ok ref =>
              makeVCS ← lift (match do_createVCS opts with
                              | Some make => make token config
                              | None => dryRunCreateVCS platform token
                              end);
              let vcs := makeVCS ref in
              pr ← getPR vcs;
              let provider := default buildAnthropicProvider (do_createProvider opts) apiKey config in
              r ← dryRunReview platform (do_env opts) readFile vcs provider ref config log pr;
              say io (printDryRunResult emDash showNumber toFixed4 ref (pr_title pr) r);;
              mret {| dr_status := ds_reviewed; dr_reason := None |}
          end
      end
  end.

(** ** The program

    What commander hands to the two actions: numbers are what [Number.parseInt] and
    [Number.parseFloat] make of their texts, whatever that is, and no confirmation is asked for. *)

Record ReviewCliOpts := {
  rc_repo : str;
  rc_pr : str;
  rc_config : str;
  rc_platform : VcsPlatform;
  rc_lang : option str;
  rc_profile : option str;
  rc_costCapUsd : option str;
  rc_post : bool;
}.

Definition reviewAction (env : CliEnv) (o : ReviewCliOpts) : eff W thrown Z :=
  r ← runReviewCommand
    {| ro_repo := rc_repo o; ro_pr := match parseInt (rc_pr o) with Some n => num_of_Z n | None => nan end;
       ro_configPath := rc_config o; ro_post := rc_post o; ro_platform := Some (rc_platform o);
       ro_language := truthyStr (rc_lang o); ro_profile := truthyStr (rc_profile o);
       ro_costCapUsd := parseFloat <$> rc_costCapUsd o; ro_env := env;
       ro_readFile := None; ro_createVCS := None; ro_createProvider := None; ro_confirm := None |};
  mret (match rv_status r with rs_reviewed | rs_skipped => 0 | rs_auth_failed | rs_cancelled => 1 end)%Z.

Definition dryRunAction (env : CliEnv) (config : str) (pr : option str) (platform : VcsPlatform)
    (lang profile : option str) : eff W thrown Z :=
  r ← runDryRunCommand
    {| do_configPath := config; do_pr := pr; do_platform := Some platform; do_language := truthyStr lang;
       do_profile := truthyStr profile; do_env := env; do_readFile := None; do_createVCS := None;
       do_createProvider := None |};
  mret (match dr_status r with ds_config_only | ds_reviewed => 0 | ds_auth_failed | ds_parse_error => 1 end)%Z.
End commands.
