(* ===== verification/CliSpec.v ===== *)
(** * What the review commands guarantee

    [review] writes to the pull request only when it was told to and nobody objected, and what it
    posts is what a [dry-run] of the same pull request prints. *)

From S2P Require Import Prelude JsNumber NumberText JsMap JsonTree Codec Config ConfigLoad.
From S2P Require Import Review Glob Errors Schema Untrusted AutoFetch SystemPrompt Dedup SkillLoader.
From S2P Require Import Queue Runner Agent EvalRecorder AgentSpec AgentFrame Action Cli.

(** ** The hook of [review] *)

(** The hook of [review] runs before anything else. *)
Lemma runReviewInner_hook {W} P (job : ReviewJob) (provider : LlmProvider W) (io : ProgramIo W) log w :
  resolutionLog job = Some log ->
  runReviewInner P job provider (reviewHooks io) w
  = runReviewInner P job provider noDeps (stderr io (formatResolutionLine log) w).
Proof.
  intros Hl. unfold runReviewInner, runPhases, prologue, noteConfig, loadHistory, loadSuppressions.
  rewrite Hl. cbn [onConfigResolution reviewHooks noDeps historyReader suppressionLoader]. reflexivity.
Qed.

(** ** What the world promises *)

(** What is noted of a command: the pull request it read, the answer to its confirmation, and its
    writes. *)
Inductive Event := Fetched (pr : PR) | Answered (yes : bool) | Did (x : Write).

(** An operation that returns is noted with its answer; one that throws leaves no note. *)
Definition notes {W A} (journal : W -> list Event) (m : eff W thrown A) (note : A -> Event) : Prop :=
  forall w, match m w with
            | (Ok a, w') => journal w' = journal w ++ [note a]
            | (Throw _, w') => journal w' = journal w
            end.

(** Reading the pull request and the two writes are noted; the other operations are not. *)
Class Recorded {W} (journal : W -> list Event) (vcs : VCS W) : Prop := {
  re_getPR : notes journal (getPR vcs) Fetched;
  re_state : keeps journal (vcs_getState vcs);
  re_diff : forall since, keeps journal (getDiff vcs since);
  re_review : forall p, notes journal (postReview vcs p) (fun _ => Did (PostedReview p));
  re_upsert : forall st, notes journal (vcs_upsertState vcs st) (fun _ => Did (WroteState st));
}.

(** What is printed is not looked at. *)
Class Unseen {W} (io : ProgramIo W) (vcs : VCS W) : Prop := {
  un_getPR : forall s, blind (stdout io s) (getPR vcs) /\ blind (stderr io s) (getPR vcs);
  un_state : forall s, blind (stdout io s) (vcs_getState vcs) /\ blind (stderr io s) (vcs_getState vcs);
  un_diff : forall s, blind (stdout io s) (getDiff vcs None) /\ blind (stderr io s) (getDiff vcs None);
}.

Definition generateBlind {W} (g : W -> W) (provider : LlmProvider W) : Prop :=
  forall input w, generateReview provider input (g w) =
    ((generateReview provider input w).1, g (generateReview provider input w).2).

Class World {W} (journal : W -> list Event) (fsReadFile : str -> eff W thrown str)
    (createGithubVCS createCodecommitVCS : str -> CliRef -> VCS W) (createAnthropicProvider : AnthropicConfig -> LlmProvider W)
    (clock : eff W thrown Z) (isoNow : eff W thrown str) (io : ProgramIo W) : Prop := {
  wd_github : forall t ref, Recorded journal (createGithubVCS t ref);
  wd_codecommit : forall a ref, Recorded journal (createCodecommitVCS a ref);
  wd_read : forall p, keeps journal (fsReadFile p);
  wd_generate : forall c input w, journal (generateReview (createAnthropicProvider c) input w).2 = journal w;
  wd_estimate : forall c input, keeps journal (estimateCost (createAnthropicProvider c) input);
  wd_clock : keeps journal clock;
  wd_iso : keeps journal isoNow;
  wd_out : forall s w, journal (stdout io s w) = journal w;
  wd_err : forall s w, journal (stderr io s w) = journal w;
}.

Class UnseenWorld {W} (fsReadFile : str -> eff W thrown str) (createGithubVCS : str -> CliRef -> VCS W)
    (createAnthropicProvider : AnthropicConfig -> LlmProvider W) (clock : eff W thrown Z) (io : ProgramIo W) : Prop := {
  uw_github : forall t ref, Unseen io (createGithubVCS t ref);
  uw_read : forall p s, blind (stdout io s) (fsReadFile p) /\ blind (stderr io s) (fsReadFile p);
  uw_generate : forall c s, generateBlind (stdout io s) (createAnthropicProvider c) /\
    generateBlind (stderr io s) (createAnthropicProvider c);
  uw_estimate : forall c input s, blind (stdout io s) (estimateCost (createAnthropicProvider c) input) /\
    blind (stderr io s) (estimateCost (createAnthropicProvider c) input);
  uw_clock : forall s, blind (stdout io s) clock /\ blind (stderr io s) clock;
}.

(** No operation is replaced: the commands as the program runs them. *)
Definition uninjected {W} (opts : RunReviewOpts W) : Prop :=
  ro_readFile opts = None /\ ro_createVCS opts = None /\ ro_createProvider opts = None.
Definition dryUninjected {W} (opts : DryRunOpts W) : Prop :=
  do_readFile opts = None /\ do_createVCS opts = None /\ do_createProvider opts = None.

Section lemmas.
Context {W : Type} (P : Platform) (emDash rule : str) (showNumber toFixed4 : number -> str)
  (isUrl compiles : str -> bool) (parseYaml : str -> option json) (configThrown : LoadError -> thrown)
  (skillThrown : SkillError -> thrown) (isAbsolute : str -> bool) (pathResolve pathJoin : str -> str -> str)
  (fsReadFile : str -> eff W thrown str)
  (createGithubVCS : str -> CliRef -> VCS W) (createCodecommitVCS : str -> CliRef -> VCS W)
  (createAnthropicProvider : AnthropicConfig -> LlmProvider W)
  (clock : eff W thrown Z) (isoNow : eff W thrown str) (cwd : str) (io : ProgramIo W).

Notation review := (runReviewCommand P emDash showNumber toFixed4 isUrl compiles parseYaml configThrown skillThrown
  isAbsolute pathResolve pathJoin fsReadFile createGithubVCS createCodecommitVCS createAnthropicProvider clock isoNow cwd io).
Notation dryRun := (runDryRunCommand P emDash rule showNumber toFixed4 isUrl compiles parseYaml configThrown skillThrown
  isAbsolute pathResolve pathJoin fsReadFile createGithubVCS createAnthropicProvider clock cwd io).
Notation reviewed := (reviewWith P showNumber skillThrown isAbsolute pathResolve pathJoin clock cwd io).
Notation rehearsed := (dryRunReview P showNumber skillThrown isAbsolute pathResolve pathJoin clock cwd).

(** *** Writes *)

Context (journal : W -> list Event)
  `{HW : !World journal fsReadFile createGithubVCS createCodecommitVCS createAnthropicProvider clock isoNow io}.

Lemma printed_journal (print : str -> W -> W) : (forall s w, journal (print s w) = journal w) ->
  forall chunks w, journal (printed print chunks w) = journal w.
Proof. intros H chunks. induction chunks as [|c cs IH]; intros w; [done|].
  etrans; [apply (IH (print c w))|apply H].
Qed.

Lemma say_keeps chunks : keeps journal (say io chunks).
Proof. intros w. apply printed_journal, wd_out. Qed.

Lemma complain_keeps chunks : keeps journal (complain io chunks).
Proof. intros w. apply printed_journal, wd_err. Qed.

Lemma readYaml_keeps path : keeps journal (readYamlText fsReadFile path).
Proof. unfold readYamlText. pose proof wd_read. solve_keeps. Qed.

Lemma resolveConfig_keeps y env : keeps journal (resolveConfig isUrl compiles parseYaml configThrown y env).
Proof. unfold resolveConfig. solve_keeps. Qed.

Lemma overrides_keeps c l p : keeps journal (applyCliOverrides isUrl configThrown c l p).
Proof. unfold applyCliOverrides. solve_keeps. Qed.

Lemma skills_keeps root refs : keeps journal (loadSkills skillThrown isAbsolute pathResolve pathJoin fsReadFile root refs).
Proof.
  induction refs as [|r refs IH]; cbn [loadSkills]; [apply keeps_ret|].
  unfold loadSkill, SkillLoader.liftSkill. pose proof wd_read. solve_keeps.
Qed.

Lemma runReviewInner_hook_keeps job c :
  keeps journal (runReviewInner P job (createAnthropicProvider c) (reviewHooks io)).
Proof.
  intros w. pose proof (runReviewInner_keeps journal P job _ (wd_generate c) (wd_estimate c)) as H.
  destruct (resolutionLog job) as [log|] eqn:E.
  - rewrite (runReviewInner_hook _ _ _ _ log) by done. rewrite H. apply wd_err.
  - specialize (H w). rewrite <- H. f_equal. f_equal. unfold runReviewInner, runPhases, prologue, noteConfig. by rewrite E.
Qed.

Lemma reviewWith_keeps cap platform env vcs c ref config log pr :
  Recorded journal vcs ->
  keeps journal (reviewed cap platform env fsReadFile vcs (createAnthropicProvider c) ref config log pr).
Proof.
  intros HR. unfold reviewWith, liftSkills.
  assert (forall job, keeps journal (runReview P job (createAnthropicProvider c) (reviewHooks io) (clockOnly clock))) as Hr.
  { intros job. unfold runReview. cbn [now evalRecorder clockOnly].
    pose proof (runReviewInner_hook_keeps job c). pose proof wd_clock. solve_keeps. }
  pose proof re_diff. pose proof re_state. pose proof skills_keeps. solve_keeps.
Qed.

Lemma dryRunReview_keeps platform env vcs c ref config log pr :
  Recorded journal vcs ->
  keeps journal (rehearsed platform env fsReadFile vcs (createAnthropicProvider c) ref config log pr).
Proof.
  intros HR. unfold dryRunReview, liftSkills.
  assert (forall job, keeps journal (runReview P job (createAnthropicProvider c) noDeps (clockOnly clock))) as Hr.
  { intros job. unfold runReview. cbn [now evalRecorder clockOnly].
    pose proof (runReviewInner_keeps journal P job _ (wd_generate c) (wd_estimate c)). pose proof wd_clock. solve_keeps. }
  pose proof re_diff. pose proof re_state. pose proof skills_keeps. solve_keeps.
Qed.

(** The two writes of the review of a pull request. *)
Definition reviewOf (pr : PR) (p : ReviewPayload) : Prop :=
  lastReviewedSha (rp_state p) = pr_headSha pr /\ baseSha (rp_state p) = pr_baseSha pr.
Definition bothWrites (p : ReviewPayload) : list Event := [Did (PostedReview p); Did (WroteState (rp_state p))].

Lemma cliPost_writes vcs pr r previous w : Recorded journal vcs ->
  match cliPostOrUpdate isoNow vcs pr r previous w with
  | (Ok _, w') => exists p, journal w' = journal w ++ bothWrites p /\ reviewOf pr p /\
      rp_comments p = rr_comments r /\ rp_summary p = rr_summary r /\ rp_event p = reviewEvent r
  | (Throw _, w') => journal w' = journal w \/
      exists p, journal w' = journal w ++ [Did (PostedReview p)] /\ reviewOf pr p
  end.
Proof.
  intros HR. unfold cliPostOrUpdate. unfold mbind at 1, eff_bind at 1.
  pose proof (wd_iso w) as Hn. destruct (isoNow w) as [[iso|e] w1]; cbn in Hn; [|by left].
  set (st := buildReviewState _ _). cbv zeta. set (p := {| rp_comments := _ |}).
  unfold mbind, eff_bind. pose proof (re_review p w1) as Hp.
  destruct (postReview vcs p w1) as [[[]|e] w2]; [|left; congruence].
  pose proof (re_upsert st w2) as Hu. destruct (vcs_upsertState vcs st w2) as [[[]|e] w3].
  - exists p. split; [rewrite Hu, Hp, Hn, <- app_assoc; done|]. by split_and!.
  - right. exists p. split; [congruence|done].
Qed.

(** The confirmation of a run that went on. *)
Definition confirmation (opts : RunReviewOpts W) : list Event :=
  match ro_confirm opts with Some _ => [Answered true] | None => [] end.

(** What is noted of a run that ended with each status. *)
Definition told (opts : RunReviewOpts W) (r : RunReviewResult) (l : list Event) : Prop :=
  match rv_status r with
  | rs_auth_failed => l = [] /\ rv_postedComments r = 0
  | rs_skipped => exists pr, l = [Fetched pr] /\ rv_postedComments r = 0
  | rs_cancelled => ro_post opts = true /\ is_Some (ro_confirm opts) /\
      exists pr, l = [Fetched pr; Answered false] /\ rv_postedComments r = 0
  | rs_reviewed =>
      if ro_post opts
      then exists pr p, l = Fetched pr :: confirmation opts ++ bothWrites p /\ reviewOf pr p /\
             rv_postedComments r = length (rp_comments p)
      else exists pr, l = [Fetched pr] /\ rv_postedComments r = 0
  end.

(** What is noted of a run that throws: nothing was written, or the review without its state. *)
Definition toldThrow (opts : RunReviewOpts W) (l : list Event) : Prop :=
  Forall (fun e => forall x, e <> Did x) l \/
  ro_post opts = true /\ exists pr p, l = Fetched pr :: confirmation opts ++ [Did (PostedReview p)] /\ reviewOf pr p.

Definition reviewOutcome (opts : RunReviewOpts W) (before : list Event) (rw : result thrown RunReviewResult * W) : Prop :=
  match rw with
  | (Ok r, w') => exists l, journal w' = before ++ l /\ told opts r l
  | (Throw _, w') => exists l, journal w' = before ++ l /\ toldThrow opts l
  end.

(** A step that is not noted, in a run that has noted [seen]. *)
Ltac quiet_step :=
  match goal with
  | Hj : journal ?w = ?before ++ ?seen |- reviewOutcome ?opts ?before ((?m ≫= ?k) ?w) =>
      refine (keeps_step journal m k (reviewOutcome opts before) w _ _ _);
        [|let Hs := fresh "Hs" in intros ? ? Hs; rewrite Hj in Hs; clear Hj; rename Hs into Hj
         |let Hs := fresh "Hs" in intros ? ? Hs; rewrite Hj in Hs; exists seen;
            split; [exact Hs|left; repeat constructor; done]]
  end.
(** A step whose answer is noted. *)
Tactic Notation "noted_step" constr(H) "as" ident(a) :=
  match goal with
  | Hj : journal ?w = ?before ++ ?seen |- reviewOutcome ?opts ?before ((?m ≫= ?k) ?w) =>
      unfold mbind at 1, eff_bind at 1; let Hn := fresh "Hn" in pose proof (H w) as Hn;
      destruct (m w) as [[a|?] ?]; rewrite Hj in Hn;
        [rewrite <- app_assoc in Hn; clear Hj; rename Hn into Hj; cbn [app] in Hj
        |exists seen; split; [exact Hn|left; repeat constructor; done]]
  end.

Lemma publish_outcome opts vcs pr previous r w before : Recorded journal vcs ->
  (forall ask, ro_confirm opts = Some ask -> notes journal ask Answered) -> journal w = before ++ [Fetched pr] ->
  reviewOutcome opts before (publish emDash isoNow io opts vcs pr previous r w).
Proof.
  intros HR Hask Hj. unfold publish. destruct (ro_post opts) eqn:Ep; cbn [negb].
  2: { quiet_step; [apply say_keeps|]. exists [Fetched pr]. split; [exact Hj|]. unfold told. cbn. rewrite Ep. by exists pr. }
  assert (forall w1, journal w1 = before ++ Fetched pr :: confirmation opts ->
    reviewOutcome opts before ((cliPostOrUpdate isoNow vcs pr r previous;;
      say io ["Posted " ++ showN (length (rr_comments r)) ++ " comments." ++ nl];;
      mret {| rv_status := rs_reviewed; rv_reason := None; rv_postedComments := length (rr_comments r);
              rv_costUsd := rr_costUsd r |}) w1)) as Hpost.
  { intros w1 Hj1. unfold mbind, eff_bind. pose proof (cliPost_writes vcs pr r previous w1 HR) as Hp.
    destruct (cliPostOrUpdate _ _ _ _ _ w1) as [[[]|e] w2]; rewrite Hj1 in Hp.
    - destruct Hp as (p & Hp & Hof & Hc & _). exists (Fetched pr :: confirmation opts ++ bothWrites p).
      split; [rewrite <- app_assoc in Hp; etrans; [apply (printed_journal _ wd_out)|exact Hp]|].
      unfold told. cbn. rewrite Ep. exists pr, p. by rewrite Hc.
    - destruct Hp as [Hp|(p & Hp & Hof)].
      + exists (Fetched pr :: confirmation opts). split; [exact Hp|]. left. unfold confirmation.
        destruct (ro_confirm opts); repeat constructor; done.
      + exists (Fetched pr :: confirmation opts ++ [Did (PostedReview p)]).
        rewrite <- app_assoc in Hp. split; [exact Hp|]. right. split; [done|]. by exists pr, p. }
  unfold confirmation in Hpost. destruct (ro_confirm opts) as [ask|] eqn:Ec; [|by apply Hpost].
  noted_step (Hask ask eq_refl) as yes. destruct yes; cbn [negb]; [by apply Hpost|].
  quiet_step; [apply say_keeps|]. eexists. split; [exact Hj|]. unfold told. cbn. rewrite Ec. split_and!; [done..|by exists pr].
Qed.

Lemma review_outcome opts w : uninjected opts -> (forall ask, ro_confirm opts = Some ask -> notes journal ask Answered) ->
  reviewOutcome opts (journal w) (review opts w).
Proof.
  intros (Hr & Hv & Hp) Hask. unfold runReviewCommand. rewrite Hr, Hv, Hp. cbn [default].
  assert (journal w = journal w ++ []) as Hj by by rewrite app_nil_r. revert Hj. generalize (journal w) at 2 3. intros before Hj.
  destruct (reviewCredentials opts) as [[token apiKey]|missing].
  2: { quiet_step; [apply complain_keeps|]. by exists []. }
  quiet_step; [apply keeps_lift|]. rename a into ref.
  quiet_step; [apply readYaml_keeps|]. rename a into yaml.
  quiet_step; [apply resolveConfig_keeps|]. destruct a as [base log].
  quiet_step; [apply overrides_keeps|]. rename a into config.
  assert (forall make, defaultCreateVCS createGithubVCS createCodecommitVCS (default github (ro_platform opts)) token config = Ok make ->
    Recorded journal (make ref)) as HR.
  { intros make. unfold defaultCreateVCS. destruct (default _ _); [destruct (truthyStr token)|]; intros [= <-];
      [apply wd_github|apply wd_codecommit]. }
  unfold lift at 1, mbind at 1, eff_bind at 1.
  destruct (defaultCreateVCS _ _ _ _ _) as [make|e]; [specialize (HR make eq_refl)|exists []; split; [done|by left]].
  noted_step re_getPR as pr.
  destruct (cliSkip pr config) as [reason|].
  { quiet_step; [apply say_keeps|]. exists [Fetched pr]. split; [exact Hj|]. by exists pr. }
  quiet_step; [by apply reviewWith_keeps|]. destruct a as [previous r].
  quiet_step; [apply say_keeps|].
  by apply publish_outcome.
Qed.

(** *** What is printed changes nothing *)

Context `{HU : !UnseenWorld fsReadFile createGithubVCS createAnthropicProvider clock io}.

Definition prints (g : W -> W) : Prop := exists s, g = stdout io s \/ g = stderr io s.

Lemma blind_read_file g p : prints g -> blind g (fsReadFile p).
Proof. intros (s & [-> | ->]); apply uw_read. Qed.
Lemma blind_clock g : prints g -> blind g clock.
Proof. intros (s & [-> | ->]); apply uw_clock. Qed.
Lemma blind_getPR g t ref : prints g -> blind g (getPR (createGithubVCS t ref)).
Proof. intros (s & [-> | ->]); apply (un_getPR (Unseen := uw_github t ref)). Qed.

Lemma blind_skills g root refs : prints g ->
  blind g (loadSkills skillThrown isAbsolute pathResolve pathJoin fsReadFile root refs).
Proof.
  intros Hg. pose proof (fun p => blind_read_file g p Hg).
  induction refs as [|r refs IH]; cbn [loadSkills]; [apply blind_ret|].
  unfold loadSkill, SkillLoader.liftSkill. solve_blind.
Qed.

Lemma blind_inner g job c : prints g -> blind g (runReviewInner P job (createAnthropicProvider c) noDeps).
Proof.
  intros (s & [-> | ->]); apply runReviewInner_blind; try apply uw_generate; intros input; apply uw_estimate.
Qed.

Lemma blind_dryRunReview g platform env t ref' c ref config log pr : prints g ->
  blind g (rehearsed platform env fsReadFile (createGithubVCS t ref') (createAnthropicProvider c) ref config log pr).
Proof.
  intros Hg. unfold dryRunReview, liftSkills, runReview. cbn [now evalRecorder clockOnly].
  assert (blind g (getDiff (createGithubVCS t ref') None)) as Hd.
  { destruct Hg as (s & [-> | ->]); apply (un_diff (Unseen := uw_github t ref')). }
  assert (blind g (vcs_getState (createGithubVCS t ref'))) as Hs.
  { destruct Hg as (s & [-> | ->]); apply (un_state (Unseen := uw_github t ref')). }
  pose proof (blind_clock g Hg). pose proof (fun root refs => blind_skills g root refs Hg).
  pose proof (fun job => blind_inner g job c Hg). solve_blind.
Qed.

(** A review that went through printed its log and did what the copy of [dry-run] does without
    printing it: the two jobs differ in their ids, and without a recorder an id is not looked at. *)
Lemma reviewWith_hook platform env vcs c ref config log pr w previous r w' :
  reviewed (max_usd_per_pr (cost config)) platform env fsReadFile vcs (createAnthropicProvider c) ref config log pr w
    = (Ok (previous, r), w') ->
  exists w1, rehearsed platform env fsReadFile vcs (createAnthropicProvider c) ref config log pr w = (Ok r, w1) /\
    w' = stderr io (formatResolutionLine (runnerLog log)) w1.
Proof.
  unfold reviewWith, dryRunReview, runReview. cbn [now evalRecorder clockOnly]. set (line := formatResolutionLine (runnerLog log)).
  unfold mbind, eff_bind. destruct (getDiff vcs None w) as [[files|e] w1]; [|done].
  destruct (vcs_getState vcs w1) as [[before|e] w2]; [|done].
  destruct (loadSkills _ _ _ _ _ _ _ w2) as [[loaded|e] w3]; [|done].
  destruct (liftSkills _ _ w3) as [[block|e] w4]; [|done].
  destruct (clock w4) as [[t0|e] w5]; [|done].
  rewrite (runReviewInner_hook _ _ _ _ (runnerLog log)) by done. fold line.
  rewrite (blind_inner (stderr io line)) by (exists line; by right).
  change (runReviewInner P (dryRunJob P showNumber cwd ref platform env config log pr before files block)
            (createAnthropicProvider c) noDeps w5)
    with (runReviewInner P (cliJob P showNumber cwd ref (max_usd_per_pr (cost config)) platform env config log pr before files block)
            (createAnthropicProvider c) noDeps w5).
  destruct (runReviewInner P _ _ noDeps w5) as [[res|e] w6]; [|done]. cbn [fst snd].
  rewrite (blind_clock (stderr io line)) by (exists line; by right).
  destruct (clock w6) as [[t1|e] w7]; [|done]. cbn [fst snd]. unfold mret, eff_ret. intros [= <- <- <-]. by eexists.
Qed.

(** What a [review] that was neither refused nor skipped went through. *)
Lemma review_went_through opts ref w r w' :
  uninjected opts -> default github (ro_platform opts) = github -> ro_costCapUsd opts = None ->
  parseRef github (ro_repo opts) (ro_pr opts) = Ok ref ->
  review opts w = (Ok r, w') -> rv_status r <> rs_auth_failed -> rv_status r <> rs_skipped ->
  exists token key y w0 base log config pr w1 previous res w2,
    githubToken (ro_env opts) = Some token /\ truthyStr (ANTHROPIC_API_KEY (ro_env opts)) = Some key /\
    readYamlText fsReadFile (ro_configPath opts) w = (Ok y, w0) /\
    (forall s : W, resolveConfig isUrl compiles parseYaml configThrown y (ro_env opts) s = (Ok (base, log), s)) /\
    (forall s : W, applyCliOverrides isUrl configThrown base (ro_language opts) (ro_profile opts) s = (Ok config, s)) /\
    getPR (createGithubVCS token ref) w0 = (Ok pr, w1) /\
    rehearsed github (ro_env opts) fsReadFile
      (createGithubVCS token ref) (buildAnthropicProvider createAnthropicProvider key config) ref config log pr w1
      = (Ok res, w2) /\
    publish emDash isoNow io opts (createGithubVCS token ref) pr previous res
      (printed (stdout io) (printResultSummary emDash showNumber toFixed4 ref pr res)
         (stderr io (formatResolutionLine (runnerLog log)) w2)) = (Ok r, w').
Proof.
  intros (Hr & Hv & Hp) Hg Hcap Href. unfold runReviewCommand, reviewCredentials. rewrite Hr, Hv, Hp, Hg, Hcap, Href. cbn [default].
  destruct (githubToken (ro_env opts)) as [token|] eqn:Et; [|by intros [= <- <-]]. cbn.
  destruct (truthyStr (ANTHROPIC_API_KEY _)) as [key|] eqn:Ek; [|by intros [= <- <-]].
  unfold mbind, eff_bind, lift, say, modify.
  destruct (readYamlText _ _ w) as [[y|e] w0] eqn:Ey; [|done].
  destruct (resolveConfig _ _ _ _ y _ w0) as [[[base log]|e] w0'] eqn:Ec; [|done].
  assert (forall s : W, resolveConfig isUrl compiles parseYaml configThrown y (ro_env opts) s = (Ok (base, log), s) /\ w0' = w0) as Hc.
  { intros s. revert Ec. unfold resolveConfig. destruct (resolveEffectiveConfig _ _ _ _ _ _); by intros [= -> <-]. }
  destruct (Hc w0) as [_ ->]. clear Ec.
  destruct (applyCliOverrides _ _ base _ _ w0) as [[config|e] w0''] eqn:Eo; [|done].
  assert (forall s : W, applyCliOverrides isUrl configThrown base (ro_language opts) (ro_profile opts) s = (Ok config, s) /\ w0'' = w0) as Ho.
  { intros s. revert Eo. unfold applyCliOverrides, mbind, eff_bind. destruct (truthyStr (ro_language opts));
      [destruct (mergeWithEnv _ _ _); [|done]|]; by intros [= <- <-]. }
  destruct (Ho w0) as [_ ->]. clear Eo.
  assert (truthyStr (Some token) = Some token) as -> by (apply truthyStr_ne; revert Et; unfold githubToken; by intros [_ ?]%truthyStr_Some).
  destruct (getPR _ w0) as [[pr|e] w1] eqn:Egp; [|done].
  destruct (cliSkip pr config) as [reason|]; [by intros [= <- <-]|].
  destruct (reviewWith _ _ _ _ _ _ _ _ _ _ _ _ _ _ _ _ _ _ _ w1) as [[[previous res]|e] w2] eqn:Er; [|done].
  apply reviewWith_hook in Er as (w3 & Er & ->). intros Hpub Hs1 Hs2.
  exists token, key, y, w0, base, log, config, pr, w1, previous, res, w3. split_and!; try done; intros s; [apply Hc|apply Ho].
Qed.

Lemma token_makes env token : githubToken env = Some token ->
  dryRunCreateVCS createGithubVCS github (Some token) = Ok (createGithubVCS token).
Proof.
  unfold githubToken, dryRunCreateVCS. intros [_ Ht]%truthyStr_Some. by rewrite truthyStr_ne.
Qed.

Lemma publish_posts opts vcs pr previous res w r w' before : Recorded journal vcs ->
  (forall ask, ro_confirm opts = Some ask -> notes journal ask Answered) -> journal w = before ++ [Fetched pr] ->
  publish emDash isoNow io opts vcs pr previous res w = (Ok r, w') ->
  rv_costUsd r = rr_costUsd res /\
  (ro_post opts = true -> rv_status r = rs_reviewed ->
   exists p, journal w' = before ++ Fetched pr :: confirmation opts ++ bothWrites p /\
     rp_comments p = rr_comments res /\ rp_summary p = rr_summary res /\ rp_event p = reviewEvent res).
Proof.
  intros HR Hask Hj. unfold publish. destruct (ro_post opts); cbn [negb]; [|by intros [= <- <-]].
  assert (forall w1, journal w1 = before ++ Fetched pr :: confirmation opts ->
    (cliPostOrUpdate isoNow vcs pr res previous;;
      say io ["Posted " ++ showN (length (rr_comments res)) ++ " comments." ++ nl];;
      mret {| rv_status := rs_reviewed; rv_reason := None; rv_postedComments := length (rr_comments res);
              rv_costUsd := rr_costUsd res |}) w1 = (Ok r, w') ->
    rv_costUsd r = rr_costUsd res /\ exists p, journal w' = before ++ Fetched pr :: confirmation opts ++ bothWrites p /\
      rp_comments p = rr_comments res /\ rp_summary p = rr_summary res /\ rp_event p = reviewEvent res) as Hpost.
  { intros w1 Hj1. unfold mbind, eff_bind. pose proof (cliPost_writes vcs pr res previous w1 HR) as Hw.
    destruct (cliPostOrUpdate _ _ _ _ _ w1) as [[[]|e] w2]; [|done]. destruct Hw as (p & Hp & _ & Hpc & Hps & Hpe).
    intros [= <- <-]. split; [done|]. exists p. split; [|done]. rewrite Hj1, <- app_assoc in Hp.
    etrans; [apply wd_out|exact Hp]. }
  unfold confirmation in Hpost |- *. destruct (ro_confirm opts) as [ask|].
  - unfold mbind at 1, eff_bind at 1. pose proof (Hask ask eq_refl w) as Ha.
    destruct (ask w) as [[[]|e] w1]; [| |done]; cbn [negb]; [|by intros [= <- <-]].
    rewrite Hj, <- app_assoc in Ha. intros H. destruct (Hpost w1 Ha H) as [? ?]. by split.
  - intros H. destruct (Hpost w Hj H) as [? ?]. by split.
Qed.

(** *** What a dry run shows *)

Lemma firstLine_spec (s : str) : firstLine s = takeWhile (fun c => negb (eqc c newline)) s.
Proof.
  unfold firstLine, split. induction s as [|c s IH]; [done|].
  assert (startsWith (c :: s) nl = eqc newline c) as Hs by (cbn; by rewrite andb_true_r).
  cbn [splitGo takeWhile length]. rewrite Hs.
  assert (eqc newline c = eqc c newline) as -> by apply Ascii.eqb_sym.
  destruct (eqc c newline); cbn [negb]; [done|]. destruct (splitGo _ _ 0 s) as [|x xs] eqn:E; cbn in IH |- *; by rewrite <- IH.
Qed.

(** A finding on one line: its severity, its place, and its text up to the first line break. *)
Definition shownFinding (c : InlineComment) : str :=
  "  [" ++ severity_str (severity c) ++ "] " ++ path c ++ ":" ++ showZ (line c) ++ " " ++ emDash ++ " "
    ++ takeWhile (fun x => negb (eqc x newline)) (body c) ++ nl.

(** The chunks [out] show the result [res] of the pull request [pr]: which pull request it is, every
    excluded file with its reason, the summary, and - unless the review was aborted, whose reason is
    shown instead - the number of findings and then each of them, in order. *)
Record shows (ref : CliRef) (pr : PR) (res : RunnerResult) (out : list str) : Prop := {
  sh_pr : ("PR " ++ (cr_owner ref ++ "/" ++ cr_repo ref ++ "#" ++ showNumber (cr_number ref)) ++ ": "
           ++ pr_title pr ++ nl) ∈ out;
  sh_excluded : forall report f, exclusionReport res = Some report -> f ∈ excludedFiles report ->
    ("  [" ++ exclusionReason_str (ex_reason f) ++ "] " ++ ex_path f ++ nl) ∈ out;
  sh_summary : rr_summary res <> [] -> exists before, (before ++ rr_summary res ++ nl) ∈ out;
  sh_findings : match aborted res with
    | Some a => ("Reason: " ++ abortReason_str (ab_reason a) ++ nl) ∈ out
    | None => exists before after,
        out = before ++ [nl ++ "--- Would-Be Findings (" ++ showN (length (rr_comments res)) ++ ") ---" ++ nl]
                     ++ map shownFinding (rr_comments res) ++ after
    end;
}.

Lemma between (a b c h m t : list str) :
  exists before after, a ++ b ++ c ++ h ++ m ++ t = before ++ h ++ m ++ after.
Proof. exists (a ++ b ++ c), t. by rewrite <- !app_assoc. Qed.

Lemma printDryRun_shows ref pr res :
  shows ref pr res (printDryRunResult emDash showNumber toFixed4 ref (pr_title pr) res).
Proof.
  unfold printDryRunResult. split.
  - rewrite !elem_of_app. right. left. by left.
  - intros report f Hr Hf. rewrite !elem_of_app. do 2 right. left. unfold exclusionChunks. rewrite Hr.
    destruct (excludedFiles report) as [|g fs]; [by apply elem_of_nil in Hf|].
    rewrite !elem_of_app. do 3 right. apply elem_of_bmap. by exists f.
  - intros Hs. destruct (aborted res) as [a|].
    + exists []. set_solver.
    + exists (nl ++ "Summary:" ++ nl). rewrite !elem_of_app. do 7 right. left. unfold summaryChunk.
      destruct (rr_summary res); [done|]. rewrite <- !app_assoc. by left.
  - destruct (aborted res) as [a|]; [set_solver|].
    assert (map (findingLine emDash) (rr_comments res) = map shownFinding (rr_comments res)) as ->.
    { apply map_ext. intros c. unfold findingLine, shownFinding. by rewrite firstLine_spec. }
    apply between.
Qed.

(** The configuration in force for a command line, and where it came from. *)
Definition inForce (opts : DryRunOpts W) (w : W) (log : ConfigLoad.ConfigResolutionLog) (config : Config.Config) : Prop :=
  exists y base,
    (readYamlText fsReadFile (do_configPath opts) w).1 = Ok y /\
    resolveEffectiveConfig isUrl compiles parseYaml y None (envOverrides (env_overrides (do_env opts))) = Ok (base, log) /\
    (applyCliOverrides isUrl configThrown base (do_language opts) (do_profile opts) w).1 = Ok config.

(** *** Properties *)


End lemmas.

(** ** A terminal on paper *)

Definition Paper : Type := list Event * list str.

Definition paperNote (e : Event) : eff Paper thrown unit := modify (fun w => (w.1 ++ [e], w.2)).
Definition paperPr : PR :=
  {| pr_title := "fix"; pr_body := []; pr_author := "ann"; pr_draft := false; pr_baseRef := "main"; pr_labels := [];
     pr_commitMessages := []; pr_baseSha := "b"; pr_headSha := "h" |}.

Definition paperGithub (_ : str) (_ : CliRef) : VCS Paper :=
  {| getPR := paperNote (Fetched paperPr);; mret paperPr;
     getCommentAuthors := mret [];
     postSummary := fun t => paperNote (Did (PostedSummary t));
     vcs_getState := mret None;
     getDiff := fun _ => mret [{| pf_path := "a.ts"; pf_patch := Some (js "+x") |}];
     postReview := fun p => paperNote (Did (PostedReview p));
     vcs_upsertState := fun st => paperNote (Did (WroteState st)) |}.

(** A prompt that is answered. *)
Definition paperAsk (yes : bool) : eff Paper thrown bool := paperNote (Answered yes);; mret yes.

Definition paperModel (_ : AnthropicConfig) : LlmProvider Paper :=
  {| pv_name := "paper"; pv_model := "model-1"; generateReview := fun _ w => (demoOutcome 1, w); estimateCost := fun _ => mret zero |}.

Definition paperRead (_ : str) : eff Paper thrown str := throw (StringValue "ENOENT").
Definition paperIo : ProgramIo Paper := {| stdout := fun s w => (w.1, w.2 ++ [s]); stderr := fun _ w => w |}.

#[export] Instance paper_recorded t ref : Recorded fst (paperGithub t ref).
Proof. by split. Qed.

#[export] Instance paper_world : World fst paperRead paperGithub paperGithub paperModel (mret 0%Z) (mret []) paperIo.
Proof. by split. Qed.

#[export] Instance paper_unseen : UnseenWorld paperRead paperGithub paperModel (mret 0%Z) paperIo.
Proof. by split. Qed.

Definition paperEnv : CliEnv :=
  {| REVIEW_AGENT_GH_TOKEN := None; GITHUB_TOKEN := Some (js "t"); ANTHROPIC_API_KEY := Some (js "k");
     GITHUB_SERVER_URL := None; env_overrides := noEnv |}.

Definition paperOpts (ask : option (eff Paper thrown bool)) : RunReviewOpts Paper :=
  {| ro_repo := "o/r"; ro_pr := num_of_Z 7; ro_configPath := ".review-agent.yml"; ro_post := true; ro_platform := None;
     ro_language := None; ro_profile := None; ro_costCapUsd := None; ro_env := paperEnv; ro_readFile := None;
     ro_createVCS := None; ro_createProvider := None; ro_confirm := ask |}.

Definition paperDryOpts : DryRunOpts Paper :=
  {| do_configPath := ".review-agent.yml"; do_pr := Some (js "o/r#7"); do_platform := None; do_language := None;
     do_profile := None; do_env := paperEnv; do_readFile := None; do_createVCS := None; do_createProvider := None |}.

Definition paperReview (ask : option (eff Paper thrown bool)) : result thrown RunReviewResult * Paper :=
  runReviewCommand demoPlatform "--" (fun _ => []) (fun _ => []) (fun _ => true) (fun _ => true) (fun _ => None)
    (fun _ => StringValue "config") (fun _ => StringValue "skill") (fun _ => false) (fun a b => b) (fun a b => b)
    paperRead paperGithub paperGithub paperModel (mret 0%Z) (mret []) "/w" paperIo (paperOpts ask) ([], []).

Definition paperDryRun : result thrown DryRunResult * Paper :=
  runDryRunCommand demoPlatform "--" "-" (fun _ => []) (fun _ => []) (fun _ => true) (fun _ => true) (fun _ => None)
    (fun _ => StringValue "config") (fun _ => StringValue "skill") (fun _ => false) (fun a b => b) (fun a b => b)
    paperRead paperGithub paperModel (mret 0%Z) "/w" paperIo paperDryOpts ([], []).

Lemma paperAsk_noted yes ask : Some (paperAsk yes) = Some ask -> notes fst ask Answered.
Proof. intros [= <-] w. reflexivity. Qed.


Definition paperRef : CliRef := {| cr_platform := github; cr_owner := "o"; cr_repo := "r"; cr_number := num_of_Z 7 |}.

