(* ===== verification/Setup.v ===== *)
(** * The configuration and onboarding commands (cli/src/commands/setup-workspace.ts, validate.ts,
    presets.ts, eval.ts)

    [setup workspace] prints a checklist or creates a workspace through the provider's administration
    interface, [config validate] checks a configuration file, [config presets list] and [eval]. The
    network, the YAML parser with its positions and the issues of the schema library are parameters.
    The results: the administration key goes into the headers of the requests and nowhere else, and
    [validate] accepts what [review] loads, presets apart. *)

From S2P Require Import Prelude JsNumber NumberText JsMap JsonTree Codec Config Presets ConfigLoad.
From S2P Require Import Review Errors Schema Vcs Sns Codecommit Cli.

(** ** Setup *)

Record SetupWorkspaceOpts := {
  sw_api : bool;
  sw_name : option str;
  sw_spendCapUsd : option number;
  ANTHROPIC_ADMIN_KEY : option str;
}.

Inductive SetupStatus := su_manual | su_api_ok | su_api_failed | su_auth_failed.
Record SetupWorkspaceResult := { su_status : SetupStatus; su_workspaceId : option str; su_errorMessage : option str }.

(** A request, and what the runtime's [Response] offers. *)
Record FetchRequest := { fq_url : str; fq_headers : list (str * str); fq_body : json }.
Record FetchResponse (W : Type) := {
  fp_ok : bool;
  fp_status : Z;
  fp_statusText : str;
  fp_text : eff W thrown str;
  fp_json : eff W thrown json;
}.
Arguments fp_ok {W} _.
Arguments fp_status {W} _.
Arguments fp_statusText {W} _.
Arguments fp_text {W} _.
Arguments fp_json {W} _.

Definition DEFAULT_NAME : str := "review-agent".
Definition DEFAULT_SPEND_CAP_USD : number := num_of_Z 50.
Definition ADMIN_KEY_ENV : str := "ANTHROPIC_ADMIN_KEY".
Definition ANTHROPIC_API_BASE : str := "https://api.anthropic.com".
Definition dq : str := ["034"%char].

Section setup.
(** The em dash and the arrow are not of the Latin-1 range. *)
Context (showNumber : number -> str) (emDash arrow : str) (messageOf : thrown -> str) (ToString : json -> str).

Definition manualChecklist (name : str) (spendCapUsd : number) : str :=
  join nl
    ["# review-agent setup workspace " ++ emDash ++ " manual checklist"; [];
     js "Anthropic Workspaces give review-agent isolated billing,"; js "spend caps, and Zero Data Retention (ZDR). Follow these steps";
     js "once per Anthropic organization."; []; js "## 1. Create a Workspace";
     js "   - Open https://console.anthropic.com/settings/workspaces"; "   - Click " ++ dq ++ "Create workspace" ++ dq;
     "   - Name: " ++ name ++ "  (or any label your org uses)";
     "   - Description: " ++ dq ++ "code review agent " ++ emDash ++ " BYOK self-hosted" ++ dq; [];
     js "## 2. Enable Zero Data Retention (ZDR)"; "   - In the new workspace's Settings tab, toggle ZDR to " ++ dq ++ "on" ++ dq ++ ".";
     js "   - ZDR keeps prompts + completions out of long-term storage."; js "     Required for diff review against private code."; [];
     js "## 3. Set a spend cap";
     "   - Settings " ++ arrow ++ " Spend Limits " ++ arrow ++ " set per-month cap to USD " ++ showNumber spendCapUsd ++ ".";
     js "   - Lower for low-volume orgs; raise after a week of measured cost.";
     js "   - Spend caps are HARD: requests get rejected with 402 once hit."; [];
     js "## 4. Issue a workspace-scoped API key"; "   - Settings " ++ arrow ++ " API Keys " ++ arrow ++ " Create key";
     js "   - Scope: this workspace only."; "   - Copy the key once " ++ emDash ++ " it cannot be retrieved later."; [];
     js "## 5. Wire it into your deployment"; []; js "   .review-agent.yml:"; js "     provider:"; js "       type: anthropic";
     js "       model: claude-sonnet-4-6"; []; js "   .env (or your secret manager):"; js "     ANTHROPIC_API_KEY=<the key from step 4>"; [];
     js "## 6. Verify"; []; js "   review-agent review --repo owner/name --pr 1   # dry run"; [];
     js "Re-run this command with --api to perform steps 1 + 3 via the";
     "Anthropic Admin API instead of clicking. Requires " ++ ADMIN_KEY_ENV ++ "."; []].

Definition nextSteps (name workspaceId : str) : str :=
  join nl
    [[]; js "Next steps (manual):"; "  1. In console.anthropic.com " ++ arrow ++ " workspace '" ++ name ++ "' " ++ arrow ++ " Settings,";
     js "     enable ZDR. The Admin API does not expose ZDR toggling."; "  2. Settings " ++ arrow ++ " API Keys " ++ arrow ++ " Create a workspace-scoped key.";
     "     Copy it once " ++ emDash ++ " it cannot be retrieved later."; js "  3. Set ANTHROPIC_API_KEY=<that key> in your deployment env."; [];
     js ".review-agent.yml snippet:"; js "  provider:"; js "    type: anthropic"; js "    model: claude-sonnet-4-6"; [];
     "Workspace id: " ++ workspaceId; []].

Definition adminHeaders (adminKey : str) : list (str * str) :=
  [(js "x-api-key", adminKey); (js "anthropic-version", js "2023-06-01"); (js "content-type", js "application/json")].

Definition createRequest (adminKey name : str) : FetchRequest :=
  {| fq_url := ANTHROPIC_API_BASE ++ "/v1/organizations/workspaces"; fq_headers := adminHeaders adminKey;
     fq_body := obj [("name"%string, Some (JStr name))] |}.
Definition capRequest (adminKey workspaceId : str) (spendCapUsd : number) : FetchRequest :=
  {| fq_url := ANTHROPIC_API_BASE ++ "/v1/organizations/workspaces/" ++ workspaceId ++ "/spend_limit"; fq_headers := adminHeaders adminKey;
     fq_body := obj [("limit_usd_per_month"%string, Some (JNum spendCapUsd))] |}.

Definition apiFailed (id : option str) (m : str) : SetupWorkspaceResult :=
  {| su_status := su_api_failed; su_workspaceId := id; su_errorMessage := Some m |}.

Context {W : Type} (io : ProgramIo W) (fetchFn : FetchRequest -> eff W thrown (FetchResponse W)).

Definition safeText (res : FetchResponse W) : eff W thrown str := tryCatch (fp_text res) (fun _ => mret []).

Definition statusLine (res : FetchResponse W) : str := showZ (fp_status res) ++ " " ++ fp_statusText res.

(** The first request: the id of the workspace, or the result the command ends with. Reading the
    answer of [null] throws. *)
Definition createWorkspace (adminKey name : str) : eff W thrown (SetupWorkspaceResult + str) :=
  tryCatch
    (created ← fetchFn (createRequest adminKey name);
     if negb (fp_ok created) then
       body ← safeText created;
       complain io ["Workspace create failed: " ++ statusLine created ++ nl ++ body ++ nl];;
       mret (inl (apiFailed None (statusLine created)))
     else
       answer ← fp_json created;
       match answer with
       | JNull => throw (errorOf "Cannot read properties of null (reading 'id')")
       | _ =>
           match member (js "id") answer with
           | Some id =>
               if isFalsy (Some id) then
                 complain io ["Workspace create returned no id; cannot continue." ++ nl];;
                 mret (inl (apiFailed None "missing workspace id in response"))
               else
                 say io ["Created workspace '" ++ name ++ "' (id=" ++ StringOf ToString id ++ ")." ++ nl];;
                 mret (inr (StringOf ToString id))
           | None =>
               complain io ["Workspace create returned no id; cannot continue." ++ nl];;
               mret (inl (apiFailed None "missing workspace id in response"))
           end
       end)
    (fun e => complain io ["Workspace create error: " ++ messageOf e ++ nl];; mret (inl (apiFailed None (messageOf e)))).

(** The second request; [None] when the cap is set. *)
Definition setSpendCap (adminKey workspaceId : str) (spendCapUsd : number) : eff W thrown (option SetupWorkspaceResult) :=
  tryCatch
    (cap ← fetchFn (capRequest adminKey workspaceId spendCapUsd);
     if negb (fp_ok cap) then
       body ← safeText cap;
       complain io ["Spend cap set failed: " ++ statusLine cap ++ nl ++ body ++ nl];;
       mret (Some (apiFailed (Some workspaceId) (statusLine cap)))
     else
       say io ["Set monthly spend cap to USD " ++ showNumber spendCapUsd ++ "." ++ nl];;
       mret None)
    (fun e => complain io ["Spend cap error: " ++ messageOf e ++ nl];; mret (Some (apiFailed (Some workspaceId) (messageOf e)))).

Definition runApiSetup (adminKey name : str) (spendCapUsd : number) : eff W thrown SetupWorkspaceResult :=
  say io ["Note: ZDR cannot be enabled via the Anthropic Admin API. After this command finishes, enable ZDR manually in console.anthropic.com "
            ++ arrow ++ " workspace " ++ arrow ++ " Settings." ++ nl];;
  created ← createWorkspace adminKey name;
  match created with
  | inl failed => mret failed
  | inr workspaceId =>
      cap ← setSpendCap adminKey workspaceId spendCapUsd;
      match cap with
      | Some failed => mret failed
      | None =>
          say io [nextSteps name workspaceId];;
          mret {| su_status := su_api_ok; su_workspaceId := Some workspaceId; su_errorMessage := None |}
      end
  end.

Definition setupWorkspaceCommand (opts : SetupWorkspaceOpts) : eff W thrown SetupWorkspaceResult :=
  let name := default DEFAULT_NAME (sw_name opts) in
  let spendCapUsd := default DEFAULT_SPEND_CAP_USD (sw_spendCapUsd opts) in
  if negb (sw_api opts) then
    say io [manualChecklist name spendCapUsd];;
    mret {| su_status := su_manual; su_workspaceId := None; su_errorMessage := None |}
  else
    match truthyStr (ANTHROPIC_ADMIN_KEY opts) with
    | None =>
        complain io [ADMIN_KEY_ENV ++ " is required for --api mode." ++ nl ++ "Generate one in console.anthropic.com " ++ arrow ++ " Settings "
                       ++ arrow ++ " Admin Keys." ++ nl ++ "The Admin key is distinct from your per-workspace API key " ++ emDash
                       ++ " never reuse it for inference." ++ nl];;
        mret {| su_status := su_auth_failed; su_workspaceId := None; su_errorMessage := None |}
    | Some adminKey => runApiSetup adminKey name spendCapUsd
    end.
End setup.

(** The exit code of the program. *)
Definition setupExit (r : SetupWorkspaceResult) : Z := match su_status r with su_manual | su_api_ok => 0 | _ => 1 end.

(** ** Validate *)

Record ValidationIssue := { vi_path : str; vi_message : str; vi_line : option Z }.
Record ValidateConfigResult := { vr_ok : bool; vr_issues : list ValidationIssue }.

(** A parsed YAML document: its errors with their offsets, its value - whose aliases are only
    resolved here, and [toJS] throws on one it cannot resolve - and where the node at a path starts. *)
Record YamlDocument := {
  yd_errors : list (str * option Z);
  yd_toJS : result thrown (option json);
  yd_rangeOf : list str -> option Z;
}.

Section validate.
Context (emDash : str) (messageOf : thrown -> str) (isUrl compiles : str -> bool) (parseDocument : str -> YamlDocument).
(** [lineCounter.linePos(offset).line] of a text, and the issues the schema raises. *)
Context (linePos : str -> Z -> Z) (issuesOf : json -> list (list str * str)).
Context {W : Type} (io : ProgramIo W) (fsReadFile : str -> eff W thrown str).

Definition issueLine (issue : ValidationIssue) : str :=
  "  " ++ vi_path issue ++ match vi_line issue with None => [] | Some n => ":" ++ showZ n end ++ " " ++ emDash ++ " "
    ++ vi_message issue ++ nl.

Definition printIssues (file : str) (issues : list ValidationIssue) : eff W thrown unit :=
  complain io (("Invalid " ++ file ++ ":" ++ nl) :: map issueLine issues).

Definition locateLine (text : str) (doc : YamlDocument) (path : list str) : option Z :=
  match path with [] => None | _ => linePos text <$> yd_rangeOf doc path end.

Definition orRoot (s : str) : str := match s with [] => js "<root>" | _ => s end.

(** The file, or the message of the failure. *)
Definition readOrMessage (readFile : str -> eff W thrown str) (path : str) : eff W thrown (str + str) :=
  tryCatch (t ← readFile path; mret (inr t)) (fun e => mret (inl (messageOf e))).

(** The checks of a text that was read. *)
Definition validateText (path yamlText : str) : eff W thrown ValidateConfigResult :=
  let doc := parseDocument yamlText in
  match yd_errors doc with
  | [] =>
      value ← lift (yd_toJS doc);
      let parsed := match value with Some JNull | None => JObj [] | Some v => v end in
      match ConfigSchema isUrl compiles parsed with
      | None =>
          let issues := map (fun i => {| vi_path := orRoot (join "." i.1); vi_message := i.2; vi_line := locateLine yamlText doc i.1 |})
                          (issuesOf parsed) in
          printIssues path issues;;
          mret {| vr_ok := false; vr_issues := issues |}
      | Some _ =>
          say io ["OK: " ++ path ++ " is valid." ++ nl];;
          mret {| vr_ok := true; vr_issues := [] |}
      end
  | errors =>
      let issues := map (fun e => {| vi_path := path; vi_message := e.1; vi_line := linePos yamlText <$> e.2 |}) errors in
      printIssues path issues;;
      mret {| vr_ok := false; vr_issues := issues |}
  end.

Definition validateConfigCommand (path : str) (readFile : option (str -> eff W thrown str)) : eff W thrown ValidateConfigResult :=
  text ← readOrMessage (default fsReadFile readFile) path;
  match text with
  | inl message =>
      complain io ["Failed to read " ++ path ++ ": " ++ message ++ nl];;
      mret {| vr_ok := false; vr_issues := [{| vi_path := path; vi_message := message; vi_line := None |}] |}
  | inr yamlText => validateText path yamlText
  end.
End validate.

(** ** The small commands *)

Section small.
Context {W : Type} (io : ProgramIo W).

(** The names of the bundled presets; they are in the order [sort] puts them. *)
Definition BUNDLED_PRESET_NAMES : list str := [js "recommended"; js "security-focused"; js "strict"].

Definition listPresetsCommand : eff W thrown (list str) :=
  say io ["Bundled presets:" ++ nl];;
  say io (map (fun name => "  " ++ name ++ nl) BUNDLED_PRESET_NAMES);;
  say io [nl ++ "Use in .review-agent.yml:" ++ nl ++ "  extends: <preset-name>" ++ nl ++ "  extends: [<preset1>, <preset2>]" ++ nl];;
  mret BUNDLED_PRESET_NAMES.

Definition runEvalCommand (runner : str -> eff W thrown Z) (suite : str) : eff W thrown Z :=
  exitCode ← runner suite;
  (if (exitCode =? 0)%Z then mret tt
   else complain io ["eval suite '" ++ suite ++ "' exited with code " ++ showZ exitCode ++ nl]);;
  mret exitCode.
End small.

(** ** What validate accepts *)

(** A configuration that names presets; the loader merges them below it. *)
Definition namesPresets (parsed : json) : bool :=
  match member (js "extends") parsed with
  | Some (JArr _) => true
  | Some (JStr s) => negb (bool_decide (s = js "org"))
  | _ => false
  end.

Lemma expandExtends_plain parsed : namesPresets parsed = false -> expandExtends parsed = Ok parsed.
Proof.
  unfold namesPresets, expandExtends. destruct parsed as [| | | | |raw]; try done. cbn [member].
  destruct (mapGet (js "extends") raw) as [[]|]; try done. rewrite negb_false_iff. by intros ->.
Qed.

Section validated.
Context (emDash : str) (messageOf : thrown -> str) (isUrl compiles : str -> bool) (parseDocument : str -> YamlDocument)
  (linePos : str -> Z -> Z) (issuesOf : json -> list (list str * str)) {W : Type} (io : ProgramIo W).

(** The outcome of the command, once the file is read. *)
Lemma validate_outcome path (fsReadFile : str -> eff W thrown str) readFile w text w1 :
  default fsReadFile readFile path w = (Ok text, w1) ->
  let doc := parseDocument text in
  match validateConfigCommand emDash messageOf isUrl compiles parseDocument linePos issuesOf io fsReadFile path readFile w with
  | (Ok r, _) => vr_ok r = true <-> yd_errors doc = [] /\
      exists v, yd_toJS doc = Ok v /\ is_Some (ConfigSchema isUrl compiles (match v with Some JNull | None => JObj [] | Some v => v end))
  | (Throw e, w') => yd_errors doc = [] /\ yd_toJS doc = Throw e /\ w' = w1
  end.
Proof.
  intros Hread. cbv zeta.
  assert (validateConfigCommand emDash messageOf isUrl compiles parseDocument linePos issuesOf io fsReadFile path readFile w
          = validateText emDash isUrl compiles parseDocument linePos issuesOf io path text w1) as ->.
  { unfold validateConfigCommand, readOrMessage, tryCatch, mbind, eff_bind. cbv beta. by rewrite Hread. }
  unfold validateText. destruct (yd_errors (parseDocument text)) as [|e es]; [|cbn; by split; [|intros [[=] _]]].
  unfold lift, mbind, eff_bind. destruct (yd_toJS (parseDocument text)) as [v|e]; [|done].
  destruct (ConfigSchema isUrl compiles _) as [c|] eqn:E; cbn; split; try done.
  - intros _. split; [done|]. exists v. by rewrite E.
  - intros (_ & v' & [= <-] & [c Hc]). by rewrite E in Hc.
Qed.
End validated.

(** What the yaml package documents: [parse] parses a document, throws when it has errors, and
    otherwise hands on its value, or the error of resolving it. *)
Definition parsesDocuments (parseYaml : str -> option json) (parseDocument : str -> YamlDocument) : Prop :=
  forall t, parseYaml t =
    match yd_errors (parseDocument t), yd_toJS (parseDocument t) with
    | [], Ok v => Some (default JNull v)
    | _, _ => None
    end.

(** C30. [config validate] and the loader of [review] agree on every file that names no preset, given
    that parsing a text is parsing its document. When the command answers, it answers that the file
    is valid exactly when the loader returns a configuration. It does not answer on every file: where
    the value of a well-formed document cannot be built - an alias without its anchor, too many
    aliases - it throws the parser's error and prints nothing, and the loader refuses the file too. *)
Theorem validate_agrees_with_the_loader emDash messageOf isUrl compiles parseDocument parseYaml linePos issuesOf {W} (io : ProgramIo W)
    path (fsReadFile : str -> eff W thrown str) readFile w text w1 :
  parsesDocuments parseYaml parseDocument ->
  default fsReadFile readFile path w = (Ok text, w1) ->
  (forall parsed, parsedYaml parseYaml text = Some parsed -> namesPresets parsed = false) ->
  let run := validateConfigCommand emDash messageOf isUrl compiles parseDocument linePos issuesOf io fsReadFile path readFile w in
  let loads := exists c, loadConfigFromYaml isUrl compiles parseYaml text = Ok c in
  match run with
  | (Ok r, _) => vr_ok r = true <-> loads
  | (Throw e, w') => yd_toJS (parseDocument text) = Throw e /\ w' = w1 /\ ~ loads
  end /\
  (forall e, yd_errors (parseDocument text) = [] -> yd_toJS (parseDocument text) = Throw e -> run = (Throw e, w1)).
Proof.
  intros Hyaml Hread Hplain run loads. split.
  - pose proof (validate_outcome emDash messageOf isUrl compiles parseDocument linePos issuesOf io path fsReadFile readFile w text w1 Hread) as Hrun.
    fold run in Hrun. subst loads. unfold loadConfigFromYaml. specialize (Hyaml text).
    unfold parsedYaml in *. rewrite Hyaml in *. clear Hyaml. cbv zeta in Hrun.
    destruct run as [[r|e] w'].
    2: { destruct Hrun as (-> & -> & ->). split_and!; [done|done|]. by intros (c & [=]). }
    rewrite Hrun. clear Hrun. destruct (yd_errors (parseDocument text)) as [|e es].
    2: { split; [by intros [[=] _]|by intros (c & [=])]. }
    destruct (yd_toJS (parseDocument text)) as [v|e].
    2: { split; [by intros (_ & v & [=] & _)|by intros (c & [=])]. }
    cbn [mbind option_bind] in *.
    assert (match v with Some JNull | None => JObj [] | Some v => v end
      = match default JNull v with JNull => JObj [] | _ => default JNull v end) as Hv by by destruct v as [[]|].
    rewrite <- Hv in *. specialize (Hplain _ eq_refl). rewrite expandExtends_plain by done.
    destruct (ConfigSchema isUrl compiles _) as [c|] eqn:E.
    + split; [by exists c|]. intros _. split; [done|]. exists v. by rewrite E.
    + split; [|by intros (c & [=])]. intros (_ & v' & [= <-] & [c Hc]). by rewrite E in Hc.
  - intros e He Hv. subst run. unfold validateConfigCommand, readOrMessage, tryCatch, mbind, eff_bind. cbv beta.
    rewrite Hread. cbn. unfold validateText. rewrite He. unfold lift, mbind, eff_bind. by rewrite Hv.
Qed.

(** A file that selects the German language, read and checked on a terminal of two lists. *)
Definition slate : ProgramIo (list str * list str) :=
  {| stdout := fun s w => (w.1 ++ [s], w.2); stderr := fun s w => (w.1, w.2 ++ [s]) |}.
Definition demoDocument (t : str) : YamlDocument :=
  {| yd_errors := if bool_decide (t = js "language: [") then [(js "bad", None)] else [];
     yd_toJS := if bool_decide (t = js "language: de-DE") then Ok (Some (obj [("language"%string, Some (JStr "de-DE"))]))
                else Throw (Object (Some (js "Unresolved alias (the anchor must be set before the alias): x")) NoStatus None []);
     yd_rangeOf := fun _ => None |}.
Definition demoYaml (t : str) : option json :=
  match yd_errors (demoDocument t), yd_toJS (demoDocument t) with [], Ok v => Some (default JNull v) | _, _ => None end.
Definition demoValidate (text : str) :=
  validateConfigCommand "-" (fun _ => []) (fun _ => true) (fun _ => true) demoDocument (fun _ n => n) (fun _ => []) slate
    (fun _ => mret text) "c.yml" None ([], []).

Lemma validate_agrees_with_the_loader_witness :
  (exists r w', demoValidate "language: de-DE" = (Ok r, w') /\ vr_ok r = true /\
     exists c, loadConfigFromYaml (fun _ => true) (fun _ => true) demoYaml "language: de-DE" = Ok c) /\
  exists e, demoValidate "language: *x" = (Throw e, ([], [])).
Proof.
  assert (parsesDocuments demoYaml demoDocument) as Hdoc by done. split.
  - destruct (validate_agrees_with_the_loader "-" (fun _ => []) (fun _ => true) (fun _ => true) demoDocument demoYaml (fun _ n => n)
      (fun _ => []) slate "c.yml" (fun _ => mret (js "language: de-DE")) None ([], []) "language: de-DE" ([], []) Hdoc eq_refl)
      as [H _]; [intros parsed Hp; vm_compute in Hp; by injection Hp as <-|].
    fold (demoValidate "language: de-DE") in H. destruct (demoValidate "language: de-DE") as [[r|e] w'] eqn:E.
    + exists r, w'. assert (vr_ok r = true) as Hr by (vm_compute in E; by injection E as <- _).
      split_and!; [done|done|by apply H].
    + vm_compute in E. discriminate E.
  - eexists. apply (validate_agrees_with_the_loader "-" (fun _ => []) (fun _ => true) (fun _ => true) demoDocument demoYaml (fun _ n => n)
      (fun _ => []) slate "c.yml" (fun _ => mret (js "language: *x")) None ([], []) "language: *x" ([], []) Hdoc eq_refl);
      [intros parsed Hp; vm_compute in Hp; discriminate Hp|reflexivity|reflexivity].
Defined.

(** A preset that does not exist is valid to the command and refused by the loader. *)
Example unknown_preset_is_valid :
  let v := obj [("extends"%string, Some (JStr "nowhere"))] in
  is_Some (ConfigSchema (fun _ => true) (fun _ => true) v) /\
  loadConfigFromYaml (fun _ => true) (fun _ => true) (fun _ => Some v) [] = Throw (BadPreset (PresetNotFoundError (JStr "nowhere"))).
Proof. split; [eexists|]; vm_compute; reflexivity. Qed.

(** ** Where the administration key goes *)

(** The request with another key in its header. *)
Definition withKey (key : str) (r : FetchRequest) : FetchRequest :=
  {| fq_url := fq_url r; fq_headers := map (fun h => if bool_decide (h.1 = js "x-api-key") then (h.1, key) else h) (fq_headers r);
     fq_body := fq_body r |}.
Definition withAdminKey (key : str) (opts : SetupWorkspaceOpts) : SetupWorkspaceOpts :=
  {| sw_api := sw_api opts; sw_name := sw_name opts; sw_spendCapUsd := sw_spendCapUsd opts; ANTHROPIC_ADMIN_KEY := Some key |}.

(** The administration key is used for one thing: the header of the requests. The command run with a
    key is the command run with any other one over a network that puts the first key into that header
    - so what it prints, answers and leaves behind can depend on the key only through what the network
    answers, and neither the addresses nor the bodies of the requests depend on it at all. *)
Theorem admin_key_stays_in_the_header showNumber emDash arrow messageOf ToString {W} (io : ProgramIo W)
    (fetchFn : FetchRequest -> eff W thrown (FetchResponse W)) opts key other w :
  key <> [] -> other <> [] ->
  setupWorkspaceCommand showNumber emDash arrow messageOf ToString io fetchFn (withAdminKey key opts) w
  = setupWorkspaceCommand showNumber emDash arrow messageOf ToString io (fun r => fetchFn (withKey key r)) (withAdminKey other opts) w.
Proof.
  intros Hk Ho. unfold setupWorkspaceCommand. cbn [sw_api sw_name sw_spendCapUsd ANTHROPIC_ADMIN_KEY withAdminKey].
  destruct (negb (sw_api opts)); [done|]. rewrite !truthyStr_ne by done. reflexivity.
Qed.

(** A network that answers with the key it was sent. *)
Definition echo (r : FetchRequest) : eff (list str * list str) thrown (FetchResponse (list str * list str)) :=
  mret {| fp_ok := true; fp_status := 200; fp_statusText := "OK"; fp_text := mret [];
          fp_json := mret (obj [("id"%string, JStr <$> mapGet (js "x-api-key") (fq_headers r))]) |}.

Lemma admin_key_stays_in_the_header_witness :
  let opts := {| sw_api := true; sw_name := None; sw_spendCapUsd := None; ANTHROPIC_ADMIN_KEY := None |} in
  js "secret" <> [] /\
  setupWorkspaceCommand (fun _ => []) "-" ">" (fun _ => []) (fun _ => []) slate echo (withAdminKey "secret" opts) ([], [])
  = setupWorkspaceCommand (fun _ => []) "-" ">" (fun _ => []) (fun _ => []) slate (fun r => echo (withKey "secret" r))
      (withAdminKey "other" opts) ([], []) /\
  (exists w', setupWorkspaceCommand (fun _ => []) "-" ">" (fun _ => []) (fun _ => []) slate echo (withAdminKey "secret" opts) ([], [])
     = (Ok {| su_status := su_api_ok; su_workspaceId := Some (js "secret"); su_errorMessage := None |}, w')).
Proof.
  split; [done|]. split; [by apply admin_key_stays_in_the_header|]. eexists. vm_compute. reflexivity.
Defined.
