(* ===== verification/WebClient.v ===== *)
(** * The dashboard's client (web/src/api/client.ts, mocks.ts, web/src/lib/format.ts, web/src/pages/)

    The requests the browser sends, the mock server that answers them in development, the formats of
    the tables, and the checks and selections of the forms. React itself, its query cache and the
    texts are left out. The answers' types (web/src/api/types.ts) are those of the server's routes,
    whose records are used here; casting a parsed value to one of them is a parameter. The results:
    what the forms let through is what the server's schemas accept, the mock's pages cover its list,
    and a deletion never succeeds for the client. *)

From S2P Require Import Prelude JsNumber NumberText JsMap JsonTree Codec Errors Schema Queue Vcs Llm.
From S2P Require Import Dates CostLedger Cursor Byok Dashboard Backfill Setup.

(** ** The client *)

Record RequestInit := { ri_method : option str; ri_headers : jsmap str; ri_body : option json }.
Definition noInit : RequestInit := {| ri_method := None; ri_headers := []; ri_body := None |}.
Definition withBody (method : str) (body : json) : RequestInit := {| ri_method := Some method; ri_headers := []; ri_body := Some body |}.

(** A request; its query is the list behind the question mark, which the runtime encodes. *)
Record WebRequest := {
  wr_path : str;
  wr_query : jsmap str;
  wr_method : option str;
  wr_headers : jsmap str;
  wr_body : option json;
}.

Inductive Filter (A : Type) := f_all | f_one (a : A).
Arguments f_all {A}.
Arguments f_one {A} a.
Inductive SinceAlias := s_24h | s_7d | s_30d.

Definition platform_str (p : VcsPlatform) : str := match p with github => "github" | codecommit => "codecommit" end.
Definition outcome_str (o : Outcome) : str :=
  match o with oc_approved => "approved" | oc_changes_requested => "changes_requested" | oc_commented => "commented" | oc_failed => "failed" end.
Definition since_str (s : SinceAlias) : str := match s with s_24h => "24h" | s_7d => "7d" | s_30d => "30d" end.

Record ReviewsFilters := {
  wf_limit : option Z;
  wf_cursor : option str;
  wf_platform : option (Filter VcsPlatform);
  wf_outcome : option (Filter Outcome);
  wf_repoQuery : option str;
  wf_since : option (Filter SinceAlias);
}.

(** The value of a filter that is neither absent nor ['all']. *)
Definition chosen {A} (f : option (Filter A)) : option A := match f with Some (f_one a) => Some a | _ => None end.

Definition param (key : str) (v : option str) : jsmap str := match v with Some s => [(key, s)] | None => [] end.

Definition reviewParams (filters : ReviewsFilters) : jsmap str :=
  [(js "limit", showZ (default 50%Z (wf_limit filters)))]
  ++ param "cursor" (truthyStr (wf_cursor filters))
  ++ param "platform" (platform_str <$> chosen (wf_platform filters))
  ++ param "outcome" (outcome_str <$> chosen (wf_outcome filters))
  ++ param "repoQuery" (truthyStr (wf_repoQuery filters))
  ++ param "since" (since_str <$> chosen (wf_since filters)).

Definition createRepoBody (platform : VcsPlatform) (name : str) : json :=
  obj [("platform"%string, Some (JStr (platform_str platform))); ("name"%string, Some (JStr name))].
Definition patchRepoBody (enabled : option bool) : json := obj [("enabled"%string, JBool <$> enabled)].
Definition putPromptBody (systemPrompt : str) : json := obj [("systemPrompt"%string, Some (JStr systemPrompt))].
Definition llmKeyBody (installationId : Z) (provider : ProviderType) (apiKey : option str) : json :=
  obj [("installationId"%string, Some (JNum (num_of_Z installationId))); ("provider"%string, Some (JStr (providerType_str provider)));
       ("apiKey"%string, JStr <$> apiKey)].
Definition bulkCreateBody (installationId : Z) (names : list str) : json :=
  obj [("installationId"%string, Some (JNum (num_of_Z installationId))); ("names"%string, Some (JArr (map JStr names)))].

(** ** The mock server *)

Record KeyAnswer := { ka_installationId : Z; ka_provider : ProviderType; ka_configured : bool }.
Record LlmKeysResponse := { lk_installationId : Z; lk_keys : list (ProviderType * bool) }.
Record ListedRepo := { ir_id : Z; ir_fullName : str; ir_private : bool; ir_registered : bool }.
Record BulkCreateRepoResponse := { bc_created : list str; bc_alreadyExists : list str; bc_errors : list (str * str) }.

(** [BYOK_PROVIDERS] of types.ts *)
Definition WEB_PROVIDERS : list ProviderType := [p_anthropic; p_openai; p_azure_openai; p_google; p_vertex; p_bedrock; p_openai_compatible].

Record MockStore := { ms_repos : list RepoSummary; ms_prompts : jsmap PromptResponse; ms_keys : gmap Z (jsmap bool) }.

Definition mockReview (id repoId repoName : str) (platform : VcsPlatform) (number : Z) (title : str) (outcome : Outcome)
    (cost exponent : Z) (durationMs : Z) (createdAt : str) : ReviewEvent :=
  {| re_id := id; re_repoId := repoId; re_repoName := repoName; re_platform := platform; re_prNumber := number; re_title := title;
     re_outcome := outcome; re_costUsd := decimalNumber cost exponent; re_durationMs := durationMs; re_createdAt := createdAt |}.

Definition mockReviews : list ReviewEvent :=
  [
   mockReview "rev-001" "repo-001" "acme/api-service" github 214 "feat: add rate limiting to /search endpoint" oc_changes_requested 42 (-3) 8320 "2026-05-28T09:14:00Z";
   mockReview "rev-002" "repo-002" "acme/frontend" github 88 "refactor: migrate from class components to hooks" oc_approved 31 (-3) 6140 "2026-05-27T16:32:00Z";
   mockReview "rev-003" "repo-003" "legacy/monolith" codecommit 37 "fix: null pointer in UserService.getById" oc_commented 18 (-3) 4280 "2026-05-27T11:05:00Z";
   mockReview "rev-004" "repo-004" "acme/infra" github 51 "chore: rotate IAM keys and update secrets manager" oc_approved 25 (-3) 5110 "2026-05-28T07:55:00Z";
   mockReview "rev-005" "repo-006" "acme/auth" github 129 "feat: OIDC provider integration" oc_failed 0 (-1) 1200 "2026-05-26T14:22:00Z";
   mockReview "rev-006" "repo-001" "acme/api-service" github 213 "fix: memory leak in connection pool" oc_approved 28 (-3) 5620 "2026-05-25T13:44:00Z";
   mockReview "rev-007" "repo-005" "analytics/pipeline" codecommit 12 "feat: add Kinesis firehose sink" oc_changes_requested 38 (-3) 7800 "2026-05-24T10:00:00Z";
   mockReview "rev-008" "repo-002" "acme/frontend" github 89 "fix: broken responsive layout on mobile" oc_approved 22 (-3) 4910 "2026-05-24T08:30:00Z";
   mockReview "rev-009" "repo-004" "acme/infra" github 52 "feat: add cloudwatch alarm for API latency" oc_commented 19 (-3) 4020 "2026-05-23T17:45:00Z";
   mockReview "rev-010" "repo-003" "legacy/monolith" codecommit 38 "chore: upgrade log4j to 2.20" oc_approved 15 (-3) 3500 "2026-05-23T14:00:00Z";
   mockReview "rev-011" "repo-001" "acme/api-service" github 215 "fix: race condition in session store" oc_changes_requested 45 (-3) 9100 "2026-05-22T11:20:00Z";
   mockReview "rev-012" "repo-006" "acme/auth" github 130 "fix: token refresh loop on expiry" oc_approved 33 (-3) 6700 "2026-05-22T09:00:00Z";
   mockReview "rev-013" "repo-005" "analytics/pipeline" codecommit 13 "perf: vectorize aggregation step" oc_approved 29 (-3) 5800 "2026-05-21T16:10:00Z";
   mockReview "rev-014" "repo-002" "acme/frontend" github 90 "feat: dark mode toggle" oc_commented 21 (-3) 4600 "2026-05-21T13:40:00Z";
   mockReview "rev-015" "repo-004" "acme/infra" github 53 "chore: bump terraform aws provider to 5.x" oc_failed 0 (-1) 900 "2026-05-21T10:00:00Z";
   mockReview "rev-016" "repo-003" "legacy/monolith" codecommit 39 "feat: expose REST endpoint for batch import" oc_changes_requested 41 (-3) 8600 "2026-05-20T15:30:00Z";
   mockReview "rev-017" "repo-001" "acme/api-service" github 216 "docs: improve OpenAPI spec coverage" oc_approved 17 (-3) 3800 "2026-05-20T11:15:00Z";
   mockReview "rev-018" "repo-006" "acme/auth" github 131 "fix: CSP header missing nonce" oc_changes_requested 36 (-3) 7200 "2026-05-19T14:50:00Z";
   mockReview "rev-019" "repo-005" "analytics/pipeline" codecommit 14 "fix: off-by-one in sliding window reducer" oc_approved 26 (-3) 5300 "2026-05-19T09:20:00Z";
   mockReview "rev-020" "repo-002" "acme/frontend" github 91 "test: add e2e smoke tests for checkout flow" oc_approved 24 (-3) 5000 "2026-05-18T17:00:00Z";
   mockReview "rev-021" "repo-004" "acme/infra" github 54 "feat: enable S3 versioning on assets bucket" oc_commented 2 (-2) 4400 "2026-05-18T13:15:00Z";
   mockReview "rev-022" "repo-003" "legacy/monolith" codecommit 40 "fix: handle empty result set in pagination" oc_approved 16 (-3) 3600 "2026-05-17T10:30:00Z";
   mockReview "rev-023" "repo-001" "acme/api-service" github 217 "feat: structured logging with correlation IDs" oc_changes_requested 44 (-3) 8900 "2026-05-17T08:00:00Z";
   mockReview "rev-024" "repo-006" "acme/auth" github 132 "chore: remove deprecated OAuth1 code path" oc_approved 23 (-3) 4700 "2026-05-16T16:45:00Z";
   mockReview "rev-025" "repo-005" "analytics/pipeline" codecommit 15 "feat: emit OpenTelemetry spans" oc_commented 27 (-3) 5400 "2026-05-16T12:00:00Z";
   mockReview "rev-026" "repo-002" "acme/frontend" github 92 "fix: avatar fallback shows wrong initials" oc_approved 13 (-3) 2900 "2026-05-15T15:10:00Z";
   mockReview "rev-027" "repo-004" "acme/infra" github 55 "fix: ALB security group allows 0.0.0.0 on port 22" oc_changes_requested 47 (-3) 9400 "2026-05-15T10:20:00Z";
   mockReview "rev-028" "repo-003" "legacy/monolith" codecommit 41 "perf: add index on orders.created_at" oc_approved 18 (-3) 3900 "2026-05-14T14:00:00Z";
   mockReview "rev-029" "repo-001" "acme/api-service" github 218 "fix: deadlock in distributed lock service" oc_failed 0 (-1) 1100 "2026-05-14T09:30:00Z";
   mockReview "rev-030" "repo-006" "acme/auth" github 133 "feat: MFA enforcement for admin accounts" oc_approved 39 (-3) 7900 "2026-05-13T17:00:00Z";
   mockReview "rev-031" "repo-005" "analytics/pipeline" codecommit 16 "fix: schema drift in Glue catalog" oc_changes_requested 35 (-3) 7100 "2026-05-13T11:45:00Z";
   mockReview "rev-032" "repo-002" "acme/frontend" github 93 "feat: lazy-load product images" oc_approved 2 (-2) 4200 "2026-05-12T13:00:00Z";
   mockReview "rev-033" "repo-004" "acme/infra" github 56 "chore: migrate to ECR private registry" oc_approved 24 (-3) 4800 "2026-05-12T09:10:00Z";
   mockReview "rev-034" "repo-003" "legacy/monolith" codecommit 42 "fix: session cookie missing SameSite attribute" oc_changes_requested 4 (-2) 8000 "2026-05-11T16:30:00Z";
   mockReview "rev-035" "repo-001" "acme/api-service" github 219 "refactor: extract pagination helper to shared lib" oc_approved 3 (-2) 6000 "2026-05-11T10:00:00Z";
   mockReview "rev-036" "repo-006" "acme/auth" github 134 "fix: SAML assertion expiry not checked" oc_changes_requested 48 (-3) 9600 "2026-05-10T15:00:00Z";
   mockReview "rev-037" "repo-005" "analytics/pipeline" codecommit 17 "feat: DLQ for failed transform messages" oc_approved 32 (-3) 6400 "2026-05-10T11:30:00Z";
   mockReview "rev-038" "repo-002" "acme/frontend" github 94 "fix: price rounding error on cart total" oc_approved 19 (-3) 3700 "2026-05-09T14:00:00Z";
   mockReview "rev-039" "repo-004" "acme/infra" github 57 "feat: WAF rule set for OWASP Top 10" oc_commented 26 (-3) 5200 "2026-05-09T09:45:00Z";
   mockReview "rev-040" "repo-003" "legacy/monolith" codecommit 43 "chore: remove unused Spring Boot starters" oc_approved 14 (-3) 3100 "2026-05-08T12:00:00Z"].

Definition mockRepo (id : str) (platform : VcsPlatform) (name : str) (enabled : bool) (last : option (str * Outcome)) : RepoSummary :=
  {| sm_id := id; sm_platform := platform; sm_name := name; sm_enabled := enabled; sm_lastReviewAt := fst <$> last; sm_lastOutcome := snd <$> last |}.

Definition mockRepos : list RepoSummary :=
  [mockRepo "repo-001" github "acme/api-service" true (Some (js "2026-05-28T09:14:00Z", oc_changes_requested));
   mockRepo "repo-002" github "acme/frontend" true (Some (js "2026-05-27T16:32:00Z", oc_approved));
   mockRepo "repo-003" codecommit "legacy/monolith" false (Some (js "2026-05-20T11:05:00Z", oc_commented));
   mockRepo "repo-004" github "acme/infra" true (Some (js "2026-05-28T07:55:00Z", oc_approved));
   mockRepo "repo-005" codecommit "analytics/pipeline" true None;
   mockRepo "repo-006" github "acme/auth" true (Some (js "2026-05-26T14:22:00Z", oc_failed))].

Definition mockInstallationRepos : list ListedRepo :=
  [{| ir_id := 100001; ir_fullName := "acme/api-service"; ir_private := false; ir_registered := true |};
   {| ir_id := 100002; ir_fullName := "acme/frontend"; ir_private := false; ir_registered := true |};
   {| ir_id := 100003; ir_fullName := "acme/backend"; ir_private := true; ir_registered := false |};
   {| ir_id := 100004; ir_fullName := "acme/infra"; ir_private := true; ir_registered := false |};
   {| ir_id := 100005; ir_fullName := "acme/docs"; ir_private := false; ir_registered := false |}].

Definition mockOverview : DashboardOverview :=
  {| ov_totalRepos := 12; ov_reviewsMonth := 347; ov_queueDepth := 3; ov_costMtd := decimalNumber 1842 (-2) |}.

Definition mockIntegrations : GithubIntegration * CodeCommitIntegration * LlmIntegration :=
  ({| gi_configured := true; gi_appId := Some (js "app-12345"); gi_appSlug := Some (js "my-review-agent"); gi_installationCount := 4 |},
   {| ci_configured := true; ci_region := Some (js "us-east-1") |},
   {| li_configured := true; li_provider := Some (js "anthropic"); li_model := Some (js "claude-sonnet-4-5") |}).

(** [slice] of two indices that count from the end when negative. *)
Definition sliceIndex (n i : Z) : nat := Z.to_nat (if (i <? 0)%Z then Z.max 0 (n + i) else Z.min i n).
Definition slice {A} (a b : Z) (l : list A) : list A :=
  take (sliceIndex (Zlen l) b - sliceIndex (Zlen l) a) (drop (sliceIndex (Zlen l) a) l).

(** [findIndex], -1 when there is none. *)
Fixpoint findIndex {A} (f : A -> bool) (l : list A) : Z :=
  match l with
  | [] => (-1)%Z
  | x :: l' => if f x then 0%Z else let i := findIndex f l' in if (i <? 0)%Z then i else (i + 1)%Z
  end.

Definition setMockRepos (rs : list RepoSummary) (s : MockStore) : MockStore := {| ms_repos := rs; ms_prompts := ms_prompts s; ms_keys := ms_keys s |}.
Definition setMockPrompts (p : jsmap PromptResponse) (s : MockStore) : MockStore := {| ms_repos := ms_repos s; ms_prompts := p; ms_keys := ms_keys s |}.
Definition setMockKeys (k : gmap Z (jsmap bool)) (s : MockStore) : MockStore := {| ms_repos := ms_repos s; ms_prompts := ms_prompts s; ms_keys := k |}.

Definition addMockRepo (now : Z) (platform : VcsPlatform) (name : str) (s : MockStore) : RepoSummary * MockStore :=
  let repo := mockRepo ("repo-" ++ showZ now) platform name true None in
  (repo, setMockRepos (ms_repos s ++ [repo]) s).

Definition isRepo (id : str) (r : RepoSummary) : bool := bool_decide (sm_id r = id).

Definition patched (enabled : option bool) (r : RepoSummary) : RepoSummary :=
  {| sm_id := sm_id r; sm_platform := sm_platform r; sm_name := sm_name r; sm_enabled := default (sm_enabled r) enabled;
     sm_lastReviewAt := sm_lastReviewAt r; sm_lastOutcome := sm_lastOutcome r |}.

(** Every entry of the id becomes the first one, patched. *)
Definition patchMockRepo (id : str) (enabled : option bool) (s : MockStore) : option RepoSummary * MockStore :=
  match List.find (isRepo id) (ms_repos s) with
  | None => (None, s)
  | Some r =>
      let updated := patched enabled r in
      (Some updated, setMockRepos (map (fun r => if isRepo id r then updated else r) (ms_repos s)) s)
  end.

Definition deleteMockRepo (id : str) (s : MockStore) : bool * MockStore :=
  let rest := List.filter (fun r => negb (isRepo id r)) (ms_repos s) in
  ((length rest <? length (ms_repos s))%nat, setMockRepos rest s).

Definition getMockRepoDetail (id : str) (s : MockStore) : option RepoDetail :=
  base ← List.find (isRepo id) (ms_repos s);
  Some {| dt_summary := base; dt_createdAt := "2026-01-15T08:00:00Z"; dt_updatedAt := "2026-05-28T09:00:00Z";
          dt_systemPromptPresent := bool_decide (is_Some (mapGet id (ms_prompts s))) |}.

Definition getMockRepoPrompt (id : str) (s : MockStore) : PromptResponse :=
  default {| pr_systemPrompt := []; pr_updatedAt := None |} (mapGet id (ms_prompts s)).

Definition putMockRepoPrompt (nowIso : str) (id systemPrompt : str) (s : MockStore) : PromptResponse * MockStore :=
  let p := {| pr_systemPrompt := systemPrompt; pr_updatedAt := Some nowIso |} in
  (p, setMockPrompts (mapSet id p (ms_prompts s)) s).

Section mocks.
Context (parseDate : str -> option Z) (now : Z) (reviews : list ReviewEvent).

(** Younger than a span; a date that is none is not. *)
Definition youngerThan (ms : Z) (r : ReviewEvent) : bool :=
  match parseDate (re_createdAt r) with Some t => (now - t <? ms)%Z | None => false end.

Definition getMockRepoMetrics (id : str) : RepoMetrics :=
  let mine := List.filter (fun r => bool_decide (re_repoId r = id)) reviews in
  {| mt_totalReviews := Zlen mine; mt_reviewsLast30d := Zlen (List.filter (youngerThan (30 * MS_PER_DAY)) mine);
     mt_avgDurationMs := if (0 <? Zlen mine)%Z
                         then floorZ (nround (ndiv (num_of_Z (foldl (fun s r => (s + re_durationMs r)%Z) 0%Z mine)) (num_of_Z (Zlen mine))))
                         else 0%Z;
     mt_totalCostUsd := foldl (fun s r => nadd s (re_costUsd r)) zero mine |}.

Definition sinceMs (s : SinceAlias) : Z := match s with s_24h => 86400000 | s_7d => 604800000 | s_30d => 2592000000 end.

Definition passes {A} (o : option A) (f : A -> ReviewEvent -> bool) (r : ReviewEvent) : bool := match o with Some a => f a r | None => true end.

(** The filters, one after the other. *)
Definition mockFiltered (filters : ReviewsFilters) : list ReviewEvent :=
  List.filter (passes (chosen (wf_since filters)) (fun s => youngerThan (sinceMs s)))
    (List.filter (passes (truthyStr (wf_repoQuery filters)) (fun q r => includes (toLowerCase (re_repoName r)) (toLowerCase q)))
      (List.filter (passes (chosen (wf_outcome filters)) (fun o r => bool_decide (re_outcome r = o)))
        (List.filter (passes (chosen (wf_platform filters)) (fun p r => bool_decide (re_platform r = p))) reviews))).

Definition getMockReviews (filters : ReviewsFilters) : ReviewsPage :=
  let limit := default 50%Z (wf_limit filters) in
  let all := mockFiltered filters in
  let start := match truthyStr (wf_cursor filters) with
               | Some cur => (findIndex (fun r => bool_decide (re_id r = cur)) all + 1)%Z
               | None => 0%Z
               end in
  let items := slice start (start + limit) all in
  {| pg_items := items;
     pg_nextCursor := if (start + limit <? Zlen all)%Z then re_id <$> last items else None;
     pg_total := Some (Zlen all) |}.
End mocks.

Definition storeOf (i : Z) (s : MockStore) : jsmap bool := default [] (ms_keys s !! i).

(** Looking up an installation makes its store. *)
Definition getMockLlmKeys (i : Z) (s : MockStore) : LlmKeysResponse * MockStore :=
  let store := storeOf i s in
  ({| lk_installationId := i;
      lk_keys := map (fun p => (p, default false (mapGet (providerType_str p) store))) WEB_PROVIDERS |},
   setMockKeys (<[i := store]> (ms_keys s)) s).

Definition setMockKey (v : bool) (i : Z) (p : ProviderType) (s : MockStore) : MockStore :=
  setMockKeys (<[i := mapSet (providerType_str p) v (storeOf i s)]> (ms_keys s)) s.
Definition upsertMockLlmKey := setMockKey true.
Definition deleteMockLlmKey := setMockKey false.

Definition noKeyError (i : Z) (p : ProviderType) : thrown :=
  errorOf ("No key configured for provider " ++ providerType_str p ++ " on installation " ++ showZ i).
Definition rotateMockLlmKey (i : Z) (p : ProviderType) : eff MockStore thrown unit := fun s =>
  if default false (mapGet (providerType_str p) (storeOf i s)) then (Ok tt, setMockKey true i p s)
  else (Throw (noKeyError i p), setMockKeys (<[i := storeOf i s]> (ms_keys s)) s).

Definition MOCK_BULK_CREATE_ERROR_SENTINEL : str := "__error__".
Fixpoint bulkCreateMockRepos (names : list str) : BulkCreateRepoResponse :=
  match names with
  | [] => {| bc_created := []; bc_alreadyExists := []; bc_errors := [] |}
  | name :: rest =>
      let r := bulkCreateMockRepos rest in
      if bool_decide (name = MOCK_BULK_CREATE_ERROR_SENTINEL)
      then {| bc_created := bc_created r; bc_alreadyExists := bc_alreadyExists r;
              bc_errors := (name, js "simulated registration failure") :: bc_errors r |}
      else match List.find (fun x => bool_decide (ir_fullName x = name)) mockInstallationRepos with
           | Some {| ir_registered := true |} =>
               {| bc_created := bc_created r; bc_alreadyExists := name :: bc_alreadyExists r; bc_errors := bc_errors r |}
           | _ => {| bc_created := name :: bc_created r; bc_alreadyExists := bc_alreadyExists r; bc_errors := bc_errors r |}
           end
  end.

(** ** The requests *)

(** The casts of a parsed answer to its type. *)
Record Casts := {
  as_overview : json -> DashboardOverview;
  as_repos : json -> list RepoSummary;
  as_repo : json -> RepoSummary;
  as_detail : json -> RepoDetail;
  as_metrics : json -> RepoMetrics;
  as_prompt : json -> PromptResponse;
  as_page : json -> ReviewsPage;
  as_integrations : json -> GithubIntegration * CodeCommitIntegration * LlmIntegration;
  as_keys : json -> LlmKeysResponse;
  as_key : json -> KeyAnswer;
  as_installationRepos : json -> list ListedRepo;
  as_bulk : json -> BulkCreateRepoResponse;
}.

Section client.
Context {X : Type} (IS_MOCK : bool) (dashboardToken : option str) (fetchFn : WebRequest -> eff X thrown (FetchResponse X))
        (dateNow : X -> Z) (isoOf : Z -> str) (parseDate : str -> option Z) (casts : Casts)
        (mockReviewEventDetails : jsmap json).

(** [apiFetch]; the headers of the call replace the client's own. *)
Definition clientHeaders (init : RequestInit) : jsmap str :=
  mapSpread ((js "Content-Type", js "application/json")
             :: match truthyStr dashboardToken with Some t => [(js "Authorization", "Bearer " ++ t)] | None => [] end)
            (ri_headers init).

Definition apiFetch (path : str) (query : jsmap str) (init : RequestInit) : eff X thrown json :=
  res ← fetchFn {| wr_path := path; wr_query := query; wr_method := ri_method init; wr_headers := clientHeaders init;
                   wr_body := ri_body init |};
  if negb (fp_ok res) then throw (errorOf ("API error " ++ showZ (fp_status res) ++ ": " ++ fp_statusText res))
  else fp_json res.

(** The page's state is the mock server's; the rest is the world. *)
Notation Page := (MockStore * X)%type.
Definition onWorld {A} (m : eff X thrown A) : eff Page thrown A := fun p => let '(r, x) := m p.2 in (r, (p.1, x)).
Definition onMock {A} (f : MockStore -> A * MockStore) : eff Page thrown A := fun p => let '(a, s) := f p.1 in (Ok a, (s, p.2)).
Definition tick : eff Page thrown Z := p ← get; mret (dateNow p.2).

(** The mock's answer, or the server's. *)
Definition either {A} (cast : json -> A) (mock : eff Page thrown A) (path : str) (query : jsmap str) (init : RequestInit) : eff Page thrown A :=
  if IS_MOCK then mock else v ← onWorld (apiFetch path query init); mret (cast v).

Definition orNotFound {A} (what id : str) (o : option A) : eff Page thrown A :=
  match o with Some a => mret a | None => throw (errorOf (what ++ " " ++ id ++ " not found")) end.

Definition fetchOverview : eff Page thrown DashboardOverview := either (as_overview casts) (mret mockOverview) "/api/dashboard/overview" [] noInit.

Definition fetchRepos : eff Page thrown (list RepoSummary) := either (as_repos casts) (onMock (fun s => (ms_repos s, s))) "/api/repos" [] noInit.

Definition createRepo (platform : VcsPlatform) (name : str) : eff Page thrown RepoSummary :=
  either (as_repo casts) (t ← tick; onMock (addMockRepo t platform name)) "/api/repos" [] (withBody "POST" (createRepoBody platform name)).

Definition patchRepo (id : str) (enabled : option bool) : eff Page thrown RepoSummary :=
  either (as_repo casts) (r ← onMock (patchMockRepo id enabled); orNotFound "Repo" id r)
    ("/api/repos/" ++ id) [] (withBody "PATCH" (patchRepoBody enabled)).

Definition deleteInit : RequestInit := {| ri_method := Some (js "DELETE"); ri_headers := []; ri_body := None |}.
Definition deleteRepo (id : str) : eff Page thrown unit :=
  either (fun _ => tt) (_ ← onMock (deleteMockRepo id); mret tt) ("/api/repos/" ++ id) [] deleteInit.

Definition fetchRepoDetail (id : str) : eff Page thrown RepoDetail :=
  either (as_detail casts) (r ← onMock (fun s => (getMockRepoDetail id s, s)); orNotFound "Repo" id r) ("/api/repos/" ++ id) [] noInit.

Definition fetchRepoMetrics (id : str) : eff Page thrown RepoMetrics :=
  either (as_metrics casts) (t ← tick; mret (getMockRepoMetrics parseDate t mockReviews id)) ("/api/repos/" ++ id ++ "/metrics") [] noInit.

Definition fetchRepoPrompt (id : str) : eff Page thrown PromptResponse :=
  either (as_prompt casts) (onMock (fun s => (getMockRepoPrompt id s, s))) ("/api/repos/" ++ id ++ "/prompt") [] noInit.

Definition putRepoPrompt (id systemPrompt : str) : eff Page thrown PromptResponse :=
  either (as_prompt casts) (t ← tick; onMock (putMockRepoPrompt (isoOf t) id systemPrompt))
    ("/api/repos/" ++ id ++ "/prompt") [] (withBody "PUT" (putPromptBody systemPrompt)).

Definition fetchIntegrations : eff Page thrown (GithubIntegration * CodeCommitIntegration * LlmIntegration) :=
  either (as_integrations casts) (mret mockIntegrations) "/api/integrations" [] noInit.

Definition fetchReviews (filters : ReviewsFilters) : eff Page thrown ReviewsPage :=
  either (as_page casts) (t ← tick; mret (getMockReviews parseDate t mockReviews filters)) "/api/reviews" (reviewParams filters) noInit.

(** The mock filters one page of all the reviews. *)
Definition pageFilters (limit : Z) : ReviewsFilters :=
  {| wf_limit := Some limit; wf_cursor := None; wf_platform := None; wf_outcome := None; wf_repoQuery := None; wf_since := None |}.
Definition fetchRepoReviews (id : str) (limit : Z) : eff Page thrown ReviewsPage :=
  either (as_page casts)
    (all ← fetchReviews (pageFilters limit);
     mret {| pg_items := List.filter (fun r => bool_decide (re_repoId r = id)) (pg_items all); pg_nextCursor := None; pg_total := None |})
    ("/api/repos/" ++ id ++ "/reviews") [(js "limit", showZ limit)] noInit.

Definition fetchReviewDetail (id : str) : eff Page thrown json :=
  either (fun v => v) (orNotFound "Review" id (mapGet id mockReviewEventDetails)) ("/api/reviews/" ++ id) [] noInit.

Definition fetchLlmKeys (installationId : Z) : eff Page thrown LlmKeysResponse :=
  either (as_keys casts) (onMock (getMockLlmKeys installationId))
    "/api/integrations/llm-keys" [(js "installationId", showZ installationId)] noInit.

Definition keyAnswer (i : Z) (p : ProviderType) (configured : bool) : KeyAnswer :=
  {| ka_installationId := i; ka_provider := p; ka_configured := configured |}.

Definition upsertLlmKey (i : Z) (p : ProviderType) (apiKey : str) : eff Page thrown KeyAnswer :=
  either (as_key casts) (onMock (fun s => (keyAnswer i p true, upsertMockLlmKey i p s)))
    "/api/integrations/llm-keys" [] (withBody "POST" (llmKeyBody i p (Some apiKey))).

Definition rotateMock (i : Z) (p : ProviderType) : eff Page thrown KeyAnswer := fun w =>
  let '(r, s) := rotateMockLlmKey i p w.1 in
  (match r with Ok _ => Ok (keyAnswer i p true) | Throw e => Throw e end, (s, w.2)).
Definition rotateLlmKey (i : Z) (p : ProviderType) : eff Page thrown KeyAnswer :=
  either (as_key casts) (rotateMock i p) "/api/integrations/llm-keys/rotate" [] (withBody "POST" (llmKeyBody i p None)).

Definition deleteLlmKey (i : Z) (p : ProviderType) : eff Page thrown KeyAnswer :=
  either (as_key casts) (onMock (fun s => (keyAnswer i p false, deleteMockLlmKey i p s)))
    "/api/integrations/llm-keys" [] (withBody "DELETE" (llmKeyBody i p None)).

Definition fetchInstallationRepos (installationId : Z) : eff Page thrown (list ListedRepo) :=
  either (as_installationRepos casts) (mret mockInstallationRepos)
    ("/api/github/installations/" ++ showZ installationId ++ "/repos") [] noInit.

Definition bulkCreateRepos (installationId : Z) (names : list str) : eff Page thrown BulkCreateRepoResponse :=
  either (as_bulk casts) (mret (bulkCreateMockRepos names)) "/api/repos/bulk" [] (withBody "POST" (bulkCreateBody installationId names)).
End client.

(** ** Formats (lib/format.ts) *)

Definition formatDuration (showNumber : number -> str) (ms : Z) : str :=
  if (ms <? 1000)%Z then showZ ms ++ "ms" else toFixed showNumber 1 (ndiv (num_of_Z ms) (num_of_Z 1000)) ++ "s".

Definition formatDateUtc (parseDate : str -> option Z) (iso : str) : str :=
  match parseDate iso with
  | None => "NaN.NaN.NaN NaN:NaN UTC"
  | Some t =>
      showZ (getUTCFullYear t) ++ "." ++ padStart2 (showZ (getUTCMonth t + 1)) ++ "." ++ padStart2 (showZ (getUTCDate t)) ++ " "
        ++ padStart2 (showZ (t mod MS_PER_DAY / 3600000)) ++ ":" ++ padStart2 (showZ (t mod 3600000 / 60000)) ++ " UTC"
  end.

(** [NaN] is neither zero nor printed with digits. *)
Definition formatCost (showNumber : number -> str) (usd : number) : str :=
  if bool_decide (integerOf usd = Some 0%Z) then "$0.000" else "$" ++ toFixed showNumber 3 usd.

(** [dash] is the em dash. *)
Definition formatRelativeDate (dash : str) (parseDate : str -> option Z) (now : Z) (iso : option str) : str :=
  match truthyStr iso with
  | None => dash
  | Some t =>
      match parseDate t with
      | None => "NaNmo ago"
      | Some ms =>
          let days := ((now - ms) / MS_PER_DAY)%Z in
          if (days =? 0)%Z then "today"
          else if (days =? 1)%Z then "yesterday"
          else if (days <? 7)%Z then showZ days ++ "d ago"
          else if (days <? 30)%Z then showZ (days / 7) ++ "w ago"
          else showZ (days / 30) ++ "mo ago"
      end
  end.

(** ** The pages *)

(** *** history.tsx *)

Definition LIMIT : Z := 50.

Record FiltersState := {
  st_platform : Filter VcsPlatform;
  st_outcome : Filter Outcome;
  st_since : Filter SinceAlias;
  st_repoQuery : str;
  st_cursor : option str;
}.

Definition initialFilters : FiltersState := {| st_platform := f_all; st_outcome := f_all; st_since := f_all; st_repoQuery := []; st_cursor := None |}.

Definition filtersOf (s : FiltersState) : ReviewsFilters :=
  {| wf_limit := Some LIMIT; wf_cursor := st_cursor s; wf_platform := Some (st_platform s); wf_outcome := Some (st_outcome s);
     wf_repoQuery := match st_repoQuery s with [] => None | q => Some q end; wf_since := Some (st_since s) |}.

(** The clicks of the page: a filter starts over, the button asks for the next page. *)
Inductive HistoryClick :=
  | PickPlatform (p : Filter VcsPlatform)
  | PickOutcome (o : Filter Outcome)
  | PickSince (s : Filter SinceAlias)
  | TypeQuery (q : str)
  | LoadMore (nextCursor : option str).

Definition historyClick (s : FiltersState) (c : HistoryClick) : FiltersState :=
  match c with
  | PickPlatform p => {| st_platform := p; st_outcome := st_outcome s; st_since := st_since s; st_repoQuery := st_repoQuery s; st_cursor := None |}
  | PickOutcome o => {| st_platform := st_platform s; st_outcome := o; st_since := st_since s; st_repoQuery := st_repoQuery s; st_cursor := None |}
  | PickSince v => {| st_platform := st_platform s; st_outcome := st_outcome s; st_since := v; st_repoQuery := st_repoQuery s; st_cursor := None |}
  | TypeQuery q => {| st_platform := st_platform s; st_outcome := st_outcome s; st_since := st_since s; st_repoQuery := q; st_cursor := None |}
  | LoadMore n => {| st_platform := st_platform s; st_outcome := st_outcome s; st_since := st_since s; st_repoQuery := st_repoQuery s; st_cursor := n |}
  end.

(** *** repos-new.tsx *)

Inductive NameError := name_required | name_invalid.

(** [/^[a-zA-Z0-9._\-/]+$/] *)
Definition isNameChar (c : ascii) : bool :=
  is_lower c || is_lower (fold_char c) || is_digit c || eqc c "." || eqc c "_" || eqc c "-" || eqc c "/".

(** The request of the form, or what it complains about. *)
Definition submitRepo (platform : VcsPlatform) (name : str) : result NameError json :=
  match trim name with
  | [] => Throw name_required
  | trimmed => if forallb isNameChar trimmed then Ok (createRepoBody platform trimmed) else Throw name_invalid
  end.

(** *** repo-prompt.tsx *)

Definition MAX_CHARS : Z := 50000.

(** The draft after the text area's content changed. *)
Definition handleChange (draft val : str) : str := if (Zlen val <=? MAX_CHARS)%Z then val else draft.

(** *** byok-keys.tsx *)

Inductive IdError := id_required | id_invalid.

Definition resolveInstallationId (showNumber : number -> str) (input : str) : result IdError number :=
  match trim input with
  | [] => Throw id_required
  | trimmed =>
      let n := toNumber trimmed in
      match integerOf n with
      | Some z => if (z <=? 0)%Z || negb (bool_decide (showNumber n = trimmed)) then Throw id_invalid else Ok n
      | None => Throw id_invalid
      end
  end.

(** *** github-repos.tsx *)

(** What is shown for a search text. *)
Definition shownRepos (filter_ : str) (repos : list ListedRepo) : list ListedRepo :=
  match trim filter_ with
  | [] => repos
  | q => List.filter (fun r => includes (toLowerCase (ir_fullName r)) (toLowerCase q)) repos
  end.

Definition unregistered (repos : list ListedRepo) : list ListedRepo := List.filter (fun r => negb (ir_registered r)) repos.

Definition toggleRepo (id : Z) (selected : gset Z) : gset Z := if bool_decide (id ∈ selected) then selected ∖ {[id]} else selected ∪ {[id]}.

(** A click on the box of a repository; the box of a registered one is disabled. *)
Definition clickRepo (r : ListedRepo) (selected : gset Z) : gset Z := if ir_registered r then selected else toggleRepo (ir_id r) selected.

Definition allUnregisteredSelected (filter_ : str) (repos : list ListedRepo) (selected : gset Z) : bool :=
  match unregistered (shownRepos filter_ repos) with
  | [] => false
  | l => forallb (fun r => bool_decide (ir_id r ∈ selected)) l
  end.

Definition toggleSelectAll (filter_ : str) (repos : list ListedRepo) (selected : gset Z) : gset Z :=
  let ids : gset Z := list_to_set (map ir_id (unregistered (shownRepos filter_ repos))) in
  if allUnregisteredSelected filter_ repos selected then selected ∖ ids else selected ∪ ids.

(** The names of the request; none is sent for none. *)
Definition submitNames (repos : list ListedRepo) (selected : gset Z) : option (list str) :=
  match map ir_fullName (List.filter (fun r => negb (ir_registered r) && bool_decide (ir_id r ∈ selected)) repos) with
  | [] => None
  | names => Some names
  end.

(** The page refuses an id that is absent, no number or not positive. *)
Definition pageInstallationId (rawId : option str) : option number :=
  match truthyStr rawId with
  | Some raw => let n := toNumber raw in if ngt n zero then Some n else None
  | None => None
  end.

(** ** The server accepts what the pages send *)

(** The query of a request as the route reads it. *)
Definition queryOf (params : jsmap str) : ReviewsQuery :=
  {| q_limit := mapGet (js "limit") params; q_cursor := mapGet (js "cursor") params; q_platform := mapGet (js "platform") params;
     q_outcome := mapGet (js "outcome") params; q_repoQuery := mapGet (js "repoQuery") params; q_since := mapGet (js "since") params |}.

Lemma queryOf_reviewParams filters :
  queryOf (reviewParams filters) =
    {| q_limit := Some (showZ (default 50%Z (wf_limit filters))); q_cursor := truthyStr (wf_cursor filters);
       q_platform := platform_str <$> chosen (wf_platform filters); q_outcome := outcome_str <$> chosen (wf_outcome filters);
       q_repoQuery := truthyStr (wf_repoQuery filters); q_since := since_str <$> chosen (wf_since filters) |}.
Proof.
  unfold queryOf, reviewParams. by destruct (truthyStr (wf_cursor filters)), (chosen (wf_platform filters)), (chosen (wf_outcome filters)),
    (truthyStr (wf_repoQuery filters)), (chosen (wf_since filters)).
Qed.

Lemma limitSchema_showZ n : (1 <= n <= 200)%Z -> limitSchema (Some (showZ n)) = num_of_Z n.
Proof.
  intros Hn. unfold limitSchema. rewrite toNumber_showZ by lia. assert (exists k, n = Z.of_nat k /\ k <= 200) as (k & -> & Hk) by (exists (Z.to_nat n); lia).
  assert (forallb (fun k => isFinite (num_of_Z (Z.of_nat k)) && nge (num_of_Z (Z.of_nat k)) (num_of_Z 1)
            && negb (ngt (num_of_Z (Z.of_nat k)) (num_of_Z 200))) (seq 1 200) = true) as H by by vm_compute.
  rewrite forallb_forall in H. specialize (H k). rewrite in_seq in H. specialize (H ltac:(lia)).
  apply andb_true_iff in H as [-> H%negb_true_iff]. by rewrite H.
Qed.

(** C37. Filters survive the way to the server: what the page selects is what the route reads back from the
    query - the cursor and the search text unless empty, the platform, the outcome and the period
    unless all of them are asked for, and a page size of the schema's range. *)
Theorem filters_reach_the_server isDatetime filters :
  (1 <= default 50 (wf_limit filters) <= 200)%Z ->
  reviewsQuerySchema isDatetime (queryOf (reviewParams filters)) =
    Some {| pq_limit := num_of_Z (default 50%Z (wf_limit filters)); pq_cursor := truthyStr (wf_cursor filters);
            pq_platform := chosen (wf_platform filters); pq_outcome := chosen (wf_outcome filters);
            pq_repoQuery := truthyStr (wf_repoQuery filters); pq_since := since_str <$> chosen (wf_since filters) |}.
Proof.
  intros Hl. rewrite queryOf_reviewParams. unfold reviewsQuerySchema. cbn [q_limit q_cursor q_platform q_outcome q_repoQuery q_since].
  rewrite limitSchema_showZ by done.
  assert (forall o, optionalText platformSchema (platform_str <$> o) = Some o) as -> by by intros [[]|].
  assert (forall o, optionalText outcomeSchema (outcome_str <$> o) = Some o) as -> by by intros [[]|].
  assert (forall o, optionalText (checked (fun s => bool_decide (s ∈ map js ["24h"; "7d"; "30d"]) || isDatetime s) asString) (since_str <$> o)
            = Some (since_str <$> o)) as -> by by intros [[]|].
  done.
Qed.

Lemma filters_reach_the_server_witness :
  reviewsQuerySchema (fun _ => false)
    (queryOf (reviewParams {| wf_limit := Some 20%Z; wf_cursor := Some []; wf_platform := Some (f_one codecommit); wf_outcome := Some f_all;
                              wf_repoQuery := Some (js "acme"); wf_since := Some (f_one s_7d) |})) =
    Some {| pq_limit := num_of_Z 20; pq_cursor := None; pq_platform := Some codecommit; pq_outcome := None; pq_repoQuery := Some (js "acme");
            pq_since := Some (js "7d") |}.
Proof. apply filters_reach_the_server. done. Defined.

(** The names, the drafts and the keys that the forms let through. *)
Lemma draft_is_short vals d : (Zlen d <= MAX_CHARS)%Z -> (Zlen (foldl handleChange d vals) <= MAX_CHARS)%Z.
Proof.
  revert d. induction vals as [|v vals IH]; intros d Hd; [done|]. cbn. apply IH. unfold handleChange. by destruct (_ <=? _)%Z eqn:E; to_prop.
Qed.

Lemma bounded_text lo hi s : requiredR (boundedText lo hi) (Some (JStr s)) = if (lo <=? Zlen s)%Z && (Zlen s <=? hi)%Z then Some s else None.
Proof. done. Qed.

Lemma createRepo_schema platform name :
  createRepoBodySchema (createRepoBody platform name) = (n ← requiredR (boundedText 1 200) (Some (JStr name)); Some (platform, n)).
Proof. by destruct platform. Qed.

Lemma putPrompt_schema d : putPromptBodySchema (putPromptBody d) = requiredR (boundedText 0 50000) (Some (JStr d)).
Proof. done. Qed.

Lemma key_schemas i provider key :
  Byok.upsertBodySchema (llmKeyBody i provider (Some key)) =
    (i' ← requiredR Byok.installationIdSchema (Some (JNum (num_of_Z i)));
     k ← requiredR (checked (fun s => (1 <=? Zlen s) && (Zlen s <=? Byok.MAX_API_KEY))%Z asString) (Some (JStr key)); Some (i', provider, k)) /\
  Byok.lookupBodySchema (llmKeyBody i provider None) =
    (i' ← requiredR Byok.installationIdSchema (Some (JNum (num_of_Z i))); Some (i', provider)).
Proof. by destruct provider. Qed.

Lemma installationId_schema i : integerOf (num_of_Z i) = Some i -> (1 <= i)%Z ->
  requiredR Byok.installationIdSchema (Some (JNum (num_of_Z i))) = Some i.
Proof.
  intros Hi H1. unfold requiredR, Byok.installationIdSchema, asInt, checked. cbn [asNumber mbind option_bind].
  destruct (is_nan (num_of_Z i)) eqn:En; [by destruct (num_of_Z i)|]. cbn [mbind option_bind]. unfold isInt. rewrite Hi.
  rewrite (proj2 (Z.leb_le 1 i)) by done. done.
Qed.

(** The server's schemas accept what the forms send: the name of a new repository that passes the
    form's check, unless it is longer than 200 characters; a switch; every draft that can be typed;
    and a key for an installation whose id a double holds. *)
Theorem form_requests_are_accepted :
  (forall platform name body, submitRepo platform name = Ok body ->
     createRepoBodySchema body = if (Zlen (trim name) <=? 200)%Z then Some (platform, trim name) else None) /\
  (forall enabled, patchRepoBodySchema (patchRepoBody enabled) = Some enabled) /\
  (forall vals, let draft := foldl handleChange [] vals in putPromptBodySchema (putPromptBody draft) = Some draft) /\
  (forall i provider key, integerOf (num_of_Z i) = Some i -> (1 <= i)%Z -> (1 <= Zlen key <= Byok.MAX_API_KEY)%Z ->
     Byok.upsertBodySchema (llmKeyBody i provider (Some key)) = Some (i, provider, key) /\
     Byok.lookupBodySchema (llmKeyBody i provider None) = Some (i, provider)).
Proof.
  split_and!.
  - intros platform name body. unfold submitRepo. destruct (trim name) as [|c s] eqn:E; [done|]. destruct (forallb _ _); [|done]. intros [= <-].
    rewrite createRepo_schema, bounded_text. rewrite (proj2 (Z.leb_le 1 (Zlen (c :: s)))) by (unfold Zlen; simpl length; lia).
    cbn [andb]. by destruct (_ <=? 200)%Z.
  - by intros [[]|].
  - intros vals. cbv zeta. rewrite putPrompt_schema, bounded_text.
    pose proof (draft_is_short vals [] ltac:(done)) as H. unfold MAX_CHARS in H. rewrite (proj2 (Z.leb_le _ 50000)) by done.
    by rewrite (proj2 (Z.leb_le 0 _)) by (unfold Zlen; lia).
  - intros i provider key Hi H1 [Hk1 Hk2]. destruct (key_schemas i provider key) as [-> ->]. rewrite installationId_schema by done.
    split; [|done]. cbn [mbind option_bind requiredR checked asString]. unfold requiredR, checked. cbn [mbind option_bind asString].
    rewrite (proj2 (Z.leb_le 1 (Zlen key))) by done. by rewrite (proj2 (Z.leb_le _ Byok.MAX_API_KEY)).
Qed.

Lemma form_requests_are_accepted_witness :
  createRepoBodySchema (createRepoBody github "acme/api") = Some (github, js "acme/api") /\
  Byok.upsertBodySchema (llmKeyBody 42 p_openai (Some (js "sk-1"))) = Some (42%Z, p_openai, js "sk-1").
Proof.
  destruct form_requests_are_accepted as (Hrepo & _ & _ & Hkey). split.
  - rewrite (Hrepo github " acme/api ") by (vm_compute; reflexivity). vm_compute. reflexivity.
  - apply Hkey; [vm_compute; reflexivity|lia|vm_compute; split; discriminate].
Defined.

(** ** The pages of the mock server *)

Section mockPages.
Context (parseDate : str -> option Z) (now : Z) (reviews : list ReviewEvent) (filters : ReviewsFilters).

Definition atCursor (c : option str) : ReviewsFilters :=
  {| wf_limit := wf_limit filters; wf_cursor := c; wf_platform := wf_platform filters; wf_outcome := wf_outcome filters;
     wf_repoQuery := wf_repoQuery filters; wf_since := wf_since filters |}.

(** A reader who asks for the next page until there is none. *)
Fixpoint followMock (fuel : nat) (c : option str) : option (list ReviewEvent) :=
  match fuel with
  | O => None
  | S fuel =>
      let p := getMockReviews parseDate now reviews (atCursor c) in
      match pg_nextCursor p with
      | None => Some (pg_items p)
      | Some next => app (pg_items p) <$> followMock fuel (Some next)
      end
  end.

Lemma slice_rest {A} (l1 rest : list A) lim : (0 <= lim)%Z -> slice (Zlen l1) (Zlen l1 + lim) (l1 ++ rest) = take (Z.to_nat lim) rest.
Proof using.
  intros Hl. unfold slice, sliceIndex, Zlen. rewrite length_app.
  rewrite !(proj2 (Z.ltb_ge _ 0)) by lia. rewrite (Z.min_l (Z.of_nat (length l1))) by lia. rewrite Nat2Z.id, drop_app_length.
  destruct (decide (Z.to_nat lim <= length rest)); [f_equal; lia|]. rewrite !take_ge by lia. done.
Qed.

Lemma findIndex_at (l2 l3 : list ReviewEvent) r : NoDup (map re_id (l2 ++ r :: l3)) ->
  findIndex (fun x => bool_decide (re_id x = re_id r)) (l2 ++ r :: l3) = Zlen l2.
Proof using.
  induction l2 as [|x l2 IH]; intros Hn; cbn [findIndex app].
  - by rewrite bool_decide_eq_true_2.
  - cbn in Hn. apply NoDup_cons in Hn as [Hx Hn]. rewrite bool_decide_eq_false_2.
    + rewrite IH by done. unfold Zlen. cbn [length]. rewrite (proj2 (Z.ltb_ge _ 0)) by lia. lia.
    + intros E. apply Hx. rewrite E, map_app. set_solver.
Qed.

Lemma mockFiltered_sublist c : sublist (mockFiltered parseDate now reviews (atCursor c)) reviews.
Proof using. unfold mockFiltered. do 3 (etrans; [apply sublist_bfilter|]). apply sublist_bfilter. Qed.

Context (Hids : NoDup (map re_id reviews)) (Hne : Forall (fun r => re_id r <> []) reviews)
        (Hlimit : (1 <= default 50 (wf_limit filters))%Z).
Notation all := (mockFiltered parseDate now reviews (atCursor None)).
Notation lim := (default 50%Z (wf_limit filters)).

(** The place a cursor stands for. *)
Definition startsAt (c : option str) : Z :=
  match truthyStr c with Some cur => (findIndex (fun r => bool_decide (re_id r = cur)) all + 1)%Z | None => 0%Z end.

Lemma page_at c l1 rest : all = l1 ++ rest -> startsAt c = Zlen l1 ->
  getMockReviews parseDate now reviews (atCursor c) =
    {| pg_items := take (Z.to_nat lim) rest;
       pg_nextCursor := if (lim <? Zlen rest)%Z then re_id <$> last (take (Z.to_nat lim) rest) else None; pg_total := Some (Zlen all) |}.
Proof using Hlimit.
  intros Hall Hs. unfold getMockReviews. cbn [wf_limit atCursor wf_cursor].
  change (mockFiltered parseDate now reviews (atCursor c)) with all. fold (startsAt c). rewrite Hs.
  assert (slice (Zlen l1) (Zlen l1 + lim) all = take (Z.to_nat lim) rest) as -> by (rewrite Hall; apply slice_rest; lia).
  assert ((Zlen l1 + lim <? Zlen all)%Z = (lim <? Zlen rest)%Z) as ->; [|done]. rewrite Hall.
  unfold Zlen. rewrite length_app. destruct (Z.ltb_spec lim (Z.of_nat (length rest))); [apply Z.ltb_lt|apply Z.ltb_ge]; lia.
Qed.

Lemma followMock_rest fuel : forall c l1 rest, all = l1 ++ rest -> startsAt c = Zlen l1 -> length rest < fuel -> followMock fuel c = Some rest.
Proof using Hids Hne Hlimit.
  induction fuel as [|fuel IH]; intros c l1 rest Hall Hs Hf; [lia|]. cbn [followMock]. rewrite (page_at c l1 rest) by done. cbn [pg_nextCursor pg_items].
  destruct (Z.ltb_spec lim (Zlen rest)) as [Hlt|Hge]; unfold Zlen in *.
  2: { by rewrite take_ge by lia. }
  destruct (last (take (Z.to_nat lim) rest)) as [r|] eqn:El.
  2: { apply last_None in El. apply (f_equal length) in El. rewrite length_take in El. cbn in El. lia. }
  apply last_Some in El as (l2 & El). cbn [fmap option_fmap option_map].
  assert (rest = l2 ++ r :: drop (Z.to_nat lim) rest) as Er by (rewrite <- (take_drop (Z.to_nat lim) rest) at 1; by rewrite El, <- app_assoc).
  assert (all = (l1 ++ l2) ++ r :: drop (Z.to_nat lim) rest) as Hall' by (by rewrite Hall, Er, <- app_assoc at 1).
  rewrite (IH _ ((l1 ++ l2) ++ [r]) (drop (Z.to_nat lim) rest)).
  - cbn. by rewrite take_drop.
  - by rewrite <- app_assoc.
  - unfold startsAt. rewrite truthyStr_ne.
    + rewrite Hall', findIndex_at; [unfold Zlen; rewrite !length_app; cbn; lia|]. rewrite <- Hall'.
      eapply sublist_NoDup; [exact Hids|]. apply fmap_sublist, mockFiltered_sublist.
    + rewrite Forall_forall in Hne. apply Hne. eapply elem_of_sublist; [|apply (mockFiltered_sublist None)]. rewrite Hall'. set_solver.
  - rewrite length_drop. lia.
Qed.
End mockPages.

(** A reader of the mock server who follows the cursors sees every review the filters keep, once and in
    order, and stops - one page more than there are reviews is always enough. *)
Theorem mock_pages_cover_the_list parseDate now reviews filters fuel :
  NoDup (map re_id reviews) -> Forall (fun r => re_id r <> []) reviews -> (1 <= default 50 (wf_limit filters))%Z ->
  length reviews < fuel ->
  followMock parseDate now reviews filters fuel None = Some (mockFiltered parseDate now reviews (atCursor filters None)).
Proof.
  intros Hids Hne Hl Hf. eapply (followMock_rest _ _ _ _ Hids Hne Hl fuel None []); [done|done|].
  pose proof (sublist_length _ _ (mockFiltered_sublist parseDate now reviews filters None)). lia.
Qed.

(** The forty reviews of mocks.ts, those of GitHub, ten at a time. *)
Lemma mock_pages_cover_the_list_witness :
  let filters := {| wf_limit := Some 10%Z; wf_cursor := None; wf_platform := Some (f_one github); wf_outcome := None; wf_repoQuery := None;
                    wf_since := None |} in
  followMock (fun _ => None) 0 mockReviews filters 41 None = Some (mockFiltered (fun _ => None) 0 mockReviews (atCursor filters None)) /\
  length (mockFiltered (fun _ => None) 0 mockReviews (atCursor filters None)) = 27.
Proof.
  cbv zeta. split; [|vm_compute; reflexivity]. apply mock_pages_cover_the_list.
  - apply (bool_decide_unpack _). vm_compute. exact I.
  - apply (bool_decide_unpack _). vm_compute. exact I.
  - cbn. lia.
  - vm_compute. lia.
Defined.

(** ** A deletion *)

(** What a route's reply is to [fetch]; [body] is its text as JSON, [None] when it is empty. *)
Definition statusOk (status : Z) : bool := (200 <=? status)%Z && (status <=? 299)%Z.
Definition errorBody (error : string) : json := obj [("error"%string, Some (JStr (js error)))].
Definition noJson : thrown := errorOf "Unexpected end of JSON input".

Definition fetchAnswer {W A} (statusText : Z -> str) (body : A -> option json) (r : Response A) : FetchResponse W :=
  match r with
  | Reply status a =>
      {| fp_ok := statusOk status; fp_status := status; fp_statusText := statusText status; fp_text := mret [];
         fp_json := match body a with Some v => mret v | None => throw noJson end |}
  | Fail status error =>
      {| fp_ok := statusOk status; fp_status := status; fp_statusText := statusText status; fp_text := mret [];
         fp_json := mret (errorBody error) |}
  end.

(** [fetch] reaches the route of a deletion. *)
Definition Routed {X} (now : X -> Z) (statusText : Z -> str) (fetchFn : WebRequest -> eff (ApiWorld X) thrown (FetchResponse (ApiWorld X))) : Prop :=
  forall id req w, wr_path req = "/api/repos/" ++ id -> wr_method req = Some (js "DELETE") ->
    fetchFn req w = (r ← Dashboard.deleteRepo now id; mret (fetchAnswer statusText (fun _ => None) r)) w.

Lemma activeRepo_deleted id at_ rs : activeRepo id (updateRepo id (markDeleted at_) rs) = None.
Proof.
  unfold activeRepo, updateRepo. induction rs as [|r rs IH]; [done|]. cbn [map List.find]. destruct (decide (repo_id r = id)) as [E|E].
  - rewrite (bool_decide_eq_true_2 _ E). change (isActive (markDeleted at_ r)) with false. by rewrite andb_false_r.
  - rewrite (bool_decide_eq_false_2 _ E). by rewrite bool_decide_eq_false_2.
Qed.

(** C40. The route answers a deletion with no content, and the client reads the answer as JSON: over a
    server that serves the route, a deletion throws in the browser whether or not there was such a
    repository - and where there was one, it is gone. *)
Theorem deletion_is_reported_failed {X} now statusText (fetchFn : WebRequest -> eff (ApiWorld X) thrown (FetchResponse (ApiWorld X)))
    token id s w :
  Routed now statusText fetchFn ->
  exists e w', deleteRepo false token fetchFn id (s, w) = (Throw e, (s, w')) /\ activeRepo id (aw_repos w') = None /\
    (is_Some (activeRepo id (aw_repos w)) -> e = noJson) /\
    (activeRepo id (aw_repos w) = None -> w' = w /\ e = errorOf ("API error 404: " ++ statusText 404%Z)).
Proof.
  intros Hr. unfold deleteRepo, either, apiFetch, onWorld. unfold mbind, eff_bind. cbn [snd fst].
  rewrite (Hr id) by done. unfold Dashboard.deleteRepo. unfold mbind, eff_bind, get. cbn [fst snd].
  destruct (activeRepo id (aw_repos w)) as [row|] eqn:Ea.
  - cbn. do 2 eexists. split; [reflexivity|]. cbn. split; [apply activeRepo_deleted|]. by split.
  - cbn. do 2 eexists. split; [reflexivity|]. by rewrite Ea; split_and!; [|intros [? [=]]|].
Qed.

(** A server with one repository. *)
Definition oneRepo : ApiWorld unit :=
  Build_ApiWorld [newRepo "r1" github "acme/api" None 0] [] [] ∅ tt.
Definition served (req : WebRequest) : eff (ApiWorld unit) thrown (FetchResponse (ApiWorld unit)) :=
  r ← Dashboard.deleteRepo (fun _ => 7%Z) (drop 11 (wr_path req)); mret (fetchAnswer (fun _ => []) (fun _ => None) r).
Definition noMocks : MockStore := {| ms_repos := []; ms_prompts := []; ms_keys := ∅ |}.

Lemma deletion_is_reported_failed_witness :
  exists w', deleteRepo false None served "r1" (noMocks, oneRepo) = (Throw noJson, (noMocks, w')) /\ activeRepo "r1" (aw_repos w') = None /\
    is_Some (activeRepo "r1" (aw_repos oneRepo)).
Proof.
  destruct (deletion_is_reported_failed (fun _ => 7%Z) (fun _ => []) served None "r1" noMocks oneRepo) as (e & w' & Hrun & Hgone & He & _).
  - intros id req w Hpath _. unfold served. rewrite Hpath. reflexivity.
  - assert (is_Some (activeRepo "r1" (aw_repos oneRepo))) as Hs by (eexists; vm_compute; reflexivity).
    exists w'. rewrite <- (He Hs). split; [exact Hrun|]. by split.
Defined.

(** ** The selection of repositories *)

(** A click on the page: the box of a listed repository, or the button for all that are shown. *)
Inductive SelectClick := ClickRepo (r : ListedRepo) | SelectAll (filter_ : str).

Definition selectClick (repos : list ListedRepo) (selected : gset Z) (c : SelectClick) : gset Z :=
  match c with ClickRepo r => clickRepo r selected | SelectAll f => toggleSelectAll f repos selected end.

Definition listedClick (repos : list ListedRepo) (c : SelectClick) : Prop := match c with ClickRepo r => r ∈ repos | SelectAll _ => True end.

(** The ids that may be selected. *)
Definition openIds (repos : list ListedRepo) : gset Z := list_to_set (map ir_id (unregistered repos)).

Lemma elem_of_openIds repos i : i ∈ openIds repos <-> exists r, r ∈ repos /\ ir_registered r = false /\ ir_id r = i.
Proof.
  unfold openIds. rewrite elem_of_list_to_set. split.
  - intros (r & -> & Hr)%list_elem_of_fmap. apply elem_of_bfilter in Hr as [Hin Hn%negb_true_iff]. by exists r.
  - intros (r & Hin & Hn & <-). apply list_elem_of_fmap. exists r. split; [done|]. apply elem_of_bfilter. by rewrite Hn.
Qed.

Lemma shownRepos_sub f repos r : r ∈ shownRepos f repos -> r ∈ repos.
Proof. unfold shownRepos. destruct (trim f); [done|]. intros Hr. by apply elem_of_bfilter in Hr as [? _]. Qed.

Lemma openIds_shown f repos : openIds (shownRepos f repos) ⊆ openIds repos.
Proof. intros i. rewrite !elem_of_openIds. intros (r & Hr & ? & ?). exists r. by split; [apply (shownRepos_sub f)|]. Qed.

Lemma selectClick_open repos c sel : listedClick repos c -> sel ⊆ openIds repos -> selectClick repos sel c ⊆ openIds repos.
Proof.
  intros Hc Hs. destruct c as [r|f]; cbn.
  - unfold clickRepo, toggleRepo. destruct (ir_registered r) eqn:E; [done|]. case_bool_decide; [set_solver|].
    assert (ir_id r ∈ openIds repos) by (apply elem_of_openIds; by exists r). set_solver.
  - unfold toggleSelectAll. fold (openIds (shownRepos f repos)). pose proof (openIds_shown f repos). destruct (allUnregisteredSelected _ _ _); set_solver.
Qed.

(** Whatever is clicked, what is selected are ids of listed repositories that are not registered, and
    the page sends their names: nothing is sent exactly when nothing is selected, and a name is sent
    exactly when a repository of that name is selected. *)
Theorem selection_is_what_is_sent repos clicks :
  Forall (listedClick repos) clicks ->
  let selected := foldl (selectClick repos) ∅ clicks in
  (submitNames repos selected = None <-> selected = ∅) /\
  forall names, submitNames repos selected = Some names ->
    forall name, name ∈ names <-> exists r, r ∈ repos /\ ir_id r ∈ selected /\ ir_registered r = false /\ ir_fullName r = name.
Proof.
  intros Hc. cbv zeta. assert (foldl (selectClick repos) ∅ clicks ⊆ openIds repos) as Hopen.
  { assert (forall sel, sel ⊆ openIds repos -> foldl (selectClick repos) sel clicks ⊆ openIds repos) as H; [|apply H; set_solver].
    induction Hc as [|c cs Hc _ IH]; intros sel Hs; [done|]. cbn. by apply IH, selectClick_open. }
  revert Hopen. generalize (foldl (selectClick repos) ∅ clicks). intros sel Hopen.
  assert (forall name, name ∈ map ir_fullName (List.filter (fun r => negb (ir_registered r) && bool_decide (ir_id r ∈ sel)) repos)
    <-> exists r, r ∈ repos /\ ir_id r ∈ sel /\ ir_registered r = false /\ ir_fullName r = name) as Hnames.
  { intros name. split.
    - intros (r & -> & Hr)%list_elem_of_fmap. apply elem_of_bfilter in Hr as [Hin [Hn%negb_true_iff Hs%bool_decide_eq_true]%andb_true_iff].
      by exists r.
    - intros (r & Hin & Hs & Hn & <-). apply list_elem_of_fmap. exists r. split; [done|]. apply elem_of_bfilter.
      by rewrite Hn, bool_decide_eq_true_2. }
  unfold submitNames. destruct (map ir_fullName _) as [|n ns] eqn:E.
  - split; [|done]. split; [|done]. intros _. apply set_eq. intros i. split; [|set_solver]. intros Hi.
    destruct (proj1 (elem_of_openIds repos i) (Hopen i Hi)) as (r & Hin & Hn & <-).
    assert (ir_fullName r ∈ @nil str) as Hr by (apply Hnames; by exists r). by apply elem_of_nil in Hr.
  - split; [|by intros names [= <-]]. split; [done|]. intros Hsel. assert (n ∈ n :: ns) as Hn by left.
    apply Hnames in Hn as (r & _ & Hr & _). rewrite Hsel in Hr. set_solver.
Qed.

(** The mock installation: all that match [acme/d], and the private backend. *)
Lemma selection_is_what_is_sent_witness :
  let clicks := [SelectAll "acme/d"; ClickRepo {| ir_id := 100003; ir_fullName := "acme/backend"; ir_private := true; ir_registered := false |}] in
  submitNames mockInstallationRepos (foldl (selectClick mockInstallationRepos) ∅ clicks) = Some [js "acme/backend"; js "acme/docs"] /\
  (submitNames mockInstallationRepos (foldl (selectClick mockInstallationRepos) ∅ clicks) = None <->
   foldl (selectClick mockInstallationRepos) ∅ clicks = ∅).
Proof.
  cbv zeta. split; [vm_compute; reflexivity|]. apply selection_is_what_is_sent. repeat constructor.
Defined.

(** ** Boundary inputs *)

(** The clock of a browser that is behind the server's. *)
Example tomorrow_is_minus_one_day : formatRelativeDate [] (fun _ => Some 1%Z) 0 (Some (js "t")) = js "-1d ago".
Proof. reflexivity. Qed.

(** The page lets an id through that is no integer. *)
Example half_an_installation : is_Some (pageInstallationId (Some (js "1.5"))).
Proof. eexists. vm_compute. reflexivity. Qed.

Example formats :
  formatDuration (fun _ => []) 999 = js "999ms" /\ formatDuration (fun _ => []) 8320 = js "8.3s" /\
  formatCost (fun _ => []) (decimalNumber 42 (-3)) = js "$0.042" /\ formatCost (fun _ => []) zero = js "$0.000" /\
  formatDateUtc (fun _ => Some 1779959640000%Z) [] = js "2026.05.28 09:14 UTC".
Proof. by vm_compute. Qed.
