(* ===== verification/Maintenance.v ===== *)
(** * The maintenance commands of the command line (cli/src/commands/suppression-list.ts,
    suppression-remove.ts, audit-prune.ts, audit-export.ts, db/src/audit-retention.ts)

    The commands an operator runs against the database: the list of a repository's suppression
    rules and the removal of one, the retention of the audit log and of the cost ledger, and their
    export to a file. They use the pool itself: no tenant is set on their connection. A prune leaves a
    log that verifies, and tells what it removed; a removal takes one rule and nothing else; an export
    is the tenant's rows of its range or no file at all. On a connection of the application's role,
    where no tenant is set, all of them see empty tables. *)

From stdpp Require Import sorting.
From S2P Require Import Prelude JsNumber Json AuditChain Errors Schema SystemPrompt Runner History Vcs Tenancy.
From S2P Require Import Cost NumberText Codec CostLedger Recover Cli.

(** The tables the commands touch, the files they write and the two streams they print to. *)
Record Desk := {
  dk_history : HistoryDb;
  dk_audit : AuditTable;
  dk_ledger : list (Z * CostLedgerRow);
  dk_files : gmap str str;
  dk_out : list str;
  dk_err : list str;
}.

Definition setHistory (h : HistoryDb) (d : Desk) : Desk :=
  {| dk_history := h; dk_audit := dk_audit d; dk_ledger := dk_ledger d; dk_files := dk_files d; dk_out := dk_out d; dk_err := dk_err d |}.
Definition setAudit (a : AuditTable) (d : Desk) : Desk :=
  {| dk_history := dk_history d; dk_audit := a; dk_ledger := dk_ledger d; dk_files := dk_files d; dk_out := dk_out d; dk_err := dk_err d |}.
Definition setLedger (l : list (Z * CostLedgerRow)) (d : Desk) : Desk :=
  {| dk_history := dk_history d; dk_audit := dk_audit d; dk_ledger := l; dk_files := dk_files d; dk_out := dk_out d; dk_err := dk_err d |}.
Definition setFiles (f : gmap str str) (d : Desk) : Desk :=
  {| dk_history := dk_history d; dk_audit := dk_audit d; dk_ledger := dk_ledger d; dk_files := f; dk_out := dk_out d; dk_err := dk_err d |}.

Definition deskIo : ProgramIo Desk :=
  {| stdout := fun s d => {| dk_history := dk_history d; dk_audit := dk_audit d; dk_ledger := dk_ledger d; dk_files := dk_files d;
                             dk_out := dk_out d ++ [s]; dk_err := dk_err d |};
     stderr := fun s d => {| dk_history := dk_history d; dk_audit := dk_audit d; dk_ledger := dk_ledger d; dk_files := dk_files d;
                             dk_out := dk_out d; dk_err := dk_err d ++ [s] |} |}.

(** The variables of the database's address; an empty first one hides the second. *)
Record DbEnv := { DATABASE_URL : option str; REVIEW_AGENT_DATABASE_URL : option str }.
Definition databaseUrl (env : DbEnv) : option str :=
  truthyStr (match DATABASE_URL env with Some u => Some u | None => REVIEW_AGENT_DATABASE_URL env end).
Definition noDatabase : str := "DATABASE_URL (or REVIEW_AGENT_DATABASE_URL) is required." ++ nl.

Inductive CommandStatus := st_ok | st_not_found | st_dry_run | st_config_error | st_invalid_args | st_chain_break.
#[export] Instance CommandStatus_eq : EqDecision CommandStatus.
Proof. solve_decision. Defined.

(** A bound [bigint] must fit the column. *)
Definition bindBigint (n : Z) : result thrown unit :=
  if (- 2 ^ 63 <=? n)%Z && (n <? 2 ^ 63)%Z then Ok tt else Throw (errorOf "value is out of range for type bigint").

(** How [writeFile] of some data to a path goes: the file is not opened, or it is emptied and written,
    to the end or up to an error after so many characters. *)
Inductive WriteOutcome := Written | NotOpened (e : thrown) | Torn (n : nat) (e : thrown).

Section commands.
(** [pool] is what [createDbClient] connects as; [answer] what its driver says of a DELETE;
    [ellipsis] is a character outside the model's range. *)
Context (ellipsis : str) (sha256hex : str -> str) (toISOString : Z -> str) (showNumber : number -> str) (parseDate : str -> option Z)
  (gzip : str -> str) (disk : str -> str -> WriteOutcome) (answer : nat -> DriverResult) (pool : Connection) (env : DbEnv) (now : Z).

(** ** suppression list *)

Record SuppressionListResult := { sl_status : CommandStatus; sl_count : nat }.

(** The table through the pool's row policies. *)
Definition visibleHistory (db : HistoryDb) : HistoryDb :=
  {| rows := List.filter (fun r => allows pool (row_installationId r)) (rows db); nextId := nextId db |}.

Definition ruleLine (r : HistoryRow) : str :=
  "  ID " ++ showZ (row_id r) ++ "  fingerprint: " ++ default (js "(unknown)") (extractFingerprint (row_factText r))
  ++ "  created: " ++ toISOString (row_createdAt r) ++ "  expires: " ++ toISOString (row_expiresAt r) ++ nl.

Definition suppressionListCommand (installationId : Z) (repo : str) : eff Desk thrown SuppressionListResult :=
  match databaseUrl env with
  | None => complain deskIo [noDatabase];; mret {| sl_status := st_config_error; sl_count := 0 |}
  | Some _ =>
      lift (bindBigint installationId);;
      d ← get;
      match loadActiveSuppressionRules now installationId repo (visibleHistory (dk_history d)) with
      | [] =>
          say deskIo ["No active suppression rules for " ++ repo ++ "." ++ nl];;
          mret {| sl_status := st_ok; sl_count := 0 |}
      | rs =>
          say deskIo ["Active suppression rules for " ++ repo ++ " (" ++ showN (length rs) ++ " rule"
                        ++ (if (length rs =? 1)%nat then [] else js "s") ++ "):" ++ nl];;
          say deskIo (map ruleLine rs);;
          say deskIo [nl ++ "To remove a rule: review-agent suppression remove --installation-id <id> --repo <repo> --rule-id <id>" ++ nl];;
          mret {| sl_status := st_ok; sl_count := length rs |}
      end
  end.

(** ** suppression remove *)

(** The DELETE through the pool's row policies. *)
Definition deleteVisibleRule (id installationId : Z) (repo : str) (db : HistoryDb) : bool * HistoryDb :=
  if allows pool installationId then deleteSuppressionRule answer id installationId repo db
  else ((0 <? affected (answer 0))%Z, db).

Definition suppressionRemoveCommand (installationId : Z) (repo : str) (ruleId : Z) : eff Desk thrown CommandStatus :=
  match databaseUrl env with
  | None => complain deskIo [noDatabase];; mret st_config_error
  | Some _ =>
      lift (bindBigint ruleId);;
      lift (bindBigint installationId);;
      d ← get;
      let '(removed, h) := deleteVisibleRule ruleId installationId repo (dk_history d) in
      modify (setHistory h);;
      if removed : bool then
        say deskIo ["Suppression rule " ++ showZ ruleId ++ " removed from " ++ repo
                      ++ ". The finding will reappear on the next review run." ++ nl];;
        mret st_ok
      else
        say deskIo ["Suppression rule " ++ showZ ruleId ++ " was not found for " ++ repo
                      ++ " (may have already been removed or expired)." ++ nl];;
        mret st_not_found
  end.

(** ** audit prune *)

Record AuditPruneResult := {
  ap_status : CommandStatus;
  ap_auditDeleted : nat;
  ap_costDeleted : nat;
  ap_anchorId : option Z;
  ap_anchorHash : option str;
}.

Definition nothingPruned (s : CommandStatus) : AuditPruneResult :=
  {| ap_status := s; ap_auditDeleted := 0; ap_costDeleted := 0; ap_anchorId := None; ap_anchorHash := None |}.

(** A row of no installation is nobody's. *)
Definition seesAudit (row : ChainLink) : bool :=
  match AuditChain.cl_installationId row with Some i => allows pool i | None => negb (restricted pool) end.

Definition visibleAudit (t : AuditTable) : AuditTable :=
  {| al_rows := List.filter (fun r => seesAudit r.2) (al_rows t); al_next := al_next t |}.

(** [pruneAuditLog] on what the connection sees; the rows it does not see stay. *)
Definition pruneVisibleAudit (before : Z) (t : AuditTable) : AuditChain.PruneAuditResult * AuditTable :=
  let r := (pruneAuditLog before (visibleAudit t)).1 in
  (r, {| al_rows := match anchorId r with
                    | Some id => List.filter (fun r => negb (seesAudit r.2 && (r.1 <? id)%Z)) (al_rows t)
                    | None => al_rows t
                    end;
         al_next := al_next t |}).

Definition pruneCostLedger (before : Z) (l : list (Z * CostLedgerRow)) : nat * list (Z * CostLedgerRow) :=
  let gone r := allows pool (cl_installationId (r.2 : CostLedgerRow)) && (cl_createdAt r.2 <? before)%Z in
  (length (List.filter gone l), List.filter (fun r => negb (gone r)) l).

Definition anchorText (r : AuditChain.PruneAuditResult) : str :=
  match anchorId r with
  | Some id => "Chain anchor: id=" ++ showZ id ++ " hash=" ++ default (js "undefined") (take 12 <$> anchorHash r) ++ ellipsis ++ nl
  | None => "No audit_log anchor (nothing to anchor)." ++ nl
  end.

Definition auditPruneCommand (beforeText : str) (confirm : bool) : eff Desk thrown AuditPruneResult :=
  match parseIsoDate parseDate beforeText with
  | None =>
      complain deskIo ["--before must be an ISO date (got '" ++ beforeText ++ "')." ++ nl];;
      mret (nothingPruned st_invalid_args)
  | Some before =>
      match databaseUrl env with
      | None => complain deskIo [noDatabase];; mret (nothingPruned st_config_error)
      | Some _ =>
          if negb confirm then
            say deskIo ["Dry run: would prune audit_log + cost_ledger rows older than " ++ beforeText
                          ++ ". Re-run with --confirm to actually delete." ++ nl];;
            mret (nothingPruned st_dry_run)
          else
            d ← get;
            let '(a, t) := pruneVisibleAudit before (dk_audit d) in
            modify (setAudit t);;
            let '(n, l) := pruneCostLedger before (dk_ledger d) in
            modify (setLedger l);;
            let '(ok, _, breaks) := verifyAuditChainSegmentFromDb sha256hex toISOString None (visibleAudit t) in
            let answerWith s := {| ap_status := s; ap_auditDeleted := deleted a; ap_costDeleted := n;
                                   ap_anchorId := anchorId a; ap_anchorHash := anchorHash a |} in
            if negb ok then
              complain deskIo ["Chain verification FAILED after prune at row "
                                 ++ default (js "?") (showN <$> (cb_index <$> head breaks))
                                 ++ ". Operator must investigate before further appends." ++ nl];;
              mret (answerWith st_chain_break)
            else
              say deskIo ["Pruned " ++ showN (deleted a) ++ " audit_log row(s) and " ++ showN n
                            ++ " cost_ledger row(s) older than " ++ beforeText ++ ". " ++ anchorText a];;
              mret (answerWith st_ok)
      end
  end.

(** ** audit export *)

Record AuditExportResult := {
  ax_status : CommandStatus;
  ax_auditRows : nat;
  ax_costRows : nat;
  ax_path : option str;
}.
Definition notExported (s : CommandStatus) (a c : nat) : AuditExportResult :=
  {| ax_status := s; ax_auditRows := a; ax_costRows := c; ax_path := None |}.

Definition phase_str (p : CostLedgerPhase) : str :=
  match p with injection_detect => "injection_detect" | review_main => "review_main" | review_retry => "review_retry" end.
Definition status_str (s : CostLedgerStatus) : str :=
  match s with success => "success" | failed => "failed" | cancelled => "cancelled" | cost_exceeded_status => "cost_exceeded" end.

(** [orderBy(asc(id))] *)
Definition byKey {A} (x y : Z * A) : Prop := (x.1 <= y.1)%Z.
#[export] Instance byKey_dec {A} : RelDecision (@byKey A).
Proof. intros x y. unfold byKey. apply _. Defined.

(** One tenant's rows within a time range, in the order of their keys. *)
Definition inRange (since : Z) (until : option Z) (at_ : Z) : bool :=
  (since <=? at_)%Z && match until with Some u => (at_ <=? u)%Z | None => true end.

Definition auditRowsForExport (i since : Z) (until : option Z) (t : AuditTable) : list (Z * ChainLink) :=
  merge_sort byKey
    (List.filter (fun r => seesAudit r.2 && (ofInstallation (Some i) r.2 && inRange since until (cl_ts r.2))) (al_rows t)).
Definition loadCostLedgerForExport (i since : Z) (until : option Z) (l : list (Z * CostLedgerRow)) : list (Z * CostLedgerRow) :=
  merge_sort byKey
    (List.filter (fun r => allows pool (cl_installationId (r.2 : CostLedgerRow)) && ((cl_installationId r.2 =? i)%Z
                           && inRange since until (cl_createdAt r.2))) l).

(** [JSON.stringify] with big integers as strings; a number that is not finite is [null]. *)
Definition auditLine (r : Z * ChainLink) : str :=
  let row := r.2 in
  stringifyObject
    [(js "kind", JStr "audit"); (js "id", JStr (showZ r.1)); (js "ts", JStr (toISOString (cl_ts row)));
     (js "installationId", orNull (fun i => JStr (showZ i)) (AuditChain.cl_installationId row));
     (js "prId", orNull JStr (cl_prId row)); (js "event", JStr (cl_event row)); (js "model", orNull JStr (AuditChain.cl_model row));
     (js "inputTokens", orNull JNum (AuditChain.cl_inputTokens row)); (js "outputTokens", orNull JNum (AuditChain.cl_outputTokens row));
     (js "prevHash", orNull JStr (cl_prevHash row)); (js "hash", JStr (cl_hash row))].

Definition costLine (r : Z * CostLedgerRow) : str :=
  let row := r.2 in
  let field k v := jsonQuote k ++ ":" ++ v in
  let text s := stringifyValue (JStr s) in
  let int n := stringifyValue (JNum n) in
  "{" ++ join ","
    [field "kind" (text "cost"); field "id" (text (showZ r.1)); field "installationId" (text (showZ (cl_installationId row)));
     field "jobId" (text (cl_jobId row)); field "provider" (text (cl_provider row)); field "model" (text (cl_model row));
     field "callPhase" (text (phase_str (cl_callPhase row))); field "inputTokens" (int (cl_inputTokens row));
     field "outputTokens" (int (cl_outputTokens row)); field "cacheReadTokens" (int (cl_cacheReadTokens row));
     field "cacheCreationTokens" (int (cl_cacheCreationTokens row));
     field "costUsd" (if isFinite (cl_costUsd row) then showNumber (cl_costUsd row) else js "null");
     field "status" (text (status_str (cl_status row))); field "createdAt" (text (toISOString (cl_createdAt row)))] ++ "}".

Definition exportLines (a : list (Z * ChainLink)) (c : list (Z * CostLedgerRow)) : list str := map auditLine a ++ map costLine c.

Definition exportPayload (lines : list str) : str :=
  join nl lines ++ (if (0 <? length lines)%nat then nl else []).

Definition writeFile (path data : str) : eff Desk thrown unit :=
  let holds content := modify (fun d => setFiles (<[path := content]> (dk_files d)) d) in
  match disk path data with
  | Written => holds data
  | NotOpened e => throw e
  | Torn n e => holds (take n data);; throw e
  end.

Definition brokenText (breaks : list ChainBreak) : str :=
  let b := head breaks in
  "audit_log chain segment is broken at row " ++ default (js "?") (showN <$> (cb_index <$> b))
  ++ " (expected " ++ default (js "?") (expected <$> b) ++ ", got " ++ default (js "?") (actual <$> b)
  ++ "). Refusing to write a tainted export." ++ nl.

(** The start and the end of the range, or the option that is no date. *)
Definition exportRange (since : str) (until : option str) : result str (Z * option Z) :=
  match parseIsoDate parseDate since with
  | None => Throw ("--since must be an ISO date (got '" ++ since ++ "')." ++ nl)
  | Some s =>
      match until with
      | None => Ok (s, None)
      | Some u =>
          match parseIsoDate parseDate u with
          | None => Throw ("--until must be an ISO date (got '" ++ u ++ "')." ++ nl)
          | Some e => Ok (s, Some e)
          end
      end
  end.

Definition auditExportCommand (installationId : Z) (since : str) (until : option str) (output : str)
    : eff Desk thrown AuditExportResult :=
  match exportRange since until with
  | Throw text => complain deskIo [text];; mret (notExported st_invalid_args 0 0)
  | Ok (from, to_) =>
      match databaseUrl env with
      | None => complain deskIo [noDatabase];; mret (notExported st_config_error 0 0)
      | Some _ =>
          lift (bindBigint installationId);;
          d ← get;
          let a := auditRowsForExport installationId from to_ (dk_audit d) in
          let c := loadCostLedgerForExport installationId from to_ (dk_ledger d) in
          let '(ok, breaks) := verifyAuditChainSegment sha256hex toISOString (map (fun r => toLink r.2) a) in
          if negb ok then
            complain deskIo [brokenText breaks];;
            mret (notExported st_chain_break (length a) (length c))
          else
            writeFile output (gzip (exportPayload (exportLines a c)));;
            say deskIo ["Exported " ++ showN (length a) ++ " audit_log row(s) and " ++ showN (length c)
                          ++ " cost_ledger row(s) for installation " ++ showZ installationId ++ " to " ++ output ++ nl];;
            mret {| ax_status := st_ok; ax_auditRows := length a; ax_costRows := length c; ax_path := Some output |}
      end
  end.
End commands.

(** * What the maintenance commands guarantee *)

(** ** Lemmas *)

Lemma printed_out chunks d :
  printed (stdout deskIo) chunks d =
    {| dk_history := dk_history d; dk_audit := dk_audit d; dk_ledger := dk_ledger d; dk_files := dk_files d;
       dk_out := dk_out d ++ chunks; dk_err := dk_err d |}.
Proof.
  revert d. induction chunks as [|c cs IH]; intros d; [rewrite app_nil_r; by destruct d|].
  etrans; [apply (IH (stdout deskIo c d))|]. cbn. by rewrite <- app_assoc.
Qed.

Lemma printed_err chunks d :
  printed (stderr deskIo) chunks d =
    {| dk_history := dk_history d; dk_audit := dk_audit d; dk_ledger := dk_ledger d; dk_files := dk_files d;
       dk_out := dk_out d; dk_err := dk_err d ++ chunks |}.
Proof.
  revert d. induction chunks as [|c cs IH]; intros d; [rewrite app_nil_r; by destruct d|].
  etrans; [apply (IH (stderr deskIo c d))|]. cbn. by rewrite <- app_assoc.
Qed.

(** The tables and the files, without what was printed. *)
Definition tables (d : Desk) := (dk_history d, dk_audit d, dk_ledger d, dk_files d).

Lemma tables_out chunks d : tables (printed (stdout deskIo) chunks d) = tables d.
Proof. by rewrite printed_out. Qed.
Lemma tables_err chunks d : tables (printed (stderr deskIo) chunks d) = tables d.
Proof. by rewrite printed_err. Qed.

Lemma filter_all {A} (f : A -> bool) l : (forall x, f x = true) -> List.filter f l = l.
Proof. intros H. induction l as [|x l IH]; [done|]. cbn. by rewrite H, IH. Qed.
Lemma filter_none {A} (f : A -> bool) l : (forall x, f x = false) -> List.filter f l = [].
Proof. intros H. induction l as [|x l IH]; [done|]. cbn. by rewrite H, IH. Qed.

(** A connection that is not restricted, and the application's pool. *)
Lemma allows_open pool i : restricted pool = false -> allows pool i = true.
Proof. intros H. unfold allows. by rewrite H. Qed.
Lemma seesAudit_open pool row : restricted pool = false -> seesAudit pool row = true.
Proof. intros H. unfold seesAudit. destruct (AuditChain.cl_installationId row); [by apply allows_open|by rewrite H]. Qed.
Lemma seesAudit_app row : seesAudit appPool row = false.
Proof. unfold seesAudit. by destruct (AuditChain.cl_installationId row); [apply appPool_sees_nothing|]. Qed.

Lemma visibleAudit_open pool t : restricted pool = false -> visibleAudit pool t = t.
Proof. intros H. unfold visibleAudit. rewrite filter_all by (intros; by apply seesAudit_open). by destruct t. Qed.
Lemma visibleAudit_app t : al_rows (visibleAudit appPool t) = [].
Proof. cbn. apply filter_none. intros r. apply seesAudit_app. Qed.

Lemma pruneVisible_open pool before t : restricted pool = false -> pruneVisibleAudit pool before t = pruneAuditLog before t.
Proof.
  intros H. unfold pruneVisibleAudit. rewrite visibleAudit_open by done.
  unfold pruneAuditLog. destruct (last _) as [[id row]|]; cbn [fst anchorId]; [|by destruct t].
  do 2 f_equal. apply List.filter_ext. intros r. by rewrite seesAudit_open.
Qed.

Lemma pruneVisible_app before t :
  pruneVisibleAudit appPool before t = ({| deleted := 0; anchorId := None; anchorHash := None |}, t).
Proof.
  unfold pruneVisibleAudit, pruneAuditLog. rewrite visibleAudit_app. cbn. by destruct t.
Qed.

Lemma pruneCostLedger_open pool before l : restricted pool = false ->
  let kept := List.filter (fun x : Z * CostLedgerRow => (before <=? cl_createdAt x.2)%Z) l in
  exists n, pruneCostLedger pool before l = (n, kept) /\ length kept + n = length l.
Proof.
  intros Hp kept. unfold pruneCostLedger, kept. eexists. split.
  - f_equal. apply List.filter_ext. intros x. rewrite allows_open, andb_true_l by done. by rewrite Z.leb_antisym.
  - clear -Hp. induction l as [|x l IH]; [done|]. cbn [List.filter]. rewrite allows_open, andb_true_l by done.
    rewrite Z.leb_antisym. destruct (_ <? _)%Z; cbn [negb length]; lia.
Qed.

Lemma pruneCostLedger_app before l : pruneCostLedger appPool before l = (0, l).
Proof.
  unfold pruneCostLedger. rewrite filter_none, filter_all; [done|..]; intros r; by rewrite appPool_sees_nothing.
Qed.

(** ** Lines of an export *)

Lemma jsonEscape_line c : newline ∉ jsonEscape c.
Proof.
  assert (all_ascii (fun c => negb (bool_decide (newline ∈ jsonEscape c))) = true) as H by (vm_compute; reflexivity).
  apply (all_ascii_spec _ c) in H. cbv beta in H. by apply negb_true_iff, bool_decide_eq_false in H.
Qed.

Lemma jsonQuote_line s : newline ∉ jsonQuote s.
Proof.
  unfold jsonQuote. rewrite elem_of_cons, elem_of_app, list_elem_of_singleton.
  intros [E|[E|E]]; [done| |done]. induction s as [|c s IH]; cbn in E; [by apply elem_of_nil in E|].
  apply elem_of_app in E as [E|E]; [by apply jsonEscape_line in E|by apply IH].
Qed.

Lemma showZ_line n : newline ∉ showZ n.
Proof. by apply showZ_free. Qed.

Lemma stringifyValue_line v : newline ∉ stringifyValue v.
Proof. destruct v; [by not_in|apply jsonQuote_line|apply showZ_line]. Qed.

Lemma join_line sep l : newline ∉ sep -> Forall (fun s => newline ∉ s) l -> newline ∉ join sep l.
Proof.
  intros Hs H. induction H as [|s l Hl Hrest IH]; cbn; [by not_in|]. destruct l; [done|].
  rewrite !elem_of_app. intros [?|[?|?]]; done.
Qed.

Lemma braces_line s : newline ∉ s -> newline ∉ "{" ++ s ++ "}".
Proof. rewrite !elem_of_app. intros H [E|[E|E]]; [|done|]; revert E; not_in. Qed.

(** Lines end at the line breaks between them. *)
Lemma exportPayload_lines lines : Forall (fun s => newline ∉ s) lines -> splitChar newline (exportPayload lines) = lines ++ [[]].
Proof.
  unfold exportPayload. intros H. induction H as [|s l Hs Hl IH]; [done|]. cbn [length Nat.ltb Nat.leb].
  destruct l as [|t l].
  - cbn [join]. change nl with [newline]. by rewrite splitChar_app.
  - change (join nl (s :: t :: l)) with (s ++ nl ++ join nl (t :: l)). change nl with [newline] in *.
    rewrite <- app_assoc. cbn [app]. rewrite splitChar_app by done. f_equal. exact IH.
Qed.

Lemma stringifyObject_line fields : newline ∉ stringifyObject fields.
Proof.
  unfold stringifyObject. apply braces_line, join_line; [by not_in|]. apply Forall_forall.
  intros s ([k v] & -> & _)%elem_of_bmap. unfold stringifyField. rewrite !elem_of_app.
  intros [E|[E|E]]; [by apply jsonQuote_line in E|revert E; not_in|by apply stringifyValue_line in E].
Qed.

Lemma costLine_line toISOString showNumber r : (forall x, newline ∉ showNumber x) -> newline ∉ costLine toISOString showNumber r.
Proof.
  intros Hn. unfold costLine. apply braces_line, join_line; [by not_in|].
  assert (forall k v, newline ∉ v -> newline ∉ jsonQuote k ++ ":" ++ v) as H.
  { intros k v Hv. rewrite !elem_of_app. intros [E|[E|E]]; [by apply jsonQuote_line in E|revert E; not_in|done]. }
  repeat (apply Forall_cons; split; [apply H; try apply stringifyValue_line|]); [|apply Forall_nil; exact I].
  destruct (isFinite _); [apply Hn|by not_in].
Qed.

Lemma exportLines_line toISOString showNumber a c : (forall x, newline ∉ showNumber x) ->
  Forall (fun s => newline ∉ s) (exportLines toISOString showNumber a c).
Proof.
  intros Hn. unfold exportLines. apply Forall_app. split; apply Forall_map, Forall_forall; intros x _;
    [apply stringifyObject_line|by apply costLine_line].
Qed.

(** ** Properties *)

(** C35. A confirmed prune on an unrestricted connection of a log the program built answers ok. Of the
    log's rows older than the date the newest one stays, as the anchor that is reported, and every
    row before it goes, none of the later ones; without an older row nothing goes. What stays
    verifies and can be appended to, the ledger loses exactly the rows before the date, and the
    answer counts what went. A malformed date, a missing address or a missing confirmation is
    answered as such, and nothing changes. *)
Theorem audit_prune_keeps_the_log ellipsis sha256hex toISOString parseDate env pool text confirm d :
  restricted pool = false -> reachable sha256hex toISOString (dk_audit d) ->
  exists r d', auditPruneCommand ellipsis sha256hex toISOString parseDate pool env text confirm d = (Ok r, d') /\
    dk_history d' = dk_history d /\ dk_files d' = dk_files d /\
    match parseIsoDate parseDate text, databaseUrl env, confirm with
    | None, _, _ => ap_status r = st_invalid_args /\ tables d' = tables d
    | Some _, None, _ => ap_status r = st_config_error /\ tables d' = tables d
    | Some _, Some _, false => ap_status r = st_dry_run /\ tables d' = tables d
    | Some before, Some _, true =>
        ap_status r = st_ok /\
        (exists gone, al_rows (dk_audit d) = gone ++ al_rows (dk_audit d') /\ length gone = ap_auditDeleted r /\
           match ap_anchorId r with
           | None => gone = [] /\ Forall (fun x => before <= cl_ts x.2)%Z (al_rows (dk_audit d))
           | Some id => exists row later, al_rows (dk_audit d') = (id, row) :: later /\
               (cl_ts row < before)%Z /\ Forall (fun x => before <= cl_ts x.2)%Z later /\
               ap_anchorHash r = Some (cl_hash row)
           end) /\
        reachable sha256hex toISOString (dk_audit d') /\
        (verifyAuditChainSegmentFromDb sha256hex toISOString None (dk_audit d')).1.1 = true /\
        dk_ledger d' = List.filter (fun x => (before <=? cl_createdAt x.2)%Z) (dk_ledger d) /\
        length (dk_ledger d') + ap_costDeleted r = length (dk_ledger d)
    end.
Proof.
  intros Hp Hr. unfold auditPruneCommand. destruct (parseIsoDate parseDate text) as [before|]; [|by do 2 eexists].
  destruct (databaseUrl env); [|by do 2 eexists]. destruct confirm; cbn [negb]; [|by do 2 eexists].
  unfold mbind at 1, eff_bind at 1, get. rewrite pruneVisible_open by done.
  pose proof (reachable_wellFormed _ _ _ Hr) as [Hkeys _ _]. pose proof (prune_split before _ Hkeys) as Hsplit.
  destruct (pruneAuditLog before (dk_audit d)) as [a t] eqn:Ea. cbn [fst snd] in Hsplit.
  assert (reachable sha256hex toISOString t) as Ht by (change t with (a, t).2; rewrite <- Ea; by constructor).
  rewrite visibleAudit_open by done.
  rewrite (wellFormed_verifies _ _ t) by by apply reachable_wellFormed. cbn [negb].
  set (kept := List.filter (fun x => (before <=? cl_createdAt x.2)%Z) (dk_ledger d)).
  destruct (pruneCostLedger_open pool before (dk_ledger d) Hp) as (n & En & Hn).
  unfold mbind, eff_bind, modify. rewrite En. do 2 eexists. split; [reflexivity|].
  unfold say, modify. rewrite printed_out. cbn. split_and!; try done.
  - destruct (anchorId a) as [id|] eqn:Eid.
    + destruct Hsplit as (pre & row & suf & -> & -> & Hold & Hlater & Hd & Hh). exists pre. cbn. split_and!; [done|done|].
      by exists row, suf.
    + destruct Hsplit as [-> Hnone]. exists []. split_and!; [done| |done..]. cbn.
      revert Ea Eid. unfold pruneAuditLog. destruct (last _) as [[id row]|]; by intros [= <-].
  - rewrite (wellFormed_verifies _ _ t); [done|]. by apply reachable_wellFormed.
Qed.

(** The rule an operator names. *)
Definition isRule (id i : Z) (repo : str) (r : HistoryRow) : Prop :=
  row_id r = id /\ row_installationId r = i /\ row_repo r = repo /\ row_factType r = suppression_rule.

(** A removal takes the named rule and nothing else - no row of another installation, repository or
    type - and the next list does not show it. Whether it took one is read off the driver's answer:
    a driver that counts rows as node-postgres does gives the right answer, but the one the program
    uses leaves [rowCount] out and the array empty, and every removal is reported as not found. *)
Theorem removed_rules_are_reported_missing answer env pool id i repo d url :
  databaseUrl env = Some url -> restricted pool = false -> bindBigint id = Ok tt -> bindBigint i = Ok tt ->
  exists s d', suppressionRemoveCommand answer pool env i repo id d = (Ok s, d') /\
    (forall r, r ∈ rows (dk_history d') <-> r ∈ rows (dk_history d) /\ ~ isRule id i repo r) /\
    (dk_audit d', dk_ledger d', dk_files d') = (dk_audit d, dk_ledger d, dk_files d) /\
    (forall at_, id ∉ map row_id (loadActiveSuppressionRules at_ i repo (visibleHistory pool (dk_history d')))) /\
    ((forall n, answer n = nodePostgres n) -> (s = st_ok <-> exists r, r ∈ rows (dk_history d) /\ isRule id i repo r)) /\
    ((forall n, answer n = postgresJs n) -> s = st_not_found).
Proof.
  intros Hu Hp Hid Hi. unfold suppressionRemoveCommand. rewrite Hu, Hid, Hi.
  unfold mbind, eff_bind, lift, get, modify. unfold deleteVisibleRule. rewrite allows_open by done.
  unfold deleteSuppressionRule. set (hit := fun r => (_ && _)).
  assert (forall r, hit r = true <-> isRule id i repo r) as Hhit.
  { intros r. unfold hit, isRule, isType. rewrite !andb_true_iff, !bool_decide_eq_true, !Z.eqb_eq. tauto. }
  set (h := {| rows := _ |}). set (n := length _).
  assert (forall r, r ∈ rows h <-> r ∈ rows (dk_history d) /\ ~ isRule id i repo r) as Hrows.
  { intros r. unfold h. cbn. rewrite elem_of_bfilter, negb_true_iff, <- Hhit. rewrite not_true_iff_false. tauto. }
  assert (forall at_, id ∉ map row_id (loadActiveSuppressionRules at_ i repo (visibleHistory pool h))) as Hlist.
  { intros at_ (r & Er & Hr)%elem_of_bmap. unfold loadActiveSuppressionRules in Hr. rewrite elem_of_newestFirst in Hr.
    apply elem_of_bfilter in Hr as [Hr Hf]. unfold active, isType in Hf.
    rewrite !andb_true_iff, !bool_decide_eq_true, Z.eqb_eq in Hf. destruct Hf as [[[Ei Erepo] _] Et].
    apply elem_of_bfilter in Hr as [Hr _]. apply Hrows in Hr as [_ []]. by split_and!. }
  assert ((forall k, answer k = postgresJs k) -> (0 <? affected (answer n))%Z = false) as Hjs by (intros ->; done).
  assert ((forall k, answer k = nodePostgres k) -> (0 <? affected (answer n))%Z = true <-> exists r, r ∈ rows (dk_history d) /\ isRule id i repo r) as Hpg.
  { intros ->. cbn. rewrite Z.ltb_lt. unfold n. split.
    - destruct (List.filter hit _) as [|r l] eqn:E; [cbn; lia|]. intros _. exists r.
      rewrite <- Hhit. assert (r ∈ List.filter hit (rows (dk_history d))) as H by (rewrite E; left).
      apply elem_of_bfilter in H as [? ?]. done.
    - intros (r & Hr & Hrule). assert (r ∈ List.filter hit (rows (dk_history d))) as H by (apply elem_of_bfilter; by rewrite Hhit).
      destruct (List.filter hit _); [by apply elem_of_nil in H|]. cbn. lia. }
  destruct (0 <? affected (answer n))%Z; do 2 eexists; (split; [reflexivity|]); unfold say, modify;
    rewrite printed_out; cbn [dk_history dk_audit dk_ledger dk_files setHistory]; split_and!; try done.
  all: try (intros H; specialize (Hpg H); split; [|done]; intros _; by apply Hpg).
  - intros H. by specialize (Hjs H).
  - intros H. specialize (Hpg H). split; [done|]. intros Hr. by apply Hpg in Hr.
Qed.

(** [l] lists the rows of a table that are kept by [f], each as often as the table has it, by
    increasing keys. *)
Definition listed {A} (f : Z * A -> bool) (table l : list (Z * A)) : Prop :=
  l ≡ₚ List.filter f table /\ StronglySorted byKey l.

Lemma merge_sort_listed {A} (f g : Z * A -> bool) table :
  (forall x, f x = g x) -> listed g table (merge_sort byKey (List.filter f table)).
Proof.
  intros Hfg. rewrite (List.filter_ext f g Hfg). split; [apply merge_sort_Permutation|].
  assert (Total (@byKey A)) by (intros x y; unfold byKey; lia).
  apply Sorted_StronglySorted; [intros x y z; unfold byKey; lia|]. apply (Sorted_merge_sort byKey).
Qed.

(** The rows that an export of a tenant's range is asked for. *)
Definition auditOf (pool : Connection) (i from : Z) (to_ : option Z) (r : Z * ChainLink) : bool :=
  seesAudit pool r.2 && bool_decide (AuditChain.cl_installationId r.2 = Some i) && inRange from to_ (cl_ts r.2).
Definition costOfRange (pool : Connection) (i from : Z) (to_ : option Z) (r : Z * CostLedgerRow) : bool :=
  allows pool (CostLedger.cl_installationId r.2) && (CostLedger.cl_installationId r.2 =? i)%Z
  && inRange from to_ (cl_createdAt r.2).

(** C36. An export leaves the tables alone. One that answers ok has written the one file that holds
    the tenant's rows of the range and nothing else, each on a line of its own, by increasing keys,
    the log's before the ledger's, and the log's rows were a chain when they were written; any
    other answer - a malformed date, no address, a log that does not verify - leaves the files as
    they were. So does a failure, unless the file system gives up while it writes: then the
    output's old content is lost, the file holds the beginning of such an export, and the command
    throws the file system's error. *)
Theorem export_is_whole_or_refused sha256hex toISOString showNumber parseDate gzip disk env pool i since until output d :
  (forall x, newline ∉ showNumber x) ->
  let whole from to_ a c text :=
    exportRange parseDate since until = Ok (from, to_) /\
    listed (auditOf pool i from to_) (al_rows (dk_audit d)) a /\ listed (costOfRange pool i from to_) (dk_ledger d) c /\
    splitChar newline text = map (auditLine toISOString) a ++ map (costLine toISOString showNumber) c ++ [[]] /\
    exists prev, chain sha256hex toISOString prev (map snd a) in
  match auditExportCommand sha256hex toISOString showNumber parseDate gzip disk pool env i since until output d with
  | (Ok r, d') =>
      (dk_history d', dk_audit d', dk_ledger d') = (dk_history d, dk_audit d, dk_ledger d) /\
      if bool_decide (ax_status r = st_ok) then
        exists from to_ a c text, whole from to_ a c text /\
          dk_files d' = <[output := gzip text]> (dk_files d) /\
          ax_auditRows r = length a /\ ax_costRows r = length c
      else dk_files d' = dk_files d
  | (Throw e, d') =>
      (dk_history d', dk_audit d', dk_ledger d') = (dk_history d, dk_audit d, dk_ledger d) /\
      (dk_files d' = dk_files d \/
       exists from to_ a c text n, whole from to_ a c text /\ disk output (gzip text) = Torn n e /\
         dk_files d' = <[output := take n (gzip text)]> (dk_files d))
  end.
Proof.
  intros Hn whole. unfold auditExportCommand. destruct (exportRange parseDate since until) as [[from to_]|text] eqn:Er; [|done].
  destruct (databaseUrl env); [|done].
  unfold mbind at 1, eff_bind at 1, lift. destruct (bindBigint i) as [[]|e]; [|by split; [|left]].
  unfold mbind at 1, eff_bind at 1, get.
  set (a := auditRowsForExport _ _ _ _ _). set (c := loadCostLedgerForExport _ _ _ _ _).
  destruct (verifyAuditChainSegment _ _ _) as [ok breaks] eqn:Ev. destruct ok; cbn [negb]; [|done].
  set (text := exportPayload (exportLines toISOString showNumber a c)).
  assert (whole from to_ a c text) as Hwhole.
  { split_and!; [exact eq_refl|apply merge_sort_listed; intros r; by rewrite !andb_assoc
      |apply merge_sort_listed; intros r; by rewrite !andb_assoc| |].
    - rewrite app_assoc. by apply exportPayload_lines, exportLines_line.
    - apply segment_chain. by rewrite map_map, Ev. }
  clearbody whole text. unfold writeFile, say, modify, mbind, eff_bind.
  destruct (disk output (gzip text)) as [|e|n e] eqn:Ed; cbn.
  - split; [done|]. by exists from, to_, a, c, text.
  - split; [done|by left].
  - split; [done|right]. by exists from, to_, a, c, text, n.
Qed.

(** ** An operator's desk *)

Definition operator : Connection := {| restricted := false; current_tenant := None |}.
Definition deskEnv : DbEnv := {| DATABASE_URL := Some (js "postgres://db"); REVIEW_AGENT_DATABASE_URL := None |}.
Definition deskDate (_ : str) : option Z := Some 150%Z.
Definition deskRule : HistoryRow :=
  {| row_id := 5; row_installationId := 1; row_repo := "o/r"; row_factType := suppression_rule;
     row_factText := "[fp:abcdef12] noisy"; row_createdAt := 0; row_expiresAt := 1000 |}.
Definition deskCost (at_ : Z) : CostLedgerRow :=
  {| cl_installationId := 1; cl_jobId := "j"; cl_provider := "p"; cl_model := "m"; cl_callPhase := review_main;
     cl_inputTokens := 1; cl_outputTokens := 1; cl_cacheReadTokens := 0; cl_cacheCreationTokens := 0; cl_costUsd := zero;
     cl_latencyMs := 0; cl_status := success; cl_createdAt := at_ |}.
Definition desk : Desk :=
  {| dk_history := {| rows := [deskRule]; nextId := 6 |}; dk_audit := demoLog 1;
     dk_ledger := [(1%Z, deskCost 100); (2%Z, deskCost 200)]; dk_files := ∅; dk_out := []; dk_err := [] |}.

Lemma audit_prune_keeps_the_log_witness : exists r d',
  auditPruneCommand "..." demoHash showZ deskDate operator deskEnv "2026-01-01" true desk = (Ok r, d') /\
  ap_status r = st_ok /\ dk_ledger d' = [(2%Z, deskCost 200)] /\
  (verifyAuditChainSegmentFromDb demoHash showZ None (dk_audit d')).1.1 = true.
Proof.
  destruct (audit_prune_keeps_the_log "..." demoHash showZ deskDate deskEnv operator "2026-01-01" true desk
              eq_refl (demoLog_reachable 1)) as (r & d' & E & _ & _ & H).
  assert (ap_status r = st_ok) as Hs by (revert E; vm_compute; intros E; by injection E as <- _).
  clear Hs. destruct H as (Hs & _ & _ & Hv & Hl & _).
  exists r, d'. split_and!; [exact E|exact Hs| |exact Hv]. rewrite Hl. reflexivity.
Defined.

Lemma removed_rules_are_reported_missing_witness : exists d',
  suppressionRemoveCommand postgresJs operator deskEnv 1 "o/r" 5 desk = (Ok st_not_found, d') /\ deskRule ∉ rows (dk_history d').
Proof.
  destruct (removed_rules_are_reported_missing postgresJs deskEnv operator 5 1 "o/r" desk (js "postgres://db")
              eq_refl eq_refl eq_refl eq_refl) as (s & d' & E & Hr & _ & _ & _ & Hjs).
  rewrite (Hjs (fun n => eq_refl)) in E. exists d'. split; [exact E|].
  intros [_ []]%Hr. by split_and!.
Defined.

(** A table whose rows are not in the order of their keys, on a disk with room and on a full one. *)
Definition unsortedDesk : Desk := setLedger [(2%Z, deskCost 200); (1%Z, deskCost 160)] desk.
Definition fullDisk (path data : str) : WriteOutcome := Torn 3 (errorOf "ENOSPC: no space left on device, write").

Lemma export_is_whole_or_refused_witness :
  (exists r d' a c text, auditExportCommand demoHash showZ (fun _ => []) deskDate (fun s => s) (fun _ _ => Written) operator deskEnv
      1 "2026-01-01" None "out" unsortedDesk = (Ok r, d') /\ ax_status r = st_ok /\ dk_files d' = <[js "out" := text]> ∅ /\
     splitChar newline text = map (auditLine showZ) a ++ map (costLine showZ (fun _ => [])) c ++ [[]] /\
     StronglySorted byKey c /\ length c = 2) /\
  (exists e d' text, auditExportCommand demoHash showZ (fun _ => []) deskDate (fun s => s) fullDisk operator deskEnv
      1 "2026-01-01" None "out" unsortedDesk = (Throw e, d') /\ dk_files d' = <[js "out" := take 3 text]> ∅).
Proof.
  pose proof (fun disk => export_is_whole_or_refused demoHash showZ (fun _ => []) deskDate (fun s => s) disk deskEnv operator
                1 "2026-01-01" None "out" unsortedDesk (fun x => not_elem_of_nil _)) as H.
  split.
  - specialize (H (fun _ _ => Written)).
    destruct (auditExportCommand _ _ _ _ _ _ _ _ _ _ _ _ unsortedDesk) as [[r|e] d'] eqn:E; [|exfalso; revert E; vm_compute; discriminate].
    assert (ax_status r = st_ok /\ ax_costRows r = 2) as [Hs Hc] by (revert E; clear H; vm_compute; intros E; by injection E as <- _).
    cbv zeta in H. rewrite Hs in H. destruct H as (_ & from & to_ & a & c & text & (_ & _ & Hl & Ht & _) & Hf & _ & Hcount).
    exists r, d', a, c, text. split_and!; [reflexivity|exact Hs|exact Hf|exact Ht|apply Hl|by rewrite <- Hcount].
  - specialize (H fullDisk).
    destruct (auditExportCommand _ _ _ _ _ _ _ _ _ _ _ _ unsortedDesk) as [[r|e] d'] eqn:E; [exfalso; revert E; clear H; vm_compute; discriminate|].
    destruct H as [_ [Hf|(from & to_ & a & c & text & n & _ & Hd & Hf)]].
    + exfalso. revert E Hf. vm_compute. intros E. injection E as _ <-. discriminate.
    + exists e, d', text. unfold fullDisk in Hd. injection Hd as <- _. split; [reflexivity|exact Hf].
Defined.
